(* ===== verification/_CoqProject ===== *)
-Q . S2P
Prelude.v
Kstd.v
Words.v
Physical.v
Ring.v
Pipe.v
PipeRace.v
LineDiscipline.v
IntrusiveList.v
Scheduler.v
Files.v
Process.v
Descriptors.v
Signals.v
AddressSpace.v
PageTables.v
Boot.v
Spaces.v
Clone.v
AddressSpaces.v
UserMemory.v
Mmap.v
Heap.v
Sorting.v
Malloc.v
MallocArena.v
MallocSafe.v
Paths.v
Vfs.v
Trees.v
Tmpfs.v
VfsTree.v
VfsCalls.v
VfsPaths.v
Ustar.v
Archive.v
BootTree.v
FileSystem.v
Descriptions.v
SpaceView.v
Elf.v
ElfLoader.v
UserStack.v
Exec.v
