(* ===== verification/Prelude.v ===== *)
(** * shit os 2: a verification library

    shit os 2 is a small x86-64 operating system: a preemptive single-CPU kernel
    (src/kernel), loadable drivers (src/modules), a C library and programs for it
    (src/user).  This library models the parts of it that other parts trust and
    proves what they are trusted for.  A definition has the name of the function
    it translates; machine integers are [Z] with the wrap written out ([u64],
    [i32], ... below); a call that can fail runs in the monad [M], which returns a
    value, an errno or a kernel panic together with the state reached; a call that
    can sleep returns where it sleeps and is resumed by its caller.

    ** The files, and the code each one models

    - [Prelude]: machine integers, results and their monad, arrays with C's
      indexing ([zget], [zset]), counted loops and their induction principles.
    - [Kstd]: the rounding helpers of kernel/lib/kstd.h.
    - [Physical]: kernel/mm/physical.cpp, the page-frame bitmap.  [pmm_inv] is its
      invariant; [physical_initialize_safe] says which frames are free after boot,
      [allocate_page_spec], [allocate_contiguous_first_fit] what an allocation
      takes and when it fails, and [pmm_reachable_inv] that every call keeps the
      invariant.  The interface [FrameAllocator] is what later files rely on.
    - [Heap]: kernel/mm/heap.cpp over any [RunAllocator] (which [Physical]
      implements).  The state is all of memory in eight-byte words, so the free
      lists are the words inside the free chunks; [heap_safe] is the contract of
      kmalloc, kzalloc, kfree and krealloc.
    - [Ring], [Pipe], [PipeRace]: kernel/fs/pipe.cpp.  [Pipe] treats what a call
      does between two sleeps as one transition and proves the pipe a bounded
      queue; [PipeRace] interleaves readers and writers statement by statement.
    - [LineDiscipline]: kernel/dev/line_discipline.cpp, against a specification
      that keeps the line being edited and the delivered input apart.
    - [IntrusiveList]: kernel/lib/intrusive_list.h, the pointers themselves, shown
      to be a list.  The files below use the list.
    - [Scheduler]: kernel/sched/scheduler.cpp, waitqueue.cpp and the tick of
      kernel/arch/x86_64/pit.cpp; the run queue, the sleepers, wait queues.
    - [Files], [Process], [Descriptors], [Signals]: kernel/fs/vfs.h's
      descriptions, kernel/sched/process.cpp and the process, descriptor and
      signal calls of kernel/sys/syscall.cpp.  [Descriptors] carries the reference
      counts through every call, [Signals] the pending, blocked and handled sets.
    - [AddressSpace], [PageTables], [Boot], [Spaces], [Clone], [AddressSpaces]:
      kernel/mm/address_space.cpp over page tables in physical memory.
      [AddressSpace] has the operations, [PageTables] the invariant [vm_inv] and
      what an entry change means, [Boot] the kernel's own map, [Spaces] tearing
      down, [Clone] fork's copy, and [AddressSpaces] the theorems.
    - [UserMemory]: copy_from_user, copy_to_user and copy_string_from_user of
      kernel/sys/syscall.cpp, byte by byte through the page tables.
    - [Mmap]: brk, mmap and munmap.
    - [Words]: clearing and copying a memory of eight-byte words, for the two
      allocators.
    - [Malloc], [MallocArena], [MallocSafe]: user/libc/src/stdlib.c's malloc, free,
      calloc and realloc and unistd.c's sbrk.  [Malloc] has the code, [MallocArena]
      the invariant of the arena (the chain of blocks in address order and the
      size-class lists threaded through the free payloads) under each pointer
      manipulation, [MallocSafe] the calls and the contract [malloc_safe].
    - [Sorting]: qsort and bsearch of the same file.
    - [Paths], [Vfs]: kernel/fs/vfs.cpp and tmpfs.cpp (inodes, mounts, paths, open,
      rename, getcwd, the pages of a file) with the path calls of
      kernel/sys/syscall.cpp.  An inode is a cell of a map from addresses; using an
      address that is not there panics.  [Trees] has the invariant of the inode
      tree ([tree_ok]: links, names, reference counts) under each pointer change,
      [Tmpfs] that of the files' pages with what read, write and truncate do to a
      file's bytes, [VfsTree] puts the two and the mount table together
      ([vfs_inv]), [VfsCalls] takes each system call through it, and [VfsPaths]
      relates the way down of resolve to the way up of getcwd.
    - [Ustar], [Archive], [BootTree]: kernel/fs/ustar.cpp, devfs.cpp and
      boot_mounts.cpp.  [Archive] says what a tar archive is and that the parser
      reads one back; [BootTree] follows the boot from the bytes of the module to
      the three mounted file systems.
    - [FileSystem]: the theorems about all of these, over any sequence of calls
      from boot: [file_system_safe], [names_are_maps], [files_are_bytes],
      [getcwd_resolves], [initrd_is_mounted], and three runs that show which
      conditions of [call_ok] the code itself does not see to.
    - [Descriptions]: the FileDescription operations of vfs.cpp, the devices' side
      of devfs.cpp, and readdir of user/libc/src/dirent.c over getdents:
      [open_file_is_stream] and [readdir_lists_directory].
    - [Elf], [SpaceView], [ElfLoader], [UserStack], [Exec]: kernel/lib/elf.h,
      kernel/sys/elf_loader.cpp and the part of sys_execve that builds the new
      image.  [SpaceView] says what a space shows at an address (a byte and its
      flags) and what mapping, writing through the direct map and protecting do to
      that; [load_executable_correct], [setup_user_stack_correct] and
      [exec_image_all_or_nothing] are in those terms.
      [loader_writes_kernel_memory] and [loader_overruns_block] run files whose
      sizes the loader does not check.

    ** How the parts fit

    [Heap] and [AddressSpace] take their frames from [Physical] through the
    classes [RunAllocator] and [FrameAllocator], so their theorems hold for any
    allocator with those laws and are instantiated at the real one in the
    witnesses.  [Mmap] and [UserMemory] run on the address spaces of
    [AddressSpaces].  [Descriptors] runs on [Process] and [Files]; [Signals] puts
    [Process] and [Scheduler] together.  The file system takes the pages of files
    from any [FrameAllocator] and a FIFO's contents from [Pipe]; what kmalloc
    answers during a call is an argument ([KernelHeap]), of which [heap_ok] asks
    only that a new inode's address is not in use.  [Descriptors] treats an inode
    as its reference count; [FileSystem] has the inode itself, with the list of the
    references held from outside.  The loader's state is the address spaces, a heap
    of buffers and the file: of the heap it needs [BufferHeap], which [Heap]
    implements, and of the file [FileInode], reads that may fail or stop short but
    return the file's bytes.  The two memories are apart, the heap's blocks being in
    frames no space maps.

    ** Bounds and fuel

    Loops of the source that run over an array or a counted range are folds and
    need no fuel.  The scans of [Physical] take as fuel the number of bitmap words
    or frames, which the theorems show to be enough (a failed scan means no frame,
    not an exhausted counter).  Where the source loops until a condition
    ([kfree_aligned]'s walk), the fuel is an argument.  A walk along one of
    malloc's lists has as fuel the number of blocks the arena has room for, and
    [malloc_safe] shows it never runs out.  A walk up the inode tree and the
    release of a subtree have as fuel the number of inodes, a walk down a path its
    length, a copy of a file the pages it meets, getdents the bytes of its buffer;
    [file_system_safe] and [readdir_lists_directory] show each to be enough, since
    running out is a panic.  The two copies of the loader have as fuel the bytes
    to copy, each turn copying one at least.  A file is bounded by 2^63 bytes and the references by
    [LIMIT], 2^30 (a count must not wrap).  Physical memory is bounded
    by 2^40 frames in [AddressSpace] (the 52 bits of an entry) and by 2^34 in
    [Heap] (the direct map must not wrap).

    ** Not modelled

    Registers, the FPU and the machine-dependent half of a context switch; the
    translation caches, so [invlpg] is the identity; interrupt masking, except
    where a file says which sections are atomic; the consoles and the framebuffer,
    and device drivers' port input and output; the window system, the toolkit and
    the programs under src/user/bin; the C library's streams, regular expressions
    and floating point; the module loader.  In the file system: a
    process's stores through a mapped page, two calls interleaved inside one
    another (each call runs to its end or to a sleep), the drivers behind a
    device's table. *)

From Stdlib Require Export ZArith Lia Bool.
From stdpp Require Export base tactics list option numbers gmap.

#[export] Set Default Goal Selector "!".
#[global] Open Scope Z_scope.

(** ** Machine integers

    A w-bit unsigned integer is a [Z] in [0, 2^w); every operation of the
    source that can leave that range is followed by the wrap. *)

Definition u8 (z : Z) : Z := z mod 2 ^ 8.
Definition u16 (z : Z) : Z := z mod 2 ^ 16.
Definition u32 (z : Z) : Z := z mod 2 ^ 32.
Definition u64 (z : Z) : Z := z mod 2 ^ 64.

(** The signed types: [char] (as on x86-64), [int] and [i64]. *)
Definition i8 (z : Z) : Z := (z + 2 ^ 7) mod 2 ^ 8 - 2 ^ 7.
Definition i32 (z : Z) : Z := (z + 2 ^ 31) mod 2 ^ 32 - 2 ^ 31.
Definition i64 (z : Z) : Z := (z + 2 ^ 63) mod 2 ^ 64 - 2 ^ 63.

Definition is_u64 (z : Z) : Prop := 0 <= z < 2 ^ 64.

(** [__builtin_ctzll]: the index of the lowest set bit of a 64-bit word, by
    trying the 64 positions in order.  The builtin is undefined on 0; the
    callers test for 0 first. *)
Fixpoint ctz_from (fuel : nat) (i : Z) (w : Z) : Z :=
  match fuel with
  | O => i
  | S fuel' => if Z.testbit w i then i else ctz_from fuel' (i + 1) w
  end.
Definition ctzll (w : Z) : Z := ctz_from 64 0 w.

(** ** Results

    A kernel operation returns a value, an errno, or stops the machine
    ([panic]).  The state reached is returned in every case, because an early
    return of the source keeps the writes made before it. *)

Inductive Res (A : Type) : Type :=
| Ok (a : A)
| Err (code : Z)
| Panic.
Arguments Ok {A} a.
Arguments Err {A} code.
Arguments Panic {A}.

Definition M (St A : Type) : Type := St -> Res A * St.

Definition mok {St A} (a : A) : M St A := fun s => (Ok a, s).
Definition merr {St A} (code : Z) : M St A := fun s => (Err code, s).
Definition mpanic {St A} : M St A := fun s => (Panic, s).
Definition mget {St} : M St St := fun s => (Ok s, s).
Definition mput {St} (s' : St) : M St unit := fun _ => (Ok tt, s').
Definition mmod {St} (f : St -> St) : M St unit := fun s => (Ok tt, f s).

(** [TRY]: unwrap or propagate. *)
Definition mtry {St A B} (m : M St A) (k : A -> M St B) : M St B :=
  fun s => match m s with
           | (Ok a, s') => k a s'
           | (Err e, s') => (Err e, s')
           | (Panic, s') => (Panic, s')
           end.

(** Inspecting a result with [is_error()] instead of propagating it. *)
Definition mcatch {St A} (m : M St A) : M St (A + Z) :=
  fun s => match m s with
           | (Ok a, s') => (Ok (inl a), s')
           | (Err e, s') => (Ok (inr e), s')
           | (Panic, s') => (Panic, s')
           end.

(** A call that may sleep runs until it returns or reaches a [wait()] on a wait
    queue; in the second case it keeps its locals and is re-entered with them
    once it is woken.  One transition is such a run with nothing else in
    between.  The kernel enables interrupts during system calls, so a timer tick
    can also preempt a call half way: where that matters (the pipe, the wait
    queues) a second, statement-by-statement model says what can happen. *)
Inductive Blocking (L A : Type) : Type :=
| Done (r : Res A)
| WaitOn (locals : L).
Arguments Done {L A} r.
Arguments WaitOn {L A} locals.

Declare Scope kernel_scope.
Delimit Scope kernel_scope with K.
Notation "'let!' x := m 'in' k" := (mtry m (fun x => k))
  (at level 10, x pattern, m at level 100, k at level 200) : kernel_scope.
Notation "m ;! k" := (mtry m (fun _ => k))
  (at level 100, k at level 200, right associativity) : kernel_scope.
#[global] Open Scope kernel_scope.

(** Running one statement of a sequence. *)
Lemma mtry_ok {St A B} (m : M St A) (k : A -> M St B) s a s' : m s = (Ok a, s') -> mtry m k s = k a s'.
Proof. unfold mtry. by intros ->. Qed.

Lemma mtry_mok {St A B} (a : A) (k : A -> M St B) s : mtry (mok a) k s = k a s.
Proof. done. Qed.

Lemma mtry_get {St B} (k : St -> M St B) s : mtry mget k s = k s s.
Proof. done. Qed.

Lemma mtry_mod {St B} f (k : unit -> M St B) s : mtry (mmod f) k s = k tt (f s).
Proof. done. Qed.

Create HintDb run.
Create Rewrite HintDb run.
#[export] Hint Rewrite @mtry_mok @mtry_get @mtry_mod : run.

(** ** errno values (include/shitos/abi/errno.h) *)

Definition EPERM := 1.
Definition ENOENT := 2.
Definition ESRCH := 3.
Definition EINTR := 4.
Definition ENXIO := 6.
Definition E2BIG := 7.
Definition ENOEXEC := 8.
Definition EBADF := 9.
Definition ECHILD := 10.
Definition EAGAIN := 11.
Definition ENOMEM := 12.
Definition EACCES := 13.
Definition EFAULT := 14.
Definition EBUSY := 16.
Definition EEXIST := 17.
Definition EXDEV := 18.
Definition ENODEV := 19.
Definition ENOTDIR := 20.
Definition EISDIR := 21.
Definition EINVAL := 22.
Definition EMFILE := 24.
Definition ENOTTY := 25.
Definition ENOSPC := 28.
Definition EROFS := 30.
Definition EPIPE := 32.
Definition ERANGE := 34.
Definition ENAMETOOLONG := 36.
Definition ENOTEMPTY := 39.
Definition ENOTSUP := 95.

(** ** Signal numbers (include/shitos/abi/signal.h) *)

Definition SIGHUP := 1.
Definition SIGINT := 2.
Definition SIGQUIT := 3.
Definition SIGKILL := 9.
Definition SIGPIPE := 13.
Definition SIGCHLD := 17.
Definition SIGCONT := 18.
Definition SIGSTOP := 19.
Definition SIGTSTP := 20.
Definition SIGTTIN := 21.
Definition SIGTTOU := 22.
Definition SIGURG := 23.
Definition SIGWINCH := 28.
Definition NSIG := 32.

(** ** Arrays

    A C array is a list of its fixed length, indexed by a non-negative [Z]. *)

Definition zget {A} (d : A) (l : list A) (i : Z) : A := default d (l !! Z.to_nat i).
Definition zset {A} (l : list A) (i : Z) (x : A) : list A := <[Z.to_nat i := x]> l.
Definition zlen {A} (l : list A) : Z := Z.of_nat (length l).

(** ** Loops

    [for_up n i f s] runs the body [f] for the [n] values [i, i+1, ...]. *)
Fixpoint for_up {St} (n : nat) (i : Z) (f : Z -> St -> St) (s : St) : St :=
  match n with
  | O => s
  | S n' => for_up n' (i + 1) f (f i s)
  end.

(** [mfor n i step body] runs a body that can fail for the [n] values [i],
    [i + step], ...; an error or a panic ends the loop. *)
Fixpoint mfor {St} (n : nat) (i step : Z) (body : Z -> M St unit) : M St unit :=
  match n with
  | O => mok tt
  | S n' => body i ;! mfor n' (i + step) step body
  end.

(** ** Tactics and hints *)

(** Linear arithmetic with [/] and [mod] by numerals. *)
Ltac zlia := Z.to_euclidean_division_equations; lia.

(** Decide every boolean comparison of the goal. *)
Ltac zcases :=
  repeat match goal with
  | |- context [?a =? ?b] => destruct (Z.eqb_spec a b)
  | |- context [?a <? ?b] => destruct (Z.ltb_spec a b)
  | |- context [?a <=? ?b] => destruct (Z.leb_spec a b)
  | |- context [?a >? ?b] => rewrite (Z.gtb_ltb a b)
  | |- context [?a >=? ?b] => rewrite (Z.geb_leb a b)
  end.

(** The same for the hypotheses. *)
Ltac zcases_in H :=
  repeat match type of H with
  | context [?a =? ?b] => destruct (Z.eqb_spec a b)
  | context [?a <? ?b] => destruct (Z.ltb_spec a b)
  | context [?a <=? ?b] => destruct (Z.leb_spec a b)
  end.

Create HintDb arr.
Create Rewrite HintDb arr.
Create HintDb bits.

(** ** Lemmas on machine integers *)

Lemma u64_range z : is_u64 (u64 z).
Proof. unfold is_u64, u64. apply Z.mod_pos_bound. lia. Qed.

Lemma u64_small z : is_u64 z -> u64 z = z.
Proof. intros H. apply Z.mod_small, H. Qed.

Lemma u64_testbit z i : 0 <= i < 64 -> Z.testbit (u64 z) i = Z.testbit z i.
Proof. intros. unfold u64. apply Z.mod_pow2_bits_low. lia. Qed.

Lemma testbit_high w i : is_u64 w -> 64 <= i -> Z.testbit w i = false.
Proof.
  intros Hw Hi. rewrite <- (u64_small w Hw). unfold u64.
  apply Z.mod_pow2_bits_high. lia.
Qed.

(** Two 64-bit words are equal when their 64 bits are. *)
Lemma u64_bits_eq a b :
  is_u64 a -> is_u64 b ->
  (forall i, 0 <= i < 64 -> Z.testbit a i = Z.testbit b i) -> a = b.
Proof.
  intros Ha Hb Heq. apply Z.bits_inj'. intros i Hi.
  destruct (Z.ltb_spec i 64).
  - apply Heq. lia.
  - rewrite !testbit_high; [done|done|lia|done|lia].
Qed.

Lemma is_u64_land a b : is_u64 a -> is_u64 b -> is_u64 (Z.land a b).
Proof.
  intros Ha Hb. split; [apply Z.land_nonneg; left; apply Ha|].
  destruct (Z.eqb_spec (Z.land a b) 0) as [->|]; [lia|].
  apply Z.log2_lt_pow2.
  - pose proof (proj2 (Z.land_nonneg a b)). destruct Ha. lia.
  - pose proof (Z.log2_land a b). destruct Ha as [Ha1 Ha2], Hb.
    destruct (Z.eqb_spec a 0) as [->|]; [by rewrite Z.land_0_l in *|].
    assert (Z.log2 a < 64) by (apply Z.log2_lt_pow2; lia). lia.
Qed.

Lemma is_u64_lor a b : is_u64 a -> is_u64 b -> is_u64 (Z.lor a b).
Proof.
  intros Ha Hb. split; [apply Z.lor_nonneg; split; [apply Ha|apply Hb]|].
  destruct (Z.eqb_spec (Z.lor a b) 0) as [->|]; [lia|].
  apply Z.log2_lt_pow2.
  - pose proof (proj2 (Z.lor_nonneg a b)). destruct Ha, Hb. lia.
  - rewrite Z.log2_lor by (destruct Ha, Hb; lia).
    destruct Ha, Hb. apply Z.max_lub_lt.
    + destruct (Z.eqb_spec a 0) as [->|]; [cbn; lia|]. apply Z.log2_lt_pow2; lia.
    + destruct (Z.eqb_spec b 0) as [->|]; [cbn; lia|]. apply Z.log2_lt_pow2; lia.
Qed.

#[export] Hint Resolve u64_range is_u64_land is_u64_lor : bits.

(** [(w >> i) & 1] is the i-th bit. *)
Lemma land_shiftr_1 w i : 0 <= i -> Z.land (Z.shiftr w i) 1 = Z.b2z (Z.testbit w i).
Proof.
  intros Hi. change 1 with (Z.ones 1) at 1. rewrite Z.land_ones by lia.
  rewrite Z.shiftr_div_pow2 by done. symmetry. apply Z.testbit_spec'. done.
Qed.

Lemma testbit_one_shift i j : 0 <= i -> 0 <= j ->
  Z.testbit (Z.shiftl 1 i) j = bool_decide (i = j).
Proof.
  intros Hi Hj. rewrite Z.shiftl_spec by done.
  destruct (decide (i = j)) as [->|Hne].
  - rewrite Z.sub_diag, bool_decide_eq_true_2; done.
  - rewrite bool_decide_eq_false_2 by done.
    destruct (Z.ltb_spec j i).
    + apply Z.testbit_neg_r. lia.
    + apply (Z.bits_above_log2 1); cbn; lia.
Qed.

(** [x |= 1 << i] and [x &= ~(1 << i)] on the bits of a 64-bit word. *)
Lemma testbit_set w i j : 0 <= i < 64 -> 0 <= j < 64 ->
  Z.testbit (Z.lor w (u64 (Z.shiftl 1 i))) j = bool_decide (i = j) || Z.testbit w j.
Proof.
  intros. rewrite Z.lor_spec, u64_testbit, testbit_one_shift by lia. apply orb_comm.
Qed.

Lemma testbit_clear w i j : 0 <= i < 64 -> 0 <= j < 64 ->
  Z.testbit (Z.land w (u64 (Z.lnot (Z.shiftl 1 i)))) j
  = negb (bool_decide (i = j)) && Z.testbit w j.
Proof.
  intros. rewrite Z.land_spec, u64_testbit, Z.lnot_spec, testbit_one_shift by lia.
  apply andb_comm.
Qed.

Lemma ctz_from_spec fuel i w :
  (exists k, i <= k < i + Z.of_nat fuel /\ Z.testbit w k = true) ->
  let c := ctz_from fuel i w in
  i <= c < i + Z.of_nat fuel /\ Z.testbit w c = true
  /\ forall k, i <= k < c -> Z.testbit w k = false.
Proof.
  revert i. induction fuel as [|fuel IH]; intros i (k & Hk & Hbit); [lia|].
  cbn [ctz_from]. destruct (Z.testbit w i) eqn:E.
  - cbn. split_and!; [lia|lia|done|intros; lia].
  - assert (k <> i) by congruence.
    destruct (IH (i + 1)) as (H1 & H2 & H3); [exists k; split; [lia|done]|].
    cbn. split_and!; [lia|lia|done|]. intros k' Hk'.
    destruct (decide (k' = i)) as [->|]; [done|]. apply H3. lia.
Qed.

(** A non-zero 64-bit word has a lowest set bit and [ctzll] finds it. *)
Lemma ctzll_spec w : is_u64 w -> w <> 0 ->
  0 <= ctzll w < 64 /\ Z.testbit w (ctzll w) = true
  /\ forall k, 0 <= k < ctzll w -> Z.testbit w k = false.
Proof.
  intros Hw Hne. apply (ctz_from_spec 64 0 w).
  destruct (Z.eq_dec (Z.log2 w) (Z.log2 w)); [|done].
  exists (Z.log2 w). destruct Hw. split.
  - split; [apply Z.log2_nonneg|]. cbn. apply Z.log2_lt_pow2; lia.
  - apply Z.bit_log2. lia.
Qed.

(** ** Lemmas on arrays *)

Lemma length_zset {A} (l : list A) i x : length (zset l i x) = length l.
Proof. apply length_insert. Qed.

Lemma zlen_nonneg {A} (l : list A) : 0 <= zlen l.
Proof. unfold zlen. lia. Qed.

#[export] Instance zlen_proper {A} : Proper (Permutation ==> eq) (@zlen A).
Proof. intros l1 l2 H. unfold zlen. by rewrite H. Qed.

Lemma zlen_zset {A} (l : list A) i x : zlen (zset l i x) = zlen l.
Proof. unfold zlen. by rewrite length_zset. Qed.

Lemma zget_zset_eq {A} (d : A) l i x : 0 <= i < zlen l -> zget d (zset l i x) i = x.
Proof.
  unfold zget, zset, zlen. intros. rewrite list_lookup_insert_eq; [done|lia].
Qed.

Lemma zget_zset_ne {A} (d : A) l i j x : 0 <= i -> 0 <= j -> i <> j ->
  zget d (zset l i x) j = zget d l j.
Proof.
  unfold zget, zset. intros. rewrite list_lookup_insert_ne; [done|lia].
Qed.

Lemma zget_lookup {A} (d : A) l i : 0 <= i < zlen l ->
  l !! Z.to_nat i = Some (zget d l i).
Proof.
  unfold zget, zlen. intros.
  destruct (lookup_lt_is_Some_2 l (Z.to_nat i)) as [x Hx]; [lia|].
  by rewrite Hx.
Qed.

Lemma zget_replicate {A} (d x : A) n i : 0 <= i < Z.of_nat n ->
  zget d (replicate n x) i = x.
Proof.
  intros. unfold zget. rewrite lookup_replicate_2; [done|lia].
Qed.

#[export] Hint Rewrite @length_zset @zlen_zset : arr.
#[export] Hint Resolve zlen_nonneg : arr.

(** ** Pieces of a buffer *)

Lemma zlen_app {A} (l k : list A) : zlen (l ++ k) = zlen l + zlen k.
Proof. unfold zlen. rewrite length_app. lia. Qed.

(** [length] bytes from [offset]. *)
Definition slice (data : list Z) (offset length : Z) : list Z := take (Z.to_nat length) (drop (Z.to_nat offset) data).

(** [bytes] stored in [buffer] from [position] on. *)
Definition splice (buffer : list Z) (position : Z) (bytes : list Z) : list Z :=
  take (Z.to_nat position) buffer ++ bytes ++ drop (Z.to_nat position + length bytes) buffer.

Lemma slice_at (pre l : list Z) p k n : zlen pre = p -> 0 <= k -> slice (pre ++ l) (p + k) n = slice l k n.
Proof. intros <- Hk. unfold slice, zlen. rewrite drop_app, drop_ge by lia. cbn [app]. f_equal. f_equal. lia. Qed.

Lemma slice_middle (pre l post : list Z) : slice (pre ++ l ++ post) (zlen pre) (zlen l) = l.
Proof. unfold slice, zlen. rewrite !Nat2Z.id, drop_app_length. apply take_app_length. Qed.

Lemma zlen_slice (l : list Z) p n : 0 <= p -> 0 <= n -> p + n <= zlen l -> zlen (slice l p n) = n.
Proof. intros. unfold slice, zlen in *. rewrite length_take, length_drop. lia. Qed.

(** Storing over the bytes [old] between [pre] and [post]. *)
Lemma splice_middle (pre old bytes post : list Z) : length old = length bytes ->
  splice (pre ++ old ++ post) (zlen pre) bytes = pre ++ bytes ++ post.
Proof.
  intros H. unfold splice, zlen. rewrite Nat2Z.id, take_app_length, drop_app_add, <- H, drop_app_length. done.
Qed.

#[export] Hint Rewrite @zlen_app : arr.

(** ** The loop rule *)

Lemma for_up_ind {St} (P : Z -> St -> Prop) (f : Z -> St -> St) n i s :
  P i s ->
  (forall k s', i <= k < i + Z.of_nat n -> P k s' -> P (k + 1) (f k s')) ->
  P (i + Z.of_nat n) (for_up n i f s).
Proof.
  revert i s. induction n as [|n IH]; intros i s Hi Hstep.
  - replace (i + Z.of_nat 0) with i by lia. exact Hi.
  - replace (i + Z.of_nat (S n)) with ((i + 1) + Z.of_nat n) by lia.
    cbn [for_up]. apply IH.
    + apply Hstep; [lia|done].
    + intros k s' Hk. apply Hstep. lia.
Qed.

(** A loop whose body keeps going: [P] counts the iterations done. *)
Lemma mfor_ind {St} (P : nat -> St -> Prop) (Q : Res unit -> St -> Prop) n i step body s :
  P O s ->
  (forall k s', (k < n)%nat -> P k s' ->
     match body (i + Z.of_nat k * step) s' with
     | (Ok _, s'') => P (S k) s''
     | (r, s'') => Q r s''
     end) ->
  match mfor n i step body s with
  | (Ok _, s') => P n s'
  | (r, s') => Q r s'
  end.
Proof.
  revert i s P. induction n as [|n IH]; intros i s P H0 Hstep; [exact H0|].
  cbn [mfor]. unfold mtry.
  pose proof (Hstep O s ltac:(lia) H0) as H1. replace (i + Z.of_nat 0 * step) with i in H1 by lia.
  destruct (body i s) as [[u|e|] s1]; [|exact H1|exact H1].
  apply (IH (i + step) s1 (fun k => P (S k))); [exact H1|].
  intros k s' Hk Hp. specialize (Hstep (S k) s' ltac:(lia) Hp).
  by replace (i + step + Z.of_nat k * step) with (i + Z.of_nat (S k) * step) by lia.
Qed.
