(* ===== verification/Kstd.v ===== *)
(** * kernel/lib/kstd.h: rounding and page constants

    The templates are used at 64-bit unsigned types only ([u64] and [usize]),
    so each is modelled at that width, wrap included. *)

From S2P Require Import Prelude.

Definition PAGE_SIZE : Z := 4096.
Definition HHDM_BASE : Z := 0xFFFF800000000000.

(** [(value + alignment - 1) & ~(alignment - 1)] *)
Definition align_up (value alignment : Z) : Z :=
  Z.land (u64 (value + alignment - 1)) (u64 (Z.lnot (alignment - 1))).

(** [value & ~(alignment - 1)] *)
Definition align_down (value alignment : Z) : Z :=
  Z.land value (u64 (Z.lnot (alignment - 1))).

(** [(value + divisor - 1) / divisor] *)
Definition div_round_up (value divisor : Z) : Z := u64 (value + divisor - 1) / divisor.

(** [HHDM_BASE + raw(p)] and back *)
Definition phys_to_virt (p : Z) : Z := u64 (HHDM_BASE + p).
Definition virt_to_phys (v : Z) : Z := u64 (v - HHDM_BASE).

(** Masking the low [k] bits off a 64-bit value rounds it down. *)
Lemma land_lnot_low v k : is_u64 v -> 0 <= k < 64 ->
  Z.land v (u64 (Z.lnot (2 ^ k - 1))) = v / 2 ^ k * 2 ^ k.
Proof.
  intros Hv Hk. rewrite <- Z.shiftr_div_pow2, <- Z.shiftl_mul_pow2 by lia.
  apply Z.bits_inj'. intros i Hi.
  rewrite Z.land_spec, Z.shiftl_spec by done.
  replace (2 ^ k - 1) with (Z.ones k) by (rewrite Z.ones_equiv; lia).
  destruct (Z.ltb_spec i 64).
  - rewrite u64_testbit, Z.lnot_spec by lia.
    destruct (Z.ltb_spec i k).
    + rewrite Z.ones_spec_low, andb_false_r by lia. by rewrite Z.testbit_neg_r by lia.
    + rewrite Z.ones_spec_high, andb_true_r, Z.shiftr_spec by lia. f_equal. lia.
  - rewrite Z.shiftr_spec, !(testbit_high v) by (done || lia). done.
Qed.

Lemma align_down_page v : is_u64 v -> align_down v PAGE_SIZE = v / PAGE_SIZE * PAGE_SIZE.
Proof. intros. apply (land_lnot_low v 12); [done|lia]. Qed.

Lemma align_up_page v : 0 <= v < 2 ^ 64 - PAGE_SIZE ->
  align_up v PAGE_SIZE = (v + PAGE_SIZE - 1) / PAGE_SIZE * PAGE_SIZE.
Proof.
  intros Hv. unfold align_up. rewrite (u64_small (v + PAGE_SIZE - 1)).
  - apply (land_lnot_low _ 12); [|lia]. unfold is_u64, PAGE_SIZE in *. lia.
  - unfold is_u64, PAGE_SIZE in *. lia.
Qed.

Lemma align_up_aligned v : is_u64 v -> v mod PAGE_SIZE = 0 -> align_up v PAGE_SIZE = v.
Proof.
  intros Hv Hm. unfold align_up. unfold is_u64, PAGE_SIZE in *.
  rewrite (u64_small (v + 4096 - 1)) by (unfold is_u64; zlia).
  rewrite (land_lnot_low _ 12) by (unfold is_u64; zlia). zlia.
Qed.

Lemma phys_virt_roundtrip p : is_u64 p -> virt_to_phys (phys_to_virt p) = p.
Proof.
  unfold virt_to_phys, phys_to_virt, u64, is_u64. intros Hp.
  rewrite Zminus_mod_idemp_l.
  replace (HHDM_BASE + p - HHDM_BASE) with p by lia. by apply Z.mod_small.
Qed.
