(* ===== verification/Words.v ===== *)
(** * Memory as eight-byte words

    memset and memcpy (kernel/lib/string.cpp and its twin user/libc/src/string.c)
    on a memory given as a function from the address of an aligned eight-byte word
    to its value: whole words are replaced, and of the last word of a range only
    the bytes that belong to it. *)

From S2P Require Import Prelude.

(** Bytes [0..k) of [old] replaced by those of [new]. *)
Definition merge_low (k new old : Z) : Z :=
  if 8 <=? k then new else old - old mod 2 ^ (8 * k) + new mod 2 ^ (8 * k).

(** [memset(to, 0, n)] *)
Definition zero_words (m : Z -> Z) (to n : Z) : Z -> Z := fun a =>
  if (to <=? a) && (a <? to + n) then merge_low (Z.min 8 (to + n - a)) 0 (m a) else m a.

(** [memcpy(to, from, n)] *)
Definition copy_words (m : Z -> Z) (to from n : Z) : Z -> Z := fun a =>
  if (to <=? a) && (a <? to + n) then merge_low (Z.min 8 (to + n - a)) (m (from + (a - to))) (m a) else m a.

Lemma zero_words_out m to n a : ~ to <= a < to + n -> zero_words m to n a = m a.
Proof. intros Ha. unfold zero_words. destruct (Z.leb_spec to a), (Z.ltb_spec a (to + n)); cbn [andb]; done || lia. Qed.

Lemma zero_words_in m to n a : to <= a -> a + 8 <= to + n -> zero_words m to n a = 0.
Proof.
  intros H1 H2. unfold zero_words, merge_low. destruct (Z.leb_spec to a); [|lia]. destruct (Z.ltb_spec a (to + n)); [|lia].
  cbn [andb]. destruct (Z.leb_spec 8 (Z.min 8 (to + n - a))); [done|lia].
Qed.

Lemma copy_words_out m to from n a : ~ to <= a < to + n -> copy_words m to from n a = m a.
Proof. intros Ha. unfold copy_words. destruct (Z.leb_spec to a), (Z.ltb_spec a (to + n)); cbn [andb]; done || lia. Qed.

Lemma copy_words_in m to from n a : to <= a -> a + 8 <= to + n -> copy_words m to from n a = m (from + (a - to)).
Proof.
  intros H1 H2. unfold copy_words, merge_low. destruct (Z.leb_spec to a); [|lia]. destruct (Z.ltb_spec a (to + n)); [|lia].
  cbn [andb]. destruct (Z.leb_spec 8 (Z.min 8 (to + n - a))); [done|lia].
Qed.
