(* ===== verification/Physical.v ===== *)
(** * kernel/mm/physical.cpp: the physical page allocator

    The state is the bitmap (one bit per 4 KiB frame, set means in use), the
    frame count, the count of used frames and the search hint.  Operations are
    translated one by one; the interrupt lock each of them holds makes it
    atomic, so an operation is one transition of the state. *)

From S2P Require Import Prelude Kstd.

(** ** Boot memory map (kernel/boot/boot_info.h) *)

Inductive MemoryKind :=
| Usable | Reserved | AcpiReclaimable | AcpiNvs | Bad | KernelImage | BootModule.

#[export] Instance MemoryKind_eq_dec : EqDecision MemoryKind.
Proof. solve_decision. Defined.

Record MemoryRegion := mkRegion {
  region_base : Z;
  region_length : Z;
  region_kind : MemoryKind;
}.

(** ** The allocator's state *)

Record Pmm := mkPmm {
  s_bitmap : list Z;        (* u64 words *)
  s_bitmap_at : Z;          (* the physical address the words live at *)
  s_bitmap_words : Z;
  s_total_pages : Z;
  s_used_pages : Z;
  s_search_hint : Z;
}.

Definition BITS_PER_WORD : Z := 64.
Definition WORD_FULL : Z := 2 ^ 64 - 1. (* ~0ULL *)

Definition set_bitmap (l : list Z) (st : Pmm) : Pmm :=
  mkPmm l (s_bitmap_at st) (s_bitmap_words st) (s_total_pages st) (s_used_pages st)
    (s_search_hint st).
Definition set_used (u : Z) (st : Pmm) : Pmm :=
  mkPmm (s_bitmap st) (s_bitmap_at st) (s_bitmap_words st) (s_total_pages st) u
    (s_search_hint st).
Definition set_hint (h : Z) (st : Pmm) : Pmm :=
  mkPmm (s_bitmap st) (s_bitmap_at st) (s_bitmap_words st) (s_total_pages st)
    (s_used_pages st) h.

(** ** Bit operations *)

Definition test_bit (st : Pmm) (index : Z) : bool :=
  negb (Z.land (Z.shiftr (zget 0 (s_bitmap st) (index / BITS_PER_WORD))
                  (index mod BITS_PER_WORD)) 1 =? 0).

Definition set_bit (index : Z) (st : Pmm) : Pmm :=
  let w := index / BITS_PER_WORD in
  set_bitmap (zset (s_bitmap st) w
    (Z.lor (zget 0 (s_bitmap st) w) (u64 (Z.shiftl 1 (index mod BITS_PER_WORD))))) st.

Definition clear_bit (index : Z) (st : Pmm) : Pmm :=
  let w := index / BITS_PER_WORD in
  set_bitmap (zset (s_bitmap st) w
    (Z.land (zget 0 (s_bitmap st) w)
       (u64 (Z.lnot (Z.shiftl 1 (index mod BITS_PER_WORD)))))) st.

(** The number of iterations of
    [for (i = first; i < first + count && i < s_total_pages; ++i)]. *)
Definition range_iterations (st : Pmm) (first count : Z) : nat :=
  Z.to_nat (Z.min (u64 (first + count)) (s_total_pages st) - first).

Definition mark_used (first count : Z) (st : Pmm) : Pmm :=
  for_up (range_iterations st first count) first
    (fun i s => if negb (test_bit s i)
                then set_used (u64 (s_used_pages s + 1)) (set_bit i s)
                else s) st.

Definition mark_free (first count : Z) (st : Pmm) : Pmm :=
  for_up (range_iterations st first count) first
    (fun i s => if test_bit s i
                then set_used (u64 (s_used_pages s - 1)) (clear_bit i s)
                else s) st.

Definition apply_to_range (base length : Z) (operation : Z -> Z -> Pmm -> Pmm)
    (st : Pmm) : Pmm :=
  if length =? 0 then st
  else
    let first := align_down base PAGE_SIZE / PAGE_SIZE in
    let last := align_up (u64 (base + length)) PAGE_SIZE / PAGE_SIZE in
    if first >=? s_total_pages st then st
    else operation first (u64 (Z.min last (s_total_pages st) - first)) st.

(** ** Initialisation *)

Definition is_carved (k : MemoryKind) : bool :=
  match k with KernelImage | BootModule => true | _ => false end.

Fixpoint range_is_clear (regions : list MemoryRegion) (base length : Z) : bool :=
  match regions with
  | [] => base >=? 0x100000
  | r :: rest =>
      if is_carved (region_kind r)
         && (base <? u64 (region_base r + region_length r))
         && (region_base r <? u64 (base + length))
      then false
      else range_is_clear rest base length
  end.

Definition highest_usable (regions : list MemoryRegion) : Z :=
  fold_left (fun h r =>
    if decide (region_kind r = Usable)
    then Z.max h (u64 (region_base r + region_length r)) else h) regions 0.

(** The inner [while] of the search for a home for the bitmap; the measure is
    the number of whole pages left between the candidate and the region's end. *)
Fixpoint step_candidate (fuel : nat) (regions : list MemoryRegion)
    (candidate region_end bitmap_bytes : Z) : option Z :=
  match fuel with
  | O => None
  | S fuel' =>
      if u64 (candidate + bitmap_bytes) <=? region_end then
        if range_is_clear regions candidate bitmap_bytes then Some candidate
        else step_candidate fuel' regions (u64 (candidate + PAGE_SIZE)) region_end bitmap_bytes
      else None
  end.

Definition candidate_fuel (candidate region_end : Z) : nat :=
  S (Z.to_nat ((region_end - candidate) / PAGE_SIZE + 1)).

Fixpoint find_bitmap (all regions : list MemoryRegion) (bitmap_bytes : Z) : option Z :=
  match regions with
  | [] => None
  | r :: rest =>
      if decide (region_kind r = Usable) then
        if region_length r <? bitmap_bytes then find_bitmap all rest bitmap_bytes
        else
          let candidate := align_up (Z.max (region_base r) 0x100000) PAGE_SIZE in
          let region_end := u64 (region_base r + region_length r) in
          match step_candidate (candidate_fuel candidate region_end) all candidate
                  region_end bitmap_bytes with
          | Some c => Some c
          | None => find_bitmap all rest bitmap_bytes
          end
      else find_bitmap all rest bitmap_bytes
  end.

(** One pass over the map, applying [operation] to the regions that match. *)
Definition for_regions (want : MemoryKind -> bool) (operation : Z -> Z -> Pmm -> Pmm)
    (regions : list MemoryRegion) (st : Pmm) : Pmm :=
  fold_left (fun s r => if want (region_kind r)
                        then apply_to_range (region_base r) (region_length r) operation s
                        else s) regions st.

Definition physical_initialize (regions : list MemoryRegion) : M Pmm unit := fun st =>
  let total := align_up (highest_usable regions) PAGE_SIZE / PAGE_SIZE in
  let words := div_round_up total BITS_PER_WORD in
  let bitmap_bytes := u64 (words * 8) in
  match find_bitmap regions regions bitmap_bytes with
  | None => (Panic, st)
  | Some bitmap_phys =>
      let st := mkPmm (replicate (Z.to_nat words) WORD_FULL) bitmap_phys words total total
                  (s_search_hint st) in
      let st := for_regions (fun k => bool_decide (k = Usable)) mark_free regions st in
      let st := for_regions is_carved mark_used regions st in
      let st := apply_to_range bitmap_phys bitmap_bytes mark_used st in
      let st := apply_to_range 0 PAGE_SIZE mark_used st in
      (Ok tt, set_hint 0 st)
  end.

(** ** Allocation *)

(** The word loop of one attempt.  [None] is the loop ending or its [break]. *)
Fixpoint alloc_scan (fuel : nat) (st : Pmm) (word attempt limit : Z) : option Z :=
  match fuel with
  | O => None
  | S fuel' =>
      if word <? s_bitmap_words st then
        let w := zget 0 (s_bitmap st) word in
        if w =? WORD_FULL then alloc_scan fuel' st (word + 1) attempt limit
        else
          let bit := ctzll (u64 (Z.lnot w)) in
          let index := word * BITS_PER_WORD + bit in
          if (index >=? s_total_pages st) || ((attempt =? 1) && (index >=? limit))
          then None
          else Some index
      else None
  end.

Definition scan_fuel (st : Pmm) : nat := S (Z.to_nat (s_bitmap_words st)).

Definition take_page (index : Z) : M Pmm Z := fun st =>
  (Ok (u64 (index * PAGE_SIZE)),
   set_hint (u64 (index + 1)) (set_used (u64 (s_used_pages st + 1)) (set_bit index st))).

Definition allocate_page : M Pmm Z := fun st =>
  match alloc_scan (scan_fuel st) st (s_search_hint st / BITS_PER_WORD) 0 (s_total_pages st) with
  | Some index => take_page index st
  | None =>
      match alloc_scan (scan_fuel st) st (0 / BITS_PER_WORD) 1 (s_search_hint st) with
      | Some index => take_page index st
      | None => (Err ENOMEM, st)
      end
  end.

(** The single pass of [allocate_contiguous]: the page index, and the start and
    length of the free run that ends just before it. *)
Fixpoint contiguous_scan (fuel : nat) (st : Pmm) (count index run_start run_length : Z)
    : option Z :=
  match fuel with
  | O => None
  | S fuel' =>
      if test_bit st index then contiguous_scan fuel' st count (index + 1) run_start 0
      else
        let run_start := if run_length =? 0 then index else run_start in
        let run_length := run_length + 1 in
        if run_length =? count then Some run_start
        else contiguous_scan fuel' st count (index + 1) run_start run_length
  end.

Definition allocate_contiguous (count : Z) : M Pmm Z := fun st =>
  if count =? 0 then (Err EINVAL, st)
  else if count =? 1 then allocate_page st
  else match contiguous_scan (Z.to_nat (s_total_pages st)) st count 0 0 0 with
       | Some run_start => (Ok (u64 (run_start * PAGE_SIZE)), mark_used run_start count st)
       | None => (Err ENOMEM, st)
       end.

(** ** Freeing *)

Fixpoint free_loop (n : nat) (i : Z) (st : Pmm) : Res unit * Pmm :=
  match n with
  | O => (Ok tt, st)
  | S n' =>
      if negb (test_bit st i) then (Panic, st)
      else free_loop n' (i + 1) (set_used (u64 (s_used_pages st - 1)) (clear_bit i st))
  end.

Definition free_contiguous (base count : Z) : M Pmm unit := fun st =>
  let first := base / PAGE_SIZE in
  if first >=? s_total_pages st then (Ok tt, st)
  else match free_loop (range_iterations st first count) first st with
       | (Ok _, st') => (Ok tt, set_hint (Z.min (s_search_hint st') first) st')
       | r => r
       end.

Definition free_page (page : Z) : M Pmm unit := free_contiguous page 1.

Definition reserve_range (base length : Z) : M Pmm unit :=
  mmod (apply_to_range base length mark_used).

Definition total_pages (st : Pmm) : Z := s_total_pages st.
Definition free_pages (st : Pmm) : Z := u64 (s_total_pages st - s_used_pages st).
Definition used_pages (st : Pmm) : Z := s_used_pages st.

(** ** Invariant

    [count_bits f n] counts the indices below [n] on which [f] holds. *)

Fixpoint count_bits (f : Z -> bool) (n : nat) : Z :=
  match n with
  | O => 0
  | S n' => count_bits f n' + Z.b2z (f (Z.of_nat n'))
  end.

Record pmm_inv (st : Pmm) : Prop := {
  inv_len : zlen (s_bitmap st) = s_bitmap_words st;
  inv_words : s_bitmap_words st = (s_total_pages st + 63) / 64;
  inv_total : 0 <= s_total_pages st <= 2 ^ 52;
  inv_u64 : Forall is_u64 (s_bitmap st);
  (* the bits past the last frame stay set, so they are never handed out *)
  inv_pad : forall i, s_total_pages st <= i < 64 * s_bitmap_words st -> test_bit st i = true;
  inv_used : s_used_pages st = count_bits (test_bit st) (Z.to_nat (s_total_pages st));
  inv_hint : 0 <= s_search_hint st <= s_total_pages st;
}.

Lemma count_bits_ext f g n :
  (forall i, 0 <= i < Z.of_nat n -> f i = g i) -> count_bits f n = count_bits g n.
Proof.
  induction n as [|n IH]; intros H; [done|]. cbn [count_bits].
  rewrite IH by (intros; apply H; lia). by rewrite (H (Z.of_nat n)) by lia.
Qed.

Lemma count_bits_bound f n : 0 <= count_bits f n <= Z.of_nat n.
Proof.
  induction n as [|n IH]; [cbn; lia|]. cbn [count_bits].
  destruct (f (Z.of_nat n)); cbn [Z.b2z]; lia.
Qed.

(** Changing one bit moves the count by one. *)
Lemma count_bits_flip f g k n :
  0 <= k < Z.of_nat n -> f k = false -> g k = true ->
  (forall i, 0 <= i -> i <> k -> f i = g i) ->
  count_bits g n = count_bits f n + 1.
Proof.
  intros Hk Hf Hg Heq. induction n as [|n IH]; [lia|]. cbn [count_bits].
  destruct (decide (k = Z.of_nat n)) as [->|Hne].
  - rewrite Hf, Hg, (count_bits_ext g f).
    + cbn [Z.b2z]. lia.
    + intros i Hi. symmetry. apply Heq; lia.
  - rewrite IH by lia. rewrite (Heq (Z.of_nat n)) by lia. lia.
Qed.

Lemma count_bits_all f n :
  (forall i, 0 <= i < Z.of_nat n -> f i = true) -> count_bits f n = Z.of_nat n.
Proof.
  induction n as [|n IH]; intros H; [done|]. cbn [count_bits].
  rewrite IH by (intros; apply H; lia). rewrite H by lia. cbn [Z.b2z]. lia.
Qed.

(** ** Bits *)

Lemma test_bit_testbit st i : 0 <= i ->
  test_bit st i = Z.testbit (zget 0 (s_bitmap st) (i / 64)) (i mod 64).
Proof.
  intros Hi. unfold test_bit, BITS_PER_WORD. rewrite land_shiftr_1 by zlia.
  by destruct (Z.testbit _ _).
Qed.

Lemma index_split i j : 0 <= i -> 0 <= j -> i / 64 = j / 64 -> i mod 64 = j mod 64 -> i = j.
Proof. intros. zlia. Qed.

Lemma test_bit_set_bit st i j :
  0 <= i < 64 * zlen (s_bitmap st) -> 0 <= j ->
  test_bit (set_bit i st) j = bool_decide (i = j) || test_bit st j.
Proof.
  intros Hi Hj. rewrite !test_bit_testbit by done. cbn [set_bit set_bitmap s_bitmap].
  unfold BITS_PER_WORD.
  destruct (decide (i / 64 = j / 64)) as [Heq|Hne].
  - rewrite <- Heq, zget_zset_eq, testbit_set by zlia. f_equal.
    apply bool_decide_ext. split; [intros; zlia|congruence].
  - rewrite zget_zset_ne by zlia.
    rewrite bool_decide_eq_false_2 by congruence. done.
Qed.

Lemma test_bit_clear_bit st i j :
  0 <= i < 64 * zlen (s_bitmap st) -> 0 <= j ->
  test_bit (clear_bit i st) j = negb (bool_decide (i = j)) && test_bit st j.
Proof.
  intros Hi Hj. rewrite !test_bit_testbit by done. cbn [clear_bit set_bitmap s_bitmap].
  unfold BITS_PER_WORD.
  destruct (decide (i / 64 = j / 64)) as [Heq|Hne].
  - rewrite <- Heq, zget_zset_eq, testbit_clear by zlia. do 2 f_equal.
    apply bool_decide_ext. split; [intros; zlia|congruence].
  - rewrite zget_zset_ne by zlia.
    rewrite bool_decide_eq_false_2 by congruence. done.
Qed.

Lemma test_bit_set_used u st : test_bit (set_used u st) = test_bit st.
Proof. done. Qed.
Lemma test_bit_set_hint h st : test_bit (set_hint h st) = test_bit st.
Proof. done. Qed.

Lemma zget_is_u64 l i : Forall is_u64 l -> is_u64 (zget 0 l i).
Proof.
  intros H. unfold zget. destruct (l !! Z.to_nat i) eqn:E; cbn [default].
  - by eapply Forall_lookup_1.
  - unfold is_u64. lia.
Qed.

Lemma Forall_zset {A} (P : A -> Prop) l i x : Forall P l -> P x -> Forall P (zset l i x).
Proof. intros. by apply Forall_insert. Qed.

(** ** Taking and releasing one frame preserve the invariant *)

Lemma inv_index st i : pmm_inv st -> 0 <= i < s_total_pages st ->
  0 <= i < 64 * zlen (s_bitmap st).
Proof. intros [-> -> ? _ _ _ _]. zlia. Qed.

Lemma inv_take st i : pmm_inv st -> 0 <= i < s_total_pages st -> test_bit st i = false ->
  pmm_inv (set_used (u64 (s_used_pages st + 1)) (set_bit i st)).
Proof.
  intros Hinv Hi Hfree. pose proof (inv_index st i Hinv Hi) as Hidx.
  assert (Hcount : count_bits (test_bit (set_bit i st)) (Z.to_nat (s_total_pages st))
                   = s_used_pages st + 1).
  { rewrite (inv_used st Hinv). apply (count_bits_flip _ _ i).
    - lia.
    - done.
    - rewrite test_bit_set_bit, bool_decide_eq_true_2 by (done || lia). done.
    - intros j Hj Hne. rewrite test_bit_set_bit by (done || lia).
      rewrite bool_decide_eq_false_2; done. }
  pose proof (count_bits_bound (test_bit (set_bit i st)) (Z.to_nat (s_total_pages st))) as Hb.
  pose proof (inv_used st Hinv) as Hu.
  pose proof (count_bits_bound (test_bit st) (Z.to_nat (s_total_pages st))) as Hb2.
  destruct Hinv as [Hlen Hwords Htot Hu64 Hpad _ Hhint].
  split; cbn [set_used set_bit set_bitmap s_bitmap s_bitmap_words s_total_pages
    s_used_pages s_search_hint].
  - by rewrite zlen_zset.
  - done.
  - done.
  - apply Forall_zset; [done|]. apply is_u64_lor; [by apply zget_is_u64|apply u64_range].
  - intros j Hj. change (test_bit (set_bit i st) j = true).
    rewrite test_bit_set_bit by (done || lia). rewrite Hpad by lia. apply orb_true_r.
  - rewrite u64_small; [by rewrite <- Hcount|]. unfold is_u64. lia.
  - done.
Qed.

Lemma inv_release st i : pmm_inv st -> 0 <= i < s_total_pages st -> test_bit st i = true ->
  pmm_inv (set_used (u64 (s_used_pages st - 1)) (clear_bit i st)).
Proof.
  intros Hinv Hi Hused. pose proof (inv_index st i Hinv Hi) as Hidx.
  assert (Hcount : s_used_pages st
                   = count_bits (test_bit (clear_bit i st)) (Z.to_nat (s_total_pages st)) + 1).
  { rewrite (inv_used st Hinv). apply (count_bits_flip _ _ i).
    - lia.
    - rewrite test_bit_clear_bit, bool_decide_eq_true_2 by (done || lia). done.
    - done.
    - intros j Hj Hne. rewrite test_bit_clear_bit by (done || lia).
      rewrite bool_decide_eq_false_2; done. }
  pose proof (count_bits_bound (test_bit (clear_bit i st)) (Z.to_nat (s_total_pages st))) as Hb.
  destruct Hinv as [Hlen Hwords Htot Hu64 Hpad _ Hhint].
  split; cbn [set_used clear_bit set_bitmap s_bitmap s_bitmap_words s_total_pages
    s_used_pages s_search_hint].
  - by rewrite zlen_zset.
  - done.
  - done.
  - apply Forall_zset; [done|]. apply is_u64_land; [by apply zget_is_u64|apply u64_range].
  - intros j Hj. change (test_bit (clear_bit i st) j = true).
    rewrite test_bit_clear_bit by (done || lia). rewrite Hpad by lia.
    rewrite bool_decide_eq_false_2 by lia. done.
  - rewrite u64_small; [by rewrite Hcount, Z.add_simpl_r|]. unfold is_u64. lia.
  - done.
Qed.

Lemma inv_set_hint h st : pmm_inv st -> 0 <= h <= s_total_pages st -> pmm_inv (set_hint h st).
Proof. intros [] ?. by split. Qed.

(** ** Ranges of frames

    [same_frame st st'] : everything but the bits and the used count agrees. *)
Definition same_frame (st st' : Pmm) : Prop :=
  s_total_pages st' = s_total_pages st /\ s_search_hint st' = s_search_hint st
  /\ s_bitmap_at st' = s_bitmap_at st /\ s_bitmap_words st' = s_bitmap_words st.

Definition in_range (a b i : Z) : bool := (a <=? i) && (i <? b).

Lemma mark_used_spec st first count :
  pmm_inv st -> 0 <= first -> is_u64 (first + count) ->
  let st' := mark_used first count st in
  pmm_inv st' /\ same_frame st st'
  /\ forall j, 0 <= j ->
       test_bit st' j = in_range first (Z.min (first + count) (s_total_pages st)) j
                        || test_bit st j.
Proof.
  intros Hinv Hf Hc. cbn zeta. unfold mark_used.
  set (n := range_iterations st first count).
  assert (Hn : n = Z.to_nat (Z.min (first + count) (s_total_pages st) - first)).
  { unfold n, range_iterations. by rewrite u64_small. }
  pose (P := fun k s => pmm_inv s /\ same_frame st s /\ forall j, 0 <= j ->
          test_bit s j = in_range first k j || test_bit st j).
  match goal with |- context [for_up n first ?body st] =>
    assert (HP : P (first + Z.of_nat n) (for_up n first body st)) end.
  { apply for_up_ind.
    - split_and!; [done| by repeat split |]. intros j Hj. unfold in_range. zcases; done || lia.
    - intros k s Hk (Hs & (Ht & Hh & Ha & Hw) & Hbits).
      assert (Hkt : 0 <= k < s_total_pages s) by lia.
      destruct (test_bit s k) eqn:Ek; cbn [negb].
      + split_and!; [done|done|]. intros j Hj. rewrite Hbits by done.
        destruct (decide (j = k)) as [->|].
        * rewrite <- Hbits, Ek by done. unfold in_range. zcases; done || lia.
        * unfold in_range. zcases; done || lia.
      + split_and!; [by apply inv_take|done|]. intros j Hj.
        rewrite test_bit_set_used, test_bit_set_bit by (done || by apply inv_index).
        rewrite Hbits by done. unfold in_range.
        destruct (decide (k = j)) as [->|].
        * rewrite bool_decide_eq_true_2 by done. zcases; done || lia.
        * rewrite bool_decide_eq_false_2 by done. zcases; done || lia. }
  destruct HP as (H1 & H2 & H3). split_and!; [done|done|].
  intros j Hj. rewrite H3 by done. f_equal. unfold in_range. zcases; done || lia.
Qed.

Lemma mark_free_spec st first count :
  pmm_inv st -> 0 <= first -> is_u64 (first + count) ->
  let st' := mark_free first count st in
  pmm_inv st' /\ same_frame st st'
  /\ forall j, 0 <= j ->
       test_bit st' j = negb (in_range first (Z.min (first + count) (s_total_pages st)) j)
                        && test_bit st j.
Proof.
  intros Hinv Hf Hc. cbn zeta. unfold mark_free.
  set (n := range_iterations st first count).
  assert (Hn : n = Z.to_nat (Z.min (first + count) (s_total_pages st) - first)).
  { unfold n, range_iterations. by rewrite u64_small. }
  pose (P := fun k s => pmm_inv s /\ same_frame st s /\ forall j, 0 <= j ->
          test_bit s j = negb (in_range first k j) && test_bit st j).
  match goal with |- context [for_up n first ?body st] =>
    assert (HP : P (first + Z.of_nat n) (for_up n first body st)) end.
  { apply for_up_ind.
    - split_and!; [done| by repeat split |]. intros j Hj. unfold in_range. zcases; done || lia.
    - intros k s Hk (Hs & (Ht & Hh & Ha & Hw) & Hbits).
      assert (Hkt : 0 <= k < s_total_pages s) by lia.
      destruct (test_bit s k) eqn:Ek.
      + split_and!; [by apply inv_release|done|]. intros j Hj.
        rewrite test_bit_set_used, test_bit_clear_bit by (done || by apply inv_index).
        rewrite Hbits by done. unfold in_range.
        destruct (decide (k = j)) as [->|].
        * rewrite bool_decide_eq_true_2 by done. zcases; done || lia.
        * rewrite bool_decide_eq_false_2 by done. zcases; done || lia.
      + split_and!; [done|done|]. intros j Hj. rewrite Hbits by done.
        destruct (decide (j = k)) as [->|].
        * rewrite <- Hbits, Ek by done. unfold in_range. zcases; done || lia.
        * unfold in_range. zcases; done || lia. }
  destruct HP as (H1 & H2 & H3). split_and!; [done|done|].
  intros j Hj. rewrite H3 by done. do 2 f_equal. unfold in_range. zcases; done || lia.
Qed.

(** Frame [i] shares at least one byte with [[base, base + length)]. *)
Definition overlaps (base length i : Z) : bool :=
  (0 <? length) && (base <? (i + 1) * PAGE_SIZE) && (i * PAGE_SIZE <? base + length).

(** A range whose rounded-up end does not wrap. *)
Definition sane_range (base length : Z) : Prop :=
  0 <= base /\ 0 <= length /\ base + length < 2 ^ 64 - PAGE_SIZE.

(** What [apply_to_range] hands to its operation covers exactly the frames the
    range overlaps. *)
Lemma apply_to_range_cases st base length op :
  0 <= s_total_pages st <= 2 ^ 52 -> sane_range base length ->
  (apply_to_range base length op st = st
   /\ forall j, 0 <= j < s_total_pages st -> overlaps base length j = false)
  \/ exists first count,
       apply_to_range base length op st = op first count st
       /\ 0 <= first /\ 0 <= count /\ first + count <= s_total_pages st
       /\ forall j, 0 <= j < s_total_pages st ->
            in_range first (first + count) j = overlaps base length j.
Proof.
  intros Ht (Hb & Hl & Hs). unfold apply_to_range, overlaps, PAGE_SIZE in *.
  destruct (Z.eqb_spec length 0) as [->|Hne].
  { left. done. }
  rewrite (u64_small (base + length)) by (unfold is_u64; lia).
  change 4096 with PAGE_SIZE. rewrite align_down_page by (unfold is_u64; lia).
  rewrite align_up_page by (unfold PAGE_SIZE; lia). unfold PAGE_SIZE.
  rewrite !Z.div_mul by lia. rewrite Z.geb_leb.
  destruct (Z.leb_spec (s_total_pages st) (base / 4096)).
  { left. split; [done|]. intros j Hj. zcases; done || zlia. }
  right. exists (base / 4096), (Z.min ((base + length + 4096 - 1) / 4096) (s_total_pages st)
                                 - base / 4096).
  rewrite u64_small by (unfold is_u64; zlia).
  split_and!; [done|zlia|zlia|zlia|].
  intros j Hj. unfold in_range. zcases; done || zlia.
Qed.

Lemma apply_used_spec st base length :
  pmm_inv st -> sane_range base length ->
  let st' := apply_to_range base length mark_used st in
  pmm_inv st' /\ same_frame st st'
  /\ forall j, 0 <= j < s_total_pages st ->
       test_bit st' j = overlaps base length j || test_bit st j.
Proof.
  intros Hinv Hs. cbn zeta. pose proof (inv_total st Hinv) as Ht.
  destruct (apply_to_range_cases st base length mark_used Ht Hs)
    as [[-> Ho]|(first & count & -> & H1 & H2 & H3 & Ho)].
  - split_and!; [done|by repeat split|]. intros j Hj. by rewrite Ho.
  - destruct (mark_used_spec st first count) as (Ha & Hb & Hc); [done|done|unfold is_u64; lia|].
    split_and!; [done|done|]. intros j Hj. rewrite Hc, Z.min_l, Ho by lia. done.
Qed.

Lemma apply_free_spec st base length :
  pmm_inv st -> sane_range base length ->
  let st' := apply_to_range base length mark_free st in
  pmm_inv st' /\ same_frame st st'
  /\ forall j, 0 <= j < s_total_pages st ->
       test_bit st' j = negb (overlaps base length j) && test_bit st j.
Proof.
  intros Hinv Hs. cbn zeta. pose proof (inv_total st Hinv) as Ht.
  destruct (apply_to_range_cases st base length mark_free Ht Hs)
    as [[-> Ho]|(first & count & -> & H1 & H2 & H3 & Ho)].
  - split_and!; [done|by repeat split|]. intros j Hj. by rewrite Ho.
  - destruct (mark_free_spec st first count) as (Ha & Hb & Hc); [done|done|unfold is_u64; lia|].
    split_and!; [done|done|]. intros j Hj. rewrite Hc, Z.min_l, Ho by lia. done.
Qed.

Lemma same_frame_refl st : same_frame st st.
Proof. by repeat split. Qed.

Lemma same_frame_trans st1 st2 st3 :
  same_frame st1 st2 -> same_frame st2 st3 -> same_frame st1 st3.
Proof. unfold same_frame. intuition congruence. Qed.

(** Some region of a wanted kind overlaps frame [i]. *)
Definition covered (want : MemoryKind -> bool) (regions : list MemoryRegion) (i : Z) : bool :=
  existsb (fun r => want (region_kind r) && overlaps (region_base r) (region_length r) i) regions.

Definition sane_region (r : MemoryRegion) : Prop :=
  sane_range (region_base r) (region_length r).

Section ForRegions.
Context (want : MemoryKind -> bool).

Lemma for_regions_used regions st :
  pmm_inv st -> Forall sane_region regions ->
  let st' := for_regions want mark_used regions st in
  pmm_inv st' /\ same_frame st st'
  /\ forall j, 0 <= j < s_total_pages st ->
       test_bit st' j = covered want regions j || test_bit st j.
Proof using.
  cbn zeta. revert st. induction regions as [|r rs IH]; intros st Hinv Hs.
  { split_and!; [done|apply same_frame_refl|done]. }
  apply Forall_cons_1 in Hs as [Hr Hs]. cbn [for_regions fold_left covered existsb].
  destruct (want (region_kind r)); [|by apply IH].
  destruct (apply_used_spec st _ _ Hinv Hr) as (Hi & Hf & Hb).
  destruct (IH _ Hi Hs) as (Hi' & Hf' & Hb').
  split_and!; [done|by eapply same_frame_trans|].
  intros j Hj. destruct Hf as (Ht & _). rewrite Hb', Hb by lia.
  unfold covered. by destruct (overlaps _ _ _), (existsb _ _).
Qed.

Lemma for_regions_free regions st :
  pmm_inv st -> Forall sane_region regions ->
  let st' := for_regions want mark_free regions st in
  pmm_inv st' /\ same_frame st st'
  /\ forall j, 0 <= j < s_total_pages st ->
       test_bit st' j = negb (covered want regions j) && test_bit st j.
Proof using.
  cbn zeta. revert st. induction regions as [|r rs IH]; intros st Hinv Hs.
  { split_and!; [done|apply same_frame_refl|done]. }
  apply Forall_cons_1 in Hs as [Hr Hs]. cbn [for_regions fold_left covered existsb].
  destruct (want (region_kind r)); [|by apply IH].
  destruct (apply_free_spec st _ _ Hinv Hr) as (Hi & Hf & Hb).
  destruct (IH _ Hi Hs) as (Hi' & Hf' & Hb').
  split_and!; [done|by eapply same_frame_trans|].
  intros j Hj. destruct Hf as (Ht & _). rewrite Hb', Hb by lia.
  unfold covered. by destruct (overlaps _ _ _), (existsb _ _).
Qed.
End ForRegions.

(** ** Initialisation *)

Definition pmm_boot : Pmm := mkPmm [] 0 0 0 0 0.

(** A place the bitmap may be put: page aligned, inside a usable region, above
    the first megabyte and clear of the kernel image and the boot modules. *)
Definition bitmap_home (regions : list MemoryRegion) (bytes c : Z) : Prop :=
  exists r, r ∈ regions /\ region_kind r = Usable
    /\ region_base r <= c /\ c + bytes <= region_base r + region_length r
    /\ c mod PAGE_SIZE = 0 /\ range_is_clear regions c bytes = true.

Lemma range_is_clear_spec regions base length :
  Forall sane_region regions -> is_u64 (base + length) ->
  range_is_clear regions base length = true ->
  0x100000 <= base
  /\ forall r, r ∈ regions -> is_carved (region_kind r) = true ->
       region_base r + region_length r <= base \/ base + length <= region_base r.
Proof.
  intros Hs Hl. induction regions as [|r rs IH]; cbn [range_is_clear].
  - rewrite Z.geb_leb. intros H%Z.leb_le. split; [done|]. by intros r ?%elem_of_nil.
  - apply Forall_cons_1 in Hs as [Hr Hs].
    destruct (is_carved (region_kind r) && _ && _) eqn:E; [done|].
    intros H. destruct (IH Hs H) as [H1 H2]. split; [done|].
    intros r' [->|Hin]%elem_of_cons Hc; [|by apply H2].
    rewrite Hc, !u64_small in E by (done || (unfold sane_region, sane_range, PAGE_SIZE, is_u64 in *; lia)).
    cbn [andb] in E. zcases_in E; done || lia.
Qed.

Lemma range_is_clear_low regions base length :
  range_is_clear regions base length = true -> 0x100000 <= base.
Proof.
  induction regions as [|r rs IH]; cbn [range_is_clear].
  - rewrite Z.geb_leb. by intros H%Z.leb_le.
  - destruct (_ && _ && _); [done|]. apply IH.
Qed.

Section Candidate.
Context (regions : list MemoryRegion) (region_end bytes : Z).
Hypothesis Hend : 0 <= region_end < 2 ^ 64 - PAGE_SIZE.
Hypothesis Hbytes : 0 <= bytes.

Lemma step_candidate_sound fuel c d :
  0 <= c -> c mod PAGE_SIZE = 0 -> c + bytes < 2 ^ 64 ->
  step_candidate fuel regions c region_end bytes = Some d ->
  c <= d /\ d mod PAGE_SIZE = 0 /\ d + bytes <= region_end
  /\ range_is_clear regions d bytes = true.
Proof using Hend Hbytes.
  unfold PAGE_SIZE in *. revert c. induction fuel as [|fuel IH]; intros c Hc Ha Hw; [done|].
  cbn [step_candidate]. rewrite u64_small by (unfold is_u64; lia).
  destruct (Z.leb_spec (c + bytes) region_end); [|done].
  destruct (range_is_clear regions c bytes) eqn:E.
  - intros [= <-]. done.
  - unfold PAGE_SIZE. rewrite u64_small by (unfold is_u64; lia). intros Hd.
    apply IH in Hd as (? & ? & ? & ?); [split_and!; [lia|done|done|done]|lia|zlia|lia].
Qed.

Lemma step_candidate_complete fuel c d :
  0 <= c <= d -> (d - c) mod PAGE_SIZE = 0 -> c + bytes < 2 ^ 64 ->
  d + bytes <= region_end -> range_is_clear regions d bytes = true ->
  (d - c) / PAGE_SIZE < Z.of_nat fuel ->
  is_Some (step_candidate fuel regions c region_end bytes).
Proof using Hend Hbytes.
  unfold PAGE_SIZE in *. revert c. induction fuel as [|fuel IH]; intros c Hc Ha Hw Hd Hclr Hf.
  { zlia. }
  cbn [step_candidate]. rewrite u64_small by (unfold is_u64; lia).
  destruct (Z.leb_spec (c + bytes) region_end); [|lia].
  destruct (range_is_clear regions c bytes) eqn:E; [eauto|].
  assert (c <> d) by congruence.
  unfold PAGE_SIZE. rewrite u64_small by (unfold is_u64; lia). apply IH; first [done | zlia].
Qed.
End Candidate.

(** The first candidate of a region long enough for the bitmap. *)
Lemma first_candidate r bytes :
  sane_region r -> 0 <= bytes <= 2 ^ 50 -> bytes <= region_length r ->
  let c := align_up (Z.max (region_base r) 0x100000) PAGE_SIZE in
  0 <= c /\ c mod PAGE_SIZE = 0 /\ region_base r <= c /\ c + bytes < 2 ^ 64
  /\ u64 (region_base r + region_length r) = region_base r + region_length r
  /\ forall d, region_base r <= d -> 0x100000 <= d -> d mod PAGE_SIZE = 0 -> c <= d.
Proof.
  unfold sane_region, sane_range. intros (Hb & Hl & Hs) Hbytes Hle. cbn zeta.
  rewrite align_up_page by (unfold PAGE_SIZE in *; lia).
  unfold PAGE_SIZE in *. rewrite u64_small by (unfold is_u64; lia).
  split_and!; [zlia|apply Z_mod_mult|zlia|zlia|done|]. intros. zlia.
Qed.

Lemma find_bitmap_sound all regions bytes c :
  Forall sane_region regions -> 0 <= bytes <= 2 ^ 50 ->
  find_bitmap all regions bytes = Some c ->
  exists r, r ∈ regions /\ region_kind r = Usable
    /\ region_base r <= c /\ c + bytes <= region_base r + region_length r
    /\ c mod PAGE_SIZE = 0 /\ range_is_clear all c bytes = true.
Proof.
  intros Hs Hb. induction regions as [|r rs IH]; cbn [find_bitmap]; [done|].
  apply Forall_cons_1 in Hs as [Hr Hs].
  assert (Hrec : find_bitmap all rs bytes = Some c -> exists r0, r0 ∈ r :: rs
    /\ region_kind r0 = Usable /\ region_base r0 <= c
    /\ c + bytes <= region_base r0 + region_length r0
    /\ c mod PAGE_SIZE = 0 /\ range_is_clear all c bytes = true).
  { intros H. destruct (IH Hs H) as (r0 & Hin & Hrest). exists r0. split; [by right|done]. }
  destruct (decide (region_kind r = Usable)) as [Hk|]; [|done].
  destruct (Z.ltb_spec (region_length r) bytes); [done|].
  destruct (first_candidate r bytes) as (H1 & H2 & H3 & H4 & H5 & _); [done|done|done|].
  rewrite H5. destruct (step_candidate _ _ _ _ _) eqn:E; [|done]. intros [= ->].
  unfold sane_region, sane_range in Hr.
  apply step_candidate_sound in E as (? & ? & ? & ?); [|lia..|done|done].
  exists r. split_and!; [by left|done|lia|done|done|done].
Qed.

Lemma find_bitmap_complete all regions bytes c :
  Forall sane_region regions -> 0 <= bytes <= 2 ^ 50 ->
  (exists r, r ∈ regions /\ region_kind r = Usable
    /\ region_base r <= c /\ c + bytes <= region_base r + region_length r
    /\ c mod PAGE_SIZE = 0 /\ range_is_clear all c bytes = true) ->
  is_Some (find_bitmap all regions bytes).
Proof.
  intros Hs Hb. induction regions as [|r rs IH]; intros (r0 & Hin & Hrest).
  { by apply elem_of_nil in Hin. }
  apply Forall_cons_1 in Hs as [Hr Hs]. cbn [find_bitmap].
  apply elem_of_cons in Hin as [->|Hin].
  - destruct Hrest as (Hk & Hlo & Hhi & Ha & Hc).
    rewrite decide_True by done.
    destruct (Z.ltb_spec (region_length r) bytes); [lia|].
    destruct (first_candidate r bytes) as (H1 & H2 & H3 & H4 & H5 & H6); [done|done|done|].
    pose proof (range_is_clear_low _ _ _ Hc) as Hlow.
    pose proof (H6 c Hlo Hlow Ha) as Hle. rewrite H5.
    unfold sane_region, sane_range in Hr.
    destruct (step_candidate_complete all (region_base r + region_length r) bytes
      ltac:(lia) ltac:(lia)
      (candidate_fuel (align_up (Z.max (region_base r) 0x100000) PAGE_SIZE)
         (region_base r + region_length r))
      (align_up (Z.max (region_base r) 0x100000) PAGE_SIZE) c) as [x ->]; [..|eauto].
    + lia.
    + rewrite Zminus_mod, H2, Ha. done.
    + done.
    + done.
    + done.
    + unfold candidate_fuel, PAGE_SIZE in *. zlia.
  - specialize (IH Hs (ex_intro _ r0 (conj Hin Hrest))).
    destruct (decide _); [|done]. destruct (_ <? _); [done|].
    destruct (step_candidate _ _ _ _ _); [eauto|done].
Qed.

Lemma highest_usable_bound regions :
  Forall sane_region regions -> 0 <= highest_usable regions < 2 ^ 64 - PAGE_SIZE.
Proof.
  unfold highest_usable. intros Hs.
  enough (Hgen : forall f h, 0 <= h < 2 ^ 64 - PAGE_SIZE ->
    (forall h r, sane_region r -> 0 <= h < 2 ^ 64 - PAGE_SIZE ->
       0 <= f h r < 2 ^ 64 - PAGE_SIZE) ->
    0 <= fold_left f regions h < 2 ^ 64 - PAGE_SIZE).
  { apply Hgen; [unfold PAGE_SIZE; lia|]. intros h r (H1 & H2 & H3) Hh.
    destruct (decide _); [|done].
    rewrite u64_small by (unfold is_u64, PAGE_SIZE in *; lia). lia. }
  induction Hs as [|r rs Hr Hs IH]; intros f h Hh Hf; [done|].
  cbn [fold_left]. apply IH; [by apply Hf|done].
Qed.

(** The sizes [physical_initialize] derives from the map. *)
Definition init_pages (regions : list MemoryRegion) : Z :=
  align_up (highest_usable regions) PAGE_SIZE / PAGE_SIZE.
Definition init_bytes (regions : list MemoryRegion) : Z :=
  u64 (div_round_up (init_pages regions) BITS_PER_WORD * 8).

Lemma init_sizes regions : Forall sane_region regions ->
  0 <= init_pages regions <= 2 ^ 52
  /\ div_round_up (init_pages regions) BITS_PER_WORD = (init_pages regions + 63) / 64
  /\ 0 <= init_bytes regions <= 2 ^ 50.
Proof.
  intros Hs. pose proof (highest_usable_bound regions Hs).
  unfold init_bytes, init_pages, div_round_up, BITS_PER_WORD.
  rewrite align_up_page by done. unfold PAGE_SIZE in *. rewrite Z.div_mul by lia.
  rewrite (u64_small (_ + _ - 1)) by (unfold is_u64; zlia).
  rewrite (u64_small (_ * 8)) by (unfold is_u64; zlia).
  split_and!; zlia.
Qed.

(** The all-ones bitmap satisfies the invariant. *)
Lemma full_inv at_ total hint :
  0 <= total <= 2 ^ 52 -> 0 <= hint <= total ->
  pmm_inv (mkPmm (replicate (Z.to_nat ((total + 63) / 64)) WORD_FULL) at_
             ((total + 63) / 64) total total hint)
  /\ forall i, 0 <= i < 64 * ((total + 63) / 64) ->
       test_bit (mkPmm (replicate (Z.to_nat ((total + 63) / 64)) WORD_FULL) at_
                   ((total + 63) / 64) total total hint) i = true.
Proof.
  intros Ht Hh.
  assert (Hall : forall i, 0 <= i < 64 * ((total + 63) / 64) ->
    test_bit (mkPmm (replicate (Z.to_nat ((total + 63) / 64)) WORD_FULL) at_
                ((total + 63) / 64) total total hint) i = true).
  { intros i Hi. rewrite test_bit_testbit by lia. cbn [s_bitmap].
    rewrite zget_replicate by zlia.
    change WORD_FULL with (Z.ones 64). apply Z.ones_spec_low. zlia. }
  split; [|done].
  split; cbn [s_bitmap s_bitmap_words s_total_pages s_used_pages s_search_hint].
  - unfold zlen. rewrite length_replicate. zlia.
  - done.
  - done.
  - apply Forall_replicate. unfold is_u64, WORD_FULL. lia.
  - intros i Hi. apply Hall. lia.
  - rewrite count_bits_all by (intros; apply Hall; zlia). lia.
  - done.
Qed.

(** Which frames are free after initialisation, as a predicate of the map. *)
Definition initially_free (regions : list MemoryRegion) (bitmap_phys : Z) (i : Z) : bool :=
  covered (fun k => bool_decide (k = Usable)) regions i
  && negb (covered is_carved regions i)
  && negb (overlaps bitmap_phys (init_bytes regions) i)
  && negb (i =? 0).

Lemma physical_initialize_spec regions st :
  Forall sane_region regions ->
  physical_initialize regions pmm_boot = (Ok tt, st) ->
  pmm_inv st
  /\ s_total_pages st = init_pages regions
  /\ bitmap_home regions (init_bytes regions) (s_bitmap_at st)
  /\ forall i, 0 <= i < s_total_pages st ->
       test_bit st i = negb (initially_free regions (s_bitmap_at st) i).
Proof.
  intros Hs. destruct (init_sizes regions Hs) as (Hp & Hw & Hb).
  unfold physical_initialize. change (align_up _ _ / PAGE_SIZE) with (init_pages regions).
  change (u64 (_ * 8)) with (init_bytes regions). rewrite Hw.
  destruct (find_bitmap regions regions (init_bytes regions)) as [at_|] eqn:Ef; [|done].
  apply find_bitmap_sound in Ef as Hhome; [|done|done].
  destruct Hhome as (r & Hin & Hk & Hlo & Hhi & Ha & Hc).
  assert (Hsr : sane_region r) by (by eapply (proj1 (list.Forall_forall _ _))).
  pose proof (range_is_clear_low _ _ _ Hc) as Hlow.
  unfold sane_region, sane_range in Hsr. cbn [s_search_hint pmm_boot].
  destruct (full_inv at_ (init_pages regions) 0 Hp ltac:(lia)) as [Hi0 Hb0].
  set (st0 := mkPmm _ _ _ _ _ _) in *.
  destruct (for_regions_free (fun k => bool_decide (k = Usable)) regions st0 Hi0 Hs)
    as (Hi1 & (Ht1 & _ & Ha1 & _) & Hb1).
  set (st1 := for_regions _ _ _ st0) in *.
  destruct (for_regions_used is_carved regions st1 Hi1 Hs) as (Hi2 & (Ht2 & _ & Ha2 & _) & Hb2).
  set (st2 := for_regions _ _ _ st1) in *.
  destruct (apply_used_spec st2 at_ (init_bytes regions) Hi2) as (Hi3 & (Ht3 & _ & Ha3 & _) & Hb3).
  { unfold sane_range. lia. }
  set (st3 := apply_to_range at_ _ _ st2) in *.
  destruct (apply_used_spec st3 0 PAGE_SIZE Hi3) as (Hi4 & (Ht4 & _ & Ha4 & _) & Hb4).
  { unfold sane_range, PAGE_SIZE. lia. }
  set (st4 := apply_to_range 0 _ _ st3) in *.
  assert (T0 : s_total_pages st0 = init_pages regions) by done.
  assert (A0 : s_bitmap_at st0 = at_) by done.
  clearbody st0 st1 st2 st3 st4.
  assert (HT : s_total_pages st4 = init_pages regions) by lia.
  assert (HA : s_bitmap_at st4 = at_) by lia.
  intros [= <-]. split_and!.
  - apply inv_set_hint; [done|lia].
  - done.
  - change (s_bitmap_at (set_hint 0 st4)) with (s_bitmap_at st4). rewrite HA. by exists r.
  - change (s_bitmap_at (set_hint 0 st4)) with (s_bitmap_at st4).
    change (s_total_pages (set_hint 0 st4)) with (s_total_pages st4).
    rewrite test_bit_set_hint, HA, HT. intros i Hi.
    rewrite Hb4, Hb3, Hb2, Hb1, Hb0 by zlia.
    unfold initially_free.
    replace (overlaps 0 PAGE_SIZE i) with (i =? 0)
      by (unfold overlaps, PAGE_SIZE; zcases; done || lia).
    by destruct (_ =? _), (overlaps _ _ _), (covered is_carved _ _), (covered _ _ _).
Qed.

(** ** Allocation *)

Lemma word_free_bit w : is_u64 w -> w <> WORD_FULL ->
  let b := ctzll (u64 (Z.lnot w)) in
  0 <= b < 64 /\ Z.testbit w b = false /\ forall k, 0 <= k < b -> Z.testbit w k = true.
Proof.
  intros Hw Hne. cbn zeta.
  destruct (ctzll_spec (u64 (Z.lnot w))) as (H1 & H2 & H3).
  - apply u64_range.
  - intros H0. apply Hne. apply u64_bits_eq; [done|unfold is_u64, WORD_FULL; lia|].
    intros i Hi. change WORD_FULL with (Z.ones 64). rewrite Z.ones_spec_low by lia.
    assert (Hb : Z.testbit (u64 (Z.lnot w)) i = false) by (rewrite H0; apply Z.testbit_0_l).
    rewrite u64_testbit, Z.lnot_spec in Hb by lia. by apply negb_false_iff in Hb.
  - split_and!; [lia|lia| |].
    + rewrite u64_testbit, Z.lnot_spec in H2 by lia. by apply negb_true_iff in H2.
    + intros k Hk. specialize (H3 k Hk).
      rewrite u64_testbit, Z.lnot_spec in H3 by lia. by apply negb_false_iff in H3.
Qed.

Lemma test_bit_word st word k : 0 <= word -> 0 <= k < 64 ->
  test_bit st (word * 64 + k) = Z.testbit (zget 0 (s_bitmap st) word) k.
Proof.
  intros. rewrite test_bit_testbit by lia. f_equal; [f_equal|]; zlia.
Qed.

Section Scan.
Context (st : Pmm) (attempt limit : Z).
Hypothesis Hinv : pmm_inv st.

Lemma alloc_scan_spec fuel word :
  0 <= word -> s_bitmap_words st - word < Z.of_nat fuel ->
  match alloc_scan fuel st word attempt limit with
  | Some i => 64 * word <= i < s_total_pages st /\ test_bit st i = false
              /\ (attempt = 1 -> i < limit)
              /\ forall j, 64 * word <= j < i -> test_bit st j = true
  | None => forall j, 64 * word <= j < s_total_pages st -> (attempt = 1 -> j < limit) ->
              test_bit st j = true
  end.
Proof using Hinv.
  revert word. induction fuel as [|fuel IH]; intros word Hw Hf.
  { intros j Hj _. pose proof (inv_words st Hinv). zlia. }
  cbn [alloc_scan]. unfold BITS_PER_WORD. destruct (Z.ltb_spec word (s_bitmap_words st)) as [Hlt|Hge].
  2:{ intros j Hj _. pose proof (inv_words st Hinv). zlia. }
  destruct (Z.eqb_spec (zget 0 (s_bitmap st) word) WORD_FULL) as [Hfull|Hnf].
  - assert (Hset : forall j, 64 * word <= j < 64 * (word + 1) -> test_bit st j = true).
    { intros j Hj. replace j with (word * 64 + (j - word * 64)) by lia.
      rewrite test_bit_word, Hfull by lia. change WORD_FULL with (Z.ones 64).
      apply Z.ones_spec_low. lia. }
    specialize (IH (word + 1) ltac:(lia) ltac:(lia)).
    destruct (alloc_scan fuel st (word + 1) attempt limit) as [i|].
    + destruct IH as (H1 & H2 & H3 & H4). split_and!; [lia|lia|done|done|].
      intros j Hj. destruct (Z.ltb_spec j (64 * (word + 1))); [apply Hset|apply H4]; lia.
    + intros j Hj Hl. destruct (Z.ltb_spec j (64 * (word + 1))); [apply Hset; lia|].
      apply IH; [lia|done].
  - destruct (word_free_bit (zget 0 (s_bitmap st) word)) as (H1 & H2 & H3); [|done|].
    { apply zget_is_u64, Hinv. }
    set (b := ctzll _) in *.
    assert (Hbelow : forall j, 64 * word <= j < word * 64 + b -> test_bit st j = true).
    { intros j Hj. replace j with (word * 64 + (j - word * 64)) by lia.
      rewrite test_bit_word by lia. apply H3. lia. }
    rewrite !Z.geb_leb.
    destruct (Z.leb_spec (s_total_pages st) (word * 64 + b)); cbn [orb].
    { intros j Hj _. apply Hbelow. lia. }
    destruct (Z.eqb_spec attempt 1); cbn [andb].
    + destruct (Z.leb_spec limit (word * 64 + b)).
      * intros j Hj Hl. apply Hbelow. specialize (Hl e). lia.
      * split_and!; [lia|lia|by rewrite test_bit_word by lia|lia|done].
    + split_and!; [lia|lia|by rewrite test_bit_word by lia|done|done].
Qed.
End Scan.

(** The postcondition of a successful single-frame allocation. *)
Definition took (st st' : Pmm) (i : Z) : Prop :=
  0 <= i < s_total_pages st /\ test_bit st i = false
  /\ (forall j, 0 <= j -> test_bit st' j = bool_decide (i = j) || test_bit st j)
  /\ s_used_pages st' = s_used_pages st + 1
  /\ s_total_pages st' = s_total_pages st.

Lemma take_page_spec st i : pmm_inv st -> 0 <= i < s_total_pages st -> test_bit st i = false ->
  exists st', take_page i st = (Ok (i * PAGE_SIZE), st') /\ took st st' i /\ pmm_inv st'.
Proof.
  intros Hinv Hi Hfree. unfold take_page. eexists.
  pose proof (inv_total st Hinv). pose proof (inv_used st Hinv) as Hu.
  pose proof (count_bits_bound (test_bit st) (Z.to_nat (s_total_pages st))).
  rewrite (u64_small (i * PAGE_SIZE)) by (unfold is_u64, PAGE_SIZE; lia).
  rewrite (u64_small (i + 1)) by (unfold is_u64; lia).
  split; [done|]. split.
  - split_and!; [lia|lia|done| |cbn; rewrite u64_small; [done|unfold is_u64; lia]|done].
    intros j Hj. rewrite test_bit_set_hint, test_bit_set_used.
    apply test_bit_set_bit; [by apply inv_index|done].
  - apply inv_set_hint; [by apply inv_take|cbn; lia].
Qed.

Lemma allocate_page_cases st : pmm_inv st ->
  (exists i st', allocate_page st = (Ok (i * PAGE_SIZE), st') /\ took st st' i /\ pmm_inv st')
  \/ (allocate_page st = (Err ENOMEM, st)
      /\ forall j, 0 <= j < s_total_pages st -> test_bit st j = true).
Proof.
  intros Hinv. unfold allocate_page, BITS_PER_WORD. pose proof (inv_hint st Hinv) as Hh.
  pose proof (inv_words st Hinv) as Hw.
  pose proof (alloc_scan_spec st 0 (s_total_pages st) Hinv (scan_fuel st)
    (s_search_hint st / 64) ltac:(zlia) ltac:(unfold scan_fuel; zlia)) as H0.
  destruct (alloc_scan _ _ _ 0 _) as [i|].
  { left. destruct H0 as (H1 & H2 & _). destruct (take_page_spec st i) as (st' & ? & ? & ?);
      [done|zlia|done|]. by exists i, st'. }
  pose proof (alloc_scan_spec st 1 (s_search_hint st) Hinv (scan_fuel st)
    (0 / 64) ltac:(zlia) ltac:(unfold scan_fuel; zlia)) as H1.
  destruct (alloc_scan _ _ _ 1 _) as [i|].
  { left. destruct H1 as (H1 & H2 & _). destruct (take_page_spec st i) as (st' & ? & ? & ?);
      [done|zlia|done|]. by exists i, st'. }
  right. split; [done|]. intros j Hj.
  destruct (Z.ltb_spec j (s_search_hint st)).
  - apply H1; [zlia|done].
  - apply H0; [zlia|done].
Qed.

(** ** Contiguous runs *)

Definition run_free (st : Pmm) (start count : Z) : Prop :=
  forall j, start <= j < start + count -> test_bit st j = false.

(** The scan returns the lowest start of a free run of [count] frames. *)
Lemma contiguous_scan_spec st count fuel index run_start run_length :
  1 < count -> 0 <= index -> 0 <= run_length < count -> 0 <= run_length <= index ->
  (run_length <> 0 -> run_start = index - run_length) ->
  run_free st (index - run_length) run_length ->
  (run_length < index -> test_bit st (index - run_length - 1) = true) ->
  (forall s, 0 <= s < index - run_length -> ~ run_free st s count) ->
  match contiguous_scan fuel st count index run_start run_length with
  | Some s => 0 <= s /\ s + count <= index + Z.of_nat fuel /\ run_free st s count
              /\ forall s', 0 <= s' < s -> ~ run_free st s' count
  | None => forall s, 0 <= s -> s + count <= index + Z.of_nat fuel -> ~ run_free st s count
  end.
Proof.
  intros Hc. revert index run_start run_length.
  induction fuel as [|fuel IH]; intros index run_start run_length Hi Hl Hli Hs Hrun Hprev Hno.
  { intros s Hs0 Hle. destruct (Z.ltb_spec s (index - run_length)); [apply Hno|]; lia. }
  cbn [contiguous_scan]. destruct (test_bit st index) eqn:Ebit.
  - specialize (IH (index + 1) run_start 0).
    assert (Hno' : forall s, 0 <= s < index + 1 - 0 -> ~ run_free st s count).
    { intros s Hs0 Hr. destruct (Z.ltb_spec s (index - run_length)); [by apply (Hno s); [lia|]|].
      assert (test_bit st index = false) by (apply Hr; lia). congruence. }
    replace (index + Z.of_nat (S fuel)) with (index + 1 + Z.of_nat fuel) by lia.
    apply IH; [lia|lia|lia|lia|intros j Hj; lia| |done].
    intros _. by replace (index + 1 - 0 - 1) with index by lia.
  - set (rs := if run_length =? 0 then index else run_start).
    assert (Hrs : rs = index - run_length).
    { unfold rs. destruct (Z.eqb_spec run_length 0); [lia|auto]. }
    assert (Hrun' : run_free st (index - run_length) (run_length + 1)).
    { intros j Hj. destruct (decide (j = index)) as [->|]; [done|]. apply Hrun. lia. }
    destruct (Z.eqb_spec (run_length + 1) count) as [<-|Hne].
    + rewrite Hrs. split_and!; [lia|lia|done|done].
    + replace (index + Z.of_nat (S fuel)) with (index + 1 + Z.of_nat fuel) by lia.
      replace (index - run_length) with (index + 1 - (run_length + 1)) in * by lia.
      apply IH; [lia|lia|lia|lia|done| |done].
      intros ?. apply Hprev. lia.
Qed.

Lemma allocate_contiguous_cases st count : pmm_inv st -> 1 < count < 2 ^ 64 - 2 ^ 52 ->
  (exists s, allocate_contiguous count st = (Ok (s * PAGE_SIZE), mark_used s count st)
     /\ 0 <= s /\ s + count <= s_total_pages st /\ run_free st s count
     /\ (forall s', 0 <= s' < s -> ~ run_free st s' count))
  \/ (allocate_contiguous count st = (Err ENOMEM, st)
      /\ forall s, 0 <= s -> s + count <= s_total_pages st -> ~ run_free st s count).
Proof.
  intros Hinv Hc. unfold allocate_contiguous. pose proof (inv_total st Hinv).
  destruct (Z.eqb_spec count 0); [lia|]. destruct (Z.eqb_spec count 1); [lia|].
  pose proof (contiguous_scan_spec st count (Z.to_nat (s_total_pages st)) 0 0 0) as Hscan.
  destruct (contiguous_scan _ _ _ _ _ _) as [s|].
  - left. destruct Hscan as (H1 & H2 & H3 & H4); [lia|lia|lia|lia|lia|intros j Hj; lia|lia|lia|].
    exists s. rewrite u64_small by (unfold is_u64, PAGE_SIZE; lia).
    split_and!; [done|lia|lia|done|done].
  - right. split; [done|]. intros s H1 H2.
    apply Hscan; [lia|lia|lia|lia|lia|intros j Hj; lia|lia|lia|done|lia].
Qed.

(** ** Freeing *)

Definition all_used (st : Pmm) (first last : Z) : Prop :=
  forall j, first <= j < last -> test_bit st j = true.

Lemma free_loop_ok n i st :
  pmm_inv st -> 0 <= i -> i + Z.of_nat n <= s_total_pages st -> all_used st i (i + Z.of_nat n) ->
  exists st', free_loop n i st = (Ok tt, st') /\ pmm_inv st' /\ same_frame st st'
    /\ s_used_pages st' = s_used_pages st - Z.of_nat n
    /\ forall j, 0 <= j ->
         test_bit st' j = negb (in_range i (i + Z.of_nat n) j) && test_bit st j.
Proof.
  revert i st. induction n as [|n IH]; intros i st Hinv Hi Hle Hall.
  - exists st. split_and!; [done|done|apply same_frame_refl|lia|].
    intros j Hj. unfold in_range. zcases; done || lia.
  - assert (Hbit : test_bit st i = true) by (apply Hall; lia).
    cbn [free_loop]. rewrite Hbit. cbn [negb].
    assert (Hs : pmm_inv (set_used (u64 (s_used_pages st - 1)) (clear_bit i st)))
      by (apply inv_release; [done|lia|done]).
    assert (Hidx : 0 <= i < 64 * zlen (s_bitmap st)) by (apply inv_index; [done|lia]).
    destruct (IH (i + 1) (set_used (u64 (s_used_pages st - 1)) (clear_bit i st)))
      as (st' & H1 & H2 & H3 & H4 & H5).
    + done.
    + lia.
    + cbn. lia.
    + intros j Hj. rewrite test_bit_set_used, test_bit_clear_bit by (done || lia).
      rewrite bool_decide_eq_false_2 by lia. apply Hall. lia.
    + exists st'. split_and!; [done|done|done| |].
      * rewrite H4. pose proof (inv_used _ Hs) as Hu. cbn in Hu |- *.
        pose proof (count_bits_bound (test_bit st) (Z.to_nat (s_total_pages st))) as Hb.
        rewrite <- (inv_used st Hinv) in Hb. pose proof (inv_total st Hinv).
        assert (0 < s_used_pages st).
        { rewrite (inv_used st Hinv).
          rewrite (count_bits_flip (fun k => negb (k =? i) && test_bit st k) (test_bit st) i).
          - pose proof (count_bits_bound (fun k => negb (k =? i) && test_bit st k)
              (Z.to_nat (s_total_pages st))). lia.
          - lia.
          - by rewrite Z.eqb_refl.
          - done.
          - intros k _ Hk. by apply Z.eqb_neq in Hk as ->. }
        rewrite u64_small by (unfold is_u64; lia). lia.
      * intros j Hj. rewrite H5, test_bit_set_used, test_bit_clear_bit by (done || lia).
        unfold in_range. destruct (decide (i = j)) as [->|].
        -- rewrite bool_decide_eq_true_2 by done. zcases; done || lia.
        -- rewrite bool_decide_eq_false_2 by done. zcases; done || lia.
Qed.

Lemma free_loop_panic n i st :
  pmm_inv st -> 0 <= i -> i + Z.of_nat n <= s_total_pages st ->
  (exists j, i <= j < i + Z.of_nat n /\ test_bit st j = false) ->
  fst (free_loop n i st) = Panic.
Proof.
  revert i st. induction n as [|n IH]; intros i st Hinv Hi Hle (j & Hj & Hfree); [lia|].
  cbn [free_loop]. destruct (test_bit st i) eqn:Ebit; [|done]. cbn [negb].
  apply IH.
  - apply inv_release; [done|lia|done].
  - lia.
  - cbn. lia.
  - exists j. assert (j <> i) by congruence. split; [lia|].
    rewrite test_bit_set_used, test_bit_clear_bit by (by (apply inv_index; [done|lia]) || lia).
    rewrite Hfree. apply andb_false_r.
Qed.

(** What freeing [count] frames from [base] does to a state of the invariant. *)
Definition freed (st st' : Pmm) (first last : Z) : Prop :=
  (forall j, 0 <= j -> test_bit st' j = negb (in_range first last j) && test_bit st j)
  /\ s_used_pages st' = s_used_pages st - (last - first)
  /\ s_total_pages st' = s_total_pages st.

Lemma free_contiguous_cases st base count :
  pmm_inv st -> 0 <= base -> 0 <= count -> base / PAGE_SIZE + count < 2 ^ 64 ->
  let first := base / PAGE_SIZE in
  let last := Z.min (first + count) (s_total_pages st) in
  (s_total_pages st <= first -> free_contiguous base count st = (Ok tt, st))
  /\ (first < s_total_pages st -> all_used st first last ->
        exists st', free_contiguous base count st = (Ok tt, st')
          /\ pmm_inv st' /\ freed st st' first last)
  /\ (first < s_total_pages st -> ~ all_used st first last ->
        fst (free_contiguous base count st) = Panic).
Proof.
  intros Hinv Hb Hc Hw. cbn zeta. unfold free_contiguous, range_iterations.
  assert (0 <= base / PAGE_SIZE) by (unfold PAGE_SIZE; zlia).
  rewrite u64_small by (unfold is_u64; lia). rewrite Z.geb_leb.
  set (first := base / PAGE_SIZE) in *. set (last := Z.min (first + count) (s_total_pages st)).
  split_and!.
  - intros Hge. by rewrite (proj2 (Z.leb_le _ _) Hge).
  - intros Hlt Hall. destruct (Z.leb_spec (s_total_pages st) first); [lia|].
    destruct (free_loop_ok (Z.to_nat (last - first)) first st) as (st' & -> & H2 & H3 & H4 & H5);
      [done|lia|lia|intros j Hj; apply Hall; lia|].
    eexists. split_and!; [done| |].
    + destruct H3 as (Ht & Hh & _). pose proof (inv_hint st Hinv).
      apply inv_set_hint; [done|lia].
    + split_and!; [|cbn; lia|apply H3].
      intros j Hj. rewrite test_bit_set_hint, H5 by done.
      by replace (first + Z.of_nat (Z.to_nat (last - first))) with last by lia.
  - intros Hlt Hno. destruct (Z.leb_spec (s_total_pages st) first); [lia|].
    assert (Hex : exists j, first <= j < last /\ test_bit st j = false).
    { destruct (decide (Forall (fun k => test_bit st k = true) (seqZ first (last - first))))
        as [Hall|Hex].
      - exfalso. apply Hno. intros j Hj.
        apply (proj1 (list.Forall_forall _ _) Hall). apply elem_of_seqZ. lia.
      - apply not_Forall_Exists in Hex; [|apply _]. apply list.Exists_exists in Hex as (j & Hin & Hj).
        apply elem_of_seqZ in Hin. exists j. split; [lia|]. by apply not_true_is_false. }
    pose proof (free_loop_panic (Z.to_nat (last - first)) first st Hinv ltac:(lia) ltac:(lia)) as Hp.
    destruct (free_loop _ _ _) as [r s]. cbn in Hp. rewrite Hp; [done|].
    destruct Hex as (j & Hj & ?). exists j. split; [lia|done].
Qed.

(** ** The frame allocator as the rest of the kernel sees it

    What [mm::allocate_page] and [mm::free_page] promise their clients: a frame
    handed out was not owned by anybody, and a frame given back by its owner
    does not stop the machine.  The page tables are verified against this
    interface. *)

Class FrameAllocator (St : Type) : Type := {
  fa_ok : St -> Prop;
  fa_owned : St -> Z -> Prop;
  fa_allocate : M St Z;
  fa_free : Z -> M St unit;
  fa_allocate_spec : forall st, fa_ok st ->
    match fa_allocate st with
    | (Ok a, st') => fa_ok st' /\ ~ fa_owned st a
                     /\ forall b, fa_owned st' b <-> b = a \/ fa_owned st b
    | (Err e, st') => e = ENOMEM /\ st' = st
    | (Panic, _) => False
    end;
  fa_owned_range : forall st a, fa_ok st -> fa_owned st a -> 0 <= a < 2 ^ 52 /\ a mod PAGE_SIZE = 0;
  fa_free_spec : forall st a, fa_ok st -> fa_owned st a ->
    exists st', fa_free a st = (Ok tt, st') /\ fa_ok st'
      /\ forall b, fa_owned st' b <-> b <> a /\ fa_owned st b;
}.

Definition pmm_owned (st : Pmm) (a : Z) : Prop :=
  0 <= a /\ a mod PAGE_SIZE = 0 /\ a / PAGE_SIZE < s_total_pages st
  /\ test_bit st (a / PAGE_SIZE) = true.

Lemma frame_div i : i * PAGE_SIZE / PAGE_SIZE = i.
Proof. apply Z.div_mul. done. Qed.

Lemma frame_mod i : (i * PAGE_SIZE) mod PAGE_SIZE = 0.
Proof. apply Z_mod_mult. Qed.

Lemma frame_of_div a : a mod PAGE_SIZE = 0 -> a = a / PAGE_SIZE * PAGE_SIZE.
Proof. unfold PAGE_SIZE. intros. zlia. Qed.

Lemma pmm_owned_after_take st st' i a : took st st' i ->
  pmm_owned st' a <-> a = i * PAGE_SIZE \/ pmm_owned st a.
Proof.
  intros (Hi & Hfree & Hbits & _ & Ht). unfold pmm_owned. rewrite Ht. split.
  - intros (H1 & H2 & H3 & H4). rewrite Hbits in H4 by (unfold PAGE_SIZE in *; zlia).
    destruct (decide (i = a / PAGE_SIZE)) as [->|Hne].
    + left. by apply frame_of_div.
    + rewrite bool_decide_eq_false_2 in H4 by done. by right.
  - intros [->|(H1 & H2 & H3 & H4)].
    + rewrite frame_div, frame_mod, Hbits, bool_decide_eq_true_2 by (done || lia).
      split_and!; [unfold PAGE_SIZE; lia|done|lia|done].
    + split_and!; [done|done|done|]. rewrite Hbits, H4 by (unfold PAGE_SIZE in *; zlia).
      apply orb_true_r.
Qed.

(** The allocator of a machine whose memory x86-64 can address: 52 bits. *)
Definition pmm_ok (st : Pmm) : Prop := pmm_inv st /\ s_total_pages st <= 2 ^ 40.

#[export] Instance pmm_frames : FrameAllocator Pmm.
Proof.
  refine {| fa_ok := pmm_ok; fa_owned := pmm_owned;
            fa_allocate := allocate_page; fa_free := free_page |}.
  - intros st [Hinv Hmax].
    destruct (allocate_page_cases st Hinv) as [(i & st' & -> & Htook & Hinv')|[-> _]]; [|done].
    destruct (Htook) as (Hi & Hfree & _ & _ & Ht).
    split_and!; [split; [done|lia]| |].
    + intros (_ & _ & _ & Hbit). rewrite frame_div in Hbit. congruence.
    + intros b. by apply pmm_owned_after_take.
  - intros st a [_ Hmax] (H1 & H2 & H3 & _). unfold PAGE_SIZE in *. zlia.
  - intros st a [Hinv Hmax] (H1 & H2 & H3 & H4). pose proof (inv_total st Hinv).
    unfold free_page.
    destruct (free_contiguous_cases st a 1) as (_ & Hok & _); [done|done|lia|lia|].
    destruct Hok as (st' & Hr & Hinv' & Hbits & _ & Ht).
    + done.
    + intros j Hj. by replace j with (a / PAGE_SIZE) by lia.
    + exists st'. split_and!; [done|split; [done|lia]|]. intros b. unfold pmm_owned. rewrite Ht.
      split.
      * intros (B1 & B2 & B3 & B4). rewrite Hbits in B4 by (unfold PAGE_SIZE in *; zlia).
        apply andb_true_iff in B4 as [B4 B5]. split; [|done]. intros ->.
        unfold in_range in B4. zcases_in B4; done || lia.
      * intros (Hne & B1 & B2 & B3 & B4). split_and!; [done|done|done|].
        rewrite Hbits, B4 by (unfold PAGE_SIZE in *; zlia).
        assert (b / PAGE_SIZE <> a / PAGE_SIZE).
        { intros Heq. apply Hne. rewrite (frame_of_div a), (frame_of_div b) by done. congruence. }
        unfold in_range. zcases; done || lia.
Defined.

(** ** Reachable states *)

(** One call into the allocator that returns. *)
Inductive pmm_step : Pmm -> Pmm -> Prop :=
| step_allocate st r st' :
    allocate_page st = (r, st') -> pmm_step st st'
| step_contiguous st count r st' :
    0 <= count < 2 ^ 63 -> allocate_contiguous count st = (r, st') -> pmm_step st st'
| step_free st base count st' :
    is_u64 base -> 0 <= count < 2 ^ 63 ->
    free_contiguous base count st = (Ok tt, st') -> pmm_step st st'
| step_reserve st base length st' :
    sane_range base length -> reserve_range base length st = (Ok tt, st') -> pmm_step st st'.

Inductive pmm_reachable (regions : list MemoryRegion) : Pmm -> Prop :=
| reach_init st :
    physical_initialize regions pmm_boot = (Ok tt, st) -> pmm_reachable regions st
| reach_step st st' :
    pmm_reachable regions st -> pmm_step st st' -> pmm_reachable regions st'.

Lemma contiguous_inv st count r st' : pmm_inv st -> 0 <= count < 2 ^ 63 ->
  allocate_contiguous count st = (r, st') -> pmm_inv st'.
Proof.
  intros Hinv Hc Hr. destruct (decide (1 < count)) as [Hgt|Hle].
  - destruct (allocate_contiguous_cases st count Hinv ltac:(lia))
      as [(s & Hs & H0 & Hle & _)|[Hs _]]; rewrite Hs in Hr; simplify_eq; [|done].
    pose proof (inv_total st Hinv).
    apply (mark_used_spec st s count); [done|done|unfold is_u64; lia].
  - unfold allocate_contiguous in Hr.
    destruct (Z.eqb_spec count 0); [by simplify_eq|].
    destruct (Z.eqb_spec count 1); [|lia].
    destruct (allocate_page_cases st Hinv) as [(i & st1 & Ha & _ & Hi)|[Ha _]];
      rewrite Ha in Hr; by simplify_eq.
Qed.

Lemma pmm_step_inv st st' : pmm_inv st -> pmm_step st st' -> pmm_inv st'.
Proof.
  intros Hinv Hstep. destruct Hstep.
  - destruct (allocate_page_cases st Hinv) as [(i & st1 & Ha & _ & Hi)|[Ha _]]; congruence.
  - by eapply contiguous_inv.
  - destruct (free_contiguous_cases st base count) as (H2 & H3 & H4);
      [done|unfold is_u64 in *; lia|lia|unfold is_u64, PAGE_SIZE in *; zlia|].
    destruct (Z.leb_spec (s_total_pages st) (base / PAGE_SIZE)).
    + rewrite H2 in H1 by done. congruence.
    + destruct (decide (Forall (fun k => test_bit st k = true) (seqZ (base / PAGE_SIZE)
        (Z.min (base / PAGE_SIZE + count) (s_total_pages st) - base / PAGE_SIZE)))) as [Hall|Hno].
      * destruct H3 as (st1 & Heq & Hi & _); [done| |congruence].
        intros j Hj. apply (proj1 (list.Forall_forall _ _) Hall). apply elem_of_seqZ. lia.
      * rewrite H1 in H4. cbn in H4. discriminate H4; [done|].
        intros Hall. apply Hno, list.Forall_forall. intros j Hj%elem_of_seqZ. apply Hall. lia.
  - unfold reserve_range, mmod in H0. simplify_eq. by apply apply_used_spec.
Qed.

(** ** Properties *)

(** A small machine: low memory, a hole, 256 KiB of memory above the first
    megabyte holding a kernel image and a boot module. *)
Definition demo_map : list MemoryRegion :=
  [ mkRegion 0 0x9F000 Usable; mkRegion 0x9F000 0x61000 Reserved;
    mkRegion 0x100000 0x40000 Usable; mkRegion 0x100000 0x8000 KernelImage;
    mkRegion 0x110000 0x2800 BootModule ].

Definition demo_pmm : Pmm := Eval vm_compute in snd (physical_initialize demo_map pmm_boot).

Lemma demo_sane : Forall sane_region demo_map.
Proof.
  unfold demo_map. repeat constructor; unfold sane_region, sane_range, PAGE_SIZE; cbn; lia.
Defined.

Lemma demo_init : physical_initialize demo_map pmm_boot = (Ok tt, demo_pmm).
Proof. vm_compute. reflexivity. Defined.

Lemma demo_inv : pmm_inv demo_pmm.
Proof. exact (proj1 (physical_initialize_spec _ _ demo_sane demo_init)). Qed.



(** [physical_initialize] stops the machine exactly when no page-aligned
    place for the bitmap exists in usable memory above the first megabyte, and
    otherwise succeeds: the candidate search reaches every such place. *)
Theorem physical_initialize_total regions :
  Forall sane_region regions ->
  (fst (physical_initialize regions pmm_boot) = Panic <->
     forall c, ~ bitmap_home regions (init_bytes regions) c)
  /\ (fst (physical_initialize regions pmm_boot) = Ok tt <->
        exists c, bitmap_home regions (init_bytes regions) c).
Proof.
  intros Hs. destruct (init_sizes regions Hs) as (_ & _ & Hb).
  unfold physical_initialize. change (align_up _ _ / PAGE_SIZE) with (init_pages regions).
  change (u64 (_ * 8)) with (init_bytes regions).
  destruct (find_bitmap regions regions (init_bytes regions)) as [c|] eqn:E; cbn [fst].
  - apply find_bitmap_sound in E; [|done|done].
    split; split; intros H; [done|by destruct (H c)|by exists c|done].
  - assert (Hno : forall c, ~ bitmap_home regions (init_bytes regions) c).
    { intros c Hc. destruct (find_bitmap_complete regions regions (init_bytes regions) c) as [x Hx];
        [done|done|done|]. congruence. }
    split; split; intros H; [done|done|done|]. destruct H as [c Hc]. by destruct (Hno c).
Qed.

Lemma physical_initialize_total_witness :
  exists c, bitmap_home demo_map (init_bytes demo_map) c.
Proof.
  apply (proj2 (physical_initialize_total demo_map demo_sane)). vm_compute. reflexivity.
Defined.

(** C2: [allocate_page] returns the address of a frame that was free, marks that
    frame and no other, counts it, and keeps the invariant; it reports ENOMEM,
    changing nothing, exactly when every frame is in use, wherever the search
    hint stands. *)
Theorem allocate_page_spec st :
  pmm_inv st ->
  ((exists i st', allocate_page st = (Ok (i * PAGE_SIZE), st')
      /\ took st st' i /\ pmm_inv st')
   /\ exists i, 0 <= i < s_total_pages st /\ test_bit st i = false)
  \/ (allocate_page st = (Err ENOMEM, st)
      /\ forall i, 0 <= i < s_total_pages st -> test_bit st i = true).
Proof.
  intros Hinv. destruct (allocate_page_cases st Hinv) as [(i & st' & H & Ht & Hi)|H].
  - left. split; [by exists i, st'|]. exists i. destruct Ht as (? & ? & _). done.
  - by right.
Qed.

Lemma allocate_page_spec_witness :
  pmm_inv demo_pmm /\ fst (allocate_page demo_pmm) = Ok 0x1000.
Proof.
  split; [exact demo_inv|].
  destruct (allocate_page_spec demo_pmm demo_inv) as [_|[H _]].
  - vm_compute. reflexivity.
  - exfalso. vm_compute in H. discriminate H.
Defined.

(** C5: [allocate_contiguous] of two or more frames is first fit: it takes the
    lowest run of [count] free frames, marks exactly that run and counts it, and
    reports ENOMEM only when no such run exists. *)
Theorem allocate_contiguous_first_fit st count :
  pmm_inv st -> 1 < count < 2 ^ 63 ->
  (exists s st', allocate_contiguous count st = (Ok (s * PAGE_SIZE), st')
     /\ 0 <= s /\ s + count <= s_total_pages st /\ run_free st s count
     /\ (forall s', 0 <= s' < s -> ~ run_free st s' count)
     /\ pmm_inv st'
     /\ forall j, 0 <= j -> test_bit st' j = in_range s (s + count) j || test_bit st j)
  \/ (allocate_contiguous count st = (Err ENOMEM, st)
      /\ forall s, 0 <= s -> s + count <= s_total_pages st -> ~ run_free st s count).
Proof.
  intros Hinv Hc. pose proof (inv_total st Hinv) as Htot.
  destruct (allocate_contiguous_cases st count Hinv ltac:(lia))
    as [(s & H & H1 & H2 & H3 & H4)|H]; [left|by right].
  destruct (mark_used_spec st s count) as (Hi & _ & Hb); [done|done|unfold is_u64; lia|].
  exists s, (mark_used s count st). split_and!; [done|done|done|done|done|done|].
  intros j Hj. rewrite Hb by done. by rewrite Z.min_l by done.
Qed.

Lemma allocate_contiguous_first_fit_witness :
  fst (allocate_contiguous 20 demo_pmm) = Ok 0x1000
  /\ pmm_inv (snd (allocate_contiguous 20 demo_pmm)).
Proof.
  split; [vm_compute; reflexivity|].
  destruct (allocate_contiguous_first_fit demo_pmm 20 demo_inv ltac:(lia))
    as [(s & st' & -> & _ & _ & _ & _ & H & _)|[H _]].
  - exact H.
  - exfalso. vm_compute in H. discriminate H.
Defined.

(** [free_contiguous] stops the machine exactly when a frame of the range
    inside memory is already free (a double free); otherwise it clears exactly
    the frames of the range and subtracts them from the used count.  A range
    starting past the last frame is ignored. *)
Theorem free_contiguous_spec st base count :
  pmm_inv st -> is_u64 base -> 0 <= count < 2 ^ 63 ->
  let first := base / PAGE_SIZE in
  let last := Z.min (first + count) (s_total_pages st) in
  (s_total_pages st <= first -> free_contiguous base count st = (Ok tt, st))
  /\ (first < s_total_pages st -> all_used st first last ->
        exists st', free_contiguous base count st = (Ok tt, st')
          /\ pmm_inv st' /\ freed st st' first last)
  /\ (first < s_total_pages st -> ~ all_used st first last ->
        fst (free_contiguous base count st) = Panic).
Proof.
  intros Hinv Hb Hc. unfold is_u64 in Hb.
  apply free_contiguous_cases; [done|lia|lia|unfold PAGE_SIZE; zlia].
Qed.

Lemma free_contiguous_spec_witness :
  fst (free_contiguous 0x100000 8 demo_pmm) = Ok tt
  /\ fst (free_contiguous 0x100000 10 demo_pmm) = Panic.
Proof.
  destruct (free_contiguous_spec demo_pmm 0x100000 10 demo_inv
    ltac:(unfold is_u64; lia) ltac:(lia)) as (_ & _ & Hpanic).
  split; [vm_compute; reflexivity|]. apply Hpanic; [vm_compute; reflexivity|].
  intros Hall. assert (Hbit : test_bit demo_pmm 0x109 = true).
  { apply Hall. vm_compute. split; congruence. }
  vm_compute in Hbit. discriminate Hbit.
Defined.

(** frames survive a round trip: freeing what [allocate_contiguous] just
    returned never panics and restores every bit and the used count. *)
Theorem allocate_free_roundtrip st count a st1 :
  pmm_inv st -> 1 < count < 2 ^ 63 ->
  allocate_contiguous count st = (Ok a, st1) ->
  exists st2, free_contiguous a count st1 = (Ok tt, st2)
    /\ (forall j, 0 <= j -> test_bit st2 j = test_bit st j)
    /\ s_used_pages st2 = s_used_pages st /\ pmm_inv st2.
Proof.
  intros Hinv Hc Ha. pose proof (inv_total st Hinv) as Htot.
  destruct (allocate_contiguous_cases st count Hinv ltac:(lia))
    as [(s & H & H1 & H2 & H3 & _)|[H _]]; rewrite H in Ha; simplify_eq.
  destruct (mark_used_spec st s count) as (Hi & (Ht & _) & Hb); [done|done|unfold is_u64; lia|].
  set (st1 := mark_used s count st) in *. rewrite Z.min_l in Hb by done.
  destruct (free_contiguous_cases st1 (s * PAGE_SIZE) count) as (_ & Hok & _);
    [done|unfold PAGE_SIZE; lia|lia|rewrite frame_div; lia|].
  rewrite frame_div, Ht, Z.min_l in Hok by done.
  destruct Hok as (st2 & Hf & Hinv2 & Hbits & Hused & Ht2); [lia| |].
  { intros j Hj. rewrite Hb by lia. unfold in_range. zcases; done || lia. }
  assert (Hsame : forall j, 0 <= j -> test_bit st2 j = test_bit st j).
  { intros j Hj. rewrite Hbits, Hb by done. unfold in_range.
    zcases; try done. rewrite H3 by lia. done. }
  exists st2. split_and!; [done|done| |done].
  rewrite (inv_used st2 Hinv2), (inv_used st Hinv), Ht2, Ht.
  apply count_bits_ext. intros. apply Hsame. lia.
Qed.

Lemma allocate_free_roundtrip_witness :
  exists st2, free_contiguous 0x1000 20 (snd (allocate_contiguous 20 demo_pmm)) = (Ok tt, st2)
    /\ s_used_pages st2 = s_used_pages demo_pmm.
Proof.
  destruct (allocate_free_roundtrip demo_pmm 20 0x1000 (snd (allocate_contiguous 20 demo_pmm)))
    as (st2 & H1 & _ & H2 & _).
  - exact demo_inv.
  - lia.
  - vm_compute. reflexivity.
  - exists st2. split; [exact H1|exact H2].
Defined.

(** C6: every state reachable from initialisation through any sequence of
    allocations, contiguous allocations, frees and reservations satisfies the
    invariant: [free_pages()] is exactly the number of clear bits, no wrap. *)
Theorem pmm_reachable_inv regions st :
  Forall sane_region regions -> pmm_reachable regions st ->
  pmm_inv st
  /\ free_pages st = count_bits (fun i => negb (test_bit st i)) (Z.to_nat (s_total_pages st)).
Proof.
  intros Hs Hr. assert (Hinv : pmm_inv st).
  { induction Hr as [st Hi|st st' _ IH Hstep].
    - by apply (physical_initialize_spec regions st Hs Hi).
    - by eapply pmm_step_inv. }
  split; [done|]. unfold free_pages. rewrite (inv_used st Hinv).
  pose proof (inv_total st Hinv) as Htot.
  assert (Hcompl : forall n, count_bits (fun i => negb (test_bit st i)) n
    = Z.of_nat n - count_bits (test_bit st) n).
  { induction n as [|n IHn]; [done|]. cbn [count_bits]. rewrite IHn.
    destruct (test_bit st (Z.of_nat n)); cbn [negb Z.b2z]; lia. }
  rewrite Hcompl, Z2Nat.id by lia. apply u64_small.
  pose proof (count_bits_bound (test_bit st) (Z.to_nat (s_total_pages st))).
  unfold is_u64. lia.
Qed.

Lemma pmm_reachable_inv_witness :
  pmm_inv (snd (allocate_page demo_pmm)) /\ free_pages (snd (allocate_page demo_pmm)) = 209.
Proof.
  split; [|vm_compute; reflexivity].
  apply (pmm_reachable_inv demo_map _ demo_sane).
  apply (reach_step demo_map demo_pmm).
  - apply reach_init. exact demo_init.
  - apply (step_allocate demo_pmm (fst (allocate_page demo_pmm))). vm_compute. reflexivity.
Defined.

(** the rounding of [apply_to_range] is outward for [mark_free] too, so a
    frame that a usable region covers only in part, and a reserved region covers
    for the rest, is handed out as free. *)
Theorem partial_frame_is_free :
  let regions := [ mkRegion 0x100000 0x100800 Usable; mkRegion 0x200800 0x10000 Reserved ] in
  exists st, physical_initialize regions pmm_boot = (Ok tt, st)
    /\ overlaps 0x200800 0x10000 0x200 = true /\ test_bit st 0x200 = false.
Proof.
  eexists. split; [vm_compute; reflexivity|]. split; vm_compute; reflexivity.
Qed.
