(* ===== verification/Ring.v ===== *)
(** * Byte rings

  The pipe, the line discipline and the input drivers all keep a fixed array
  with a head and a tail index and one slot always empty.  This file states
  what such an array holds and how a push and a pop change it; the components
  prove their own code against it. *)

From S2P Require Import Prelude.

Section Ring.
Context {A : Type} (d : A) (cap : Z).

(** [(head + cap - tail) % cap] *)
Definition ring_used (head tail : Z) : Z := (head + cap - tail) mod cap.

(** The elements between tail and head, oldest first. *)
Definition ring_contents (buf : list A) (head tail : Z) : list A :=
  (fun k => zget d buf ((tail + k) mod cap)) <$> seqZ 0 (ring_used head tail).

Definition ring_wf (buf : list A) (head tail : Z) : Prop :=
  zlen buf = cap /\ 0 <= head < cap /\ 0 <= tail < cap.

Hypothesis Hcap : 1 < cap.

Lemma mod_wrap i : 0 <= i < 2 * cap -> i mod cap = if i <? cap then i else i - cap.
Proof using Hcap.
  intros Hi. destruct (Z.ltb_spec i cap).
  - apply Z.mod_small. lia.
  - symmetry. apply (Z.mod_unique_pos _ _ 1); lia.
Qed.

Lemma ring_used_eq head tail : 0 <= head < cap -> 0 <= tail < cap ->
  ring_used head tail = if tail <=? head then head - tail else head + cap - tail.
Proof using Hcap.
  intros. unfold ring_used. rewrite mod_wrap by lia. zcases; lia.
Qed.

Lemma ring_used_range head tail : 0 <= head < cap -> 0 <= tail < cap ->
  0 <= ring_used head tail < cap.
Proof using Hcap. intros. rewrite ring_used_eq by done. zcases; lia. Qed.

Lemma ring_used_zero head tail : 0 <= head < cap -> 0 <= tail < cap ->
  ring_used head tail = 0 <-> head = tail.
Proof using Hcap. intros. rewrite ring_used_eq by done. zcases; lia. Qed.

Lemma zlen_ring_contents buf head tail : 0 <= head < cap -> 0 <= tail < cap ->
  zlen (ring_contents buf head tail) = ring_used head tail.
Proof using Hcap.
  intros. pose proof (ring_used_range head tail). unfold zlen, ring_contents.
  rewrite length_fmap, length_seqZ. lia.
Qed.

(** The successor index meets the tail exactly when [cap - 1] slots are used. *)
Lemma ring_full head tail : 0 <= head < cap -> 0 <= tail < cap ->
  (head + 1) mod cap = tail <-> ring_used head tail = cap - 1.
Proof using Hcap.
  intros. rewrite mod_wrap, ring_used_eq by lia. zcases; lia.
Qed.

Lemma ring_used_push head tail : 0 <= head < cap -> 0 <= tail < cap ->
  ring_used head tail < cap - 1 ->
  ring_used ((head + 1) mod cap) tail = ring_used head tail + 1.
Proof using Hcap.
  intros Hh Ht. rewrite mod_wrap by lia. rewrite !ring_used_eq by (zcases; lia).
  zcases; lia.
Qed.

Lemma ring_used_pop head tail : 0 <= head < cap -> 0 <= tail < cap -> head <> tail ->
  ring_used head ((tail + 1) mod cap) = ring_used head tail - 1.
Proof using Hcap.
  intros Hh Ht. rewrite mod_wrap by lia. rewrite !ring_used_eq by (zcases; lia).
  zcases; lia.
Qed.

Lemma ring_index_range i : 0 <= i mod cap < cap.
Proof using Hcap. apply Z.mod_pos_bound. lia. Qed.

Lemma ring_wf_push buf head tail x : ring_wf buf head tail ->
  ring_wf (zset buf head x) ((head + 1) mod cap) tail.
Proof using Hcap.
  intros (Hb & Hh & Ht). pose proof (ring_index_range (head + 1)).
  split_and!; [by rewrite zlen_zset|lia..].
Qed.

Lemma ring_wf_pop buf head tail : ring_wf buf head tail ->
  ring_wf buf head ((tail + 1) mod cap).
Proof using Hcap.
  intros (Hb & Hh & Ht). pose proof (ring_index_range (tail + 1)).
  split_and!; [done|lia..].
Qed.

Lemma ring_push buf head tail x : ring_wf buf head tail ->
  (head + 1) mod cap <> tail ->
  ring_contents (zset buf head x) ((head + 1) mod cap) tail
  = ring_contents buf head tail ++ [x].
Proof using Hcap.
  intros (Hb & Hh & Ht) Hne.
  pose proof (ring_used_range head tail Hh Ht) as Hr.
  assert (Hlt : ring_used head tail < cap - 1).
  { rewrite (ring_full head tail Hh Ht) in Hne. lia. }
  unfold ring_contents. rewrite ring_used_push by done.
  rewrite seqZ_app by lia. rewrite fmap_app. f_equal.
  - apply list_fmap_ext. intros i k Hk. apply lookup_seqZ in Hk as [-> Hk].
    apply zget_zset_ne; [lia|apply ring_index_range|].
    rewrite mod_wrap by lia. rewrite ring_used_eq in Hk by done. zcases_in Hk; zcases; lia.
  - rewrite (seqZ_cons _ 1), (seqZ_nil _ (Z.pred 1)) by lia. cbn [fmap list_fmap].
    rewrite Z.add_0_l.
    assert (Hhead : (tail + ring_used head tail) mod cap = head).
    { rewrite ring_used_eq by done. rewrite mod_wrap by (zcases; lia). zcases; lia. }
    rewrite Hhead, zget_zset_eq by lia. done.
Qed.

(** Writing the free slot at the head changes no element. *)
Lemma ring_store buf head tail x : ring_wf buf head tail ->
  ring_contents (zset buf head x) head tail = ring_contents buf head tail.
Proof using Hcap.
  intros (Hb & Hh & Ht). apply list_fmap_ext. intros i k Hk.
  apply lookup_seqZ in Hk as [-> Hk].
  apply zget_zset_ne; [lia|apply ring_index_range|].
  rewrite mod_wrap by (pose proof (ring_used_range head tail Hh Ht); lia).
  rewrite ring_used_eq in Hk by done. zcases_in Hk; zcases; lia.
Qed.

Lemma ring_pop buf head tail : ring_wf buf head tail -> head <> tail ->
  ring_contents buf head tail
  = zget d buf tail :: ring_contents buf head ((tail + 1) mod cap).
Proof using Hcap.
  intros (Hb & Hh & Ht) Hne.
  pose proof (ring_used_range head tail Hh Ht) as Hr.
  assert (0 < ring_used head tail).
  { pose proof (ring_used_zero head tail Hh Ht). lia. }
  unfold ring_contents. rewrite ring_used_pop by done.
  rewrite (seqZ_cons 0) by lia. cbn [fmap list_fmap]. f_equal.
  - rewrite Z.add_0_r. by rewrite Z.mod_small by lia.
  - change (Z.succ 0) with (1 + 0). rewrite <- fmap_add_seqZ, <- list_fmap_compose.
    replace (Z.pred (ring_used head tail)) with (ring_used head tail - 1) by lia.
    apply list_fmap_ext. intros i k Hk. apply lookup_seqZ in Hk as [-> Hk]. cbn.
    f_equal. rewrite Zplus_mod_idemp_l. f_equal. lia.
Qed.

Lemma ring_empty buf head tail : 0 <= head < cap -> 0 <= tail < cap ->
  head = tail <-> ring_contents buf head tail = [].
Proof using Hcap.
  intros Hh Ht. rewrite <- (ring_used_zero head tail Hh Ht).
  rewrite <- (zlen_ring_contents buf) by done. unfold zlen.
  destruct (ring_contents buf head tail); cbn; [done|]. split; [lia|done].
Qed.
End Ring.
