(* ===== verification/Pipe.v ===== *)
(** * kernel/fs/pipe.cpp: pipes, named and not

    [PipeBuffer] is the ring and the bookkeeping of its ends.  A call that
    sleeps is a transition ending in [WaitOn]; the wake-ups and the signal it
    causes are listed as effects.  [pending] stands for
    [Process::current()->has_pending_signals()].  The theorems of this file are
    about calls that are not preempted between two sleeps. *)

From S2P Require Import Prelude Ring.

Definition PIPE_CAPACITY : Z := 4096.

Definition O_RDONLY : Z := 0x0000.
Definition O_WRONLY : Z := 0x0001.
Definition O_RDWR : Z := 0x0002.
Definition O_ACCMODE : Z := 0x0003.

Record PipeBuffer := mkPipe {
  m_buffer : list Z;
  m_head : Z;
  m_tail : Z;
  m_readers : Z;
  m_writers : Z;
  m_pending_readers : Z;
  m_pending_writers : Z;
  m_reader_arrivals : Z;
  m_writer_arrivals : Z;
}.

Definition PipeBuffer_new : PipeBuffer :=
  mkPipe (replicate (Z.to_nat PIPE_CAPACITY) 0) 0 0 0 0 0 0 0 0.

Inductive PipeEffect :=
| WakeReadQueue | WakeWriteQueue | WakeOpenQueue | RaiseSigpipe.

#[export] Instance PipeEffect_eq_dec : EqDecision PipeEffect.
Proof. solve_decision. Defined.

Definition set_ring (p : PipeBuffer) (buf : list Z) (head tail : Z) : PipeBuffer :=
  mkPipe buf head tail (m_readers p) (m_writers p) (m_pending_readers p)
    (m_pending_writers p) (m_reader_arrivals p) (m_writer_arrivals p).

Definition set_ends (p : PipeBuffer) (readers writers : Z) : PipeBuffer :=
  mkPipe (m_buffer p) (m_head p) (m_tail p) readers writers (m_pending_readers p)
    (m_pending_writers p) (m_reader_arrivals p) (m_writer_arrivals p).

Definition set_pending (p : PipeBuffer) (pr pw ra wa : Z) : PipeBuffer :=
  mkPipe (m_buffer p) (m_head p) (m_tail p) (m_readers p) (m_writers p) pr pw ra wa.

(** ** The ring *)

Definition PipeBuffer_used (p : PipeBuffer) : Z :=
  (m_head p + PIPE_CAPACITY - m_tail p) mod PIPE_CAPACITY.

Definition PipeBuffer_available (p : PipeBuffer) : Z :=
  PIPE_CAPACITY - 1 - PipeBuffer_used p.

(** ** The ends *)

Definition PipeBuffer_opened (flags : Z) (p : PipeBuffer) : PipeBuffer * list PipeEffect :=
  let access := Z.land flags O_ACCMODE in
  let p :=
    if access =? O_RDONLY then set_ends p (u64 (m_readers p + 1)) (m_writers p)
    else if access =? O_WRONLY then set_ends p (m_readers p) (u64 (m_writers p + 1))
    else set_ends p (u64 (m_readers p + 1)) (u64 (m_writers p + 1)) in
  (p, [WakeOpenQueue]).

Definition PipeBuffer_closed (flags : Z) (p : PipeBuffer) : PipeBuffer * list PipeEffect :=
  let access := Z.land flags O_ACCMODE in
  let p := if negb (access =? O_WRONLY) && (m_readers p >? 0)
           then set_ends p (m_readers p - 1) (m_writers p) else p in
  let p := if negb (access =? O_RDONLY) && (m_writers p >? 0)
           then set_ends p (m_readers p) (m_writers p - 1) else p in
  (p, [WakeWriteQueue; WakeReadQueue]).

(** ** The rendezvous *)

(** One turn of the [for (;;)] of [await_peer]; the local carried over a sleep
    is the arrival count seen on entry. *)
Definition await_check (as_reader : bool) (arrivals_at_entry : Z) (pending : bool)
    (p : PipeBuffer) : PipeBuffer * Blocking Z unit :=
  let present := if as_reader then u64 (m_writers p + m_pending_writers p)
                 else u64 (m_readers p + m_pending_readers p) in
  let arrivals := if as_reader then m_writer_arrivals p else m_reader_arrivals p in
  let leave := if as_reader
    then set_pending p (u64 (m_pending_readers p - 1)) (m_pending_writers p)
           (m_reader_arrivals p) (m_writer_arrivals p)
    else set_pending p (m_pending_readers p) (u64 (m_pending_writers p - 1))
           (m_reader_arrivals p) (m_writer_arrivals p) in
  if (present >? 0) || negb (arrivals =? arrivals_at_entry) then (leave, Done (Ok tt))
  else if pending then (leave, Done (Err EINTR))
  else (p, WaitOn arrivals_at_entry).

Definition PipeBuffer_await_peer (flags : Z) (pending : bool) (p : PipeBuffer)
    : PipeBuffer * list PipeEffect * Blocking Z unit :=
  let access := Z.land flags O_ACCMODE in
  if negb (access =? O_RDONLY) && negb (access =? O_WRONLY) then (p, [], Done (Ok tt))
  else
    let as_reader := access =? O_RDONLY in
    let p := if as_reader
      then set_pending p (u64 (m_pending_readers p + 1)) (m_pending_writers p)
             (u64 (m_reader_arrivals p + 1)) (m_writer_arrivals p)
      else set_pending p (m_pending_readers p) (u64 (m_pending_writers p + 1))
             (m_reader_arrivals p) (u64 (m_writer_arrivals p + 1)) in
    let arrivals_at_entry := if as_reader then m_writer_arrivals p else m_reader_arrivals p in
    let '(p, b) := await_check as_reader arrivals_at_entry pending p in
    (p, [WakeOpenQueue], b).

(** ** Readiness, for poll *)

Definition PipeBuffer_can_read_without_blocking (p : PipeBuffer) : bool :=
  (PipeBuffer_used p >? 0) || (m_writers p =? 0).

Definition PipeBuffer_can_write_without_blocking (p : PipeBuffer) : bool :=
  (PipeBuffer_available p >? 0) || (m_readers p =? 0).

Definition PipeBuffer_is_hung_up (p : PipeBuffer) : bool :=
  (m_writers p =? 0) && (PipeBuffer_used p =? 0).

(** ** Reading *)

(** [while (read_bytes < length && used() > 0)]; [n] is what is left of
    [length], the result is the bytes stored to [out]. *)
Fixpoint read_loop (n : nat) (p : PipeBuffer) : list Z * PipeBuffer :=
  match n with
  | O => ([], p)
  | S n' =>
      if PipeBuffer_used p >? 0 then
        let c := zget 0 (m_buffer p) (m_tail p) in
        let '(out, p') :=
          read_loop n' (set_ring p (m_buffer p) (m_head p) ((m_tail p + 1) mod PIPE_CAPACITY)) in
        (c :: out, p')
      else ([], p)
  end.

Definition PipeBuffer_read (pending : bool) (length : Z) (p : PipeBuffer)
    : PipeBuffer * list PipeEffect * Blocking unit (list Z) :=
  if length =? 0 then (p, [], Done (Ok []))
  else if PipeBuffer_used p =? 0 then
    if m_writers p =? 0 then (p, [], Done (Ok []))
    else if pending then (p, [], Done (Err EINTR))
    else (p, [], WaitOn tt)
  else
    let '(out, p) := read_loop (Z.to_nat length) p in
    (p, [WakeWriteQueue], Done (Ok out)).

(** ** Writing *)

(** [while (written < length && available() > 0)], on the bytes not written
    yet; returns those left over. *)
Fixpoint write_loop (rest : list Z) (p : PipeBuffer) : list Z * PipeBuffer :=
  match rest with
  | [] => ([], p)
  | b :: rest' =>
      if PipeBuffer_available p >? 0 then
        write_loop rest'
          (set_ring p (zset (m_buffer p) (m_head p) b) ((m_head p + 1) mod PIPE_CAPACITY) (m_tail p))
      else (rest, p)
  end.

(** [while (written < length)].  A turn that copies either empties [rest] or
    fills the buffer, so the third turn always leaves the loop. *)
Fixpoint write_turns (fuel : nat) (pending : bool) (rest : list Z) (written : Z)
    (p : PipeBuffer) (effects : list PipeEffect)
    : PipeBuffer * list PipeEffect * Blocking (list Z * Z) Z :=
  match fuel with
  | O => (p, effects, WaitOn (rest, written))
  | S fuel' =>
      match rest with
      | [] => (p, effects, Done (Ok written))
      | _ :: _ =>
          if u64 (m_readers p + m_pending_readers p) =? 0 then
            (p, effects ++ [RaiseSigpipe], Done (Err EPIPE))
          else if PipeBuffer_available p =? 0 then
            if pending then
              (p, effects, Done (if written >? 0 then Ok written else Err EINTR))
            else (p, effects, WaitOn (rest, written))
          else
            let '(rest', p') := write_loop rest p in
            write_turns fuel' pending rest' (written + (zlen rest - zlen rest')) p'
              (effects ++ [WakeReadQueue])
      end
  end.

(** The call, from its entry ([written = 0]) or from where it slept. *)
Definition PipeBuffer_write (pending : bool) (rest : list Z) (written : Z) (p : PipeBuffer)
    : PipeBuffer * list PipeEffect * Blocking (list Z * Z) Z :=
  write_turns 3 pending rest written p [].

(** ** Runs

    The operations several processes interleave on one pipe, with what readers
    have been given and writers have handed over so far as ghost state.
    [OpWrite] and [OpAwait] also stand for the re-entry of a call that slept. *)

Inductive PipeOp :=
| OpOpened (flags : Z)
| OpClosed (flags : Z)
| OpAwait (flags : Z) (pending : bool)
| OpAwaitResume (as_reader : bool) (arrivals_at_entry : Z) (pending : bool)
| OpRead (pending : bool) (length : Z)
| OpWrite (pending : bool) (rest : list Z) (written : Z).

Record PipeSys := mkPipeSys {
  ps_pipe : PipeBuffer;
  ps_accepted : list Z;
  ps_delivered : list Z;
}.

Definition PipeSys_new : PipeSys := mkPipeSys PipeBuffer_new [] [].

(** The bytes of [rest] a write took, judged by what its caller sees. *)
Definition write_taken (rest : list Z) (written : Z) (b : Blocking (list Z * Z) Z) : list Z :=
  match b with
  | Done (Ok n) => take (Z.to_nat (n - written)) rest
  | WaitOn (_, n) => take (Z.to_nat (n - written)) rest
  | _ => []
  end.

Definition read_given (b : Blocking unit (list Z)) : list Z :=
  match b with Done (Ok out) => out | _ => [] end.

Definition pipe_exec (op : PipeOp) (s : PipeSys) : PipeSys :=
  let p := ps_pipe s in
  match op with
  | OpOpened flags => mkPipeSys (fst (PipeBuffer_opened flags p)) (ps_accepted s) (ps_delivered s)
  | OpClosed flags => mkPipeSys (fst (PipeBuffer_closed flags p)) (ps_accepted s) (ps_delivered s)
  | OpAwait flags pending =>
      mkPipeSys (fst (fst (PipeBuffer_await_peer flags pending p))) (ps_accepted s) (ps_delivered s)
  | OpAwaitResume r a pending =>
      mkPipeSys (fst (await_check r a pending p)) (ps_accepted s) (ps_delivered s)
  | OpRead pending length =>
      let '(p', _, b) := PipeBuffer_read pending length p in
      mkPipeSys p' (ps_accepted s) (ps_delivered s ++ read_given b)
  | OpWrite pending rest written =>
      let '(p', _, b) := PipeBuffer_write pending rest written p in
      mkPipeSys p' (ps_accepted s ++ write_taken rest written b) (ps_delivered s)
  end.

Fixpoint pipe_run (ops : list PipeOp) (s : PipeSys) : PipeSys :=
  match ops with
  | [] => s
  | op :: ops' => pipe_run ops' (pipe_exec op s)
  end.

(** ** What a pipe promises: a queue of at most [PIPE_CAPACITY - 1] bytes *)

Definition pipe_bytes (p : PipeBuffer) : list Z :=
  ring_contents 0 PIPE_CAPACITY (m_buffer p) (m_head p) (m_tail p).

Definition pipe_wf (p : PipeBuffer) : Prop :=
  ring_wf PIPE_CAPACITY (m_buffer p) (m_head p) (m_tail p).

(** Everything but the ring. *)
Definition pipe_ends (p : PipeBuffer) : PipeBuffer := set_ring p [] 0 0.

Definition readers_gone (p : PipeBuffer) : bool :=
  u64 (m_readers p + m_pending_readers p) =? 0.

Definition spec_read (pending : bool) (length : Z) (no_writers : bool) (q : list Z)
    : list Z * list PipeEffect * Blocking unit (list Z) :=
  if length =? 0 then (q, [], Done (Ok []))
  else match q with
  | [] => ([], [], if no_writers then Done (Ok []) else if pending then Done (Err EINTR)
                   else WaitOn tt)
  | _ => (drop (Z.to_nat length) q, [WakeWriteQueue], Done (Ok (take (Z.to_nat length) q)))
  end.

Definition spec_write (pending : bool) (rest : list Z) (written : Z) (gone : bool) (q : list Z)
    : list Z * list PipeEffect * Blocking (list Z * Z) Z :=
  match rest with
  | [] => (q, [], Done (Ok written))
  | _ =>
      if gone then (q, [RaiseSigpipe], Done (Err EPIPE))
      else
        let n := Z.to_nat (PIPE_CAPACITY - 1 - zlen q) in
        let n := (n `min` length rest)%nat in
        let total := written + Z.of_nat n in
        (q ++ take n rest,
         if (n =? 0)%nat then [] else [WakeReadQueue],
         if (n =? length rest)%nat then Done (Ok total)
         else if pending then Done (if total >? 0 then Ok total else Err EINTR)
         else WaitOn (drop n rest, total))
  end.

(** ** Lemmas *)

Arguments PipeBuffer_write : simpl never.
Arguments PipeBuffer_read : simpl never.

Lemma capacity_gt : 1 < PIPE_CAPACITY.
Proof. done. Qed.

#[local] Hint Resolve capacity_gt : core.

Lemma used_bytes p : pipe_wf p -> PipeBuffer_used p = zlen (pipe_bytes p).
Proof.
  intros (_ & Hh & Ht). unfold pipe_bytes. by rewrite zlen_ring_contents.
Qed.

Lemma used_range p : pipe_wf p -> 0 <= PipeBuffer_used p < PIPE_CAPACITY.
Proof. intros (_ & Hh & Ht). by apply (ring_used_range PIPE_CAPACITY). Qed.

Lemma used_zero p : pipe_wf p -> (PipeBuffer_used p =? 0) = true <-> pipe_bytes p = [].
Proof.
  intros Hwf. rewrite used_bytes, Z.eqb_eq by done. unfold zlen.
  destruct (pipe_bytes p); cbn [length]; [done|]. split; [lia|done].
Qed.

(** Storing one byte, when there is room, appends it to the queue. *)
Lemma store_one p b : pipe_wf p -> PipeBuffer_available p > 0 ->
  let p' := set_ring p (zset (m_buffer p) (m_head p) b) ((m_head p + 1) mod PIPE_CAPACITY) (m_tail p) in
  pipe_wf p' /\ pipe_bytes p' = pipe_bytes p ++ [b] /\ pipe_ends p' = pipe_ends p.
Proof.
  intros Hwf Hav. pose proof Hwf as (_ & Hh & Ht). cbn. split_and!; [|  |done].
  - by apply ring_wf_push.
  - apply ring_push; [done..|]. intros Hf%ring_full; [|done..].
    unfold PipeBuffer_available, PipeBuffer_used, ring_used in *. lia.
Qed.

(** Loading one byte, when there is one, takes the oldest. *)
Lemma load_one p : pipe_wf p -> PipeBuffer_used p > 0 ->
  let p' := set_ring p (m_buffer p) (m_head p) ((m_tail p + 1) mod PIPE_CAPACITY) in
  pipe_wf p' /\ pipe_bytes p = zget 0 (m_buffer p) (m_tail p) :: pipe_bytes p'
  /\ pipe_ends p' = pipe_ends p.
Proof.
  intros Hwf Hu. pose proof Hwf as (_ & Hh & Ht). cbn. split_and!; [| |done].
  - by apply ring_wf_pop.
  - apply ring_pop; [done..|]. cbn [m_head set_ring]. intros He.
    apply (ring_used_zero PIPE_CAPACITY) in He; [|done..].
    unfold PipeBuffer_used, ring_used in *. lia.
Qed.

Lemma read_loop_spec n : forall p, pipe_wf p ->
  let '(out, p') := read_loop n p in
  out = take n (pipe_bytes p) /\ pipe_bytes p' = drop n (pipe_bytes p)
  /\ pipe_wf p' /\ pipe_ends p' = pipe_ends p.
Proof.
  induction n as [|n IH]; intros p Hwf; cbn [read_loop]; [done|].
  destruct (PipeBuffer_used p >? 0) eqn:Hu.
  - apply Z.gtb_lt in Hu. destruct (load_one p Hwf) as (Hwf' & Hb & He); [lia|].
    specialize (IH _ Hwf'). destruct (read_loop n _) as [out p'].
    destruct IH as (-> & Hd & Hw & He'). rewrite Hb. cbn [take drop].
    split_and!; [done..|congruence].
  - assert (pipe_bytes p = []) as ->.
    { apply used_zero; [done|]. pose proof (used_range p Hwf). lia. }
    by rewrite take_nil, drop_nil.
Qed.

Lemma write_loop_spec rest : forall p, pipe_wf p ->
  let n := (Z.to_nat (PipeBuffer_available p) `min` length rest)%nat in
  let '(rest', p') := write_loop rest p in
  rest' = drop n rest /\ pipe_bytes p' = pipe_bytes p ++ take n rest
  /\ pipe_wf p' /\ pipe_ends p' = pipe_ends p.
Proof.
  induction rest as [|b rest IH]; intros p Hwf n; cbn [write_loop].
  { subst n. rewrite take_nil, drop_nil, app_nil_r. done. }
  destruct (PipeBuffer_available p >? 0) eqn:Hav.
  - apply Z.gtb_lt in Hav. destruct (store_one p b Hwf) as (Hwf' & Hb & He); [lia|].
    specialize (IH _ Hwf'). destruct (write_loop rest _) as [rest' p'].
    destruct IH as (-> & Hp & Hw & He'). rewrite Hp, Hb, He', He. clear Hp He He'.
    assert (n = S (Z.to_nat (PipeBuffer_available (set_ring p (zset (m_buffer p) (m_head p) b)
      ((m_head p + 1) mod PIPE_CAPACITY) (m_tail p))) `min` length rest)) as ->.
    { subst n. unfold PipeBuffer_available in *. rewrite !used_bytes in * by done.
      rewrite Hb. unfold zlen in *. rewrite length_app. cbn [length]. lia. }
    cbn [take drop]. by rewrite <- app_assoc.
  - assert (n = 0%nat) as -> by lia. by rewrite take_0, drop_0, app_nil_r.
Qed.

Lemma PipeBuffer_read_spec pending length p : pipe_wf p ->
  let '(p', effects, b) := PipeBuffer_read pending length p in
  pipe_wf p' /\ pipe_ends p' = pipe_ends p
  /\ (pipe_bytes p', effects, b) = spec_read pending length (m_writers p =? 0) (pipe_bytes p).
Proof.
  intros Hwf. unfold PipeBuffer_read, spec_read.
  destruct (length =? 0); [done|].
  destruct (PipeBuffer_used p =? 0) eqn:Hu.
  - apply used_zero in Hu; [|done].
    destruct (m_writers p =? 0); [|destruct pending]; split_and!; try done; by rewrite Hu.
  - pose proof (read_loop_spec (Z.to_nat length) p Hwf) as Hl.
    destruct (read_loop _ _) as [out p']. destruct Hl as (-> & -> & Hw & He).
    split_and!; [done..|]. destruct (pipe_bytes p) eqn:Hb; [|done].
    apply used_zero in Hb; [|done]. congruence.
Qed.

Lemma readers_gone_ends p p' : pipe_ends p' = pipe_ends p -> readers_gone p' = readers_gone p.
Proof. intros H. unfold pipe_ends, set_ring in H. injection H. unfold readers_gone. congruence. Qed.

Lemma available_zero p : pipe_wf p ->
  (PipeBuffer_available p =? 0) = (Z.to_nat (PIPE_CAPACITY - 1 - zlen (pipe_bytes p)) =? 0)%nat.
Proof.
  intros Hwf. pose proof (used_range p Hwf). unfold PipeBuffer_available.
  rewrite used_bytes in * by done.
  destruct (Nat.eqb_spec (Z.to_nat (PIPE_CAPACITY - 1 - zlen (pipe_bytes p))) 0);
    [apply Z.eqb_eq|apply Z.eqb_neq]; lia.
Qed.

(** A turn that finds a reader and a full buffer leaves the loop at once. *)
Lemma write_turns_full fuel pending rest written p effects :
  rest <> [] -> readers_gone p = false -> PipeBuffer_available p = 0 ->
  write_turns (S fuel) pending rest written p effects
  = (p, effects, if pending then Done (if written >? 0 then Ok written else Err EINTR)
                 else WaitOn (rest, written)).
Proof.
  intros Hne Hg Ha. destruct rest as [|b rest]; [done|]. cbn [write_turns].
  unfold readers_gone in Hg. rewrite Hg, Ha. cbn. by destruct pending.
Qed.

Lemma write_turns_step fuel pending rest written p effects :
  rest <> [] -> readers_gone p = false -> PipeBuffer_available p <> 0 ->
  write_turns (S fuel) pending rest written p effects
  = let '(rest', p') := write_loop rest p in
    write_turns fuel pending rest' (written + (zlen rest - zlen rest')) p'
      (effects ++ [WakeReadQueue]).
Proof.
  intros Hne Hg Ha%Z.eqb_neq. unfold readers_gone in Hg.
  destruct rest as [|b rest]; [done|]. cbn [write_turns]. by rewrite Hg, Ha.
Qed.

Lemma spec_write_cons pending rest written q : rest <> [] ->
  spec_write pending rest written false q
  = let n := (Z.to_nat (PIPE_CAPACITY - 1 - zlen q) `min` length rest)%nat in
    (q ++ take n rest, if (n =? 0)%nat then [] else [WakeReadQueue],
     if (n =? length rest)%nat then Done (Ok (written + Z.of_nat n))
     else if pending
     then Done (if written + Z.of_nat n >? 0 then Ok (written + Z.of_nat n) else Err EINTR)
     else WaitOn (drop n rest, written + Z.of_nat n)).
Proof. by destruct rest. Qed.

Lemma PipeBuffer_write_spec pending rest written p : pipe_wf p ->
  let '(p', effects, b) := PipeBuffer_write pending rest written p in
  pipe_wf p' /\ pipe_ends p' = pipe_ends p
  /\ (pipe_bytes p', effects, b)
     = spec_write pending rest written (readers_gone p) (pipe_bytes p).
Proof.
  intros Hwf. unfold PipeBuffer_write. destruct (readers_gone p) eqn:Hg.
  { destruct rest; cbn; [done|]. unfold readers_gone in Hg. by rewrite Hg. }
  destruct (decide (rest = [])) as [->|Hne]; [done|].
  rewrite spec_write_cons by done. cbn zeta.
  pose proof (available_zero p Hwf) as Haz.
  assert (Hroom : Z.to_nat (PipeBuffer_available p)
    = Z.to_nat (PIPE_CAPACITY - 1 - zlen (pipe_bytes p))).
  { unfold PipeBuffer_available. by rewrite used_bytes. }
  set (room := Z.to_nat (PIPE_CAPACITY - 1 - zlen (pipe_bytes p))) in *.
  assert (Hlen : (0 < length rest)%nat) by (destruct rest; [done|cbn; lia]).
  destruct (Z.eqb_spec (PipeBuffer_available p) 0) as [Ha|Ha].
  - rewrite write_turns_full by done. split_and!; [done..|].
    assert (room = 0%nat) as -> by (by apply Nat.eqb_eq). cbn [Nat.min].
    rewrite take_0, drop_0, app_nil_r, Z.add_0_r.
    destruct (Nat.eqb_spec 0 (length rest)); [lia|done].
  - rewrite write_turns_step by done.
    pose proof (write_loop_spec rest p Hwf) as Hl. rewrite Hroom in Hl.
    destruct (write_loop rest p) as [rest' p']. destruct Hl as (Hr & Hb & Hw & He).
    set (n := (room `min` length rest)%nat) in *.
    assert (n <> 0%nat) as Hn by (destruct (Nat.eqb_spec room 0); [congruence|lia]).
    assert (zlen rest - zlen rest' = Z.of_nat n) as ->.
    { rewrite Hr. unfold zlen. rewrite length_drop. lia. }
    rewrite (proj2 (Nat.eqb_neq n 0) Hn).
    destruct (Nat.eqb_spec n (length rest)) as [Hall|Hsome].
    + rewrite Hr, Hall, drop_all. cbn [write_turns app]. split_and!; [done..|].
      by rewrite Hb, Hall.
    + rewrite write_turns_full.
      * split_and!; [done..|]. by rewrite Hb, Hr.
      * rewrite Hr. intros Hd%(f_equal length). rewrite length_drop in Hd. cbn in Hd. lia.
      * by rewrite (readers_gone_ends p).
      * apply Z.eqb_eq. rewrite available_zero by done. rewrite Hb. unfold zlen.
        rewrite length_app, length_take. apply Nat.eqb_eq. unfold room, zlen in *. lia.
Qed.

(** ** Runs keep the queue *)

Definition op_ok (op : PipeOp) : Prop :=
  match op with OpWrite _ _ written => 0 <= written | _ => True end.

Definition sys_inv (s : PipeSys) : Prop :=
  pipe_wf (ps_pipe s) /\ ps_accepted s = ps_delivered s ++ pipe_bytes (ps_pipe s).

Lemma sys_inv_new : sys_inv PipeSys_new.
Proof. split; [by vm_compute|done]. Qed.

Lemma spec_read_queue pending length no_writers q :
  let '(q', _, b) := spec_read pending length no_writers q in q = read_given b ++ q'.
Proof.
  unfold spec_read. destruct (length =? 0); [done|].
  destruct q; [by destruct no_writers, pending|]. cbn [read_given]. by rewrite take_drop.
Qed.

Lemma spec_write_queue pending rest written gone q : 0 <= written ->
  let '(q', _, b) := spec_write pending rest written gone q in
  q' = q ++ write_taken rest written b.
Proof.
  intros Hw. unfold spec_write. destruct rest as [|b rest].
  { cbn [write_taken]. by rewrite take_nil, app_nil_r. }
  destruct gone; [cbn [write_taken]; by rewrite app_nil_r|]. cbv zeta.
  set (n := (_ `min` _)%nat). f_equal.
  destruct (n =? length (b :: rest))%nat; [|destruct pending]; cbn [write_taken].
  - f_equal. lia.
  - destruct (written + Z.of_nat n >? 0) eqn:Ht; [f_equal; lia|].
    assert (n = 0%nat) as -> by lia. done.
  - f_equal. lia.
Qed.

(** The bookkeeping of the ends does not touch the ring. *)
Definition ring_of (p : PipeBuffer) : list Z * Z * Z := (m_buffer p, m_head p, m_tail p).

Lemma sys_inv_ring p p' acc del : ring_of p' = ring_of p ->
  sys_inv (mkPipeSys p acc del) -> sys_inv (mkPipeSys p' acc del).
Proof.
  unfold ring_of, sys_inv, pipe_wf, pipe_bytes. intros [= Hb Hh Ht]. cbn.
  by rewrite Hb, Hh, Ht.
Qed.

Lemma await_check_ring r a pending p : ring_of (fst (await_check r a pending p)) = ring_of p.
Proof. unfold await_check. by repeat case_match. Qed.

Lemma await_peer_ring flags pending p :
  ring_of (fst (fst (PipeBuffer_await_peer flags pending p))) = ring_of p.
Proof.
  unfold PipeBuffer_await_peer. destruct (_ && _); [done|].
  destruct (Z.land flags O_ACCMODE =? O_RDONLY);
    match goal with |- context [await_check ?r ?a ?b ?q] =>
      pose proof (await_check_ring r a b q) as Hr; destruct (await_check r a b q) end;
    exact Hr.
Qed.

Lemma pipe_exec_inv op s : op_ok op -> sys_inv s -> sys_inv (pipe_exec op s).
Proof.
  intros Hok Hs. pose proof Hs as (Hwf & Hacc). destruct s as [p acc del].
  cbn [ps_pipe ps_accepted ps_delivered] in *.
  destruct op as [flags|flags|flags pending|r a pending|pending len|pending rest written];
    cbn [pipe_exec ps_pipe ps_accepted ps_delivered].
  - eapply sys_inv_ring, Hs. unfold PipeBuffer_opened. by repeat case_match.
  - eapply sys_inv_ring, Hs. unfold PipeBuffer_closed. by repeat case_match.
  - eapply sys_inv_ring, Hs. apply await_peer_ring.
  - eapply sys_inv_ring, Hs. apply await_check_ring.
  - pose proof (PipeBuffer_read_spec pending len p Hwf) as Hr.
    destruct (PipeBuffer_read _ _ _) as [[p' eff] b]. destruct Hr as (Hwf' & _ & Hsp).
    pose proof (spec_read_queue pending len (m_writers p =? 0) (pipe_bytes p)) as Hq.
    rewrite <- Hsp in Hq. split; [done|]. cbn. by rewrite Hacc, Hq, app_assoc.
  - pose proof (PipeBuffer_write_spec pending rest written p Hwf) as Hr.
    destruct (PipeBuffer_write _ _ _ _) as [[p' eff] b]. destruct Hr as (Hwf' & _ & Hsp).
    pose proof (spec_write_queue pending rest written (readers_gone p) (pipe_bytes p) Hok) as Hq.
    rewrite <- Hsp in Hq. split; [done|]. cbn. by rewrite Hq, Hacc, app_assoc.
Qed.

Lemma pipe_run_inv ops : forall s, Forall op_ok ops -> sys_inv s -> sys_inv (pipe_run ops s).
Proof.
  induction ops as [|op ops IH]; intros s Hops Hs; [done|].
  apply Forall_cons_1 in Hops as [Ho Hops]. apply IH; [done|]. by apply pipe_exec_inv.
Qed.

(** ** Arrivals *)

(** The peers a side counts: writers for a reader, readers for a writer. *)
Definition pipe_arrivals (as_reader : bool) (p : PipeBuffer) : Z :=
  if as_reader then m_writer_arrivals p else m_reader_arrivals p.

Definition op_arrives (as_reader : bool) (op : PipeOp) : bool :=
  match op with
  | OpAwait flags _ =>
      Z.land flags O_ACCMODE =? (if as_reader then O_WRONLY else O_RDONLY)
  | _ => false
  end.

Fixpoint arrivals_in (as_reader : bool) (ops : list PipeOp) : Z :=
  match ops with
  | [] => 0
  | op :: ops' => (if op_arrives as_reader op then 1 else 0) + arrivals_in as_reader ops'
  end.

Lemma ends_arrivals as_reader p p' : pipe_ends p' = pipe_ends p ->
  pipe_arrivals as_reader p' = pipe_arrivals as_reader p.
Proof. intros H. unfold pipe_ends, set_ring in H. injection H. by destruct as_reader. Qed.

Lemma pipe_exec_arrivals as_reader op s : sys_inv s ->
  pipe_arrivals as_reader (ps_pipe (pipe_exec op s))
  = if op_arrives as_reader op then u64 (pipe_arrivals as_reader (ps_pipe s) + 1)
    else pipe_arrivals as_reader (ps_pipe s).
Proof.
  intros (Hwf & _). destruct s as [p acc del]. cbn in *.
  destruct op as [flags|flags|flags pending|r a pending|pending len|pending rest written]; cbn.
  - unfold PipeBuffer_opened. by repeat case_match.
  - unfold PipeBuffer_closed. by repeat case_match.
  - unfold PipeBuffer_await_peer, await_check, O_RDONLY, O_WRONLY, pipe_arrivals.
    destruct (Z.eqb_spec (Z.land flags O_ACCMODE) 0) as [->|H0];
      [|destruct (Z.eqb_spec (Z.land flags O_ACCMODE) 1) as [->|H1]]; cbn;
      repeat case_match; simplify_eq/=; done || lia.
  - unfold await_check. by repeat case_match.
  - pose proof (PipeBuffer_read_spec pending len p Hwf) as Hr.
    destruct (PipeBuffer_read _ _ _) as [[p' eff] b]. cbn. by apply ends_arrivals, Hr.
  - pose proof (PipeBuffer_write_spec pending rest written p Hwf) as Hr.
    destruct (PipeBuffer_write _ _ _ _) as [[p' eff] b]. cbn. by apply ends_arrivals, Hr.
Qed.

Lemma arrivals_in_nonneg as_reader ops : 0 <= arrivals_in as_reader ops.
Proof. induction ops; cbn; [lia|]. destruct (op_arrives _ _); lia. Qed.

Lemma u64_add_l a b : u64 (u64 a + b) = u64 (a + b).
Proof. unfold u64. apply Zplus_mod_idemp_l. Qed.

Lemma pipe_run_arrivals as_reader ops : forall s, Forall op_ok ops -> sys_inv s ->
  is_u64 (pipe_arrivals as_reader (ps_pipe s)) ->
  pipe_arrivals as_reader (ps_pipe (pipe_run ops s))
  = u64 (pipe_arrivals as_reader (ps_pipe s) + arrivals_in as_reader ops).
Proof.
  induction ops as [|op ops IH]; intros s Hops Hs Hu; cbn [pipe_run arrivals_in].
  { by rewrite Z.add_0_r, u64_small. }
  apply Forall_cons_1 in Hops as [Ho Hops].
  pose proof (pipe_exec_arrivals as_reader op s Hs) as He.
  rewrite IH; [|done|by apply pipe_exec_inv|].
  - rewrite He. destruct (op_arrives _ _); [|done].
    rewrite u64_add_l. f_equal. lia.
  - rewrite He. destruct (op_arrives _ _); [apply u64_range|done].
Qed.

(** ** The theorems *)


Definition demo_ops : list PipeOp :=
  [OpOpened O_RDONLY; OpOpened O_WRONLY; OpWrite false [104; 105; 33] 0;
   OpRead false 2; OpWrite false [10] 0].


(** C4: on every pipe the kernel can be in, [PipeBuffer::read] and
    [PipeBuffer::write] are the queue operations of the specification, on every
    branch: end of file, EINTR, EPIPE with SIGPIPE, a partial count, a sleep with
    the right remainder, and the wake-ups each of them owes the other side. *)
Theorem pipe_refines_queue (ops : list PipeOp) pending length rest written :
  Forall op_ok ops ->
  let p := ps_pipe (pipe_run ops PipeSys_new) in
  (let '(p', effects, b) := PipeBuffer_read pending length p in
   (pipe_bytes p', effects, b) = spec_read pending length (m_writers p =? 0) (pipe_bytes p))
  /\ (let '(p', effects, b) := PipeBuffer_write pending rest written p in
      (pipe_bytes p', effects, b)
      = spec_write pending rest written (readers_gone p) (pipe_bytes p)).
Proof.
  intros Hops p. destruct (pipe_run_inv ops PipeSys_new Hops sys_inv_new) as [Hwf _].
  fold p in Hwf. split.
  - pose proof (PipeBuffer_read_spec pending length p Hwf).
    destruct (PipeBuffer_read _ _ _) as [[??]?]. tauto.
  - pose proof (PipeBuffer_write_spec pending rest written p Hwf).
    destruct (PipeBuffer_write _ _ _ _) as [[??]?]. tauto.
Qed.

Lemma pipe_refines_queue_witness :
  let p := ps_pipe (pipe_run demo_ops PipeSys_new) in
  snd (spec_write true [1; 2] 0 (readers_gone p) (pipe_bytes p)) = Done (Ok 2)
  /\ let '(p', effects, b) := PipeBuffer_read false 9 p in
     (pipe_bytes p', effects, b) = ([], [WakeWriteQueue], Done (Ok [33; 10])).
Proof.
  split; [by vm_compute|]. apply (pipe_refines_queue demo_ops false 9 [] 0).
  repeat constructor; done.
Defined.

(** a FIFO opener never misses a peer: if at least one peer enters
    [await_peer] after the snapshot was taken, the next time the sleeping open
    runs it succeeds, whatever else happened and even if that peer has gone
    again (fewer than 2^64 arrivals, so that the counter cannot come round). *)
Theorem await_peer_sees_arrival (before after : list PipeOp) as_reader pending :
  Forall op_ok before -> Forall op_ok after ->
  let s := pipe_run before PipeSys_new in
  0 < arrivals_in as_reader after < 2 ^ 64 ->
  snd (await_check as_reader (pipe_arrivals as_reader (ps_pipe s)) pending
         (ps_pipe (pipe_run after s)))
  = Done (Ok tt).
Proof.
  intros Hb Ha s Hn.
  pose proof (pipe_run_inv before PipeSys_new Hb sys_inv_new) as Hs. fold s in Hs.
  assert (Hu : is_u64 (pipe_arrivals as_reader (ps_pipe s))).
  { unfold s. rewrite pipe_run_arrivals; [apply u64_range|done|apply sys_inv_new|].
    by destruct as_reader. }
  pose proof (pipe_run_arrivals as_reader after s Ha Hs Hu) as Hrun.
  unfold await_check. fold (pipe_arrivals as_reader (ps_pipe (pipe_run after s))).
  rewrite Hrun. set (a := pipe_arrivals as_reader (ps_pipe s)) in *.
  set (n := arrivals_in as_reader after) in *.
  assert (Hne : (u64 (a + n) =? a) = false).
  { apply Z.eqb_neq. unfold u64, is_u64 in *. zlia. }
  rewrite Hne, orb_true_r. done.
Qed.

(** The peer opened, wrote and left before the reader ran. *)
Lemma await_peer_sees_arrival_witness :
  snd (await_check true 0 false
         (ps_pipe (pipe_run [OpAwait O_WRONLY false; OpOpened O_WRONLY;
                             OpWrite false [7] 0; OpClosed O_WRONLY]
                     (pipe_run [OpAwait O_RDONLY false] PipeSys_new))))
  = Done (Ok tt).
Proof.
  apply (await_peer_sees_arrival [OpAwait O_RDONLY false]
           [OpAwait O_WRONLY false; OpOpened O_WRONLY; OpWrite false [7] 0; OpClosed O_WRONLY]
           true false); [repeat constructor; done..|done].
Defined.

(** a peer that skips [await_peer], as an O_NONBLOCK open does, is counted
    only by [opened]: if it opens, writes and closes before the sleeping reader
    runs, the reader goes back to sleep although a writer has come and gone and
    its byte is in the buffer. *)
Theorem nonblocking_peer_missed :
  let s := pipe_run [OpAwait O_RDONLY false] PipeSys_new in
  let s' := pipe_run [OpOpened O_WRONLY; OpWrite false [7] 0; OpClosed O_WRONLY] s in
  snd (await_check true (pipe_arrivals true (ps_pipe s)) false (ps_pipe s')) = WaitOn 0
  /\ pipe_bytes (ps_pipe s') = [7].
Proof. split; by vm_compute. Qed.

(** poll and read agree: [can_read_without_blocking] is exactly the condition
    under which a read of a positive length returns without sleeping. *)
Theorem poll_read_agrees length p : 0 < length ->
  PipeBuffer_can_read_without_blocking p = true <->
  exists r, snd (PipeBuffer_read false length p) = Done r.
Proof.
  intros Hl. unfold PipeBuffer_can_read_without_blocking, PipeBuffer_read.
  pose proof (Z.mod_pos_bound (m_head p + PIPE_CAPACITY - m_tail p) PIPE_CAPACITY).
  fold (PipeBuffer_used p) in *. rewrite (proj2 (Z.eqb_neq length 0)) by lia.
  destruct (Z.eqb_spec (PipeBuffer_used p) 0) as [->|Hu]; cbn.
  - destruct (m_writers p =? 0); cbn; split; try done; [eauto|by intros [r ?]].
  - rewrite (proj2 (Z.gtb_lt (PipeBuffer_used p) 0)) by (unfold PIPE_CAPACITY in *; lia).
    destruct (read_loop _ p). cbn. split; eauto.
Qed.

Lemma poll_read_agrees_witness :
  exists r, snd (PipeBuffer_read false 4 PipeBuffer_new) = Done r.
Proof. apply (poll_read_agrees 4); [lia|by vm_compute]. Defined.

(** poll and write disagree while a reader is still in its open: on a full
    pipe with no reader but one pending, poll reports the write end ready and
    the write sleeps. *)
Theorem poll_write_pending_reader :
  exists p, pipe_wf p /\ PipeBuffer_can_write_without_blocking p = true
  /\ snd (PipeBuffer_write false [1] 0 p) = WaitOn ([1], 0).
Proof.
  exists (ps_pipe (pipe_run [OpAwait O_RDONLY false; OpOpened O_WRONLY;
            OpWrite false (replicate 4095 0) 0] PipeSys_new)).
  split_and!; by vm_compute.
Qed.
