(* ===== verification/PipeRace.v ===== *)
(** * kernel/fs/pipe.cpp under preemption

    [Pipe] treats what a call does between two sleeps as one transition.  The
    kernel enables interrupts during system calls and takes no lock here, so a
    timer tick may switch threads between any two statements of [read] and
    [write].  This file models the two loops one statement at a time and runs
    any number of readers and writers against each other in any order.  With one
    of each the pipe still loses nothing; with a sleep racing a wake, or with two
    writers, it does. *)

From S2P Require Import Prelude Ring Pipe.

(** Where a reader stands in [PipeBuffer::read]; each constructor is the statement
    it executes next. *)
Inductive RPc :=
| RTest                     (* while (used() == 0) *)
| REof                      (* if (m_writers == 0) return 0 *)
| RSignal                   (* if (has_pending_signals()) return EINTR *)
| RWait                     (* m_read_queue.wait() *)
| RAsleep
| RCopy                     (* while (read_bytes < length && used() > 0) *)
| RLoad                     (* out[read_bytes++] = m_buffer[m_tail] *)
| RAdvance                  (* m_tail = (m_tail + 1) % PIPE_CAPACITY *)
| RWake                     (* m_write_queue.wake_all() *)
| RDone (failed : bool).

(** What is left of [length], and the bytes stored so far (over all its calls). *)
Record Reader := mkReader { r_pc : RPc; r_left : Z; r_out : list Z }.

(** Where a writer stands in [PipeBuffer::write]. *)
Inductive WPc :=
| WLoop                     (* while (written < length) *)
| WGone                     (* if (m_readers + m_pending_readers == 0) *)
| WFull                     (* if (available() == 0) *)
| WSignal                   (* if (has_pending_signals()) return *)
| WWait                     (* m_write_queue.wait() *)
| WAsleep
| WCopy                     (* while (written < length && available() > 0) *)
| WStore                    (* m_buffer[m_head] = bytes[written++] *)
| WAdvance                  (* m_head = (m_head + 1) % PIPE_CAPACITY *)
| WWake                     (* m_read_queue.wake_all() *)
| WDone (failed : bool).

(** The bytes not stored yet, and the one stored but not yet published. *)
Record Writer := mkWriter { w_pc : WPc; w_rest : list Z; w_stored : list Z }.

Record RaceSys := mkRace {
  rs_pipe : PipeBuffer;
  rs_readers : list Reader;
  rs_writers : list Writer;
}.

(** One statement of a reader: the pipe, the reader, and whether the writers on
    [m_write_queue] are woken. *)
Definition reader_step (pending : bool) (p : PipeBuffer) (r : Reader)
    : PipeBuffer * Reader * bool :=
  let go pc := (p, mkReader pc (r_left r) (r_out r), false) in
  match r_pc r with
  | RTest => go (if PipeBuffer_used p =? 0 then REof else RCopy)
  | REof => go (if m_writers p =? 0 then RDone false else RSignal)
  | RSignal => go (if pending then RDone true else RWait)
  | RWait => go RAsleep
  | RAsleep => go RAsleep
  | RCopy => go (if (0 <? r_left r) && (PipeBuffer_used p >? 0) then RLoad else RWake)
  | RLoad => (p, mkReader RAdvance (r_left r - 1)
                   (r_out r ++ [zget 0 (m_buffer p) (m_tail p)]), false)
  | RAdvance => (set_ring p (m_buffer p) (m_head p) ((m_tail p + 1) mod PIPE_CAPACITY),
                 mkReader RCopy (r_left r) (r_out r), false)
  | RWake => (p, mkReader (RDone false) (r_left r) (r_out r), true)
  | RDone f => go (RDone f)
  end.

Definition writer_step (pending : bool) (p : PipeBuffer) (w : Writer)
    : PipeBuffer * Writer * bool :=
  let go pc := (p, mkWriter pc (w_rest w) (w_stored w), false) in
  match w_pc w with
  | WLoop => go (match w_rest w with [] => WDone false | _ => WGone end)
  | WGone => go (if u64 (m_readers p + m_pending_readers p) =? 0 then WDone true else WFull)
  | WFull => go (if PipeBuffer_available p =? 0 then WSignal else WCopy)
  | WSignal => go (if pending then WDone true else WWait)
  | WWait => go WAsleep
  | WAsleep => go WAsleep
  | WCopy => go (match w_rest w with
                 | [] => WWake
                 | _ => if PipeBuffer_available p >? 0 then WStore else WWake
                 end)
  | WStore =>
      match w_rest w with
      | [] => go WWake
      | b :: rest => (set_ring p (zset (m_buffer p) (m_head p) b) (m_head p) (m_tail p),
                      mkWriter WAdvance rest [b], false)
      end
  | WAdvance => (set_ring p (m_buffer p) ((m_head p + 1) mod PIPE_CAPACITY) (m_tail p),
                 mkWriter WCopy (w_rest w) [], false)
  | WWake => (p, mkWriter WLoop (w_rest w) (w_stored w), true)
  | WDone f => go (WDone f)
  end.

Definition wake_reader (r : Reader) : Reader :=
  match r_pc r with RAsleep => mkReader RTest (r_left r) (r_out r) | _ => r end.
Definition wake_writer (w : Writer) : Writer :=
  match w_pc w with WAsleep => mkWriter WLoop (w_rest w) (w_stored w) | _ => w end.

(** Whose statement runs next; [NextRead] is a reader calling [read] again. *)
Inductive Turn :=
| TReader (i : nat) (pending : bool)
| TWriter (i : nat) (pending : bool)
| NextRead (i : nat) (length : Z).

Definition race_step (t : Turn) (s : RaceSys) : RaceSys :=
  match t with
  | TReader i pending =>
      match rs_readers s !! i with
      | Some r =>
          let '(p, r', wake) := reader_step pending (rs_pipe s) r in
          mkRace p (<[i := r']> (rs_readers s))
            (if wake then wake_writer <$> rs_writers s else rs_writers s)
      | None => s
      end
  | TWriter i pending =>
      match rs_writers s !! i with
      | Some w =>
          let '(p, w', wake) := writer_step pending (rs_pipe s) w in
          mkRace p (if wake then wake_reader <$> rs_readers s else rs_readers s)
            (<[i := w']> (rs_writers s))
      | None => s
      end
  | NextRead i length =>
      match rs_readers s !! i with
      | Some (mkReader (RDone _) _ out) =>
          mkRace (rs_pipe s) (<[i := mkReader RTest length out]> (rs_readers s)) (rs_writers s)
      | _ => s
      end
  end.

Definition race_run (ts : list Turn) (s : RaceSys) : RaceSys := foldl (fun s t => race_step t s) s ts.

(** An empty pipe with [nr] reading and [nw] writing ends open. *)
Definition race_pipe (nr nw : Z) : PipeBuffer := set_ends PipeBuffer_new nr nw.

(** ** One reader, one writer *)

(** The bytes a reader has taken off the ring, and those a writer has not put on. *)
Definition taken (r : Reader) : list Z :=
  match r_pc r with RAdvance => take (length (r_out r) - 1) (r_out r) | _ => r_out r end.
Definition unsent (w : Writer) : list Z := w_stored w ++ w_rest w.

Record spsc_inv (p : PipeBuffer) (r : Reader) (w : Writer) (bytes : list Z) : Prop := {
  si_wf : pipe_wf p;
  si_bytes : taken r ++ pipe_bytes p ++ unsent w = bytes;
  si_reader : match r_pc r with
              | RLoad => PipeBuffer_used p > 0
              | RAdvance => PipeBuffer_used p > 0
                  /\ exists out, r_out r = out ++ [zget 0 (m_buffer p) (m_tail p)]
              | _ => True
              end;
  si_writer : match w_pc w with
              | WStore => PipeBuffer_available p > 0 /\ w_stored w = [] /\ w_rest w <> []
              | WAdvance => PipeBuffer_available p > 0
                  /\ w_stored w = [zget 0 (m_buffer p) (m_head p)]
              | _ => w_stored w = []
              end;
}.

Lemma zset_zget_id (l : list Z) i : 0 <= i < zlen l -> zset l i (zget 0 l i) = l.
Proof.
  intros Hi. unfold zset. apply list_insert_id. by apply zget_lookup.
Qed.

(** Storing into the free slot at the head, and publishing it. *)
Lemma store_spec p b : pipe_wf p ->
  let p' := set_ring p (zset (m_buffer p) (m_head p) b) (m_head p) (m_tail p) in
  pipe_wf p' /\ pipe_bytes p' = pipe_bytes p /\ PipeBuffer_used p' = PipeBuffer_used p
  /\ zget 0 (m_buffer p') (m_head p') = b
  /\ (PipeBuffer_used p > 0 -> zget 0 (m_buffer p') (m_tail p') = zget 0 (m_buffer p) (m_tail p)).
Proof.
  intros Hwf. pose proof Hwf as (Hl & Hh & Ht). cbn [set_ring m_buffer m_head m_tail].
  split_and!.
  - split_and!; cbn; [by rewrite zlen_zset|lia..].
  - apply (ring_store 0 PIPE_CAPACITY capacity_gt _ _ _ b Hwf).
  - done.
  - apply zget_zset_eq. lia.
  - intros Hu. apply zget_zset_ne; [lia..|]. intros He.
    pose proof (ring_used_zero PIPE_CAPACITY capacity_gt _ _ Hh Ht) as H0.
    unfold PipeBuffer_used, ring_used in *. lia.
Qed.

Lemma publish_spec p : pipe_wf p -> PipeBuffer_available p > 0 ->
  let p' := set_ring p (m_buffer p) ((m_head p + 1) mod PIPE_CAPACITY) (m_tail p) in
  pipe_wf p' /\ pipe_bytes p' = pipe_bytes p ++ [zget 0 (m_buffer p) (m_head p)].
Proof.
  intros Hwf Hav. pose proof Hwf as (Hl & Hh & Ht).
  destruct (store_one p (zget 0 (m_buffer p) (m_head p)) Hwf Hav) as (H1 & H2 & _).
  rewrite zset_zget_id in H1, H2 by lia. done.
Qed.

Lemma reader_step_inv pending p r w bytes : spsc_inv p r w bytes ->
  let '(p', r', wake) := reader_step pending p r in spsc_inv p' r' w bytes.
Proof.
  intros [Hwf Hb Hr Hw]. destruct r as [pc left out]. unfold reader_step. cbn in *.
  destruct pc; cbn; try (split; cbn; try done; by repeat case_match).
  - split; cbn; try done; destruct (_ && _) eqn:Hc; cbn; try done.
    apply andb_true_iff in Hc as [_ Hc]. lia.
  - split; cbn; try done.
    + rewrite length_app. cbn. rewrite take_app_length' by lia. done.
    + split; [done|by eexists].
  - destruct Hr as [Hu [o ->]]. destruct (load_one p Hwf Hu) as (Hwf' & Hp & _).
    set (p' := set_ring _ _ _ _) in *.
    assert (Hused : PipeBuffer_used p' = PipeBuffer_used p - 1).
    { rewrite !used_bytes by done. rewrite Hp. unfold zlen. cbn [length]. lia. }
    split; cbn; try done.
    + rewrite <- Hb. unfold taken. cbn. rewrite length_app. cbn.
      rewrite take_app_length' by lia. rewrite Hp. by rewrite <- !app_assoc.
    + unfold PipeBuffer_available in *. rewrite Hused. destruct (w_pc w); try done.
      * destruct Hw as [Ha Hs]. split; [lia|done].
      * destruct Hw as [Ha Hs]. split; [lia|done].
Qed.

Lemma writer_step_inv pending p r w bytes : spsc_inv p r w bytes ->
  let '(p', w', wake) := writer_step pending p w in spsc_inv p' r w' bytes.
Proof.
  intros [Hwf Hb Hr Hw]. destruct w as [pc rest stored]. unfold writer_step. cbn in *.
  destruct pc; cbn; try (split; cbn; try done; by repeat case_match).
  - split; cbn; try done. destruct rest; [done|]. destruct (_ >? 0) eqn:Hc; [|done].
    split_and!; [lia|done|done].
  - destruct Hw as (Ha & -> & Hne). destruct rest as [|b rest]; [done|].
    destruct (store_spec p b Hwf) as (H1 & H2 & H3 & H4 & H5).
    set (p' := set_ring _ _ _ _) in *. split; try done.
    + rewrite H2, <- Hb. done.
    + cbn. rewrite H3. destruct (r_pc r); try done.
      destruct Hr as [Hu [o Ho]]. split; [done|]. exists o. rewrite Ho, <- (H5 Hu). done.
    + cbn. unfold PipeBuffer_available in *. rewrite H3. split; [done|]. f_equal. symmetry. exact H4.
  - destruct Hw as [Ha ->]. destruct (publish_spec p Hwf Ha) as [H1 H2].
    set (p' := set_ring _ _ _ _) in *. split; try done.
    + rewrite H2, <- Hb. unfold unsent. cbn. by rewrite <- !app_assoc.
    + assert (Hused : PipeBuffer_used p' = PipeBuffer_used p + 1).
      { rewrite !used_bytes by done. rewrite H2, zlen_app. done. }
      rewrite Hused. destruct (r_pc r); try done; [lia|].
      destruct Hr as [Hu Ho]. split; [lia|done].
Qed.

Lemma wake_reader_inv p r w bytes : spsc_inv p r w bytes -> spsc_inv p (wake_reader r) w bytes.
Proof.
  intros H. destruct r as [pc left out]. destruct pc; try exact H.
  destruct H as [H1 H2 H3 H4]. by split.
Qed.

Lemma wake_writer_inv p r w bytes : spsc_inv p r w bytes -> spsc_inv p r (wake_writer w) bytes.
Proof.
  intros H. destruct w as [pc rest stored]. destruct pc; try exact H.
  destruct H as [H1 H2 H3 H4]. by split.
Qed.

Definition spsc (s : RaceSys) (bytes : list Z) : Prop :=
  exists r w, rs_readers s = [r] /\ rs_writers s = [w] /\ spsc_inv (rs_pipe s) r w bytes.

Lemma race_step_spsc t s bytes : spsc s bytes -> spsc (race_step t s) bytes.
Proof.
  intros (r & w & Hr & Hw & Hinv). destruct s as [p rs ws]. cbn in *. subst rs ws.
  destruct t as [i pending|i pending|i len]; cbn.
  - destruct i as [|i]; [|by exists r, w]. cbn.
    pose proof (reader_step_inv pending p r w bytes Hinv) as H.
    destruct (reader_step pending p r) as [[p' r'] wake]. cbn.
    exists r', (if wake then wake_writer w else w). destruct wake; cbn; split_and!; try done.
    by apply wake_writer_inv.
  - destruct i as [|i]; [|by exists r, w]. cbn.
    pose proof (writer_step_inv pending p r w bytes Hinv) as H.
    destruct (writer_step pending p w) as [[p' w'] wake]. cbn.
    exists (if wake then wake_reader r else r), w'. destruct wake; cbn; split_and!; try done.
    by apply wake_reader_inv.
  - destruct i as [|i]; [|by exists r, w]. cbn.
    destruct r as [pc left out]; destruct pc; try (by eexists _, _).
    exists (mkReader RTest len out), w. split_and!; try done.
    destruct Hinv as [H1 H2 H3 H4]. by split.
Qed.

Lemma race_run_spsc ts : forall s bytes, spsc s bytes -> spsc (race_run ts s) bytes.
Proof.
  induction ts as [|t ts IH]; intros s bytes Hs; [done|]. apply IH. by apply race_step_spsc.
Qed.

(** ** The theorems *)

Definition race_start (nr nw : Z) (len : Z) (bytess : list (list Z)) : RaceSys :=
  mkRace (race_pipe nr nw) [mkReader RTest len []] ((fun bs => mkWriter WLoop bs []) <$> bytess).

(** C19: with one reader and one writer, however the timer interleaves their
    statements and whatever signals arrive, what the reader has taken, what is
    buffered and what the writer still holds are, in that order, the bytes the
    writer was given: nothing is lost, doubled or reordered. *)
Theorem spsc_pipe_is_fifo (bytes : list Z) (len : Z) (ts : list Turn) :
  exists r w, let s := race_run ts (race_start 1 1 len [bytes]) in
  rs_readers s = [r] /\ rs_writers s = [w] /\ pipe_wf (rs_pipe s)
  /\ taken r ++ pipe_bytes (rs_pipe s) ++ unsent w = bytes.
Proof.
  destruct (race_run_spsc ts (race_start 1 1 len [bytes]) bytes) as (r & w & Hr & Hw & [H1 H2 _ _]).
  { exists (mkReader RTest len []), (mkWriter WLoop bytes []). by split_and!. }
  by exists r, w.
Qed.

(** a reader can sleep on a pipe that has data.  It finds the pipe empty and
    is preempted before its [wait]; the writer stores its byte, wakes the queue,
    on which nobody is, and returns; the reader then goes to sleep, and no
    statement of either of them will ever wake it. *)
Theorem reader_misses_wakeup :
  exists ts, let s := race_run ts (race_start 1 1 8 [[65]]) in
  rs_readers s = [mkReader RAsleep 8 []] /\ rs_writers s = [mkWriter (WDone false) [] []]
  /\ pipe_bytes (rs_pipe s) = [65]
  /\ forall ts', race_run ts' s = s.
Proof.
  exists (replicate 3 (TReader 0 false) ++ replicate 9 (TWriter 0 false) ++ [TReader 0 false]).
  set (s := race_run _ _).
  assert (Hs : s = mkRace (rs_pipe s) [mkReader RAsleep 8 []] [mkWriter (WDone false) [] []])
    by (by vm_compute).
  split_and!; [by rewrite Hs|by rewrite Hs|by vm_compute|].
  clearbody s. intros ts'. induction ts' as [|t ts' IH]; [done|].
  change (race_run (t :: ts') s) with (race_run ts' (race_step t s)).
  assert (race_step t s = s) as ->; [|done].
  rewrite Hs. destruct t as [[|i] ?|[|i] ?|[|i] ?]; done.
Qed.

(** two writers lose a byte: both store into the same slot before either
    publishes it.  Of the two bytes handed over the first is gone, and a slot
    nobody wrote is published in its place. *)
Theorem two_writers_lose_a_byte :
  exists ts, let s := race_run ts (race_start 1 2 8 [[65]; [66]]) in
  rs_writers s = [mkWriter (WDone false) [] []; mkWriter (WDone false) [] []]
  /\ pipe_bytes (rs_pipe s) = [66; 0].
Proof.
  exists (replicate 5 (TWriter 0 false) ++ replicate 9 (TWriter 1 false)
          ++ replicate 9 (TWriter 0 false)).
  split; by vm_compute.
Qed.
