(* ===== verification/LineDiscipline.v ===== *)
(** * kernel/dev/line_discipline.cpp: canonical mode, job control

    A terminal's input side.  [feed] takes one byte from the far end; [read]
    hands completed input to a process.  Characters are [char], signed 8-bit.
    What [feed] and [read] do to the rest of the system (echo, wake-ups,
    signals) is returned as a list of effects, in order. *)

From S2P Require Import Prelude Ring.

Definition LINE_BUFFER_SIZE : Z := 1024.
Definition READY_BUFFER_SIZE : Z := LINE_BUFFER_SIZE * 4.

Definition ISIG : Z := 0x0001.
Definition ICANON : Z := 0x0002.
Definition ECHO : Z := 0x0008.
Definition ICRNL : Z := 0x0100.
Definition OPOST : Z := 0x0001.
Definition ONLCR : Z := 0x0004.

Definition VINTR : Z := 0.
Definition VQUIT : Z := 1.
Definition VERASE : Z := 2.
Definition VKILL : Z := 3.
Definition VEOF : Z := 4.
Definition VTIME : Z := 5.
Definition VMIN : Z := 6.
Definition VSUSP : Z := 10.
Definition NCCS : Z := 32.

Definition NL : Z := 10.
Definition CR : Z := 13.
Definition BS : Z := 8.
Definition SPACE : Z := 32.

Record termios := mkTermios {
  c_iflag : Z;
  c_oflag : Z;
  c_cflag : Z;
  c_lflag : Z;
  c_cc : list Z;
}.

Record winsize := mkWinsize { ws_row : Z; ws_col : Z; ws_xpixel : Z; ws_ypixel : Z }.

(** The fields of the class; [m_has_echo] is [m_echo != nullptr]. *)
Record LineDiscipline := mkLd {
  m_has_echo : bool;
  m_termios : termios;
  m_window : winsize;
  m_line : list Z;
  m_line_length : Z;
  m_ready : list Z;
  m_ready_head : Z;
  m_ready_tail : Z;
  m_foreground_group : Z;
  m_saw_eof : bool;
  m_hung_up : bool;
  m_adopts_readers : bool;
}.

Inductive LdEffect :=
| Echoed (c : Z)                 (* m_echo(m_owner, c) *)
| WakeReaders                    (* m_readers.wake_all() *)
| SignalGroup (pgid sig : Z)     (* raise_signal on every member of the group *)
| RaiseReader (sig : Z).         (* raise_signal on the reading process *)

#[export] Instance LdEffect_eq_dec : EqDecision LdEffect.
Proof. solve_decision. Defined.

Definition set_line (l : list Z) (n : Z) (d : LineDiscipline) : LineDiscipline :=
  mkLd (m_has_echo d) (m_termios d) (m_window d) l n (m_ready d) (m_ready_head d)
    (m_ready_tail d) (m_foreground_group d) (m_saw_eof d) (m_hung_up d) (m_adopts_readers d).

Definition set_ready (r : list Z) (head tail : Z) (d : LineDiscipline) : LineDiscipline :=
  mkLd (m_has_echo d) (m_termios d) (m_window d) (m_line d) (m_line_length d) r head tail
    (m_foreground_group d) (m_saw_eof d) (m_hung_up d) (m_adopts_readers d).

Definition set_saw_eof (b : bool) (d : LineDiscipline) : LineDiscipline :=
  mkLd (m_has_echo d) (m_termios d) (m_window d) (m_line d) (m_line_length d) (m_ready d)
    (m_ready_head d) (m_ready_tail d) (m_foreground_group d) b (m_hung_up d)
    (m_adopts_readers d).

Definition set_foreground_group (g : Z) (d : LineDiscipline) : LineDiscipline :=
  mkLd (m_has_echo d) (m_termios d) (m_window d) (m_line d) (m_line_length d) (m_ready d)
    (m_ready_head d) (m_ready_tail d) g (m_saw_eof d) (m_hung_up d) (m_adopts_readers d).

Definition set_termios (t : termios) (d : LineDiscipline) : LineDiscipline :=
  mkLd (m_has_echo d) t (m_window d) (m_line d) (m_line_length d) (m_ready d)
    (m_ready_head d) (m_ready_tail d) (m_foreground_group d) (m_saw_eof d) (m_hung_up d)
    (m_adopts_readers d).

Definition set_adopts_readers (b : bool) (d : LineDiscipline) : LineDiscipline :=
  mkLd (m_has_echo d) (m_termios d) (m_window d) (m_line d) (m_line_length d) (m_ready d)
    (m_ready_head d) (m_ready_tail d) (m_foreground_group d) (m_saw_eof d) (m_hung_up d) b.

Definition set_hung_up (hung_up : bool) (d : LineDiscipline) : LineDiscipline * list LdEffect :=
  (mkLd (m_has_echo d) (m_termios d) (m_window d) (m_line d) (m_line_length d) (m_ready d)
     (m_ready_head d) (m_ready_tail d) (m_foreground_group d) (m_saw_eof d) hung_up
     (m_adopts_readers d), [WakeReaders]).

Definition flag (word bit : Z) : bool := negb (Z.land word bit =? 0).

Definition cc (d : LineDiscipline) (index : Z) : Z := zget 0 (c_cc (m_termios d)) index.

(** ** Configuration *)

Definition line_discipline_default_termios (out : termios) : termios :=
  let cc := c_cc out in
  let cc := zset cc VINTR 3 in
  let cc := zset cc VQUIT 28 in
  let cc := zset cc VERASE 8 in
  let cc := zset cc VKILL 21 in
  let cc := zset cc VEOF 4 in
  let cc := zset cc VSUSP 26 in
  let cc := zset cc VMIN 1 in
  let cc := zset cc VTIME 0 in
  mkTermios ICRNL (Z.lor OPOST ONLCR) 0 (Z.lor (Z.lor ISIG ICANON) ECHO) cc.

(** The initialisers of the class. *)
Definition LineDiscipline_new : LineDiscipline :=
  mkLd false (mkTermios 0 0 0 0 (replicate (Z.to_nat NCCS) 0)) (mkWinsize 0 0 0 0)
    (replicate (Z.to_nat LINE_BUFFER_SIZE) 0) 0
    (replicate (Z.to_nat READY_BUFFER_SIZE) 0) 0 0 0 false false false.

Definition LineDiscipline_configure (has_echo : bool) (d : LineDiscipline) : LineDiscipline :=
  mkLd has_echo (line_discipline_default_termios (m_termios d))
    (mkWinsize 24 80 (ws_xpixel (m_window d)) (ws_ypixel (m_window d)))
    (m_line d) (m_line_length d) (m_ready d) (m_ready_head d) (m_ready_tail d)
    (m_foreground_group d) (m_saw_eof d) (m_hung_up d) (m_adopts_readers d).

(** ** Input *)

Definition LineDiscipline_echo (c : Z) (d : LineDiscipline) : list LdEffect :=
  if negb (flag (c_lflag (m_termios d)) ECHO) || negb (m_has_echo d) then []
  else if c =? NL then [Echoed NL]
  else if c =? BS then [Echoed BS; Echoed SPACE; Echoed BS]
  else if (32 <=? c) && (c <? 127) then [Echoed c]
  else if c <? 32 then [Echoed 94; Echoed (i8 (c + 64))]
  else [].

Definition push_ready (c : Z) (d : LineDiscipline) : LineDiscipline :=
  let next := (m_ready_head d + 1) mod READY_BUFFER_SIZE in
  if next =? m_ready_tail d then d
  else set_ready (zset (m_ready d) (m_ready_head d) c) next (m_ready_tail d) d.

Definition commit_line (d : LineDiscipline) : LineDiscipline * list LdEffect :=
  let d := for_up (Z.to_nat (m_line_length d)) 0
             (fun i d => push_ready (zget 0 (m_line d) i) d) d in
  (set_line (m_line d) 0 d, [WakeReaders]).

Definition signal_foreground_group (sig : Z) (d : LineDiscipline) : list LdEffect :=
  if m_foreground_group d =? 0 then [] else [SignalGroup (m_foreground_group d) sig].

(** [while (m_line_length > 0)], [n] being [m_line_length]. *)
Fixpoint kill_loop (n : nat) (d : LineDiscipline) : LineDiscipline * list LdEffect :=
  match n with
  | O => (d, [])
  | S n' =>
      let d := set_line (m_line d) (m_line_length d - 1) d in
      let e := LineDiscipline_echo BS d in
      let '(d, e') := kill_loop n' d in (d, e ++ e')
  end.

Definition feed_signal (c : Z) (d : LineDiscipline) : Z :=
  if flag (c_lflag (m_termios d)) ISIG then
    if c =? i8 (cc d VINTR) then SIGINT
    else if c =? i8 (cc d VQUIT) then SIGQUIT
    else if c =? i8 (cc d VSUSP) then SIGTSTP
    else 0
  else 0.

Definition feed_canonical (c : Z) (d : LineDiscipline) : LineDiscipline * list LdEffect :=
  if (c =? i8 (cc d VERASE)) || (c =? 127) then
    if m_line_length d >? 0 then
      let d := set_line (m_line d) (m_line_length d - 1) d in
      (d, LineDiscipline_echo BS d)
    else (d, [])
  else if c =? i8 (cc d VKILL) then kill_loop (Z.to_nat (m_line_length d)) d
  else if c =? i8 (cc d VEOF) then
    let d := if m_line_length d =? 0 then set_saw_eof true d else d in
    commit_line d
  else if c =? NL then
    let e := LineDiscipline_echo NL d in
    let d := if m_line_length d <? LINE_BUFFER_SIZE
             then set_line (zset (m_line d) (m_line_length d) NL) (m_line_length d + 1) d
             else d in
    let '(d, e') := commit_line d in (d, e ++ e')
  else if m_line_length d + 1 <? LINE_BUFFER_SIZE then
    let d := set_line (zset (m_line d) (m_line_length d) c) (m_line_length d + 1) d in
    (d, LineDiscipline_echo c d)
  else (d, []).

Definition LineDiscipline_feed (c : Z) (d : LineDiscipline) : LineDiscipline * list LdEffect :=
  let c := if flag (c_iflag (m_termios d)) ICRNL && (c =? CR) then NL else c in
  let generated := feed_signal c d in
  if negb (generated =? 0) then
    let e := LineDiscipline_echo c d ++ LineDiscipline_echo NL d in
    let d := set_line (m_line d) 0 d in
    (d, e ++ signal_foreground_group generated d ++ [WakeReaders])
  else if negb (flag (c_lflag (m_termios d)) ICANON) then
    let d := push_ready c d in
    (d, LineDiscipline_echo c d ++ [WakeReaders])
  else feed_canonical c d.

Fixpoint feed_all (cs : list Z) (d : LineDiscipline) : LineDiscipline * list LdEffect :=
  match cs with
  | [] => (d, [])
  | c :: cs' =>
      let '(d, e) := LineDiscipline_feed c d in
      let '(d, e') := feed_all cs' d in (d, e ++ e')
  end.

(** ** Output to the reader *)

Definition has_input (d : LineDiscipline) : bool :=
  negb (m_ready_head d =? m_ready_tail d) || m_saw_eof d || m_hung_up d.

Fixpoint drain_loop (n : nat) (d : LineDiscipline) : list Z * LineDiscipline :=
  match n with
  | O => ([], d)
  | S n' =>
      if negb (m_ready_head d =? m_ready_tail d) then
        let c := zget 0 (m_ready d) (m_ready_tail d) in
        let '(out, d') := drain_loop n'
          (set_ready (m_ready d) (m_ready_head d) ((m_ready_tail d + 1) mod READY_BUFFER_SIZE) d) in
        (c :: out, d')
      else ([], d)
  end.

(** From the [while (m_ready_head == m_ready_tail)] on. *)
Definition read_wait (length : Z) (d : LineDiscipline)
    : LineDiscipline * list LdEffect * Blocking unit (list Z) :=
  if m_ready_head d =? m_ready_tail d then
    if m_saw_eof d then (set_saw_eof false d, [], Done (Ok []))
    else if m_hung_up d then (d, [], Done (Ok []))
    else (d, [], WaitOn tt)
  else let '(out, d) := drain_loop (Z.to_nat length) d in (d, [], Done (Ok out)).

(** After [m_readers.wait()]. *)
Definition LineDiscipline_read_resume (pending : bool) (length : Z) (d : LineDiscipline)
    : LineDiscipline * list LdEffect * Blocking unit (list Z) :=
  if pending then (d, [], Done (Err EINTR)) else read_wait length d.

(** [reader] is the process group of [Process::current()], if there is one;
    [group_exists] is [Process::group_exists]. *)
Definition LineDiscipline_read (reader : option Z) (group_exists : Z -> bool) (length : Z)
    (d : LineDiscipline) : LineDiscipline * list LdEffect * Blocking unit (list Z) :=
  if length =? 0 then (d, [], Done (Ok []))
  else
    let d := if negb (m_foreground_group d =? 0) && negb (group_exists (m_foreground_group d))
             then set_foreground_group 0 d else d in
    let d := match reader with
             | Some pgid => if m_adopts_readers d && (m_foreground_group d =? 0)
                            then set_foreground_group pgid d else d
             | None => d
             end in
    let background :=
      match reader with
      | Some pgid => negb (m_foreground_group d =? 0) && negb (pgid =? m_foreground_group d)
      | None => false
      end in
    if background then (d, [RaiseReader SIGTTIN], Done (Err EINTR))
    else read_wait length d.

(** ** What a terminal promises

    The line being edited, the bytes a reader may have, and whether an end of
    input is pending. *)

Record TtyView := mkView { v_line : list Z; v_ready : list Z; v_eof : bool }.

Definition ld_line (d : LineDiscipline) : list Z := take (Z.to_nat (m_line_length d)) (m_line d).
Definition ld_ready (d : LineDiscipline) : list Z :=
  ring_contents 0 READY_BUFFER_SIZE (m_ready d) (m_ready_head d) (m_ready_tail d).
Definition ld_view (d : LineDiscipline) : TtyView :=
  mkView (ld_line d) (ld_ready d) (m_saw_eof d).

(** Everything but the two buffers and the end-of-input flag. *)
Definition ld_config (d : LineDiscipline) : LineDiscipline :=
  set_saw_eof false (set_ready [] 0 0 (set_line [] 0 d)).

Record ld_wf (d : LineDiscipline) : Prop := {
  wf_line : zlen (m_line d) = LINE_BUFFER_SIZE;
  wf_length : 0 <= m_line_length d < LINE_BUFFER_SIZE;
  wf_ready : ring_wf READY_BUFFER_SIZE (m_ready d) (m_ready_head d) (m_ready_tail d);
}.

(** The longest line before its newline, and the most that can wait to be read. *)
Definition LINE_MAX : nat := 1023.
Definition READY_MAX : nat := 4095.

Inductive Key :=
| KeySignal (sig : Z) | KeyRaw (c : Z) | KeyErase | KeyKill | KeyEof | KeyNewline
| KeyChar (c : Z).

(** What a byte means to a terminal in its current modes. *)
Definition classify (d : LineDiscipline) (c : Z) : Key :=
  let c := if flag (c_iflag (m_termios d)) ICRNL && (c =? CR) then NL else c in
  if negb (feed_signal c d =? 0) then KeySignal (feed_signal c d)
  else if negb (flag (c_lflag (m_termios d)) ICANON) then KeyRaw c
  else if (c =? i8 (cc d VERASE)) || (c =? 127) then KeyErase
  else if c =? i8 (cc d VKILL) then KeyKill
  else if c =? i8 (cc d VEOF) then KeyEof
  else if c =? NL then KeyNewline
  else KeyChar c.

Definition deliver (ready l : list Z) : list Z := take READY_MAX (ready ++ l).

Definition spec_key (k : Key) (v : TtyView) : TtyView :=
  let '(mkView line ready eof) := v in
  match k with
  | KeySignal _ => mkView [] ready eof
  | KeyRaw c => mkView line (deliver ready [c]) eof
  | KeyErase => mkView (take (length line - 1) line) ready eof
  | KeyKill => mkView [] ready eof
  | KeyEof => mkView [] (deliver ready line) (match line with [] => true | _ => eof end)
  | KeyNewline => mkView [] (deliver ready (line ++ [NL])) eof
  | KeyChar c => mkView (take LINE_MAX (line ++ [c])) ready eof
  end.

Definition spec_tty_read (length : Z) (hung_up : bool) (v : TtyView)
    : TtyView * Blocking unit (list Z) :=
  let '(mkView line ready eof) := v in
  match ready with
  | [] => if eof then (mkView line [] false, Done (Ok []))
          else if hung_up then (v, Done (Ok []))
          else (v, WaitOn tt)
  | _ => (mkView line (drop (Z.to_nat length) ready) eof,
          Done (Ok (take (Z.to_nat length) ready)))
  end.

(** ** Lemmas *)

Arguments LineDiscipline_feed : simpl never.
Arguments commit_line : simpl never.
Arguments push_ready : simpl never.

Lemma ready_size_gt : 1 < READY_BUFFER_SIZE.
Proof. done. Qed.

#[local] Hint Resolve ready_size_gt : core.

Lemma length_ld_ready d : ld_wf d -> (length (ld_ready d) <= READY_MAX)%nat.
Proof.
  intros [_ _ (_ & Hh & Ht)].
  pose proof (zlen_ring_contents 0 READY_BUFFER_SIZE ready_size_gt (m_ready d) _ _ Hh Ht) as Hl.
  pose proof (ring_used_range READY_BUFFER_SIZE ready_size_gt _ _ Hh Ht) as Hr.
  unfold ld_ready, zlen, READY_MAX in *. unfold READY_BUFFER_SIZE, LINE_BUFFER_SIZE in *. lia.
Qed.

Lemma length_ld_line d : ld_wf d -> length (ld_line d) = Z.to_nat (m_line_length d).
Proof.
  intros [Hl Hn _]. unfold ld_line. rewrite length_take. unfold zlen in Hl.
  unfold LINE_BUFFER_SIZE in *. lia.
Qed.

Lemma ready_empty d : ld_wf d -> (m_ready_head d =? m_ready_tail d) = true <-> ld_ready d = [].
Proof.
  intros [_ _ (_ & Hh & Ht)]. rewrite Z.eqb_eq.
  apply (ring_empty 0 READY_BUFFER_SIZE ready_size_gt); done.
Qed.

(** The ring part of a push: the newest byte is dropped when it is full. *)
Lemma push_ready_spec c d :
  ring_wf READY_BUFFER_SIZE (m_ready d) (m_ready_head d) (m_ready_tail d) ->
  (length (ld_ready d) <= READY_MAX)%nat ->
  let d' := push_ready c d in
  ring_wf READY_BUFFER_SIZE (m_ready d') (m_ready_head d') (m_ready_tail d')
  /\ ld_ready d' = deliver (ld_ready d) [c]
  /\ set_ready [] 0 0 d' = set_ready [] 0 0 d.
Proof.
  intros Hwf Hlen. pose proof Hwf as (_ & Hh & Ht). unfold push_ready.
  pose proof (zlen_ring_contents 0 READY_BUFFER_SIZE ready_size_gt (m_ready d) _ _ Hh Ht) as Hl.
  fold (ld_ready d) in Hl.
  pose proof (ring_full READY_BUFFER_SIZE ready_size_gt _ _ Hh Ht) as Hfull.
  destruct (Z.eqb_spec ((m_ready_head d + 1) mod READY_BUFFER_SIZE) (m_ready_tail d)) as [He|He].
  - split_and!; [done| |done]. apply Hfull in He. unfold deliver.
    rewrite take_app_le; [by rewrite take_ge by (unfold zlen in Hl; unfold READY_MAX,
      READY_BUFFER_SIZE, LINE_BUFFER_SIZE in *; lia)|].
    unfold zlen in Hl. unfold READY_MAX, READY_BUFFER_SIZE, LINE_BUFFER_SIZE in *. lia.
  - split_and!; [by apply ring_wf_push| |done].
    unfold ld_ready at 1. cbn [m_ready m_ready_head m_ready_tail set_ready].
    rewrite ring_push by done. fold (ld_ready d). unfold deliver. rewrite take_ge; [done|].
    rewrite length_app. cbn [length]. rewrite Hfull in He.
    pose proof (ring_used_range READY_BUFFER_SIZE ready_size_gt _ _ Hh Ht) as Hr.
    unfold zlen in Hl. unfold READY_MAX, READY_BUFFER_SIZE, LINE_BUFFER_SIZE in *. lia.
Qed.

Lemma deliver_app r a b : deliver (deliver r a) b = deliver r (a ++ b).
Proof.
  unfold deliver. rewrite app_assoc. set (l := r ++ a).
  destruct (decide (length l <= READY_MAX)%nat).
  - by rewrite (take_ge l).
  - rewrite take_app_le by (rewrite length_take; lia).
    rewrite take_take, Nat.min_id. by rewrite take_app_le by lia.
Qed.

Lemma length_deliver r l : (length (deliver r l) <= READY_MAX)%nat.
Proof. unfold deliver. rewrite length_take. lia. Qed.

Lemma deliver_nil r : (length r <= READY_MAX)%nat -> deliver r [] = r.
Proof. intros. unfold deliver. by rewrite app_nil_r, take_ge. Qed.

Lemma take_S_zget (l : list Z) k : 0 <= k < zlen l ->
  take (Z.to_nat (k + 1)) l = take (Z.to_nat k) l ++ [zget 0 l k].
Proof.
  intros Hk. rewrite Z2Nat.inj_add by lia. rewrite Nat.add_1_r.
  apply take_S_r. by apply zget_lookup.
Qed.

Lemma set_ready_line d d' : set_ready [] 0 0 d' = set_ready [] 0 0 d -> m_line d' = m_line d.
Proof. unfold set_ready. intros [=]. done. Qed.

(** Committing moves the first [m_line_length] bytes behind what is ready. *)
Lemma commit_line_spec d :
  zlen (m_line d) = LINE_BUFFER_SIZE -> 0 <= m_line_length d <= LINE_BUFFER_SIZE ->
  ring_wf READY_BUFFER_SIZE (m_ready d) (m_ready_head d) (m_ready_tail d) ->
  (length (ld_ready d) <= READY_MAX)%nat ->
  let d' := fst (commit_line d) in
  ld_wf d' /\ ld_ready d' = deliver (ld_ready d) (ld_line d) /\ ld_line d' = []
  /\ m_saw_eof d' = m_saw_eof d /\ ld_config d' = ld_config d.
Proof.
  intros Hl Hn Hr Hlen. unfold commit_line. cbn [fst].
  pose proof (for_up_ind (fun k s =>
    ring_wf READY_BUFFER_SIZE (m_ready s) (m_ready_head s) (m_ready_tail s)
    /\ ld_ready s = deliver (ld_ready d) (take (Z.to_nat k) (m_line d))
    /\ set_ready [] 0 0 s = set_ready [] 0 0 d)
    (fun i d => push_ready (zget 0 (m_line d) i) d) (Z.to_nat (m_line_length d)) 0 d) as H.
  destruct H as (Hr' & Hready & Hsame).
  - rewrite take_0, deliver_nil by done. done.
  - intros k s Hk (Hs & Hd & He).
    destruct (push_ready_spec (zget 0 (m_line s) k) s) as (H1 & H2 & H3); [done| |].
    { rewrite Hd. apply length_deliver. }
    split_and!; [done| |congruence]. rewrite H2, Hd, deliver_app.
    rewrite take_S_zget by (rewrite Hl; lia). by rewrite (set_ready_line _ _ He).
  - rewrite Z.add_0_l, Z2Nat.id in Hready by lia.
    set (s := for_up _ _ _ _) in *. pose proof (set_ready_line _ _ Hsame) as Hline.
    split_and!.
    + split; cbn; [by rewrite Hline|done|done].
    + exact Hready.
    + done.
    + unfold set_ready in Hsame. by injection Hsame.
    + unfold set_ready in Hsame. injection Hsame. unfold ld_config, set_saw_eof, set_ready,
        set_line. cbn. congruence.
Qed.

Lemma kill_loop_spec n : forall d, m_line_length d = Z.of_nat n ->
  fst (kill_loop n d) = set_line (m_line d) 0 d.
Proof.
  induction n as [|n IH]; intros d Hn; cbn [kill_loop].
  - destruct d; cbn in *. by subst.
  - specialize (IH (set_line (m_line d) (m_line_length d - 1) d)).
    destruct (kill_loop n _) as [d' e]. cbn [fst] in *. rewrite IH; [done|]. cbn. lia.
Qed.

(** The line after one byte is stored at its end. *)
Lemma line_snoc (l : list Z) n c : 0 <= n < zlen l ->
  take (Z.to_nat (n + 1)) (zset l n c) = take (Z.to_nat n) l ++ [c].
Proof.
  intros Hn. rewrite take_S_zget by (by rewrite zlen_zset).
  rewrite zget_zset_eq by done. f_equal. unfold zset. by rewrite take_insert_ge by done.
Qed.

(** What one byte leaves behind: the specification's view, the same modes. *)
Definition fed (d d' : LineDiscipline) (k : Key) : Prop :=
  ld_wf d' /\ ld_view d' = spec_key k (ld_view d) /\ ld_config d' = ld_config d.

Lemma fed_erase d : ld_wf d -> m_line_length d > 0 ->
  fed d (set_line (m_line d) (m_line_length d - 1) d) KeyErase.
Proof.
  intros Hwf Hn. pose proof Hwf as [Hl Hr Hring]. split_and!; [split; cbn; done || lia| |done].
  unfold ld_view. cbn [spec_key]. rewrite length_ld_line by done. unfold ld_line. cbn. f_equal.
  rewrite take_take. f_equal. lia.
Qed.

Lemma fed_empty_line k d : ld_wf d ->
  spec_key k (ld_view d) = mkView [] (ld_ready d) (m_saw_eof d) ->
  fed d (set_line (m_line d) 0 d) k.
Proof.
  intros [Hl Hr Hring] Hk. split_and!; [split; cbn; done|by rewrite Hk|done].
Qed.

Lemma fed_eof d : ld_wf d ->
  fed d (fst (commit_line (if m_line_length d =? 0 then set_saw_eof true d else d))) KeyEof.
Proof.
  intros Hwf. pose proof Hwf as [Hl Hr Hring]. pose proof (length_ld_line d Hwf) as Hlen.
  pose proof (length_ld_ready d Hwf).
  unfold fed, ld_view. cbn [spec_key].
  destruct (Z.eqb_spec (m_line_length d) 0) as [H0|H0].
  - destruct (commit_line_spec (set_saw_eof true d)) as (Hw & H1 & H2 & H3 & H4);
      [done|cbn; lia|done|done|].
    split_and!; [done| |exact H4]. rewrite H1, H2, H3. rewrite H0 in Hlen.
    change (ld_line (set_saw_eof true d)) with (ld_line d).
    destruct (ld_line d); [done|cbn in Hlen; lia].
  - destruct (commit_line_spec d) as (Hw & H1 & H2 & H3 & H4); [done|lia|done|done|].
    split_and!; [done| |exact H4]. rewrite H1, H2, H3.
    destruct (ld_line d); [cbn in Hlen; lia|done].
Qed.

Lemma fed_newline d : ld_wf d ->
  fed d (fst (commit_line (set_line (zset (m_line d) (m_line_length d) NL)
                             (m_line_length d + 1) d))) KeyNewline.
Proof.
  intros Hwf. pose proof Hwf as [Hl Hr Hring]. pose proof (length_ld_ready d Hwf).
  unfold fed, ld_view. cbn [spec_key].
  destruct (commit_line_spec (set_line (zset (m_line d) (m_line_length d) NL)
    (m_line_length d + 1) d)) as (Hw & H1 & H2 & H3 & H4);
    [cbn; by rewrite zlen_zset|cbn; lia|done|done|].
  split_and!; [done| |exact H4]. rewrite H1, H2, H3. f_equal. f_equal.
  unfold ld_line. cbn. apply line_snoc. lia.
Qed.

Lemma fed_char c d : ld_wf d ->
  fed d (if m_line_length d + 1 <? LINE_BUFFER_SIZE
         then set_line (zset (m_line d) (m_line_length d) c) (m_line_length d + 1) d
         else d) (KeyChar c).
Proof.
  intros Hwf. pose proof Hwf as [Hl Hr Hring]. pose proof (length_ld_line d Hwf) as Hlen.
  unfold LINE_BUFFER_SIZE in *.
  destruct (Z.ltb_spec (m_line_length d + 1) 1024) as [Hroom|Hfull]; unfold fed.
  - split_and!; [split; cbn; rewrite ?zlen_zset; done || (unfold LINE_BUFFER_SIZE; lia)| |done].
    unfold ld_view, ld_line. cbn [spec_key m_line m_line_length set_line m_saw_eof].
    rewrite line_snoc by lia. f_equal. symmetry. apply take_ge. rewrite length_app.
    unfold ld_line in Hlen. cbn [length]. unfold LINE_MAX. lia.
  - split_and!; [done| |done]. unfold ld_view. cbn [spec_key]. f_equal.
    rewrite take_app_le by (unfold LINE_MAX; lia). symmetry. apply take_ge.
    unfold LINE_MAX. lia.
Qed.

Lemma feed_spec c d : ld_wf d -> fed d (fst (LineDiscipline_feed c d)) (classify d c).
Proof.
  intros Hwf. unfold LineDiscipline_feed, classify.
  set (c' := if flag _ ICRNL && _ then NL else c). clearbody c'. clear c.
  destruct (negb (feed_signal c' d =? 0)).
  { by apply fed_empty_line. }
  destruct (negb (flag (c_lflag (m_termios d)) ICANON)).
  { pose proof Hwf as [Hl Hr Hring]. pose proof (length_ld_ready d Hwf).
    destruct (push_ready_spec c' d Hring) as (H1 & H2 & H3); [done|].
    unfold set_ready in H3. injection H3. intros. cbn [fst]. unfold fed, ld_view. cbn [spec_key].
    split_and!; [split; congruence| |].
    - rewrite H2. unfold ld_line. congruence.
    - unfold ld_config, set_saw_eof, set_ready, set_line. cbn. congruence. }
  unfold feed_canonical. destruct (_ || _).
  { destruct (m_line_length d >? 0) eqn:Hn.
    - apply fed_erase; [done|lia].
    - split_and!; [done| |done]. unfold ld_view. cbn [spec_key fst]. f_equal.
      pose proof (wf_length d Hwf). pose proof (length_ld_line d Hwf).
      destruct (ld_line d); [done|cbn in *; lia]. }
  destruct (c' =? i8 (cc d VKILL)).
  { pose proof (wf_length d Hwf). rewrite kill_loop_spec by lia. by apply fed_empty_line. }
  destruct (c' =? i8 (cc d VEOF)); [by apply fed_eof|].
  destruct (c' =? NL).
  { pose proof (wf_length d Hwf). rewrite (proj2 (Z.ltb_lt _ _)) by lia.
    pose proof (fed_newline d Hwf). by destruct (commit_line _). }
  pose proof (fed_char c' d Hwf) as Hc. by destruct (_ <? _).
Qed.

Lemma drain_loop_spec n : forall d, ld_wf d ->
  let '(out, d') := drain_loop n d in
  out = take n (ld_ready d) /\ ld_ready d' = drop n (ld_ready d) /\ ld_wf d'
  /\ ld_line d' = ld_line d /\ m_saw_eof d' = m_saw_eof d /\ ld_config d' = ld_config d.
Proof.
  induction n as [|n IH]; intros d Hwf; cbn [drain_loop]; [done|].
  destruct (m_ready_head d =? m_ready_tail d) eqn:He; cbn [negb].
  - apply ready_empty in He; [|done]. by rewrite He, take_nil, drop_nil.
  - pose proof Hwf as [Hl Hn Hr]. apply Z.eqb_neq in He.
    pose proof (ring_pop 0 READY_BUFFER_SIZE ready_size_gt _ _ _ Hr He) as Hp.
    pose proof (ring_wf_pop READY_BUFFER_SIZE ready_size_gt _ _ _ Hr) as Hr'.
    specialize (IH (set_ready (m_ready d) (m_ready_head d)
      ((m_ready_tail d + 1) mod READY_BUFFER_SIZE) d)).
    destruct (drain_loop n _) as [out d'].
    destruct IH as (-> & H2 & H3 & H4 & H5 & H6); [by split|].
    fold (ld_ready d) in Hp. rewrite Hp. by split_and!.
Qed.

Lemma read_wait_spec len d : ld_wf d ->
  let '(d', e, b) := read_wait len d in
  ld_wf d' /\ ld_config d' = ld_config d /\ e = []
  /\ (ld_view d', b) = spec_tty_read len (m_hung_up d) (ld_view d).
Proof.
  intros Hwf. unfold read_wait, spec_tty_read, ld_view. cbv zeta iota.
  destruct (m_ready_head d =? m_ready_tail d) eqn:He.
  - apply ready_empty in He; [|done]. rewrite He.
    destruct (m_saw_eof d) eqn:Hs; [|destruct (m_hung_up d)];
      split_and!; try done; try (destruct Hwf; by split); cbn; rewrite ?He, ?Hs; [|done..].
    change (ld_ready (set_saw_eof false d)) with (ld_ready d). by rewrite He.
  - pose proof (drain_loop_spec (Z.to_nat len) d Hwf) as Hd.
    destruct (drain_loop _ d) as [out d']. destruct Hd as (-> & H2 & H3 & H4 & H5 & H6).
    split_and!; [done..|]. rewrite H2, H4, H5.
    destruct (ld_ready d) eqn:Hr; [|done]. apply ready_empty in Hr; [congruence|done].
Qed.

Lemma classify_config d d' c : ld_config d' = ld_config d -> classify d' c = classify d c.
Proof.
  intros H. unfold ld_config, set_saw_eof, set_ready, set_line in H. cbn in H.
  injection H. intros _ _ _ _ Ht _.
  unfold classify, feed_signal, cc. by rewrite Ht.
Qed.

Lemma feed_all_spec cs : forall d, ld_wf d ->
  let d' := fst (feed_all cs d) in
  ld_wf d' /\ ld_config d' = ld_config d
  /\ ld_view d' = foldl (fun v c => spec_key (classify d c) v) (ld_view d) cs.
Proof.
  induction cs as [|c cs IH]; intros d Hwf; cbn [feed_all]; [done|].
  pose proof (feed_spec c d Hwf) as (Hw & Hv & Hc).
  destruct (LineDiscipline_feed c d) as [d1 e1]. cbn [fst] in *.
  specialize (IH d1 Hw). destruct (feed_all cs d1) as [d2 e2]. cbn [fst] in *.
  destruct IH as (Hw2 & Hc2 & Hv2). split_and!; [done|congruence|].
  rewrite Hv2, Hv. cbn [foldl]. clear -Hc. generalize (spec_key (classify d c) (ld_view d)).
  induction cs as [|x cs IH]; intros v; cbn [foldl]; [done|].
  rewrite (classify_config d d1) by done. apply IH.
Qed.

Lemma fold_chars d cs : forall v, Forall (fun c => classify d c = KeyChar c) cs ->
  (length (v_line v) <= LINE_MAX)%nat ->
  foldl (fun v c => spec_key (classify d c) v) v cs
  = mkView (take LINE_MAX (v_line v ++ cs)) (v_ready v) (v_eof v).
Proof.
  induction cs as [|c cs IH]; intros [line ready eof] Hcs Hlen;
    cbn [foldl v_line v_ready v_eof] in *.
  - by rewrite app_nil_r, take_ge.
  - apply Forall_cons_1 in Hcs as [Hc Hcs]. rewrite Hc, IH; [|done|].
    + cbn [spec_key v_line v_ready v_eof]. f_equal. change (c :: cs) with ([c] ++ cs). rewrite app_assoc.
      generalize (line ++ [c]). intros l. destruct (decide (length l <= LINE_MAX)%nat).
      * by rewrite (take_ge l).
      * rewrite !take_app_le by (rewrite ?length_take; lia). by rewrite take_take, Nat.min_id.
    + cbn [spec_key v_line]. rewrite length_take. lia.
Qed.

Lemma fold_erases d cs : forall v, Forall (fun c => classify d c = KeyErase) cs ->
  foldl (fun v c => spec_key (classify d c) v) v cs
  = mkView (take (length (v_line v) - length cs) (v_line v)) (v_ready v) (v_eof v).
Proof.
  induction cs as [|c cs IH]; intros [line ready eof] Hcs; cbn [foldl length v_line v_ready v_eof].
  - by rewrite Nat.sub_0_r, take_ge.
  - apply Forall_cons_1 in Hcs as [Hc Hcs]. rewrite Hc, IH by done. cbn. f_equal.
    rewrite take_take, length_take. f_equal. lia.
Qed.

(** The group a read leaves in charge of the terminal. *)
Definition read_owner (reader : option Z) (group_exists : Z -> bool) (d : LineDiscipline) : Z :=
  let g := if group_exists (m_foreground_group d) then m_foreground_group d else 0 in
  match reader with
  | Some pgid => if m_adopts_readers d && (g =? 0) then pgid else g
  | None => g
  end.

Definition read_in_background (reader : option Z) (owner : Z) : bool :=
  match reader with
  | Some pgid => negb (owner =? 0) && negb (pgid =? owner)
  | None => false
  end.

Lemma read_spec reader group_exists len d : len <> 0 ->
  let owner := read_owner reader group_exists d in
  LineDiscipline_read reader group_exists len d
  = if read_in_background reader owner
    then (set_foreground_group owner d, [RaiseReader SIGTTIN], Done (Err EINTR))
    else read_wait len (set_foreground_group owner d).
Proof.
  intros Hlen. unfold LineDiscipline_read. rewrite (proj2 (Z.eqb_neq len 0)) by done.
  set (d1 := if negb (m_foreground_group d =? 0) && _ then _ else d).
  assert (Hd1 : d1 = set_foreground_group
    (if group_exists (m_foreground_group d) then m_foreground_group d else 0) d).
  { subst d1. destruct (Z.eqb_spec (m_foreground_group d) 0) as [H0|H0];
      destruct (group_exists _); destruct d; cbn in *; by subst. }
  rewrite Hd1. clear d1 Hd1. unfold read_owner, read_in_background.
  set (g := if group_exists _ then _ else 0). clearbody g.
  destruct reader as [pgid|]; cbn; [|done].
  by destruct (m_adopts_readers d && (g =? 0)).
Qed.

Lemma ld_wf_owner g d : ld_wf d -> ld_wf (set_foreground_group g d).
Proof. intros []. by split. Qed.

(** ** The theorems *)

(** The console as [configure] leaves it, and a typed sample. *)
Definition demo_tty : LineDiscipline :=
  set_foreground_group 7 (LineDiscipline_configure true LineDiscipline_new).
Definition demo_keys : list Z := [108; 115; 32; 45; 108].

Lemma demo_tty_wf : ld_wf demo_tty.
Proof. split; [by vm_compute..|]. split_and!; by vm_compute. Qed.

(** C20: whatever bytes are fed to a terminal, in whatever modes, its indices stay
    inside its buffers and its contents are those of the abstract terminal: the
    edited line, the completed input in order, the end-of-input flag. *)
Theorem feed_refines (cs : list Z) d : ld_wf d ->
  let d' := fst (feed_all cs d) in
  ld_wf d' /\ ld_view d' = foldl (fun v c => spec_key (classify d c) v) (ld_view d) cs.
Proof. intros Hwf. by destruct (feed_all_spec cs d Hwf) as (? & _ & ?). Qed.

Lemma feed_refines_witness :
  ld_wf (fst (feed_all (demo_keys ++ [127; CR]) demo_tty))
  /\ ld_view (fst (feed_all (demo_keys ++ [127; CR]) demo_tty))
     = mkView [] [108; 115; 32; 45; 10] false.
Proof.
  destruct (feed_refines (demo_keys ++ [127; CR]) demo_tty demo_tty_wf) as [H1 H2].
  split; [exact H1|]. etransitivity; [exact H2|]. vm_compute. reflexivity.
Defined.

(** a line typed at a canonical terminal with nothing waiting, ended by
    newline, is what the next read of the foreground group returns: the whole
    line and its newline, or its first 1023 characters and the newline. *)
Theorem typed_line_is_read (cs : list Z) nl d group_exists pgid len :
  ld_wf d -> ld_view d = mkView [] [] false ->
  Forall (fun c => classify d c = KeyChar c) cs -> classify d nl = KeyNewline ->
  pgid = m_foreground_group d -> group_exists pgid = true -> pgid <> 0 ->
  LINE_BUFFER_SIZE <= len ->
  let d' := fst (feed_all (cs ++ [nl]) d) in
  snd (LineDiscipline_read (Some pgid) group_exists len d')
  = Done (Ok (take LINE_MAX cs ++ [NL])).
Proof.
  intros Hwf Hempty Hcs Hnl -> Hg Hne Hlen d'.
  destruct (feed_all_spec (cs ++ [nl]) d Hwf) as (Hw & Hc & Hv). fold d' in Hw, Hc, Hv.
  rewrite Hempty, foldl_app, (fold_chars d cs) in Hv by first [done | unfold LINE_MAX in *; cbn [length v_line ld_view] in *; lia].
  cbn [foldl] in Hv. rewrite Hnl in Hv. cbn [spec_key v_line v_ready v_eof app] in Hv.
  assert (Hd : deliver [] (take LINE_MAX cs ++ [NL]) = take LINE_MAX cs ++ [NL]).
  { unfold deliver. apply take_ge. cbn [app]. rewrite length_app, length_take.
    unfold LINE_MAX, READY_MAX. cbn [length]. lia. }
  rewrite Hd in Hv.
  assert (Hfg : m_foreground_group d' = m_foreground_group d) by (by injection Hc).
  rewrite read_spec by (unfold LINE_BUFFER_SIZE in Hlen; lia).
  unfold read_owner, read_in_background. rewrite Hfg, Hg.
  rewrite (proj2 (Z.eqb_neq _ 0) Hne), andb_false_r.
  rewrite (proj2 (Z.eqb_neq _ 0) Hne), Z.eqb_refl. cbn [negb andb].
  pose proof (read_wait_spec len (set_foreground_group (m_foreground_group d) d')
    (ld_wf_owner _ _ Hw)) as Hr.
  destruct (read_wait _ _) as [[d2 e] b]. destruct Hr as (_ & _ & _ & Hb).
  change (ld_view (set_foreground_group _ d')) with (ld_view d') in Hb. rewrite Hv in Hb.
  unfold spec_tty_read in Hb. destruct (take LINE_MAX cs ++ [NL]) eqn:Hl.
  { by apply app_eq_nil in Hl as [_ ?]. }
  apply (f_equal snd) in Hb. cbn [snd] in *. rewrite Hb, <- Hl. do 2 f_equal. apply take_ge.
  rewrite length_app, length_take. unfold LINE_MAX, LINE_BUFFER_SIZE in *. cbn [length]. lia.
Qed.

Lemma typed_line_is_read_witness :
  snd (LineDiscipline_read (Some 7) (fun g => g =? 7) 1024
         (fst (feed_all (demo_keys ++ [CR]) demo_tty)))
  = Done (Ok (demo_keys ++ [NL])).
Proof.
  apply (typed_line_is_read demo_keys CR demo_tty (fun g => g =? 7) 7 1024).
  - exact demo_tty_wf.
  - vm_compute. reflexivity.
  - repeat constructor.
  - vm_compute. reflexivity.
  - reflexivity.
  - reflexivity.
  - lia.
  - unfold LINE_BUFFER_SIZE. lia.
Defined.

(** erasing undoes typing: any characters that fit on the line, followed by
    as many erase keys, leave the terminal's contents as they were. *)
Theorem erase_undoes_typing (cs es : list Z) d :
  ld_wf d -> Forall (fun c => classify d c = KeyChar c) cs ->
  Forall (fun c => classify d c = KeyErase) es ->
  length es = length cs -> (length (ld_line d) + length cs <= LINE_MAX)%nat ->
  ld_view (fst (feed_all (cs ++ es) d)) = ld_view d.
Proof.
  intros Hwf Hcs Hes Hlen Hroom.
  destruct (feed_all_spec (cs ++ es) d Hwf) as (_ & _ & Hv).
  rewrite Hv, foldl_app, (fold_chars d cs) by first [done | unfold LINE_MAX in *; cbn [length v_line ld_view] in *; lia]. rewrite fold_erases by done.
  cbn [v_line v_ready v_eof ld_view]. rewrite (take_ge (ld_line d ++ cs)) by
    (rewrite length_app; lia).
  unfold ld_view. f_equal. rewrite length_app, Hlen. apply take_app_length'. lia.
Qed.

Lemma erase_undoes_typing_witness :
  ld_view (fst (feed_all (demo_keys ++ [8; 127; 8; 8; 127]) demo_tty)) = ld_view demo_tty.
Proof.
  apply (erase_undoes_typing demo_keys [8; 127; 8; 8; 127] demo_tty).
  - exact demo_tty_wf.
  - repeat constructor.
  - repeat constructor.
  - reflexivity.
  - vm_compute. lia.
Defined.



(** [has_input], which is all poll looks at, is exactly the condition under
    which a foreground read returns without sleeping. *)
Theorem has_input_agrees reader group_exists len d :
  ld_wf d -> 0 < len ->
  read_in_background reader (read_owner reader group_exists d) = false ->
  has_input d = true <->
  exists r, snd (LineDiscipline_read reader group_exists len d) = Done r.
Proof.
  intros Hwf Hlen Hbg. rewrite read_spec by lia. rewrite Hbg. unfold has_input, read_wait.
  cbn [m_ready_head m_ready_tail m_saw_eof m_hung_up set_foreground_group].
  destruct (m_ready_head d =? m_ready_tail d), (m_saw_eof d), (m_hung_up d);
    try destruct (drain_loop _ _); cbn; split; try done; eauto; by intros [].
Qed.

Lemma has_input_agrees_witness :
  exists r, snd (LineDiscipline_read (Some 7) (fun _ => true) 1
                   (fst (feed_all [4] demo_tty))) = Done r.
Proof.
  apply (has_input_agrees (Some 7) (fun _ => true) 1 (fst (feed_all [4] demo_tty))).
  - apply (feed_all_spec [4] demo_tty demo_tty_wf).
  - lia.
  - vm_compute. reflexivity.
  - vm_compute. reflexivity.
Defined.

(** a signal character throws away the line being typed, keeps what was
    completed, and signals the foreground group, once, if there is one. *)
Theorem signal_key c sig d : ld_wf d -> classify d c = KeySignal sig ->
  let '(d', e) := LineDiscipline_feed c d in
  ld_view d' = mkView [] (ld_ready d) (m_saw_eof d)
  /\ exists echoed, Forall (fun x => exists k, x = Echoed k) echoed
     /\ e = echoed ++ (if m_foreground_group d =? 0 then []
                       else [SignalGroup (m_foreground_group d) sig]) ++ [WakeReaders].
Proof.
  intros Hwf Hc. pose proof (feed_spec c d Hwf) as (_ & Hv & _). rewrite Hc in Hv.
  unfold LineDiscipline_feed, classify in *.
  set (c' := if flag _ ICRNL && _ then NL else c) in *. clearbody c'.
  destruct (negb (feed_signal c' d =? 0)); [|by repeat case_match].
  injection Hc as <-. split; [exact Hv|]. eexists. split; [|reflexivity].
  apply Forall_app. split; unfold LineDiscipline_echo; repeat case_match;
    repeat constructor; eauto.
Qed.

Lemma signal_key_witness :
  classify demo_tty 3 = KeySignal SIGINT
  /\ snd (LineDiscipline_feed 3 (fst (feed_all demo_keys demo_tty)))
     = [Echoed 94; Echoed 67; Echoed NL; SignalGroup 7 SIGINT; WakeReaders]
  /\ ld_view (fst (LineDiscipline_feed 3 (fst (feed_all demo_keys demo_tty))))
     = mkView [] [] false.
Proof.
  split; [vm_compute; reflexivity|]. split; [vm_compute; reflexivity|].
  pose proof (signal_key 3 SIGINT (fst (feed_all demo_keys demo_tty))) as H.
  destruct (LineDiscipline_feed 3 _) as [d' e].
  exact (proj1 (H (proj1 (feed_all_spec demo_keys demo_tty demo_tty_wf)) eq_refl)).
Defined.

(** an end of input does not keep its place: after ^D on an empty line and
    then a typed line, the first read returns the line and the second reports
    the end of input that came before it. *)
Theorem eof_is_overtaken :
  let d := fst (feed_all ([4] ++ demo_keys ++ [NL]) demo_tty) in
  let '(d1, _, b1) := LineDiscipline_read (Some 7) (fun _ => true) 100 d in
  let '(_, _, b2) := LineDiscipline_read (Some 7) (fun _ => true) 100 d1 in
  b1 = Done (Ok (demo_keys ++ [NL])) /\ b2 = Done (Ok []).
Proof. vm_compute. split; reflexivity. Qed.
