(* ===== verification/IntrusiveList.v ===== *)
(** * kernel/lib/intrusive_list.h: the doubly linked list the kernel queues with

    The nodes live in the listed objects; every list over the same member shares
    one store of nodes.  [rep] says which sequence a list stands for, and the
    theorems that [append], [prepend], [remove], [take_first] and a range-for
    that removes as it goes are the sequence operations, leaving other lists
    alone.  The scheduler and the process table are modelled over sequences on
    the strength of them. *)

From S2P Require Import Prelude.

Record ListNode := mkNode {
  previous : option Z;
  next : option Z;
  linked : bool;
}.

Definition unlinked : ListNode := mkNode None None false.

(** The member [ListNode] of every object, by the object's address. *)
Abbreviation Nodes := (gmap Z ListNode).

Definition node (ns : Nodes) (x : Z) : ListNode := default unlinked (ns !! x).

Definition set_next (x : Z) (n : option Z) (ns : Nodes) : Nodes :=
  <[x := mkNode (previous (node ns x)) n (linked (node ns x))]> ns.
Definition set_previous (x : Z) (p : option Z) (ns : Nodes) : Nodes :=
  <[x := mkNode p (next (node ns x)) (linked (node ns x))]> ns.
Definition set_linked (x : Z) (b : bool) (ns : Nodes) : Nodes :=
  <[x := mkNode (previous (node ns x)) (next (node ns x)) b]> ns.

Record IntrusiveList := mkList {
  m_head : option Z;
  m_tail : option Z;
  m_size : Z;
}.

Definition list_new : IntrusiveList := mkList None None 0.

Definition list_is_empty (l : IntrusiveList) : bool :=
  match m_head l with None => true | Some _ => false end.

Definition list_append (item : Z) (s : Nodes * IntrusiveList) : Nodes * IntrusiveList :=
  let '(ns, l) := s in
  if linked (node ns item) then s
  else
    let ns := set_previous item (m_tail l) ns in
    let ns := set_next item None ns in
    let '(ns, head) :=
      match m_tail l with
      | Some t => (set_next t (Some item) ns, m_head l)
      | None => (ns, Some item)
      end in
    let ns := set_linked item true ns in
    (ns, mkList head (Some item) (m_size l + 1)).

Definition list_prepend (item : Z) (s : Nodes * IntrusiveList) : Nodes * IntrusiveList :=
  let '(ns, l) := s in
  if linked (node ns item) then s
  else
    let ns := set_next item (m_head l) ns in
    let ns := set_previous item None ns in
    let '(ns, tail) :=
      match m_head l with
      | Some h => (set_previous h (Some item) ns, m_tail l)
      | None => (ns, Some item)
      end in
    let ns := set_linked item true ns in
    (ns, mkList (Some item) tail (m_size l + 1)).

Definition list_remove (item : Z) (s : Nodes * IntrusiveList) : Nodes * IntrusiveList :=
  let '(ns, l) := s in
  if negb (linked (node ns item)) then s
  else
    let '(ns, head) :=
      match previous (node ns item) with
      | Some p => (set_next p (next (node ns item)) ns, m_head l)
      | None => (ns, next (node ns item))
      end in
    let '(ns, tail) :=
      match next (node ns item) with
      | Some n => (set_previous n (previous (node ns item)) ns, m_tail l)
      | None => (ns, previous (node ns item))
      end in
    let ns := set_previous item None ns in
    let ns := set_next item None ns in
    let ns := set_linked item false ns in
    (ns, mkList head tail (m_size l - 1)).

Definition list_take_first (s : Nodes * IntrusiveList) : option Z * (Nodes * IntrusiveList) :=
  match m_head (snd s) with
  | Some item => (Some item, list_remove item s)
  | None => (None, s)
  end.

(** A range-for over the list whose body may remove the current item: the
    iterator holds the item and the successor it read before the body ran. *)
Fixpoint list_iterate (fuel : nat) (item : option Z) (drop : Z -> bool)
    (s : Nodes * IntrusiveList) : list Z * (Nodes * IntrusiveList) :=
  match fuel, item with
  | S fuel', Some x =>
      let ahead := next (node (fst s) x) in
      let s := if drop x then list_remove x s else s in
      let '(visited, s) := list_iterate fuel' ahead drop s in
      (x :: visited, s)
  | _, _ => ([], s)
  end.

(** ** The sequence a list stands for *)

Definition head_or (xs : list Z) (n : option Z) : option Z :=
  match xs with [] => n | x :: _ => Some x end.
Definition last_or (p : option Z) (xs : list Z) : option Z :=
  match last xs with None => p | Some x => Some x end.

Fixpoint seg (ns : Nodes) (p : option Z) (xs : list Z) (n : option Z) : Prop :=
  match xs with
  | [] => True
  | x :: xs' => node ns x = mkNode p (head_or xs' n) true /\ seg ns (Some x) xs' n
  end.

Record rep (ns : Nodes) (l : IntrusiveList) (xs : list Z) : Prop := {
  rep_seg : seg ns None xs None;
  rep_nodup : NoDup xs;
  rep_head : m_head l = head_or xs None;
  rep_tail : m_tail l = last_or None xs;
  rep_size : m_size l = zlen xs;
}.

(** Nodes outside [xs] are as before: every other list is undisturbed. *)
Definition untouched (ns ns' : Nodes) (xs : list Z) : Prop :=
  forall y, y ∉ xs -> node ns' y = node ns y.

(** ** Lemmas *)

Lemma node_insert_eq ns x n : node (<[x := n]> ns) x = n.
Proof. unfold node. by rewrite lookup_insert_eq. Qed.

Lemma node_insert_ne ns x y n : x <> y -> node (<[x := n]> ns) y = node ns y.
Proof. intros. unfold node. by rewrite lookup_insert_ne. Qed.

Lemma node_set_next ns x n y :
  node (set_next x n ns) y
  = if decide (x = y) then mkNode (previous (node ns x)) n (linked (node ns x)) else node ns y.
Proof. unfold set_next. case_decide; subst; [apply node_insert_eq|by apply node_insert_ne]. Qed.

Lemma node_set_previous ns x p y :
  node (set_previous x p ns) y
  = if decide (x = y) then mkNode p (next (node ns x)) (linked (node ns x)) else node ns y.
Proof. unfold set_previous. case_decide; subst; [apply node_insert_eq|by apply node_insert_ne]. Qed.

Lemma node_set_linked ns x b y :
  node (set_linked x b ns) y
  = if decide (x = y) then mkNode (previous (node ns x)) (next (node ns x)) b else node ns y.
Proof. unfold set_linked. case_decide; subst; [apply node_insert_eq|by apply node_insert_ne]. Qed.

Lemma seg_frame ns ns' xs : forall p n, (forall x, x ∈ xs -> node ns' x = node ns x) ->
  seg ns p xs n -> seg ns' p xs n.
Proof.
  induction xs as [|x xs IH]; intros p n Hsame; cbn; [done|].
  intros [Hx Hs]. split.
  - rewrite Hsame; [done|]. set_solver.
  - apply IH; [|done]. intros y Hy. apply Hsame. set_solver.
Qed.

Lemma last_or_cons p x xs : last_or p (x :: xs) = last_or (Some x) xs.
Proof. unfold last_or. rewrite last_cons. by destruct (last xs). Qed.

Lemma last_or_snoc p xs x : last_or p (xs ++ [x]) = Some x.
Proof. unfold last_or. by rewrite last_snoc. Qed.

Lemma seg_app ns xs : forall p ys n,
  seg ns p (xs ++ ys) n <-> seg ns p xs (head_or ys n) /\ seg ns (last_or p xs) ys n.
Proof.
  induction xs as [|x xs IH]; intros p ys n; cbn [app seg]; [tauto|].
  rewrite IH, last_or_cons. assert (head_or (xs ++ ys) n = head_or xs (head_or ys n)) as ->.
  { by destruct xs. }
  tauto.
Qed.

Ltac node_cases :=
  repeat first [rewrite node_set_linked | rewrite node_set_next | rewrite node_set_previous];
  repeat case_decide; subst; cbn [previous next linked]; try done.

Lemma list_append_rep item ns l xs :
  rep ns l xs -> item ∉ xs -> linked (node ns item) = false ->
  let '(ns', l') := list_append item (ns, l) in
  rep ns' l' (xs ++ [item]) /\ untouched ns ns' (item :: xs).
Proof.
  intros [Hseg Hnd Hh Ht Hsz] Hin Hl. unfold list_append. rewrite Hl.
  assert (Hnd' : NoDup (xs ++ [item])).
  { apply NoDup_app. split_and!; [done|set_solver|apply NoDup_singleton]. }
  assert (Hsz' : m_size l + 1 = zlen (xs ++ [item])).
  { rewrite Hsz. unfold zlen. rewrite length_app. cbn. lia. }
  destruct xs as [|t xs _] using rev_ind; rewrite Ht.
  - split; [split|]; try done.
    + cbn. split; [|done]. node_cases.
    + intros y Hy. node_cases; set_solver.
  - rewrite last_or_snoc. apply seg_app in Hseg as [Hs1 Hs2]. cbn in Hs1, Hs2.
    assert (Hti : t <> item) by set_solver.
    apply NoDup_app in Hnd as (Hnd1 & Hnd2 & _).
    split; [split|]; try done.
    + rewrite <- app_assoc. apply seg_app. cbn [app head_or seg]. split_and!; [|node_cases..|done].
      * eapply seg_frame, Hs1. intros y Hy. node_cases; set_solver.
      * destruct Hs2 as [-> _]. node_cases.
    + cbn [m_head]. rewrite Hh. by destruct xs.
    + cbn [m_tail]. by rewrite last_or_snoc.
    + intros y Hy. node_cases; set_solver.
Qed.

Lemma list_prepend_rep item ns l xs :
  rep ns l xs -> item ∉ xs -> linked (node ns item) = false ->
  let '(ns', l') := list_prepend item (ns, l) in
  rep ns' l' (item :: xs) /\ untouched ns ns' (item :: xs).
Proof.
  intros [Hseg Hnd Hh Ht Hsz] Hin Hl. unfold list_prepend. rewrite Hl.
  assert (Hnd' : NoDup (item :: xs)) by (by constructor).
  assert (Hsz' : m_size l + 1 = zlen (item :: xs)).
  { rewrite Hsz. unfold zlen. cbn. lia. }
  destruct xs as [|h xs]; rewrite Hh; cbn [head_or].
  - split; [split|]; try done.
    + cbn. split; [|done]. node_cases.
    + intros y Hy. node_cases; set_solver.
  - cbn in Hseg. destruct Hseg as [Hn Hs]. assert (Hhi : h <> item) by set_solver.
    apply NoDup_cons in Hnd as [Hhx _].
    split; [split|]; try done.
    + cbn [seg head_or]. split_and!.
      * node_cases.
      * node_cases. by rewrite Hn.
      * eapply seg_frame, Hs. intros y Hy. node_cases; set_solver.
    + intros y Hy. node_cases; set_solver.
Qed.

(** The node of an element of a represented sequence. *)
Lemma rep_node ns l xs1 x xs2 : rep ns l (xs1 ++ x :: xs2) ->
  node ns x = mkNode (last_or None xs1) (head_or xs2 None) true.
Proof. intros [Hseg _ _ _ _]. apply seg_app in Hseg as [_ [Hx _]]. done. Qed.

(** Relinking the last element of a segment, and the first. *)
Lemma seg_set_tail ns ns' xs n n' : forall p, NoDup xs -> seg ns p xs n ->
  (forall y, y ∈ xs -> Some y <> last xs -> node ns' y = node ns y) ->
  (forall t, last xs = Some t -> node ns' t = mkNode (previous (node ns t)) n' true) ->
  seg ns' p xs n'.
Proof.
  induction xs as [|x xs IH]; intros p Hnd Hs Hsame Hlast; [done|].
  cbn in Hs. destruct Hs as [Hx Hs]. apply NoDup_cons in Hnd as [Hin Hnd]. cbn [seg].
  destruct xs as [|y xs].
  - split; [|done]. rewrite Hlast, Hx by done. done.
  - rewrite last_cons_cons in Hsame, Hlast. split.
    + rewrite Hsame; [done|set_solver|]. intros He. apply Hin. symmetry in He.
      by eapply last_Some_elem_of.
    + apply IH; [done..| |done]. intros z Hz. apply Hsame. set_solver.
Qed.

Lemma seg_set_head ns ns' xs n p p' : NoDup xs -> seg ns p xs n ->
  (forall y, y ∈ xs -> Some y <> head xs -> node ns' y = node ns y) ->
  (forall h, head xs = Some h -> node ns' h = mkNode p' (next (node ns h)) true) ->
  seg ns' p' xs n.
Proof.
  intros Hnd Hs Hsame Hhead. destruct xs as [|x xs]; [done|].
  cbn in Hs. destruct Hs as [Hx Hs]. apply NoDup_cons in Hnd as [Hin Hnd]. cbn [seg]. split.
  - rewrite Hhead, Hx by done. done.
  - eapply seg_frame, Hs. intros y Hy. apply Hsame; [set_solver|]. cbn. congruence.
Qed.

Lemma head_or_head xs : head_or xs None = head xs.
Proof. by destruct xs. Qed.

Lemma last_or_last xs : last_or None xs = last xs.
Proof. unfold last_or. by destruct (last xs). Qed.

Lemma seg_linked ns xs y : forall p n, seg ns p xs n -> y ∈ xs -> linked (node ns y) = true.
Proof.
  induction xs as [|x xs IH]; intros p n Hs Hy; [set_solver|].
  cbn in Hs. destruct Hs as [Hx Hs]. apply elem_of_cons in Hy as [->|Hy]; [by rewrite Hx|eauto].
Qed.

(** Every node after a removal. *)
Lemma list_remove_nodes item ns l p n :
  node ns item = mkNode p n true -> p <> Some item -> n <> Some item ->
  (forall y, p = Some y -> n <> Some y) ->
  let ns' := fst (list_remove item (ns, l)) in
  forall y, node ns' y
  = if decide (item = y) then unlinked
    else if decide (p = Some y) then mkNode (previous (node ns y)) n (linked (node ns y))
    else if decide (n = Some y) then mkNode p (next (node ns y)) (linked (node ns y))
    else node ns y.
Proof.
  intros Hx Hp Hn Hpn ns' y. unfold ns', list_remove. rewrite Hx. cbn [linked negb previous next].
  assert (Hx' : forall q m, q <> item -> node (set_next q m ns) item = mkNode p n true).
  { intros q m Hq. rewrite node_set_next. by case_decide. }
  destruct p as [p|], n as [n|]; cbn [fst]; rewrite ?Hx', ?Hx by congruence;
    cbn [previous next fst]; node_cases; try congruence. by destruct (Hpn y).
Qed.

Lemma list_remove_ends item ns l p n : node ns item = mkNode p n true -> p <> Some item ->
  snd (list_remove item (ns, l))
  = mkList (match p with Some _ => m_head l | None => n end)
           (match n with Some _ => m_tail l | None => p end) (m_size l - 1).
Proof.
  intros Hx Hp. unfold list_remove. rewrite Hx. cbn [linked negb previous next].
  assert (Hx' : forall q m, q <> item -> node (set_next q m ns) item = mkNode p n true).
  { intros q m Hq. rewrite node_set_next. by case_decide. }
  destruct p as [p|]; rewrite ?Hx', ?Hx by congruence; by destruct n.
Qed.

Ltac node_absurd := try done; exfalso; first [congruence | set_solver].

Lemma list_remove_rep item ns l xs1 xs2 :
  rep ns l (xs1 ++ item :: xs2) ->
  let '(ns', l') := list_remove item (ns, l) in
  rep ns' l' (xs1 ++ xs2) /\ node ns' item = unlinked
  /\ untouched ns ns' (xs1 ++ item :: xs2).
Proof.
  intros Hrep. pose proof (rep_node _ _ _ _ _ Hrep) as Hx.
  destruct Hrep as [Hseg Hnd Hh Ht Hsz].
  apply seg_app in Hseg as [Hs1 [_ Hs2]]. cbn [head_or] in Hs1.
  rewrite head_or_head, last_or_last in Hx.
  pose proof Hnd as (Hnd1 & H12 & Hnd2)%NoDup_app. apply NoDup_cons in Hnd2 as [Hi2 Hnd2].
  assert (Hp : forall y, last xs1 = Some y -> y ∈ xs1) by apply last_Some_elem_of.
  assert (Hn : forall y, head xs2 = Some y -> y ∈ xs2) by apply head_Some_elem_of.
  pose proof (list_remove_nodes item ns l _ _ Hx) as Hnodes.
  pose proof (list_remove_ends item ns l _ _ Hx) as Hends.
  destruct (list_remove item (ns, l)) as [ns' l']. cbn [fst snd] in *.
  specialize (Hnodes ltac:(set_solver) ltac:(set_solver) ltac:(set_solver)).
  specialize (Hends ltac:(set_solver)). subst l'.
  assert (Hlinked : forall y, y ∈ xs1 ++ xs2 -> linked (node ns y) = true).
  { intros y [Hy|Hy]%elem_of_app; [exact (seg_linked _ _ _ _ _ Hs1 Hy)|exact (seg_linked _ _ _ _ _ Hs2 Hy)]. }
  split_and!; [split| |]; cbn [m_head m_tail m_size].
  - apply seg_app. split.
    + eapply seg_set_tail; [done|exact Hs1|..].
      * intros y Hy Hl. rewrite Hnodes. repeat case_decide; node_absurd.
      * intros t Hl. rewrite Hnodes, head_or_head. specialize (Hp t Hl).
        rewrite decide_False, decide_True, Hlinked by set_solver. done.
    + eapply seg_set_head; [done|exact Hs2|..].
      * intros y Hy Hl. rewrite Hnodes. repeat case_decide; node_absurd.
      * intros h Hl. rewrite Hnodes, last_or_last. pose proof (Hn h Hl).
        rewrite decide_False, (decide_False (P := last xs1 = Some h)), decide_True, Hlinked
          by set_solver. done.
  - apply NoDup_app. split_and!; [done|set_solver|done].
  - rewrite Hh, head_or_head. destruct xs1 as [|a xs1]; [done|].
    rewrite last_cons. by destruct (last xs1).
  - rewrite Ht, !last_or_last, !last_app, last_cons. destruct xs2 as [|b xs2]; [done|].
    rewrite last_cons. cbn [head]. by destruct (last xs2).
  - rewrite Hsz. unfold zlen. rewrite !length_app. cbn. lia.
  - rewrite Hnodes. by rewrite decide_True.
  - intros y Hy. rewrite Hnodes. repeat case_decide; node_absurd.
Qed.

Lemma rep_linked ns l xs x : rep ns l xs -> x ∈ xs -> linked (node ns x) = true.
Proof. intros [Hs _ _ _ _] Hx. by eapply seg_linked. Qed.

Lemma list_iterate_rep fuel drop : forall done ahead ns l,
  (length ahead <= fuel)%nat -> rep ns l (done ++ ahead) ->
  let '(visited, (ns', l')) := list_iterate fuel (head ahead) drop (ns, l) in
  visited = ahead /\ rep ns' l' (done ++ filter (fun x => drop x = false) ahead)
  /\ untouched ns ns' (done ++ ahead).
Proof.
  induction fuel as [|fuel IH]; intros dn ahead ns l Hlen Hrep.
  { destruct ahead; [|cbn in Hlen; lia]. by split_and!. }
  destruct ahead as [|x ahead]; [by split_and!|]. cbn [head list_iterate fst].
  rewrite (rep_node _ _ _ _ _ Hrep). cbn [next]. rewrite head_or_head, filter_cons.
  destruct (drop x) eqn:Hd.
  - pose proof (list_remove_rep x ns l dn ahead Hrep) as Hr.
    destruct (list_remove x (ns, l)) as [ns1 l1]. destruct Hr as (Hr & _ & Hu).
    specialize (IH dn ahead ns1 l1 ltac:(cbn in Hlen; lia) Hr).
    destruct (list_iterate fuel _ _ _) as [v [ns2 l2]]. destruct IH as (-> & Hr2 & Hu2).
    rewrite decide_False by congruence. split_and!; [done..|].
    intros y Hy. rewrite Hu2 by set_solver. apply Hu. done.
  - specialize (IH (dn ++ [x]) ahead ns l ltac:(cbn in Hlen; lia)).
    rewrite <- app_assoc in IH. specialize (IH Hrep).
    destruct (list_iterate fuel _ _ _) as [v [ns2 l2]]. destruct IH as (-> & Hr2 & Hu2).
    rewrite decide_True by done. rewrite <- app_assoc in Hr2. by split_and!.
Qed.

(** ** The theorems *)

(** C22: on a list that stands for a sequence, appending or prepending an object
    that is on no list adds it at that end; an object that is linked already
    is left where it is; removing an element takes out exactly that element and
    unlinks it; taking the first returns the head, or nothing from an empty list.
    No node outside the list changes, so lists sharing the member are safe from
    each other. *)
Theorem intrusive_list_correct ns l xs item : rep ns l xs ->
  (linked (node ns item) = true ->
     list_append item (ns, l) = (ns, l) /\ list_prepend item (ns, l) = (ns, l))
  /\ (linked (node ns item) = false ->
       (let '(ns', l') := list_append item (ns, l) in
        rep ns' l' (xs ++ [item]) /\ untouched ns ns' (item :: xs))
       /\ (let '(ns', l') := list_prepend item (ns, l) in
            rep ns' l' (item :: xs) /\ untouched ns ns' (item :: xs)))
  /\ (forall xs1 xs2, xs = xs1 ++ item :: xs2 ->
       let '(ns', l') := list_remove item (ns, l) in
       rep ns' l' (xs1 ++ xs2) /\ node ns' item = unlinked /\ untouched ns ns' xs)
  /\ (let '(first, (ns', l')) := list_take_first (ns, l) in
      first = head xs /\ rep ns' l' (tail xs)).
Proof.
  intros Hrep. split_and!.
  - intros Hl. unfold list_append, list_prepend. by rewrite Hl.
  - intros Hl. assert (Hin : item ∉ xs).
    { intros Hin. rewrite (rep_linked _ _ _ _ Hrep Hin) in Hl. done. }
    split; [by apply list_append_rep|by apply list_prepend_rep].
  - intros xs1 xs2 ->. by apply list_remove_rep.
  - unfold list_take_first. cbn [snd]. rewrite (rep_head _ _ _ Hrep).
    destruct xs as [|x xs]; [done|]. cbn [head_or].
    pose proof (list_remove_rep x ns l [] xs Hrep) as Hr.
    destruct (list_remove x (ns, l)). by destruct Hr as (? & _ & _).
Qed.

(** The list of 1, 2, 3, built by appending. *)
Definition demo_list : Nodes * IntrusiveList :=
  list_append 3 (list_append 2 (list_append 1 (∅, list_new))).

Lemma demo_list_rep : rep (fst demo_list) (snd demo_list) [1; 2; 3].
Proof.
  split; [by vm_compute| |by vm_compute..].
  apply (bool_decide_unpack _). by vm_compute.
Qed.

Lemma intrusive_list_correct_witness :
  let '(ns', l') := list_remove 2 (fst demo_list, snd demo_list) in
  rep ns' l' [1; 3] /\ node ns' 2 = unlinked.
Proof.
  pose proof (intrusive_list_correct (fst demo_list) (snd demo_list) [1; 2; 3] 2 demo_list_rep)
    as (_ & _ & H & _).
  specialize (H [1] [3] eq_refl). destruct (list_remove 2 _) as [ns' l'].
  exact (conj (proj1 H) (proj1 (proj2 H))).
Defined.

(** a range-for whose body removes some of the items it is shown visits every
    element exactly once, in order, and leaves exactly the others: reading the
    successor before the body runs makes removal during iteration safe. *)
Theorem iterate_while_removing ns l xs drop fuel : rep ns l xs -> (length xs <= fuel)%nat ->
  let '(visited, (ns', l')) := list_iterate fuel (m_head l) drop (ns, l) in
  visited = xs /\ rep ns' l' (filter (fun x => drop x = false) xs).
Proof.
  intros Hrep Hf. rewrite (rep_head _ _ _ Hrep), head_or_head.
  pose proof (list_iterate_rep fuel drop [] xs ns l Hf Hrep) as H.
  destruct (list_iterate _ _ _ _) as [v [ns' l']]. tauto.
Qed.

Lemma iterate_while_removing_witness :
  let '(visited, (ns', l')) := list_iterate 3 (m_head (snd demo_list)) Z.odd (fst demo_list, snd demo_list) in
  visited = [1; 2; 3] /\ rep ns' l' [2].
Proof.
  apply (iterate_while_removing (fst demo_list) (snd demo_list) [1; 2; 3] Z.odd 3).
  - exact demo_list_rep.
  - cbn. lia.
Defined.
