(* ===== verification/Scheduler.v ===== *)
(** * kernel/sched/scheduler.cpp and waitqueue.cpp: threads, the run queue, sleeping

    One transition per section the code runs under [s_lock] (or a queue's own
    lock) with interrupts masked.  [block_current], [sleep_ms], [exit_current]
    and [WaitQueue::wait] are several such sections, with room for an interrupt
    between them, and are modelled as such.  Lists are sequences of thread
    addresses ([IntrusiveList] shows the linked lists are); [wait_linked] is
    [wait_queue_node.linked], which the sleeper list and all wait queues share. *)

From S2P Require Import Prelude.

Inductive ThreadState := Ready | Running | Blocked | Sleeping | Stopped | Zombie.

#[export] Instance ThreadState_eq_dec : EqDecision ThreadState.
Proof. solve_decision. Defined.

Definition DEFAULT_QUANTUM_TICKS : Z := 5.

Record Thread := mkThread {
  m_state : ThreadState;
  m_quantum_remaining : Z;
  m_cpu_ticks : Z;
  m_wake_at_tick : Z;
  wait_linked : bool;
}.

Definition thread_new : Thread := mkThread Ready DEFAULT_QUANTUM_TICKS 0 0 false.

Record WaitQueue := mkQueue { m_waiters : list Z; m_generation : Z }.

Definition queue_new : WaitQueue := mkQueue [] 0.

(** The scheduler's statics, the per-CPU block's [current_thread] and counters,
    the tick counter of the timer, and the wait queues of the kernel. *)
Record Sched := mkSched {
  threads : gmap Z Thread;
  s_run_queue : list Z;
  s_all_threads : list Z;
  s_zombies : list Z;
  s_sleepers : list Z;
  s_running : bool;
  s_idle_thread : Z;
  current_thread : Z;
  context_switches : Z;
  pit_ticks : Z;
  queues : gmap Z WaitQueue;
}.

Definition thread (s : Sched) (t : Z) : Thread := default thread_new (threads s !! t).
Definition state_of (s : Sched) (t : Z) : option ThreadState := m_state <$> threads s !! t.
Definition queue (s : Sched) (q : Z) : WaitQueue := default queue_new (queues s !! q).

(** *** Updates *)

Definition upd_threads (f : gmap Z Thread -> gmap Z Thread) (s : Sched) : Sched :=
  mkSched (f (threads s)) (s_run_queue s) (s_all_threads s) (s_zombies s) (s_sleepers s)
    (s_running s) (s_idle_thread s) (current_thread s) (context_switches s) (pit_ticks s)
    (queues s).
Definition upd_run_queue (f : list Z -> list Z) (s : Sched) : Sched :=
  mkSched (threads s) (f (s_run_queue s)) (s_all_threads s) (s_zombies s) (s_sleepers s)
    (s_running s) (s_idle_thread s) (current_thread s) (context_switches s) (pit_ticks s)
    (queues s).
Definition upd_all_threads (f : list Z -> list Z) (s : Sched) : Sched :=
  mkSched (threads s) (s_run_queue s) (f (s_all_threads s)) (s_zombies s) (s_sleepers s)
    (s_running s) (s_idle_thread s) (current_thread s) (context_switches s) (pit_ticks s)
    (queues s).
Definition upd_zombies (f : list Z -> list Z) (s : Sched) : Sched :=
  mkSched (threads s) (s_run_queue s) (s_all_threads s) (f (s_zombies s)) (s_sleepers s)
    (s_running s) (s_idle_thread s) (current_thread s) (context_switches s) (pit_ticks s)
    (queues s).
Definition upd_sleepers (f : list Z -> list Z) (s : Sched) : Sched :=
  mkSched (threads s) (s_run_queue s) (s_all_threads s) (s_zombies s) (f (s_sleepers s))
    (s_running s) (s_idle_thread s) (current_thread s) (context_switches s) (pit_ticks s)
    (queues s).
Definition set_current (t switches : Z) (s : Sched) : Sched :=
  mkSched (threads s) (s_run_queue s) (s_all_threads s) (s_zombies s) (s_sleepers s)
    (s_running s) (s_idle_thread s) t switches (pit_ticks s) (queues s).
Definition set_pit_ticks (n : Z) (s : Sched) : Sched :=
  mkSched (threads s) (s_run_queue s) (s_all_threads s) (s_zombies s) (s_sleepers s)
    (s_running s) (s_idle_thread s) (current_thread s) (context_switches s) n (queues s).
Definition upd_queue (q : Z) (f : WaitQueue -> WaitQueue) (s : Sched) : Sched :=
  mkSched (threads s) (s_run_queue s) (s_all_threads s) (s_zombies s) (s_sleepers s)
    (s_running s) (s_idle_thread s) (current_thread s) (context_switches s) (pit_ticks s)
    (<[q := f (queue s q)]> (queues s)).

Definition upd_thread (t : Z) (f : Thread -> Thread) (s : Sched) : Sched :=
  upd_threads (alter f t) s.
Definition set_state (st : ThreadState) (t : Z) (s : Sched) : Sched :=
  upd_thread t (fun r => mkThread st (m_quantum_remaining r) (m_cpu_ticks r)
                           (m_wake_at_tick r) (wait_linked r)) s.
Definition set_quantum (n : Z) (t : Z) (s : Sched) : Sched :=
  upd_thread t (fun r => mkThread (m_state r) n (m_cpu_ticks r) (m_wake_at_tick r)
                           (wait_linked r)) s.
Definition set_wake_at (n : Z) (t : Z) (s : Sched) : Sched :=
  upd_thread t (fun r => mkThread (m_state r) (m_quantum_remaining r) (m_cpu_ticks r) n
                           (wait_linked r)) s.
Definition set_wait_linked (b : bool) (t : Z) (s : Sched) : Sched :=
  upd_thread t (fun r => mkThread (m_state r) (m_quantum_remaining r) (m_cpu_ticks r)
                           (m_wake_at_tick r) b) s.

(** [IntrusiveList::append] on the run-queue node, which the run queue and the
    zombie list share, and on the wait node. *)
Definition run_node_linked (s : Sched) (t : Z) : bool :=
  bool_decide (t ∈ s_run_queue s) || bool_decide (t ∈ s_zombies s).
Definition run_queue_append (t : Z) (s : Sched) : Sched :=
  if run_node_linked s t then s else upd_run_queue (fun l => l ++ [t]) s.
Definition zombies_append (t : Z) (s : Sched) : Sched :=
  if run_node_linked s t then s else upd_zombies (fun l => l ++ [t]) s.
Definition sleepers_append (t : Z) (s : Sched) : Sched :=
  if wait_linked (thread s t) then s
  else set_wait_linked true t (upd_sleepers (fun l => l ++ [t]) s).
Definition sleepers_remove (t : Z) (s : Sched) : Sched :=
  set_wait_linked false t (upd_sleepers (filter (fun x => x <> t)) s).

(** ** The scheduler *)

Definition enqueue (t : Z) (s : Sched) : Sched :=
  let s := if bool_decide (t ∈ s_all_threads s) then s
           else upd_all_threads (fun l => l ++ [t]) s in
  let s := set_state Ready t s in
  run_queue_append t s.

Definition switch_to_next (requeue_current : bool) (s : Sched) : Sched :=
  let previous := current_thread s in
  let s :=
    if requeue_current && bool_decide (m_state (thread s previous) = Running) then
      let s := set_state Ready previous s in
      if negb (previous =? s_idle_thread s) then run_queue_append previous s else s
    else s in
  let '(next, s) :=
    match s_run_queue s with
    | next :: _ => (next, upd_run_queue tail s)
    | [] => (s_idle_thread s, s)
    end in
  let s := set_state Running next s in
  let s := set_quantum DEFAULT_QUANTUM_TICKS next s in
  set_current next
    (if negb (next =? previous) then u64 (context_switches s + 1) else context_switches s) s.

(** One turn of [for (Thread* sleeper : s_sleepers)]. *)
Definition wake_sleeper (now : Z) (s : Sched) (sleeper : Z) : Sched :=
  if m_wake_at_tick (thread s sleeper) <=? now then
    let s := sleepers_remove sleeper s in
    let s := set_state Ready sleeper s in
    run_queue_append sleeper s
  else s.

Definition on_timer_tick (s : Sched) : Sched :=
  if negb (s_running s) then s
  else
    let now := pit_ticks s in
    let s := foldl (wake_sleeper now) s (s_sleepers s) in
    let current := current_thread s in
    let s := upd_thread current (fun r =>
      mkThread (m_state r)
        (if m_quantum_remaining r >? 0 then m_quantum_remaining r - 1 else m_quantum_remaining r)
        (u64 (m_cpu_ticks r + 1)) (m_wake_at_tick r) (wait_linked r)) s in
    let quantum_expired := m_quantum_remaining (thread s current) =? 0 in
    let someone_waiting := match s_run_queue s with [] => false | _ => true end in
    if negb quantum_expired && negb ((current =? s_idle_thread s) && someone_waiting) then s
    else if negb someone_waiting && bool_decide (m_state (thread s current) = Running) then
      set_quantum DEFAULT_QUANTUM_TICKS current s
    else switch_to_next true s.

(** The timer interrupt: the tick counter advances, then the callback runs. *)
Definition timer_interrupt (s : Sched) : Sched :=
  on_timer_tick (set_pit_ticks (u64 (pit_ticks s + 1)) s).

Definition on_yield_request (s : Sched) : Sched :=
  if negb (s_running s) then s else switch_to_next true s.

(** The locked part of [block_current]; [yield] follows. *)
Definition block_current_mark (reason : ThreadState) (s : Sched) : Sched :=
  set_state reason (current_thread s) s.

Definition unblock (t : Z) (s : Sched) : Sched :=
  if bool_decide (m_state (thread s t) = Running) || bool_decide (m_state (thread s t) = Ready)
  then s
  else
    let s := if bool_decide (m_state (thread s t) = Sleeping) && wait_linked (thread s t)
             then sleepers_remove t s else s in
    let s := set_state Ready t s in
    run_queue_append t s.

(** The locked part of [sleep_ms]; [frequency] is [arch::pit_frequency()]. *)
Definition sleep_mark (frequency milliseconds : Z) (s : Sched) : Sched :=
  let ticks_to_wait := u64 (milliseconds * frequency + 999) / 1000 in
  let t := current_thread s in
  let s := set_wake_at (u64 (pit_ticks s + ticks_to_wait)) t s in
  let s := set_state Sleeping t s in
  sleepers_append t s.

(** The locked part of [exit_current]. *)
Definition exit_mark (s : Sched) : Sched :=
  let t := current_thread s in
  let s := set_state Zombie t s in
  zombies_append t s.

(** One turn of the reaping loop of [idle_loop]. *)
Definition reap_zombie (s : Sched) : Sched :=
  match s_zombies s with
  | [] => s
  | z :: _ =>
      let s := upd_zombies tail s in
      let s := upd_all_threads (filter (fun x => x <> z)) s in
      upd_threads (delete z) s
  end.

(** ** Wait queues *)

Definition waiters_append (q t : Z) (s : Sched) : Sched :=
  if wait_linked (thread s t) then s
  else set_wait_linked true t
         (upd_queue q (fun w => mkQueue (m_waiters w ++ [t]) (m_generation w)) s).

(** The first locked part of [wait]. *)
Definition wait_append (q : Z) (s : Sched) : Sched := waiters_append q (current_thread s) s.

Definition detach_self (q : Z) (s : Sched) : Sched :=
  let t := current_thread s in
  if wait_linked (thread s t) then
    set_wait_linked false t
      (upd_queue q (fun w => mkQueue (filter (fun x => x <> t) (m_waiters w)) (m_generation w)) s)
  else s.

Definition generation (q : Z) (s : Sched) : Z := m_generation (queue s q).

(** The locked part of [wait_since]: true when the caller goes on to block. *)
Definition wait_since_append (q seen : Z) (s : Sched) : bool * Sched :=
  if negb (m_generation (queue s q) =? seen) then (false, s)
  else (true, wait_append q s).

(** [m_waiters.take_first()]. *)
Definition waiters_take (q : Z) (s : Sched) : option Z * Sched :=
  match m_waiters (queue s q) with
  | [] => (None, s)
  | t :: _ => (Some t, set_wait_linked false t
                 (upd_queue q (fun w => mkQueue (tail (m_waiters w)) (m_generation w)) s))
  end.

Definition wake_one (q : Z) (s : Sched) : Sched :=
  match waiters_take q s with
  | (Some t, s) => unblock t s
  | (None, s) => s
  end.

Fixpoint wake_loop (fuel : nat) (q : Z) (s : Sched) : Sched :=
  match fuel with
  | O => s
  | S fuel' =>
      match waiters_take q s with
      | (Some t, s) => wake_loop fuel' q (unblock t s)
      | (None, s) => s
      end
  end.

(** [wake_all] without its last statement. *)
Definition wake_all_of (q : Z) (s : Sched) : Sched :=
  let s := upd_queue q (fun w => mkQueue (m_waiters w) (u64 (m_generation w + 1))) s in
  wake_loop (length (m_waiters (queue s q))) q s.

Definition wake_all (poll_queue q : Z) (s : Sched) : Sched :=
  let s := wake_all_of q s in
  if negb (q =? poll_queue) then wake_all_of poll_queue s else s.

(** ** The invariant

    A thread is on the run queue exactly when it is ready (the idle thread never
    is), on the sleeper list exactly when it sleeps, on the zombie list exactly
    when it has finished; only the current thread runs; and a thread on a wait
    queue is on one, once, with its node marked, so that no list operation ever
    splices a node that belongs to another list. *)

Definition linked_of (s : Sched) (t : Z) : option bool := wait_linked <$> threads s !! t.
Definition waiters (s : Sched) (q : Z) : list Z := m_waiters (queue s q).

Record sched_inv (s : Sched) : Prop := {
  inv_current : is_Some (state_of s (current_thread s));
  inv_idle : state_of s (s_idle_thread s) = Some Ready
             \/ state_of s (s_idle_thread s) = Some Running;
  inv_run : forall t, t ∈ s_run_queue s <-> state_of s t = Some Ready /\ t <> s_idle_thread s;
  inv_run_nodup : NoDup (s_run_queue s);
  inv_running : forall t, state_of s t = Some Running -> t = current_thread s;
  inv_sleep : forall t, t ∈ s_sleepers s <-> state_of s t = Some Sleeping;
  inv_sleep_nodup : NoDup (s_sleepers s);
  inv_zombie : forall t, t ∈ s_zombies s <-> state_of s t = Some Zombie;
  inv_zombie_nodup : NoDup (s_zombies s);
  inv_sleep_linked : forall t, state_of s t = Some Sleeping -> linked_of s t = Some true;
  inv_wait : forall q t, t ∈ waiters s q ->
    linked_of s t = Some true /\ state_of s t <> Some Sleeping /\ state_of s t <> Some Zombie;
  inv_wait_nodup : forall q, NoDup (waiters s q);
  inv_wait_one : forall q q' t, t ∈ waiters s q -> t ∈ waiters s q' -> q = q';
  inv_all : forall t, t ∈ s_all_threads s <-> is_Some (state_of s t);
}.

(** *** What the updates change *)

Lemma state_of_set_state st t s t' :
  state_of (set_state st t s) t'
  = if decide (t = t') then const st <$> state_of s t else state_of s t'.
Proof.
  unfold state_of, set_state, upd_thread. cbn. case_decide; subst.
  - rewrite lookup_alter_eq. by destruct (threads s !! t').
  - by rewrite lookup_alter_ne.
Qed.

Lemma linked_of_set_wait b t s t' :
  linked_of (set_wait_linked b t s) t'
  = if decide (t = t') then const b <$> linked_of s t else linked_of s t'.
Proof.
  unfold linked_of, set_wait_linked, upd_thread. cbn. case_decide; subst.
  - rewrite lookup_alter_eq. by destruct (threads s !! t').
  - by rewrite lookup_alter_ne.
Qed.

(** Updates of the fields the invariant does not speak of. *)
Lemma upd_thread_fields f t s t' :
  (forall r, m_state (f r) = m_state r) -> (forall r, wait_linked (f r) = wait_linked r) ->
  state_of (upd_thread t f s) t' = state_of s t'
  /\ linked_of (upd_thread t f s) t' = linked_of s t'.
Proof.
  intros Hs Hl. unfold state_of, linked_of, upd_thread. cbn.
  destruct (decide (t = t')) as [->|]; [|by rewrite lookup_alter_ne].
  rewrite lookup_alter_eq. destruct (threads s !! t'); cbn; [|done]. by rewrite Hs, Hl.
Qed.

Lemma state_of_set_wait b t s t' : state_of (set_wait_linked b t s) t' = state_of s t'.
Proof.
  unfold state_of, set_wait_linked, upd_thread. cbn. destruct (decide (t = t')) as [->|].
  - rewrite lookup_alter_eq. by destruct (threads s !! t').
  - by rewrite lookup_alter_ne.
Qed.

Lemma linked_of_set_state st t s t' : linked_of (set_state st t s) t' = linked_of s t'.
Proof.
  unfold linked_of, set_state, upd_thread. cbn. destruct (decide (t = t')) as [->|].
  - rewrite lookup_alter_eq. by destruct (threads s !! t').
  - by rewrite lookup_alter_ne.
Qed.

Lemma waiters_upd_queue q f s q' :
  waiters (upd_queue q f s) q' = if decide (q = q') then m_waiters (f (queue s q)) else waiters s q'.
Proof.
  unfold waiters, queue, upd_queue. cbn. case_decide; subst.
  - by rewrite lookup_insert_eq.
  - by rewrite lookup_insert_ne.
Qed.

Lemma thread_state s t st : state_of s t = Some st -> m_state (thread s t) = st.
Proof. unfold state_of, thread. destruct (threads s !! t); cbn; congruence. Qed.

Lemma thread_linked s t b : linked_of s t = Some b -> wait_linked (thread s t) = b.
Proof. unfold linked_of, thread. destruct (threads s !! t); cbn; congruence. Qed.

(** A view of the state that decides the invariant: two states that agree on it
    satisfy it together. *)
Record same_view (s s' : Sched) : Prop := {
  sv_state : forall t, state_of s' t = state_of s t;
  sv_linked : forall t, linked_of s' t = linked_of s t;
  sv_run : s_run_queue s' = s_run_queue s;
  sv_sleep : s_sleepers s' = s_sleepers s;
  sv_zombies : s_zombies s' = s_zombies s;
  sv_all : s_all_threads s' = s_all_threads s;
  sv_current : current_thread s' = current_thread s;
  sv_idle : s_idle_thread s' = s_idle_thread s;
  sv_waiters : forall q, waiters s' q = waiters s q;
}.

Lemma sched_inv_view s s' : same_view s s' -> sched_inv s -> sched_inv s'.
Proof.
  intros [V1 V2 V3 V4 V5 V6 V7 V8 V9] [].
  split; try setoid_rewrite V1; try setoid_rewrite V2; try setoid_rewrite V9;
    rewrite ?V3, ?V4, ?V5, ?V6, ?V7, ?V8, ?V1; done.
Qed.

Lemma upd_thread_view f t s :
  (forall r, m_state (f r) = m_state r) -> (forall r, wait_linked (f r) = wait_linked r) ->
  same_view s (upd_thread t f s).
Proof.
  intros Hs Hl. split; try done; intros t'; by apply upd_thread_fields.
Qed.

(** *** Preservation

    Nearly every operation moves one thread: from one state, and one list, to
    another.  [moves] says so, and the invariant follows once the new lists have
    the thread where its new state wants it. *)

Definition list_moves (l l' : list Z) (t : Z) (here : Prop) : Prop :=
  NoDup l' /\ (t ∈ l' <-> here) /\ forall t', t' <> t -> t' ∈ l' <-> t' ∈ l.

Record moves (s s' : Sched) (t : Z) (st' : ThreadState) (lk' : bool) : Prop := {
  mv_state : forall t', state_of s' t' = if decide (t = t') then Some st' else state_of s t';
  mv_linked : forall t', linked_of s' t' = if decide (t = t') then Some lk' else linked_of s t';
  mv_idle : s_idle_thread s' = s_idle_thread s;
  mv_run : list_moves (s_run_queue s) (s_run_queue s') t (st' = Ready /\ t <> s_idle_thread s);
  mv_sleep : list_moves (s_sleepers s) (s_sleepers s') t (st' = Sleeping);
  mv_zombies : list_moves (s_zombies s) (s_zombies s') t (st' = Zombie);
  mv_all : s_all_threads s' = s_all_threads s;
  mv_current : is_Some (state_of s' (current_thread s'));
  mv_running : forall t', state_of s' t' = Some Running -> t' = current_thread s';
  mv_waiters : forall q, NoDup (waiters s' q) /\
    forall t', t' <> t -> t' ∈ waiters s' q -> t' ∈ waiters s q;
  mv_waiting : forall q, t ∈ waiters s' q ->
    lk' = true /\ st' <> Sleeping /\ st' <> Zombie /\ forall q', t ∈ waiters s' q' -> q' = q;
}.

Lemma moves_inv s s' t st st' lk' :
  sched_inv s -> state_of s t = Some st ->
  (t = s_idle_thread s -> st' = Ready \/ st' = Running) ->
  (st' = Sleeping -> lk' = true) ->
  moves s s' t st' lk' -> sched_inv s'.
Proof.
  intros Hinv Ht Hidle Hsl [V1 V2 V3 (R1 & R2 & R3) (S1 & S2 & S3) (Z1 & Z2 & Z3) V4 V5 V6 V7 V8].
  split; rewrite ?V3; try done.
  - rewrite V1. pose proof (inv_idle s Hinv). case_decide; [|done].
    destruct Hidle as [-> | ->]; [done|by left|by right].
  - intros t'. rewrite V1. pose proof (inv_run s Hinv t'). case_decide; subst.
    + rewrite R2. split; [intros [-> ?]; done|intros [[= ->] ?]; done].
    + rewrite R3 by done. done.
  - intros t'. rewrite V1. pose proof (inv_sleep s Hinv t'). case_decide; subst.
    + rewrite S2. split; [by intros -> |by intros [= ->]].
    + rewrite S3 by done. done.
  - intros t'. rewrite V1. pose proof (inv_zombie s Hinv t'). case_decide; subst.
    + rewrite Z2. split; [by intros -> |by intros [= ->]].
    + rewrite Z3 by done. done.
  - intros t'. rewrite V1, V2. case_decide; [|apply (inv_sleep_linked s Hinv)].
    intros [= ->]. by rewrite Hsl.
  - intros q t' Hq. rewrite V1, V2. case_decide as Hd; subst.
    + destruct (V8 q Hq) as (-> & ? & ? & _). split_and!; congruence.
    + apply (inv_wait s Hinv q). by apply V7.
  - intros q. apply V7.
  - intros q q' t' Hq Hq'. destruct (decide (t' = t)) as [->|Hne].
    + symmetry. by apply V8.
    + apply (inv_wait_one s Hinv q q' t'); by apply V7.
  - intros t'. rewrite V4, V1, (inv_all s Hinv t'). case_decide; subst; [|done].
    rewrite Ht. split; intros; by eexists.
Qed.

(** The three ways a list of the scheduler takes part in a move. *)
Lemma list_moves_same (l : list Z) t (P : Prop) :
  NoDup l -> t ∉ l -> ~ P -> list_moves l l t P.
Proof. intros. split_and!; [done|tauto|done]. Qed.

Lemma list_moves_append (l : list Z) t (P : Prop) :
  NoDup l -> t ∉ l -> P -> list_moves l (l ++ [t]) t P.
Proof.
  intros Hl Ht HP. split_and!.
  - apply NoDup_app. split_and!; [done| |apply NoDup_singleton].
    intros y Hy ->%list_elem_of_singleton. done.
  - set_solver.
  - set_solver.
Qed.

Lemma list_moves_remove (l : list Z) t (P : Prop) :
  NoDup l -> ~ P -> list_moves l (filter (fun x => x <> t) l) t P.
Proof.
  intros Hl HP. split_and!; [by apply NoDup_filter|..].
  - rewrite list_elem_of_filter. tauto.
  - intros t' Hne. rewrite list_elem_of_filter. tauto.
Qed.

Lemma list_moves_tail (l : list Z) t (P : Prop) :
  NoDup (t :: l) -> ~ P -> list_moves (t :: l) l t P.
Proof.
  intros [Hin Hl]%NoDup_cons HP. split_and!; [done|tauto|]. set_solver.
Qed.

(** Facts about one thread, from the invariant: [know H t]. *)
Ltac know H t :=
  pose proof (inv_run _ H t); pose proof (inv_sleep _ H t); pose proof (inv_zombie _ H t).

Ltac off_list H t := know H t; intuition congruence.

Lemma inv_not_idle s t st : sched_inv s -> state_of s t = Some st -> st <> Ready ->
  st <> Running -> t <> s_idle_thread s.
Proof. intros Hinv Ht H1 H2 ->. destruct (inv_idle s Hinv); congruence. Qed.

Lemma linked_exists s t st : state_of s t = Some st -> exists b, linked_of s t = Some b.
Proof. unfold state_of, linked_of. destruct (threads s !! t); [by eexists|done]. Qed.

Lemma run_queue_append_off t s : t ∉ s_run_queue s -> t ∉ s_zombies s ->
  run_queue_append t s = upd_run_queue (fun l => l ++ [t]) s.
Proof.
  intros. unfold run_queue_append, run_node_linked.
  by rewrite !bool_decide_eq_false_2.
Qed.

Lemma moved_current s s' t st st' : sched_inv s -> state_of s t = Some st ->
  (forall t', state_of s' t' = if decide (t = t') then Some st' else state_of s t') ->
  current_thread s' = current_thread s -> is_Some (state_of s' (current_thread s')).
Proof.
  intros Hinv Ht V Hc. rewrite V, Hc. case_decide; [by eexists|apply Hinv].
Qed.

(** A thread off the scheduler's lists, or asleep, becomes ready. *)
Lemma inv_make_ready s t st : sched_inv s -> state_of s t = Some st ->
  st = Blocked \/ st = Stopped ->
  sched_inv (run_queue_append t (set_state Ready t s)).
Proof.
  intros Hinv Ht Hst.
  assert (Hst' : st <> Ready /\ st <> Running /\ st <> Sleeping /\ st <> Zombie).
  { destruct Hst as [-> | ->]; done. }
  pose proof (inv_not_idle s t st Hinv Ht ltac:(tauto) ltac:(tauto)) as Hidle.
  rewrite run_queue_append_off; [|cbn; off_list Hinv t..].
  destruct (linked_exists s t st Ht) as [b Hb].
  assert (V : forall t', state_of (upd_run_queue (fun l => l ++ [t]) (set_state Ready t s)) t'
    = if decide (t = t') then Some Ready else state_of s t').
  { intros t'. etransitivity; [apply state_of_set_state|]. by rewrite Ht. }
  eapply (moves_inv s _ t st Ready b Hinv Ht); [done|done|].
  split; [exact V| |done| | | |done| | | |].
  - intros t'. etransitivity; [apply linked_of_set_state|]. case_decide; congruence.
  - apply list_moves_append; [apply Hinv|off_list Hinv t|done].
  - apply list_moves_same; [apply Hinv|off_list Hinv t|done].
  - apply list_moves_same; [apply Hinv|off_list Hinv t|done].
  - by eapply moved_current.
  - intros t'. rewrite V. case_decide; [done|]. apply (inv_running s Hinv).
  - intros q. split; [apply (inv_wait_nodup s Hinv)|done].
  - intros q Hq. destruct (inv_wait s Hinv q t Hq) as (Hl & _). split_and!; [congruence|done|done|].
    intros q' Hq'. by apply (inv_wait_one s Hinv q' q t).
Qed.

Lemma inv_wake_sleeper s t : sched_inv s -> state_of s t = Some Sleeping ->
  sched_inv (run_queue_append t (set_state Ready t (sleepers_remove t s))).
Proof.
  intros Hinv Ht. pose proof (inv_not_idle s t _ Hinv Ht ltac:(done) ltac:(done)) as Hidle.
  rewrite run_queue_append_off; [|cbn; off_list Hinv t..].
  pose proof (inv_sleep_linked s Hinv t Ht) as Hb.
  set (s' := upd_run_queue _ _).
  assert (V : forall t', state_of s' t' = if decide (t = t') then Some Ready else state_of s t').
  { intros t'. etransitivity; [apply state_of_set_state|].
    unfold sleepers_remove. rewrite !state_of_set_wait. cbn. unfold state_of in *. cbn.
    by rewrite Ht. }
  eapply (moves_inv s s' t Sleeping Ready false Hinv Ht); [done|done|].
  split; [exact V| |done| | | |done| | | |].
  - intros t'. etransitivity; [apply linked_of_set_state|].
    etransitivity; [apply linked_of_set_wait|]. unfold linked_of in *. cbn.
    case_decide; [by rewrite Hb|done].
  - apply list_moves_append; [apply Hinv|off_list Hinv t|done].
  - apply list_moves_remove; [apply Hinv|done].
  - apply list_moves_same; [apply Hinv|off_list Hinv t|done].
  - by eapply moved_current.
  - intros t'. rewrite V. case_decide; [done|]. apply (inv_running s Hinv).
  - intros q. split; [apply (inv_wait_nodup s Hinv)|done].
  - intros q Hq. destruct (inv_wait s Hinv q t Hq) as (_ & ? & _). done.
Qed.

Lemma unblock_inv t s : sched_inv s -> is_Some (state_of s t) -> state_of s t <> Some Zombie ->
  sched_inv (unblock t s).
Proof.
  intros Hinv [st Ht] Hz. unfold unblock. rewrite (thread_state s t st Ht).
  destruct st; cbn [orb bool_decide decide decide_rel]; rewrite ?bool_decide_eq_true_2,
    ?bool_decide_eq_false_2 by done; cbn [orb andb]; try done.
  - eapply inv_make_ready; [done|done|by left].
  - rewrite (thread_linked s t true) by (by apply (inv_sleep_linked s Hinv)).
    by apply inv_wake_sleeper.
  - eapply inv_make_ready; [done|done|by right].
Qed.

(** The current thread gives up the CPU for a reason that puts it on no list. *)
Lemma block_mark_inv reason s : sched_inv s -> reason = Blocked \/ reason = Stopped ->
  state_of s (current_thread s) = Some Running -> current_thread s <> s_idle_thread s ->
  sched_inv (block_current_mark reason s).
Proof.
  intros Hinv Hr Hc Hi. set (t := current_thread s) in *. unfold block_current_mark. fold t.
  assert (Hr' : reason <> Ready /\ reason <> Running /\ reason <> Sleeping /\ reason <> Zombie).
  { destruct Hr as [-> | ->]; done. }
  destruct (linked_exists s t _ Hc) as [b Hb].
  assert (V : forall t', state_of (set_state reason t s) t'
    = if decide (t = t') then Some reason else state_of s t').
  { intros t'. rewrite state_of_set_state, Hc. done. }
  eapply (moves_inv s _ t Running reason b Hinv Hc); [done|tauto|].
  split; [exact V| |done| | | |done| | | |].
  - intros t'. rewrite linked_of_set_state. case_decide; congruence.
  - apply list_moves_same; [apply Hinv|off_list Hinv t|tauto].
  - apply list_moves_same; [apply Hinv|off_list Hinv t|tauto].
  - apply list_moves_same; [apply Hinv|off_list Hinv t|tauto].
  - by eapply moved_current.
  - intros t'. rewrite V. case_decide; [intuition congruence|]. apply (inv_running s Hinv).
  - intros q. split; [apply (inv_wait_nodup s Hinv)|done].
  - intros q Hq. destruct (inv_wait s Hinv q t Hq) as (Hl & _).
    split_and!; [congruence|tauto|tauto|]. intros q' Hq'. by apply (inv_wait_one s Hinv q' q t).
Qed.

Lemma sleep_mark_inv frequency ms s : sched_inv s ->
  state_of s (current_thread s) = Some Running -> current_thread s <> s_idle_thread s ->
  linked_of s (current_thread s) = Some false ->
  sched_inv (sleep_mark frequency ms s).
Proof.
  intros Hinv0 Hc0 Hi Hl0. unfold sleep_mark. set (t := current_thread s) in *.
  set (s1 := set_wake_at _ t s).
  assert (Hv : same_view s s1) by (by apply upd_thread_view).
  pose proof (sched_inv_view s s1 Hv Hinv0) as Hinv.
  assert (Hc : state_of s1 t = Some Running) by (by rewrite (sv_state s s1 Hv)).
  assert (Hl : linked_of s1 t = Some false) by (by rewrite (sv_linked s s1 Hv)).
  assert (Hcur : current_thread s1 = t) by done.
  assert (Hid : t <> s_idle_thread s1) by done. clearbody s1. clear Hinv0 Hc0 Hl0 Hv.
  unfold sleepers_append. rewrite (thread_linked _ t false) by (by rewrite linked_of_set_state).
  set (s' := set_wait_linked _ _ _).
  assert (V : forall t', state_of s' t' = if decide (t = t') then Some Sleeping else state_of s1 t').
  { intros t'. unfold s'. rewrite state_of_set_wait.
    etransitivity; [apply state_of_set_state|]. by rewrite Hc. }
  eapply (moves_inv s1 s' t Running Sleeping true Hinv Hc); [done|done|].
  split; [exact V| |done| | | |done| | | |].
  - intros t'. unfold s'. rewrite linked_of_set_wait.
    case_decide; [|apply linked_of_set_state].
    etransitivity; [apply f_equal; apply linked_of_set_state|]. by rewrite Hl.
  - apply list_moves_same; [apply Hinv|off_list Hinv t|by intros []].
  - apply list_moves_append; [apply Hinv|cbn; off_list Hinv t|done].
  - apply list_moves_same; [apply Hinv|off_list Hinv t|done].
  - by eapply moved_current.
  - intros t'. rewrite V. case_decide; [done|]. apply (inv_running s1 Hinv).
  - intros q. split; [apply (inv_wait_nodup s1 Hinv)|done].
  - intros q Hq. destruct (inv_wait s1 Hinv q t Hq) as (Hl' & _). congruence.
Qed.

Lemma exit_mark_inv s : sched_inv s ->
  state_of s (current_thread s) = Some Running -> current_thread s <> s_idle_thread s ->
  linked_of s (current_thread s) = Some false ->
  sched_inv (exit_mark s).
Proof.
  intros Hinv Hc Hi Hl. unfold exit_mark. set (t := current_thread s) in *.
  unfold zombies_append, run_node_linked. rewrite !bool_decide_eq_false_2;
    [|cbn; off_list Hinv t..]. cbn [orb].
  set (s' := upd_zombies _ _).
  assert (V : forall t', state_of s' t' = if decide (t = t') then Some Zombie else state_of s t').
  { intros t'. etransitivity; [apply state_of_set_state|]. by rewrite Hc. }
  eapply (moves_inv s s' t Running Zombie false Hinv Hc); [done|done|].
  split; [exact V| |done| | | |done| | | |].
  - intros t'. etransitivity; [apply linked_of_set_state|]. case_decide; congruence.
  - apply list_moves_same; [apply Hinv|off_list Hinv t|by intros []].
  - apply list_moves_same; [apply Hinv|off_list Hinv t|done].
  - apply list_moves_append; [apply Hinv|cbn; off_list Hinv t|done].
  - by eapply moved_current.
  - intros t'. rewrite V. case_decide; [done|]. apply (inv_running s Hinv).
  - intros q. split; [apply (inv_wait_nodup s Hinv)|done].
  - intros q Hq. destruct (inv_wait s Hinv q t Hq) as (Hl' & _). congruence.
Qed.

(** *** Switching *)

Definition requeue (s : Sched) : Sched :=
  let previous := current_thread s in
  if bool_decide (m_state (thread s previous) = Running) then
    let s := set_state Ready previous s in
    if negb (previous =? s_idle_thread s) then run_queue_append previous s else s
  else s.

Lemma inv_running_to_ready s s' t :
  sched_inv s -> state_of s t = Some Running ->
  (forall t', state_of s' t' = if decide (t = t') then Some Ready else state_of s t') ->
  (forall t', linked_of s' t' = linked_of s t') ->
  list_moves (s_run_queue s) (s_run_queue s') t (Ready = Ready /\ t <> s_idle_thread s) ->
  s_idle_thread s' = s_idle_thread s -> s_sleepers s' = s_sleepers s ->
  s_zombies s' = s_zombies s -> s_all_threads s' = s_all_threads s ->
  current_thread s' = current_thread s -> (forall q, waiters s' q = waiters s q) ->
  sched_inv s' /\ forall t', state_of s' t' <> Some Running.
Proof.
  intros Hinv Ht V VL Hrun Hi Hs Hz Ha Hc Hw.
  destruct (linked_exists s t _ Ht) as [b Hb].
  pose proof (inv_running s Hinv t Ht) as Hcur.
  split.
  2:{ intros t'. rewrite V. case_decide; [done|]. intros H'.
      pose proof (inv_running s Hinv t' H'). congruence. }
  eapply (moves_inv s s' t Running Ready b Hinv Ht); [by left|done|].
  split; [exact V| |done|exact Hrun| | |done| | | |].
  - intros t'. rewrite VL. case_decide; congruence.
  - rewrite Hs. apply list_moves_same; [apply Hinv|off_list Hinv t|done].
  - rewrite Hz. apply list_moves_same; [apply Hinv|off_list Hinv t|done].
  - by eapply (moved_current s s' t).
  - intros t'. rewrite V. case_decide; [done|]. intros H'.
    pose proof (inv_running s Hinv t' H'). congruence.
  - intros q. rewrite Hw. split; [apply (inv_wait_nodup s Hinv)|done].
  - intros q. rewrite Hw. intros Hq. destruct (inv_wait s Hinv q t Hq) as (Hl & _).
    split_and!; [congruence|done|done|]. intros q'. rewrite Hw. intros Hq'.
    by apply (inv_wait_one s Hinv q' q t).
Qed.

Lemma requeue_inv s : sched_inv s -> sched_inv (requeue s)
  /\ (forall t, state_of (requeue s) t <> Some Running).
Proof.
  intros Hinv. unfold requeue. set (t := current_thread s).
  destruct (inv_current s Hinv) as [st Ht]. fold t in Ht.
  rewrite (thread_state s t st Ht).
  destruct (decide (st = Running)) as [->|Hst].
  2:{ rewrite bool_decide_eq_false_2 by done. split; [done|].
      intros t' H'. pose proof (inv_running s Hinv t' H'). subst t. congruence. }
  rewrite bool_decide_eq_true_2 by done. cbv zeta.
  assert (V : forall t', state_of (set_state Ready t s) t'
    = if decide (t = t') then Some Ready else state_of s t').
  { intros t'. rewrite state_of_set_state, Ht. done. }
  cbn [s_idle_thread set_state upd_thread upd_threads].
  destruct (Z.eqb_spec t (s_idle_thread s)) as [Hd|Hd]; cbn [negb].
  - apply (inv_running_to_ready s _ t); try done.
    + apply linked_of_set_state.
    + apply list_moves_same; [apply Hinv|off_list Hinv t|tauto].
  - fold (upd_thread t (fun r => mkThread Ready (m_quantum_remaining r) (m_cpu_ticks r)
      (m_wake_at_tick r) (wait_linked r)) s). fold (set_state Ready t s).
    rewrite run_queue_append_off; [|cbn; off_list Hinv t..].
    apply (inv_running_to_ready s _ t); try done.
    + apply linked_of_set_state.
    + apply list_moves_append; [apply Hinv|off_list Hinv t|done].
Qed.

Definition run_next (previous : Z) (s : Sched) : Sched :=
  let '(next, s) :=
    match s_run_queue s with
    | next :: _ => (next, upd_run_queue tail s)
    | [] => (s_idle_thread s, s)
    end in
  let s := set_state Running next s in
  let s := set_quantum DEFAULT_QUANTUM_TICKS next s in
  set_current next
    (if negb (next =? previous) then u64 (context_switches s + 1) else context_switches s) s.

Lemma switch_to_next_split s :
  switch_to_next true s = run_next (current_thread s) (requeue s).
Proof. done. Qed.

Lemma run_next_moves s next s1 n : sched_inv s -> (forall t, state_of s t <> Some Running) ->
  state_of s next = Some Ready ->
  list_moves (s_run_queue s) (s_run_queue s1) next
    (Running = Ready /\ next <> s_idle_thread s) ->
  same_view s (upd_run_queue (fun _ => s_run_queue s) s1) ->
  sched_inv (set_current next n (set_quantum DEFAULT_QUANTUM_TICKS next
    (set_state Running next s1))).
Proof.
  intros Hinv Hno Hn Hrun Hv. set (s' := set_current _ _ _).
  assert (V : forall t', state_of s' t' = if decide (next = t') then Some Running else state_of s t').
  { intros t'. etransitivity; [by apply upd_thread_fields|]. rewrite state_of_set_state.
    pose proof (sv_state _ _ Hv t') as E1. pose proof (sv_state _ _ Hv next) as E2.
    unfold state_of in E1, E2. cbn in E1, E2. fold (state_of s1 t') (state_of s1 next) in E1, E2.
    rewrite E1, E2. fold (state_of s next). by rewrite Hn. }
  destruct (linked_exists s next _ Hn) as [b Hb].
  eapply (moves_inv s s' next Ready Running b Hinv Hn); [by right|done|].
  destruct Hv as [_ VL _ VS VZ VA VC VI VW].
  split; [exact V| |exact VI| | | |exact VA| | | |].
  - intros t'. etransitivity; [by apply upd_thread_fields|]. rewrite linked_of_set_state.
    etransitivity; [apply (VL t')|]. case_decide; congruence.
  - exact Hrun.
  - cbn in VS |- *. rewrite VS. apply list_moves_same; [apply Hinv|off_list Hinv next|done].
  - cbn in VZ |- *. rewrite VZ. apply list_moves_same; [apply Hinv|off_list Hinv next|done].
  - rewrite V. cbn. rewrite decide_True by done. by eexists.
  - intros t'. rewrite V. case_decide; [by subst|]. intros H'. by destruct (Hno t').
  - intros q. change (waiters s' q) with (waiters s1 q). pose proof (VW q) as E.
    change (waiters (upd_run_queue (fun _ => s_run_queue s) s1) q) with (waiters s1 q) in E.
    rewrite E. split; [apply (inv_wait_nodup s Hinv)|done].
  - assert (E : forall q, waiters s' q = waiters s q) by exact VW.
    intros q. rewrite E. intros Hq. destruct (inv_wait s Hinv q next Hq) as (Hl & _).
    split_and!; [congruence|done|done|]. intros q'. rewrite E. intros Hq'.
    by apply (inv_wait_one s Hinv q' q next).
Qed.

Lemma run_next_inv previous s : sched_inv s -> (forall t, state_of s t <> Some Running) ->
  sched_inv (run_next previous s).
Proof.
  intros Hinv Hno. unfold run_next. destruct (s_run_queue s) as [|next rest] eqn:Hq.
  - apply (run_next_moves s); try done.
    + destruct (inv_idle s Hinv) as [H|H]; [done|]. by destruct (Hno (s_idle_thread s)).
    + rewrite Hq. apply list_moves_same; [constructor|set_solver|by intros []].
  - assert (Hn : next ∈ s_run_queue s) by (rewrite Hq; set_solver).
    apply (inv_run s Hinv) in Hn as [Hn Hi].
    apply (run_next_moves s); try done.
    pose proof (inv_run_nodup s Hinv) as Hnd. cbn [s_run_queue upd_run_queue].
    rewrite Hq in *. cbn [tail]. apply list_moves_tail; [done|by intros []].
Qed.

Lemma switch_inv s : sched_inv s -> sched_inv (switch_to_next true s).
Proof.
  intros Hinv. rewrite switch_to_next_split. destruct (requeue_inv s Hinv).
  by apply run_next_inv.
Qed.

(** *** The timer *)

Lemma woken_state s t t' : state_of s t = Some Sleeping ->
  state_of (run_queue_append t (set_state Ready t (sleepers_remove t s))) t'
  = if decide (t = t') then Some Ready else state_of s t'.
Proof.
  intros Ht. unfold run_queue_append.
  assert (E : state_of (set_state Ready t (sleepers_remove t s)) t'
    = if decide (t = t') then Some Ready else state_of s t').
  { rewrite state_of_set_state. unfold sleepers_remove. rewrite !state_of_set_wait.
    change (state_of (upd_sleepers _ s) t) with (state_of s t). by rewrite Ht. }
  destruct (run_node_linked _ t); exact E.
Qed.

Lemma wake_sleepers_inv now l : forall s, sched_inv s -> NoDup l ->
  (forall t, t ∈ l -> state_of s t = Some Sleeping) ->
  sched_inv (foldl (wake_sleeper now) s l).
Proof.
  induction l as [|t l IH]; intros s Hinv Hnd Hl; [done|]. cbn [foldl].
  apply NoDup_cons in Hnd as [Ht Hnd]. assert (Hst : state_of s t = Some Sleeping) by set_solver.
  unfold wake_sleeper at 2. destruct (_ <=? now).
  - apply IH; [by apply inv_wake_sleeper|done|]. intros t' Ht'.
    rewrite woken_state by done. case_decide; [set_solver|]. apply Hl. set_solver.
  - apply IH; [done|done|set_solver].
Qed.

Lemma timer_inv s : sched_inv s -> sched_inv (timer_interrupt s).
Proof.
  intros Hinv0. unfold timer_interrupt, on_timer_tick.
  set (s0 := set_pit_ticks _ s).
  assert (Hinv : sched_inv s0) by (apply (sched_inv_view s); [by split|done]).
  destruct (negb (s_running s0)); [done|]. cbv zeta.
  set (s1 := foldl _ _ _).
  assert (H1 : sched_inv s1).
  { apply wake_sleepers_inv; [done|apply Hinv|]. intros t. apply (inv_sleep s0 Hinv). }
  clearbody s1. set (s2 := upd_thread _ _ s1).
  assert (H2 : sched_inv s2).
  { apply (sched_inv_view s1); [by apply upd_thread_view|done]. }
  destruct (_ && _); [done|]. destruct (_ && _); [|by apply switch_inv].
  apply (sched_inv_view s2); [by apply upd_thread_view|done].
Qed.

Lemma yield_inv s : sched_inv s -> sched_inv (on_yield_request s).
Proof. intros. unfold on_yield_request. destruct (negb _); [done|by apply switch_inv]. Qed.

(** *** Wait queues *)

Lemma list_moves_id (l : list Z) t (P : Prop) :
  NoDup l -> (t ∈ l <-> P) -> list_moves l l t P.
Proof. intros. by split_and!. Qed.

(** A change of the wait node and the wait queues only. *)
Lemma inv_waiters s s' t st lk :
  sched_inv s -> state_of s t = Some st ->
  (forall t', state_of s' t' = state_of s t') ->
  (forall t', linked_of s' t' = if decide (t = t') then Some lk else linked_of s t') ->
  s_run_queue s' = s_run_queue s -> s_sleepers s' = s_sleepers s ->
  s_zombies s' = s_zombies s -> s_all_threads s' = s_all_threads s ->
  current_thread s' = current_thread s -> s_idle_thread s' = s_idle_thread s ->
  st <> Sleeping ->
  (forall q, NoDup (waiters s' q)
     /\ forall t', t' <> t -> t' ∈ waiters s' q -> t' ∈ waiters s q) ->
  (forall q, t ∈ waiters s' q ->
     lk = true /\ st <> Zombie /\ forall q', t ∈ waiters s' q' -> q' = q) ->
  sched_inv s'.
Proof.
  intros Hinv Ht V VL Hr Hs Hz Ha Hc Hi Hns Hw Ht'.
  assert (V' : forall t', state_of s' t' = if decide (t = t') then Some st else state_of s t').
  { intros t'. rewrite V. case_decide; congruence. }
  eapply (moves_inv s s' t st st lk Hinv Ht); [|done|].
  { intros ->. destruct (inv_idle s Hinv); [left|right]; congruence. }
  split; [done|done|done| | | |done| | |done|].
  - rewrite Hr. apply list_moves_id; [apply Hinv|]. rewrite (inv_run s Hinv), Ht. naive_solver.
  - rewrite Hs. apply list_moves_id; [apply Hinv|]. rewrite (inv_sleep s Hinv), Ht. naive_solver.
  - rewrite Hz. apply list_moves_id; [apply Hinv|]. rewrite (inv_zombie s Hinv), Ht. naive_solver.
  - rewrite V, Hc. apply Hinv.
  - intros t'. rewrite V, Hc. apply (inv_running s Hinv).
  - intros q Hq. destruct (Ht' q Hq) as (? & ? & ?). done.
Qed.

Lemma wait_append_inv q s : sched_inv s -> state_of s (current_thread s) = Some Running ->
  linked_of s (current_thread s) = Some false -> sched_inv (wait_append q s).
Proof.
  intros Hinv Hc Hl. unfold wait_append, waiters_append. set (t := current_thread s) in *.
  rewrite (thread_linked s t false Hl).
  assert (Hoff : forall q, t ∉ waiters s q).
  { intros q' Hq. destruct (inv_wait s Hinv q' t Hq). congruence. }
  set (s' := set_wait_linked _ _ _).
  assert (W : forall q', waiters s' q' = if decide (q = q') then waiters s q ++ [t] else waiters s q').
  { intros q'. exact (waiters_upd_queue q
      (fun w => mkQueue (m_waiters w ++ [t]) (m_generation w)) s q'). }
  eapply (inv_waiters s s' t Running true); try done.
  - intros t'. by etransitivity; [apply state_of_set_wait|].
  - intros t'. etransitivity; [apply linked_of_set_wait|]. case_decide; [|done].
    change (linked_of (upd_queue _ _ s) t) with (linked_of s t). by rewrite Hl.
  - intros q'. rewrite W. case_decide; subst.
    + destruct (list_moves_append (waiters s q') t True) as (H1 & _ & H3);
        [apply (inv_wait_nodup s Hinv)|apply Hoff|done|].
      split; [done|]. intros t' Hne. by rewrite H3.
    + split; [apply (inv_wait_nodup s Hinv)|done].
  - assert (Hq : forall q', t ∈ waiters s' q' -> q' = q).
    { intros q'. rewrite W. case_decide; [done|]. intros H'. by destruct (Hoff q'). }
    intros q' H'. split_and!; [done|done|]. intros q'' H''. rewrite (Hq q' H'). by apply Hq.
Qed.

(** Taking a thread off the wait queue it is on. *)
Lemma inv_unlink q t l s : sched_inv s -> t ∈ waiters s q ->
  NoDup l -> t ∉ l -> (forall t', t' ∈ l -> t' ∈ waiters s q) ->
  sched_inv (set_wait_linked false t (upd_queue q (fun w => mkQueue l (m_generation w)) s)).
Proof.
  intros Hinv Ht Hnd Hoff Hsub. destruct (inv_wait s Hinv q t Ht) as (Hl & Hns & _).
  assert (Hst : exists st, state_of s t = Some st).
  { unfold state_of, linked_of in *. destruct (threads s !! t); [by eexists|done]. }
  destruct Hst as [st Hst]. set (s' := set_wait_linked _ _ _).
  assert (W : forall q', waiters s' q' = if decide (q = q') then l else waiters s q').
  { intros q'. exact (waiters_upd_queue q (fun w => mkQueue l (m_generation w)) s q'). }
  eapply (inv_waiters s s' t st false); try done.
  - intros t'. by etransitivity; [apply state_of_set_wait|].
  - intros t'. etransitivity; [apply linked_of_set_wait|]. case_decide; [|done].
    change (linked_of (upd_queue _ _ s) t) with (linked_of s t). by rewrite Hl.
  - congruence.
  - intros q'. rewrite W. case_decide; subst.
    + split; [done|]. intros t' _. apply Hsub.
    + split; [apply (inv_wait_nodup s Hinv)|done].
  - intros q'. rewrite W. case_decide; [done|]. intros H'.
    by pose proof (inv_wait_one s Hinv _ _ _ Ht H').
Qed.

Lemma detach_inv q s : sched_inv s ->
  current_thread s ∈ waiters s q \/ linked_of s (current_thread s) = Some false ->
  sched_inv (detach_self q s).
Proof.
  intros Hinv [Hw|Hl]; unfold detach_self.
  - destruct (inv_wait s Hinv q _ Hw) as (Hl & _). rewrite (thread_linked _ _ _ Hl).
    apply (inv_unlink q _ (filter (fun x => x <> current_thread s) (waiters s q))); try done.
    + apply NoDup_filter, (inv_wait_nodup s Hinv).
    + rewrite list_elem_of_filter. tauto.
    + intros t' [_ ?]%list_elem_of_filter. done.
  - by rewrite (thread_linked _ _ _ Hl).
Qed.

Lemma take_inv q s : sched_inv s ->
  let '(r, s') := waiters_take q s in
  sched_inv s' /\ (forall t', state_of s' t' = state_of s t')
  /\ match r with Some t => t ∈ waiters s q | None => waiters s q = [] end.
Proof.
  intros Hinv. unfold waiters_take. pose proof (inv_wait_nodup s Hinv q) as Hnd.
  unfold waiters in Hnd |- *. destruct (m_waiters (queue s q)) as [|t rest] eqn:Hq; [done|].
  apply NoDup_cons in Hnd as [Hin Hnd]. split_and!; [| |set_solver].
  - pose proof (inv_unlink q t rest s Hinv) as H. unfold waiters in H. rewrite Hq in H.
    unfold upd_queue in *. rewrite Hq. cbn [tail]. apply H; [set_solver|done|done|set_solver].
  - intros t'. by etransitivity; [apply state_of_set_wait|].
Qed.

(** *** Threads come and go *)

(** [Thread::create_...] followed by [Scheduler::enqueue]. *)
Definition spawn (t : Z) (s : Sched) : Sched := enqueue t (upd_threads (insert t thread_new) s).

Lemma fresh_off_lists s t : sched_inv s -> threads s !! t = None ->
  state_of s t = None /\ linked_of s t = None /\ (t ∉ s_run_queue s) /\ (t ∉ s_zombies s)
  /\ (t ∉ s_sleepers s) /\ (t ∉ s_all_threads s) /\ (forall q, t ∉ waiters s q).
Proof.
  intros Hinv Ht. assert (Hs : state_of s t = None) by (unfold state_of; by rewrite Ht).
  assert (Hl : linked_of s t = None) by (unfold linked_of; by rewrite Ht).
  know Hinv t. pose proof (inv_all s Hinv t) as Ha. rewrite Hs in *.
  split_and!; try done; try (intuition congruence).
  - rewrite Ha. by intros [? ?].
  - intros q Hq. destruct (inv_wait s Hinv q t Hq). congruence.
Qed.

Lemma spawn_inv t s : sched_inv s -> threads s !! t = None -> sched_inv (spawn t s).
Proof.
  intros Hinv Ht. destruct (fresh_off_lists s t Hinv Ht) as (Hs & Hl & H1 & H2 & H3 & H4 & H5).
  unfold spawn, enqueue. cbn [s_all_threads upd_threads].
  rewrite bool_decide_eq_false_2 by done. rewrite run_queue_append_off by done.
  set (s' := upd_run_queue _ _).
  assert (V : forall t', state_of s' t' = if decide (t = t') then Some Ready else state_of s t').
  { intros t'. unfold s'. etransitivity; [apply state_of_set_state|].
    unfold state_of. cbn. case_decide; subst.
    - by rewrite lookup_insert_eq.
    - by rewrite lookup_insert_ne. }
  assert (VL : forall t', linked_of s' t' = if decide (t = t') then Some false else linked_of s t').
  { intros t'. unfold s'. etransitivity; [apply linked_of_set_state|].
    unfold linked_of. cbn. case_decide; subst.
    - by rewrite lookup_insert_eq.
    - by rewrite lookup_insert_ne. }
  assert (Hidle : t <> s_idle_thread s).
  { intros ->. destruct (inv_idle s Hinv); congruence. }
  destruct (list_moves_append (s_run_queue s) t True) as (R1 & R2 & R3);
    [apply Hinv|done|done|].
  split; cbn [s_run_queue s_sleepers s_zombies s_all_threads current_thread s_idle_thread
    upd_run_queue set_state upd_thread upd_threads upd_all_threads s'].
  - rewrite V. destruct (inv_current s Hinv) as [st Hc]. case_decide; by eexists.
  - rewrite V, decide_False by done. apply Hinv.
  - intros t'. rewrite V. case_decide; subst; [tauto|]. rewrite R3 by done. apply (inv_run s Hinv).
  - exact R1.
  - intros t'. rewrite V. case_decide; [done|]. apply (inv_running s Hinv).
  - intros t'. rewrite V. case_decide; subst; [naive_solver|apply (inv_sleep s Hinv)].
  - apply Hinv.
  - intros t'. rewrite V. case_decide; subst; [naive_solver|apply (inv_zombie s Hinv)].
  - apply Hinv.
  - intros t'. rewrite V, VL. case_decide; [done|apply (inv_sleep_linked s Hinv)].
  - intros q t' Hq. rewrite V, VL. case_decide; subst; [by destruct (H5 q)|].
    by apply (inv_wait s Hinv q).
  - apply (inv_wait_nodup s Hinv).
  - apply (inv_wait_one s Hinv).
  - intros t'. rewrite elem_of_app, list_elem_of_singleton, V, (inv_all s Hinv).
    case_decide; subst; [|naive_solver]. split; [intros _; by eexists|by right].
Qed.

Lemma reap_inv s : sched_inv s -> current_thread s = s_idle_thread s -> sched_inv (reap_zombie s).
Proof.
  intros Hinv Hc. unfold reap_zombie. pose proof (inv_zombie_nodup s Hinv) as Hnd.
  pose proof (inv_zombie s Hinv) as HZ.
  destruct (s_zombies s) as [|z rest] eqn:Hz; [done|]. apply NoDup_cons in Hnd as [Hin Hnd].
  assert (Hst : state_of s z = Some Zombie) by (apply HZ; set_solver).
  assert (Hzi : z <> s_idle_thread s) by (eapply inv_not_idle; done).
  set (s' := upd_threads _ _).
  assert (V : forall t', state_of s' t' = if decide (z = t') then None else state_of s t').
  { intros t'. unfold state_of, s'. cbn. case_decide; subst.
    - by rewrite lookup_delete_eq.
    - by rewrite lookup_delete_ne. }
  assert (VL : forall t', z <> t' -> linked_of s' t' = linked_of s t').
  { intros t' Hne. unfold linked_of, s'. cbn. by rewrite lookup_delete_ne. }
  split; cbn [s_run_queue s_sleepers s_zombies s_all_threads current_thread s_idle_thread
    upd_zombies upd_threads upd_all_threads s']; rewrite ?Hz; cbn [tail].
  - rewrite V, Hc, decide_False by done. rewrite <- Hc. apply Hinv.
  - rewrite V, decide_False by done. apply Hinv.
  - intros t'. rewrite V, (inv_run s Hinv). case_decide; subst; [naive_solver|done].
  - apply Hinv.
  - intros t'. rewrite V. case_decide; [done|apply (inv_running s Hinv)].
  - intros t'. rewrite V, (inv_sleep s Hinv). case_decide; subst; [naive_solver|done].
  - apply Hinv.
  - intros t'. rewrite V. specialize (HZ t'). case_decide; set_solver.
  - done.
  - intros t'. rewrite V. case_decide; [done|]. rewrite VL by done. apply (inv_sleep_linked s Hinv).
  - intros q t' Hq. destruct (inv_wait s Hinv q t' Hq) as (? & ? & ?). rewrite V.
    case_decide; [congruence|]. by rewrite VL.
  - apply (inv_wait_nodup s Hinv).
  - apply (inv_wait_one s Hinv).
  - intros t'. rewrite list_elem_of_filter, V, (inv_all s Hinv). case_decide; [|naive_solver].
    split; [naive_solver|by intros [? ?]].
Qed.

(** ** Steps

    The current thread acts (the first group, its guards the conditions every
    caller meets: a thread that blocks, sleeps or exits is running, is not the
    idle thread, and is on no wait list already), or an interrupt does. *)

Definition can_leave (s : Sched) : Prop :=
  state_of s (current_thread s) = Some Running /\ current_thread s <> s_idle_thread s.
Definition unlisted (s : Sched) : Prop := linked_of s (current_thread s) = Some false.

Inductive Act :=
| ABlock (reason : ThreadState) | ASleep (frequency ms : Z) | AExit
| AWait (q : Z) | ADetach (q : Z) | ASpawn (t : Z) | AReap | AYield
| ATimer | AUnblock (t : Z) | AWakeOne (q : Z) | AWakeAll (q : Z).

Definition act_ok (a : Act) (s : Sched) : Prop :=
  match a with
  | ABlock reason => can_leave s /\ (reason = Blocked \/ reason = Stopped)
  | ASleep _ _ | AExit | AWait _ => can_leave s /\ unlisted s
  | ADetach q => current_thread s ∈ waiters s q \/ unlisted s
  | ASpawn t => threads s !! t = None
  | AReap => current_thread s = s_idle_thread s
  | AUnblock t => is_Some (state_of s t) /\ state_of s t <> Some Zombie
  | AYield | ATimer | AWakeOne _ | AWakeAll _ => True
  end.

Definition act_run (a : Act) (s : Sched) : Sched :=
  match a with
  | ABlock reason => block_current_mark reason s
  | ASleep frequency ms => sleep_mark frequency ms s
  | AExit => exit_mark s
  | AWait q => wait_append q s
  | ADetach q => detach_self q s
  | ASpawn t => spawn t s
  | AReap => reap_zombie s
  | AYield => on_yield_request s
  | ATimer => timer_interrupt s
  | AUnblock t => unblock t s
  | AWakeOne q => wake_one q s
  | AWakeAll q => wake_all_of q s
  end.

Inductive sched_run : list Act -> Sched -> Sched -> Prop :=
| run_nil s : sched_run [] s s
| run_cons a acts s s' : act_ok a s -> sched_run acts (act_run a s) s' ->
    sched_run (a :: acts) s s'.

Lemma wake_one_inv q s : sched_inv s -> sched_inv (wake_one q s).
Proof.
  intros Hinv. unfold wake_one. pose proof (take_inv q s Hinv) as Ht.
  destruct (waiters_take q s) as [[t|] s']; destruct Ht as (Hi & Hst & Hr); [|done].
  destruct (inv_wait s Hinv q t Hr) as (Hl & _ & Hz). apply unblock_inv; [done|..].
  - rewrite Hst. unfold linked_of, state_of in *. destruct (threads s !! t); [by eexists|done].
  - by rewrite Hst.
Qed.

Lemma wake_loop_wake_one fuel q : forall s,
  wake_loop fuel q s = Nat.iter fuel (wake_one q) s.
Proof.
  induction fuel as [|fuel IH]; intros s; [done|].
  rewrite Nat.iter_succ_r. cbn [wake_loop]. unfold wake_one at 2, waiters_take.
  destruct (m_waiters (queue s q)) as [|t rest] eqn:Hq; [|by rewrite IH].
  rewrite <- IH. destruct fuel; [done|]. cbn [wake_loop]. unfold waiters_take. by rewrite Hq.
Qed.

Lemma iter_inv f n s : (forall s, sched_inv s -> sched_inv (f s)) -> sched_inv s ->
  sched_inv (Nat.iter n f s).
Proof. intros Hf Hs. induction n as [|n IH]; [done|]. cbn. by apply Hf. Qed.

Lemma wake_all_of_inv q s : sched_inv s -> sched_inv (wake_all_of q s).
Proof.
  intros Hinv. unfold wake_all_of. rewrite wake_loop_wake_one.
  apply iter_inv; [by apply wake_one_inv|]. apply (sched_inv_view s); [|done].
  split; try done. intros q'.
  etransitivity; [apply (waiters_upd_queue q (fun w => mkQueue (m_waiters w)
    (u64 (m_generation w + 1))) s)|]. by case_decide; subst.
Qed.

Lemma act_inv a s : act_ok a s -> sched_inv s -> sched_inv (act_run a s).
Proof.
  intros Hok Hinv. destruct a; cbn in *; unfold can_leave, unlisted in *; destruct_and?.
  - by apply block_mark_inv.
  - by apply sleep_mark_inv.
  - by apply exit_mark_inv.
  - by apply wait_append_inv.
  - by apply detach_inv.
  - by apply spawn_inv.
  - by apply reap_inv.
  - by apply yield_inv.
  - by apply timer_inv.
  - by apply unblock_inv.
  - by apply wake_one_inv.
  - by apply wake_all_of_inv.
Qed.

Lemma sched_run_inv acts s s' : sched_run acts s s' -> sched_inv s -> sched_inv s'.
Proof. induction 1; eauto using act_inv. Qed.

(** [Scheduler::initialize]: the boot context runs, the idle thread waits off
    the run queue. *)
Definition sched_boot (idle boot : Z) : Sched :=
  mkSched (<[idle := thread_new]> {[boot := mkThread Running DEFAULT_QUANTUM_TICKS 0 0 false]})
    [] [idle; boot] [] [] true idle boot 0 0 ∅.

Lemma sched_boot_inv idle boot : idle <> boot -> sched_inv (sched_boot idle boot).
Proof.
  intros Hne.
  assert (V : forall t, state_of (sched_boot idle boot) t
    = if decide (idle = t) then Some Ready else if decide (boot = t) then Some Running else None).
  { intros t. unfold state_of, sched_boot. cbn. case_decide; subst.
    - by rewrite lookup_insert_eq.
    - rewrite lookup_insert_ne by done. case_decide; subst.
      + by rewrite lookup_singleton_eq.
      + by rewrite lookup_singleton_ne. }
  split; cbn [sched_boot s_run_queue s_all_threads s_zombies s_sleepers s_idle_thread
    current_thread]; try (intros; rewrite V in * ); try constructor; try done.
  all: try (intros; rewrite ?V in *; repeat case_decide; subst; try done; set_solver).
Qed.

(** ** Round robin *)

Definition quantum (s : Sched) : Z := m_quantum_remaining (thread s (current_thread s)).

(** Waking a sleeper adds at the end of the run queue and leaves the current
    thread's quantum alone. *)
Definition run_queue_grows (s s' : Sched) : Prop :=
  (exists w, s_run_queue s' = s_run_queue s ++ w) /\ current_thread s' = current_thread s
  /\ (forall t, m_quantum_remaining (thread s' t) = m_quantum_remaining (thread s t))
  /\ s_running s' = s_running s /\ s_idle_thread s' = s_idle_thread s
  /\ (forall t, is_Some (threads s' !! t) <-> is_Some (threads s !! t)).

Lemma upd_thread_keeps f t s :
  (forall r, m_quantum_remaining (f r) = m_quantum_remaining r) ->
  (forall t', m_quantum_remaining (thread (upd_thread t f s) t')
              = m_quantum_remaining (thread s t'))
  /\ (forall t', is_Some (threads (upd_thread t f s) !! t') <-> is_Some (threads s !! t')).
Proof.
  intros Hf. split; intros t'.
  - unfold thread. cbn. destruct (decide (t = t')) as [->|].
    + rewrite lookup_alter_eq. destruct (threads s !! t'); cbn; [apply Hf|done].
    + by rewrite lookup_alter_ne.
  - cbn. by rewrite lookup_alter_is_Some.
Qed.

Lemma wake_sleeper_grows now s t : run_queue_grows s (wake_sleeper now s t).
Proof.
  unfold wake_sleeper. destruct (_ <=? now).
  2:{ split_and!; try done. exists []. by rewrite app_nil_r. }
  assert (Hk : forall s1, (forall t', m_quantum_remaining (thread (set_state Ready t
      (sleepers_remove t s1)) t') = m_quantum_remaining (thread s1 t'))
    /\ (forall t', is_Some (threads (set_state Ready t (sleepers_remove t s1)) !! t')
                   <-> is_Some (threads s1 !! t'))).
  { intros s1. split; intros t'.
    - etransitivity; [refine (proj1 (upd_thread_keeps _ _ _ _) t'); done|].
      refine (proj1 (upd_thread_keeps _ _ (upd_sleepers _ s1) _) t'); done.
    - etransitivity; [refine (proj2 (upd_thread_keeps _ _ _ _) t'); done|].
      refine (proj2 (upd_thread_keeps _ _ (upd_sleepers _ s1) _) t'); done. }
  destruct (Hk s) as [Hq He]. unfold run_queue_append. destruct (run_node_linked _ t).
  - split_and!; try done. exists []. cbn. by rewrite app_nil_r.
  - split_and!; try done. by exists [t].
Qed.

Lemma grows_trans s1 s2 s3 :
  run_queue_grows s1 s2 -> run_queue_grows s2 s3 -> run_queue_grows s1 s3.
Proof.
  intros ([w1 H1] & H2 & H3 & H4 & H5 & H6) ([w1' H1'] & H2' & H3' & H4' & H5' & H6').
  split_and!; try congruence.
  - exists (w1 ++ w1'). by rewrite H1', H1, app_assoc.
  - intros t. by rewrite H6', H6.
Qed.

Lemma wake_sleepers_grow now l : forall s, run_queue_grows s (foldl (wake_sleeper now) s l).
Proof.
  induction l as [|t l IH]; intros s; cbn [foldl].
  - split_and!; try done. exists []. by rewrite app_nil_r.
  - eapply grows_trans; [apply wake_sleeper_grows|apply IH].
Qed.

Lemma thread_upd_eq f t s : is_Some (threads s !! t) -> thread (upd_thread t f s) t = f (thread s t).
Proof. intros [r Hr]. unfold thread. cbn. by rewrite lookup_alter_eq, Hr. Qed.

Lemma switch_takes_head s next rest : sched_inv s -> s_run_queue s = next :: rest ->
  let s' := switch_to_next true s in
  current_thread s' = next /\ (exists w, s_run_queue s' = rest ++ w)
  /\ quantum s' = DEFAULT_QUANTUM_TICKS /\ s_running s' = s_running s.
Proof.
  intros Hinv Hq. rewrite switch_to_next_split. unfold requeue.
  set (s1 := if bool_decide _ then _ else s).
  assert (H1 : (exists w, s_run_queue s1 = next :: rest ++ w) /\ s_running s1 = s_running s
    /\ forall t, is_Some (threads s1 !! t) <-> is_Some (threads s !! t)).
  { unfold s1. destruct (bool_decide _).
    2:{ split_and!; try done. exists []. by rewrite app_nil_r. }
    assert (Hk : forall t, is_Some (threads (set_state Ready (current_thread s) s) !! t)
      <-> is_Some (threads s !! t)) by (by apply upd_thread_keeps).
    unfold run_queue_append. destruct (negb _); [destruct (run_node_linked _ _)|];
      (split_and!; [|done|exact Hk]); cbn; rewrite Hq;
      [exists []; by rewrite app_nil_r|by eexists|exists []; by rewrite app_nil_r]. }
  destruct H1 as ([w Hw] & Hr & He). clearbody s1. unfold run_next. rewrite Hw.
  split_and!; [done|by exists w; cbn; rewrite Hw| |done].
  assert (Hn : is_Some (threads s1 !! next)).
  { apply He. assert (Hin : next ∈ s_run_queue s) by (rewrite Hq; set_solver).
    apply (inv_run s Hinv) in Hin as [Hst _]. unfold state_of in Hst.
    destruct (threads s !! next); [by eexists|done]. }
  unfold quantum, set_quantum. cbn [current_thread set_current].
  change (thread (set_current _ _ ?x)) with (thread x).
  rewrite thread_upd_eq; [done|]. apply upd_thread_keeps; done.
Qed.

(** One tick with work waiting: the quantum runs down, or the head of the run
    queue gets the CPU with a full quantum. *)
Lemma tick_progress s next rest : sched_inv s -> s_running s = true ->
  s_run_queue s = next :: rest -> 0 <= quantum s ->
  let s' := timer_interrupt s in
  s_running s' = true /\ sched_inv s'
  /\ (((exists w, s_run_queue s' = next :: rest ++ w) /\ quantum s' = quantum s - 1
          /\ 1 <= quantum s')
      \/ ((exists w, s_run_queue s' = rest ++ w) /\ quantum s' = DEFAULT_QUANTUM_TICKS
          /\ current_thread s' = next)).
Proof.
  intros Hinv0 Hrun Hq Hqu s'. assert (Hinv' : sched_inv s') by (by apply timer_inv).
  unfold s', timer_interrupt, on_timer_tick in *. clear s'.
  set (s0 := set_pit_ticks _ s) in *.
  assert (Hinv : sched_inv s0) by (apply (sched_inv_view s); [by split|done]).
  change (s_running s0) with (s_running s) in *. rewrite Hrun in *. cbn [negb] in *.
  cbv zeta in *. set (s1 := foldl _ s0 _) in *.
  assert (H1 : sched_inv s1).
  { apply wake_sleepers_inv; [done|apply Hinv|]. intros t. apply (inv_sleep s0 Hinv). }
  destruct (wake_sleepers_grow (pit_ticks s0) (s_sleepers s0) s0) as ([w Hw] & Hc & Hm & Hr & Hi & He).
  fold s1 in Hw, Hc, Hm, Hr, Hi, He. clearbody s1.
  change (s_run_queue s0) with (s_run_queue s) in Hw. rewrite Hq in Hw.
  set (s2 := upd_thread _ _ s1) in *.
  assert (H2 : sched_inv s2) by (apply (sched_inv_view s1); [by apply upd_thread_view|done]).
  assert (Hex : is_Some (threads s1 !! current_thread s1)).
  { destruct (inv_current s1 H1) as [st Hst]. unfold state_of in Hst.
    destruct (threads s1 !! _); [by eexists|done]. }
  assert (Hq2 : m_quantum_remaining (thread s2 (current_thread s1))
    = if quantum s >? 0 then quantum s - 1 else quantum s).
  { unfold s2. rewrite thread_upd_eq by done. cbn [m_quantum_remaining].
    rewrite Hm, Hc. done. }
  change (s_run_queue s2) with (s_run_queue s1) in *.
  assert (Hrq2 : s_run_queue s2 = next :: rest ++ w) by exact Hw.
  assert (Hr2 : s_running s2 = true) by (etransitivity; [exact Hr|exact Hrun]).
  rewrite Hw in *. cbn [app andb negb] in *. rewrite andb_true_r in *.
  destruct (negb _ && negb _) eqn:Hgo.
  - split_and!; [done|done|]. left. split; [by exists w|].
    change (quantum s2) with (m_quantum_remaining (thread s2 (current_thread s1))).
    rewrite Hq2.
    apply andb_true_iff in Hgo as [Hz _]. rewrite Hq2 in Hz.
    destruct (quantum s >? 0) eqn:Hg; zcases_in Hz; cbn in Hz; try done; lia.
  - destruct (switch_takes_head s2 next (rest ++ w) H2 Hrq2) as (Ha & [w' Hb] & Hd & Hf).
    split_and!; [congruence|done|]. right. split_and!; [|done|done].
    exists (w ++ w'). by rewrite Hb, app_assoc.
Qed.

Lemma scheduled_within k : forall s t, sched_inv s -> s_running s = true ->
  0 <= quantum s <= DEFAULT_QUANTUM_TICKS -> s_run_queue s !! k = Some t ->
  exists n, (n <= 5 * S k)%nat /\ current_thread (Nat.iter n timer_interrupt s) = t.
Proof.
  (* within one turn: the quantum of the current thread runs down *)
  assert (Hturn : forall m s next rest, quantum s <= Z.of_nat m -> sched_inv s ->
    s_running s = true -> 0 <= quantum s -> s_run_queue s = next :: rest ->
    exists n, (1 <= n <= Nat.max 1 m)%nat /\ let s' := Nat.iter n timer_interrupt s in
      current_thread s' = next /\ (exists w, s_run_queue s' = rest ++ w)
      /\ quantum s' = DEFAULT_QUANTUM_TICKS /\ s_running s' = true /\ sched_inv s').
  { induction m as [|m IH]; intros s next rest Hm Hinv Hrun Hq0 Hrq;
      destruct (tick_progress s next rest Hinv Hrun Hrq Hq0) as
        (Hr & Hi & [([w Hw] & Hq & Hq1)|([w Hw] & Hq & Hc)]); try lia.
    - exists 1%nat. split; [lia|]. cbn. split_and!; eauto.
    - destruct (IH (timer_interrupt s) next (rest ++ w)) as (n & Hn & Hc & [w' Hw'] & Hrest);
        [lia|done|done|lia|done|].
      exists (S n). split; [lia|]. rewrite Nat.iter_succ_r. split_and!; try apply Hrest; [done|].
      exists (w ++ w'). by rewrite Hw', app_assoc.
    - exists 1%nat. split; [lia|]. cbn. split_and!; eauto. }
  induction k as [|k IH]; intros s t Hinv Hrun Hqu Hk;
    destruct (s_run_queue s) as [|next rest] eqn:Hrq; try done;
    destruct (Hturn 5%nat s next rest ltac:(unfold DEFAULT_QUANTUM_TICKS in Hqu; lia)
      Hinv Hrun ltac:(lia) Hrq) as (n & Hn & Hc & [w Hw] & Hq' & Hr' & Hi').
  - injection Hk as ->. exists n. split; [lia|done].
  - destruct (IH (Nat.iter n timer_interrupt s) t) as (m & Hm & Hcm); [done|done| | |].
    + rewrite Hq'. done.
    + rewrite Hw. by apply lookup_app_l_Some.
    + exists (m + n)%nat. split; [lia|]. by rewrite Nat.iter_add.
Qed.

(** ** Waking *)

Definition woken (st : ThreadState) : ThreadState :=
  match st with Running => Running | _ => Ready end.

Lemma unblock_state t s t' :
  state_of (unblock t s) t' = if decide (t = t') then woken <$> state_of s t else state_of s t'.
Proof.
  unfold unblock. destruct (threads s !! t) as [r|] eqn:Hr.
  2:{ assert (thread s t = thread_new) as -> by (unfold thread; by rewrite Hr).
      cbn [m_state thread_new]. rewrite (bool_decide_eq_true_2 (Ready = Ready)), orb_true_r by done.
      case_decide; subst; [|done]. unfold state_of. by rewrite Hr. }
  assert (Hst : state_of s t = Some (m_state r)) by (unfold state_of; by rewrite Hr).
  rewrite (thread_state s t _ Hst).
  assert (Hgo : forall s1, state_of s1 t = state_of s t -> (forall t', state_of s1 t' = state_of s t') ->
    state_of (run_queue_append t (set_state Ready t s1)) t'
    = if decide (t = t') then Some Ready else state_of s t').
  { intros s1 H1 H2. assert (E : state_of (set_state Ready t s1) t'
      = if decide (t = t') then Some Ready else state_of s t').
    { rewrite state_of_set_state, H1, H2, Hst. done. }
    unfold run_queue_append. destruct (run_node_linked _ t); exact E. }
  destruct (m_state r) eqn:Hm; rewrite ?bool_decide_eq_true_2, ?bool_decide_eq_false_2 by done;
    cbn [orb andb]; rewrite ?Hst; cbn [woken fmap option_fmap option_map]; try (by apply Hgo).
  - case_decide; subst; done.
  - case_decide; subst; done.
  - apply Hgo; [|intros t0]; destruct (_ && _); unfold sleepers_remove;
      rewrite ?state_of_set_wait; done.
Qed.

Lemma unblock_waiters t s q : waiters (unblock t s) q = waiters s q.
Proof.
  unfold unblock. destruct (_ || _); [done|]. unfold run_queue_append.
  destruct (bool_decide _ && _); by destruct (run_node_linked _ t).
Qed.

Lemma wake_one_effect q s t rest : waiters s q = t :: rest ->
  waiters (wake_one q s) q = rest
  /\ forall t', state_of (wake_one q s) t'
     = if decide (t = t') then woken <$> state_of s t else state_of s t'.
Proof.
  intros Hq. unfold wake_one, waiters_take. unfold waiters in Hq. rewrite Hq. split.
  - rewrite unblock_waiters. etransitivity;
      [exact (waiters_upd_queue q (fun w => mkQueue (tail (m_waiters w)) (m_generation w)) s q)|].
    rewrite decide_True by done. cbn. by rewrite Hq.
  - intros t'. rewrite unblock_state, !state_of_set_wait. done.
Qed.

Lemma wake_iter_effect q l : forall s, waiters s q = l ->
  let s' := Nat.iter (length l) (wake_one q) s in
  waiters s' q = [] /\ forall t', state_of s' t'
    = if decide (t' ∈ l) then woken <$> state_of s t' else state_of s t'.
Proof.
  induction l as [|t l IH]; intros s Hq.
  { split; [done|]. intros t'. rewrite decide_False by set_solver. done. }
  cbn [length]. rewrite Nat.iter_succ_r.
  destruct (wake_one_effect q s t l Hq) as [Hw Hst].
  destruct (IH (wake_one q s) Hw) as [H1 H2]. split; [done|]. intros t'. rewrite H2, Hst.
  assert (Hww : forall o : option ThreadState, woken <$> (woken <$> o) = woken <$> o)
    by (by intros [[]|]).
  destruct (decide (t = t')) as [->|Hne].
  - rewrite (decide_True (P := t' ∈ t' :: l)) by set_solver. case_decide; [apply Hww|done].
  - repeat case_decide; set_solver.
Qed.

Lemma wake_all_effect q s :
  waiters (wake_all_of q s) q = []
  /\ forall t, state_of (wake_all_of q s) t
     = if decide (t ∈ waiters s q) then woken <$> state_of s t else state_of s t.
Proof.
  unfold wake_all_of. set (s1 := upd_queue _ _ s). cbv zeta. rewrite wake_loop_wake_one.
  assert (Hw : waiters s1 q = waiters s q).
  { etransitivity; [exact (waiters_upd_queue q (fun w => mkQueue (m_waiters w)
      (u64 (m_generation w + 1))) s q)|]. by rewrite decide_True. }
  fold (waiters s1 q). destruct (wake_iter_effect q (waiters s1 q) s1 eq_refl) as [H1 H2].
  split; [done|]. intros t. rewrite H2, Hw. done.
Qed.

(** ** A thread nobody will wake *)

(** Off the CPU, blocked, and on no queue a wake would find it on. *)
Definition stranded (s : Sched) (t : Z) : Prop :=
  state_of s t = Some Blocked /\ linked_of s t = Some false /\ t <> current_thread s.

(** The record of [t] is not written. *)
Definition spares (t : Z) (s s' : Sched) : Prop := threads s' !! t = threads s !! t.

Lemma spares_upd t t' f s : t <> t' -> spares t s (upd_thread t' f s).
Proof. intros. unfold spares. cbn. by rewrite lookup_alter_ne. Qed.

Lemma spares_trans t s1 s2 s3 : spares t s1 s2 -> spares t s2 s3 -> spares t s1 s3.
Proof. unfold spares. congruence. Qed.

Lemma spares_append t t' s : spares t s (run_queue_append t' s).
Proof. unfold run_queue_append. by destruct (run_node_linked s t'). Qed.

Lemma spares_unblock t t' s : t <> t' -> spares t s (unblock t' s).
Proof.
  intros Hne. unfold unblock. destruct (_ || _); [done|].
  eapply spares_trans; [|apply spares_append]. eapply spares_trans; [|by apply spares_upd].
  destruct (_ && _); [|done]. eapply spares_trans; [|by apply spares_upd]. done.
Qed.

Lemma spares_wake_one t q s : t ∉ waiters s q -> spares t s (wake_one q s).
Proof.
  intros Ht. unfold wake_one, waiters_take. unfold waiters in Ht.
  destruct (m_waiters (queue s q)) as [|t' rest]; [done|].
  assert (t <> t') by set_solver.
  eapply spares_trans; [|by apply spares_unblock]. eapply spares_trans; [|by apply spares_upd].
  done.
Qed.

Lemma stranded_off_queues s t q : sched_inv s -> stranded s t -> t ∉ waiters s q.
Proof. intros Hinv (_ & Hl & _) Hq. destruct (inv_wait s Hinv q t Hq). congruence. Qed.

Lemma stranded_spared s s' t : stranded s t -> spares t s s' -> t <> current_thread s' ->
  stranded s' t.
Proof. intros (H1 & H2 & _) Hs Hc. unfold stranded, state_of, linked_of in *. by rewrite Hs. Qed.

Lemma wake_one_current q s : current_thread (wake_one q s) = current_thread s.
Proof.
  unfold wake_one, waiters_take. destruct (m_waiters _) as [|t' rest]; [done|].
  unfold unblock. destruct (_ || _); [done|]. unfold run_queue_append.
  destruct (bool_decide _ && _); by destruct (run_node_linked _ t').
Qed.

Lemma wake_iter_stranded n q : forall s t, sched_inv s -> stranded s t ->
  stranded (Nat.iter n (wake_one q) s) t.
Proof.
  induction n as [|n IH]; intros s t Hinv Hs; [done|]. rewrite Nat.iter_succ_r.
  apply IH; [by apply wake_one_inv|]. eapply stranded_spared; [done| |].
  - apply spares_wake_one. by apply stranded_off_queues.
  - rewrite wake_one_current. apply Hs.
Qed.

Lemma switch_stranded s t : sched_inv s -> stranded s t -> stranded (switch_to_next true s) t.
Proof.
  intros Hinv Hs. rewrite switch_to_next_split. pose proof Hs as (Hb & _ & Hc).
  assert (Hi : t <> s_idle_thread s) by (by eapply inv_not_idle).
  assert (Hsp : spares t s (requeue s)).
  { unfold requeue. destruct (bool_decide _); [|done].
    destruct (negb _); [eapply spares_trans; [|apply spares_append]|]; by apply spares_upd. }
  destruct (requeue_inv s Hinv) as [Hinv1 _].
  assert (Hi1 : s_idle_thread (requeue s) = s_idle_thread s).
  { unfold requeue. destruct (bool_decide _); [|done]. destruct (negb _); [|done].
    unfold run_queue_append. by destruct (run_node_linked _ _). }
  assert (Hb1 : state_of (requeue s) t = Some Blocked) by (unfold state_of in *; by rewrite Hsp).
  revert Hsp Hi1 Hb1 Hinv1. generalize (requeue s). intros s1 Hsp Hi1 Hb1 Hinv1.
  unfold run_next. destruct (s_run_queue s1) as [|next rest] eqn:Hq.
  - rewrite Hi1. eapply stranded_spared; [exact Hs| |done].
    eapply spares_trans; [exact Hsp|]. eapply spares_trans; by apply spares_upd.
  - assert (Hne : t <> next).
    { intros ->. assert (Hin : next ∈ s_run_queue s1) by (rewrite Hq; set_solver).
      apply (inv_run s1 Hinv1) in Hin as [? _]. congruence. }
    eapply stranded_spared; [exact Hs| |done].
    eapply spares_trans; [exact Hsp|].
    eapply (spares_trans t s1 (upd_run_queue tail s1)); [done|].
    eapply spares_trans; by apply spares_upd.
Qed.

Lemma spares_wake_sleepers now t l : forall s, t ∉ l -> spares t s (foldl (wake_sleeper now) s l).
Proof.
  induction l as [|x l IH]; intros s Ht; [done|]. cbn [foldl].
  eapply spares_trans; [|apply IH; set_solver]. unfold wake_sleeper.
  destruct (_ <=? _); [|done]. assert (t <> x) by set_solver.
  eapply spares_trans; [|apply spares_append]. eapply spares_trans; [|by apply spares_upd].
  eapply spares_trans; [|by apply spares_upd]. done.
Qed.

Lemma timer_stranded s t : sched_inv s -> stranded s t -> stranded (timer_interrupt s) t.
Proof.
  intros Hinv0 Hs0. unfold timer_interrupt, on_timer_tick.
  set (s0 := set_pit_ticks _ s).
  assert (Hinv : sched_inv s0) by (apply (sched_inv_view s); [by split|done]).
  assert (Hs : stranded s0 t) by done. clearbody s0. clear Hinv0 Hs0 s.
  destruct (negb (s_running s0)); [done|]. cbv zeta. set (s1 := foldl _ _ _).
  assert (H1 : sched_inv s1 /\ stranded s1 t).
  { split; [apply wake_sleepers_inv; [done|apply Hinv|intros x; apply (inv_sleep s0 Hinv)]|].
    destruct (wake_sleepers_grow (pit_ticks s0) (s_sleepers s0) s0) as (_ & Hc & _).
    eapply stranded_spared; [exact Hs| |unfold s1; rewrite Hc; apply Hs].
    assert (Ht : t ∉ s_sleepers s0).
    { rewrite (inv_sleep s0 Hinv). destruct Hs as [-> _]. done. }
    by apply spares_wake_sleepers. }
  destruct H1 as [H1 Hs1]. clearbody s1. set (s2 := upd_thread _ _ s1).
  assert (H2 : sched_inv s2) by (apply (sched_inv_view s1); [by apply upd_thread_view|done]).
  assert (Hs2 : stranded s2 t).
  { eapply stranded_spared; [exact Hs1|apply spares_upd, Hs1|apply Hs1]. }
  destruct (_ && _); [done|]. destruct (_ && _); [|by apply switch_stranded].
  eapply stranded_spared; [exact Hs2|apply spares_upd, Hs1|apply Hs2].
Qed.

Lemma act_stranded a s t : act_ok a s -> a <> AUnblock t -> sched_inv s -> stranded s t ->
  stranded (act_run a s) t.
Proof.
  intros Hok Hne Hinv Hs. pose proof Hs as (Hb & Hl & Hc).
  assert (Hup : forall f, spares t s (upd_thread (current_thread s) f s)) by (by intros; apply spares_upd).
  destruct a as [r|f ms| |q|q|t'| | | |t'|q|q]; cbn in *.
  - eapply stranded_spared; [done|apply Hup|done].
  - eapply stranded_spared; [done| |].
    + unfold sleep_mark. set (s1 := set_state _ _ _). eapply (spares_trans t s s1).
      * eapply spares_trans; [apply Hup|]. by apply spares_upd.
      * unfold sleepers_append. destruct (wait_linked _); [done|].
        eapply spares_trans; [|by apply spares_upd]. done.
    + unfold sleep_mark, sleepers_append. by destruct (wait_linked _).
  - eapply stranded_spared; [done| |].
    + unfold exit_mark, zombies_append. destruct (run_node_linked _ _); apply Hup.
    + unfold exit_mark, zombies_append. by destruct (run_node_linked _ _).
  - unfold wait_append, waiters_append. destruct (wait_linked _); [done|].
    eapply stranded_spared; [done| |done]. eapply spares_trans; [|by apply spares_upd]. done.
  - unfold detach_self. destruct (wait_linked _); [|done].
    eapply stranded_spared; [done| |done]. eapply spares_trans; [|by apply spares_upd]. done.
  - assert (t <> t') by (intros ->; unfold state_of in Hb; by rewrite Hok in Hb).
    eapply stranded_spared; [done| |].
    + unfold spawn, enqueue. eapply spares_trans; [|apply spares_append].
      eapply spares_trans; [|by apply spares_upd]. unfold spares.
      destruct (bool_decide _); cbn; by rewrite lookup_insert_ne.
    + unfold spawn, enqueue, run_queue_append.
      destruct (run_node_linked _ _), (bool_decide _); done.
  - unfold reap_zombie. pose proof (inv_zombie s Hinv) as Hz.
    destruct (s_zombies s) as [|z rest]; [done|].
    assert (t <> z) by (intros ->; assert (Hin : z ∈ z :: rest) by set_solver;
      apply Hz in Hin; congruence).
    eapply stranded_spared; [done| |done]. unfold spares. cbn. by rewrite lookup_delete_ne.
  - unfold on_yield_request. destruct (negb _); [done|by apply switch_stranded].
  - by apply timer_stranded.
  - assert (t <> t') by congruence. eapply stranded_spared; [done|by apply spares_unblock|].
    unfold unblock. destruct (_ || _); [done|]. unfold run_queue_append.
    destruct (bool_decide _ && _); by destruct (run_node_linked _ t').
  - by apply (wake_iter_stranded 1).
  - unfold wake_all_of. rewrite wake_loop_wake_one. apply wake_iter_stranded; [|done].
    apply (sched_inv_view s); [|done]. split; try done. intros q'.
    etransitivity; [apply (waiters_upd_queue q (fun w => mkQueue (m_waiters w)
      (u64 (m_generation w + 1))) s)|]. by case_decide; subst.
Qed.

Lemma run_stranded acts s s' t : sched_run acts s s' -> AUnblock t ∉ acts ->
  sched_inv s -> stranded s t -> stranded s' t.
Proof.
  induction 1 as [|a acts s s' Hok Hrun IH]; intros Hq Hinv Hs; [done|].
  apply IH; [set_solver|by apply act_inv|]. apply act_stranded; [done| |done|done]. set_solver.
Qed.

(** ** The theorems *)


(** Two threads beside the boot thread; one sleeps, one is started. *)
Definition demo_acts : list Act :=
  [ASpawn 3; ASpawn 4; ASleep 250 8; AYield; ATimer; AWait 9; ABlock Blocked; AYield; AWakeAll 9].

(** The guards of the demonstration runs, checked by computation. *)
Definition act_okb (a : Act) (s : Sched) : bool :=
  let can := bool_decide (state_of s (current_thread s) = Some Running)
             && negb (current_thread s =? s_idle_thread s) in
  let free := bool_decide (linked_of s (current_thread s) = Some false) in
  match a with
  | ABlock r => can && (bool_decide (r = Blocked) || bool_decide (r = Stopped))
  | ASleep _ _ | AExit | AWait _ => can && free
  | ADetach q => bool_decide (current_thread s ∈ waiters s q) || free
  | ASpawn t => bool_decide (state_of s t = None)
  | AReap => current_thread s =? s_idle_thread s
  | AUnblock t => negb (bool_decide (state_of s t = None))
                  && negb (bool_decide (state_of s t = Some Zombie))
  | _ => true
  end.

Fixpoint acts_okb (acts : list Act) (s : Sched) : bool :=
  match acts with
  | [] => true
  | a :: acts' => act_okb a s && acts_okb acts' (act_run a s)
  end.

Lemma act_okb_sound a s : act_okb a s = true -> act_ok a s.
Proof.
  unfold act_okb, act_ok, can_leave, unlisted, state_of.
  destruct a; intros H; rewrite ?andb_true_iff, ?orb_true_iff, ?negb_true_iff,
    ?bool_decide_eq_true, ?bool_decide_eq_false, ?Z.eqb_eq, ?Z.eqb_neq in H; try tauto.
  - by destruct (threads s !! t).
  - destruct (threads s !! t); [|naive_solver]. split; [by eexists|tauto].
Qed.

Lemma acts_okb_run acts : forall s, acts_okb acts s = true ->
  sched_run acts s (foldl (fun s a => act_run a s) s acts).
Proof.
  induction acts as [|a acts IH]; intros s; cbn [acts_okb foldl]; [constructor|].
  intros [Ha Hr]%andb_true_iff. constructor; [by apply act_okb_sound|by apply IH].
Qed.

Definition demo_sched : Sched := foldl (fun s a => act_run a s) (sched_boot 1 2) demo_acts.


(** C18: round robin is fair: a thread at position [k] of the run queue is given
    the CPU within [5 * (k + 1)] timer ticks, even if every running thread only
    ever gives it up when its quantum ends, and however many sleepers wake. *)
Theorem ready_thread_runs s t k : sched_inv s -> s_running s = true ->
  0 <= quantum s <= DEFAULT_QUANTUM_TICKS -> s_run_queue s !! k = Some t ->
  exists n, (n <= 5 * (k + 1))%nat /\ current_thread (Nat.iter n timer_interrupt s) = t.
Proof.
  intros Hinv Hr Hq Hk. destruct (scheduled_within k s t Hinv Hr Hq Hk) as (n & Hn & Hc).
  exists n. split; [lia|done].
Qed.

Lemma ready_thread_runs_witness :
  exists n, (n <= 5 * (0 + 1))%nat /\ current_thread (Nat.iter n timer_interrupt demo_sched) = 3.
Proof.
  apply (ready_thread_runs demo_sched 3 0).
  - eapply sched_run_inv; [apply (acts_okb_run demo_acts); vm_compute; reflexivity|].
    apply sched_boot_inv. lia.
  - vm_compute. reflexivity.
  - vm_compute. split; discriminate.
  - vm_compute. reflexivity.
Defined.

(** [wake_all] leaves its queue empty with every thread that was on it
    runnable, and changes the state of no other thread. *)
Theorem wake_all_releases q s :
  waiters (wake_all_of q s) q = []
  /\ forall t st, state_of s t = Some st ->
       state_of (wake_all_of q s) t
       = Some (if decide (t ∈ waiters s q) then woken st else st).
Proof.
  destruct (wake_all_effect q s) as [H1 H2]. split; [done|]. intros t st Ht.
  rewrite H2, Ht. by case_decide.
Qed.

(** a wake-up can be lost.  A thread puts itself on a queue; it is preempted
    before [block_current] has marked it; the wake takes it off the queue and
    finds it runnable; it then blocks.  From there no wake of any queue, no timer
    tick and no action of any thread ever makes it run again, short of something
    that unblocks it by name.  [wait_since] has the same gap after it has compared
    the generations. *)
Theorem lost_wakeup :
  exists acts s, sched_run acts (sched_boot 1 2) s
  /\ (exists before after, acts = before ++ [AWakeAll 9] ++ after
      /\ In (AWait 9) before /\ In (ABlock Blocked) after)
  /\ (exists before s0, sched_run before (sched_boot 1 2) s0
      /\ fst (wait_since_append 9 (generation 9 s0) s0) = true
      /\ snd (wait_since_append 9 (generation 9 s0) s0) = act_run (AWait 9) s0
      /\ prefix (before ++ [AWait 9]) acts)
  /\ state_of s 2 = Some Blocked
  /\ forall acts' s', sched_run acts' s s' -> AUnblock 2 ∉ acts' -> state_of s' 2 = Some Blocked.
Proof.
  set (before := [ASpawn 3; AWait 9; ATimer; ATimer; ATimer; ATimer; ATimer]).
  set (after := [AYield; ABlock Blocked; AYield]).
  set (s := foldl (fun s a => act_run a s) (sched_boot 1 2) (before ++ [AWakeAll 9] ++ after)).
  assert (Hrun : sched_run (before ++ [AWakeAll 9] ++ after) (sched_boot 1 2) s).
  { apply acts_okb_run. by vm_compute. }
  exists (before ++ [AWakeAll 9] ++ after), s. split_and!.
  - done.
  - exists before, after. cbn. tauto.
  - exists [ASpawn 3], (act_run (ASpawn 3) (sched_boot 1 2)). split_and!.
    + apply (acts_okb_run [ASpawn 3]). by vm_compute.
    + by vm_compute.
    + by vm_compute.
    + by eexists.
  - by vm_compute.
  - intros acts' s' Hr Hq. eapply run_stranded; [exact Hr|exact Hq| |].
    + eapply sched_run_inv; [exact Hrun|]. apply sched_boot_inv. lia.
    + split_and!; by vm_compute.
Qed.

Lemma wake_sleepers_state now t l : forall s, NoDup l -> sched_inv s ->
  (forall x, x ∈ l -> state_of s x = Some Sleeping) -> t ∈ l ->
  state_of (foldl (wake_sleeper now) s l) t
  = Some (if m_wake_at_tick (thread s t) <=? now then Ready else Sleeping).
Proof.
  induction l as [|x l IH]; intros s Hnd Hinv Hl Ht; [set_solver|].
  apply NoDup_cons in Hnd as [Hx Hnd]. assert (Hst : state_of s x = Some Sleeping) by set_solver.
  cbn [foldl]. unfold wake_sleeper at 2.
  set (s1 := run_queue_append x (set_state Ready x (sleepers_remove x s))).
  assert (Hsp : forall y, y <> x -> spares y s s1).
  { intros y Hy. eapply spares_trans; [|apply spares_append].
    eapply spares_trans; [|by apply spares_upd]. eapply spares_trans; [|by apply spares_upd]. done. }
  apply elem_of_cons in Ht as [->|Ht].
  - destruct (m_wake_at_tick (thread s x) <=? now).
    + assert (E : spares x s1 (foldl (wake_sleeper now) s1 l)) by (by apply spares_wake_sleepers).
      unfold state_of. rewrite E. fold (state_of s1 x). unfold s1.
      by rewrite woken_state, decide_True.
    + assert (E : spares x s (foldl (wake_sleeper now) s l)) by (by apply spares_wake_sleepers).
      unfold state_of. rewrite E. exact Hst.
  - assert (t <> x) by set_solver. destruct (_ <=? now).
    + rewrite IH; [|done|by apply inv_wake_sleeper| |done].
      * unfold thread. by rewrite Hsp.
      * intros y Hy. assert (y <> x) by set_solver. unfold state_of. rewrite Hsp by done.
        apply Hl. set_solver.
    + apply IH; [done|done|set_solver|done].
Qed.

Lemma state_of_set_quantum n t s t' : state_of (set_quantum n t s) t' = state_of s t'.
Proof. by apply upd_thread_fields. Qed.

(** A switch runs a ready thread, requeues the running one, and leaves others. *)
Lemma switch_state s t : sched_inv s ->
  (state_of s t = Some Ready \/ state_of s t = Some Running ->
     state_of (switch_to_next true s) t = Some Ready
     \/ state_of (switch_to_next true s) t = Some Running)
  /\ (state_of s t = Some Sleeping -> state_of (switch_to_next true s) t = Some Sleeping).
Proof.
  intros Hinv. rewrite switch_to_next_split.
  destruct (requeue_inv s Hinv) as [Hinv1 Hno].
  assert (Hrq : forall st, state_of s t = Some st ->
    state_of (requeue s) t = Some st \/ (st = Running /\ state_of (requeue s) t = Some Ready)).
  { intros st Hst. unfold requeue. destruct (inv_current s Hinv) as [sc Hc].
    rewrite (thread_state _ _ _ Hc). destruct (bool_decide (sc = Running)) eqn:Hb; [|by left].
    apply bool_decide_eq_true in Hb as ->.
    assert (E : state_of (set_state Ready (current_thread s) s) t = Some st
      \/ (st = Running /\ state_of (set_state Ready (current_thread s) s) t = Some Ready)).
    { rewrite state_of_set_state. case_decide; subst; [|by left]. rewrite Hc. right.
      split; [congruence|done]. }
    destruct (negb _); [|exact E]. unfold run_queue_append.
    destruct (run_node_linked _ _); exact E. }
  assert (Hrn : forall s1 st, sched_inv s1 -> state_of s1 t = Some st ->
    state_of (run_next (current_thread s) s1) t = Some st
    \/ (st = Ready \/ st = Running) /\ state_of (run_next (current_thread s) s1) t = Some Running).
  { intros s1 st Hi1 Hst. unfold run_next.
    assert (E : forall n s2, state_of s2 t = Some st ->
      (t = n -> st = Ready \/ st = Running) ->
      state_of (set_quantum DEFAULT_QUANTUM_TICKS n (set_state Running n s2)) t = Some st
      \/ (st = Ready \/ st = Running)
        /\ state_of (set_quantum DEFAULT_QUANTUM_TICKS n (set_state Running n s2)) t = Some Running).
    { intros n s2 H2 Hn. rewrite state_of_set_quantum, state_of_set_state. case_decide; subst; [right|by left].
      rewrite H2. split; [by apply Hn|done]. }
    destruct (s_run_queue s1) as [|next rest] eqn:Hq.
    - apply E; [done|]. intros ->. destruct (inv_idle s1 Hi1); [left|right]; congruence.
    - apply (E next (upd_run_queue tail s1)); [done|]. intros ->.
      assert (Hin : next ∈ s_run_queue s1) by (rewrite Hq; set_solver).
      apply (inv_run s1 Hi1) in Hin as [? _]. left. congruence. }
  split.
  - intros [Hst|Hst]; destruct (Hrq _ Hst) as [H|[_ H]];
      destruct (Hrn _ _ Hinv1 H) as [H'|[_ H']]; rewrite H'; auto.
  - intros Hst. destruct (Hrq _ Hst) as [H|[? H]]; [|done].
    destruct (Hrn _ _ Hinv1 H) as [H'|[[?|?] H']]; done.
Qed.

(** a timer tick wakes exactly the sleepers whose deadline has come: one that
    is due becomes ready (or is switched to at once), one that is not sleeps on. *)
Theorem sleeper_wakes_on_time s t : sched_inv s -> s_running s = true ->
  state_of s t = Some Sleeping ->
  let s' := timer_interrupt s in
  if m_wake_at_tick (thread s t) <=? u64 (pit_ticks s + 1)
  then state_of s' t = Some Ready \/ state_of s' t = Some Running
  else state_of s' t = Some Sleeping.
Proof.
  intros Hinv0 Hr Ht. unfold timer_interrupt, on_timer_tick.
  set (s0 := set_pit_ticks _ s).
  assert (Hinv : sched_inv s0) by (apply (sched_inv_view s); [by split|done]).
  change (s_running s0) with (s_running s). rewrite Hr. cbn [negb]. cbv zeta.
  set (s1 := foldl _ s0 _).
  assert (H1 : sched_inv s1).
  { apply wake_sleepers_inv; [done|apply Hinv|]. intros x. apply (inv_sleep s0 Hinv). }
  assert (Hst : state_of s1 t = Some (if m_wake_at_tick (thread s t) <=? u64 (pit_ticks s + 1)
                                      then Ready else Sleeping)).
  { unfold s1. rewrite wake_sleepers_state; [done|apply Hinv|done|..].
    - intros x. apply (inv_sleep s0 Hinv).
    - by apply (inv_sleep s0 Hinv). }
  clearbody s1. set (s2 := upd_thread _ _ s1).
  assert (H2 : sched_inv s2) by (apply (sched_inv_view s1); [by apply upd_thread_view|done]).
  assert (Hst2 : state_of s2 t = state_of s1 t) by (by apply upd_thread_fields).
  rewrite <- Hst2 in Hst. clearbody s2. clear Hst2 H1.
  assert (Hsw : forall s3, s3 = s2 \/ s3 = set_quantum DEFAULT_QUANTUM_TICKS (current_thread s1) s2 ->
    state_of s3 t = state_of s2 t).
  { intros s3 [->| ->]; [done|]. by apply upd_thread_fields. }
  destruct (_ && _); [|destruct (_ && _)].
  - rewrite Hst. destruct (_ <=? _); [by left|done].
  - rewrite Hsw, Hst by (by right). destruct (_ <=? _); [by left|done].
  - pose proof (switch_state s2 t H2) as Hsw2.
    destruct (_ <=? _); [apply Hsw2; by left|]. by apply Hsw2.
Qed.

Lemma sleeper_wakes_on_time_witness :
  state_of demo_sched 2 = Some Sleeping
  /\ state_of (timer_interrupt demo_sched) 2 = Some Ready.
Proof.
  assert (Hinv : sched_inv demo_sched).
  { eapply sched_run_inv; [apply (acts_okb_run demo_acts); vm_compute; reflexivity|].
    apply sched_boot_inv. lia. }
  assert (Hr : s_running demo_sched = true) by (vm_compute; reflexivity).
  assert (Hst : state_of demo_sched 2 = Some Sleeping) by (vm_compute; reflexivity).
  assert (Hdue : (m_wake_at_tick (thread demo_sched 2) <=? u64 (pit_ticks demo_sched + 1)) = true)
    by (vm_compute; reflexivity).
  split; [exact Hst|].
  pose proof (sleeper_wakes_on_time demo_sched 2 Hinv Hr Hst) as H. rewrite Hdue in H.
  destruct H as [H|H]; [exact H|]. exfalso. vm_compute in H. discriminate H.
Defined.
