(* ===== verification/Files.v ===== *)
(** * Open files: descriptions, inode references and descriptor tables' entries

    [FileDescription], [release_description] and the reference counts of inodes
    (kernel/fs/vfs.h, vfs.cpp).  An inode's virtual [on_description_opened],
    [on_description_closed] and [destroy] belong to the file system or driver
    behind it; the calls are recorded in order in [file_events].  Looking up an
    address that is not in a map stands for following a dangling pointer. *)

From S2P Require Import Prelude Pipe.

Definition O_APPEND : Z := 0x0400.
Definition O_NONBLOCK : Z := 0x0800.
Definition O_CLOEXEC : Z := 0x80000.
Definition O_SETFL_MASK : Z := Z.lor O_APPEND O_NONBLOCK.

Record FileDescription := mkDescription {
  m_inode : Z;
  m_flags : Z;
  m_offset : Z;
  m_reference_count : Z;
  m_directory_index : Z;
}.

Inductive FileEvent :=
| Opened (inode flags : Z)
| Closed (inode flags : Z)
| Destroyed (inode : Z).

Record Files := mkFiles {
  descriptions : gmap Z FileDescription;
  inode_refs : gmap Z Z;
  file_events : list FileEvent;
}.

Definition upd_descriptions (f : gmap Z FileDescription -> gmap Z FileDescription) (fs : Files)
    : Files := mkFiles (f (descriptions fs)) (inode_refs fs) (file_events fs).
Definition upd_inodes (f : gmap Z Z -> gmap Z Z) (fs : Files) : Files :=
  mkFiles (descriptions fs) (f (inode_refs fs)) (file_events fs).
Definition emit (e : FileEvent) (fs : Files) : Files :=
  mkFiles (descriptions fs) (inode_refs fs) (file_events fs ++ [e]).

(** ** Inodes *)

Definition inode_ref (i : Z) : Files -> Files := upd_inodes (alter (fun n => u32 (n + 1)) i).

Definition inode_unref (i : Z) (fs : Files) : Files :=
  match inode_refs fs !! i with
  | None => fs
  | Some n =>
      let remaining := u32 (n - 1) in
      if remaining =? 0 then emit (Destroyed i) (upd_inodes (delete i) fs)
      else upd_inodes <[i := remaining]> fs
  end.

(** ** Descriptions *)

Definition set_reference_count (n : Z) (d : FileDescription) : FileDescription :=
  mkDescription (m_inode d) (m_flags d) (m_offset d) n (m_directory_index d).
Definition set_flags (flags : Z) (d : FileDescription) : FileDescription :=
  mkDescription (m_inode d) flags (m_offset d) (m_reference_count d) (m_directory_index d).

(** The constructor, placed at the address [d]. *)
Definition description_new (d inode flags : Z) (fs : Files) : Files :=
  emit (Opened inode flags)
    (inode_ref inode (upd_descriptions <[d := mkDescription inode flags 0 1 0]> fs)).

Definition description_ref (d : Z) : Files -> Files :=
  upd_descriptions (alter (fun x => set_reference_count (u32 (m_reference_count x + 1)) x) d).

Definition release_description (d : Z) (fs : Files) : Files :=
  match descriptions fs !! d with
  | None => fs
  | Some x =>
      let remaining := u32 (m_reference_count x - 1) in
      if remaining =? 0 then
        inode_unref (m_inode x) (emit (Closed (m_inode x) (m_flags x))
          (upd_descriptions (delete d) fs))
      else upd_descriptions <[d := set_reference_count remaining x]> fs
  end.

(** [PipeInode::create_pair]: the three allocations succeed together or the call
    fails; the inode starts from a count of zero. *)
Definition create_pair (memory : option (Z * Z * Z)) : M Files (Z * Z) := fun fs =>
  match memory with
  | None => (Err ENOMEM, fs)
  | Some (pipe, reader, writer) =>
      let fs := upd_inodes <[pipe := 0]> fs in
      let fs := description_new reader pipe O_RDONLY fs in
      let fs := description_new writer pipe O_WRONLY fs in
      (Ok (reader, writer), fs)
  end.

(** ** The accounting

    [held] lists the references to descriptions held outside the tables (a
    local variable of a system call), [tables] those of the descriptor tables;
    [iheld] the references to inodes held by processes and locals, and [links i]
    those of directory entries, mounts and drivers, which this component never
    takes or drops. *)

Definition occ (x : Z) (l : list Z) : Z := zlen (filter (eq x) l).

Definition open_inodes (fs : Files) : list Z := (fun '(_, d) => m_inode d) <$> map_to_list (descriptions fs).

(** The ends of a pipe: what the calls of [on_description_opened] and [_closed] so
    far add up to, and the open descriptions that can read or write. *)
Definition pipe_event (i : Z) (p : PipeBuffer) (e : FileEvent) : PipeBuffer :=
  match e with
  | Opened j flags => if j =? i then fst (PipeBuffer_opened flags p) else p
  | Closed j flags => if j =? i then fst (PipeBuffer_closed flags p) else p
  | Destroyed j => if j =? i then PipeBuffer_new else p
  end.
Definition pipe_of (i : Z) (fs : Files) : PipeBuffer :=
  foldl (pipe_event i) PipeBuffer_new (file_events fs).

Definition reads (x : FileDescription) : bool := negb (Z.land (m_flags x) O_ACCMODE =? O_WRONLY).
Definition writes (x : FileDescription) : bool := negb (Z.land (m_flags x) O_ACCMODE =? O_RDONLY).

Definition ends_on (can : FileDescription -> bool) (i : Z) (fs : Files) : Z :=
  zlen (filter (fun x => m_inode x = i /\ can x = true) (map_to_list (descriptions fs)).*2).

(** The lists stay below [LIMIT] entries each, so that no 32-bit count wraps. *)
Definition LIMIT : Z := 2 ^ 30.

(** What an inode's count should be. *)
Definition inode_total (links : Z -> Z) (iholders : list Z) (fs : Files) (i : Z) : Z :=
  links i + occ i (open_inodes fs) + occ i iholders.

Record refs_inv (links : Z -> Z) (holders iholders : list Z) (fs : Files) : Prop := {
  desc_live : forall d, d ∈ holders <-> is_Some (descriptions fs !! d);
  desc_count : forall d x, descriptions fs !! d = Some x -> m_reference_count x = occ d holders;
  inode_live : forall i, 0 < inode_total links iholders fs i <-> is_Some (inode_refs fs !! i);
  inode_count : forall i n, inode_refs fs !! i = Some n -> n = inode_total links iholders fs i;
}.

(** The counts of a pipe's ends are those of the open descriptions. *)
Definition ends_inv (fs : Files) : Prop := forall i,
  m_readers (pipe_of i fs) = ends_on reads i fs /\ m_writers (pipe_of i fs) = ends_on writes i fs.

Definition files_inv (links : Z -> Z) (holders iholders : list Z) (fs : Files) : Prop :=
  refs_inv links holders iholders fs /\ ends_inv fs.

(** Links are few enough for the counts not to wrap either. *)
Definition links_ok (links : Z -> Z) : Prop := forall i, 0 <= links i < LIMIT.

(** *** Occurrences *)

Lemma occ_cons x y l : occ x (y :: l) = (if decide (x = y) then 1 else 0) + occ x l.
Proof. unfold occ, zlen. rewrite filter_cons. case_decide; cbn; lia. Qed.

Lemma occ_app x l1 l2 : occ x (l1 ++ l2) = occ x l1 + occ x l2.
Proof. unfold occ, zlen. rewrite filter_app, length_app. lia. Qed.

Lemma occ_nonneg x l : 0 <= occ x l.
Proof. apply zlen_nonneg. Qed.

Lemma occ_le x l : occ x l <= zlen l.
Proof. induction l as [|y l IH]; [done|]. rewrite occ_cons. unfold zlen in *. cbn [length]. case_decide; lia. Qed.

Lemma occ_perm x l1 l2 : l1 ≡ₚ l2 -> occ x l1 = occ x l2.
Proof. intros H. unfold occ, zlen. by rewrite H. Qed.

Lemma occ_pos x l : 0 < occ x l <-> x ∈ l.
Proof.
  induction l as [|y l IH]; [split; [done|intros H; by apply not_elem_of_nil in H]|].
  rewrite occ_cons, elem_of_cons, <- IH. pose proof (occ_nonneg x l).
  destruct (decide (x = y)); [split; [by left|lia]|].
  split; [intros; right; lia|]. intros [?|?]; [done|lia].
Qed.

Lemma occ_zero x l : x ∉ l -> occ x l = 0.
Proof. rewrite <- occ_pos. pose proof (occ_nonneg x l). lia. Qed.

Lemma refs_inv_perm links H H' I I' fs : H ≡ₚ H' -> I ≡ₚ I' ->
  refs_inv links H I fs -> refs_inv links H' I' fs.
Proof.
  intros HH HI [A B C D]. split.
  - intros d. by rewrite <- HH.
  - intros d x Hx. rewrite <- (occ_perm d _ _ HH). by apply B.
  - intros i. unfold inode_total. rewrite <- (occ_perm i _ _ HI). apply C.
  - intros i n Hn. unfold inode_total. rewrite <- (occ_perm i _ _ HI). by apply D.
Qed.

(** *** Open descriptions, inode by inode *)

Lemma open_inodes_insert d x fs : descriptions fs !! d = None ->
  open_inodes (upd_descriptions <[d := x]> fs) ≡ₚ m_inode x :: open_inodes fs.
Proof.
  intros Hd. unfold open_inodes; cbn. by rewrite (map_to_list_insert _ _ _ Hd).
Qed.

Lemma open_inodes_delete d x fs : descriptions fs !! d = Some x ->
  open_inodes fs ≡ₚ m_inode x :: open_inodes (upd_descriptions (delete d) fs).
Proof.
  intros Hd. unfold open_inodes; cbn. by rewrite <- (map_to_list_delete _ _ _ Hd).
Qed.

Lemma open_inodes_update d x y fs : descriptions fs !! d = Some x -> m_inode y = m_inode x ->
  open_inodes (upd_descriptions <[d := y]> fs) ≡ₚ open_inodes fs.
Proof.
  intros Hd Hy. rewrite (open_inodes_delete d x fs Hd). unfold open_inodes; cbn.
  rewrite <- insert_delete_eq, (map_to_list_insert _ _ _ (lookup_delete_eq _ _)).
  cbn. by rewrite Hy.
Qed.

(** No more descriptions are open than there are holders of one. *)
Lemma open_inodes_le links H I fs : refs_inv links H I fs -> zlen (open_inodes fs) <= zlen H.
Proof.
  intros Hinv. unfold open_inodes, zlen. rewrite length_fmap.
  enough (length (map_to_list (descriptions fs)).*1 <= length H)%nat by (rewrite length_fmap in *; lia).
  apply submseteq_length, NoDup_submseteq; [apply NoDup_fst_map_to_list|].
  intros d Hd. apply list_elem_of_fmap in Hd as ([d' x] & -> & Hx).
  apply elem_of_map_to_list in Hx. apply (desc_live _ _ _ _ Hinv). by eexists.
Qed.

Lemma inode_total_range links H I fs i : links_ok links -> refs_inv links H I fs ->
  zlen H < LIMIT -> zlen I < LIMIT -> 0 <= inode_total links I fs i < 2 ^ 32 - 1.
Proof.
  intros Hl Hinv HH HI. specialize (Hl i). unfold inode_total.
  pose proof (open_inodes_le _ _ _ _ Hinv). pose proof (occ_le i (open_inodes fs)).
  pose proof (occ_le i I). pose proof (occ_nonneg i (open_inodes fs)). pose proof (occ_nonneg i I).
  unfold LIMIT in *. lia.
Qed.

Lemma refs_inv_emit links H I e fs : refs_inv links H I (emit e fs) <-> refs_inv links H I fs.
Proof. split; intros [A B C D]; split; done. Qed.

Lemma open_inodes_upd f fs : open_inodes (upd_inodes f fs) = open_inodes fs.
Proof. done. Qed.

Lemma u32_small z : 0 <= z < 2 ^ 32 -> u32 z = z.
Proof. intros. by apply Z.mod_small. Qed.

(** *** What each operation does to the accounts

    A reference taken is a holder more, one given back a holder less. *)

Lemma alter_at {A} (f : A -> A) (i : Z) x (m : gmap Z A) : m !! i = Some x ->
  alter f i m = <[i := f x]> m.
Proof.
  intros Hx. apply map_eq. intros j. destruct (decide (j = i)) as [->|Hne].
  - by rewrite lookup_alter_eq, lookup_insert_eq, Hx.
  - by rewrite lookup_alter_ne, lookup_insert_ne.
Qed.

Lemma upd_alter f d x fs : descriptions fs !! d = Some x ->
  upd_descriptions (alter f d) fs = upd_descriptions <[d := f x]> fs.
Proof. intros Hx. unfold upd_descriptions. by rewrite (alter_at _ d x). Qed.

Section accounts.
Context (links : Z -> Z) (Hlinks : links_ok links).

Lemma inode_ref_refs H I i fs : refs_inv links H I fs -> zlen H < LIMIT -> zlen I < LIMIT ->
  is_Some (inode_refs fs !! i) -> refs_inv links H (i :: I) (inode_ref i fs).
Proof.
  intros Hinv HH HI [n Hn]. pose proof (inode_total_range _ _ _ _ i Hlinks Hinv HH HI).
  pose proof (inode_count _ _ _ _ Hinv i n Hn) as Hc. destruct Hinv as [A B C D].
  split; [done|done| |]; intros j; specialize (C j); unfold inode_total, inode_ref in *;
    rewrite open_inodes_upd, occ_cons; cbn; destruct (decide (j = i)) as [->|Hne].
  - rewrite lookup_alter_eq, Hn. cbn. split; [by eexists|]. intros _.
    pose proof (occ_nonneg i I). lia.
  - rewrite lookup_alter_ne by done. done.
  - rewrite lookup_alter_eq, Hn. cbn. intros m [= <-]. rewrite u32_small; lia.
  - rewrite lookup_alter_ne by done. intros m Hm. rewrite (D j m Hm). lia.
Qed.

Lemma inode_unref_refs H I i fs : refs_inv links H (i :: I) fs -> zlen H < LIMIT ->
  zlen (i :: I) < LIMIT -> refs_inv links H I (inode_unref i fs).
Proof.
  intros Hinv HH HI. pose proof (inode_total_range _ _ _ _ i Hlinks Hinv HH HI).
  destruct Hinv as [A B C D]. unfold inode_total in *. unfold inode_unref.
  pose proof (Hlinks i). pose proof (occ_nonneg i I). pose proof (occ_nonneg i (open_inodes fs)).
  assert (Hlive : is_Some (inode_refs fs !! i)).
  { apply C. rewrite occ_cons, decide_True by done. lia. }
  destruct Hlive as [n Hn]. rewrite Hn. pose proof (D i n Hn) as Hc.
  rewrite occ_cons, decide_True in Hc, H0 by done. rewrite u32_small by lia.
  destruct (Z.eqb_spec (n - 1) 0) as [Hz|Hz].
  - apply refs_inv_emit. split; [done|done| |]; intros j; specialize (C j);
      specialize (D j); rewrite occ_cons in C, D; unfold inode_total;
      rewrite open_inodes_upd; cbn; destruct (decide (j = i)) as [->|Hne].
    + rewrite lookup_delete_eq. split; [lia|by intros []].
    + by rewrite lookup_delete_ne.
    + by rewrite lookup_delete_eq.
    + rewrite lookup_delete_ne by done. exact D.
  - split; [done|done| |]; intros j; specialize (C j); specialize (D j);
      rewrite occ_cons in C, D; unfold inode_total; rewrite open_inodes_upd; cbn;
      destruct (decide (j = i)) as [->|Hne].
    + rewrite lookup_insert_eq. split; [by eexists|]. intros _. lia.
    + by rewrite lookup_insert_ne.
    + rewrite lookup_insert_eq. intros m [= <-]. lia.
    + rewrite lookup_insert_ne by done. exact D.
Qed.

(** A new description on an inode that is live, or has just been allocated. *)
Lemma description_insert_refs H I d i n flags fs : refs_inv links H I fs ->
  zlen H < LIMIT -> zlen I < LIMIT -> descriptions fs !! d = None ->
  n = inode_total links I fs i ->
  refs_inv links (d :: H) I
    (mkFiles (<[d := mkDescription i flags 0 1 0]> (descriptions fs))
       (<[i := u32 (n + 1)]> (inode_refs fs)) (file_events fs)).
Proof.
  intros Hinv HH HI Hd ->. pose proof (inode_total_range _ _ _ _ i Hlinks Hinv HH HI) as Hr.
  destruct Hinv as [A B C D].
  assert (Hfresh : d ∉ H) by (intros Hin; apply A in Hin as [? ?]; congruence).
  assert (Htot : forall j, inode_total links I
     (upd_descriptions <[d := mkDescription i flags 0 1 0]> fs) j
     = inode_total links I fs j + if decide (j = i) then 1 else 0).
  { intros j. unfold inode_total. rewrite (occ_perm j _ _ (open_inodes_insert d _ fs Hd)), occ_cons.
    cbn. lia. }
  split; cbn.
  - intros d'. rewrite elem_of_cons. destruct (decide (d' = d)) as [->|Hne].
    + rewrite lookup_insert_eq. split; [by eexists|by left].
    + rewrite lookup_insert_ne, <- A by done. split; [intros [?|?]; done|by right].
  - intros d' x. rewrite occ_cons. destruct (decide (d' = d)) as [->|Hne].
    + rewrite lookup_insert_eq. intros [= <-]. cbn. by rewrite (occ_zero d H).
    + rewrite lookup_insert_ne by done. apply B.
  - intros j. specialize (Htot j). unfold inode_total, open_inodes in *; cbn in *. rewrite Htot.
    destruct (decide (j = i)) as [->|Hne].
    + rewrite lookup_insert_eq. split; [by eexists|lia].
    + rewrite lookup_insert_ne, <- C by done. lia.
  - intros j m. specialize (Htot j). unfold inode_total, open_inodes in *; cbn in *. rewrite Htot.
    destruct (decide (j = i)) as [->|Hne].
    + rewrite lookup_insert_eq. intros [= <-]. rewrite u32_small; lia.
    + rewrite lookup_insert_ne by done. intros Hm. rewrite (D j m Hm). lia.
Qed.

Lemma description_new_refs H I d i flags fs : refs_inv links H I fs ->
  zlen H < LIMIT -> zlen I < LIMIT -> descriptions fs !! d = None ->
  is_Some (inode_refs fs !! i) -> refs_inv links (d :: H) I (description_new d i flags fs).
Proof.
  intros Hinv HH HI Hd [n Hn].
  pose proof (description_insert_refs H I d i n flags fs Hinv HH HI Hd (inode_count _ _ _ _ Hinv i n Hn))
    as Hr.
  apply refs_inv_emit. unfold inode_ref, upd_inodes, upd_descriptions; cbn.
  replace (alter (fun m => u32 (m + 1)) i (inode_refs fs)) with (<[i := u32 (n + 1)]> (inode_refs fs));
    [done|]. by rewrite (alter_at _ _ n).
Qed.

Lemma count_update_refs H H' I d x n fs : refs_inv links H I fs ->
  descriptions fs !! d = Some x -> n = occ d H' -> d ∈ H' ->
  (forall e, e <> d -> e ∈ H <-> e ∈ H') -> (forall e, e <> d -> occ e H = occ e H') ->
  refs_inv links H' I (upd_descriptions <[d := set_reference_count n x]> fs).
Proof.
  intros [A B C D] Hd -> Hin Hel Hocc.
  pose proof (open_inodes_update d x (set_reference_count (occ d H') x) fs Hd eq_refl) as Hp.
  split; cbn.
  - intros e. destruct (decide (e = d)) as [->|Hne].
    + rewrite lookup_insert_eq. split; [by eexists|done].
    + rewrite lookup_insert_ne, <- A by done. symmetry. by apply Hel.
  - intros e y. destruct (decide (e = d)) as [->|Hne].
    + rewrite lookup_insert_eq. by intros [= <-].
    + rewrite lookup_insert_ne by done. intros Hy. rewrite <- Hocc by done. by apply B.
  - intros i. unfold inode_total. rewrite (occ_perm i _ _ Hp). apply C.
  - intros i m Hm. unfold inode_total. rewrite (occ_perm i _ _ Hp). by apply D.
Qed.

Lemma description_ref_refs H I d fs : refs_inv links H I fs -> zlen H < LIMIT -> d ∈ H ->
  refs_inv links (d :: H) I (description_ref d fs).
Proof.
  intros Hinv HH Hin. destruct (proj1 (desc_live _ _ _ _ Hinv d) Hin) as [x Hx].
  unfold description_ref, upd_descriptions. rewrite (alter_at _ d x) by done.
  apply (count_update_refs H); [done|done| | | |].
  - rewrite occ_cons, decide_True by done. rewrite (desc_count _ _ _ _ Hinv d x Hx).
    pose proof (occ_le d H). pose proof (occ_nonneg d H). unfold LIMIT in *.
    rewrite u32_small; lia.
  - by left.
  - intros e Hne. rewrite elem_of_cons. intuition.
  - intros e Hne. rewrite occ_cons, decide_False by done. lia.
Qed.

(** Closing the last reference leaves the inode's to be dropped. *)
Lemma close_refs H I d x fs : refs_inv links (d :: H) I fs -> descriptions fs !! d = Some x ->
  (d ∉ H) -> refs_inv links H (m_inode x :: I)
    (emit (Closed (m_inode x) (m_flags x)) (upd_descriptions (delete d) fs)).
Proof.
  intros Hinv Hx Hout. apply refs_inv_emit.
  pose proof (open_inodes_delete d x fs Hx) as Hp. destruct Hinv as [A B C D]. split; cbn.
  - intros e. destruct (decide (e = d)) as [->|Hne].
    + rewrite lookup_delete_eq. split; [done|by intros []].
    + rewrite lookup_delete_ne, <- A, elem_of_cons by done. intuition.
  - intros e y. destruct (decide (e = d)) as [->|Hne]; [by rewrite lookup_delete_eq|].
    rewrite lookup_delete_ne by done. intros Hy. rewrite (B e y Hy), occ_cons, decide_False by done. lia.
  - intros i. rewrite <- C. unfold inode_total. rewrite (occ_perm i _ _ Hp), !occ_cons. lia.
  - intros i m Hm. rewrite (D i m Hm). unfold inode_total. rewrite (occ_perm i _ _ Hp), !occ_cons. lia.
Qed.

(** The last reference closes the file and lets go of the inode, any other only
    counts down. *)
Lemma release_description_refs H I d fs : refs_inv links (d :: H) I fs ->
  zlen (d :: H) < LIMIT -> zlen I + 1 < LIMIT -> refs_inv links H I (release_description d fs).
Proof.
  intros Hinv HH HI. assert (Hin : d ∈ d :: H) by (by left).
  destruct (proj1 (desc_live _ _ _ _ Hinv d) Hin) as [x Hx].
  unfold release_description. rewrite Hx, (desc_count _ _ _ _ Hinv d x Hx), occ_cons, decide_True by done.
  pose proof (occ_le d H). pose proof (occ_nonneg d H).
  assert (zlen H < LIMIT) by (unfold zlen in *; cbn [length] in HH; lia).
  rewrite u32_small by (unfold LIMIT in *; lia).
  destruct (Z.eqb_spec (1 + occ d H - 1) 0) as [Hz|Hz].
  - assert (Hout : d ∉ H) by (rewrite <- occ_pos; lia).
    apply inode_unref_refs; [|done|unfold zlen in *; cbn [length]; lia]. by apply close_refs.
  - apply (count_update_refs (d :: H)); [done|done|lia|apply occ_pos; lia| |].
    + intros e Hne. rewrite elem_of_cons. intuition.
    + intros e Hne. rewrite occ_cons, decide_False by done. lia.
Qed.

(** *** The ends of pipes *)

Lemma ends_on_nonneg can i fs : 0 <= ends_on can i fs.
Proof. apply zlen_nonneg. Qed.

Lemma ends_on_le can i fs : ends_on can i fs <= occ i (open_inodes fs).
Proof.
  unfold ends_on, open_inodes, occ, zlen. apply inj_le.
  induction (map_to_list (descriptions fs)) as [|[d x] l IH]; [done|].
  rewrite !fmap_cons, !filter_cons. destruct (decide _) as [[Hi _]|], (decide (i = _)) as [|Hn]; cbn; try lia.
  by destruct Hn.
Qed.

Lemma ends_insert can i d x fs : descriptions fs !! d = None ->
  ends_on can i (upd_descriptions <[d := x]> fs)
  = (if decide (m_inode x = i /\ can x = true) then 1 else 0) + ends_on can i fs.
Proof.
  intros Hd. unfold ends_on. cbn [upd_descriptions descriptions].
  rewrite (map_to_list_insert _ _ _ Hd), fmap_cons, filter_cons. unfold zlen. cbn [snd].
  destruct (decide _); cbn [length]; lia.
Qed.

Lemma ends_delete can i d x fs : descriptions fs !! d = Some x ->
  ends_on can i fs
  = (if decide (m_inode x = i /\ can x = true) then 1 else 0) + ends_on can i (upd_descriptions (delete d) fs).
Proof.
  intros Hd. unfold ends_on. cbn [upd_descriptions descriptions].
  rewrite <- (map_to_list_delete _ _ _ Hd), fmap_cons, filter_cons. unfold zlen. cbn [snd].
  destruct (decide _); cbn [length]; lia.
Qed.

Lemma ends_update can i d x y fs : descriptions fs !! d = Some x ->
  m_inode y = m_inode x -> can y = can x ->
  ends_on can i (upd_descriptions <[d := y]> fs) = ends_on can i fs.
Proof.
  intros Hd Hi Hc. rewrite (ends_delete can i d x fs Hd), <- Hi, <- Hc.
  rewrite <- (ends_insert can i d y (upd_descriptions (delete d) fs) (lookup_delete_eq _ _)).
  unfold upd_descriptions; cbn. by rewrite insert_delete_eq.
Qed.

Lemma pipe_of_emit i e fs : pipe_of i (emit e fs) = pipe_event i (pipe_of i fs) e.
Proof. unfold pipe_of; cbn. by rewrite foldl_app. Qed.

Lemma ends_new H I d i flags fs : refs_inv links H I fs -> zlen H < LIMIT ->
  descriptions fs !! d = None -> ends_inv fs -> ends_inv (description_new d i flags fs).
Proof.
  intros Hinv HH Hd He j. specialize (He j). unfold description_new. rewrite pipe_of_emit.
  change (ends_on ?c j (emit _ (inode_ref i (upd_descriptions ?u fs)))) with (ends_on c j (upd_descriptions u fs)).
  change (pipe_of j (inode_ref i (upd_descriptions _ fs))) with (pipe_of j fs).
  rewrite !ends_insert by done. cbn [pipe_event m_inode].
  pose proof (ends_on_le reads j fs). pose proof (ends_on_le writes j fs).
  pose proof (ends_on_nonneg reads j fs). pose proof (ends_on_nonneg writes j fs).
  pose proof (open_inodes_le _ _ _ _ Hinv). pose proof (occ_le j (open_inodes fs)). unfold LIMIT in *.
  destruct (Z.eqb_spec i j) as [->|Hne]; [|rewrite !decide_False by (intros [? _]; done); lia].
  set (r := ends_on reads j fs) in *. set (w := ends_on writes j fs) in *.
  unfold reads, writes, PipeBuffer_opened; cbn [m_flags].
  generalize (Z.land flags O_ACCMODE). intros a.
  destruct (Z.eqb_spec a O_RDONLY) as [->|Hr].
  { cbn. rewrite decide_True, decide_False by (done || by intros [_ ?]). rewrite u64_small; unfold is_u64; lia. }
  destruct (Z.eqb_spec a O_WRONLY) as [->|Hw]; cbn.
  { rewrite decide_False, decide_True by (done || by intros [_ ?]). rewrite u64_small; unfold is_u64; lia. }
  rewrite !decide_True by done. rewrite !u64_small; unfold is_u64; lia.
Qed.

Lemma ends_unref H I i fs : refs_inv links H (i :: I) fs -> zlen H < LIMIT -> zlen (i :: I) < LIMIT ->
  ends_inv fs -> ends_inv (inode_unref i fs).
Proof.
  intros Hinv HH HI He. pose proof (inode_total_range _ _ _ _ i Hlinks Hinv HH HI) as Hr.
  unfold inode_unref. destruct (inode_refs fs !! i) as [n|] eqn:Hn; [|done].
  pose proof (inode_count _ _ _ _ Hinv i n Hn) as Hc. unfold inode_total in *.
  rewrite occ_cons, decide_True in Hc, Hr by done. pose proof (Hlinks i).
  pose proof (occ_nonneg i I). pose proof (occ_nonneg i (open_inodes fs)).
  rewrite u32_small by lia. destruct (Z.eqb_spec (n - 1) 0) as [Hz|]; [|exact He].
  intros j. specialize (He j). rewrite pipe_of_emit. cbn [pipe_event].
  change (ends_on ?c j (emit _ (upd_inodes _ fs))) with (ends_on c j fs).
  change (pipe_of j (upd_inodes _ fs)) with (pipe_of j fs).
  destruct (Z.eqb_spec i j) as [->|]; [|done].
  pose proof (ends_on_le reads j fs). pose proof (ends_on_le writes j fs).
  pose proof (ends_on_nonneg reads j fs). pose proof (ends_on_nonneg writes j fs).
  cbn. lia.
Qed.

Lemma ends_count_update d x n fs : descriptions fs !! d = Some x -> ends_inv fs ->
  ends_inv (upd_descriptions <[d := set_reference_count n x]> fs).
Proof.
  intros Hd He i. specialize (He i).
  rewrite !(ends_update _ i d x) by done. exact He.
Qed.

Lemma ends_close d x fs : descriptions fs !! d = Some x -> ends_inv fs ->
  ends_inv (emit (Closed (m_inode x) (m_flags x)) (upd_descriptions (delete d) fs)).
Proof.
  intros Hd He i. specialize (He i). rewrite pipe_of_emit. cbn [pipe_event].
  change (ends_on ?c i (emit _ ?f)) with (ends_on c i f).
  change (pipe_of i (upd_descriptions _ fs)) with (pipe_of i fs).
  rewrite !(ends_delete _ i d x fs Hd) in He.
  set (r := ends_on reads i (upd_descriptions (delete d) fs)) in *.
  set (w := ends_on writes i (upd_descriptions (delete d) fs)) in *.
  assert (0 <= r) by apply ends_on_nonneg. assert (0 <= w) by apply ends_on_nonneg.
  destruct (Z.eqb_spec (m_inode x) i) as [<-|Hne];
    [|rewrite !decide_False in He by (intros [? _]; done); lia].
  clearbody r w. unfold reads, writes, PipeBuffer_closed in *.
  revert He. generalize (Z.land (m_flags x) O_ACCMODE). intros a.
  destruct (Z.eqb_spec a O_RDONLY) as [->|Hr].
  { cbn. rewrite decide_True, decide_False by (done || by intros [_ ?]). intros [H1 H2].
    rewrite Z.gtb_ltb. destruct (Z.ltb_spec 0 (m_readers (pipe_of (m_inode x) fs))); cbn; lia. }
  destruct (Z.eqb_spec a O_WRONLY) as [->|Hw]; cbn.
  { rewrite decide_False, decide_True by (done || by intros [_ ?]). intros [H1 H2].
    rewrite Z.gtb_ltb. destruct (Z.ltb_spec 0 (m_writers (pipe_of (m_inode x) fs))); cbn; lia. }
  rewrite !decide_True by done. intros [H1 H2].
  replace (m_readers (pipe_of (m_inode x) fs) >? 0) with true by (rewrite Z.gtb_ltb; symmetry; apply Z.ltb_lt; lia).
  cbn. replace (m_writers (pipe_of (m_inode x) fs) >? 0) with true
    by (rewrite Z.gtb_ltb; symmetry; apply Z.ltb_lt; lia).
  cbn. lia.
Qed.

(** *** Both together *)

Lemma files_inv_perm H H' I I' fs : H ≡ₚ H' -> I ≡ₚ I' ->
  files_inv links H I fs -> files_inv links H' I' fs.
Proof. intros HH HI [A B]. split; [by eapply refs_inv_perm|done]. Qed.

Lemma inode_ref_inv H I i fs : files_inv links H I fs -> zlen H < LIMIT -> zlen I < LIMIT ->
  is_Some (inode_refs fs !! i) -> files_inv links H (i :: I) (inode_ref i fs).
Proof. intros [A B] ? ? ?. split; [by apply inode_ref_refs|exact B]. Qed.

Lemma inode_unref_inv H I i fs : files_inv links H (i :: I) fs -> zlen H < LIMIT ->
  zlen (i :: I) < LIMIT -> files_inv links H I (inode_unref i fs).
Proof. intros [A B] ? ?. split; [by apply inode_unref_refs|by eapply ends_unref]. Qed.

Lemma description_new_inv H I d i flags fs : files_inv links H I fs ->
  zlen H < LIMIT -> zlen I < LIMIT -> descriptions fs !! d = None ->
  is_Some (inode_refs fs !! i) -> files_inv links (d :: H) I (description_new d i flags fs).
Proof. intros [A B] ? ? ? ?. split; [by apply description_new_refs|by eapply ends_new]. Qed.

Lemma description_ref_inv H I d fs : files_inv links H I fs -> zlen H < LIMIT -> d ∈ H ->
  files_inv links (d :: H) I (description_ref d fs).
Proof.
  intros [A B] HH Hd. split; [by apply description_ref_refs|].
  destruct (proj1 (desc_live _ _ _ _ A d) Hd) as [x Hx]. unfold description_ref.
  rewrite (upd_alter _ d x) by done. by apply ends_count_update.
Qed.

Lemma release_description_inv H I d fs : files_inv links (d :: H) I fs ->
  zlen (d :: H) < LIMIT -> zlen I + 1 < LIMIT -> files_inv links H I (release_description d fs).
Proof.
  intros [A B] HH HI. split; [by apply release_description_refs|].
  unfold release_description. destruct (descriptions fs !! d) as [x|] eqn:Hx; [|done].
  pose proof (desc_count _ _ _ _ A d x Hx) as Hc. rewrite occ_cons, decide_True in Hc by done.
  pose proof (occ_le d H). pose proof (occ_nonneg d H).
  assert (zlen H < LIMIT) by (unfold zlen in *; cbn [length] in HH; lia).
  rewrite u32_small by (unfold LIMIT in *; lia).
  destruct (Z.eqb_spec (m_reference_count x - 1) 0) as [Hz|]; [|by apply ends_count_update].
  eapply (ends_unref H I); [apply close_refs; [done|done|rewrite <- occ_pos; lia]|done| |by apply ends_close].
  unfold zlen in *. cbn [length]. lia.
Qed.

(** [F_SETFL] cannot change which ends a description is. *)
Lemma set_flags_inv H I d x flags fs : files_inv links H I fs -> descriptions fs !! d = Some x ->
  Z.land flags O_ACCMODE = Z.land (m_flags x) O_ACCMODE ->
  files_inv links H I (upd_descriptions <[d := set_flags flags x]> fs).
Proof.
  intros [[A B C D] E] Hx Hf. pose proof (open_inodes_update d x (set_flags flags x) fs Hx eq_refl) as Hp.
  split; [split; cbn|].
  - intros e. rewrite A. destruct (decide (e = d)) as [->|];
      [rewrite lookup_insert_eq, Hx; by split; eexists|by rewrite lookup_insert_ne].
  - intros e y. destruct (decide (e = d)) as [->|];
      [rewrite lookup_insert_eq; intros [= <-]; cbn; by apply B|rewrite lookup_insert_ne by done; apply B].
  - intros i. unfold inode_total. rewrite (occ_perm i _ _ Hp). apply C.
  - intros i m Hm. unfold inode_total. rewrite (occ_perm i _ _ Hp). by apply D.
  - intros i. specialize (E i).
    rewrite !(ends_update _ i d x) by (done || (unfold reads, writes; cbn; by rewrite Hf)). exact E.
Qed.

(** A new pipe has one end of each kind. *)
Lemma create_pair_inv H I pipe r w fs : files_inv links H I fs ->
  zlen H + 1 < LIMIT -> zlen I < LIMIT -> inode_refs fs !! pipe = None ->
  descriptions fs !! r = None -> descriptions fs !! w = None -> r <> w ->
  let '(res, fs') := create_pair (Some (pipe, r, w)) fs in
  res = Ok (r, w) /\ files_inv links (w :: r :: H) I fs'.
Proof.
  intros [Hinv He] HH HI Hp Hr Hw Hne. cbn [create_pair]. split; [done|].
  pose proof (inode_live _ _ _ _ Hinv pipe) as Hlive. rewrite Hp in Hlive.
  assert (Hz : inode_total links I fs pipe = 0).
  { pose proof (inode_total_range _ _ _ _ pipe Hlinks Hinv ltac:(lia) HI).
    destruct (decide (0 < inode_total links I fs pipe)) as [Hpos|]; [|lia].
    by destruct (proj1 Hlive Hpos). }
  pose proof (description_insert_refs H I r pipe 0 O_RDONLY fs Hinv ltac:(lia) HI Hr (eq_sym Hz)) as H1.
  assert (H2 : files_inv links (r :: H) I (description_new r pipe O_RDONLY (upd_inodes <[pipe := 0]> fs))).
  { split.
    - apply refs_inv_emit. unfold inode_ref, upd_inodes, upd_descriptions; cbn.
      rewrite (alter_at _ pipe 0) by apply lookup_insert_eq. by rewrite insert_insert_eq.
    - intros j. pose proof (ends_new H I r pipe O_RDONLY fs Hinv ltac:(lia) Hr He j) as Hj. exact Hj. }
  apply description_new_inv; [exact H2| |done| |].
  - unfold zlen in *. cbn [length]. lia.
  - cbn. by rewrite lookup_insert_ne.
  - cbn. rewrite lookup_alter_eq, lookup_insert_eq. by eexists.
Qed.

End accounts.
