(* ===== verification/Process.v ===== *)
(** * kernel/sched/process.cpp: processes

    The process table, descriptors, signals, job control and waiting, with the
    system calls of kernel/sys/syscall.cpp that are built from them.  A process
    is named by its pid, which stands for the pointer too ([pids] of the live
    processes are distinct, [Jobs.v]).  The name of a process, its address space
    and its page tables are not part of this state.

    One transition is a call that is not preempted; where preemption matters a
    theorem says so with the call cut in two. *)

From S2P Require Import Prelude Files Scheduler.

Definition MAX_FILE_DESCRIPTORS : Z := 64.
(** [022], the initial file creation mask. *)
Definition INITIAL_UMASK : Z := 18.

Definition SIG_BLOCK : Z := 0.
Definition SIG_UNBLOCK : Z := 1.
Definition SIG_SETMASK : Z := 2.
Definition SIG_DFL : Z := 0.
Definition SIG_IGN : Z := 1.

Definition W_SIGNALLED (signal : Z) : Z := Z.land signal 0x7f.
Definition W_STOPPED (signal : Z) : Z := Z.lor (Z.shiftl (Z.land signal 0xff) 8) 0x7f.
Definition W_CONTINUED : Z := 0xffff.
Definition WNOHANG : Z := 1.
Definition WUNTRACED : Z := 2.
Definition WCONTINUED : Z := 8.

Definition F_DUPFD : Z := 0.
Definition F_GETFD : Z := 1.
Definition F_SETFD : Z := 2.
Definition F_GETFL : Z := 3.
Definition F_SETFL : Z := 4.
Definition F_DUPFD_CLOEXEC : Z := 1030.
Definition FD_CLOEXEC : Z := 1.

(** A bit of a flag word. *)
Definition has (word bit : Z) : bool := negb (Z.land word bit =? 0).

Record FileDescriptorEntry := mkEntry { description : option Z; close_on_exec : bool }.
Definition no_entry : FileDescriptorEntry := mkEntry None false.

Record Process := mkProcess {
  m_pid : Z;
  m_parent_pid : Z;
  m_pgid : Z;
  m_sid : Z;
  m_working_directory : option Z;
  m_controlling_terminal : option Z;
  m_descriptors : list FileDescriptorEntry;
  m_umask : Z;
  m_brk_start : Z;
  m_brk_current : Z;
  m_main_thread : option Z;
  m_thread_count : Z;
  m_has_exited : bool;
  m_wait_status : Z;
  m_is_stopped : bool;
  m_stop_signal : Z;
  m_stop_pending : bool;
  m_continue_pending : bool;
  m_child_exit_queue : Z;
  m_pending_signals : Z;
  m_signal_mask : Z;
  m_signal_handlers : list Z;
  m_signal_flags : list Z;
  m_signal_restorers : list Z;
  mmap_next : Z;
}.

Definition with_parent (pid : Z) (p : Process) : Process :=
  mkProcess (m_pid p) pid (m_pgid p) (m_sid p) (m_working_directory p)
    (m_controlling_terminal p) (m_descriptors p) (m_umask p) (m_brk_start p) (m_brk_current p)
    (m_main_thread p) (m_thread_count p) (m_has_exited p) (m_wait_status p) (m_is_stopped p)
    (m_stop_signal p) (m_stop_pending p) (m_continue_pending p) (m_child_exit_queue p)
    (m_pending_signals p) (m_signal_mask p) (m_signal_handlers p) (m_signal_flags p)
    (m_signal_restorers p) (mmap_next p).
Definition with_pgid (pgid : Z) (p : Process) : Process :=
  mkProcess (m_pid p) (m_parent_pid p) pgid (m_sid p) (m_working_directory p)
    (m_controlling_terminal p) (m_descriptors p) (m_umask p) (m_brk_start p) (m_brk_current p)
    (m_main_thread p) (m_thread_count p) (m_has_exited p) (m_wait_status p) (m_is_stopped p)
    (m_stop_signal p) (m_stop_pending p) (m_continue_pending p) (m_child_exit_queue p)
    (m_pending_signals p) (m_signal_mask p) (m_signal_handlers p) (m_signal_flags p)
    (m_signal_restorers p) (mmap_next p).
Definition with_sid (sid : Z) (p : Process) : Process :=
  mkProcess (m_pid p) (m_parent_pid p) (m_pgid p) sid (m_working_directory p)
    (m_controlling_terminal p) (m_descriptors p) (m_umask p) (m_brk_start p) (m_brk_current p)
    (m_main_thread p) (m_thread_count p) (m_has_exited p) (m_wait_status p) (m_is_stopped p)
    (m_stop_signal p) (m_stop_pending p) (m_continue_pending p) (m_child_exit_queue p)
    (m_pending_signals p) (m_signal_mask p) (m_signal_handlers p) (m_signal_flags p)
    (m_signal_restorers p) (mmap_next p).
Definition with_cwd (inode : option Z) (p : Process) : Process :=
  mkProcess (m_pid p) (m_parent_pid p) (m_pgid p) (m_sid p) inode (m_controlling_terminal p)
    (m_descriptors p) (m_umask p) (m_brk_start p) (m_brk_current p) (m_main_thread p)
    (m_thread_count p) (m_has_exited p) (m_wait_status p) (m_is_stopped p) (m_stop_signal p)
    (m_stop_pending p) (m_continue_pending p) (m_child_exit_queue p) (m_pending_signals p)
    (m_signal_mask p) (m_signal_handlers p) (m_signal_flags p) (m_signal_restorers p)
    (mmap_next p).
Definition with_terminal (inode : option Z) (p : Process) : Process :=
  mkProcess (m_pid p) (m_parent_pid p) (m_pgid p) (m_sid p) (m_working_directory p) inode
    (m_descriptors p) (m_umask p) (m_brk_start p) (m_brk_current p) (m_main_thread p)
    (m_thread_count p) (m_has_exited p) (m_wait_status p) (m_is_stopped p) (m_stop_signal p)
    (m_stop_pending p) (m_continue_pending p) (m_child_exit_queue p) (m_pending_signals p)
    (m_signal_mask p) (m_signal_handlers p) (m_signal_flags p) (m_signal_restorers p)
    (mmap_next p).
Definition with_descriptors (t : list FileDescriptorEntry) (p : Process) : Process :=
  mkProcess (m_pid p) (m_parent_pid p) (m_pgid p) (m_sid p) (m_working_directory p)
    (m_controlling_terminal p) t (m_umask p) (m_brk_start p) (m_brk_current p) (m_main_thread p)
    (m_thread_count p) (m_has_exited p) (m_wait_status p) (m_is_stopped p) (m_stop_signal p)
    (m_stop_pending p) (m_continue_pending p) (m_child_exit_queue p) (m_pending_signals p)
    (m_signal_mask p) (m_signal_handlers p) (m_signal_flags p) (m_signal_restorers p)
    (mmap_next p).
Definition with_umask (mask : Z) (p : Process) : Process :=
  mkProcess (m_pid p) (m_parent_pid p) (m_pgid p) (m_sid p) (m_working_directory p)
    (m_controlling_terminal p) (m_descriptors p) mask (m_brk_start p) (m_brk_current p)
    (m_main_thread p) (m_thread_count p) (m_has_exited p) (m_wait_status p) (m_is_stopped p)
    (m_stop_signal p) (m_stop_pending p) (m_continue_pending p) (m_child_exit_queue p)
    (m_pending_signals p) (m_signal_mask p) (m_signal_handlers p) (m_signal_flags p)
    (m_signal_restorers p) (mmap_next p).
Definition with_brk (start : Z) (current : Z) (p : Process) : Process :=
  mkProcess (m_pid p) (m_parent_pid p) (m_pgid p) (m_sid p) (m_working_directory p)
    (m_controlling_terminal p) (m_descriptors p) (m_umask p) start current (m_main_thread p)
    (m_thread_count p) (m_has_exited p) (m_wait_status p) (m_is_stopped p) (m_stop_signal p)
    (m_stop_pending p) (m_continue_pending p) (m_child_exit_queue p) (m_pending_signals p)
    (m_signal_mask p) (m_signal_handlers p) (m_signal_flags p) (m_signal_restorers p)
    (mmap_next p).
Definition with_thread (t : option Z) (n : Z) (p : Process) : Process :=
  mkProcess (m_pid p) (m_parent_pid p) (m_pgid p) (m_sid p) (m_working_directory p)
    (m_controlling_terminal p) (m_descriptors p) (m_umask p) (m_brk_start p) (m_brk_current p) t
    n (m_has_exited p) (m_wait_status p) (m_is_stopped p) (m_stop_signal p) (m_stop_pending p)
    (m_continue_pending p) (m_child_exit_queue p) (m_pending_signals p) (m_signal_mask p)
    (m_signal_handlers p) (m_signal_flags p) (m_signal_restorers p) (mmap_next p).
Definition with_exit (exited : bool) (status : Z) (p : Process) : Process :=
  mkProcess (m_pid p) (m_parent_pid p) (m_pgid p) (m_sid p) (m_working_directory p)
    (m_controlling_terminal p) (m_descriptors p) (m_umask p) (m_brk_start p) (m_brk_current p)
    (m_main_thread p) (m_thread_count p) exited status (m_is_stopped p) (m_stop_signal p)
    (m_stop_pending p) (m_continue_pending p) (m_child_exit_queue p) (m_pending_signals p)
    (m_signal_mask p) (m_signal_handlers p) (m_signal_flags p) (m_signal_restorers p)
    (mmap_next p).
Definition with_stop (stopped : bool) (sig : Z) (sp : bool) (cp : bool) (p : Process) : Process :=
  mkProcess (m_pid p) (m_parent_pid p) (m_pgid p) (m_sid p) (m_working_directory p)
    (m_controlling_terminal p) (m_descriptors p) (m_umask p) (m_brk_start p) (m_brk_current p)
    (m_main_thread p) (m_thread_count p) (m_has_exited p) (m_wait_status p) stopped sig sp cp
    (m_child_exit_queue p) (m_pending_signals p) (m_signal_mask p) (m_signal_handlers p)
    (m_signal_flags p) (m_signal_restorers p) (mmap_next p).
Definition with_reported (sp : bool) (cp : bool) (p : Process) : Process :=
  mkProcess (m_pid p) (m_parent_pid p) (m_pgid p) (m_sid p) (m_working_directory p)
    (m_controlling_terminal p) (m_descriptors p) (m_umask p) (m_brk_start p) (m_brk_current p)
    (m_main_thread p) (m_thread_count p) (m_has_exited p) (m_wait_status p) (m_is_stopped p)
    (m_stop_signal p) sp cp (m_child_exit_queue p) (m_pending_signals p) (m_signal_mask p)
    (m_signal_handlers p) (m_signal_flags p) (m_signal_restorers p) (mmap_next p).
Definition with_pending (w : Z) (p : Process) : Process :=
  mkProcess (m_pid p) (m_parent_pid p) (m_pgid p) (m_sid p) (m_working_directory p)
    (m_controlling_terminal p) (m_descriptors p) (m_umask p) (m_brk_start p) (m_brk_current p)
    (m_main_thread p) (m_thread_count p) (m_has_exited p) (m_wait_status p) (m_is_stopped p)
    (m_stop_signal p) (m_stop_pending p) (m_continue_pending p) (m_child_exit_queue p) w
    (m_signal_mask p) (m_signal_handlers p) (m_signal_flags p) (m_signal_restorers p)
    (mmap_next p).
Definition with_mask (w : Z) (p : Process) : Process :=
  mkProcess (m_pid p) (m_parent_pid p) (m_pgid p) (m_sid p) (m_working_directory p)
    (m_controlling_terminal p) (m_descriptors p) (m_umask p) (m_brk_start p) (m_brk_current p)
    (m_main_thread p) (m_thread_count p) (m_has_exited p) (m_wait_status p) (m_is_stopped p)
    (m_stop_signal p) (m_stop_pending p) (m_continue_pending p) (m_child_exit_queue p)
    (m_pending_signals p) w (m_signal_handlers p) (m_signal_flags p) (m_signal_restorers p)
    (mmap_next p).
Definition with_actions (hs : list Z) (fl : list Z) (rs : list Z) (p : Process) : Process :=
  mkProcess (m_pid p) (m_parent_pid p) (m_pgid p) (m_sid p) (m_working_directory p)
    (m_controlling_terminal p) (m_descriptors p) (m_umask p) (m_brk_start p) (m_brk_current p)
    (m_main_thread p) (m_thread_count p) (m_has_exited p) (m_wait_status p) (m_is_stopped p)
    (m_stop_signal p) (m_stop_pending p) (m_continue_pending p) (m_child_exit_queue p)
    (m_pending_signals p) (m_signal_mask p) hs fl rs (mmap_next p).
Definition with_mmap_next (a : Z) (p : Process) : Process :=
  mkProcess (m_pid p) (m_parent_pid p) (m_pgid p) (m_sid p) (m_working_directory p)
    (m_controlling_terminal p) (m_descriptors p) (m_umask p) (m_brk_start p) (m_brk_current p)
    (m_main_thread p) (m_thread_count p) (m_has_exited p) (m_wait_status p) (m_is_stopped p)
    (m_stop_signal p) (m_stop_pending p) (m_continue_pending p) (m_child_exit_queue p)
    (m_pending_signals p) (m_signal_mask p) (m_signal_handlers p) (m_signal_flags p)
    (m_signal_restorers p) a.

(** The value-initialised object at the address [a]; its wait queue is part of it. *)
Definition process_new (a pid : Z) : Process :=
  mkProcess pid 0 0 0 None None (replicate (Z.to_nat MAX_FILE_DESCRIPTORS) no_entry) INITIAL_UMASK 0 0
    None 0 false 0 false 0 false false a 0 0 (replicate (Z.to_nat NSIG) 0)
    (replicate (Z.to_nat NSIG) 0) (replicate (Z.to_nat NSIG) 0) 0x0000100000000000.

(** ** Descriptors

    The members of [Process] that use the open files act on the pair of both. *)

Abbreviation PF := (Process * Files)%type.

Definition entry (fd : Z) (p : Process) : FileDescriptorEntry := zget no_entry (m_descriptors p) fd.
Definition set_entry (fd : Z) (e : FileDescriptorEntry) (p : Process) : Process :=
  with_descriptors (zset (m_descriptors p) fd e) p.

Definition on_process {A} (f : Process -> A) : M PF A := fun s => (Ok (f s.1), s).
Definition mod_process (f : Process -> Process) : M PF unit := fun s => (Ok tt, (f s.1, s.2)).
Definition mod_files (f : Files -> Files) : M PF unit := fun s => (Ok tt, (s.1, f s.2)).

Fixpoint alloc_loop (fuel : nat) (fd d : Z) (p : Process) : option (Z * Process) :=
  match fuel with
  | O => None
  | S fuel' =>
      match description (entry fd p) with
      | None => Some (fd, set_entry fd (mkEntry (Some d) false) p)
      | Some _ => alloc_loop fuel' (fd + 1) d p
      end
  end.

Definition allocate_descriptor (d lowest : Z) : M PF Z := fun s =>
  if lowest <? 0 then (Err EINVAL, s) else
  match alloc_loop (Z.to_nat (MAX_FILE_DESCRIPTORS - lowest)) lowest d s.1 with
  | Some (fd, p) => (Ok fd, (p, s.2))
  | None => (Err EMFILE, s)
  end.

Definition description_for (fd : Z) : M PF Z := fun s =>
  if (fd <? 0) || (fd >=? MAX_FILE_DESCRIPTORS) then (Err EBADF, s) else
  match description (entry fd s.1) with
  | None => (Err EBADF, s)
  | Some d => (Ok d, s)
  end.

Definition close_descriptor (fd : Z) : M PF unit :=
  let! d := description_for fd in
  mod_process (set_entry fd no_entry) ;!
  mod_files (release_description d).

Definition duplicate_descriptor (fd to : Z) : M PF Z :=
  let! d := description_for fd in
  if to <? 0 then
    let! allocated := allocate_descriptor d 0 in
    mod_files (description_ref d) ;! mok allocated
  else if to >=? MAX_FILE_DESCRIPTORS then merr EBADF
  else if to =? fd then mok to
  else
    let! e := on_process (entry to) in
    (match description e with
     | Some _ => mcatch (close_descriptor to) ;! mok tt
     | None => mok tt
     end) ;!
    mod_files (description_ref d) ;!
    mod_process (set_entry to (mkEntry (Some d) false)) ;!
    mok to.

Definition descriptor_close_on_exec (fd : Z) : M PF bool :=
  description_for fd ;! on_process (fun p => close_on_exec (entry fd p)).

Definition set_descriptor_close_on_exec (fd : Z) (b : bool) : M PF unit :=
  description_for fd ;!
  mod_process (fun p => set_entry fd (mkEntry (description (entry fd p)) b) p).

(** [for (fd = 0; fd < MAX; ++fd) if (...) (void)close_descriptor(fd);] *)
Definition close_if (test : FileDescriptorEntry -> bool) (fd : Z) (s : PF) : PF :=
  if test (entry fd s.1) then snd (close_descriptor fd s) else s.

Definition is_open (e : FileDescriptorEntry) : bool :=
  match description e with Some _ => true | None => false end.

Definition close_all_descriptors (s : PF) : PF :=
  for_up (Z.to_nat MAX_FILE_DESCRIPTORS) 0 (close_if is_open) s.
Definition close_on_exec_descriptors (s : PF) : PF :=
  for_up (Z.to_nat MAX_FILE_DESCRIPTORS) 0 (close_if (fun e => is_open e && close_on_exec e)) s.

Definition open_descriptor_count (p : Process) : Z := zlen (filter (fun e => is_open e = true) (m_descriptors p)).

(** ** The directories a process holds *)

Definition opt_ref (i : option Z) (fs : Files) : Files :=
  match i with Some i => inode_ref i fs | None => fs end.
Definition opt_unref (i : option Z) (fs : Files) : Files :=
  match i with Some i => inode_unref i fs | None => fs end.

Definition set_working_directory (inode : option Z) (s : PF) : PF :=
  let '(p, fs) := s in
  (with_cwd inode p, opt_unref (m_working_directory p) (opt_ref inode fs)).
Definition set_controlling_terminal (inode : option Z) (s : PF) : PF :=
  let '(p, fs) := s in
  (with_terminal inode p, opt_unref (m_controlling_terminal p) (opt_ref inode fs)).

(** The destructor, up to the address space. *)
Definition process_destroy (s : PF) : Files :=
  let '(p, fs) := close_all_descriptors s in
  opt_unref (m_controlling_terminal p) (opt_unref (m_working_directory p) fs).

(** ** Signals of one process *)

Definition bit (signal : Z) : Z := Z.shiftl 1 signal.
Definition STOP_SIGNAL_MASK : Z :=
  Z.lor (Z.lor (Z.lor (bit SIGSTOP) (bit SIGTSTP)) (bit SIGTTIN)) (bit SIGTTOU).
Definition UNBLOCKABLE_SIGNALS : Z := Z.lor (bit SIGKILL) (bit SIGSTOP).

(** [x & ~mask] on 64 bits. *)
Definition and_not (x mask : Z) : Z := Z.land x (u64 (Z.lnot mask)).

Definition valid_signal (signal : Z) : bool := negb ((signal <=? 0) || (signal >=? NSIG)).

(** The three atomic updates of [raise_signal]. *)
Definition record_signal (signal : Z) (p : Process) : Process :=
  let pending := m_pending_signals p in
  let pending :=
    if signal =? SIGCONT then and_not pending STOP_SIGNAL_MASK
    else if has STOP_SIGNAL_MASK (bit signal) then and_not pending (bit SIGCONT)
    else pending in
  with_pending (Z.lor pending (bit signal)) p.

Definition deliverable (p : Process) : Z :=
  and_not (m_pending_signals p) (and_not (m_signal_mask p) UNBLOCKABLE_SIGNALS).

Definition has_pending_signals (p : Process) : bool := negb (deliverable p =? 0).

Definition take_pending_signal (p : Process) : Z * Process :=
  if deliverable p =? 0 then (0, p)
  else let signal := ctzll (deliverable p) in
       (signal, with_pending (and_not (m_pending_signals p) (bit signal)) p).

Definition set_signal_mask (how wanted : Z) (p : Process) : Z * Process :=
  let previous := m_signal_mask p in
  let store next := (previous, with_mask (and_not next UNBLOCKABLE_SIGNALS) p) in
  if how =? SIG_BLOCK then store (Z.lor previous wanted)
  else if how =? SIG_UNBLOCK then store (and_not previous wanted)
  else if how =? SIG_SETMASK then store wanted
  else (previous, p).

Definition set_umask (mask : Z) (p : Process) : Z * Process :=
  (m_umask p, with_umask (Z.land mask 4095) p).

Definition set_signal_action (signal handler restorer flags : Z) (p : Process) : Process :=
  if negb (valid_signal signal) then p
  else if (signal =? SIGKILL) || (signal =? SIGSTOP) then p
  else with_actions (zset (m_signal_handlers p) signal handler)
         (zset (m_signal_flags p) signal flags) (zset (m_signal_restorers p) signal restorer) p.

Definition signal_flags (signal : Z) (p : Process) : Z :=
  if valid_signal signal then zget 0 (m_signal_flags p) signal else 0.
Definition signal_disposition (signal : Z) (p : Process) : Z :=
  if valid_signal signal then zget 0 (m_signal_handlers p) signal else 0.
Definition signal_restorer (signal : Z) (p : Process) : Z :=
  if valid_signal signal then zget 0 (m_signal_restorers p) signal else 0.

Definition reset_signal_handlers (p : Process) : Process :=
  for_up (Z.to_nat NSIG) 0 (fun signal p =>
    with_actions
      (if zget 0 (m_signal_handlers p) signal =? SIG_IGN then m_signal_handlers p
       else zset (m_signal_handlers p) signal SIG_DFL)
      (m_signal_flags p) (zset (m_signal_restorers p) signal 0) p) p.

Definition add_thread (t : Z) (p : Process) : Process :=
  with_thread (match m_main_thread p with None => Some t | Some m => Some m end)
    (u64 (m_thread_count p + 1)) p.

(** ** The kernel's processes

    [s_processes] in list order; [poll_queue] is the address of the queue every
    [wake_all] also wakes. *)

Record Kernel := mkKernel {
  s_processes : list Process;
  s_next_pid : Z;
  files : Files;
  sched : Sched;
  poll_queue : Z;
}.

Definition upd_processes (f : list Process -> list Process) (k : Kernel) : Kernel :=
  mkKernel (f (s_processes k)) (s_next_pid k) (files k) (sched k) (poll_queue k).
Definition upd_files (f : Files -> Files) (k : Kernel) : Kernel :=
  mkKernel (s_processes k) (s_next_pid k) (f (files k)) (sched k) (poll_queue k).
Definition upd_sched (f : Sched -> Sched) (k : Kernel) : Kernel :=
  mkKernel (s_processes k) (s_next_pid k) (files k) (f (sched k)) (poll_queue k).

Definition by_pid (pid : Z) (k : Kernel) : option Process :=
  find (fun p => m_pid p =? pid) (s_processes k).

(** Writing through the pointer to a process. *)
Definition upd_process (pid : Z) (f : Process -> Process) : Kernel -> Kernel :=
  upd_processes (map (fun p => if m_pid p =? pid then f p else p)).

(** A member function called on the process [pid]; calling it on a process that
    is not there follows a dangling pointer. *)
Definition call_on {A} (pid : Z) (m : M PF A) : M Kernel A := fun k =>
  match by_pid pid k with
  | None => (Panic, k)
  | Some p => let '(r, (p', fs)) := m (p, files k) in
              (r, upd_files (fun _ => fs) (upd_process pid (fun _ => p') k))
  end.
Definition run_on (pid : Z) (f : PF -> PF) (k : Kernel) : Kernel :=
  snd (call_on pid (fun s => (Ok tt, f s)) k).

(** *** Raising signals, stopping and continuing *)

(** [if (auto* parent = by_pid(m_parent_pid)) { raise SIGCHLD; wake_all }] *)
Definition notify_parent (raise : Z -> Z -> Kernel -> Kernel) (pid : Z) (k : Kernel) : Kernel :=
  match by_pid pid k with
  | None => k
  | Some p =>
      match by_pid (m_parent_pid p) k with
      | None => k
      | Some parent =>
          let k := raise (m_pid parent) SIGCHLD k in
          upd_sched (wake_all (poll_queue k) (m_child_exit_queue parent)) k
      end
  end.

Definition resume_with (raise : Z -> Z -> Kernel -> Kernel) (pid : Z) (k : Kernel) : Kernel :=
  match by_pid pid k with
  | None => k
  | Some p =>
      if negb (m_is_stopped p) then k else
      let k := upd_process pid (with_stop false 0 false true) k in
      let k := notify_parent raise pid k in
      match m_main_thread p with
      | Some t => upd_sched (unblock t) k
      | None => k
      end
  end.

(** [raise_signal] and [resume] call each other: the second raises only SIGCHLD,
    which never resumes, so two levels are all there are ([raise_at_depth]). *)
Fixpoint raise_at (depth : nat) (pid signal : Z) (k : Kernel) : Kernel :=
  match depth with
  | O => k
  | S depth' =>
      if negb (valid_signal signal) then k else
      match by_pid pid k with
      | None => k
      | Some p =>
          let k := upd_process pid (record_signal signal) k in
          if m_is_stopped p && ((signal =? SIGCONT) || (signal =? SIGKILL))
          then resume_with (raise_at depth') pid k
          else
            match m_main_thread p with
            | None => k
            | Some t =>
                match state_of (sched k) t with
                | Some Blocked | Some Sleeping => upd_sched (unblock t) k
                | _ => k
                end
            end
      end
  end.

Lemma raise_at_S depth pid signal k : raise_at (S depth) pid signal k =
  if negb (valid_signal signal) then k else
  match by_pid pid k with
  | None => k
  | Some p =>
      let k := upd_process pid (record_signal signal) k in
      if m_is_stopped p && ((signal =? SIGCONT) || (signal =? SIGKILL))
      then resume_with (raise_at depth) pid k
      else
        match m_main_thread p with
        | None => k
        | Some t =>
            match state_of (sched k) t with
            | Some Blocked | Some Sleeping => upd_sched (unblock t) k
            | _ => k
            end
        end
  end.
Proof. reflexivity. Qed.

Definition raise_signal : Z -> Z -> Kernel -> Kernel := raise_at 2.
Definition resume : Z -> Kernel -> Kernel := resume_with raise_signal.
#[global] Arguments raise_signal : simpl never.

(** [stop], in its two halves: what it records, and the sleep its own thread
    then goes into. *)
Definition stop_record (pid signal : Z) (k : Kernel) : Kernel :=
  let k := upd_process pid (with_stop true signal true false) k in
  notify_parent raise_signal pid k.

Definition stop_block (pid : Z) (k : Kernel) : Kernel :=
  match by_pid pid k with
  | Some p => if decide (m_main_thread p = Some (current_thread (sched k)))
              then upd_sched (block_current_mark Stopped) k else k
  | None => k
  end.

Definition stop (pid signal : Z) (k : Kernel) : Kernel := stop_block pid (stop_record pid signal k).

(** *** Creation *)

(** [Process::initialize]: the kernel's own process, pid 0, at the address [a]. *)
Definition process_initialize (a : Z) (k : Kernel) : Kernel :=
  upd_processes (fun l => l ++ [process_new a 0]) k.

(** [memory] is what [kzalloc] returned, [root] is [fs::root_inode()]. *)
Definition create (memory : option Z) (root : option Z) (parent : option Process) : M Kernel Z :=
  fun k =>
  match memory with
  | None => (Err ENOMEM, k)
  | Some a =>
      let pid := s_next_pid k in
      let k := mkKernel (s_processes k) (i32 (pid + 1)) (files k) (sched k) (poll_queue k) in
      let p := process_new a pid in
      let p := with_parent (match parent with Some q => m_pid q | None => 0 end) p in
      let p := with_pgid (match parent with Some q => m_pgid q | None => pid end) p in
      let p := with_sid (match parent with Some q => m_sid q | None => pid end) p in
      let '(p, fs) := match parent with
                      | Some q => set_controlling_terminal (m_controlling_terminal q) (p, files k)
                      | None => (p, files k)
                      end in
      let p := match parent with
               | Some q => with_umask (m_umask q) (with_mask (m_signal_mask q) p)
               | None => p
               end in
      let cwd := match parent with Some q => m_working_directory q | None => root end in
      let fs := opt_ref cwd fs in
      let p := with_cwd cwd p in
      (Ok pid, upd_processes (fun l => l ++ [p]) (upd_files (fun _ => fs) k))
  end.

(** *** Exit and wait *)

Definition reparent (dead : Z) : Kernel -> Kernel :=
  upd_processes (map (fun q => if m_parent_pid q =? dead then with_parent 1 q else q)).

Definition mark_exited (pid status : Z) (k : Kernel) : Kernel :=
  let k := upd_process pid (with_exit true status) k in
  let k := reparent pid k in
  let k := run_on pid close_all_descriptors k in
  notify_parent raise_signal pid k.

(** [do_exit] on the process whose thread is running, up to the switch away. *)
Definition do_exit (pid status : Z) (k : Kernel) : Kernel :=
  let k := if pid =? 0 then k else mark_exited pid status k in
  upd_sched exit_mark k.

Definition is_candidate (me : Process) (wanted : Z) (child : Process) : bool :=
  negb (negb (m_parent_pid child =? m_pid me) || (m_pid child =? m_pid me)
        || ((wanted >? 0) && negb (m_pid child =? wanted))
        || ((wanted =? 0) && negb (m_pgid child =? m_pgid me))
        || ((wanted <? -1) && negb (m_pgid child =? - wanted))).

Definition is_changed (options : Z) (child : Process) : bool :=
  if has options WUNTRACED && m_stop_pending child then true
  else has options WCONTINUED && m_continue_pending child.

(** The scan of [s_processes]: whether there is any candidate, the first changed
    one, and the first finished one, at which it stops. *)
Fixpoint reap_scan (me : Process) (wanted options : Z) (l : list Process)
    (any : bool) (changed : option Process) : bool * option Process * option Process :=
  match l with
  | [] => (any, changed, None)
  | child :: l' =>
      if negb (is_candidate me wanted child) then reap_scan me wanted options l' any changed
      else if m_has_exited child then (true, changed, Some child)
      else reap_scan me wanted options l' true
             (match changed with
              | Some c => Some c
              | None => if is_changed options child then Some child else None
              end)
  end.

(** One turn of the loop of [reap_child], up to the wait.  The result is the
    child's pid and the status stored. *)
Definition reap_turn (me : Process) (wanted options : Z) (blocking : bool) (k : Kernel)
    : Kernel * Blocking unit (Z * Z) :=
  let '(any, changed, finished) := reap_scan me wanted options (s_processes k) false None in
  match changed, finished with
  | Some c, _ =>
      if m_stop_pending c
      then (upd_process (m_pid c) (fun c => with_reported false (m_continue_pending c) c) k,
            Done (Ok (m_pid c, W_STOPPED (m_stop_signal c))))
      else (upd_process (m_pid c) (fun c => with_reported (m_stop_pending c) false c) k,
            Done (Ok (m_pid c, W_CONTINUED)))
  | None, Some f =>
      let k := upd_processes (filter (fun q => m_pid q <> m_pid f)) k in
      (upd_files (fun fs => process_destroy (f, fs)) k, Done (Ok (m_pid f, m_wait_status f)))
  | None, None =>
      if negb any then (k, Done (Err ECHILD))
      else if negb blocking then (k, Done (Err EAGAIN))
      else (k, WaitOn tt)
  end.

Definition reap_child (me wanted options : Z) (blocking : bool) (k : Kernel)
    : Kernel * Blocking unit (Z * Z) :=
  match by_pid me k with
  | None => (k, Done Panic)
  | Some p => reap_turn p wanted options blocking k
  end.

(** From the wake-up on. *)
Definition reap_resume (me wanted options : Z) (k : Kernel) : Kernel * Blocking unit (Z * Z) :=
  match by_pid me k with
  | None => (k, Done Panic)
  | Some p => if has_pending_signals p then (k, Done (Err EINTR))
              else reap_turn p wanted options true k
  end.

(** What [sys_waitpid] makes of the result. *)
Definition waitpid_result (options : Z) (r : Res (Z * Z)) : Res (Z * Z) :=
  match r with
  | Err e => if (e =? EAGAIN) && has options WNOHANG then Ok (0, 0) else Err e
  | _ => r
  end.

(** *** Groups and sessions *)

Definition set_process_group (caller pid pgid : Z) : M Kernel unit := fun k =>
  match by_pid caller k with
  | None => (Err ESRCH, k)
  | Some c =>
      if (pid <? 0) || (pgid <? 0) then (Err EINVAL, k) else
      match (if pid =? 0 then Some c else by_pid pid k) with
      | None => (Err ESRCH, k)
      | Some target =>
          if negb (m_pid target =? m_pid c) && negb (m_parent_pid target =? m_pid c)
          then (Err ESRCH, k)
          else if negb (m_sid target =? m_sid c) then (Err EPERM, k)
          else if m_pid target =? m_sid target then (Err EPERM, k)
          else
            let wanted := if pgid =? 0 then m_pid target else pgid in
            if negb (wanted =? m_pid target)
               && negb (existsb (fun q => (m_pgid q =? wanted) && (m_sid q =? m_sid c))
                          (s_processes k))
            then (Err EPERM, k)
            else (Ok tt, upd_process (m_pid target) (with_pgid wanted) k)
      end
  end.

Definition start_session (me : Z) : M Kernel Z := fun k =>
  match by_pid me k with
  | None => (Panic, k)
  | Some p =>
      if m_pid p =? m_pgid p then (Err EPERM, k)
      else (Ok (m_pid p), run_on me (fun s =>
              set_controlling_terminal None (with_pgid (m_pid p) (with_sid (m_pid p) s.1), s.2)) k)
  end.

Definition MAX_GROUP : nat := 64.

Definition group_members (pgid : Z) (k : Kernel) : list Process :=
  take MAX_GROUP (filter (fun q => m_pgid q = pgid /\ m_has_exited q = false) (s_processes k)).

(** [for_each_in_group(pgid, raise_on, &signal)] *)
Definition signal_group (pgid signal : Z) (k : Kernel) : Kernel :=
  foldl (fun k q => raise_signal (m_pid q) signal k) k (group_members pgid k).

Definition group_exists (pgid : Z) (k : Kernel) : bool :=
  existsb (fun q => (m_pgid q =? pgid) && negb (m_has_exited q)) (s_processes k).

(** [kill(-1, ...)] calls [raise_signal] with [s_process_lock] held; on a stopped
    process SIGCONT and SIGKILL go through [resume], which takes the lock again
    in [by_pid].  The lock is not recursive: the machine spins for ever. *)
Definition raise_takes_lock (signal : Z) (q : Process) : bool :=
  m_is_stopped q && ((signal =? SIGCONT) || (signal =? SIGKILL)).

Fixpoint broadcast (caller signal : Z) (l : list Process) (k : Kernel) : Res unit * Kernel :=
  match l with
  | [] => (Ok tt, k)
  | q :: l' =>
      if (m_pid q <=? 1) || (m_pid q =? caller) then broadcast caller signal l' k
      else if raise_takes_lock signal q then (Panic, k)
      else broadcast caller signal l' (raise_signal (m_pid q) signal k)
  end.

Definition sys_kill (caller pid signal : Z) : M Kernel unit := fun k =>
  if (signal <? 0) || (signal >=? NSIG) then (Err EINVAL, k)
  else if (pid <? -1) || (pid =? 0) then
    let group := if pid =? 0 then match by_pid caller k with Some c => m_pgid c | None => 0 end
                 else - pid in
    if negb (group_exists group k) then (Err ESRCH, k)
    else if signal =? 0 then (Ok tt, k)
    else (Ok tt, signal_group group signal k)
  else if pid =? -1 then
    if signal =? 0 then (Ok tt, k) else broadcast caller signal (s_processes k) k
  else
    match by_pid pid k with
    | None => (Err ESRCH, k)
    | Some _ => if signal =? 0 then (Ok tt, k) else (Ok tt, raise_signal pid signal k)
    end.

(** ** System calls on descriptors *)

(** [fs::open] from the allocation of the description on; the inode is the one
    the path resolved to. *)
Definition open_tail (memory : option Z) (inode flags : Z) : M PF Z := fun s =>
  match memory with
  | None => (Err ENOMEM, s)
  | Some d => (Ok d, (s.1, description_new d inode flags s.2))
  end.

(** [sys_open] and [sys_openat] after the path. *)
Definition sys_open (memory : option Z) (inode flags : Z) : M PF Z :=
  let! d := open_tail memory inode flags in
  let! fd := mcatch (allocate_descriptor d 0) in
  match fd with
  | inr e => mod_files (release_description d) ;! merr e
  | inl fd =>
      (if has flags O_CLOEXEC then mcatch (set_descriptor_close_on_exec fd true) ;! mok tt
       else mok tt) ;!
      mok fd
  end.

Definition sys_close (fd : Z) : M PF unit := close_descriptor fd.

Definition sys_dup (fd : Z) : M PF Z := duplicate_descriptor fd (-1).
Definition sys_dup2 (fd to : Z) : M PF Z := duplicate_descriptor fd to.

(** [copied] is whether the two numbers could be stored in user memory. *)
Definition sys_pipe (memory : option (Z * Z * Z)) (copied : bool) : M PF (Z * Z) :=
  let! ends := (fun s => let '(r, fs) := create_pair memory s.2 in (r, (s.1, fs))) in
  let '(read_end, write_end) := ends in
  let! read_fd := mcatch (allocate_descriptor read_end 0) in
  match read_fd with
  | inr e =>
      mod_files (release_description read_end) ;!
      mod_files (release_description write_end) ;! merr e
  | inl read_fd =>
      let! write_fd := mcatch (allocate_descriptor write_end 0) in
      match write_fd with
      | inr e =>
          mcatch (close_descriptor read_fd) ;!
          mod_files (release_description write_end) ;! merr e
      | inl write_fd =>
          if copied then mok (read_fd, write_fd)
          else
            mcatch (close_descriptor read_fd) ;!
            mcatch (close_descriptor write_fd) ;! merr EFAULT
      end
  end.

Definition sys_fcntl (fd command argument : Z) : M PF Z :=
  let! d := description_for fd in
  if (command =? F_DUPFD) || (command =? F_DUPFD_CLOEXEC) then
    let lowest := i32 argument in
    if lowest <? 0 then merr EINVAL
    else
      let! duplicate := allocate_descriptor d lowest in
      mod_files (description_ref d) ;!
      set_descriptor_close_on_exec duplicate (command =? F_DUPFD_CLOEXEC) ;!
      mok duplicate
  else if command =? F_GETFD then
    let! b := descriptor_close_on_exec fd in
    mok (if b : bool then FD_CLOEXEC else 0)
  else if command =? F_SETFD then
    set_descriptor_close_on_exec fd (has argument FD_CLOEXEC) ;! mok 0
  else if command =? F_GETFL then
    fun s => (Ok (match descriptions s.2 !! d with Some x => u32 (m_flags x) | None => 0 end), s)
  else if command =? F_SETFL then
    mod_files (upd_descriptions (alter (fun x =>
      set_flags (Z.lor (Z.land (m_flags x) (Z.lnot O_SETFL_MASK))
                   (Z.land (i32 argument) O_SETFL_MASK)) x) d)) ;! mok 0
  else merr EINVAL.

Definition sys_chdir (inode : Z) (s : PF) : PF := set_working_directory (Some inode) s.

(** [execve] once nothing can fail any more. *)
Definition exec_commit (brk_start : Z) (s : PF) : PF :=
  let '(p, fs) := close_on_exec_descriptors s in
  (with_brk brk_start brk_start (reset_signal_handlers p), fs).

(** *** fork *)

(** The body of the descriptor loop: the parent's entry, as [description_for]
    and [descriptor_close_on_exec] see it, into the child's table. *)
Definition fork_descriptor (parent : Process) (fd : Z) (s : PF) : PF :=
  match fst (description_for fd (parent, s.2)) with
  | Ok d =>
      let s := snd (mod_files (description_ref d) s) in
      let s := snd (allocate_descriptor d fd s) in
      snd (set_descriptor_close_on_exec fd (close_on_exec (entry fd parent)) s)
  | _ => s
  end.

(** [clone] is the outcome of copying the address space, [thread] the new thread
    or the failure to make one.  The early returns leave the child in the list. *)
Definition sys_fork (me : Z) (memory : option Z) (clone : Res unit) (thread : Res Z)
    : M Kernel Z := fun k =>
  match by_pid me k with
  | None => (Err EINVAL, k)
  | Some parent =>
      (let! child := create memory None (Some parent) in
       match clone with
       | Err e => merr e
       | Panic => mpanic
       | Ok _ =>
           mmod (run_on child (set_working_directory (m_working_directory parent))) ;!
           mmod (upd_process child (with_mmap_next (mmap_next parent))) ;!
           mmod (run_on child (fun s =>
             for_up (Z.to_nat MAX_FILE_DESCRIPTORS) 0 (fork_descriptor parent) s)) ;!
           match thread with
           | Err e => merr e
           | Panic => mpanic
           | Ok t =>
               mmod (upd_process child (add_thread t)) ;!
               mmod (upd_process child (with_brk (m_brk_current parent) (m_brk_current parent))) ;!
               mmod (upd_sched (spawn t)) ;!
               mok child
           end
       end) k
  end.

(** ** Basic facts *)

Lemma by_pid_split pid k p : by_pid pid k = Some p ->
  m_pid p = pid /\ exists l1 l2, s_processes k = l1 ++ p :: l2
  /\ Forall (fun q => m_pid q <> pid) l1.
Proof.
  unfold by_pid. generalize (s_processes k). intros l. induction l as [|q l IH]; [done|].
  cbn. destruct (Z.eqb_spec (m_pid q) pid) as [Hq|Hq].
  - intros [= <-]. split; [done|]. exists [], l. done.
  - intros Hf. destruct (IH Hf) as (Hp & l1 & l2 & -> & Hl). split; [done|].
    exists (q :: l1), l2. by split; [|constructor].
Qed.

Lemma by_pid_elem pid k p : by_pid pid k = Some p -> p ∈ s_processes k.
Proof.
  intros Hp. destruct (by_pid_split pid k p Hp) as (_ & l1 & l2 & -> & _).
  apply elem_of_app. right. by left.
Qed.

Lemma by_pid_pid pid k p : by_pid pid k = Some p -> m_pid p = pid.
Proof. intros Hp. by destruct (by_pid_split pid k p Hp). Qed.

Lemma by_pid_found k p : NoDup (m_pid <$> s_processes k) -> p ∈ s_processes k ->
  by_pid (m_pid p) k = Some p.
Proof.
  unfold by_pid. generalize (s_processes k). intros l. induction l as [|q l IH].
  - intros _ Hin. by apply not_elem_of_nil in Hin.
  - rewrite fmap_cons, NoDup_cons, elem_of_cons. intros [Hn Hnd] [->|Hin]; cbn.
    + by rewrite Z.eqb_refl.
    + destruct (Z.eqb_spec (m_pid q) (m_pid p)) as [Heq|]; [|by apply IH].
      destruct Hn. rewrite Heq. by apply list_elem_of_fmap_2.
Qed.

(** Updating a process that is there. *)
Lemma upd_process_split pid f l1 p l2 : m_pid p = pid ->
  NoDup (m_pid <$> l1 ++ p :: l2) ->
  map (fun q => if m_pid q =? pid then f q else q) (l1 ++ p :: l2) = l1 ++ f p :: l2.
Proof.
  intros <- Hnd. rewrite fmap_app, fmap_cons in Hnd.
  apply NoDup_app in Hnd as (_ & H1 & H2). apply NoDup_cons in H2 as [H2 _].
  rewrite map_app. cbn. rewrite Z.eqb_refl.
  assert (Hid : forall l, (m_pid p ∉ m_pid <$> l) ->
    map (fun q => if m_pid q =? m_pid p then f q else q) l = l).
  { induction l as [|q l IH]; [done|]. rewrite fmap_cons, not_elem_of_cons. intros [Hq Hl]. cbn.
    destruct (Z.eqb_spec (m_pid q) (m_pid p)); [congruence|]. by rewrite IH. }
  rewrite !Hid; [done|done|]. intros Hin. apply (H1 _ Hin). by left.
Qed.

Lemma by_pid_upd_ne q f k pid : (forall p, m_pid (f p) = m_pid p) -> q <> pid ->
  by_pid pid (upd_process q f k) = by_pid pid k.
Proof.
  intros Hf Hn. unfold by_pid, upd_process; cbn. induction (s_processes k) as [|r l IH]; [done|]. cbn.
  destruct (Z.eqb_spec (m_pid r) q) as [Hr|Hr].
  - rewrite Hf. destruct (Z.eqb_spec (m_pid r) pid); [congruence|done].
  - by destruct (m_pid r =? pid).
Qed.

Lemma by_pid_upd_eq pid f k p : by_pid pid k = Some p -> m_pid (f p) = pid ->
  by_pid pid (upd_process pid f k) = Some (f p).
Proof.
  unfold by_pid, upd_process; cbn. generalize (s_processes k). intros l Hp Hf.
  induction l as [|q l IH]; [done|]. cbn in *. destruct (Z.eqb_spec (m_pid q) pid) as [Hq|Hq].
  - injection Hp as ->. rewrite Hf, Z.eqb_refl. done.
  - destruct (Z.eqb_spec (m_pid q) pid); [done|]. by apply IH.
Qed.

Lemma upd_process_elem pid f k q : q ∈ s_processes k -> m_pid q <> pid ->
  q ∈ s_processes (upd_process pid f k).
Proof.
  intros Hq Hne. unfold upd_process; cbn. apply (list_elem_of_fmap_2' _ _ q); [done|].
  by destruct (Z.eqb_spec (m_pid q) pid).
Qed.

Lemma run_on_eq pid f k p : by_pid pid k = Some p ->
  run_on pid f k = upd_files (fun _ => (f (p, files k)).2) (upd_process pid (fun _ => (f (p, files k)).1) k).
Proof. intros Hp. unfold run_on, call_on. rewrite Hp. by destruct (f (p, files k)). Qed.

Lemma by_pid_files f pid k : by_pid pid (upd_files f k) = by_pid pid k.
Proof. done. Qed.

Lemma run_on_none pid f k : by_pid pid k = None -> run_on pid f k = k.
Proof. intros Hp. unfold run_on, call_on. by rewrite Hp. Qed.

Lemma remove_split l1 p l2 : NoDup (m_pid <$> l1 ++ p :: l2) ->
  filter (fun q => m_pid q <> m_pid p) (l1 ++ p :: l2) = l1 ++ l2.
Proof.
  intros Hnd. rewrite fmap_app, fmap_cons in Hnd.
  apply NoDup_app in Hnd as (_ & H1 & H2). apply NoDup_cons in H2 as [H2 _].
  assert (Hid : forall l : list Process, (m_pid p ∉ m_pid <$> l) -> filter (fun q => m_pid q <> m_pid p) l = l).
  { induction l as [|q l IH]; [done|]. rewrite fmap_cons, not_elem_of_cons. intros [Hq Hl].
    rewrite filter_cons_True by congruence. by rewrite IH. }
  rewrite filter_app, filter_cons_False by (intros Hx; by apply Hx). rewrite !Hid; [done|done|].
  intros Hin. apply (H1 _ Hin). by left.
Qed.

(** The scan of [reap_child]: what it finds is a candidate, and it finds one if
    there is any. *)
Lemma reap_scan_spec me wanted options l any changed : forall any' changed' finished,
  reap_scan me wanted options l any changed = (any', changed', finished) ->
  (any' = any || existsb (is_candidate me wanted) l)
  /\ match finished with
     | Some f => f ∈ l /\ is_candidate me wanted f = true /\ m_has_exited f = true
     | None => forall q, q ∈ l -> is_candidate me wanted q = true -> m_has_exited q = false
     end
  /\ match changed with
     | Some c => changed' = Some c
     | None => match changed' with
               | Some c => c ∈ l /\ is_candidate me wanted c = true /\ m_has_exited c = false
                           /\ is_changed options c = true
               | None => finished = None -> forall q, q ∈ l -> is_candidate me wanted q = true ->
                         is_changed options q = false
               end
     end.
Proof.
  revert any changed. induction l as [|q l IH]; intros any changed any' changed' finished Hs.
  { injection Hs as <- <- <-. rewrite orb_false_r. split; [done|]. split.
    - intros q Hq. by apply not_elem_of_nil in Hq.
    - destruct changed; [done|]. intros _ q Hq. by apply not_elem_of_nil in Hq. }
  cbn [reap_scan existsb] in *. destruct (is_candidate me wanted q) eqn:Ec; cbn [negb] in Hs.
  - destruct (m_has_exited q) eqn:Ex.
    { injection Hs as <- <- <-. split; [by rewrite orb_true_r|]. split; [split; [by left|done]|].
      by destruct changed. }
    specialize (IH _ _ _ _ _ Hs) as (A & B & C). split; [rewrite A; by rewrite orb_true_r|]. split.
    + destruct finished as [f|]; [destruct B as [B B']; split; [by right|done]|].
      intros r Hr Hcr. apply elem_of_cons in Hr as [->|Hr]; [done|by apply B].
    + destruct changed as [c|]; [done|]. destruct (is_changed options q) eqn:Eq.
      * rewrite C. split; [by left|done].
      * destruct changed' as [c|]; [destruct C as [C C']; split; [by right|done]|].
        intros Hf r Hr Hcr. apply elem_of_cons in Hr as [->|Hr]; [done|by apply C].
  - specialize (IH _ _ _ _ _ Hs) as (A & B & C). split; [done|]. split.
    + destruct finished as [f|]; [destruct B as [B B']; split; [by right|done]|].
      intros r Hr Hcr. apply elem_of_cons in Hr as [->|Hr]; [congruence|by apply B].
    + destruct changed as [c|]; [done|].
      destruct changed' as [c|]; [destruct C as [C C']; split; [by right|done]|].
      intros Hf r Hr Hcr. apply elem_of_cons in Hr as [->|Hr]; [congruence|by apply C].
Qed.

(** *** What signals touch

    Raising signals, stopping and continuing change only the pending set and the
    stop state of processes, never the list, the tables or the files. *)

Definition signal_only (p q : Process) : Prop :=
  q = with_stop (m_is_stopped q) (m_stop_signal q) (m_stop_pending q) (m_continue_pending q)
        (with_pending (m_pending_signals q) p).

#[export] Instance signal_only_preorder : PreOrder signal_only.
Proof.
  split; [by intros []|]. intros p q r Hq Hr. unfold signal_only in *.
  rewrite Hr, Hq at 1. done.
Qed.

Record sig_step (k k' : Kernel) : Prop := {
  ss_processes : Forall2 signal_only (s_processes k) (s_processes k');
  ss_files : files k' = files k;
  ss_next : s_next_pid k' = s_next_pid k;
  ss_poll : poll_queue k' = poll_queue k;
}.

#[export] Instance sig_step_preorder : PreOrder sig_step.
Proof.
  split.
  - intros k. split; [|done|done|done]. apply Forall_Forall2_diag, list.Forall_forall. intros. reflexivity.
  - intros k1 k2 k3 [A B C D] [A' B' C' D']. split; [|congruence|congruence|congruence].
    etransitivity; [exact A|exact A'].
Qed.

Lemma sig_step_process pid f k : (forall p, signal_only p (f p)) -> sig_step k (upd_process pid f k).
Proof.
  intros Hf. split; [|done|done|done]. cbn. induction (s_processes k) as [|p l IH]; [constructor|].
  cbn. constructor; [|done]. destruct (m_pid p =? pid); [apply Hf|reflexivity].
Qed.

Lemma sig_step_sched f k : sig_step k (upd_sched f k).
Proof. split; [|done|done|done]. apply Forall_Forall2_diag, list.Forall_forall. intros. reflexivity. Qed.

Lemma signal_only_record signal p : signal_only p (record_signal signal p).
Proof. by destruct p. Qed.

Lemma signal_only_stop a b c e p : signal_only p (with_stop a b c e p).
Proof. by destruct p. Qed.

Lemma notify_sig raise pid k : (forall q s k, sig_step k (raise q s k)) ->
  sig_step k (notify_parent raise pid k).
Proof.
  intros Hr. unfold notify_parent. destruct (by_pid pid k); [|reflexivity].
  destruct (by_pid _ k); [|reflexivity]. etransitivity; [apply Hr|apply sig_step_sched].
Qed.

Lemma resume_with_sig raise pid k : (forall q s k, sig_step k (raise q s k)) ->
  sig_step k (resume_with raise pid k).
Proof.
  intros Hr. unfold resume_with. destruct (by_pid pid k) as [p|]; [|reflexivity].
  destruct (m_is_stopped p); [|reflexivity]. cbn.
  etransitivity; [apply sig_step_process; intros; apply signal_only_stop|].
  etransitivity; [apply notify_sig, Hr|]. destruct (m_main_thread p); [apply sig_step_sched|reflexivity].
Qed.

Lemma raise_at_sig depth pid signal k : sig_step k (raise_at depth pid signal k).
Proof.
  revert pid signal k. induction depth as [|depth IH]; intros pid signal k; [reflexivity|].
  cbn [raise_at]. destruct (negb (valid_signal signal)); [reflexivity|].
  destruct (by_pid pid k) as [p|]; [|reflexivity].
  etransitivity; [apply sig_step_process; intros; apply signal_only_record|].
  destruct (_ && _); [by apply resume_with_sig|]. destruct (m_main_thread p); [|reflexivity].
  destruct (state_of _ _) as [[]|]; (reflexivity || apply sig_step_sched).
Qed.

Lemma raise_sig pid signal k : sig_step k (raise_signal pid signal k).
Proof. apply raise_at_sig. Qed.

Lemma resume_sig pid k : sig_step k (resume pid k).
Proof. apply resume_with_sig, raise_sig. Qed.

Lemma stop_record_sig pid signal k : sig_step k (stop_record pid signal k).
Proof.
  unfold stop_record. etransitivity; [apply sig_step_process; intros; apply signal_only_stop|].
  apply notify_sig, raise_sig.
Qed.

Lemma stop_sig pid signal k : sig_step k (stop pid signal k).
Proof.
  unfold stop, stop_block. etransitivity; [apply stop_record_sig|]. destruct (by_pid _ _); [|reflexivity].
  case_decide; [apply sig_step_sched|reflexivity].
Qed.

Lemma signal_group_sig pgid signal k : sig_step k (signal_group pgid signal k).
Proof.
  unfold signal_group. generalize (group_members pgid k). intros l. revert k.
  induction l as [|q l IH]; intros k; [reflexivity|]. cbn. etransitivity; [apply raise_sig|apply IH].
Qed.

Lemma broadcast_sig caller signal l k : sig_step k (snd (broadcast caller signal l k)).
Proof.
  revert k. induction l as [|q l IH]; intros k; [reflexivity|]. cbn.
  destruct (_ || _); [apply IH|]. destruct (raise_takes_lock signal q); [reflexivity|].
  etransitivity; [apply raise_sig|apply IH].
Qed.

Lemma kill_sig caller pid signal k : sig_step k (snd (sys_kill caller pid signal k)).
Proof.
  unfold sys_kill. destruct (_ || _); [reflexivity|]. destruct (_ || _).
  { destruct (negb _); [reflexivity|]. destruct (signal =? 0); [reflexivity|apply signal_group_sig]. }
  destruct (pid =? -1).
  { destruct (signal =? 0); [reflexivity|apply broadcast_sig]. }
  destruct (by_pid pid k); [|reflexivity]. destruct (signal =? 0); [reflexivity|apply raise_sig].
Qed.

(** What [create] puts at the end of the list. *)
Lemma create_shape a root parent k : exists p,
  create (Some a) root parent k
  = (Ok (s_next_pid k),
     mkKernel (s_processes k ++ [p]) (i32 (s_next_pid k + 1))
       (opt_ref (m_working_directory p) (opt_ref (m_controlling_terminal p) (files k)))
       (sched k) (poll_queue k))
  /\ m_pid p = s_next_pid k
  /\ m_descriptors p = replicate (Z.to_nat MAX_FILE_DESCRIPTORS) no_entry
  /\ m_pending_signals p = 0 /\ m_has_exited p = false /\ m_is_stopped p = false
  /\ m_main_thread p = None /\ m_signal_handlers p = replicate (Z.to_nat NSIG) 0
  /\ match parent with
     | Some q => m_parent_pid p = m_pid q /\ m_pgid p = m_pgid q /\ m_sid p = m_sid q
         /\ m_working_directory p = m_working_directory q
         /\ m_controlling_terminal p = m_controlling_terminal q
         /\ m_signal_mask p = m_signal_mask q /\ m_umask p = m_umask q
     | None => m_parent_pid p = 0 /\ m_pgid p = m_pid p /\ m_sid p = m_pid p
         /\ m_working_directory p = root /\ m_controlling_terminal p = None
         /\ m_signal_mask p = 0 /\ m_umask p = INITIAL_UMASK
     end.
Proof.
  unfold create. destruct parent as [q|].
  - exists (with_cwd (m_working_directory q) (with_umask (m_umask q) (with_mask (m_signal_mask q)
      (with_terminal (m_controlling_terminal q) (with_sid (m_sid q) (with_pgid (m_pgid q)
        (with_parent (m_pid q) (process_new a (s_next_pid k))))))))). done.
  - exists (with_cwd root (with_sid (s_next_pid k) (with_pgid (s_next_pid k)
      (with_parent 0 (process_new a (s_next_pid k)))))). done.
Qed.

(** ** The system

    Any sequence of the calls above, by any processes, with the scheduler doing
    whatever it does in between. *)

Inductive KOp :=
| OInit (memory : option Z) (root : Z)
| OOpen (me : Z) (memory : option Z) (inode flags : Z)
| OClose (me fd : Z)
| ODup (me fd to : Z)
| OPipe (me : Z) (memory : option (Z * Z * Z)) (copied : bool)
| OFcntl (me fd command argument : Z)
| OChdir (me inode : Z)
| OTerminal (me inode : Z)
| OExec (me brk_start : Z)
| OUmask (me mask : Z)
| OMask (me how wanted : Z)
| OAction (me signal handler restorer flags : Z)
| OTake (me : Z)
| OFork (me : Z) (memory : option Z) (clone : Res unit) (thread : Res Z)
| OExit (pid status : Z)
| OWait (me wanted options : Z) (blocking : bool)
| OWaitResume (me wanted options : Z)
| OKill (caller pid signal : Z)
| OStop (pid signal : Z)
| OResume (pid : Z)
| OSetpgid (caller pid pgid : Z)
| OSetsid (me : Z)
| OSchedule (s : Sched).

Definition op_run (o : KOp) (k : Kernel) : Kernel :=
  match o with
  | OInit memory root => snd (create memory (Some root) None k)
  | OOpen me memory inode flags => snd (call_on me (sys_open memory inode flags) k)
  | OClose me fd => snd (call_on me (sys_close fd) k)
  | ODup me fd to => snd (call_on me (duplicate_descriptor fd to) k)
  | OPipe me memory copied => snd (call_on me (sys_pipe memory copied) k)
  | OFcntl me fd command argument => snd (call_on me (sys_fcntl fd command argument) k)
  | OChdir me inode => run_on me (sys_chdir inode) k
  | OTerminal me inode => run_on me (set_controlling_terminal (Some inode)) k
  | OExec me brk_start => run_on me (exec_commit brk_start) k
  | OUmask me mask => upd_process me (fun p => snd (set_umask mask p)) k
  | OMask me how wanted => upd_process me (fun p => snd (set_signal_mask how wanted p)) k
  | OAction me signal handler restorer flags =>
      upd_process me (set_signal_action signal handler restorer flags) k
  | OTake me => upd_process me (fun p => snd (take_pending_signal p)) k
  | OFork me memory clone thread => snd (sys_fork me memory clone thread k)
  | OExit pid status => do_exit pid status k
  | OWait me wanted options blocking => fst (reap_child me wanted options blocking k)
  | OWaitResume me wanted options => fst (reap_resume me wanted options k)
  | OKill caller pid signal => snd (sys_kill caller pid signal k)
  | OStop pid signal => stop pid signal k
  | OResume pid => resume pid k
  | OSetpgid caller pid pgid => snd (set_process_group caller pid pgid k)
  | OSetsid me => snd (start_session me k)
  | OSchedule s => upd_sched (fun _ => s) k
  end.

(** What the rest of the kernel guarantees: memory that is handed out is not in
    use, an inode found by name or through a descriptor is alive, and there is
    room for another process. *)
Definition more_processes (k : Kernel) : Prop :=
  zlen (s_processes k) < 2 ^ 23 /\ s_next_pid k < 2 ^ 31 - 1.

Definition op_ok (o : KOp) (k : Kernel) : Prop :=
  match o with
  | OInit _ root => is_Some (inode_refs (files k) !! root) /\ more_processes k
  | OOpen _ memory inode _ =>
      is_Some (inode_refs (files k) !! inode)
      /\ forall d, memory = Some d -> descriptions (files k) !! d = None
  | OPipe _ memory _ =>
      forall pipe r w, memory = Some (pipe, r, w) ->
        inode_refs (files k) !! pipe = None /\ descriptions (files k) !! r = None
        /\ descriptions (files k) !! w = None /\ r <> w
  | OChdir _ inode | OTerminal _ inode => is_Some (inode_refs (files k) !! inode)
  | OFork _ _ _ _ => more_processes k
  | _ => True
  end.

Inductive kernel_run : list KOp -> Kernel -> Kernel -> Prop :=
| kernel_run_nil k : kernel_run [] k k
| kernel_run_cons o ops k k' :
    op_ok o k -> kernel_run ops (op_run o k) k' -> kernel_run (o :: ops) k k'.

(** The kernel before the first user process. *)
Definition boot_kernel (a : Z) (inodes : gmap Z Z) (s : Sched) (poll : Z) : Kernel :=
  process_initialize a (mkKernel [] 1 (mkFiles ∅ inodes []) s poll).
