(* ===== verification/Descriptors.v ===== *)
(** * Descriptor tables and the files behind them

    The accounting of [Files.v] carried through every operation of [Process.v]:
    how many descriptors name a description, how many descriptions, working
    directories and controlling terminals hold an inode. *)

From S2P Require Import Prelude Pipe Files Scheduler Process.

Implicit Types (p : Process) (fs : Files) (d fd : Z).

(** The references a process holds. *)
Definition table_descs (p : Process) : list Z := omap description (m_descriptors p).
Definition proc_inodes (p : Process) : list Z :=
  option_list (m_working_directory p) ++ option_list (m_controlling_terminal p).

Definition table_ok (p : Process) : Prop := zlen (m_descriptors p) = MAX_FILE_DESCRIPTORS.

(** ** One table *)

Lemma zset_middle {A} (l : list A) i x y : l !! i = Some y ->
  <[i := x]> l = take i l ++ x :: drop (S i) l.
Proof. intros Hy. apply insert_take_drop, lookup_lt_is_Some. by eexists. Qed.

Lemma entry_lookup fd p : table_ok p -> 0 <= fd < MAX_FILE_DESCRIPTORS ->
  m_descriptors p !! Z.to_nat fd = Some (entry fd p).
Proof. intros Hl Hfd. apply zget_lookup. by rewrite Hl. Qed.

Lemma table_ok_set fd e p : table_ok p -> table_ok (set_entry fd e p).
Proof. intros H. unfold table_ok, set_entry; cbn. by rewrite zlen_zset. Qed.

(** Replacing an entry trades what it held for what the new one holds. *)
Lemma table_descs_set fd e p : table_ok p -> 0 <= fd < MAX_FILE_DESCRIPTORS ->
  exists rest, table_descs p ≡ₚ option_list (description (entry fd p)) ++ rest
  /\ table_descs (set_entry fd e p) ≡ₚ option_list (description e) ++ rest.
Proof.
  intros Hl Hfd. pose proof (entry_lookup fd p Hl Hfd) as He.
  exists (omap description (take (Z.to_nat fd) (m_descriptors p))
          ++ omap description (drop (S (Z.to_nat fd)) (m_descriptors p))).
  unfold table_descs, set_entry, zset; cbn. rewrite (zset_middle _ _ e _ He).
  rewrite <- (take_drop_middle _ _ _ He) at 1. rewrite !omap_app. cbn.
  split; [destruct (description (entry fd p))|destruct (description e)]; cbn; solve_Permutation.
Qed.

Lemma table_install fd d b p : table_ok p -> 0 <= fd < MAX_FILE_DESCRIPTORS ->
  description (entry fd p) = None ->
  table_descs (set_entry fd (mkEntry (Some d) b) p) ≡ₚ d :: table_descs p.
Proof.
  intros Hl Hfd He. destruct (table_descs_set fd (mkEntry (Some d) b) p Hl Hfd) as (rest & H1 & H2).
  rewrite He in H1. by rewrite H1, H2.
Qed.

Lemma table_clear fd d p : table_ok p -> 0 <= fd < MAX_FILE_DESCRIPTORS ->
  description (entry fd p) = Some d ->
  table_descs p ≡ₚ d :: table_descs (set_entry fd no_entry p).
Proof.
  intros Hl Hfd He. destruct (table_descs_set fd no_entry p Hl Hfd) as (rest & H1 & H2).
  rewrite He in H1. by rewrite H1, H2.
Qed.

Lemma table_mark fd b p : table_ok p -> 0 <= fd < MAX_FILE_DESCRIPTORS ->
  table_descs (set_entry fd (mkEntry (description (entry fd p)) b) p) ≡ₚ table_descs p.
Proof.
  intros Hl Hfd. destruct (table_descs_set fd (mkEntry (description (entry fd p)) b) p Hl Hfd)
    as (rest & H1 & H2). by rewrite H1, H2.
Qed.

Lemma entry_in_table fd d p : table_ok p -> 0 <= fd < MAX_FILE_DESCRIPTORS ->
  description (entry fd p) = Some d -> d ∈ table_descs p.
Proof. intros Hl Hfd He. rewrite (table_clear fd d p Hl Hfd He). by left. Qed.

Lemma length_table p : table_ok p -> zlen (table_descs p) <= MAX_FILE_DESCRIPTORS.
Proof.
  unfold table_ok, table_descs, zlen. intros <-. apply inj_le.
  induction (m_descriptors p) as [|e l IH]; cbn; [lia|]. destruct (description e); cbn; lia.
Qed.

Lemma entry_set_eq fd e p : table_ok p -> 0 <= fd < MAX_FILE_DESCRIPTORS ->
  entry fd (set_entry fd e p) = e.
Proof. intros Hl Hfd. unfold entry, set_entry; cbn. apply zget_zset_eq. by rewrite Hl. Qed.

Lemma entry_set_ne fd fd' e p : 0 <= fd -> 0 <= fd' -> fd <> fd' ->
  entry fd' (set_entry fd e p) = entry fd' p.
Proof. intros. unfold entry, set_entry; cbn. by apply zget_zset_ne. Qed.

(** ** The search for a free descriptor *)

Lemma alloc_loop_spec fuel lowest d p : 0 <= lowest -> lowest + Z.of_nat fuel <= MAX_FILE_DESCRIPTORS ->
  match alloc_loop fuel lowest d p with
  | Some (fd, p') =>
      lowest <= fd < lowest + Z.of_nat fuel /\ description (entry fd p) = None
      /\ p' = set_entry fd (mkEntry (Some d) false) p
      /\ forall j, lowest <= j < fd -> is_Some (description (entry j p))
  | None => forall j, lowest <= j < lowest + Z.of_nat fuel -> is_Some (description (entry j p))
  end.
Proof.
  revert lowest. induction fuel as [|fuel IH]; intros lowest H0 H1; cbn [alloc_loop]; [lia|].
  destruct (description (entry lowest p)) eqn:E.
  - specialize (IH (lowest + 1) ltac:(lia) ltac:(lia)).
    destruct (alloc_loop fuel (lowest + 1) d p) as [[fd p']|].
    + destruct IH as (A & B & C & D). split_and!; [lia|lia|done|done|].
      intros j Hj. destruct (decide (j = lowest)) as [->|]; [by rewrite E|apply D; lia].
    + intros j Hj. destruct (decide (j = lowest)) as [->|]; [by rewrite E|apply IH; lia].
  - split_and!; [lia|lia|done|done|lia].
Qed.

Lemma allocate_cases d lowest s :
  match allocate_descriptor d lowest s with
  | (Ok fd, s') => 0 <= lowest <= fd /\ fd < MAX_FILE_DESCRIPTORS
      /\ description (entry fd s.1) = None
      /\ s' = (set_entry fd (mkEntry (Some d) false) s.1, s.2)
      /\ forall j, lowest <= j < fd -> is_Some (description (entry j s.1))
  | (Err e, s') => s' = s /\ (e = EINVAL /\ lowest < 0 \/ e = EMFILE /\ 0 <= lowest
      /\ forall j, lowest <= j < MAX_FILE_DESCRIPTORS -> is_Some (description (entry j s.1)))
  | (Panic, _) => False
  end.
Proof.
  unfold allocate_descriptor. destruct (Z.ltb_spec lowest 0); [split; [done|by left]|].
  destruct (Z.leb_spec MAX_FILE_DESCRIPTORS lowest).
  - replace (Z.to_nat (MAX_FILE_DESCRIPTORS - lowest)) with O by lia. cbn [alloc_loop].
    split; [done|]. right. split_and!; [done|lia|]. intros; lia.
  - pose proof (alloc_loop_spec (Z.to_nat (MAX_FILE_DESCRIPTORS - lowest)) lowest d s.1
      ltac:(lia) ltac:(lia)) as Hs.
    destruct (alloc_loop _ lowest d s.1) as [[fd p']|].
    + destruct Hs as (A & B & -> & D). split_and!; [lia|lia|lia|done|done|done].
    + split; [done|]. right. split_and!; [done|lia|]. intros j Hj. apply Hs. lia.
Qed.

Lemma description_for_cases fd s :
  match description_for fd s with
  | (Ok d, s') => s' = s /\ 0 <= fd < MAX_FILE_DESCRIPTORS /\ description (entry fd s.1) = Some d
  | (Err e, s') => s' = s /\ e = EBADF
      /\ (0 <= fd < MAX_FILE_DESCRIPTORS -> description (entry fd s.1) = None)
  | (Panic, _) => False
  end.
Proof.
  unfold description_for. rewrite Z.geb_leb.
  destruct (Z.ltb_spec fd 0), (Z.leb_spec MAX_FILE_DESCRIPTORS fd); cbn;
    try (split_and!; [done|done|lia]).
  destruct (description (entry fd s.1)) eqn:E; split_and!; done.
Qed.

(** ** A process among others

    [H] and [I] are the references held by everything else. *)

Definition pf_inv (links : Z -> Z) (H I : list Z) (s : PF) : Prop :=
  table_ok s.1 /\ files_inv links (table_descs s.1 ++ H) (proc_inodes s.1 ++ I) s.2.

(** Nothing but the descriptor table differs. *)
Definition only_table (p p' : Process) : Prop := p' = with_descriptors (m_descriptors p') p.

Lemma only_table_refl p : only_table p p.
Proof. by destruct p. Qed.

Lemma only_table_trans p1 p2 p3 : only_table p1 p2 -> only_table p2 p3 -> only_table p1 p3.
Proof. unfold only_table. intros H1 H2. rewrite H2, H1 at 1. done. Qed.

Lemma only_table_set fd e p : only_table p (set_entry fd e p).
Proof. done. Qed.

Lemma only_table_inodes p p' : only_table p p' -> proc_inodes p' = proc_inodes p.
Proof. intros ->. done. Qed.

Lemma option_list_le (o : option Z) : zlen (option_list o) <= 1.
Proof. by destruct o. Qed.

Lemma proc_inodes_le p : zlen (proc_inodes p) <= 2.
Proof.
  unfold proc_inodes, zlen. rewrite length_app.
  destruct (m_working_directory p), (m_controlling_terminal p); cbn; lia.
Qed.

Section one_process.
Context (links : Z -> Z) (H I : list Z).
Context (Hlinks : links_ok links).

Definition room : Prop := zlen H + 80 < LIMIT /\ zlen I + 8 < LIMIT.
Context (Hroom : room).

Lemma room_descs p extra : table_ok p -> zlen extra <= 8 ->
  zlen (extra ++ table_descs p ++ H) < LIMIT.
Proof.
  intros Hl He. pose proof (length_table p Hl). destruct Hroom as [H1 _]. unfold zlen in *.
  rewrite !length_app. unfold MAX_FILE_DESCRIPTORS in *. lia.
Qed.

Lemma room_inodes p extra : zlen extra <= 4 -> zlen (extra ++ proc_inodes p ++ I) + 1 < LIMIT.
Proof.
  intros He. pose proof (proc_inodes_le p). destruct Hroom as [_ H2]. unfold zlen in *.
  rewrite !length_app. lia.
Qed.

Lemma room_table p : table_ok p -> zlen (table_descs p ++ H) < LIMIT.
Proof. intros Hl. by apply (room_descs p []). Qed.

Lemma room_held p : zlen (proc_inodes p ++ I) < LIMIT.
Proof. pose proof (room_inodes p [] ltac:(done)). cbn in *. lia. Qed.

(** Steps that keep the accounts and only touch the table. *)
Definition keeps (s s' : PF) : Prop := pf_inv links H I s' /\ only_table s.1 s'.1.

Lemma keeps_refl s : pf_inv links H I s -> keeps s s.
Proof. intros Hs. split; [done|apply only_table_refl]. Qed.

Lemma keeps_trans s1 s2 s3 : keeps s1 s2 -> keeps s2 s3 -> keeps s1 s3.
Proof. intros [_ H1] [H2 H3]. split; [done|by eapply only_table_trans]. Qed.

(** A reference held by the caller goes into the table. *)
Lemma install_inv fd d b p fs : table_ok p -> 0 <= fd < MAX_FILE_DESCRIPTORS ->
  description (entry fd p) = None ->
  files_inv links (d :: table_descs p ++ H) (proc_inodes p ++ I) fs ->
  pf_inv links H I (set_entry fd (mkEntry (Some d) b) p, fs).
Proof.
  intros Hl Hfd He Hinv. split; [by apply table_ok_set|]. cbn [fst snd].
  eapply files_inv_perm; [|reflexivity|exact Hinv]. rewrite (table_install fd d b p Hl Hfd He). done.
Qed.

Lemma ref_inv d p fs : pf_inv links H I (p, fs) -> d ∈ table_descs p ->
  files_inv links (d :: table_descs p ++ H) (proc_inodes p ++ I) (description_ref d fs).
Proof.
  intros [Hl Hinv] Hd. apply description_ref_inv; [done|by apply (room_descs p [])|].
  apply elem_of_app. by left.
Qed.

(** A reference held by the caller is given up. *)
Lemma release_inv d p fs : table_ok p ->
  files_inv links (d :: table_descs p ++ H) (proc_inodes p ++ I) fs ->
  pf_inv links H I (p, release_description d fs).
Proof.
  intros Hl Hinv. split; [done|]. cbn [fst snd].
  apply release_description_inv; [done|done|by apply (room_descs p [d])|by apply (room_inodes p [])].
Qed.

Lemma close_cases fd s : pf_inv links H I s ->
  match close_descriptor fd s with
  | (Ok _, s') => exists d, 0 <= fd < MAX_FILE_DESCRIPTORS /\ description (entry fd s.1) = Some d
      /\ s' = (set_entry fd no_entry s.1, release_description d s.2) /\ keeps s s'
  | (Err e, s') => s' = s /\ e = EBADF
      /\ (0 <= fd < MAX_FILE_DESCRIPTORS -> description (entry fd s.1) = None)
  | (Panic, _) => False
  end.
Proof.
  intros [Hl Hinv]. unfold close_descriptor, mtry.
  pose proof (description_for_cases fd s) as Hc.
  destruct (description_for fd s) as [[d|e|] s'].
  - destruct Hc as (-> & Hfd & He). cbn. exists d. split_and!; [lia|lia|done|done|].
    split; [|done]. apply release_inv; [by apply table_ok_set|].
    change (proc_inodes (set_entry fd no_entry s.1)) with (proc_inodes s.1).
    eapply files_inv_perm; [|reflexivity|exact Hinv]. by rewrite (table_clear fd d s.1 Hl Hfd He).
  - destruct Hc as (-> & -> & He). done.
  - done.
Qed.

Lemma close_keeps fd s : pf_inv links H I s -> keeps s (snd (close_descriptor fd s)).
Proof.
  intros Hs. pose proof (close_cases fd s Hs) as Hc.
  destruct (close_descriptor fd s) as [[?|e|] s']; [|destruct Hc as [-> _]; by apply keeps_refl|done].
  by destruct Hc as (d & _ & _ & _ & ?).
Qed.

Lemma mark_keeps fd b s : pf_inv links H I s ->
  keeps s (snd (set_descriptor_close_on_exec fd b s)).
Proof.
  intros Hs. unfold set_descriptor_close_on_exec, mtry.
  pose proof (description_for_cases fd s) as Hc.
  destruct (description_for fd s) as [[d|e|] s']; [|destruct Hc as [-> _]; by apply keeps_refl|done].
  destruct Hc as (-> & Hfd & He), Hs as [Hl Hinv]. cbn. split; [|done]. split; [by apply table_ok_set|].
  eapply files_inv_perm; [|reflexivity|exact Hinv]. cbn. by rewrite (table_mark fd b s.1 Hl Hfd).
Qed.

(** [dup], and [fcntl(F_DUPFD)] before the flag: the new entry is written first
    and the count raised after. *)
Lemma dup_into fd d b p fs : pf_inv links H I (p, fs) -> 0 <= fd < MAX_FILE_DESCRIPTORS ->
  description (entry fd p) = None -> d ∈ table_descs p ->
  keeps (p, fs) (set_entry fd (mkEntry (Some d) b) p, description_ref d fs).
Proof.
  intros Hs Hfd He Hd. split; [|done]. apply install_inv; [apply Hs|done|done|by apply ref_inv].
Qed.

Lemma dup_keeps fd to s : pf_inv links H I s -> keeps s (snd (duplicate_descriptor fd to s)).
Proof.
  intros Hs. unfold duplicate_descriptor, mtry. pose proof (description_for_cases fd s) as Hc.
  destruct (description_for fd s) as [[d|e|] s']; [|destruct Hc as [-> _]; by apply keeps_refl|done].
  destruct Hc as (-> & Hfd & He). destruct s as [p fs].
  pose proof (entry_in_table fd d p (proj1 Hs) Hfd He) as Hin.
  destruct (Z.ltb_spec to 0).
  { pose proof (allocate_cases d 0 (p, fs)) as Ha.
    destruct (allocate_descriptor d 0 (p, fs)) as [[fd'|e|] s'];
      [|destruct Ha as [-> _]; by apply keeps_refl|done].
    destruct Ha as (A & B & C & -> & _). cbn. apply dup_into; [done|lia|done|done]. }
  rewrite Z.geb_leb. destruct (Z.leb_spec MAX_FILE_DESCRIPTORS to); [by apply keeps_refl|].
  destruct (Z.eqb_spec to fd); [by apply keeps_refl|]. unfold on_process. cbn [fst snd].
  destruct (description (entry to p)) as [old|] eqn:Eo; cbn.
  - unfold mcatch, mtry. pose proof (close_cases to (p, fs) Hs) as Hc.
    destruct (close_descriptor to (p, fs)) as [[[]|e|] s'] eqn:Ec.
    + destruct Hc as (d' & Hto & Ed & -> & Hk). cbn. destruct Hk as [Hk _].
      split; [|done]. refine (proj1 (dup_into to d false _ _ Hk _ _ _)).
      * done.
      * rewrite entry_set_eq; [done|apply Hs|done].
      * apply (entry_in_table fd); [apply table_ok_set, Hs|done|].
        rewrite entry_set_ne by lia. done.
    + destruct Hc as (-> & _ & Hn). cbn in Hn. rewrite Hn in Eo by lia. done.
    + done.
  - apply (dup_into to d false p fs); [done|lia|done|done].
Qed.

Lemma close_if_keeps test fd s : pf_inv links H I s -> keeps s (close_if test fd s).
Proof.
  intros Hs. unfold close_if. destruct (test _); [by apply close_keeps|by apply keeps_refl].
Qed.

Lemma for_up_keeps f n i s : (forall fd s, pf_inv links H I s -> keeps s (f fd s)) ->
  pf_inv links H I s -> keeps s (for_up n i f s).
Proof.
  intros Hf Hs. apply (for_up_ind (fun _ s' => keeps s s')); [by apply keeps_refl|].
  intros j s' _ Hk. eapply keeps_trans; [exact Hk|]. apply Hf, Hk.
Qed.

Lemma close_all_keeps s : pf_inv links H I s -> keeps s (close_all_descriptors s).
Proof. intros Hs. apply for_up_keeps; [|done]. intros. by apply close_if_keeps. Qed.

Lemma open_keeps memory inode flags s : pf_inv links H I s ->
  (forall d, memory = Some d -> descriptions s.2 !! d = None) ->
  is_Some (inode_refs s.2 !! inode) -> keeps s (snd (sys_open memory inode flags s)).
Proof.
  intros Hs Hd Hi. destruct s as [p fs]. unfold sys_open, open_tail.
  destruct memory as [d|]; [|by apply keeps_refl]. specialize (Hd d eq_refl). cbn in Hd, Hi.
  assert (Hnew : files_inv links (d :: table_descs p ++ H) (proc_inodes p ++ I)
                   (description_new d inode flags fs)).
  { apply description_new_inv; [done|apply Hs|apply room_table, Hs|apply room_held|done|done]. }
  unfold mtry at 1. cbn. unfold mcatch at 1, mtry at 1.
  pose proof (allocate_cases d 0 (p, description_new d inode flags fs)) as Ha.
  destruct (allocate_descriptor d 0 _) as [[fd|e|] s'].
  - destruct Ha as (A & B & C & -> & _). cbn [fst snd] in *.
    pose proof (install_inv fd d false p _ (proj1 Hs) ltac:(lia) C Hnew) as Hin.
    destruct (has flags O_CLOEXEC); cbn; [|by split].
    pose proof (mark_keeps fd true _ Hin) as Hm. unfold mcatch, mtry.
    destruct (set_descriptor_close_on_exec fd true _) as [[?|e|] s']; destruct Hm as [Hm1 Hm2];
      (split; [done|]); (eapply only_table_trans; [apply only_table_set|exact Hm2]).
  - destruct Ha as [-> _]. cbn. split; [|apply only_table_refl]. by apply release_inv; [apply Hs|].
  - done.
Qed.

Lemma setfl_access flags argument :
  Z.land (Z.lor (Z.land flags (Z.lnot O_SETFL_MASK)) (Z.land argument O_SETFL_MASK)) O_ACCMODE
  = Z.land flags O_ACCMODE.
Proof.
  rewrite Z.land_lor_distr_l, <- !Z.land_assoc. change (Z.land O_SETFL_MASK O_ACCMODE) with 0.
  change (Z.land (Z.lnot O_SETFL_MASK) O_ACCMODE) with O_ACCMODE. by rewrite Z.land_0_r, Z.lor_0_r.
Qed.

Lemma fcntl_keeps fd command argument s : pf_inv links H I s ->
  keeps s (snd (sys_fcntl fd command argument s)).
Proof.
  intros Hs. unfold sys_fcntl, mtry at 1. pose proof (description_for_cases fd s) as Hc.
  destruct (description_for fd s) as [[d|e|] s']; [|destruct Hc as [-> _]; by apply keeps_refl|done].
  destruct Hc as (-> & Hfd & He).
  pose proof (entry_in_table fd d s.1 (proj1 Hs) Hfd He) as Hin. destruct s as [p fs].
  destruct ((command =? F_DUPFD) || (command =? F_DUPFD_CLOEXEC)).
  { destruct (i32 argument <? 0); [by apply keeps_refl|]. unfold mtry at 1.
    pose proof (allocate_cases d (i32 argument) (p, fs)) as Ha.
    destruct (allocate_descriptor d (i32 argument) (p, fs)) as [[fd'|e|] s'];
      [|destruct Ha as [-> _]; by apply keeps_refl|done].
    destruct Ha as (A & B & C & -> & _). unfold mtry at 1; cbn [fst snd mod_files].
    pose proof (dup_into fd' d false p fs Hs ltac:(lia) C Hin) as Hk.
    pose proof (mark_keeps fd' (command =? F_DUPFD_CLOEXEC) _ (proj1 Hk)) as Hm. unfold mtry.
    destruct (set_descriptor_close_on_exec fd' _ _) as [[?|?|] s'];
      (eapply keeps_trans; [exact Hk|exact Hm]). }
  destruct (command =? F_GETFD).
  { unfold descriptor_close_on_exec, mtry. pose proof (description_for_cases fd (p, fs)) as Hd.
    destruct (description_for fd (p, fs)) as [[?|e|] s']; [| |done]; destruct Hd as [-> _]; by apply keeps_refl. }
  destruct (command =? F_SETFD).
  { pose proof (mark_keeps fd (has argument FD_CLOEXEC) _ Hs) as Hm. unfold mtry.
    by destruct (set_descriptor_close_on_exec fd _ _) as [[?|?|] s']. }
  destruct (command =? F_GETFL); [by apply keeps_refl|].
  destruct (command =? F_SETFL); [|by apply keeps_refl].
  unfold mtry; cbn. split; [|apply only_table_refl]. split; [apply Hs|]. cbn.
  destruct (proj1 (desc_live _ _ _ _ (proj1 (proj2 Hs)) d)) as [x Hx]; [apply elem_of_app; by left|].
  cbn in Hx. rewrite (upd_alter _ d x) by done.
  apply set_flags_inv; [apply Hs|done|]. apply setfl_access.
Qed.

(** Replacing a directory a process holds: the new one is referenced first. *)
Lemma swap_inv old new rest fs Hs : links_ok links -> zlen Hs < LIMIT -> zlen rest + 2 < LIMIT ->
  files_inv links Hs (option_list old ++ rest) fs ->
  (forall i, new = Some i -> is_Some (inode_refs fs !! i)) ->
  files_inv links Hs (option_list new ++ rest) (opt_unref old (opt_ref new fs)).
Proof.
  intros _ HH HI Hinv Hnew.
  assert (Href : files_inv links Hs (option_list new ++ option_list old ++ rest) (opt_ref new fs)).
  { destruct new as [i|]; [|done]. apply inode_ref_inv; [done|done|done| |by apply Hnew].
    pose proof (option_list_le old). unfold zlen in *. rewrite length_app. lia. }
  destruct old as [o|]; [|done]. cbn [opt_unref]. apply inode_unref_inv; [done| |done|].
  - eapply files_inv_perm; [reflexivity| |exact Href]. cbn. destruct new; cbn; solve_Permutation.
  - pose proof (option_list_le new). unfold zlen in *. cbn [length]. rewrite length_app. lia.
Qed.

Lemma cwd_inv inode s : pf_inv links H I s ->
  (forall i, inode = Some i -> is_Some (inode_refs s.2 !! i)) ->
  pf_inv links H I (set_working_directory inode s).
Proof.
  intros [Hl Hinv] Hi. destruct s as [p fs]. split; [done|]. cbn in *.
  eapply files_inv_perm; [reflexivity| |apply (swap_inv (m_working_directory p) inode
    (option_list (m_controlling_terminal p) ++ I)); [done|by apply room_table| | |done]].
  - unfold proc_inodes; cbn. by rewrite app_assoc.
  - destruct Hroom as [_ Hr]. pose proof (option_list_le (m_controlling_terminal p)).
    unfold zlen in *. rewrite length_app. lia.
  - eapply files_inv_perm; [reflexivity| |exact Hinv]. unfold proc_inodes. by rewrite app_assoc.
Qed.

Lemma terminal_inv inode s : pf_inv links H I s ->
  (forall i, inode = Some i -> is_Some (inode_refs s.2 !! i)) ->
  pf_inv links H I (set_controlling_terminal inode s).
Proof.
  intros [Hl Hinv] Hi. destruct s as [p fs]. split; [done|]. cbn in *.
  eapply files_inv_perm; [reflexivity| |apply (swap_inv (m_controlling_terminal p) inode
    (option_list (m_working_directory p) ++ I)); [done|by apply room_table| | |done]].
  - unfold proc_inodes; cbn. solve_Permutation.
  - destruct Hroom as [_ Hr]. pose proof (option_list_le (m_working_directory p)).
    unfold zlen in *. rewrite length_app. lia.
  - eapply files_inv_perm; [reflexivity| |exact Hinv]. unfold proc_inodes. solve_Permutation.
Qed.

(** [fork] shares every open description with the child and copies the flag. *)
Definition inherited (e : FileDescriptorEntry) : FileDescriptorEntry :=
  if is_open e then e else no_entry.

Lemma fork_step parent fd s : table_ok parent -> (forall d, d ∈ table_descs parent -> d ∈ H) ->
  0 <= fd < MAX_FILE_DESCRIPTORS -> pf_inv links H I s -> entry fd s.1 = no_entry ->
  keeps s (fork_descriptor parent fd s)
  /\ (fork_descriptor parent fd s).1 = set_entry fd (inherited (entry fd parent)) s.1
     \/ fork_descriptor parent fd s = s /\ inherited (entry fd parent) = no_entry.
Proof.
  intros Hpl Hp Hfd Hs He. unfold fork_descriptor. pose proof (description_for_cases fd (parent, s.2)) as Hc.
  destruct (description_for fd (parent, s.2)) as [[d|e|] s0]; [| |done]; cbn [fst].
  2: { right. destruct Hc as (_ & _ & Hn). cbn in Hn. split; [done|].
       unfold inherited, is_open. by rewrite Hn by lia. }
  left. destruct Hc as (_ & _ & Hd), s as [p fs]. cbn in Hd, He.
  assert (Hinh : inherited (entry fd parent) = mkEntry (Some d) (close_on_exec (entry fd parent))).
  { unfold inherited, is_open. destruct (entry fd parent); cbn in *. by rewrite Hd. }
  assert (Hin : d ∈ H) by (by apply Hp, (entry_in_table fd)).
  pose proof (allocate_cases d fd (p, description_ref d fs)) as Ha. cbn [mod_files snd fst].
  destruct (allocate_descriptor d fd (p, description_ref d fs)) as [[fd'|e|] s'].
  2: { exfalso. destruct Ha as (_ & [[_ ?]|(_ & _ & Hall)]); [lia|].
       destruct (Hall fd ltac:(lia)) as [? Hx]. cbn in Hx. by rewrite He in Hx. }
  2: done.
  destruct Ha as (A & B & C & -> & D). cbn in C, D.
  assert (fd' = fd) as ->.
  { destruct (decide (fd' = fd)); [done|]. destruct (D fd ltac:(lia)) as [? Hx]. by rewrite He in Hx. }
  assert (Hk : keeps (p, fs) (set_entry fd (mkEntry (Some d) false) p, description_ref d fs)).
  { split; [|done]. apply install_inv; [apply Hs|done|done|].
    apply description_ref_inv; [apply Hs|apply room_table, Hs|apply elem_of_app; by right]. }
  cbn [snd fst].
  pose proof (mark_keeps fd (close_on_exec (entry fd parent)) _ (proj1 Hk)) as Hm.
  split; [eapply keeps_trans; [exact Hk|exact Hm]|].
  unfold set_descriptor_close_on_exec, mtry.
  pose proof (description_for_cases fd (set_entry fd (mkEntry (Some d) false) p, description_ref d fs)) as Hf.
  destruct (description_for fd _) as [[d'|e|] s']; [| |done]; destruct Hf as (-> & Hx & Hy).
  - cbn. rewrite Hinh. rewrite entry_set_eq by (apply Hs || done). cbn. unfold set_entry; cbn.
    unfold zset. by rewrite list_insert_insert_eq.
  - cbn in Hy. rewrite entry_set_eq in Hy by (apply Hs || done). by specialize (Hy Hfd).
Qed.

Lemma fork_table parent s : table_ok parent -> (forall d, d ∈ table_descs parent -> d ∈ H) ->
  pf_inv links H I s -> (forall j, 0 <= j < MAX_FILE_DESCRIPTORS -> entry j s.1 = no_entry) ->
  let s' := for_up (Z.to_nat MAX_FILE_DESCRIPTORS) 0 (fork_descriptor parent) s in
  keeps s s' /\ forall j, 0 <= j < MAX_FILE_DESCRIPTORS -> entry j s'.1 = inherited (entry j parent).
Proof.
  intros Hpl Hp Hs He s'.
  pose proof (for_up_ind (fun fd x => keeps s x /\ (forall j, 0 <= j < fd -> entry j x.1 = inherited (entry j parent))
    /\ (forall j, fd <= j < MAX_FILE_DESCRIPTORS -> entry j x.1 = no_entry))
    (fork_descriptor parent) (Z.to_nat MAX_FILE_DESCRIPTORS) 0 s) as Hi.
  destruct Hi as (A & B & _); [| |split; [exact A|intros j Hj; apply B; lia]].
  - split_and!; [by apply keeps_refl|lia|done].
  - intros fd x Hfd (A & B & C). assert (0 <= fd < MAX_FILE_DESCRIPTORS) as Hr by lia.
    destruct (fork_step parent fd x Hpl Hp Hr (proj1 A) (C fd ltac:(lia))) as [[Hk Heq]|[-> Hno]].
    + split_and!; [by eapply keeps_trans| |]; intros j Hj; rewrite Heq.
      * destruct (decide (j = fd)) as [->|]; [apply entry_set_eq; [apply A|done]|].
        rewrite entry_set_ne by lia. apply B. lia.
      * rewrite entry_set_ne by lia. apply C. lia.
    + split_and!; [done| |intros; apply C; lia]. intros j Hj.
      destruct (decide (j = fd)) as [->|]; [rewrite Hno; apply C; lia|apply B; lia].
Qed.

(** [exec] closes the marked descriptors and keeps the rest. *)
Lemma close_if_entry test fd j s : pf_inv links H I s -> 0 <= fd < MAX_FILE_DESCRIPTORS ->
  0 <= j < MAX_FILE_DESCRIPTORS -> (forall e, test e = true -> is_open e = true) ->
  entry j (close_if test fd s).1
  = if decide (j = fd) then if test (entry j s.1) then no_entry else entry j s.1 else entry j s.1.
Proof.
  intros Hs Hfd Hj Ht. unfold close_if. destruct (test (entry fd s.1)) eqn:E.
  - pose proof (close_cases fd s Hs) as Hc. pose proof (Ht _ E) as Ho. unfold is_open in Ho.
    destruct (close_descriptor fd s) as [[?|e|] s'].
    + destruct Hc as (d & _ & _ & -> & _). cbn. destruct (decide (j = fd)) as [->|].
      * rewrite E. apply entry_set_eq; [apply Hs|done].
      * rewrite entry_set_ne by lia. done.
    + destruct Hc as (_ & _ & Hn). by rewrite Hn in Ho.
    + done.
  - destruct (decide (j = fd)) as [->|]; [by rewrite E|done].
Qed.

Lemma close_loop_table test s : pf_inv links H I s -> (forall e, test e = true -> is_open e = true) ->
  let s' := for_up (Z.to_nat MAX_FILE_DESCRIPTORS) 0 (close_if test) s in
  keeps s s' /\ forall j, 0 <= j < MAX_FILE_DESCRIPTORS ->
    entry j s'.1 = if test (entry j s.1) then no_entry else entry j s.1.
Proof.
  intros Hs Ht s'.
  pose proof (for_up_ind (fun fd x => keeps s x /\ (forall j, 0 <= j < MAX_FILE_DESCRIPTORS ->
      entry j x.1 = if decide (j < fd) then if test (entry j s.1) then no_entry else entry j s.1
                    else entry j s.1))
    (close_if test) (Z.to_nat MAX_FILE_DESCRIPTORS) 0 s) as Hi.
  destruct Hi as (A & B); [| |split; [exact A|intros j Hj; unfold s'; rewrite (B j Hj), decide_True by lia; done]].
  - split; [by apply keeps_refl|]. intros j Hj. rewrite decide_False by lia. done.
  - intros fd x Hfd (A & B). split; [eapply keeps_trans; [exact A|apply close_if_keeps, A]|].
    intros j Hj. rewrite close_if_entry by (done || lia || apply A). rewrite (B j Hj).
    destruct (decide (j = fd)) as [->|].
    + by rewrite decide_False, decide_True by lia.
    + destruct (decide (j < fd)); [by rewrite decide_True by lia|by rewrite decide_False by lia].
Qed.

Lemma table_empty p : table_ok p ->
  (forall j, 0 <= j < MAX_FILE_DESCRIPTORS -> description (entry j p) = None) -> table_descs p = [].
Proof.
  intros Hl He. unfold table_descs.
  assert (Hall : Forall (fun e => description e = None) (m_descriptors p)).
  { apply list.Forall_forall. intros e Hin. apply list_elem_of_lookup in Hin as [i Hi].
    pose proof (lookup_lt_Some _ _ _ Hi). unfold table_ok, zlen in Hl.
    rewrite <- (He (Z.of_nat i) ltac:(lia)). unfold entry, zget. by rewrite Nat2Z.id, Hi. }
  induction Hall as [|e l Hn _ IH]; [done|]. cbn. by rewrite Hn.
Qed.

Lemma close_all_table s : pf_inv links H I s ->
  keeps s (close_all_descriptors s) /\ table_descs (close_all_descriptors s).1 = [].
Proof.
  intros Hs. destruct (close_loop_table is_open s Hs ltac:(done)) as [Hk He].
  split; [done|]. apply table_empty; [apply Hk|]. intros j Hj. unfold close_all_descriptors.
  rewrite (He j Hj). unfold is_open. by destruct (description (entry j s.1)) eqn:E.
Qed.

Lemma destroy_inv p fs : pf_inv links H I (p, fs) -> files_inv links H I (process_destroy (p, fs)).
Proof.
  intros Hs. unfold process_destroy. destruct (close_all_table _ Hs) as [[Hk Ho] Ht].
  destruct (close_all_descriptors (p, fs)) as [p' fs']. destruct Hk as [_ Hk]. cbn in Hk, Ht.
  rewrite Ht in Hk. cbn [app] in Hk. unfold proc_inodes in Hk.
  assert (Hdrop : forall o rest fs0, zlen rest + 1 < LIMIT -> files_inv links H (option_list o ++ rest) fs0 ->
    files_inv links H rest (opt_unref o fs0)).
  { intros [i|] rest fs0 Hr Hf; [|done]. apply inode_unref_inv; [done|done| |].
    - destruct Hroom. lia.
    - unfold zlen in *. cbn [length]. lia. }
  destruct Hroom as [_ Hr]. apply Hdrop; [lia|]. apply Hdrop.
  - pose proof (option_list_le (m_controlling_terminal p')). unfold zlen in *. rewrite length_app. lia.
  - by rewrite app_assoc.
Qed.

Lemma reset_shape p : exists hs rs, reset_signal_handlers p = with_actions hs (m_signal_flags p) rs p.
Proof.
  apply (for_up_ind (fun _ q => exists hs rs, q = with_actions hs (m_signal_flags p) rs p)).
  - exists (m_signal_handlers p), (m_signal_restorers p). by destruct p.
  - intros i q _ (hs & rs & ->). eexists _, _. reflexivity.
Qed.

Lemma coe_table s : pf_inv links H I s -> keeps s (close_on_exec_descriptors s)
  /\ forall j, 0 <= j < MAX_FILE_DESCRIPTORS -> entry j (close_on_exec_descriptors s).1
     = if is_open (entry j s.1) && close_on_exec (entry j s.1) then no_entry else entry j s.1.
Proof. intros Hs. apply close_loop_table; [done|]. intros e. by destruct (is_open e). Qed.

Lemma exec_commit_eq brk s : exec_commit brk s
  = (with_brk brk brk (reset_signal_handlers (close_on_exec_descriptors s).1), (close_on_exec_descriptors s).2).
Proof. unfold exec_commit. by destruct (close_on_exec_descriptors s). Qed.

Lemma exec_table brk s : pf_inv links H I s ->
  pf_inv links H I (exec_commit brk s) /\ m_pid (exec_commit brk s).1 = m_pid s.1
  /\ m_signal_handlers (close_on_exec_descriptors s).1 = m_signal_handlers s.1
  /\ forall j, 0 <= j < MAX_FILE_DESCRIPTORS ->
     entry j (exec_commit brk s).1
     = if is_open (entry j s.1) && close_on_exec (entry j s.1) then no_entry else entry j s.1.
Proof.
  intros Hs. rewrite exec_commit_eq. destruct (coe_table s Hs) as [[Hk Ho] He].
  destruct (close_on_exec_descriptors s) as [p fs]. cbn [fst snd] in *.
  destruct (reset_shape p) as (hs & rs & ->). split_and!; [exact Hk|by rewrite Ho|by rewrite Ho|exact He].
Qed.

End one_process.

(** ** Pipes *)

Lemma room_weaken H I x : room (x :: H) I -> room H I.
Proof. unfold room, zlen. cbn [length]. lia. Qed.

Lemma pipe_keeps links H I memory copied s : links_ok links -> (forall x, room (x :: H) I) ->
  pf_inv links H I s ->
  (forall pipe r w, memory = Some (pipe, r, w) ->
     inode_refs s.2 !! pipe = None /\ descriptions s.2 !! r = None
     /\ descriptions s.2 !! w = None /\ r <> w) ->
  keeps links H I s (snd (sys_pipe memory copied s)).
Proof.
  intros Hl Hroom Hs Hmem. pose proof (room_weaken H I 0 (Hroom 0)) as Hroom0.
  destruct s as [p fs]. unfold sys_pipe, mtry at 1. cbn [fst snd].
  destruct memory as [[[pipe r] w]|]; [|by apply keeps_refl].
  destruct (Hmem pipe r w eq_refl) as (Hp & Hr & Hw & Hne). cbn [fst snd] in *.
  pose proof (create_pair_inv links Hl (table_descs p ++ H) (proc_inodes p ++ I) pipe r w fs (proj2 Hs)) as Hc.
  specialize (Hc ltac:(pose proof (room_descs H I Hroom0 p [0] (proj1 Hs) ltac:(done)); unfold zlen in *; cbn [app length] in *; lia)
    (room_held H I Hroom0 p) Hp Hr Hw Hne).
  destruct (create_pair _ fs) as [res fs2]. destruct Hc as [-> Hc].
  assert (Hc' : files_inv links (r :: table_descs p ++ w :: H) (proc_inodes p ++ I) fs2).
  { eapply files_inv_perm; [|reflexivity|exact Hc]. solve_Permutation. }
  unfold mtry at 1, mcatch at 1. pose proof (allocate_cases r 0 (p, fs2)) as Ha.
  destruct (allocate_descriptor r 0 (p, fs2)) as [[rfd|e|] s1].
  3: done.
  2: { destruct Ha as [-> _]. unfold mtry; cbn. split; [|apply only_table_refl].
       apply release_inv; [done|done|apply Hs|].
       pose proof (release_inv links (w :: H) I Hl (Hroom w) r p fs2 (proj1 Hs) Hc') as [_ Hrel].
       eapply files_inv_perm; [|reflexivity|exact Hrel]. cbn. solve_Permutation. }
  destruct Ha as (A & B & C & -> & _). cbn [fst snd] in *.
  pose proof (install_inv links (w :: H) I rfd r false p fs2 (proj1 Hs) ltac:(lia) C Hc') as H1.
  set (p1 := set_entry rfd (mkEntry (Some r) false) p) in *.
  unfold mtry at 1, mcatch at 1. pose proof (allocate_cases w 0 (p1, fs2)) as Hb.
  destruct (allocate_descriptor w 0 (p1, fs2)) as [[wfd|e|] s2].
  3: done.
  2: { destruct Hb as [-> _]. unfold mtry, mcatch.
       pose proof (close_keeps links (w :: H) I Hl (Hroom w) rfd _ H1) as [[Hk1 Hk2] Ho].
       pose proof (close_cases links (w :: H) I Hl (Hroom w) rfd _ H1) as Hcc.
       destruct (close_descriptor rfd (p1, fs2)) as [[?|?|] [p2 fs3]]; cbn [snd fst mod_files] in *; [| |done].
       all: split; [|exact Ho]; apply release_inv; [done|done|done|];
         eapply files_inv_perm; [|reflexivity|exact Hk2]; cbn; solve_Permutation. }
  destruct Hb as (A' & B' & C' & -> & _). cbn [fst snd] in *.
  assert (H2 : pf_inv links H I (set_entry wfd (mkEntry (Some w) false) p1, fs2)).
  { apply install_inv; [apply H1|lia|done|]. eapply files_inv_perm; [|reflexivity|apply H1].
    cbn. solve_Permutation. }
  assert (Hk : keeps links H I (p, fs) (set_entry wfd (mkEntry (Some w) false) p1, fs2)) by done.
  destruct copied; [done|]. unfold mtry, mcatch.
  pose proof (close_keeps links H I Hl Hroom0 rfd _ H2) as Hk2.
  pose proof (close_cases links H I Hl Hroom0 rfd _ H2) as Hcc.
  destruct (close_descriptor rfd _) as [[?|?|] s3]; [| |done].
  all: pose proof (close_keeps links H I Hl Hroom0 wfd _ (proj1 Hk2)) as Hk3; cbn [snd] in *;
    destruct (close_descriptor wfd s3) as [[?|?|] s4]; cbn [snd] in *;
    (eapply keeps_trans; [exact Hk|]; eapply keeps_trans; [exact Hk2|exact Hk3]).
Qed.

(** ** The whole kernel *)

Definition all_descs (k : Kernel) : list Z := s_processes k ≫= table_descs.
Definition all_inodes (k : Kernel) : list Z := s_processes k ≫= proc_inodes.

Record kernel_ok (links : Z -> Z) (k : Kernel) : Prop := {
  ok_pids : NoDup (m_pid <$> s_processes k);
  ok_below : Forall (fun p => 0 <= m_pid p < s_next_pid k) (s_processes k);
  ok_tables : Forall table_ok (s_processes k);
  ok_accounts : files_inv links (all_descs k) (all_inodes k) (files k);
  ok_few : zlen (s_processes k) <= 2 ^ 23;
  ok_next : 0 <= s_next_pid k < 2 ^ 31;
}.

Lemma bind_middle {A} (f : Process -> list A) l1 p l2 :
  (l1 ++ p :: l2) ≫= f ≡ₚ f p ++ ((l1 ++ l2) ≫= f).
Proof. rewrite !bind_app, bind_cons. solve_Permutation. Qed.

Lemma bind_length_le {A} (f : Process -> list A) n l : Forall (fun p => zlen (f p) <= n) l ->
  zlen (l ≫= f) <= n * zlen l.
Proof.
  unfold zlen. induction 1 as [|p l Hp Hl IH]; [cbn; lia|]. rewrite bind_cons, length_app. cbn [length]. nia.
Qed.

Section kernel.
Context (links : Z -> Z) (Hlinks : links_ok links).

Lemma room_others l : Forall table_ok l -> zlen l <= 2 ^ 23 ->
  forall x, room (x :: (l ≫= table_descs)) (l ≫= proc_inodes).
Proof.
  intros Ht Hn x.
  assert (H1 : zlen (l ≫= table_descs) <= 64 * zlen l).
  { apply bind_length_le. eapply Forall_impl; [exact Ht|]. intros p Hp. by apply length_table. }
  assert (H2 : zlen (l ≫= proc_inodes) <= 2 * zlen l).
  { apply bind_length_le, list.Forall_forall. intros. apply proc_inodes_le. }
  unfold room, LIMIT, zlen in *. cbn [length]. lia.
Qed.

(** The accounts of one process and of everything else: an operation on the
    process that keeps them keeps the kernel's. *)
Lemma focus pid k p : kernel_ok links k -> by_pid pid k = Some p ->
  exists H I, (forall x, room (x :: H) I)
  /\ (forall q d, q ∈ s_processes k -> m_pid q <> pid -> d ∈ table_descs q -> d ∈ H)
  /\ pf_inv links H I (p, files k)
  /\ forall p' fs', m_pid p' = pid -> pf_inv links H I (p', fs') ->
     kernel_ok links (upd_files (fun _ => fs') (upd_process pid (fun _ => p') k)).
Proof.
  intros [A B C D E N] Hp. destruct (by_pid_split pid k p Hp) as (Hpid & l1 & l2 & Hl & _).
  unfold all_descs, all_inodes in D. rewrite Hl in A, B, C, D, E.
  apply Forall_app in C as [C1 C2]. apply Forall_cons in C2 as [Cp C2].
  exists ((l1 ++ l2) ≫= table_descs), ((l1 ++ l2) ≫= proc_inodes). split_and!.
  - apply room_others; [by apply Forall_app|].
    unfold zlen in *. rewrite length_app in *. cbn [length] in *. lia.
  - intros q d Hq Hne Hd. rewrite Hl in Hq. apply elem_of_app in Hq. rewrite elem_of_cons in Hq.
    apply list_elem_of_bind. exists q. split; [done|]. apply elem_of_app.
    destruct Hq as [?|[->|?]]; [by left|done|by right].
  - split; [done|]. eapply files_inv_perm; [| |exact D]; apply bind_middle.
  - intros p' fs' Hp' [T F].
    assert (Hproc : s_processes (upd_process pid (fun _ => p') k) = l1 ++ p' :: l2).
    { cbn. rewrite Hl. by apply upd_process_split. }
    apply Forall_app in B as [B1 B2]. apply Forall_cons in B2 as [Bp B2].
    split; unfold all_descs, all_inodes; cbn [upd_files s_processes s_next_pid files]; rewrite ?Hproc.
    + rewrite fmap_app, fmap_cons in *. by rewrite Hp', <- Hpid.
    + apply Forall_app; split; [done|]. constructor; [|done]. by rewrite Hp', <- Hpid.
    + apply Forall_app; split; [done|]. by constructor.
    + eapply files_inv_perm; [| |exact F]; symmetry; apply bind_middle.
    + unfold zlen in *. rewrite length_app in *. cbn [length] in *. lia.
    + done.
Qed.

Lemma only_table_pid p p' : only_table p p' -> m_pid p' = m_pid p.
Proof. by intros ->. Qed.

Lemma call_keeps {A} pid (m : M PF A) k : kernel_ok links k ->
  (forall H I p, (forall x, room (x :: H) I) -> pf_inv links H I (p, files k) ->
     keeps links H I (p, files k) (snd (m (p, files k)))) ->
  kernel_ok links (snd (call_on pid m k)).
Proof.
  intros Hk Hm. unfold call_on. destruct (by_pid pid k) as [p|] eqn:Hp; [|done].
  destruct (focus pid k p Hk Hp) as (H & I & Hr & _ & Hs & Hback). destruct (Hm H I p Hr Hs) as [HI Ho].
  destruct (m (p, files k)) as [r [p' fs']]. cbn [snd fst] in *. apply Hback; [|done].
  rewrite (only_table_pid p p') by done. by apply by_pid_pid in Hp.
Qed.

Lemma Forall_fmap_pid P (l : list Process) : Forall P (m_pid <$> l) <-> Forall (fun p => P (m_pid p)) l.
Proof. apply Forall_fmap. Qed.

(** Changes that leave the tables and the directories alone. *)
Definition same_files (p q : Process) : Prop :=
  m_pid q = m_pid p /\ m_descriptors q = m_descriptors p
  /\ m_working_directory q = m_working_directory p
  /\ m_controlling_terminal q = m_controlling_terminal p.

Lemma same_ok k k' : Forall2 same_files (s_processes k) (s_processes k') ->
  files k' = files k -> s_next_pid k' = s_next_pid k -> kernel_ok links k -> kernel_ok links k'.
Proof.
  intros Hs Hf Hn [A B C D E N].
  assert (H1 : m_pid <$> s_processes k' = m_pid <$> s_processes k).
  { clear -Hs. induction Hs as [|p q l l' H _ IH]; [done|]. cbn. f_equal; [apply H|done]. }
  assert (H2 : all_descs k' = all_descs k).
  { unfold all_descs. clear -Hs. induction Hs as [|p q l l' H _ IH]; [done|]. rewrite !bind_cons, IH.
    f_equal. unfold table_descs. by rewrite (proj1 (proj2 H)). }
  assert (H3 : all_inodes k' = all_inodes k).
  { unfold all_inodes. clear -Hs. induction Hs as [|p q l l' H _ IH]; [done|]. rewrite !bind_cons, IH.
    f_equal. unfold proc_inodes. by destruct H as (_ & _ & -> & ->). }
  split.
  - by rewrite H1.
  - apply (Forall_fmap_pid (fun z => 0 <= z < s_next_pid k')). rewrite H1, Hn. by apply Forall_fmap_pid.
  - clear -Hs C. induction Hs as [|p q l l' H _ IH]; [done|]. apply Forall_cons in C as [Cp C].
    constructor; [|by apply IH]. unfold table_ok. by rewrite (proj1 (proj2 H)).
  - by rewrite H2, H3, Hf.
  - unfold zlen in *. by rewrite <- (Forall2_length _ _ _ Hs).
  - by rewrite Hn.
Qed.

Lemma sig_ok k k' : sig_step k k' -> kernel_ok links k -> kernel_ok links k'.
Proof.
  intros [A B C _]. apply same_ok; [|done|done]. eapply Forall2_impl; [exact A|].
  intros p q ->. done.
Qed.

Lemma map_ok g k : (forall p, same_files p (g p)) -> kernel_ok links k ->
  kernel_ok links (upd_processes (map g) k).
Proof.
  intros Hg. apply same_ok; [|done|done]. cbn.
  induction (s_processes k) as [|p l IH]; cbn; constructor; [apply Hg|done].
Qed.

Lemma upd_ok pid f k : (forall p, same_files p (f p)) -> kernel_ok links k ->
  kernel_ok links (upd_process pid f k).
Proof. intros Hf. apply map_ok. intros p. by destruct (m_pid p =? pid). Qed.

Lemma sched_ok f k : kernel_ok links k -> kernel_ok links (upd_sched f k).
Proof. intros [A B C D E N]. by split. Qed.

Lemma held_live k q i : kernel_ok links k -> q ∈ s_processes k -> i ∈ proc_inodes q ->
  is_Some (inode_refs (files k) !! i).
Proof.
  intros Hk Hq Hi. apply (inode_live _ _ _ _ (proj1 (ok_accounts _ _ Hk))). unfold inode_total.
  pose proof (Hlinks i). pose proof (occ_nonneg i (open_inodes (files k))).
  enough (0 < occ i (all_inodes k)) by lia. apply occ_pos, list_elem_of_bind. by exists q.
Qed.

(** A new process: a fresh pid, an empty table, the directories of its parent. *)
Lemma create_ok memory root parent k : kernel_ok links k -> more_processes k ->
  (forall q, parent = Some q -> q ∈ s_processes k) ->
  (forall r, parent = None -> root = Some r -> is_Some (inode_refs (files k) !! r)) ->
  kernel_ok links (snd (create memory root parent k)).
Proof.
  intros Hk [Hm Hnext] Hpar Hroot. destruct memory as [a|]; [|done].
  destruct (create_shape a root parent k) as (p & -> & Hpid & Htab & _ & _ & _ & _ & _ & Hshape). cbn [snd].
  pose proof (room_others (s_processes k) (ok_tables _ _ Hk) (ok_few _ _ Hk) 0) as [Hr1 Hr2].
  assert (Hr : zlen (all_descs k) < LIMIT /\ zlen (all_inodes k) + 4 < LIMIT).
  { unfold all_descs, all_inodes, zlen in *. cbn [length] in *. lia. }
  assert (Hlive : forall i, i ∈ proc_inodes p -> is_Some (inode_refs (files k) !! i)).
  { unfold proc_inodes at 1. destruct parent as [q|].
    - destruct Hshape as (_ & _ & _ & -> & -> & _). intros i Hi. by apply (held_live k q); [|apply Hpar|].
    - destruct Hshape as (_ & _ & _ & -> & -> & _). intros i. cbn. rewrite app_nil_r. destruct root as [r|]; cbn.
      + rewrite list_elem_of_singleton. intros ->. by apply Hroot.
      + intros Hi. by apply not_elem_of_nil in Hi. }
  destruct Hk as [A B C D E N].
  assert (Hnew : table_descs p = []).
  { unfold table_descs. rewrite Htab. reflexivity. }
  assert (Hfiles : files_inv links (all_descs k) (proc_inodes p ++ all_inodes k)
    (opt_ref (m_working_directory p) (opt_ref (m_controlling_terminal p) (files k)))).
  { unfold proc_inodes in *. rewrite <- app_assoc. pose proof (option_list_le (m_controlling_terminal p)).
    assert (H1 : files_inv links (all_descs k) (option_list (m_controlling_terminal p) ++ all_inodes k)
      (opt_ref (m_controlling_terminal p) (files k))).
    { destruct (m_controlling_terminal p) as [t|] eqn:Et; [|done].
      apply inode_ref_inv; [done|done|lia|lia|]. apply Hlive, elem_of_app. right. by left. }
    destruct (m_working_directory p) as [c|] eqn:Ec; [|done].
    apply inode_ref_inv; [done|done|lia|unfold zlen in *; rewrite length_app; lia|].
    apply (inode_live _ _ _ _ (proj1 H1)). pose proof (proj2 (inode_live _ _ _ _ (proj1 D) c) (Hlive c ltac:(by left))) as Hc.
    unfold inode_total in *. rewrite occ_app.
    pose proof (occ_nonneg c (option_list (m_controlling_terminal p))).
    replace (open_inodes (opt_ref (m_controlling_terminal p) (files k))) with (open_inodes (files k))
      by by destruct (m_controlling_terminal p). lia. }
  assert (Hi32 : i32 (s_next_pid k + 1) = s_next_pid k + 1).
  { unfold i32. rewrite Z.mod_small; lia. }
  split; cbn [s_processes s_next_pid files]; rewrite ?Hi32.
  - rewrite fmap_app. apply NoDup_app. split_and!; [done| |apply NoDup_singleton].
    intros x Hx Hs%list_elem_of_singleton. rewrite Hs in Hx. apply list_elem_of_fmap in Hx as (q & Hq & Hin).
    rewrite list.Forall_forall in B. specialize (B q Hin). lia.
  - apply Forall_app; split; [|constructor; [lia|constructor]].
    eapply Forall_impl; [exact B|]. cbn. lia.
  - apply Forall_app; split; [done|]. constructor; [|constructor]. unfold table_ok. by rewrite Htab.
  - unfold all_descs, all_inodes; cbn [s_processes]. rewrite !bind_app, !bind_cons, Hnew. cbn [app mbind list_bind].
    rewrite !app_nil_r. eapply files_inv_perm; [reflexivity| |exact Hfiles]. apply Permutation_app_comm.
  - unfold zlen in *. rewrite length_app. cbn [length]. lia.
  - lia.
Qed.

Lemma run_ok pid f k : kernel_ok links k ->
  (forall H I p, by_pid pid k = Some p -> (forall x, room (x :: H) I) ->
     (forall q d, q ∈ s_processes k -> m_pid q <> pid -> d ∈ table_descs q -> d ∈ H) ->
     pf_inv links H I (p, files k) ->
     pf_inv links H I (f (p, files k)) /\ m_pid (f (p, files k)).1 = m_pid p) ->
  kernel_ok links (run_on pid f k).
Proof.
  intros Hk Hf. destruct (by_pid pid k) as [p|] eqn:Hp; [|by rewrite run_on_none].
  rewrite (run_on_eq pid f k p Hp). destruct (focus pid k p Hk Hp) as (H & I & Hr & Ho & Hs & Hback).
  destruct (Hf H I p eq_refl Hr Ho Hs) as [HI Hpid]. destruct (f (p, files k)) as [p' fs'].
  apply Hback; [|done]. cbn in *. by rewrite Hpid, (by_pid_pid pid k p Hp).
Qed.

Lemma cwd_ok pid inode k : kernel_ok links k ->
  (forall i, inode = Some i -> is_Some (inode_refs (files k) !! i)) ->
  kernel_ok links (run_on pid (set_working_directory inode) k).
Proof.
  intros Hk Hi. apply run_ok; [done|]. intros H I p Hp Hr _ Hs. split; [|done].
  apply cwd_inv; [done|by apply (room_weaken H I 0)|done|done].
Qed.

Lemma terminal_ok pid inode k : kernel_ok links k ->
  (forall i, inode = Some i -> is_Some (inode_refs (files k) !! i)) ->
  kernel_ok links (run_on pid (set_controlling_terminal inode) k).
Proof.
  intros Hk Hi. apply run_ok; [done|]. intros H I p Hp Hr _ Hs. split; [|done].
  apply terminal_inv; [done|by apply (room_weaken H I 0)|done|done].
Qed.

(** The middle of [fork]: the child gets the parent's directory and descriptors. *)
Definition fork_fill (parent : Process) (child : Z) (k : Kernel) : Kernel :=
  run_on child (fun s => for_up (Z.to_nat MAX_FILE_DESCRIPTORS) 0 (fork_descriptor parent) s)
    (upd_process child (with_mmap_next (mmap_next parent))
       (run_on child (set_working_directory (m_working_directory parent)) k)).

Lemma fork_fill_ok parent child c k : kernel_ok links k -> parent ∈ s_processes k ->
  m_pid parent <> child -> by_pid child k = Some c ->
  (forall j, 0 <= j < MAX_FILE_DESCRIPTORS -> entry j c = no_entry) ->
  kernel_ok links (fork_fill parent child k)
  /\ exists c', by_pid child (fork_fill parent child k) = Some c'
     /\ only_table (with_mmap_next (mmap_next parent) (with_cwd (m_working_directory parent) c)) c'
     /\ forall j, 0 <= j < MAX_FILE_DESCRIPTORS -> entry j c' = inherited (entry j parent).
Proof.
  intros Hk Hpar Hne Hc Hempty. unfold fork_fill.
  set (k2 := run_on child (set_working_directory _) k).
  assert (Hk2 : kernel_ok links k2).
  { apply cwd_ok; [done|]. intros i Hi. apply (held_live k parent); [done|done|].
    unfold proc_inodes. rewrite Hi. by left. }
  assert (Hpid : m_pid c = child) by by apply (by_pid_pid child k).
  assert (Hc2 : by_pid child k2 = Some (with_cwd (m_working_directory parent) c)).
  { unfold k2. rewrite (run_on_eq _ _ _ _ Hc), by_pid_files. rewrite (by_pid_upd_eq _ _ _ c); done. }
  assert (Hp2 : parent ∈ s_processes k2).
  { unfold k2. rewrite (run_on_eq _ _ _ _ Hc). by apply upd_process_elem. }
  set (k3 := upd_process child _ k2).
  assert (Hk3 : kernel_ok links k3) by (apply upd_ok; done).
  set (c3 := with_mmap_next (mmap_next parent) (with_cwd (m_working_directory parent) c)).
  assert (Hc3 : by_pid child k3 = Some c3) by by apply by_pid_upd_eq.
  assert (Hp3 : parent ∈ s_processes k3) by by apply upd_process_elem.
  assert (Htab : table_ok parent) by (pose proof (ok_tables _ _ Hk) as Ht; rewrite list.Forall_forall in Ht; by apply Ht).
  pose proof (fun H I (Hr : forall x, room (x :: H) I)
    (Ho : forall q d, q ∈ s_processes k3 -> m_pid q <> child -> d ∈ table_descs q -> d ∈ H) Hs =>
    fork_table links H I (room_weaken H I 0 (Hr 0)) parent (c3, files k3) Htab
      (fun d Hd => Ho parent d Hp3 Hne Hd) Hs Hempty) as Hloop.
  split.
  - apply run_ok; [done|]. intros H I p Hp Hr Ho Hs. rewrite Hc3 in Hp. injection Hp as <-.
    destruct (Hloop H I Hr Ho Hs) as [[Hk4 Hot] _]. split; [done|]. by rewrite (only_table_pid _ _ Hot).
  - destruct (focus child k3 c3 Hk3 Hc3) as (H & I & Hr & Ho & Hs & _).
    destruct (Hloop H I Hr Ho Hs) as [[_ Hot] He]. eexists. split; [|split; [exact Hot|exact He]].
    rewrite (run_on_eq _ _ _ _ Hc3), by_pid_files. rewrite (by_pid_upd_eq _ _ _ c3); [done|done|].
    by rewrite (only_table_pid _ _ Hot).
Qed.

Lemma next_pid_unused k : kernel_ok links k -> by_pid (s_next_pid k) k = None.
Proof.
  intros Hk. destruct (by_pid (s_next_pid k) k) as [p|] eqn:Hp; [|done].
  pose proof (by_pid_pid _ _ _ Hp). apply by_pid_elem in Hp.
  pose proof (ok_below _ _ Hk) as Hb. rewrite list.Forall_forall in Hb. specialize (Hb p Hp). lia.
Qed.

(** [create] followed by the copy of the descriptors. *)
Lemma fork_child_ok me parent a k : kernel_ok links k -> more_processes k ->
  by_pid me k = Some parent ->
  let child := s_next_pid k in
  let k1 := snd (create (Some a) None (Some parent) k) in
  create (Some a) None (Some parent) k = (Ok child, k1)
  /\ kernel_ok links k1 /\ kernel_ok links (fork_fill parent child k1)
  /\ exists c, by_pid child (fork_fill parent child k1) = Some c
     /\ (forall j, 0 <= j < MAX_FILE_DESCRIPTORS -> entry j c = inherited (entry j parent))
     /\ m_parent_pid c = me /\ m_pgid c = m_pgid parent /\ m_sid c = m_sid parent
     /\ m_working_directory c = m_working_directory parent
     /\ m_controlling_terminal c = m_controlling_terminal parent
     /\ m_signal_mask c = m_signal_mask parent /\ m_umask c = m_umask parent
     /\ m_pending_signals c = 0 /\ m_has_exited c = false /\ m_main_thread c = None.
Proof.
  intros Hk Hmore Hme child k1. pose proof (by_pid_elem _ _ _ Hme) as Hin.
  assert (Hk1 : kernel_ok links k1).
  { apply create_ok; [done|done| |done]. by intros q [= <-]. }
  destruct (create_shape a None (Some parent) k) as (p & Hcr & Hpid & Htab & Hpend & Hex & _ & Hth & _ & Hsh).
  destruct Hsh as (S1 & S2 & S3 & S4 & S5 & S6 & S7).
  unfold k1 in *. rewrite Hcr in *. cbn [snd] in *. split_and!; [done|done| |].
  all: set (k2 := mkKernel _ _ _ _ _) in *.
  all: assert (Hc : by_pid child k2 = Some p) by
    (unfold child; rewrite <- Hpid; apply by_pid_found; [apply Hk1|apply elem_of_app; right; by left]).
  all: assert (Hf : m_pid parent <> child) by
    (pose proof (ok_below _ _ Hk) as Hb; rewrite list.Forall_forall in Hb; specialize (Hb parent Hin); lia).
  all: assert (He : forall j, 0 <= j < MAX_FILE_DESCRIPTORS -> entry j p = no_entry) by
    (intros j Hj; unfold entry; rewrite Htab; apply zget_replicate; lia).
  all: destruct (fork_fill_ok parent child p k2 Hk1) as [Hok (c & Hc' & Hot & Hent)];
    [apply elem_of_app; by left|done|done|done|].
  - done.
  - exists c. split; [done|]. split; [done|]. rewrite Hot; cbn.
    rewrite <- (by_pid_pid _ _ _ Hme). split_and!; done.
Qed.

Lemma fork_ok me memory clone thread k : kernel_ok links k -> more_processes k ->
  kernel_ok links (snd (sys_fork me memory clone thread k)).
Proof.
  intros Hk Hm. unfold sys_fork. destruct (by_pid me k) as [parent|] eqn:Hme; [|done].
  destruct memory as [a|]; [|done].
  destruct (fork_child_ok me parent a k Hk Hm Hme) as (Hcr & Hk1 & Hfill & _).
  unfold mtry at 1. rewrite Hcr. destruct clone as [?|e|]; [|done|done].
  unfold mtry, mmod. destruct thread as [t|e|]; [|done|done]. cbn [snd mok].
  apply sched_ok. apply upd_ok; [done|]. apply upd_ok; [done|]. exact Hfill.
Qed.

Lemma mark_exited_ok pid status k : kernel_ok links k -> kernel_ok links (mark_exited pid status k).
Proof.
  intros Hk. unfold mark_exited. eapply sig_ok; [apply notify_sig, raise_sig|].
  apply run_ok.
  - apply map_ok; [intros p; by destruct (_ =? _)|]. by apply upd_ok.
  - intros H I p Hp Hr _ Hs. destruct (close_all_keeps links H I Hlinks (room_weaken H I 0 (Hr 0)) _ Hs) as [Hi Ho].
    split; [done|]. by rewrite (only_table_pid _ _ Ho).
Qed.

(** Reaping removes the child and gives back all it held. *)
Lemma remove_ok f k : kernel_ok links k -> f ∈ s_processes k ->
  kernel_ok links (upd_files (fun fs => process_destroy (f, fs))
    (upd_processes (filter (fun q => m_pid q <> m_pid f)) k)).
Proof.
  intros Hk Hf. pose proof (by_pid_found k f (ok_pids _ _ Hk) Hf) as Hb.
  destruct (by_pid_split _ _ _ Hb) as (_ & l1 & l2 & Hl & _). destruct Hk as [A B C D E N].
  unfold all_descs, all_inodes in D. rewrite Hl in A, B, C, D, E.
  pose proof (remove_split l1 f l2 A) as Hrem.
  apply Forall_app in B as [B1 B2]. apply Forall_cons in B2 as [Bp B2].
  apply Forall_app in C as [C1 C2]. apply Forall_cons in C2 as [Cp C2].
  assert (Hn : zlen (l1 ++ l2) <= 2 ^ 23) by (unfold zlen in *; rewrite length_app in *; cbn [length] in E; lia).
  assert (Ht : Forall table_ok (l1 ++ l2)) by by apply Forall_app.
  split; unfold all_descs, all_inodes; cbn [upd_files upd_processes s_processes s_next_pid files];
    rewrite ?Hl, ?Hrem; [| |done| |done|done].
  - rewrite fmap_app, fmap_cons in *. apply NoDup_app in A as (A1 & A2 & A3). apply NoDup_cons in A3 as [_ A3].
    apply NoDup_app. split_and!; [done| |done]. intros x Hx Hx2. apply (A2 x Hx). by right.
  - by apply Forall_app.
  - apply destroy_inv; [done| |].
    + apply (room_weaken _ _ 0). by apply room_others.
    + split; [done|]. eapply files_inv_perm; [| |exact D]; apply bind_middle.
Qed.

Lemma reap_turn_ok me wanted options blocking k : kernel_ok links k ->
  kernel_ok links (fst (reap_turn me wanted options blocking k)).
Proof.
  intros Hk. unfold reap_turn. destruct (reap_scan me wanted options (s_processes k) false None) as [[any changed] finished] eqn:E.
  apply reap_scan_spec in E as (_ & Hf & _). destruct changed as [c|].
  - destruct (m_stop_pending c); cbn [fst]; by apply upd_ok.
  - destruct finished as [f|]; [apply remove_ok; [done|apply Hf]|]. destruct any, blocking; done.
Qed.

Lemma op_keeps o k : kernel_ok links k -> op_ok o k -> kernel_ok links (op_run o k).
Proof.
  intros Hk Hop. destruct o; cbn [op_run op_ok] in *.
  - apply create_ok; [done|apply Hop|done|]. intros r _ [= <-]. apply Hop.
  - apply call_keeps; [done|]. intros H I p Hr Hs. apply open_keeps; [done|by apply (room_weaken H I 0)|done|apply Hop|apply Hop].
  - apply call_keeps; [done|]. intros H I p Hr Hs. by apply close_keeps; [|apply (room_weaken H I 0)|].
  - apply call_keeps; [done|]. intros H I p Hr Hs. by apply dup_keeps; [|apply (room_weaken H I 0)|].
  - apply call_keeps; [done|]. intros H I p Hr Hs. by apply pipe_keeps.
  - apply call_keeps; [done|]. intros H I p Hr Hs. by apply fcntl_keeps; [apply (room_weaken H I 0)|].
  - apply cwd_ok; [done|]. by intros i [= <-].
  - apply terminal_ok; [done|]. by intros i [= <-].
  - apply run_ok; [done|]. intros H I p Hp Hr _ Hs.
    destruct (exec_table links H I Hlinks (room_weaken H I 0 (Hr 0)) brk_start _ Hs) as (A & B & _). done.
  - by apply upd_ok.
  - apply upd_ok; [|done]. intros p. unfold set_signal_mask. by repeat destruct (_ =? _).
  - apply upd_ok; [|done]. intros p. unfold set_signal_action. destruct (negb _); [done|]. by destruct (_ || _).
  - apply upd_ok; [|done]. intros p. unfold take_pending_signal. by destruct (_ =? _).
  - by apply fork_ok.
  - unfold do_exit. apply sched_ok. destruct (pid =? 0); [done|by apply mark_exited_ok].
  - unfold reap_child. destruct (by_pid me k); [by apply reap_turn_ok|done].
  - unfold reap_resume. destruct (by_pid me k); [|done].
    destruct (has_pending_signals _); [done|by apply reap_turn_ok].
  - eapply sig_ok; [apply kill_sig|done].
  - eapply sig_ok; [apply stop_sig|done].
  - eapply sig_ok; [apply resume_sig|done].
  - unfold set_process_group. destruct (by_pid caller k) as [c|]; [|done]. destruct (_ || _); [done|].
    destruct (if pid =? 0 then _ else _) as [t|]; [|done]. destruct (_ && _); [done|].
    destruct (negb _); [done|]. destruct (_ =? _); [done|]. destruct (_ && _); [done|]. by apply upd_ok.
  - unfold start_session. destruct (by_pid me k) as [p|] eqn:Hp; [|done]. destruct (_ =? _); [done|].
    apply run_ok; [done|]. intros H I q Hq Hr _ Hs. split; [|done].
    apply terminal_inv; [done|by apply (room_weaken H I 0)|exact Hs|done].
  - by apply sched_ok.
Qed.

End kernel.

(** ** From boot on *)

(** Before the first open file the inodes are those something links to. *)
Definition only_links (links : Z -> Z) (inodes : gmap Z Z) : Prop :=
  forall i n, inodes !! i = Some n <-> n = links i /\ 0 < n.

Lemma boot_ok links inodes a s poll : only_links links inodes ->
  kernel_ok links (boot_kernel a inodes s poll).
Proof.
  intros Hi.
  assert (Htot : forall i, inode_total links [] (mkFiles ∅ inodes []) i = links i).
  { intros i. unfold inode_total, open_inodes. cbn [descriptions]. rewrite map_to_list_empty.
    unfold occ, zlen; cbn. lia. }
  split; cbn.
  - apply NoDup_singleton.
  - by repeat constructor.
  - by repeat constructor.
  - split; [split; cbn|].
    + intros d. rewrite lookup_empty. split; [intros Hd; by apply not_elem_of_nil in Hd|by intros []].
    + done.
    + intros i. rewrite Htot. split; [intros Hp; exists (links i); by apply Hi|].
      intros [n Hn]. apply Hi in Hn. lia.
    + intros i n Hn. rewrite Htot. by apply Hi in Hn as [-> _].
    + intros i. unfold pipe_of, ends_on; cbn. by rewrite map_to_list_empty.
  - done.
  - done.
Qed.

Lemma kernel_run_ok links ops k k' : links_ok links -> kernel_ok links k -> kernel_run ops k k' ->
  kernel_ok links k'.
Proof. intros Hl Hk Hr. induction Hr as [|o ops k k' Hok _ IH]; [done|]. by apply IH, op_keeps. Qed.

(** C23: however processes open, duplicate, inherit, pass on and close files, fork,
    exec, exit and are reaped, every descriptor names a live description, every
    live description counts exactly the descriptors that name it and there is at
    least one, and every live inode counts exactly its links, the descriptions
    open on it and the processes that sit in it or have it as their terminal:
    nothing is freed while in use and nothing unused stays. *)
Theorem references_balance links inodes a s poll ops k :
  links_ok links -> only_links links inodes ->
  kernel_run ops (boot_kernel a inodes s poll) k ->
  (forall p fd d, p ∈ s_processes k -> 0 <= fd < MAX_FILE_DESCRIPTORS ->
     description (entry fd p) = Some d -> is_Some (descriptions (files k) !! d))
  /\ (forall d x, descriptions (files k) !! d = Some x ->
        m_reference_count x = occ d (all_descs k) /\ 0 < m_reference_count x)
  /\ (forall i n, inode_refs (files k) !! i = Some n ->
        n = links i + occ i (open_inodes (files k)) + occ i (all_inodes k) /\ 0 < n)
  /\ (forall i, 0 < links i + occ i (open_inodes (files k)) + occ i (all_inodes k) ->
        is_Some (inode_refs (files k) !! i)).
Proof.
  intros Hl Hi Hr. pose proof (kernel_run_ok links _ _ _ Hl (boot_ok links inodes a s poll Hi) Hr) as Hk.
  destruct (ok_accounts _ _ Hk) as [[A B C D] _]. split_and!.
  - intros p fd d Hp Hfd Hd. apply A. unfold all_descs. apply list_elem_of_bind. exists p. split; [|done].
    apply (entry_in_table fd); [|done|done]. pose proof (ok_tables _ _ Hk) as Ht.
    rewrite list.Forall_forall in Ht. by apply Ht.
  - intros d x Hx. rewrite (B d x Hx). split; [done|]. apply occ_pos, A. by eexists.
  - intros i n Hn. split; [by apply D|]. rewrite (D i n Hn). apply C. by eexists.
  - intros i Hp. by apply C.
Qed.

(** Inode 7 is the root, 8 a terminal and 9 a file.  init (pid 1) opens the terminal
    and makes a pipe, forks, the child duplicates and closes, and exits; the parent
    reaps it. *)
Definition demo_links (i : Z) : Z := if (7 <=? i) && (i <=? 9) then 1 else 0.
Definition demo_inodes : gmap Z Z := {[ 7 := 1; 8 := 1; 9 := 1 ]}.
Definition demo_boot : Kernel := boot_kernel 50 demo_inodes (sched_boot 1 2) (-1).
Definition demo_calls : list KOp :=
  [OInit (Some 51) 7; OOpen 1 (Some 100) 8 0x2; OTerminal 1 8; OPipe 1 (Some (20, 101, 102)) true;
   OFork 1 (Some 52) (Ok tt) (Ok 3); OClose 2 1; ODup 2 2 1; OFcntl 2 1 F_SETFD 1; OChdir 2 9;
   OExec 2 4096; OExit 2 256; OWait 1 (-1) 0 false].

Lemma demo_links_ok : links_ok demo_links.
Proof. intros i. unfold demo_links, LIMIT. destruct (_ && _); lia. Qed.

Lemma demo_only_links : only_links demo_links demo_inodes.
Proof.
  intros i n. unfold demo_inodes, demo_links.
  destruct (decide (i = 7)) as [->|]; [cbn; split; [intros [= <-]; done|intros [-> _]; done]|].
  destruct (decide (i = 8)) as [->|]; [cbn; split; [intros [= <-]; done|intros [-> _]; done]|].
  destruct (decide (i = 9)) as [->|]; [cbn; split; [intros [= <-]; done|intros [-> _]; done]|].
  rewrite lookup_insert_ne, lookup_insert_ne, lookup_singleton_ne by done.
  destruct (Z.leb_spec 7 i), (Z.leb_spec i 9); cbn; try lia; split; (done || lia).
Qed.

Lemma demo_run : kernel_run demo_calls demo_boot (foldl (fun k o => op_run o k) demo_boot demo_calls).
Proof.
  cbn [demo_calls foldl]. repeat (eapply kernel_run_cons; [|]); [..|constructor]; try exact I.
  - split; [vm_compute; by eexists|split; vm_compute; reflexivity].
  - split; [vm_compute; by eexists|]. intros d [= <-]. vm_compute. reflexivity.
  - vm_compute. by eexists.
  - intros ? ? ? [= <- <- <-]. split_and!; [vm_compute; reflexivity..|lia].
  - split; vm_compute; reflexivity.
  - vm_compute. by eexists.
Qed.

Lemma references_balance_witness :
  let k := foldl (fun k o => op_run o k) demo_boot demo_calls in
  (exists x, descriptions (files k) !! 102 = Some x
     /\ m_reference_count x = 1 /\ m_reference_count x = occ 102 (all_descs k))
  /\ length (s_processes k) = 2%nat.
Proof.
  set (k := foldl _ _ _).
  destruct (references_balance demo_links demo_inodes 50 (sched_boot 1 2) (-1) demo_calls k
    demo_links_ok demo_only_links demo_run) as (_ & Hd & _).
  assert (Hx : exists x, descriptions (files k) !! 102 = Some x /\ m_reference_count x = 1).
  { eexists. split; vm_compute; reflexivity. }
  split; [|vm_compute; reflexivity]. destruct Hx as (x & Hx & H1). exists x. split_and!; [done|done|].
  by apply Hd.
Defined.

(** C24: a pipe's counts of readers and writers, which decide end-of-file, EPIPE and
    poll, are the numbers of open descriptions that can read and write it, however
    the ends were shared by [dup] and [fork] and whoever closed them or died. *)
Theorem pipe_ends_counted links inodes a s poll ops k i :
  links_ok links -> only_links links inodes ->
  kernel_run ops (boot_kernel a inodes s poll) k ->
  m_readers (pipe_of i (files k)) = ends_on reads i (files k)
  /\ m_writers (pipe_of i (files k)) = ends_on writes i (files k).
Proof.
  intros Hl Hi Hr. pose proof (kernel_run_ok links _ _ _ Hl (boot_ok links inodes a s poll Hi) Hr) as Hk.
  apply (ok_accounts _ _ Hk).
Qed.

Lemma pipe_ends_counted_witness :
  let k := foldl (fun k o => op_run o k) demo_boot demo_calls in
  m_readers (pipe_of 20 (files k)) = 1 /\ m_readers (pipe_of 20 (files k)) = ends_on reads 20 (files k).
Proof.
  set (k := foldl _ _ _). split; [vm_compute; reflexivity|].
  apply (pipe_ends_counted demo_links demo_inodes 50 (sched_boot 1 2) (-1) demo_calls k 20
    demo_links_ok demo_only_links demo_run).
Defined.

(** ** The calls one by one *)

(** [allocate_descriptor] gives the lowest free descriptor at or above the bound,
    changing nothing else; it fails with EMFILE exactly when all of those are
    taken and with EINVAL exactly when the bound is negative. *)
Theorem allocate_lowest d lowest s :
  match allocate_descriptor d lowest s with
  | (Ok fd, s') => 0 <= lowest <= fd /\ fd < MAX_FILE_DESCRIPTORS
      /\ description (entry fd s.1) = None
      /\ s' = (set_entry fd (mkEntry (Some d) false) s.1, s.2)
      /\ forall j, lowest <= j < fd -> is_Some (description (entry j s.1))
  | (Err e, s') => s' = s /\ (e = EINVAL /\ lowest < 0 \/ e = EMFILE /\ 0 <= lowest
      /\ forall j, lowest <= j < MAX_FILE_DESCRIPTORS -> is_Some (description (entry j s.1)))
  | (Panic, _) => False
  end.
Proof. apply allocate_cases. Qed.

(** [dup2] of an open descriptor onto another number makes that number name the
    same description, not marked for exec, whatever it named before, and leaves
    every other descriptor of the process alone. *)
Theorem dup2_spec links k me p fd to d :
  links_ok links -> kernel_ok links k -> by_pid me k = Some p ->
  0 <= fd < MAX_FILE_DESCRIPTORS -> 0 <= to < MAX_FILE_DESCRIPTORS -> to <> fd ->
  description (entry fd p) = Some d ->
  let '(r, k') := call_on me (sys_dup2 fd to) k in
  r = Ok to /\ exists p', by_pid me k' = Some p' /\ entry to p' = mkEntry (Some d) false
  /\ forall j, 0 <= j < MAX_FILE_DESCRIPTORS -> j <> to -> entry j p' = entry j p.
Proof.
  intros Hl Hk Hp Hfd Hto Hne Hd. destruct (focus links me k p) as (H & I & Hr & _ & Hs & _); [done|done|].
  unfold call_on. rewrite Hp. unfold sys_dup2, duplicate_descriptor, mtry at 1.
  pose proof (description_for_cases fd (p, files k)) as Hc.
  destruct (description_for fd (p, files k)) as [[d'|e|] s']; [| |done];
    [|destruct Hc as (_ & _ & Hn); cbn in Hn; by rewrite Hn in Hd by done].
  destruct Hc as (-> & _ & Hd'). cbn in Hd'. rewrite Hd in Hd'. injection Hd' as <-.
  destruct (Z.ltb_spec to 0); [lia|]. rewrite Z.geb_leb.
  destruct (Z.leb_spec MAX_FILE_DESCRIPTORS to); [lia|]. destruct (Z.eqb_spec to fd); [done|].
  assert (Hgo : forall p1 fs1, table_ok p1 -> m_pid p1 = me ->
    (forall j, 0 <= j < MAX_FILE_DESCRIPTORS -> j <> to -> entry j p1 = entry j p) ->
    exists p', by_pid me (upd_files (fun _ => fs1) (upd_process me
      (fun _ => set_entry to (mkEntry (Some d) false) p1) k)) = Some p'
    /\ entry to p' = mkEntry (Some d) false
    /\ forall j, 0 <= j < MAX_FILE_DESCRIPTORS -> j <> to -> entry j p' = entry j p).
  { intros p1 fs1 Ht1 Hpid He. eexists. split; [rewrite by_pid_files; by rewrite (by_pid_upd_eq _ _ _ p)|].
    split; [by apply entry_set_eq|]. intros j Hj Hjt. rewrite entry_set_ne by lia. by apply He. }
  unfold on_process, mtry at 1. cbn [fst snd].
  destruct (description (entry to p)) as [old|] eqn:Eo.
  - unfold mtry at 1 2, mcatch. pose proof (close_cases links H I Hl (room_weaken H I 0 (Hr 0)) to _ Hs) as Hc.
    destruct (close_descriptor to (p, files k)) as [[?|?|] s1]; [| |done].
    + destruct Hc as (d0 & _ & _ & -> & [[Ht _] _]). split; [done|].
      apply (Hgo (set_entry to no_entry p) (description_ref d (release_description d0 (files k))));
        [done|exact (by_pid_pid me k p Hp)|].
      intros j Hj Hjt. rewrite entry_set_ne by lia. done.
    + destruct Hc as (_ & _ & Hn). cbn in Hn. by rewrite Hn in Eo.
  - split; [done|]. apply (Hgo p (description_ref d (files k))); [apply Hs|exact (by_pid_pid me k p Hp)|done].
Qed.

(** The kernel of the demonstration after the fork. *)
Definition demo_forked : Kernel := foldl (fun k o => op_run o k) demo_boot (take 5 demo_calls).

Lemma demo_forked_ok : kernel_ok demo_links demo_forked.
Proof.
  unfold demo_forked. cbn [demo_calls take foldl].
  apply op_keeps; [apply demo_links_ok| |split; vm_compute; reflexivity].
  apply op_keeps; [apply demo_links_ok| |].
  - apply op_keeps; [apply demo_links_ok| |vm_compute; by eexists].
    apply op_keeps; [apply demo_links_ok| |split; [vm_compute; by eexists|intros d [= <-]; vm_compute; reflexivity]].
    apply op_keeps; [apply demo_links_ok| |split; [vm_compute; by eexists|split; vm_compute; reflexivity]].
    apply boot_ok, demo_only_links.
  - intros ? ? ? [= <- <- <-]. split_and!; [vm_compute; reflexivity..|lia].
Qed.

Lemma dup2_spec_witness : exists p p', by_pid 2 demo_forked = Some p
  /\ by_pid 2 (snd (call_on 2 (sys_dup2 2 0) demo_forked)) = Some p'
  /\ entry 0 p' = mkEntry (Some 102) false /\ entry 1 p' = entry 1 p.
Proof.
  assert (R0 : 0 <= 0 < MAX_FILE_DESCRIPTORS) by done. assert (R1 : 0 <= 1 < MAX_FILE_DESCRIPTORS) by done.
  assert (R2 : 0 <= 2 < MAX_FILE_DESCRIPTORS) by done. assert (N0 : 0 <> 2) by done. assert (N1 : 1 <> 0) by done.
  destruct (by_pid 2 demo_forked) as [p|] eqn:Hp; [|vm_compute in Hp; discriminate Hp].
  assert (Hd : description (entry 2 p) = Some 102) by (vm_compute in Hp; injection Hp as <-; reflexivity).
  pose proof (dup2_spec demo_links demo_forked 2 p 2 0 102 demo_links_ok demo_forked_ok Hp
    R2 R0 N0 Hd) as Hs.
  destruct (call_on 2 (sys_dup2 2 0) demo_forked) as [r k']. destruct Hs as (_ & p' & H1 & H2 & H3).
  exists p, p'. exact (conj eq_refl (conj H1 (conj H2 (H3 1 R1 N1)))).
Defined.

(** a successful [fork] adds a process with a fresh pid that shares every open
    description of its parent at the same number with the same exec mark, sits in
    the same directory, group and session, has the same terminal and masks, no
    pending signal, and the new thread. *)
Theorem fork_spec links k me parent a t :
  links_ok links -> kernel_ok links k -> more_processes k -> by_pid me k = Some parent ->
  let '(r, k') := sys_fork me (Some a) (Ok tt) (Ok t) k in
  exists child c, r = Ok child /\ by_pid child k = None /\ by_pid child k' = Some c
  /\ (forall fd, 0 <= fd < MAX_FILE_DESCRIPTORS -> entry fd c = inherited (entry fd parent))
  /\ m_parent_pid c = me /\ m_pgid c = m_pgid parent /\ m_sid c = m_sid parent
  /\ m_working_directory c = m_working_directory parent
  /\ m_controlling_terminal c = m_controlling_terminal parent
  /\ m_signal_mask c = m_signal_mask parent /\ m_umask c = m_umask parent
  /\ m_pending_signals c = 0 /\ m_has_exited c = false /\ m_main_thread c = Some t.
Proof.
  intros Hl Hk Hm Hme. pose proof (next_pid_unused links k Hk) as Hnew. unfold sys_fork. rewrite Hme.
  destruct (fork_child_ok links Hl me parent a k Hk Hm Hme) as (Hcr & _ & _ & c & Hc & He & Hrest).
  set (child := s_next_pid k) in *. set (k1 := snd (create (Some a) None (Some parent) k)) in *.
  unfold mtry at 1. rewrite Hcr. unfold mtry, mmod, mok. fold (fork_fill parent child k1).
  pose proof (by_pid_pid _ _ _ Hc) as Hpid. set (k4 := fork_fill parent child k1) in *.
  exists child, (with_brk (m_brk_current parent) (m_brk_current parent) (add_thread t c)).
  split; [done|]. split; [done|]. split; [|].
  - change (by_pid child (upd_sched ?f ?x)) with (by_pid child x).
    rewrite (by_pid_upd_eq _ _ _ (add_thread t c)); [done| |done].
    by rewrite (by_pid_upd_eq _ _ _ c).
  - destruct Hrest as (R1 & R2 & R3 & R4 & R5 & R6 & R7 & R8 & R9 & R10).
    unfold add_thread; cbn. rewrite R10. split_and!; done.
Qed.

Lemma fork_spec_witness :
  let '(r, k') := sys_fork 1 (Some 60) (Ok tt) (Ok 9) demo_forked in
  exists child c, r = Ok child /\ by_pid child k' = Some c /\ m_parent_pid c = 1.
Proof.
  assert (Hm : more_processes demo_forked) by (split; vm_compute; reflexivity).
  destruct (by_pid 1 demo_forked) as [p|] eqn:Hp; [|vm_compute in Hp; discriminate Hp].
  pose proof (fork_spec demo_links demo_forked 1 p 60 9 demo_links_ok demo_forked_ok Hm Hp) as Hf.
  destruct (sys_fork 1 (Some 60) (Ok tt) (Ok 9) demo_forked) as [r k'].
  destruct Hf as (child & c & H1 & _ & H3 & _ & H5 & _). exists child, c. exact (conj H1 (conj H3 H5)).
Defined.

(** *** exec *)

Lemma reset_handlers_spec p signal : 0 <= signal < NSIG ->
  zget 0 (m_signal_handlers (reset_signal_handlers p)) signal
  = (if zget 0 (m_signal_handlers p) signal =? SIG_IGN then SIG_IGN else SIG_DFL)
  /\ zget 0 (m_signal_restorers (reset_signal_handlers p)) signal = 0.
Proof.
  assert (Hset : forall (l : list Z) i, 0 <= i -> zget 0 (zset l i 0) i = 0).
  { intros l i Hi. destruct (Z.ltb_spec i (zlen l)); [apply zget_zset_eq; lia|].
    unfold zget, zset, zlen in *. rewrite list_insert_ge by lia. rewrite lookup_ge_None_2 by lia. done. }
  intros Hs. unfold reset_signal_handlers.
  match goal with |- context [for_up ?n 0 ?f p] => pose proof (for_up_ind (fun j q => forall i, 0 <= i ->
    zget 0 (m_signal_handlers q) i
    = (if decide (i < j) then if zget 0 (m_signal_handlers p) i =? SIG_IGN then SIG_IGN else SIG_DFL
       else zget 0 (m_signal_handlers p) i)
    /\ (i < j -> zget 0 (m_signal_restorers q) i = 0)) f n 0 p) as Hi end.
  cbn beta in Hi. destruct Hi with (i := signal) as [A B].
  - intros i Hi0. rewrite decide_False by lia. split; [done|lia].
  - intros j q Hj Hq i Hi0. cbn [with_actions m_signal_handlers m_signal_restorers].
    destruct (decide (i = j)) as [->|Hne].
    + rewrite decide_True by lia. destruct (Hq j Hi0) as [Hq1 _]. rewrite decide_False in Hq1 by lia.
      rewrite Hq1. split; [|intros _; by apply Hset].
      destruct (Z.eqb_spec (zget 0 (m_signal_handlers p) j) SIG_IGN) as [E|E]; [congruence|by apply Hset].
    + destruct (Hq i Hi0) as [Hq1 Hq2]. split.
      * transitivity (zget 0 (m_signal_handlers q) i);
          [destruct (zget 0 (m_signal_handlers q) j =? SIG_IGN); [done|by rewrite zget_zset_ne by lia]|].
        rewrite Hq1. destruct (decide (i < j)); [by rewrite decide_True by lia|by rewrite decide_False by lia].
      * intros Hlt. rewrite zget_zset_ne by lia. apply Hq2. lia.
  - lia.
  - rewrite decide_True in A by (unfold NSIG in *; lia). split; [exact A|apply B; unfold NSIG in *; lia].
Qed.

Lemma brk_keeps_handlers a b p fs : m_signal_handlers (with_brk a b p, fs).1 = m_signal_handlers p.
Proof. done. Qed.

Lemma brk_set a b p fs : m_brk_current (with_brk a b p, fs).1 = b.
Proof. done. Qed.

(** past the point of no return [exec] closes exactly the descriptors marked for
    it, keeps the others with their numbers, and resets every signal that is not
    ignored to its default action. *)
Theorem exec_spec links k me p brk :
  links_ok links -> kernel_ok links k -> by_pid me k = Some p ->
  exists p', by_pid me (run_on me (exec_commit brk) k) = Some p'
  /\ (forall fd, 0 <= fd < MAX_FILE_DESCRIPTORS ->
       entry fd p' = if is_open (entry fd p) && close_on_exec (entry fd p) then no_entry else entry fd p)
  /\ (forall signal, 0 <= signal < NSIG -> signal_disposition signal p'
       = if signal_disposition signal p =? SIG_IGN then SIG_IGN else SIG_DFL)
  /\ m_brk_current p' = brk.
Proof.
  intros Hl Hk Hp. destruct (focus links me k p Hk Hp) as (H & I & Hr & _ & Hs & _).
  destruct (exec_table links H I Hl (room_weaken H I 0 (Hr 0)) brk _ Hs) as (_ & Hpid & Hh & He).
  rewrite (run_on_eq _ _ _ _ Hp). exists (exec_commit brk (p, files k)).1. split_and!.
  - rewrite by_pid_files, (by_pid_upd_eq _ _ _ p); [done|done|]. rewrite Hpid. by apply (by_pid_pid me k p).
  - exact He.
  - intros signal Hsig. unfold signal_disposition. destruct (valid_signal signal); [|done].
    rewrite exec_commit_eq, brk_keeps_handlers. by rewrite (proj1 (reset_handlers_spec _ signal Hsig)), Hh.
  - rewrite exec_commit_eq. apply brk_set.
Qed.

Lemma exec_spec_witness : exists p p', by_pid 2 demo_forked = Some p
  /\ by_pid 2 (run_on 2 (exec_commit 4096) demo_forked) = Some p' /\ m_brk_current p' = 4096.
Proof.
  destruct (by_pid 2 demo_forked) as [p|] eqn:Hp; [|vm_compute in Hp; discriminate Hp].
  destruct (exec_spec demo_links demo_forked 2 p 4096 demo_links_ok demo_forked_ok Hp) as (p' & H1 & _ & _ & H4).
  exists p, p'. exact (conj eq_refl (conj H1 H4)).
Defined.
