(* ===== verification/Signals.v ===== *)
(** * Signals: what is pending, what can be blocked, what reaches a process

    Facts about the signal half of [Process.v]. *)

From S2P Require Import Prelude Pipe Files Scheduler Process Descriptors.

Definition stop_signals : list Z := [SIGSTOP; SIGTSTP; SIGTTIN; SIGTTOU].

(** The signal state of a process: only real signals are pending, a continue and a
    stop are never pending together, the two unblockable signals are not blocked
    and have no handler. *)
Record sig_ok (pending mask : Z) (handlers : list Z) : Prop := {
  so_range : forall i, 0 <= i -> Z.testbit pending i = true -> 0 < i < NSIG;
  so_pos : 0 <= pending;
  so_exclusive : Z.testbit pending SIGCONT = true ->
                 forall s, s ∈ stop_signals -> Z.testbit pending s = false;
  so_mask : is_u64 mask;
  so_kill : Z.testbit mask SIGKILL = false;
  so_stop : Z.testbit mask SIGSTOP = false;
  so_kill_handler : zget 0 handlers SIGKILL = SIG_DFL;
  so_stop_handler : zget 0 handlers SIGSTOP = SIG_DFL;
}.

Definition sigs (p : Process) : Prop :=
  sig_ok (m_pending_signals p) (m_signal_mask p) (m_signal_handlers p).

(** ** Bits *)

Lemma and_not_bit x m i : 0 <= i < 64 ->
  Z.testbit (and_not x m) i = Z.testbit x i && negb (Z.testbit m i).
Proof. intros Hi. unfold and_not. by rewrite Z.land_spec, u64_testbit, Z.lnot_spec by lia. Qed.

Lemma and_not_high x m i : 64 <= i -> Z.testbit (and_not x m) i = false.
Proof.
  intros Hi. unfold and_not. rewrite Z.land_spec, (testbit_high (u64 _)) by (apply u64_range || done).
  apply andb_false_r.
Qed.

Lemma and_not_u64 x m : is_u64 (and_not x m).
Proof.
  assert (H0 : 0 <= and_not x m) by (apply Z.land_nonneg; right; apply u64_range).
  split; [done|]. destruct (Z.eqb_spec (and_not x m) 0) as [->|Hne]; [lia|].
  apply Z.log2_lt_pow2; [lia|]. destruct (Z.ltb_spec (Z.log2 (and_not x m)) 64); [done|].
  pose proof (Z.bit_log2 (and_not x m) ltac:(lia)) as Hb. by rewrite and_not_high in Hb.
Qed.

Lemma bit_bit s i : 0 <= s -> 0 <= i -> Z.testbit (bit s) i = bool_decide (s = i).
Proof. apply testbit_one_shift. Qed.

Lemma stop_mask_bit i : 0 <= i -> Z.testbit STOP_SIGNAL_MASK i = bool_decide (i ∈ stop_signals).
Proof.
  intros Hi. unfold STOP_SIGNAL_MASK. rewrite !Z.lor_spec, !bit_bit by done.
  unfold stop_signals. apply eq_true_iff_eq. rewrite !orb_true_iff, !bool_decide_eq_true, !elem_of_cons.
  split; [intros [[[?|?]|?]|?]; subst; tauto|]. intros [?|[?|[?|[?|Hn]]]]; subst; try tauto.
  by apply not_elem_of_nil in Hn.
Qed.

Lemma unblockable_bit i : 0 <= i ->
  Z.testbit UNBLOCKABLE_SIGNALS i = bool_decide (i = SIGKILL) || bool_decide (i = SIGSTOP).
Proof.
  intros Hi. unfold UNBLOCKABLE_SIGNALS. rewrite Z.lor_spec, !bit_bit by done.
  f_equal; apply bool_decide_ext; intuition.
Qed.

Lemma has_stop_mask s : 0 < s < NSIG -> has STOP_SIGNAL_MASK (bit s) = bool_decide (s ∈ stop_signals).
Proof.
  intros Hs. unfold has. rewrite <- stop_mask_bit by lia.
  destruct (Z.testbit STOP_SIGNAL_MASK s) eqn:E.
  - apply negb_true_iff, Z.eqb_neq. intros H0. assert (Hb : Z.testbit 0 s = true); [|by rewrite Z.bits_0 in Hb].
    rewrite <- H0, Z.land_spec, E, bit_bit, bool_decide_eq_true_2 by lia. done.
  - apply negb_false_iff, Z.eqb_eq. apply Z.bits_inj'. intros i Hi. rewrite Z.bits_0, Z.land_spec, bit_bit by lia.
    destruct (decide (s = i)) as [->|]; [by rewrite E|]. rewrite bool_decide_eq_false_2 by done. apply andb_false_r.
Qed.

Lemma pending_u64 pending : (forall i, 0 <= i -> Z.testbit pending i = true -> 0 < i < NSIG) ->
  0 <= pending -> is_u64 pending.
Proof.
  intros Hr H0. split; [done|]. destruct (Z.eqb_spec pending 0) as [->|]; [lia|].
  apply Z.log2_lt_pow2; [lia|]. pose proof (Hr (Z.log2 pending) (Z.log2_nonneg _) (Z.bit_log2 pending ltac:(lia))).
  unfold NSIG in *. lia.
Qed.

(** ** Each operation *)

Lemma valid_signal_range s : valid_signal s = true <-> 0 < s < NSIG.
Proof.
  unfold valid_signal. rewrite Z.geb_leb. destruct (Z.leb_spec s 0), (Z.leb_spec NSIG s); cbn; intuition (lia || done).
Qed.

Lemma cont_not_stop : SIGCONT ∉ stop_signals.
Proof.
  unfold stop_signals. intros H. repeat (apply elem_of_cons in H as [H|H]; [done|]).
  by apply not_elem_of_nil in H.
Qed.

Lemma stop_signal_range s : s ∈ stop_signals -> 0 < s < NSIG.
Proof.
  unfold stop_signals. intros H. repeat (apply elem_of_cons in H as [->|H]; [done|]).
  by apply not_elem_of_nil in H.
Qed.

(** The signals a signal cancels. *)
Definition cancels (s i : Z) : Prop :=
  s = SIGCONT /\ i ∈ stop_signals \/ s ∈ stop_signals /\ i = SIGCONT.

#[export] Instance cancels_dec s i : Decision (cancels s i).
Proof. unfold cancels. apply _. Defined.

(** The pending set after [raise_signal]: the signal is in it, its opposites are
    not, the others are as they were. *)
Lemma record_bit s p i : 0 < s < NSIG -> 0 <= i ->
  (forall j, 0 <= j -> Z.testbit (m_pending_signals p) j = true -> 0 < j < NSIG) ->
  Z.testbit (m_pending_signals (record_signal s p)) i
  = if decide (i = s) then true
    else if decide (cancels s i) then false else Z.testbit (m_pending_signals p) i.
Proof.
  intros Hs Hi Hr. unfold record_signal. cbn [with_pending m_pending_signals].
  rewrite Z.lor_spec, bit_bit by lia. destruct (decide (i = s)) as [->|Hne].
  { rewrite bool_decide_eq_true_2 by done. apply orb_true_r. }
  rewrite (bool_decide_eq_false_2 (s = i)) by done. rewrite orb_false_r.
  assert (Hhigh : 64 <= i -> Z.testbit (m_pending_signals p) i = false).
  { intros H64. destruct (Z.testbit (m_pending_signals p) i) eqn:E; [|done].
    pose proof (Hr i Hi E). unfold NSIG in *. lia. }
  pose proof cont_not_stop as Hcs. unfold cancels.
  destruct (Z.eqb_spec s SIGCONT) as [->|Hc].
  - assert (Hd : (SIGCONT = SIGCONT /\ i ∈ stop_signals \/ SIGCONT ∈ stop_signals /\ i = SIGCONT)
              <-> i ∈ stop_signals) by tauto.
    rewrite (decide_ext _ _ _ _ Hd). destruct (Z.ltb_spec i 64) as [H64|H64].
    + rewrite and_not_bit, stop_mask_bit by lia. destruct (decide (i ∈ stop_signals)) as [Hin|Hin].
      * rewrite bool_decide_eq_true_2 by done. apply andb_false_r.
      * rewrite bool_decide_eq_false_2 by done. apply andb_true_r.
    + rewrite and_not_high by done. by destruct (decide _); [|rewrite Hhigh].
  - rewrite has_stop_mask by done. destruct (decide (s ∈ stop_signals)) as [Hin|Hin].
    + rewrite bool_decide_eq_true_2 by done. destruct (decide (i = SIGCONT)) as [->|Hi2].
      * rewrite decide_True by tauto. rewrite and_not_bit, bit_bit, bool_decide_eq_true_2 by done.
        apply andb_false_r.
      * rewrite decide_False by tauto. destruct (Z.ltb_spec i 64) as [H64|H64].
        -- rewrite and_not_bit, bit_bit, bool_decide_eq_false_2 by (done || lia || congruence). apply andb_true_r.
        -- rewrite and_not_high, Hhigh by done. done.
    + rewrite bool_decide_eq_false_2 by done. by rewrite decide_False by tauto.
Qed.

Lemma record_sigs s p : 0 < s < NSIG -> sigs p -> sigs (record_signal s p).
Proof.
  intros Hs Hp. pose proof (so_range _ _ _ Hp) as Hr.
  split; [| | |apply Hp|apply Hp|apply Hp|apply Hp|apply Hp].
  - intros i Hi. rewrite record_bit by done. destruct (decide (i = s)) as [->|]; [done|].
    destruct (decide _); [done|]. by apply Hr.
  - unfold record_signal. cbn. apply Z.lor_nonneg. split; [|apply Z.shiftl_nonneg; lia].
    destruct (s =? SIGCONT); [apply and_not_u64|]. destruct (has _ _); [apply and_not_u64|apply Hp].
  - rewrite record_bit by done. intros Hc s' Hs'. pose proof (stop_signal_range s' Hs') as Hsr.
    rewrite record_bit by (done || lia). pose proof cont_not_stop as Hcs.
    destruct (decide (SIGCONT = s)) as [<-|Hne].
    + rewrite decide_False by (intros ->; done). rewrite decide_True; [done|]. by left.
    + destruct (decide (cancels s SIGCONT)) as [|Hn]; [done|].
      assert (Hout : s ∉ stop_signals) by (intros Hin; apply Hn; by right).
      rewrite decide_False by (intros ->; done). destruct (decide _); [done|].
      by apply (so_exclusive _ _ _ Hp).
Qed.

Lemma mask_sigs how wanted p : sigs p -> sigs (snd (set_signal_mask how wanted p)).
Proof.
  intros Hp. assert (Hs : forall next, sigs (with_mask (and_not next UNBLOCKABLE_SIGNALS) p)).
  { intros next. split; try apply Hp; cbn [with_mask m_signal_mask]; [apply and_not_u64| |];
      rewrite and_not_bit, unblockable_bit by done; apply andb_false_r. }
  unfold set_signal_mask. repeat destruct (_ =? _); cbn [snd]; done.
Qed.

Lemma action_sigs s handler restorer flags p : sigs p -> sigs (set_signal_action s handler restorer flags p).
Proof.
  intros Hp. unfold set_signal_action. destruct (valid_signal s) eqn:Ev; cbn [negb]; [|done].
  apply valid_signal_range in Ev.
  destruct (Z.eqb_spec s SIGKILL) as [|H1]; [done|]. destruct (Z.eqb_spec s SIGSTOP) as [|H2]; [done|].
  cbn [orb]. split; try apply Hp; cbn [with_actions m_signal_handlers].
  - rewrite zget_zset_ne by (done || lia). apply Hp.
  - rewrite zget_zset_ne by (done || lia). apply Hp.
Qed.

Lemma reset_sigs p : sigs p -> sigs (reset_signal_handlers p).
Proof.
  intros Hp. destruct (reset_shape p) as (hs & rs & E).
  pose proof (proj1 (reset_handlers_spec p SIGKILL ltac:(done))) as Hk.
  pose proof (proj1 (reset_handlers_spec p SIGSTOP ltac:(done))) as Hs.
  rewrite E in *. split; try apply Hp; cbn [with_actions m_signal_handlers] in *.
  - by rewrite Hk, (so_kill_handler _ _ _ Hp).
  - by rewrite Hs, (so_stop_handler _ _ _ Hp).
Qed.

(** ** Taking a signal *)

Lemma deliverable_bit p i : sigs p -> 0 <= i < 64 ->
  Z.testbit (deliverable p) i
  = Z.testbit (m_pending_signals p) i && negb (Z.testbit (m_signal_mask p) i).
Proof.
  intros Hp Hi. unfold deliverable. rewrite !and_not_bit by done. f_equal. f_equal.
  rewrite unblockable_bit by lia. destruct (decide (i = SIGKILL)) as [->|].
  { by rewrite (so_kill _ _ _ Hp). }
  destruct (decide (i = SIGSTOP)) as [->|]; [by rewrite (so_stop _ _ _ Hp)|].
  rewrite !bool_decide_eq_false_2 by done. apply andb_true_r.
Qed.

Lemma take_cases p : sigs p ->
  let '(s, p') := take_pending_signal p in
  (s = 0 /\ p' = p /\ (forall i, 0 <= i < 64 -> Z.testbit (m_pending_signals p) i = true ->
                        Z.testbit (m_signal_mask p) i = true))
  \/ (0 < s < NSIG /\ Z.testbit (m_pending_signals p) s = true /\ Z.testbit (m_signal_mask p) s = false
      /\ (forall i, 0 <= i < s -> Z.testbit (m_pending_signals p) i = true ->
           Z.testbit (m_signal_mask p) i = true)
      /\ p' = with_pending (m_pending_signals p') p
      /\ forall i, 0 <= i < 64 -> Z.testbit (m_pending_signals p') i
         = negb (bool_decide (i = s)) && Z.testbit (m_pending_signals p) i).
Proof.
  intros Hp. unfold take_pending_signal.
  assert (Hu : is_u64 (deliverable p)) by apply and_not_u64.
  destruct (Z.eqb_spec (deliverable p) 0) as [Hz|Hnz].
  - left. split_and!; [done|done|]. intros i Hi Hb. pose proof (deliverable_bit p i Hp Hi) as Hd.
    rewrite Hz, Z.bits_0, Hb in Hd. by destruct (Z.testbit (m_signal_mask p) i).
  - right. destruct (ctzll_spec _ Hu Hnz) as (Hr & Hb & Hlow).
    rewrite deliverable_bit in Hb by done. apply andb_prop in Hb as [Hb1 Hb2].
    apply negb_true_iff in Hb2. set (s := ctzll (deliverable p)) in *.
    pose proof (so_range _ _ _ Hp s ltac:(lia) Hb1). split_and!; [lia|lia|done|done| |done|].
    + intros i Hi Hpi. specialize (Hlow i Hi). rewrite deliverable_bit, Hpi in Hlow by (done || lia).
      by destruct (Z.testbit (m_signal_mask p) i).
    + intros i Hi. cbn [with_pending m_pending_signals]. fold s. rewrite and_not_bit, bit_bit by lia. rewrite andb_comm. f_equal. f_equal.
      apply bool_decide_ext. intuition.
Qed.

Lemma take_sigs p : sigs p -> sigs (snd (take_pending_signal p)).
Proof.
  intros Hp. pose proof (take_cases p Hp) as Hc. pose proof (pending_u64 _ (so_range _ _ _ Hp) (so_pos _ _ _ Hp)).
  assert (Hpos : 0 <= m_pending_signals (snd (take_pending_signal p))).
  { unfold take_pending_signal. destruct (_ =? 0); cbn; [apply Hp|apply and_not_u64]. }
  assert (Hhigh : forall i, 64 <= i -> Z.testbit (m_pending_signals (snd (take_pending_signal p))) i = false).
  { intros i Hi. unfold take_pending_signal. destruct (_ =? 0); cbn; [by apply testbit_high|by apply and_not_high]. }
  destruct (take_pending_signal p) as [s p']. cbn [snd] in *.
  destruct Hc as [(-> & -> & _)|(Hs & _ & _ & _ & Heq & Hb)]; [done|]. rewrite Heq.
  split; try apply Hp; cbn [with_pending m_pending_signals].
  - intros i Hi Ht. destruct (Z.ltb_spec i 64); [|by rewrite Hhigh in Ht].
    rewrite Hb in Ht by lia. apply andb_prop in Ht as [_ Ht]. by apply (so_range _ _ _ Hp).
  - done.
  - rewrite Hb by done. intros Hc s' Hs'. apply andb_prop in Hc as [_ Hc].
    pose proof (stop_signal_range s' Hs'). rewrite Hb by (unfold NSIG in *; lia).
    rewrite (so_exclusive _ _ _ Hp Hc s' Hs'). apply andb_false_r.
Qed.

(** ** Every process of a reachable kernel *)

Definition all_sigs (k : Kernel) : Prop := Forall sigs (s_processes k).

Lemma upd_all_sigs pid f k : (forall p, sigs p -> sigs (f p)) -> all_sigs k ->
  all_sigs (upd_process pid f k).
Proof.
  intros Hf Hk. unfold all_sigs, upd_process in *; cbn. apply Forall_fmap. eapply Forall_impl; [exact Hk|].
  intros p Hp. cbn. destruct (m_pid p =? pid); [by apply Hf|done].
Qed.

Lemma all_sigs_lookup pid p k : all_sigs k -> by_pid pid k = Some p -> sigs p.
Proof. intros Hk Hp. unfold all_sigs in Hk. rewrite list.Forall_forall in Hk. by apply Hk, by_pid_elem with pid. Qed.

Lemma stop_fields_sigs a b c e p : sigs p -> sigs (with_stop a b c e p).
Proof. intros Hp. exact Hp. Qed.

Lemma brk_sigs a b p (fs : Files) : sigs p -> sigs (with_brk a b p, fs).1.
Proof. intros Hp. exact Hp. Qed.

Lemma only_table_sigs p p' : only_table p p' -> sigs p -> sigs p'.
Proof. intros -> Hp. exact Hp. Qed.

Section raising.
Context (raise : Z -> Z -> Kernel -> Kernel).
Context (Hraise : forall pid s k, all_sigs k -> all_sigs (raise pid s k)).

Lemma notify_all_sigs pid k : all_sigs k -> all_sigs (notify_parent raise pid k).
Proof.
  intros Hk. unfold notify_parent. destruct (by_pid pid k); [|done]. destruct (by_pid _ k); [|done].
  by apply Hraise.
Qed.

Lemma resume_all_sigs pid k : all_sigs k -> all_sigs (resume_with raise pid k).
Proof.
  intros Hk. unfold resume_with. destruct (by_pid pid k) as [p|]; [|done].
  destruct (m_is_stopped p); [|done]. cbn [negb].
  assert (all_sigs (notify_parent raise pid (upd_process pid (with_stop false 0 false true) k))).
  { apply notify_all_sigs, upd_all_sigs; [|done]. intros; by apply stop_fields_sigs. }
  by destruct (m_main_thread p).
Qed.
End raising.

Lemma raise_at_all_sigs depth pid s k : all_sigs k -> all_sigs (raise_at depth pid s k).
Proof.
  revert pid s k. induction depth as [|depth IH]; intros pid s k Hk; [done|].
  cbn [raise_at]. destruct (valid_signal s) eqn:Ev; cbn [negb]; [|done]. apply valid_signal_range in Ev.
  destruct (by_pid pid k) as [p|]; [|done].
  assert (Hr : all_sigs (upd_process pid (record_signal s) k)).
  { apply upd_all_sigs; [|done]. intros q Hq. by apply record_sigs. }
  destruct (_ && _); [by apply resume_all_sigs|]. destruct (m_main_thread p); [|done].
  by destruct (state_of _ _) as [[]|].
Qed.

Lemma raise_all_sigs pid s k : all_sigs k -> all_sigs (raise_signal pid s k).
Proof. apply raise_at_all_sigs. Qed.

Lemma stop_all_sigs pid s k : all_sigs k -> all_sigs (stop pid s k).
Proof.
  intros Hk. assert (Hr : all_sigs (stop_record pid s k)).
  { unfold stop_record. apply notify_all_sigs; [apply raise_all_sigs|].
    apply upd_all_sigs; [|done]. intros; by apply stop_fields_sigs. }
  unfold stop, stop_block. destruct (by_pid _ _); [|done]. by case_decide.
Qed.

Lemma kill_all_sigs caller pid s k : all_sigs k -> all_sigs (snd (sys_kill caller pid s k)).
Proof.
  intros Hk. unfold sys_kill. destruct (_ || _); [done|]. destruct (_ || _).
  { destruct (negb _); [done|]. destruct (s =? 0); [done|]. cbn [snd]. unfold signal_group.
    generalize (group_members (if pid =? 0 then match by_pid caller k with Some c => m_pgid c | None => 0 end
                               else - pid) k).
    intros l. revert k Hk. induction l as [|q l IH]; intros k Hk; [done|]. cbn. by apply IH, raise_all_sigs. }
  destruct (pid =? -1).
  { destruct (s =? 0); [done|]. generalize (s_processes k). intros l. revert k Hk.
    induction l as [|q l IH]; intros k Hk; [done|]. cbn. destruct (_ || _); [by apply IH|].
    destruct (raise_takes_lock s q); [done|]. by apply IH, raise_all_sigs. }
  destruct (by_pid pid k); [|done]. destruct (s =? 0); [done|by apply raise_all_sigs].
Qed.

Section run.
Context (links : Z -> Z) (Hlinks : links_ok links).

Lemma run_all_sigs pid f k : kernel_ok links k -> all_sigs k ->
  (forall H I p, (forall x, room (x :: H) I) -> pf_inv links H I (p, files k) -> sigs p ->
     sigs (f (p, files k)).1) ->
  all_sigs (run_on pid f k).
Proof.
  intros Hk Ha Hf. destruct (by_pid pid k) as [p|] eqn:Hp; [|by rewrite run_on_none].
  rewrite (run_on_eq pid f k p Hp). destruct (focus links pid k p Hk Hp) as (H & I & Hr & _ & Hs & _).
  change (all_sigs (upd_files ?g ?x)) with (all_sigs x). apply upd_all_sigs; [|done].
  intros q Hq. apply (Hf H I p Hr Hs). by apply (all_sigs_lookup pid p k).
Qed.

Lemma call_all_sigs {A} pid (m : M PF A) k : kernel_ok links k -> all_sigs k ->
  (forall H I p, (forall x, room (x :: H) I) -> pf_inv links H I (p, files k) ->
     keeps links H I (p, files k) (snd (m (p, files k)))) ->
  all_sigs (snd (call_on pid m k)).
Proof.
  intros Hk Ha Hm. unfold call_on. destruct (by_pid pid k) as [p|] eqn:Hp; [|done].
  destruct (focus links pid k p Hk Hp) as (H & I & Hr & _ & Hs & _).
  destruct (Hm H I p Hr Hs) as [_ Ho]. destruct (m (p, files k)) as [r [p' fs']]. cbn [snd fst] in *.
  change (all_sigs (upd_files ?g ?x)) with (all_sigs x). apply upd_all_sigs; [|done].
  intros q Hq. apply (only_table_sigs p); [done|by apply (all_sigs_lookup pid p k)].
Qed.

Lemma create_all_sigs memory root parent k : all_sigs k ->
  (forall q, parent = Some q -> sigs q) -> all_sigs (snd (create memory root parent k)).
Proof.
  intros Ha Hpar. destruct memory as [a|]; [|done].
  destruct (create_shape a root parent k) as (p & -> & _ & _ & Hpend & _ & _ & _ & Hh & Hshape). cbn [snd].
  unfold all_sigs; cbn. apply Forall_app; split; [done|]. constructor; [|constructor].
  assert (Hm : is_u64 (m_signal_mask p) /\ Z.testbit (m_signal_mask p) SIGKILL = false
               /\ Z.testbit (m_signal_mask p) SIGSTOP = false).
  { destruct parent as [q|]; destruct Hshape as (_ & _ & _ & _ & _ & -> & _); [|done].
    destruct (Hpar q eq_refl); done. }
  unfold sigs. rewrite Hpend, Hh. split; try (apply Hm || done).
  intros i _. by rewrite Z.bits_0.
Qed.

Lemma run_any_sigs pid f k : all_sigs k -> (forall p fs, sigs p -> sigs (f (p, fs)).1) ->
  all_sigs (run_on pid f k).
Proof.
  intros Ha Hf. destruct (by_pid pid k) as [p|] eqn:Hp; [|by rewrite run_on_none].
  rewrite (run_on_eq pid f k p Hp). change (all_sigs (upd_files ?g ?x)) with (all_sigs x).
  apply upd_all_sigs; [|done]. intros q Hq. apply Hf. by apply (all_sigs_lookup pid p k).
Qed.

Lemma fork_descriptor_only parent fd s : only_table s.1 (fork_descriptor parent fd s).1.
Proof.
  unfold fork_descriptor. destruct (fst (description_for fd (parent, s.2))) as [d|e|];
    [|apply only_table_refl|apply only_table_refl]. cbn [mod_files snd].
  pose proof (allocate_cases d fd (s.1, description_ref d s.2)) as Ha.
  set (s1 := snd (allocate_descriptor d fd (s.1, description_ref d s.2))) in *.
  assert (H1 : only_table s.1 s1.1).
  { unfold s1. destruct (allocate_descriptor d fd (s.1, description_ref d s.2)) as [[?|?|] ?]; [| |done].
    - destruct Ha as (_ & _ & _ & -> & _). apply only_table_set.
    - destruct Ha as [-> _]. apply only_table_refl. }
  eapply only_table_trans; [exact H1|]. unfold set_descriptor_close_on_exec, mtry.
  pose proof (description_for_cases fd s1) as Hd. destruct (description_for fd s1) as [[?|?|] s2]; [| |done].
  - destruct Hd as (-> & _). apply only_table_set.
  - destruct Hd as (-> & _). apply only_table_refl.
Qed.

Lemma fork_all_sigs me memory clone thread k : kernel_ok links k -> more_processes k -> all_sigs k ->
  all_sigs (snd (sys_fork me memory clone thread k)).
Proof.
  intros Hk Hm Ha. unfold sys_fork. destruct (by_pid me k) as [parent|] eqn:Hme; [|done].
  assert (Hc : forall memory, all_sigs (snd (create memory None (Some parent) k))).
  { intros mem. apply create_all_sigs; [done|]. intros q [= <-]. by apply (all_sigs_lookup me parent k). }
  specialize (Hc memory). unfold mtry at 1.
  destruct (create memory None (Some parent) k) as [[child|e|] k1]; [|done|done]. cbn [snd] in Hc.
  destruct clone as [?|e|]; [|done|done]. unfold mtry, mmod. fold (fork_fill parent child k1).
  assert (Hf : all_sigs (fork_fill parent child k1)).
  { unfold fork_fill. apply run_any_sigs.
    - apply upd_all_sigs; [done|]. by apply run_any_sigs.
    - intros p fs Hp. apply (only_table_sigs p); [|done].
      apply (for_up_ind (fun _ s => only_table p s.1)); [apply only_table_refl|].
      intros i s _ Hs. eapply only_table_trans; [exact Hs|apply fork_descriptor_only]. }
  destruct thread as [t|e|]; [|done|done]. cbn [snd mok].
  change (all_sigs (upd_sched ?g ?x)) with (all_sigs x).
  apply upd_all_sigs; [done|]. by apply upd_all_sigs.
Qed.

Lemma map_all_sigs g k : (forall p, sigs p -> sigs (g p)) -> all_sigs k -> all_sigs (upd_processes (map g) k).
Proof.
  intros Hg Ha. unfold all_sigs in *; cbn. apply Forall_fmap. eapply Forall_impl; [exact Ha|]. intros p. apply Hg.
Qed.

Lemma reap_all_sigs me wanted options blocking k : all_sigs k ->
  all_sigs (fst (reap_turn me wanted options blocking k)).
Proof.
  intros Ha. unfold reap_turn. destruct (reap_scan me wanted options (s_processes k) false None) as [[any changed] finished].
  destruct changed as [c|]; [destruct (m_stop_pending c); by apply upd_all_sigs|].
  destruct finished as [f|]; [|by destruct any, blocking]. unfold all_sigs in *; cbn.
  apply list.Forall_forall. intros q Hq. apply list_elem_of_filter in Hq as [_ Hq].
  rewrite list.Forall_forall in Ha. by apply Ha.
Qed.

Lemma op_all_sigs o k : kernel_ok links k -> op_ok o k -> all_sigs k -> all_sigs (op_run o k).
Proof.
  intros Hk Hop Ha. destruct o; cbn [op_run op_ok] in *.
  - by apply create_all_sigs.
  - apply call_all_sigs; [done|done|]. intros H I p Hr Hs. apply open_keeps; [done|by apply (room_weaken H I 0)|done|apply Hop|apply Hop].
  - apply call_all_sigs; [done|done|]. intros H I p Hr Hs. by apply close_keeps; [|apply (room_weaken H I 0)|].
  - apply call_all_sigs; [done|done|]. intros H I p Hr Hs. by apply dup_keeps; [|apply (room_weaken H I 0)|].
  - apply call_all_sigs; [done|done|]. intros H I p Hr Hs. by apply pipe_keeps.
  - apply call_all_sigs; [done|done|]. intros H I p Hr Hs. by apply fcntl_keeps; [apply (room_weaken H I 0)|].
  - by apply run_any_sigs.
  - by apply run_any_sigs.
  - apply run_all_sigs; [done|done|]. intros H I p Hr Hs Hp. rewrite exec_commit_eq.
    destruct (coe_table links H I Hlinks (room_weaken H I 0 (Hr 0)) _ Hs) as [[_ Ho] _].
    apply brk_sigs, reset_sigs. exact (only_table_sigs _ _ Ho Hp).
  - by apply upd_all_sigs.
  - apply upd_all_sigs; [|done]. intros p. apply mask_sigs.
  - apply upd_all_sigs; [|done]. intros p. apply action_sigs.
  - apply upd_all_sigs; [|done]. intros p. apply take_sigs.
  - by apply fork_all_sigs.
  - unfold do_exit. change (all_sigs (upd_sched ?g ?x)) with (all_sigs x). destruct (pid =? 0); [done|].
    unfold mark_exited. apply notify_all_sigs; [apply raise_all_sigs|]. apply run_all_sigs.
    + apply map_ok; [intros p; by destruct (_ =? _)|]. by apply upd_ok.
    + apply map_all_sigs; [intros p; by destruct (_ =? _)|]. by apply upd_all_sigs.
    + intros H I p Hr Hs Hp.
      destruct (close_all_keeps links H I Hlinks (room_weaken H I 0 (Hr 0)) _ Hs) as [_ Ho].
      by apply (only_table_sigs _ _ Ho).
  - unfold reap_child. destruct (by_pid me k); [by apply reap_all_sigs|done].
  - unfold reap_resume. destruct (by_pid me k); [|done].
    destruct (has_pending_signals _); [done|by apply reap_all_sigs].
  - by apply kill_all_sigs.
  - by apply stop_all_sigs.
  - by apply resume_all_sigs; [apply raise_all_sigs|].
  - unfold set_process_group. destruct (by_pid caller k) as [c|]; [|done]. destruct (_ || _); [done|].
    destruct (if pid =? 0 then _ else _) as [t|]; [|done]. destruct (_ && _); [done|].
    destruct (negb _); [done|]. destruct (_ =? _); [done|]. destruct (_ && _); [done|]. by apply upd_all_sigs.
  - unfold start_session. destruct (by_pid me k) as [p|] eqn:Hp; [|done]. destruct (_ =? _); [done|].
    by apply run_any_sigs.
  - done.
Qed.

End run.

Lemma boot_all_sigs a inodes s poll : all_sigs (boot_kernel a inodes s poll).
Proof.
  unfold all_sigs; cbn. constructor; [|constructor]. split; try done. intros i _. by rewrite Z.bits_0.
Qed.

Lemma kernel_run_sigs links ops k k' : links_ok links -> kernel_ok links k -> all_sigs k ->
  kernel_run ops k k' -> all_sigs k'.
Proof.
  intros Hl Hk Ha Hr. induction Hr as [|o ops k k' Hok _ IH]; [done|].
  apply IH; [by apply op_keeps|by apply (op_all_sigs links)].
Qed.

(** ** Who is woken *)

(** What waking does to a thread, if it does anything. *)
Definition maybe_woken (s s' : Sched) : Prop := forall t st, state_of s t = Some st ->
  state_of s' t = Some st \/ state_of s' t = Some (woken st).

Lemma maybe_woken_refl s : maybe_woken s s.
Proof. intros t st Ht. by left. Qed.

Lemma maybe_woken_trans s1 s2 s3 : maybe_woken s1 s2 -> maybe_woken s2 s3 -> maybe_woken s1 s3.
Proof.
  intros H1 H2 t st Ht. destruct (H1 t st Ht) as [H|H]; [by apply H2|].
  right. destruct (H2 t _ H) as [H2'|H2']; rewrite H2'; [done|]. by destruct st.
Qed.

Lemma maybe_woken_unblock t s : maybe_woken s (unblock t s).
Proof.
  intros t' st Ht. rewrite unblock_state. destruct (decide (t = t')) as [->|]; [|by left].
  rewrite Ht. by right.
Qed.

Lemma maybe_woken_wake_of q s : maybe_woken s (wake_all_of q s).
Proof.
  intros t st Ht. rewrite (proj2 (wake_all_effect q s)). destruct (decide _); [|by left]. rewrite Ht. by right.
Qed.

Lemma maybe_woken_wake poll q s : maybe_woken s (wake_all poll q s).
Proof.
  unfold wake_all. destruct (negb (q =? poll)); [|apply maybe_woken_wake_of].
  eapply maybe_woken_trans; apply maybe_woken_wake_of.
Qed.

Lemma raise_woken depth pid s k : maybe_woken (sched k) (sched (raise_at depth pid s k)).
Proof.
  revert pid s k. induction depth as [|depth IH]; intros pid s k; [apply maybe_woken_refl|].
  cbn [raise_at]. destruct (negb (valid_signal s)); [apply maybe_woken_refl|].
  destruct (by_pid pid k) as [p|]; [|apply maybe_woken_refl]. destruct (_ && _).
  - unfold resume_with. destruct (by_pid pid _) as [q|]; [|apply maybe_woken_refl].
    destruct (negb _); [apply maybe_woken_refl|]. set (k1 := upd_process _ _ _).
    assert (H1 : maybe_woken (sched k) (sched (notify_parent (raise_at depth) pid k1))).
    { unfold notify_parent. destruct (by_pid pid k1) as [c|]; [|apply maybe_woken_refl].
      destruct (by_pid _ k1) as [par|]; [|apply maybe_woken_refl].
      eapply maybe_woken_trans; [apply (IH (m_pid par) SIGCHLD k1)|apply maybe_woken_wake]. }
    destruct (m_main_thread q); [|done]. eapply maybe_woken_trans; [exact H1|apply maybe_woken_unblock].
  - destruct (m_main_thread p); [|apply maybe_woken_refl].
    destruct (state_of _ _) as [[]|]; (apply maybe_woken_refl || apply maybe_woken_unblock).
Qed.

(** Two levels of [raise_signal] and [resume] are all that ever run. *)
Lemma raise_chld_depth d pid k : raise_at (S d) pid SIGCHLD k = raise_at 1 pid SIGCHLD k.
Proof.
  cbn [raise_at]. destruct (by_pid pid k); [|done].
  rewrite (andb_false_r (m_is_stopped _) : m_is_stopped _ && ((SIGCHLD =? SIGCONT) || (SIGCHLD =? SIGKILL)) = false).
  done.
Qed.

Lemma raise_at_depth d pid s k : raise_at (S (S d)) pid s k = raise_signal pid s k.
Proof.
  unfold raise_signal. cbn [raise_at]. destruct (negb (valid_signal s)); [done|].
  destruct (by_pid pid k) as [p|]; [|done]. destruct (_ && _); [|done].
  unfold resume_with. destruct (by_pid pid _) as [q|]; [|done]. destruct (negb _); [done|].
  assert (Hn : forall x, notify_parent (raise_at (S d)) pid x = notify_parent (raise_at 1) pid x).
  { intros x. unfold notify_parent. destruct (by_pid pid x); [|done]. destruct (by_pid _ x); [|done].
    by rewrite raise_chld_depth. }
  fold (raise_at (S d)). fold (raise_at 1). by rewrite Hn.
Qed.

(** The process after a signal has been raised on it. *)
Lemma sig_step_lookup k k' pid p : sig_step k k' -> by_pid pid k = Some p ->
  exists p', by_pid pid k' = Some p' /\ signal_only p p'.
Proof.
  intros [H _ _ _]. unfold by_pid. induction H as [|q q' l l' Hq _ IH]; [done|]. cbn.
  assert (Hpid : m_pid q' = m_pid q) by by rewrite Hq.
  rewrite Hpid. destruct (m_pid q =? pid); [|done]. intros [= ->]. by exists q'.
Qed.

(** ** Theorems *)

(** C25: whatever is raised, blocked, handled, taken, inherited or reset, every process
    of a reachable kernel has only real signals pending, never a continue and a
    stop together, and neither blocks nor handles SIGKILL or SIGSTOP. *)
Theorem signals_invariant links inodes a s poll ops k :
  links_ok links -> only_links links inodes ->
  kernel_run ops (boot_kernel a inodes s poll) k ->
  Forall (fun p => sig_ok (m_pending_signals p) (m_signal_mask p) (m_signal_handlers p)) (s_processes k).
Proof.
  intros Hl Hi Hr. apply (kernel_run_sigs links ops (boot_kernel a inodes s poll) k Hl); [|apply boot_all_sigs|done].
  by apply boot_ok.
Qed.

Definition demo_signals : list KOp :=
  demo_calls ++ [OFork 1 (Some 53) (Ok tt) (Ok 4); OMask 3 SIG_SETMASK (-1); OAction 3 SIGKILL 77 78 0;
    OKill 1 3 SIGTSTP; OKill 1 3 SIGCONT; OKill 1 3 SIGKILL].

Lemma kernel_run_app ops1 ops2 k1 k2 k3 :
  kernel_run ops1 k1 k2 -> kernel_run ops2 k2 k3 -> kernel_run (ops1 ++ ops2) k1 k3.
Proof. intros H1 H2. induction H1; [done|]. cbn. by eapply kernel_run_cons; [|apply IHkernel_run]. Qed.

Lemma demo_signals_run :
  kernel_run demo_signals demo_boot (foldl (fun k o => op_run o k) demo_boot demo_signals).
Proof.
  unfold demo_signals. rewrite foldl_app. eapply kernel_run_app; [apply demo_run|].
  set (k := foldl _ demo_boot demo_calls). cbn [foldl].
  eapply kernel_run_cons; [split; vm_compute; reflexivity|].
  repeat (eapply kernel_run_cons; [exact I|]). constructor.
Qed.

Lemma signals_invariant_witness :
  let k := foldl (fun k o => op_run o k) demo_boot demo_signals in
  Forall (fun p => sig_ok (m_pending_signals p) (m_signal_mask p) (m_signal_handlers p)) (s_processes k)
  /\ (m_pending_signals <$> by_pid 3 k) = Some (2 ^ 18 + 2 ^ 9).
Proof.
  split; [|vm_compute; reflexivity].
  apply (signals_invariant demo_links demo_inodes 50 (sched_boot 1 2) (-1) demo_signals _
    demo_links_ok demo_only_links demo_signals_run).
Defined.

(** [take_pending_signal] takes the lowest signal that is pending and not blocked
    and nothing else, and takes none exactly when [has_pending_signals] says there
    is none. *)
Theorem take_lowest p :
  sig_ok (m_pending_signals p) (m_signal_mask p) (m_signal_handlers p) ->
  let '(s, p') := take_pending_signal p in
  has_pending_signals p = negb (s =? 0)
  /\ (s <> 0 -> 0 < s < NSIG
      /\ Z.testbit (m_pending_signals p) s = true /\ Z.testbit (m_signal_mask p) s = false
      /\ (forall i, 0 <= i < s -> Z.testbit (m_pending_signals p) i = true ->
          Z.testbit (m_signal_mask p) i = true)
      /\ forall i, 0 <= i < 64 -> Z.testbit (m_pending_signals p') i
         = negb (bool_decide (i = s)) && Z.testbit (m_pending_signals p) i)
  /\ p' = with_pending (m_pending_signals p') p.
Proof.
  intros Hp. pose proof (take_cases p Hp) as Hc. unfold has_pending_signals.
  assert (Hz : fst (take_pending_signal p) = 0 <-> deliverable p = 0).
  { unfold take_pending_signal. destruct (Z.eqb_spec (deliverable p) 0) as [|Hn]; [done|]. cbn [fst].
    split; [|done]. intros H0. pose proof (ctzll_spec _ (and_not_u64 _ _ : is_u64 (deliverable p)) Hn) as (_ & Hb & _).
    rewrite H0, deliverable_bit in Hb by done. apply andb_prop in Hb as [Hb _].
    pose proof (so_range _ _ _ Hp 0 ltac:(lia) Hb). lia. }
  destruct (take_pending_signal p) as [s p']. cbn [fst] in Hz. split; [|].
  - f_equal. apply eq_true_iff_eq. rewrite !Z.eqb_eq. tauto.
  - destruct Hc as [(-> & -> & _)|(H1 & H2 & H3 & H4 & H5 & H6)]; [split; [done|by destruct p]|].
    split; [|done]. intros _. exact (conj H1 (conj H2 (conj H3 (conj H4 H6)))).
Qed.

Lemma take_lowest_witness :
  let p := with_mask (2 ^ 2) (with_pending (2 ^ 2 + 2 ^ 9 + 2 ^ 15) (process_new 0 5)) in
  take_pending_signal p = (9, with_pending (2 ^ 2 + 2 ^ 15) p)
  /\ has_pending_signals p = negb (fst (take_pending_signal p) =? 0).
Proof.
  split; [vm_compute; reflexivity|].
  set (p := with_mask _ _).
  assert (Hok : sig_ok (m_pending_signals p) (m_signal_mask p) (m_signal_handlers p)).
  { split; try done. intros i Hi Hb. assert (Hu : is_u64 (m_pending_signals p)) by done.
    assert (Hl : Z.log2 (m_pending_signals p) = 15) by (vm_compute; reflexivity).
    destruct (Z.ltb_spec i 16); [|rewrite (Z.bits_above_log2 (m_pending_signals p)) in Hb; [done|done|lia]].
    destruct (decide (i = 0)) as [->|]; [done|]. unfold NSIG. lia. }
  pose proof (take_lowest p Hok) as Ht. destruct (take_pending_signal p) as [s p']. apply Ht.
Defined.

(** A process that is not stopped is woken if it sleeps, and its signal recorded. *)
Lemma raise_running pid s k p : by_pid pid k = Some p -> m_is_stopped p = false -> valid_signal s = true ->
  sched (raise_signal pid s k)
  = match m_main_thread p with
    | Some t => if bool_decide (state_of (sched k) t = Some Blocked \/ state_of (sched k) t = Some Sleeping)
                then unblock t (sched k) else sched k
    | None => sched k
    end
  /\ by_pid pid (raise_signal pid s k) = Some (record_signal s p).
Proof.
  intros Hp Hst Hv. unfold raise_signal. cbn [raise_at]. rewrite Hp, Hst, Hv. cbn [andb negb].
  assert (Hq : by_pid pid (upd_process pid (record_signal s) k) = Some (record_signal s p)).
  { apply by_pid_upd_eq; [done|]. exact (by_pid_pid pid k p Hp). }
  destruct (m_main_thread p) as [t|]; [|done].
  destruct (state_of (sched (upd_process pid (record_signal s) k)) t) as [st|] eqn:Es; cbn in Es; rewrite Es.
  - destruct st; (split; [|done]); case_bool_decide as Hb; (done || (exfalso; naive_solver)).
  - split; [|done]. case_bool_decide as Hb; [naive_solver|done].
Qed.

(** A pending SIGKILL stays pending under whatever is raised. *)
Definition doomed (p : Process) : Prop := Z.testbit (m_pending_signals p) SIGKILL = true.

Definition keeps_doom (k k' : Kernel) : Prop :=
  Forall2 (fun p q => m_pid q = m_pid p /\ (doomed p -> doomed q)) (s_processes k) (s_processes k').

#[export] Instance keeps_doom_preorder : PreOrder keeps_doom.
Proof.
  split.
  - intros k. apply Forall_Forall2_diag, list.Forall_forall. done.
  - intros k1 k2 k3. unfold keeps_doom. generalize (s_processes k1) (s_processes k2) (s_processes k3).
    intros l1 l2 l3 H. revert l3. induction H as [|p q l l' Hp _ IH]; intros l3 H3.
    + apply Forall2_nil_inv_l in H3 as ->. constructor.
    + apply Forall2_cons_inv_l in H3 as (r & l3' & Hq & H3 & ->). constructor; [|by apply IH].
      destruct Hp as [E1 ?], Hq as [E2 ?]. split; [congruence|tauto].
Qed.

Lemma keeps_doom_upd pid f k : (forall p, m_pid (f p) = m_pid p /\ (doomed p -> doomed (f p))) ->
  keeps_doom k (upd_process pid f k).
Proof.
  intros Hf. unfold keeps_doom; cbn. induction (s_processes k) as [|p l IH]; cbn; constructor; [|done].
  destruct (m_pid p =? pid); [apply Hf|done].
Qed.

Lemma doomed_record s p : doomed p -> doomed (record_signal s p).
Proof.
  unfold doomed, record_signal. intros Hd. cbn [with_pending m_pending_signals]. rewrite Z.lor_spec.
  apply orb_true_iff. left. destruct (s =? SIGCONT); [by rewrite and_not_bit, Hd by done|].
  destruct (has _ _); [by rewrite and_not_bit, Hd by done|done].
Qed.

Lemma raise_rest_doom depth pid s k p : (forall pid s k, keeps_doom k (raise_at depth pid s k)) ->
  valid_signal s = true -> by_pid pid k = Some p ->
  keeps_doom (upd_process pid (record_signal s) k) (raise_at (S depth) pid s k).
Proof.
  intros IH Hv Hp. cbn [raise_at]. rewrite Hv, Hp. cbn [negb].
  set (k1 := upd_process pid (record_signal s) k). destruct (_ && _).
  - unfold resume_with. destruct (by_pid pid k1) as [q|]; [|reflexivity].
    destruct (negb _); [reflexivity|].
    etransitivity; [apply (keeps_doom_upd pid (with_stop false 0 false true)); done|].
    set (k2 := upd_process pid (with_stop _ _ _ _) k1).
    assert (H1 : keeps_doom k2 (notify_parent (raise_at depth) pid k2)).
    { unfold notify_parent. destruct (by_pid pid k2); [|reflexivity]. destruct (by_pid _ k2); [|reflexivity].
      apply (IH _ SIGCHLD k2). }
    by destruct (m_main_thread q).
  - destruct (m_main_thread p) as [t|]; [|reflexivity].
    assert (Hu : keeps_doom k1 (upd_sched (unblock t) k1)) by (change (keeps_doom k1 k1); reflexivity).
    destruct (state_of (sched k1) t) as [[]|]; (reflexivity || exact Hu).
Qed.

Lemma raise_at_doom depth pid s k : keeps_doom k (raise_at depth pid s k).
Proof.
  revert pid s k. induction depth as [|depth IH]; intros pid s k; [reflexivity|].
  destruct (valid_signal s) eqn:Hv; [|cbn [raise_at]; rewrite Hv; reflexivity].
  destruct (by_pid pid k) as [p|] eqn:Hp; [|cbn [raise_at]; rewrite Hv, Hp; reflexivity].
  etransitivity; [apply (keeps_doom_upd pid (record_signal s)); split; [done|apply doomed_record]|].
  by apply (raise_rest_doom depth pid s k p).
Qed.

Lemma doomed_lookup k k' pid p : keeps_doom k k' -> by_pid pid k = Some p -> doomed p ->
  exists p', by_pid pid k' = Some p' /\ doomed p'.
Proof.
  unfold keeps_doom, by_pid. induction 1 as [|q q' l l' [Hpid Hd] _ IH]; [done|]. cbn. rewrite Hpid.
  destruct (m_pid q =? pid); [|done]. intros [= ->] Hp. exists q'. by split; [|apply Hd].
Qed.

Lemma doomed_pending p : sigs p -> doomed p -> has_pending_signals p = true.
Proof.
  intros Hp Hb. unfold has_pending_signals. apply negb_true_iff, Z.eqb_neq. intros H0.
  pose proof (deliverable_bit p SIGKILL Hp ltac:(done)) as Hd.
  unfold doomed in Hb. by rewrite H0, Hb, (so_kill _ _ _ Hp) in Hd.
Qed.

(** A stopped process is set going again by SIGKILL and SIGCONT. *)
Lemma raise_stopped pid s k p t st : by_pid pid k = Some p -> m_is_stopped p = true ->
  s = SIGCONT \/ s = SIGKILL -> m_main_thread p = Some t -> state_of (sched k) t = Some st ->
  state_of (sched (raise_signal pid s k)) t = Some Ready
  \/ state_of (sched (raise_signal pid s k)) t = Some Running.
Proof.
  intros Hp Hst Hs Hm Ht. unfold raise_signal. rewrite raise_at_S, Hp, Hst.
  assert (Hv : valid_signal s = true) by by destruct Hs as [->| ->].
  assert (Hc : ((s =? SIGCONT) || (s =? SIGKILL)) = true) by by destruct Hs as [->| ->].
  rewrite Hv, Hc. cbn [negb andb]. unfold resume_with.
  assert (Hq : by_pid pid (upd_process pid (record_signal s) k) = Some (record_signal s p)).
  { apply by_pid_upd_eq; [done|]. exact (by_pid_pid pid k p Hp). }
  rewrite Hq. change (m_is_stopped (record_signal s p)) with (m_is_stopped p).
  change (m_main_thread (record_signal s p)) with (m_main_thread p). rewrite Hst, Hm. cbn [negb].
  set (k2 := upd_process pid (with_stop _ _ _ _) _).
  assert (Hw : maybe_woken (sched k) (sched (notify_parent (raise_at 1) pid k2))).
  { unfold notify_parent. destruct (by_pid pid k2); [|apply maybe_woken_refl].
    destruct (by_pid _ k2) as [par|]; [|apply maybe_woken_refl].
    eapply maybe_woken_trans; [apply (raise_woken 1 (m_pid par) SIGCHLD k2)|apply maybe_woken_wake]. }
  cbn [upd_sched sched]. rewrite unblock_state, decide_True by done.
  destruct (Hw t st Ht) as [H|H]; rewrite H; cbn; by destruct st; cbn; auto.
Qed.


(** The kernel in which process 3 has stopped itself: its thread is number 4. *)
Definition demo_forks : list KOp := demo_calls ++ [OFork 1 (Some 53) (Ok tt) (Ok 4)].
Definition demo_stopped : Kernel :=
  stop 3 SIGSTOP (upd_sched (fun s => set_current 4 1 (set_state Running 4 (spawn 4 s)))
    (foldl (fun k o => op_run o k) demo_boot demo_forks)).

Lemma demo_forks_run : kernel_run demo_forks demo_boot (foldl (fun k o => op_run o k) demo_boot demo_forks).
Proof.
  unfold demo_forks. rewrite foldl_app. eapply kernel_run_app; [apply demo_run|].
  set (k := foldl _ demo_boot demo_calls). cbn [foldl].
  eapply kernel_run_cons; [split; vm_compute; reflexivity|constructor].
Qed.

Lemma all_sigs_sched f k : all_sigs k -> all_sigs (upd_sched f k).
Proof. by intros H. Qed.

Lemma demo_stopped_sigs : all_sigs demo_stopped.
Proof.
  apply stop_all_sigs, all_sigs_sched. pose proof demo_forks_run as H.
  revert H. generalize (foldl (fun k o => op_run o k) demo_boot demo_forks). intros k H.
  exact (kernel_run_sigs demo_links demo_forks demo_boot k demo_links_ok
    (boot_ok demo_links demo_inodes 50 (sched_boot 1 2) (-1) demo_only_links)
    (boot_all_sigs 50 demo_inodes (sched_boot 1 2) (-1)) H).
Qed.


(** What [raise_signal] with anything but SIGCONT and SIGKILL leaves of a process:
    the stop flag and the thread. *)
Lemma raise_keeps_stop depth q s k pid p : s <> SIGCONT -> s <> SIGKILL -> by_pid pid k = Some p ->
  exists p', by_pid pid (raise_at depth q s k) = Some p' /\ m_is_stopped p' = m_is_stopped p
    /\ m_main_thread p' = m_main_thread p.
Proof.
  intros Hc Hk Hp. destruct depth as [|depth]; [by exists p|]. rewrite raise_at_S.
  destruct (negb _); [by exists p|]. destruct (by_pid q k) as [r|]; [|by exists p].
  rewrite (proj2 (Z.eqb_neq s SIGCONT) Hc), (proj2 (Z.eqb_neq s SIGKILL) Hk), andb_false_r.
  assert (H : exists p', by_pid pid (upd_process q (record_signal s) k) = Some p'
     /\ m_is_stopped p' = m_is_stopped p /\ m_main_thread p' = m_main_thread p).
  { destruct (decide (q = pid)) as [->|Hn].
    - exists (record_signal s p). split; [|done]. apply by_pid_upd_eq; [done|]. exact (by_pid_pid pid k p Hp).
    - exists p. by rewrite by_pid_upd_ne. }
  destruct (m_main_thread r) as [t|]; [|done].
  set (k1 := upd_process _ _ _) in *. cbv zeta. destruct (state_of (sched k1) t) as [[]|]; exact H.
Qed.

Lemma notify_keeps_stop depth q k pid p : by_pid pid k = Some p ->
  exists p', by_pid pid (notify_parent (raise_at depth) q k) = Some p' /\ m_is_stopped p' = m_is_stopped p
    /\ m_main_thread p' = m_main_thread p.
Proof.
  intros Hp. unfold notify_parent. destruct (by_pid q k) as [c|]; [|by exists p].
  destruct (by_pid (m_parent_pid c) k) as [par|]; [|by exists p].
  by apply (raise_keeps_stop depth (m_pid par) SIGCHLD k pid p).
Qed.

Lemma stop_record_flag pid signal k p : by_pid pid k = Some p ->
  exists p', by_pid pid (stop_record pid signal k) = Some p' /\ m_is_stopped p' = true
    /\ m_main_thread p' = m_main_thread p.
Proof.
  intros Hp. apply (notify_keeps_stop 2 pid _ pid (with_stop true signal true false p)).
  apply by_pid_upd_eq; [done|]. exact (by_pid_pid pid k p Hp).
Qed.

Lemma continue_clears_flag pid k p : by_pid pid k = Some p -> m_is_stopped p = true ->
  exists p', by_pid pid (raise_signal pid SIGCONT k) = Some p' /\ m_is_stopped p' = false
    /\ m_main_thread p' = m_main_thread p.
Proof.
  intros Hp Hst. unfold raise_signal. rewrite raise_at_S, Hp, Hst. cbn [negb andb orb valid_signal].
  change (negb (valid_signal SIGCONT)) with false. change ((SIGCONT =? SIGCONT) || _) with true. cbn iota.
  assert (Hq : by_pid pid (upd_process pid (record_signal SIGCONT) k) = Some (record_signal SIGCONT p)).
  { apply by_pid_upd_eq; [done|]. exact (by_pid_pid pid k p Hp). }
  unfold resume_with. rewrite Hq. change (m_is_stopped (record_signal SIGCONT p)) with (m_is_stopped p).
  rewrite Hst. cbn [negb].
  set (k2 := upd_process pid (with_stop _ _ _ _) _).
  destruct (notify_keeps_stop 1 pid k2 pid (with_stop false 0 false true (record_signal SIGCONT p)))
    as (p' & H1 & H2 & H3).
  { apply by_pid_upd_eq; [done|]. exact (by_pid_pid pid k p Hp). }
  exists p'. split; [|by split]. destruct (m_main_thread (record_signal SIGCONT p)); exact H1.
Qed.

(** A thread that is stopped while its process is not marked so is never woken. *)
Lemma unmarked_stays pid t signals k p : by_pid pid k = Some p -> m_is_stopped p = false ->
  m_main_thread p = Some t -> state_of (sched k) t = Some Stopped ->
  state_of (sched (foldl (fun k s => raise_signal pid s k) k signals)) t = Some Stopped.
Proof.
  revert k p. induction signals as [|s l IH]; intros k p Hp Hf Hm Hs; [done|]. cbn [foldl].
  destruct (valid_signal s) eqn:Hv; [|unfold raise_signal at 2; rewrite raise_at_S, Hv; by apply (IH k p)].
  destruct (raise_running pid s k p Hp Hf Hv) as [H1 H2].
  apply (IH _ (record_signal s p)); [done|done|done|]. rewrite H1, Hm, Hs.
  by case_bool_decide as Hb; [naive_solver|].
Qed.

(** The race between [stop] and SIGCONT: when the signal arrives after [stop]
    has marked the process but before its thread sleeps, [resume] clears the mark
    and wakes nobody, and the thread then goes to sleep for good: no sequence of
    signals to the process, SIGKILL included, makes it runnable again.  [s1] and
    [s2] are what the scheduler did around the preemption. *)
Theorem stopped_for_ever k pid p t signal s1 s2 :
  by_pid pid k = Some p -> m_main_thread p = Some t ->
  current_thread s2 = t -> state_of s2 t = Some Running ->
  let k1 := upd_sched (fun _ => s1) (stop_record pid signal k) in
  let k2 := upd_sched (fun _ => s2) (raise_signal pid SIGCONT k1) in
  let k3 := stop_block pid k2 in
  forall signals, state_of (sched (foldl (fun k s => raise_signal pid s k) k3 signals)) t = Some Stopped.
Proof.
  intros Hp Hm Hc Hs k1 k2 k3 signals.
  destruct (stop_record_flag pid signal k p Hp) as (p1 & Hp1 & Hf1 & Hm1).
  destruct (continue_clears_flag pid k1 p1 Hp1 Hf1) as (p2 & Hp2 & Hf2 & Hm2).
  assert (Hk3 : k3 = upd_sched (block_current_mark Stopped) k2).
  { unfold k3, stop_block. replace (by_pid pid k2) with (Some p2) by (symmetry; exact Hp2).
    rewrite decide_True; [done|]. change (current_thread (sched k2)) with (current_thread s2). congruence. }
  apply (unmarked_stays pid t signals k3 p2); [by rewrite Hk3|done|congruence|].
  rewrite Hk3. cbn. unfold block_current_mark. rewrite Hc. unfold set_state.
  unfold state_of in *. destruct (threads s2 !! t) as [r|] eqn:Hr; [|done].
  unfold upd_thread; cbn. by rewrite lookup_alter, decide_True, Hr.
Qed.

Lemma stopped_for_ever_witness :
  let s := set_current 4 1 (set_state Running 4 (spawn 4 (sched_boot 1 2))) in
  let k := foldl (fun k o => op_run o k) demo_boot demo_forks in
  let k3 := stop_block 3 (upd_sched (fun _ => s)
    (raise_signal 3 SIGCONT (upd_sched (fun _ => s) (stop_record 3 SIGTSTP k)))) in
  (m_is_stopped <$> by_pid 3 k3) = Some false
  /\ state_of (sched (foldl (fun k s => raise_signal 3 s k) k3 [SIGKILL; SIGCONT])) 4 = Some Stopped.
Proof.
  intros s k k3. split; [vm_compute; reflexivity|].
  destruct (by_pid 3 k) as [p|] eqn:Hp; [|vm_compute in Hp; discriminate Hp].
  assert (Hm : m_main_thread p = Some 4) by (vm_compute in Hp; injection Hp as <-; reflexivity).
  assert (Hs : current_thread s = 4 /\ state_of s 4 = Some Running) by (split; vm_compute; reflexivity).
  destruct Hs as [Hc Hs]. clearbody k s.
  exact (stopped_for_ever k 3 p 4 SIGTSTP s s Hp Hm Hc Hs [SIGKILL; SIGCONT]).
Defined.


