(* ===== verification/AddressSpace.v ===== *)
(** * kernel/mm/address_space.cpp: page tables

    One address space is one tree of four levels of 512-entry tables in physical
    memory.  A table is named by its physical address, which is how the code
    reaches it through the direct map.  The section is about any frame allocator
    that keeps the promises of [FrameAllocator]; [Pmm] does.  The invariant says
    that every table has exactly one place in one space, so that changing an entry
    changes the meaning of one page and of no other address in any space. *)

From S2P Require Import Prelude Kstd Physical.

(** ** Constants *)

Definition PageFlags_Present : Z := Z.shiftl 1 0.
Definition PageFlags_Writable : Z := Z.shiftl 1 1.
Definition PageFlags_User : Z := Z.shiftl 1 2.
Definition PageFlags_CacheDisable : Z := Z.shiftl 1 4.
Definition PageFlags_Huge : Z := Z.shiftl 1 7.
Definition PageFlags_Global : Z := Z.shiftl 1 8.
Definition PageFlags_Foreign : Z := Z.shiftl 1 9.
Definition PageFlags_NoExecute : Z := Z.shiftl 1 63.

Definition has_flag (value flag : Z) : bool := negb (Z.land value flag =? 0).

Definition ADDRESS_MASK : Z := 0x000FFFFFFFFFF000.
Definition ENTRIES_PER_TABLE : Z := 512.
Definition HUGE_PAGE_SIZE : Z := 2 * 1024 * 1024.
Definition MINIMUM_HHDM_SIZE : Z := 4 * 1024 * 1024 * 1024.
Definition USER_SPACE_END : Z := 0x0000800000000000.
Definition MMIO_WINDOW_BASE : Z := 0xFFFFC00000000000.
Definition MMIO_WINDOW_SIZE : Z := 0x0000010000000000.
Definition MODULE_WINDOW_BASE : Z := 0xFFFFFFFF90000000.
Definition MODULE_WINDOW_SIZE : Z := 0x0000000010000000.
Definition KERNEL_VMA : Z := 0xFFFFFFFF80000000.

Definition index_of (address level : Z) : Z :=
  Z.land (Z.shiftr address (12 + 9 * (level - 1))) 0x1FF.

Definition table_at (entry : Z) : Z := Z.land entry ADDRESS_MASK.

(** ** State *)

(** Physical memory is its 64-bit words, by physical address.  [spaces] holds the
    live [AddressSpace] objects: [m_root] and [m_resident_pages]. *)
Record Vm {F : Type} := mkVm {
  frames : F;
  mem : Z -> Z;
  spaces : gmap Z Z;
  s_kernel_space : Z;
  s_mmio_next : Z;
  s_module_next : Z;
  cr3 : Z;
}.
#[global] Arguments Vm : clear implicits.

(** How a walk from the root ends: at a table of level 1, at a huge entry of a
    level above, or at an entry that is not present. *)
Inductive Walk := LeafTable (table : Z) | HugeAt (level entry : Z) | Missing.

Section Operations.
Context {F : Type} {FA : FrameAllocator F}.
Implicit Types s : Vm F.

Definition with_frames (f : F) (s : Vm F) : Vm F :=
  mkVm F f (mem s) (spaces s) (s_kernel_space s) (s_mmio_next s) (s_module_next s) (cr3 s).
Definition with_mem (m : Z -> Z) (s : Vm F) : Vm F :=
  mkVm F (frames s) m (spaces s) (s_kernel_space s) (s_mmio_next s) (s_module_next s) (cr3 s).
Definition with_spaces (g : gmap Z Z) (s : Vm F) : Vm F :=
  mkVm F (frames s) (mem s) g (s_kernel_space s) (s_mmio_next s) (s_module_next s) (cr3 s).
Definition with_kernel_space (root : Z) (s : Vm F) : Vm F :=
  mkVm F (frames s) (mem s) (spaces s) root (s_mmio_next s) (s_module_next s) (cr3 s).
Definition with_mmio_next (a : Z) (s : Vm F) : Vm F :=
  mkVm F (frames s) (mem s) (spaces s) (s_kernel_space s) a (s_module_next s) (cr3 s).
Definition with_module_next (a : Z) (s : Vm F) : Vm F :=
  mkVm F (frames s) (mem s) (spaces s) (s_kernel_space s) (s_mmio_next s) a (cr3 s).
Definition with_cr3 (root : Z) (s : Vm F) : Vm F :=
  mkVm F (frames s) (mem s) (spaces s) (s_kernel_space s) (s_mmio_next s) (s_module_next s) root.

Definition entry_of (s : Vm F) (table index : Z) : Z := mem s (table + 8 * index).
Definition set_entry (table index value : Z) (s : Vm F) : Vm F :=
  with_mem (fun a => if a =? table + 8 * index then value else mem s a) s.

(** The page at [page] filled with zeroes, and with the contents of another. *)
Definition in_page (page a : Z) : bool := (page <=? a) && (a <? page + PAGE_SIZE).
Definition zero_page (page : Z) (s : Vm F) : Vm F :=
  with_mem (fun a => if in_page page a then 0 else mem s a) s.
Definition copy_page (to from : Z) (s : Vm F) : Vm F :=
  with_mem (fun a => if in_page to a then mem s (from + (a - to)) else mem s a) s.

Definition add_resident (root n : Z) (s : Vm F) : Vm F :=
  with_spaces (alter (fun r => u64 (r + n)) root (spaces s)) s.

(** The calls into the frame allocator. *)
Definition on_frames {A} (m : M F A) : M (Vm F) A := fun s =>
  let '(r, f) := m (frames s) in (r, with_frames f s).
Definition allocate_frame : M (Vm F) Z := on_frames fa_allocate.
Definition free_frame (page : Z) : M (Vm F) unit := on_frames (fa_free page).

Definition allocate_zeroed_page : M (Vm F) Z :=
  let! page := allocate_frame in
  mmod (zero_page page) ;! mok page.

(** ** Walking *)

Fixpoint walk_from (s : Vm F) (level : nat) (table address : Z) : Walk :=
  match level with
  | S (S _ as below) =>
      let entry := entry_of s table (index_of address (Z.of_nat level)) in
      if negb (has_flag entry PageFlags_Present) then Missing
      else if has_flag entry PageFlags_Huge then HugeAt (Z.of_nat level) entry
      else walk_from s below (table_at entry) address
  | _ => LeafTable table
  end.

Definition walk_to_leaf_table (s : Vm F) (m_root address : Z) : option Z :=
  match walk_from s 4 m_root address with
  | LeafTable table => Some table
  | _ => None
  end.

Definition translate (s : Vm F) (m_root address : Z) : Res Z :=
  match walk_from s 4 m_root address with
  | Missing => Err EFAULT
  | HugeAt level entry =>
      let size := Z.shiftl 1 (12 + 9 * (level - 1)) in
      Ok (Z.land entry ADDRESS_MASK + Z.land address (size - 1))
  | LeafTable table =>
      let entry := entry_of s table (index_of address 1) in
      if negb (has_flag entry PageFlags_Present) then Err EFAULT
      else Ok (Z.land entry ADDRESS_MASK + Z.land address (PAGE_SIZE - 1))
  end.

Definition is_mapped (s : Vm F) (m_root address : Z) : bool :=
  match translate s m_root address with Err _ => false | _ => true end.

Definition query (s : Vm F) (m_root address : Z) : Res Z :=
  match walk_from s 4 m_root address with
  | Missing => Err EFAULT
  | HugeAt _ entry => Ok (Z.land entry (u64 (Z.lnot ADDRESS_MASK)))
  | LeafTable table =>
      let entry := entry_of s table (index_of address 1) in
      if negb (has_flag entry PageFlags_Present) then Err EFAULT
      else Ok (Z.land entry (u64 (Z.lnot ADDRESS_MASK)))
  end.

(** The pages a range of addresses touches, as every loop of the file counts them. *)
Definition range_start (address : Z) : Z := align_down address PAGE_SIZE.
Definition range_end (address length : Z) : Z := align_up (u64 (address + length)) PAGE_SIZE.
Definition page_count (first last : Z) : nat := Z.to_nat ((last - first) / PAGE_SIZE).

Definition user_page_ok (s : Vm F) (m_root : Z) (for_write : bool) (page_address : Z) : bool :=
  match walk_to_leaf_table s m_root page_address with
  | None => false
  | Some pt =>
      let entry := entry_of s pt (index_of page_address 1) in
      has_flag entry PageFlags_Present && has_flag entry PageFlags_User
      && negb (for_write && negb (has_flag entry PageFlags_Writable))
  end.

Fixpoint all_pages (n : nat) (page_address : Z) (ok : Z -> bool) : bool :=
  match n with
  | O => true
  | S n' => ok page_address && all_pages n' (page_address + PAGE_SIZE) ok
  end.

Definition validate_user_range (s : Vm F) (m_root address length : Z) (for_write : bool) : bool :=
  if (u64 (address + length) <? address) || (u64 (address + length) >? USER_SPACE_END) then false
  else if length =? 0 then true
  else
    let first := range_start address in
    let last := range_end address length in
    all_pages (page_count first last) first (user_page_ok s m_root for_write).

(** ** Mapping *)

Definition ensure_table (table index : Z) (user_accessible : bool) : M (Vm F) Z :=
  let! s := mget in
  (if negb (has_flag (entry_of s table index) PageFlags_Present) then
     let! page := allocate_zeroed_page in
     mmod (set_entry table index (Z.lor (Z.lor page PageFlags_Present) PageFlags_Writable))
   else mok tt) ;!
  (if user_accessible then
     mmod (fun s => set_entry table index (Z.lor (entry_of s table index) PageFlags_User) s)
   else mok tt) ;!
  let! s := mget in
  if has_flag (entry_of s table index) PageFlags_Huge then merr EEXIST
  else mok (table_at (entry_of s table index)).

Definition map (m_root address page flags : Z) : M (Vm F) unit :=
  let virtual_address := align_down address PAGE_SIZE in
  let user := has_flag flags PageFlags_User in
  let! pdpt := ensure_table m_root (index_of virtual_address 4) user in
  let! pd := ensure_table pdpt (index_of virtual_address 3) user in
  let! pt := ensure_table pd (index_of virtual_address 2) user in
  let! s := mget in
  if has_flag (entry_of s pt (index_of virtual_address 1)) PageFlags_Present then merr EEXIST
  else
    mmod (set_entry pt (index_of virtual_address 1)
      (Z.lor (Z.land page ADDRESS_MASK) (Z.lor flags PageFlags_Present))) ;!
    mmod (add_resident m_root 1).

Definition map_range (m_root address base length flags : Z) : M (Vm F) unit :=
  let first := range_start address in
  let last := range_end address length in
  mfor (page_count first last) 0 PAGE_SIZE (fun offset =>
    map m_root (first + offset) (u64 (base + offset)) flags).

Definition unmap (m_root address : Z) (s : Vm F) : Vm F :=
  let virtual_address := align_down address PAGE_SIZE in
  match walk_to_leaf_table s m_root virtual_address with
  | None => s
  | Some pt =>
      if negb (has_flag (entry_of s pt (index_of virtual_address 1)) PageFlags_Present) then s
      else add_resident m_root (-1) (set_entry pt (index_of virtual_address 1) 0 s)
  end.

Definition unmap_range (m_root address length : Z) : M (Vm F) unit :=
  let first := range_start address in
  let last := range_end address length in
  mfor (page_count first last) first PAGE_SIZE (fun page_address => mmod (unmap m_root page_address)).

Definition map_anonymous (m_root address length flags : Z) : M (Vm F) unit :=
  let first := range_start address in
  let last := range_end address length in
  mfor (page_count first last) first PAGE_SIZE (fun page_address =>
    let! s := mget in
    if is_mapped s m_root page_address then mok tt
    else
      let! frame_or_error := mcatch allocate_zeroed_page in
      match frame_or_error with
      | inr code => unmap_range m_root first (page_address - first) ;! merr code
      | inl frame =>
          let! result := mcatch (map m_root page_address frame flags) in
          match result with
          | inr code =>
              free_frame frame ;! unmap_range m_root first (page_address - first) ;! merr code
          | inl _ => mok tt
          end
      end).

Definition protect (m_root address length flags : Z) : M (Vm F) unit :=
  let first := range_start address in
  let last := range_end address length in
  mfor (page_count first last) first PAGE_SIZE (fun page_address =>
    let! s := mget in
    match walk_to_leaf_table s m_root page_address with
    | None => merr EFAULT
    | Some pt =>
        let entry := entry_of s pt (index_of page_address 1) in
        if negb (has_flag entry PageFlags_Present) then merr EFAULT
        else mmod (set_entry pt (index_of page_address 1)
               (Z.lor (Z.land entry ADDRESS_MASK) (Z.lor flags PageFlags_Present)))
    end).

Definition activate (m_root : Z) (s : Vm F) : Vm F := with_cr3 m_root s.

(** ** Tearing down and copying *)

Definition present (e : Z) : bool := has_flag e PageFlags_Present.

Definition destroy_pt (pt : Z) : M (Vm F) unit :=
  mfor 512 0 1 (fun pt_index =>
    let! s := mget in
    let pt_entry := entry_of s pt pt_index in
    if negb (present pt_entry) then mok tt
    else if has_flag pt_entry PageFlags_Foreign then mok tt
    else free_frame (Z.land pt_entry ADDRESS_MASK)).

Definition destroy_pd (pd : Z) : M (Vm F) unit :=
  mfor 512 0 1 (fun pd_index =>
    let! s := mget in
    let pd_entry := entry_of s pd pd_index in
    if negb (present pd_entry) then mok tt
    else if negb (has_flag pd_entry PageFlags_Huge) then
      destroy_pt (table_at pd_entry) ;! free_frame (Z.land pd_entry ADDRESS_MASK)
    else mok tt).

Definition destroy_pdpt (pdpt : Z) : M (Vm F) unit :=
  mfor 512 0 1 (fun pdpt_index =>
    let! s := mget in
    let pdpt_entry := entry_of s pdpt pdpt_index in
    if negb (present pdpt_entry) then mok tt
    else destroy_pd (table_at pdpt_entry) ;! free_frame (Z.land pdpt_entry ADDRESS_MASK)).

Definition destroy_user_mappings (m_root : Z) : M (Vm F) unit :=
  mfor 256 0 1 (fun pml4_index =>
    let! s := mget in
    let pml4_entry := entry_of s m_root pml4_index in
    if negb (present pml4_entry) then mok tt
    else
      destroy_pdpt (table_at pml4_entry) ;!
      free_frame (Z.land pml4_entry ADDRESS_MASK) ;!
      mmod (set_entry m_root pml4_index 0)) ;!
  mmod (fun s => with_spaces (alter (fun _ => 0) m_root (spaces s)) s).

(** [object] says whether [new AddressSpace] found memory for the object; a space
    is named by its root.  The kernel's half is shared by copying its entries. *)
Definition share_kernel_half (root : Z) (s : Vm F) : Vm F :=
  for_up 256 256 (fun i s => set_entry root i (entry_of s (s_kernel_space s) i) s) s.

Definition create_user_space (object : bool) : M (Vm F) Z :=
  let! root := allocate_zeroed_page in
  mmod (share_kernel_half root) ;!
  if object then mmod (fun s => with_spaces (<[root := 0]> (spaces s)) s) ;! mok root
  else free_frame root ;! merr ENOMEM.

(** [kfree(copy)] after [destroy_user_mappings]. *)
Definition drop_copy (copy : Z) : M (Vm F) unit :=
  destroy_user_mappings copy ;! mmod (fun s => with_spaces (delete copy (spaces s)) s).

Definition clone_page (copy address pt_entry : Z) : M (Vm F) unit :=
  let flags := Z.land pt_entry (u64 (Z.lnot ADDRESS_MASK)) in
  if has_flag pt_entry PageFlags_Foreign then
    let frame := Z.land pt_entry ADDRESS_MASK in
    let! mapped := mcatch (map copy address frame flags) in
    match mapped with
    | inr code => drop_copy copy ;! merr code
    | inl _ => mok tt
    end
  else
    let! frame := mcatch allocate_frame in
    match frame with
    | inr code => drop_copy copy ;! merr code
    | inl frame =>
        mmod (copy_page frame (Z.land pt_entry ADDRESS_MASK)) ;!
        let! mapped := mcatch (map copy address frame flags) in
        match mapped with
        | inr code => free_frame frame ;! drop_copy copy ;! merr code
        | inl _ => mok tt
        end
    end.

Definition clone_pt (copy pt pml4_index pdpt_index pd_index : Z) : M (Vm F) unit :=
  mfor 512 0 1 (fun pt_index =>
    let! s := mget in
    let pt_entry := entry_of s pt pt_index in
    if negb (present pt_entry) then mok tt
    else
      let address := Z.lor (Z.lor (Z.lor (Z.shiftl pml4_index 39) (Z.shiftl pdpt_index 30))
                       (Z.shiftl pd_index 21)) (Z.shiftl pt_index 12) in
      clone_page copy address pt_entry).

Definition clone_pd (copy pd pml4_index pdpt_index : Z) : M (Vm F) unit :=
  mfor 512 0 1 (fun pd_index =>
    let! s := mget in
    let pd_entry := entry_of s pd pd_index in
    if negb (present pd_entry) || has_flag pd_entry PageFlags_Huge then mok tt
    else clone_pt copy (Z.land pd_entry ADDRESS_MASK) pml4_index pdpt_index pd_index).

Definition clone_pdpt (copy pdpt pml4_index : Z) : M (Vm F) unit :=
  mfor 512 0 1 (fun pdpt_index =>
    let! s := mget in
    let pdpt_entry := entry_of s pdpt pdpt_index in
    if negb (present pdpt_entry) then mok tt
    else clone_pd copy (Z.land pdpt_entry ADDRESS_MASK) pml4_index pdpt_index).

Definition clone_user_space (m_root : Z) (object : bool) : M (Vm F) Z :=
  let! copy := create_user_space object in
  mfor 256 0 1 (fun pml4_index =>
    let! s := mget in
    let pml4_entry := entry_of s m_root pml4_index in
    if negb (present pml4_entry) then mok tt
    else clone_pdpt copy (Z.land pml4_entry ADDRESS_MASK) pml4_index) ;!
  mok copy.

(** ** The kernel's windows *)

Definition map_mmio (base length : Z) : M (Vm F) Z :=
  if length =? 0 then merr EINVAL else
  let! s := mget in
  let page_offset := Z.land base (PAGE_SIZE - 1) in
  let aligned_base := align_down base PAGE_SIZE in
  let mapped_length := align_up (u64 (length + page_offset)) PAGE_SIZE in
  if u64 (s_mmio_next s + mapped_length) >? MMIO_WINDOW_BASE + MMIO_WINDOW_SIZE then merr ENOMEM
  else
    let window := s_mmio_next s in
    let flags := Z.lor (Z.lor (Z.lor (Z.lor PageFlags_Present PageFlags_Writable) PageFlags_NoExecute)
                   PageFlags_CacheDisable) PageFlags_Global in
    map_range (s_kernel_space s) window aligned_base mapped_length flags ;!
    mmod (fun s => with_mmio_next (u64 (s_mmio_next s + mapped_length)) s) ;!
    mok (u64 (window + page_offset)).

Definition unmap_mmio (address length : Z) : M (Vm F) unit :=
  let! s := mget in
  unmap_range (s_kernel_space s) (align_down address PAGE_SIZE) length.

Definition allocate_module_memory (length : Z) : M (Vm F) Z :=
  if length =? 0 then merr EINVAL else
  let! s := mget in
  let rounded := align_up length PAGE_SIZE in
  if u64 (s_module_next s + rounded) >? MODULE_WINDOW_BASE + MODULE_WINDOW_SIZE then merr ENOMEM
  else
    let base := s_module_next s in
    let flags := Z.lor (Z.lor (Z.lor PageFlags_Present PageFlags_Writable) PageFlags_NoExecute)
                   PageFlags_Global in
    map_anonymous (s_kernel_space s) base rounded flags ;!
    mmod (fun s => with_module_next (u64 (s_module_next s + rounded)) s) ;!
    mok base.

Definition free_module_memory (address length : Z) : M (Vm F) unit :=
  let! s := mget in
  let space := s_kernel_space s in
  let first := align_down address PAGE_SIZE in
  let rounded := align_up length PAGE_SIZE in
  mfor (page_count first (u64 (first + rounded))) first PAGE_SIZE (fun page_address =>
    let! s := mget in
    let frame := translate s space page_address in
    mmod (unmap space page_address) ;!
    match frame with
    | Ok frame => free_frame (align_down frame PAGE_SIZE)
    | _ => mok tt
    end).
End Operations.

(** ** Entries: an address and flags in one word *)

Lemma mask_bit i : 0 <= i -> Z.testbit ADDRESS_MASK i = (12 <=? i) && (i <? 52).
Proof.
  intros Hi. replace ADDRESS_MASK with (Z.shiftl (Z.ones 40) 12) by done. rewrite Z.shiftl_spec by done.
  destruct (Z.leb_spec 12 i), (Z.ltb_spec i 52); cbn.
  - by rewrite Z.ones_spec_low by lia.
  - by rewrite Z.ones_spec_high by lia.
  - by rewrite Z.testbit_neg_r by lia.
  - by rewrite Z.testbit_neg_r by lia.
Qed.

Definition frame_ok (a : Z) : Prop := 0 <= a < 2 ^ 52 /\ a mod PAGE_SIZE = 0.

Lemma frame_bit a i : frame_ok a -> 0 <= i -> i < 12 \/ 52 <= i -> Z.testbit a i = false.
Proof.
  intros [Ha Hm] Hi [H|H].
  - rewrite (Z.div_mod a PAGE_SIZE) by done. rewrite Hm, Z.add_0_r. change PAGE_SIZE with (2 ^ 12).
    rewrite Z.mul_comm. apply Z.mul_pow2_bits_low. lia.
  - destruct (decide (a = 0)) as [->|]; [apply Z.bits_0|].
    apply Z.bits_above_log2; [lia|]. assert (Z.log2 a < 52) by (apply Z.log2_lt_pow2; lia). lia.
Qed.

Lemma frame_masked a : frame_ok a -> Z.land a ADDRESS_MASK = a.
Proof.
  intros Ha. apply Z.bits_inj'. intros i Hi. rewrite Z.land_spec, mask_bit by done.
  destruct (Z.leb_spec 12 i), (Z.ltb_spec i 52); cbn; rewrite ?andb_true_r, ?andb_false_r; try done;
    symmetry; apply frame_bit; (done || lia).
Qed.

Lemma table_at_ok e : frame_ok (table_at e).
Proof.
  unfold table_at. split.
  - split; [by apply Z.land_nonneg; right|].
    assert (Hle : Z.land e ADDRESS_MASK <= ADDRESS_MASK).
    { apply Z.ldiff_le; [done|]. apply Z.bits_inj'. intros i Hi.
      rewrite Z.ldiff_spec, Z.land_spec, Z.bits_0. by destruct (Z.testbit e i), (Z.testbit ADDRESS_MASK i). }
    unfold ADDRESS_MASK in *. lia.
  - change PAGE_SIZE with (2 ^ 12). rewrite <- Z.land_ones by done. apply Z.bits_inj'. intros i Hi.
    rewrite !Z.land_spec, mask_bit, Z.bits_0 by done.
    destruct (Z.leb_spec 12 i); [rewrite Z.ones_spec_high by lia|]; cbn; by rewrite ?andb_false_r.
Qed.

Lemma has_flag_bit e k : 0 <= k -> has_flag e (Z.shiftl 1 k) = Z.testbit e k.
Proof.
  intros Hk. unfold has_flag. destruct (Z.eqb_spec (Z.land e (Z.shiftl 1 k)) 0) as [H|H]; cbn.
  - assert (Hb : Z.testbit (Z.land e (Z.shiftl 1 k)) k = false) by (rewrite H; apply Z.bits_0).
    by rewrite Z.land_spec, testbit_one_shift, bool_decide_eq_true_2, andb_true_r in Hb by done.
  - symmetry. apply not_false_is_true. intros Hb. apply H, Z.bits_inj'. intros i Hi.
    rewrite Z.land_spec, testbit_one_shift, Z.bits_0 by done.
    destruct (decide (k = i)) as [->|]; [by rewrite Hb|]. by rewrite bool_decide_eq_false_2, andb_false_r.
Qed.

(** The flag bits are outside the address. *)
Definition flag_bit (k : Z) : Prop := 0 <= k < 12 \/ k = 63.

Lemma table_at_lor a f : frame_ok a -> Z.land f ADDRESS_MASK = 0 -> table_at (Z.lor a f) = a.
Proof.
  intros Ha Hf. unfold table_at. rewrite Z.land_lor_distr_l, Hf, Z.lor_0_r. by apply frame_masked.
Qed.

Lemma flag_lor a f k : frame_ok a -> flag_bit k -> has_flag (Z.lor a f) (Z.shiftl 1 k) = has_flag f (Z.shiftl 1 k).
Proof.
  intros Ha Hk. rewrite !has_flag_bit by (destruct Hk; lia). rewrite Z.lor_spec.
  by rewrite (frame_bit a k Ha) by (destruct Hk; lia).
Qed.

Lemma flag_lor_or e f k : 0 <= k ->
  has_flag (Z.lor e f) (Z.shiftl 1 k) = has_flag e (Z.shiftl 1 k) || has_flag f (Z.shiftl 1 k).
Proof. intros Hk. rewrite !has_flag_bit by done. apply Z.lor_spec. Qed.

Lemma table_at_lor_flag e f : Z.land f ADDRESS_MASK = 0 -> table_at (Z.lor e f) = table_at e.
Proof. intros Hf. unfold table_at. by rewrite Z.land_lor_distr_l, Hf, Z.lor_0_r. Qed.

(** ** Addresses: four indices and an offset *)

(** The part of an address above the entries of a table of level [l]; at level 0
    it is the number of the page. *)
Definition prefix (address l : Z) : Z := (address / 2 ^ (12 + 9 * l)) mod 2 ^ (36 - 9 * l).
Definition vpn (address : Z) : Z := prefix address 0.

Lemma index_of_mod address l : 1 <= l -> index_of address l = (address / 2 ^ (12 + 9 * (l - 1))) mod 512.
Proof.
  intros Hl. unfold index_of. change 0x1FF with (Z.ones 9). rewrite Z.land_ones by done.
  by rewrite Z.shiftr_div_pow2 by lia.
Qed.

Lemma index_of_range address l : 1 <= l -> 0 <= index_of address l < 512.
Proof. intros Hl. rewrite index_of_mod by done. by apply Z.mod_pos_bound. Qed.

Lemma prefix_step address l : 1 <= l <= 4 ->
  prefix address (l - 1) = prefix address l * 512 + index_of address l.
Proof.
  intros Hl. rewrite index_of_mod by lia. unfold prefix.
  replace (36 - 9 * (l - 1)) with (9 + (36 - 9 * l)) by lia.
  rewrite (Z.pow_add_r 2 9 (36 - 9 * l)) by lia. rewrite Z.rem_mul_r by lia.
  replace (12 + 9 * l) with (12 + 9 * (l - 1) + 9) by lia.
  rewrite (Z.pow_add_r 2 (12 + 9 * (l - 1)) 9) by lia. rewrite <- Z.div_div by lia.
  change (2 ^ 9) with 512. lia.
Qed.

Lemma prefix_div address l : 1 <= l <= 4 -> prefix address (l - 1) / 512 = prefix address l.
Proof. intros Hl. rewrite prefix_step by done. pose proof (index_of_range address l). zlia. Qed.

Lemma prefix_mod address l : 1 <= l <= 4 -> prefix address (l - 1) mod 512 = index_of address l.
Proof. intros Hl. rewrite prefix_step by done. pose proof (index_of_range address l). zlia. Qed.

Lemma prefix_top address : prefix address 4 = 0.
Proof. unfold prefix. by rewrite Z.mod_1_r. Qed.

(** Two addresses of the same page have the same indices at every level. *)
Lemma same_vpn_prefix a b l : vpn a = vpn b -> 0 <= l <= 4 -> prefix a l = prefix b l.
Proof.
  intros Hv Hl. assert (H1 : prefix a 1 = prefix b 1) by (rewrite <- !(prefix_div _ 1) by lia; by f_equal).
  assert (H2 : prefix a 2 = prefix b 2) by (rewrite <- !(prefix_div _ 2) by lia; by f_equal).
  assert (H3 : prefix a 3 = prefix b 3) by (rewrite <- !(prefix_div _ 3) by lia; by f_equal).
  assert (l = 0 \/ l = 1 \/ l = 2 \/ l = 3 \/ l = 4) as [->|[->|[->|[->| ->]]]] by lia; try done.
  by rewrite !prefix_top.
Qed.

Lemma same_vpn_index a b l : vpn a = vpn b -> 1 <= l <= 4 -> index_of a l = index_of b l.
Proof. intros Hv Hl. rewrite <- !prefix_mod by done. f_equal. apply same_vpn_prefix; [done|lia]. Qed.
