(* ===== verification/PageTables.v ===== *)
(** * The page tables of every space at once

    [Place] is where a frame stands: which space it belongs to, at which level of
    the tree and below which prefix of the virtual address.  [vm_inv] says that the
    tables in memory and the map of places describe each other, that every space
    shares the kernel's half, and that nothing placed is free. *)

From S2P Require Import Prelude Kstd Physical AddressSpace.

Record Place := mkPlace { p_space : Z; p_level : Z; p_prefix : Z }.

#[export] Instance Place_eq_dec : EqDecision Place.
Proof. solve_decision. Defined.

Section Invariant.
Context {F : Type} {FA : FrameAllocator F}.
Implicit Types (s : Vm F) (T : gmap Z Place).

(** The owner of what hangs below entry [i] of a table of level [l] of [sp]: the
    upper half of a root leads to the kernel's tables. *)
Definition owner s (sp l i : Z) : Z :=
  if (l =? 4) && (256 <=? i) then s_kernel_space s else sp.

(** A frame the space itself gives back: not somebody else's, not the kernel's. *)
Definition tracked s (sp e : Z) : bool :=
  negb (sp =? s_kernel_space s) && negb (has_flag e PageFlags_Foreign).

Definition child_ok s T (sp l pre i e : Z) : Prop :=
  if l =? 1 then tracked s sp e = true -> T !! table_at e = Some (mkPlace sp 0 (pre * 512 + i))
  else if has_flag e PageFlags_Huge then sp = s_kernel_space s /\ l < 4
  else T !! table_at e = Some (mkPlace (owner s sp l i) (l - 1) (pre * 512 + i)).

Definition live s (r : Z) : Prop := is_Some (spaces s !! r).

Record vm_inv s T : Prop := {
  vi_frames : fa_ok (frames s);
  vi_owned : forall f p, T !! f = Some p -> fa_owned (frames s) f;
  vi_level : forall f p, T !! f = Some p -> 0 <= p_level p <= 4;
  vi_child : forall t sp l pre i, T !! t = Some (mkPlace sp l pre) -> 1 <= l -> 0 <= i < 512 ->
    present (entry_of s t i) = true -> child_ok s T sp l pre i (entry_of s t i);
  vi_parent : forall f sp l pre, T !! f = Some (mkPlace sp l pre) -> l < 4 ->
    exists t, T !! t = Some (mkPlace sp (l + 1) (pre / 512))
      /\ let e := entry_of s t (pre mod 512) in
         present e = true /\ table_at e = f
         /\ if l =? 0 then tracked s sp e = true else has_flag e PageFlags_Huge = false;
  vi_root : forall f sp pre, T !! f = Some (mkPlace sp 4 pre) -> sp = f /\ pre = 0 /\ live s f;
  vi_spaces : forall r, live s r -> T !! r = Some (mkPlace r 4 0);
  vi_kernel : live s (s_kernel_space s);
  vi_upper : forall r i, live s r -> 256 <= i < 512 ->
    present (entry_of s r i) = true /\ has_flag (entry_of s r i) PageFlags_Huge = false
    /\ table_at (entry_of s r i) = table_at (entry_of s (s_kernel_space s) i);
}.

(** ** What an address means *)

(** The present entry a walk ends at, with its level. *)
Definition leaf s (r address : Z) : option (Z * Z) :=
  match walk_from s 4 r address with
  | Missing => None
  | HugeAt level e => Some (level, e)
  | LeafTable t => let e := entry_of s t (index_of address 1) in
                   if present e then Some (1, e) else None
  end.

Lemma translate_leaf s r address : translate s r address =
  match leaf s r address with
  | None => Err EFAULT
  | Some (level, e) => Ok (table_at e + Z.land address (Z.shiftl 1 (12 + 9 * (level - 1)) - 1))
  end.
Proof.
  unfold translate, leaf, present. destruct (walk_from s 4 r address); [|done|done].
  by destruct (has_flag _ PageFlags_Present).
Qed.

Lemma query_leaf s r address : query s r address =
  match leaf s r address with
  | None => Err EFAULT
  | Some (_, e) => Ok (Z.land e (u64 (Z.lnot ADDRESS_MASK)))
  end.
Proof.
  unfold query, leaf, present. destruct (walk_from s 4 r address); [|done|done].
  by destruct (has_flag _ PageFlags_Present).
Qed.

Lemma is_mapped_leaf s r address : is_mapped s r address = bool_decide (is_Some (leaf s r address)).
Proof.
  unfold is_mapped. rewrite translate_leaf. destruct (leaf s r address) as [[l e]|].
  - by rewrite bool_decide_eq_true_2.
  - rewrite bool_decide_eq_false_2; [done|]. by intros [? ?].
Qed.

(** ** Memory *)

Lemma place_frame s T t p : vm_inv s T -> T !! t = Some p -> frame_ok t.
Proof. intros Hi Ht. exact (fa_owned_range (frames s) t (vi_frames s T Hi) (vi_owned s T Hi t p Ht)). Qed.

Lemma slot_inj t i t' i' : frame_ok t -> frame_ok t' -> 0 <= i < 512 -> 0 <= i' < 512 ->
  t + 8 * i = t' + 8 * i' -> t = t' /\ i = i'.
Proof. intros [_ H1] [_ H2] Hi Hi' H. unfold PAGE_SIZE in *. zlia. Qed.

Lemma slot_ne (u t j i : Z) : ~ (u = t /\ j = i) -> u <> t \/ j <> i.
Proof. lia. Qed.

Lemma slot_set_eq s t i v : entry_of (set_entry t i v s) t i = v.
Proof. unfold entry_of; cbn. by rewrite Z.eqb_refl. Qed.

Lemma slot_set_ne s t i v t' i' : frame_ok t -> frame_ok t' -> 0 <= i < 512 -> 0 <= i' < 512 ->
  t' <> t \/ i' <> i -> entry_of (set_entry t i v s) t' i' = entry_of s t' i'.
Proof.
  intros Ht Ht' Hi Hi' Hne. unfold entry_of; cbn. destruct (Z.eqb_spec (t' + 8 * i') (t + 8 * i)) as [H|H]; [|done].
  apply slot_inj in H as [-> ->]; tauto.
Qed.

Lemma in_page_slot t page i : frame_ok t -> frame_ok page -> 0 <= i < 512 ->
  in_page page (t + 8 * i) = bool_decide (t = page).
Proof.
  intros [_ H1] [_ H2] Hi. unfold in_page, PAGE_SIZE in *. destruct (decide (t = page)) as [->|Hn].
  - rewrite bool_decide_eq_true_2 by done. lia.
  - rewrite bool_decide_eq_false_2 by done. apply andb_false_iff. zlia.
Qed.

Lemma entry_zero_eq s page i : frame_ok page -> 0 <= i < 512 -> entry_of (zero_page page s) page i = 0.
Proof. intros Hp Hi. unfold entry_of; cbn. by rewrite in_page_slot, bool_decide_eq_true_2. Qed.

Lemma entry_zero_ne s page t i : frame_ok page -> frame_ok t -> 0 <= i < 512 -> t <> page ->
  entry_of (zero_page page s) t i = entry_of s t i.
Proof. intros Hp Ht Hi Hn. unfold entry_of; cbn. by rewrite in_page_slot, bool_decide_eq_false_2. Qed.

Lemma entry_copy s to from t i : frame_ok to -> frame_ok t -> 0 <= i < 512 ->
  entry_of (copy_page to from s) t i = if decide (t = to) then entry_of s from i else entry_of s t i.
Proof.
  intros Hp Ht Hi. unfold entry_of; cbn. rewrite in_page_slot by done. case_decide as Hd; subst.
  - rewrite bool_decide_eq_true_2 by done. f_equal. lia.
  - by rewrite bool_decide_eq_false_2.
Qed.

(** ** One step of a walk *)

Lemma walk_from_SS s n t address : walk_from s (S (S n)) t address =
  let e := entry_of s t (index_of address (Z.of_nat (S (S n)))) in
  if negb (has_flag e PageFlags_Present) then Missing
  else if has_flag e PageFlags_Huge then HugeAt (Z.of_nat (S (S n))) e
  else walk_from s (S n) (table_at e) address.
Proof. done. Qed.

Definition own s (r address : Z) : Z :=
  if 256 <=? index_of address 4 then s_kernel_space s else r.

(** The place of the table that a walk for [address] from [r] reads at level [l]. *)
Definition path_place s (r address l : Z) : Place :=
  mkPlace (if l =? 4 then r else own s r address) l (prefix address l).

Lemma path_step s T r address l t : vm_inv s T -> 2 <= l <= 4 ->
  T !! t = Some (path_place s r address l) ->
  let e := entry_of s t (index_of address l) in
  present e = true -> has_flag e PageFlags_Huge = false ->
  T !! table_at e = Some (path_place s r address (l - 1)).
Proof.
  intros Hi Hl Ht e Hp Hh. pose proof (index_of_range address l ltac:(lia)) as Hr.
  pose proof (vi_child s T Hi _ _ _ _ (index_of address l) Ht ltac:(lia) Hr Hp) as Hc. fold e in Hc.
  unfold child_ok in Hc. rewrite (proj2 (Z.eqb_neq l 1)), Hh in Hc by lia. rewrite Hc. f_equal. unfold path_place.
  rewrite (proj2 (Z.eqb_neq (l - 1) 4)) by lia. f_equal.
  - unfold owner, own. destruct (Z.eqb_spec l 4) as [->|]; [by destruct (256 <=? _)|done].
  - by rewrite prefix_step by lia.
Qed.

Lemma root_place s T r address : vm_inv s T -> live s r -> T !! r = Some (path_place s r address 4).
Proof. intros Hi Hr. unfold path_place. rewrite prefix_top. by apply (vi_spaces s T Hi). Qed.

(** The table of level 1 a walk ends at stands where the address says. *)
Lemma walk_leaf_place s T r address n t pt : vm_inv s T -> (1 <= n <= 4)%nat ->
  T !! t = Some (path_place s r address (Z.of_nat n)) ->
  walk_from s n t address = LeafTable pt -> T !! pt = Some (path_place s r address 1).
Proof.
  intros Hi Hn. revert t. induction n as [|n IH]; intros t Ht; [lia|].
  destruct n as [|n]; [by intros [= <-]|]. cbn [walk_from].
  pose proof (path_step s T r address (Z.of_nat (S (S n))) t Hi ltac:(lia) Ht) as Hstep. cbn zeta in Hstep.
  unfold present in Hstep. destruct (has_flag _ PageFlags_Present) eqn:Ep; [|done].
  destruct (has_flag _ PageFlags_Huge) eqn:Eh; [done|]. cbn [negb]. apply (IH ltac:(lia)).
  rewrite Hstep by done. by replace (Z.of_nat (S (S n)) - 1) with (Z.of_nat (S n)) by lia.
Qed.

(** Two entries a walk cannot tell apart at level [l]. *)
Definition entry_equiv (l e e' : Z) : Prop :=
  e' = e \/ (2 <= l /\ present e = true /\ present e' = true /\ table_at e' = table_at e
            /\ has_flag e PageFlags_Huge = false /\ has_flag e' PageFlags_Huge = false).

(** Walks that read the same entries end the same way. *)
Lemma walk_ext s s' T r address n t : vm_inv s T -> (1 <= n <= 4)%nat ->
  T !! t = Some (path_place s r address (Z.of_nat n)) ->
  (forall l t', 2 <= l <= Z.of_nat n -> T !! t' = Some (path_place s r address l) ->
     entry_equiv l (entry_of s t' (index_of address l)) (entry_of s' t' (index_of address l))) ->
  walk_from s' n t address = walk_from s n t address.
Proof.
  intros Hi Hn. revert t. induction n as [|n IH]; intros t Ht He; [lia|].
  destruct n as [|n]; [done|]. cbn [walk_from].
  pose proof (path_step s T r address (Z.of_nat (S (S n))) t Hi ltac:(lia) Ht) as Hstep. cbn zeta in Hstep.
  pose proof (He (Z.of_nat (S (S n))) t ltac:(lia) Ht) as Heq.
  assert (Hrec : forall t', T !! t' = Some (path_place s r address (Z.of_nat (S n))) ->
            walk_from s' (S n) t' address = walk_from s (S n) t' address).
  { intros t' Ht'. apply IH; [lia|done|]. intros l t2 Hl. apply He. lia. }
  replace (Z.of_nat (S (S n)) - 1) with (Z.of_nat (S n)) in Hstep by lia.
  revert Hstep Heq. generalize (entry_of s t (index_of address (Z.of_nat (S (S n))))) as e.
  generalize (entry_of s' t (index_of address (Z.of_nat (S (S n))))) as e'. intros e' e Hstep Heq.
  destruct Heq as [->|(_ & Hp & Hp' & Ht' & Hh & Hh')]; unfold present in *.
  - destruct (has_flag e PageFlags_Present); [|done]. destruct (has_flag e PageFlags_Huge); [done|].
    cbn [negb]. by apply Hrec, Hstep.
  - rewrite Hp, Hp', Hh, Hh', Ht'. cbn [negb]. by apply Hrec, Hstep.
Qed.

Lemma leaf_ext s s' T r address : vm_inv s T -> live s r ->
  (forall l t', 1 <= l <= 4 -> T !! t' = Some (path_place s r address l) ->
     entry_equiv l (entry_of s t' (index_of address l)) (entry_of s' t' (index_of address l))) ->
  leaf s' r address = leaf s r address.
Proof.
  intros Hi Hr He. unfold leaf.
  assert (Hw : walk_from s' 4 r address = walk_from s 4 r address).
  { apply (walk_ext s s' T r address 4); [done|lia|by apply root_place|]. intros l t' Hl. apply He. lia. }
  rewrite Hw. destruct (walk_from s 4 r address) as [pt| |] eqn:Ew; [|done|done].
  destruct (He 1 pt) as [->|(? & _)]; [lia| |done|lia].
  apply (walk_leaf_place s T r address 4 r pt); [done|lia|by apply root_place|done].
Qed.

(** ** A place holds one frame *)

Lemma place_inj s T t t' p : vm_inv s T -> T !! t = Some p -> T !! t' = Some p -> t = t'.
Proof.
  intros Hi. destruct p as [sp l pre]. intros Ht Ht'.
  assert (Hl : 0 <= l <= 4) by exact (vi_level s T Hi t _ Ht).
  assert (Hn : exists n, l = 4 - Z.of_nat n) by (exists (Z.to_nat (4 - l)); lia).
  destruct Hn as [n ->]. clear Hl. revert t t' pre Ht Ht'. induction n as [|n IH]; intros t t' pre Ht Ht'.
  - change (4 - Z.of_nat 0) with 4 in *. apply (vi_root s T Hi) in Ht as [<- _], Ht' as [<- _]. done.
  - destruct (vi_parent s T Hi t sp _ pre Ht) as (u & Hu & Hp & He & _); [lia|].
    destruct (vi_parent s T Hi t' sp _ pre Ht') as (u' & Hu' & Hp' & He' & _); [lia|].
    replace (4 - Z.of_nat (S n) + 1) with (4 - Z.of_nat n) in * by lia.
    rewrite (IH _ _ _ Hu Hu') in He. congruence.
Qed.

(** ** Growing *)

Definition is_table T (f : Z) : Prop := exists p, T !! f = Some p /\ 1 <= p_level p.

(** A state with more tables, all of the space [sp], in which every address means
    what it did. *)
Record grows (sp : Z) s T s' T' : Prop := {
  gr_rest : s' = with_mem (mem s') (with_frames (frames s') s);
  gr_places : T ⊆ T';
  gr_owned : forall b, fa_owned (frames s') b <-> fa_owned (frames s) b \/ is_Some (T' !! b);
  gr_new : forall b, is_Some (T' !! b) -> is_Some (T !! b) \/ ~ fa_owned (frames s) b;
  gr_level : forall b p, T' !! b = Some p -> ~ fa_owned (frames s) b -> 1 <= p_level p /\ p_space p = sp;
  gr_other : forall t p i, T !! t = Some p -> p_space p <> sp -> 0 <= i < 512 -> entry_of s' t i = entry_of s t i;
  gr_data : forall f i, fa_owned (frames s) f -> ~ is_table T f -> frame_ok f -> 0 <= i < 512 ->
    entry_of s' f i = entry_of s f i;
  gr_leaf : forall r a, live s r -> leaf s' r a = leaf s r a;
}.
#[global] Arguments gr_rest {sp} s T s' T' _.
#[global] Arguments gr_places {sp} s T s' T' _.
#[global] Arguments gr_owned {sp} s T s' T' _.
#[global] Arguments gr_new {sp} s T s' T' _.
#[global] Arguments gr_level {sp} s T s' T' _.
#[global] Arguments gr_other {sp} s T s' T' _.
#[global] Arguments gr_data {sp} s T s' T' _.
#[global] Arguments gr_leaf {sp} s T s' T' _.

Lemma grows_refl {sp} s T : vm_inv s T -> grows sp s T s T.
Proof.
  intros Hi. split; [by destruct s|done| |by left| |done|done|done].
  - intros b. split; [by left|]. intros [?|[p Hp]]; [done|]. exact (vi_owned s T Hi b p Hp).
  - intros b p Hb Hno. destruct (Hno (vi_owned s T Hi b p Hb)).
Qed.

Lemma grows_live {sp} s T s' T' r : grows sp s T s' T' -> live s' r <-> live s r.
Proof. intros H. unfold live. by rewrite (gr_rest _ _ _ _ H). Qed.

Lemma grows_kernel {sp} s T s' T' : grows sp s T s' T' -> s_kernel_space s' = s_kernel_space s.
Proof. intros H. by rewrite (gr_rest _ _ _ _ H). Qed.

Lemma tables_grow_trans {sp} s1 T1 s2 T2 s3 T3 :
  grows sp s1 T1 s2 T2 -> grows sp s2 T2 s3 T3 -> grows sp s1 T1 s3 T3.
Proof.
  intros H12 H23. split.
  - rewrite (gr_rest _ _ _ _ H23) at 1. rewrite (gr_rest _ _ _ _ H12). by destruct s1.
  - etransitivity; [apply H12|apply H23].
  - intros b. rewrite (gr_owned _ _ _ _ H23), (gr_owned _ _ _ _ H12). split; [|tauto].
    intros [[?|[p Hp]]|?]; [tauto| |tauto]. right. exists p. eapply lookup_weaken; [done|apply H23].
  - intros b Hb. destruct (gr_new _ _ _ _ H23 b Hb) as [Hb'|Hb'].
    + by apply (gr_new _ _ _ _ H12).
    + right. intros Ho. apply Hb', (gr_owned _ _ _ _ H12). by left.
  - intros b p Hb Hno. destruct (gr_new _ _ _ _ H23 b) as [[q Hq]|Hno2]; [by exists p| |].
    + pose proof (lookup_weaken _ _ _ _ Hq (gr_places _ _ _ _ H23)) as Hq'. rewrite Hb in Hq'. injection Hq' as <-.
      by apply (gr_level _ _ _ _ H12 b).
    + by apply (gr_level _ _ _ _ H23 b).
  - intros t p i Ht Hp Hi. rewrite (gr_other _ _ _ _ H23 t p i); [by apply (gr_other _ _ _ _ H12 t p)| |done|done].
    eapply lookup_weaken; [done|apply H12].
  - intros f i Ho Hn Hf Hi. rewrite (gr_data _ _ _ _ H23 f i); [by apply (gr_data _ _ _ _ H12)| |  |done|done].
    + apply (gr_owned _ _ _ _ H12). by left.
    + intros (p & Hp & Hl). apply Hn. destruct (gr_new _ _ _ _ H12 f) as [[q Hq]|Hno]; [by exists p| |done].
      exists q. split; [done|]. pose proof (lookup_weaken _ _ _ _ Hq (gr_places _ _ _ _ H12)). by simplify_eq.
  - intros r a Hr. rewrite (gr_leaf _ _ _ _ H23) by by apply (grows_live _ _ _ _ _ H12).
    by apply (gr_leaf _ _ _ _ H12).
Qed.

(** Writing anything the tables do not show keeps the invariant and every address. *)
Lemma inv_equiv s s' T : vm_inv s T -> s' = with_mem (mem s') (with_frames (frames s') s) ->
  fa_ok (frames s') -> (forall f p, T !! f = Some p -> fa_owned (frames s') f) ->
  (forall t p i, T !! t = Some p -> 1 <= p_level p -> 0 <= i < 512 ->
     entry_equiv (p_level p) (entry_of s t i) (entry_of s' t i)) ->
  vm_inv s' T /\ forall r a, live s r -> leaf s' r a = leaf s r a.
Proof.
  intros Hi Hrest Hok Hown Heq.
  assert (Hk : s_kernel_space s' = s_kernel_space s) by by rewrite Hrest.
  assert (Hlive : forall r, live s' r <-> live s r) by (intros r; unfold live; by rewrite Hrest).
  assert (Hchild : forall sp l pre i e, child_ok s' T sp l pre i e <-> child_ok s T sp l pre i e).
  { intros. unfold child_ok, owner, tracked. by rewrite Hk. }
  split; [|].
  - split; [done|done|exact (vi_level s T Hi)| | | | | |].
    + intros t sp l pre i Ht Hl Hr Hp. apply Hchild.
      destruct (Heq t _ i Ht Hl Hr) as [E|(Hl2 & Hp0 & _ & Ha & Hh & Hh')]; cbn [p_level] in *.
      * rewrite E in *. by apply (vi_child s T Hi t).
      * pose proof (vi_child s T Hi t sp l pre i Ht Hl Hr Hp0) as Hc. unfold child_ok in *.
        rewrite (proj2 (Z.eqb_neq l 1)) in * by lia. by rewrite Hh', Ha, Hh in *.
    + intros f sp l pre Hf Hl. destruct (vi_parent s T Hi f sp l pre Hf Hl) as (t & Ht & Hp & Ha & Hc).
      exists t. split; [done|]. pose proof (vi_level s T Hi f _ Hf) as Hl0. cbn [p_level] in Hl0.
      destruct (Heq t _ (pre mod 512) Ht) as [E|(Hl2 & _ & Hp' & Ha' & Hh & Hh')]; cbn [p_level] in *;
        [lia|apply Z.mod_pos_bound; lia| |].
      * rewrite E. unfold tracked in *. by rewrite Hk.
      * split; [done|]. split; [congruence|]. by rewrite (proj2 (Z.eqb_neq l 0)) in * by lia.
    + intros f sp pre Hf. rewrite Hlive. by apply (vi_root s T Hi).
    + intros r Hr. apply (vi_spaces s T Hi). by apply Hlive.
    + rewrite Hk. apply Hlive, (vi_kernel s T Hi).
    + intros r i Hr Hr2. rewrite Hk. apply Hlive in Hr.
      assert (Hup : forall x, live s x -> present (entry_of s' x i) = true
                /\ has_flag (entry_of s' x i) PageFlags_Huge = false
                /\ table_at (entry_of s' x i) = table_at (entry_of s x i)).
      { intros x Hx. destruct (vi_upper s T Hi x i Hx Hr2) as (H1 & H2 & _).
        destruct (Heq x _ i (vi_spaces s T Hi x Hx)) as [E|(_ & _ & ? & ? & _ & ?)]; [cbn; lia|lia| |done].
        by rewrite E. }
      destruct (Hup r Hr) as (H1 & H2 & ->), (Hup _ (vi_kernel s T Hi)) as (_ & _ & ->).
      split; [done|]. split; [done|]. by apply (vi_upper s T Hi).
  - intros r a Hr. apply (leaf_ext s s' T r a Hi Hr). intros l t Hl Ht.
    apply (Heq t _ (index_of a l) Ht); cbn; [lia|apply index_of_range; lia].
Qed.

Section AddTable.
Context (s : Vm F) (T : gmap Z Place) (t sp l pre i page v : Z).
Context (Hi : vm_inv s T) (Ht : T !! t = Some (mkPlace sp l pre)) (Hl : 2 <= l) (Hr : 0 <= i < 512).
Context (Hnone : present (entry_of s t i) = false) (Hnew : T !! page = None).
Context (Hown : fa_owned (frames s) page) (Hzero : forall j, 0 <= j < 512 -> entry_of s page j = 0).
Context (Hvp : present v = true) (Hvh : has_flag v PageFlags_Huge = false) (Hva : table_at v = page).

Let s' := set_entry t i v s.
Let T' := <[page := mkPlace sp (l - 1) (pre * 512 + i)]> T.

Lemma add_old u j : is_Some (T !! u) -> 0 <= j < 512 -> u <> t \/ j <> i -> entry_of s' u j = entry_of s u j.
Proof.
  intros [p Hp] Hj Hne. apply slot_set_ne; [exact (place_frame s T t _ Hi Ht)|exact (place_frame s T u _ Hi Hp)|..]; done.
Qed.

Lemma add_page_entry j : 0 <= j < 512 -> entry_of s' page j = 0.
Proof.
  intros Hj. unfold s'. rewrite slot_set_ne; [by apply Hzero|exact (place_frame s T t _ Hi Ht)| |done|done|].
  - rewrite <- Hva. apply table_at_ok.
  - left. intros ->. congruence.
Qed.

Lemma add_owner : owner s sp l i = sp.
Proof.
  unfold owner. destruct (Z.eqb_spec l 4) as [->|]; [|done]. destruct (Z.leb_spec 256 i); [|done]. cbn.
  exfalso. destruct (vi_root s T Hi t sp pre Ht) as (-> & _ & Hlive).
  destruct (vi_upper s T Hi t i Hlive ltac:(lia)) as (H1 & _). congruence.
Qed.

Lemma add_child u sp0 l0 pre0 j : T' !! u = Some (mkPlace sp0 l0 pre0) -> 1 <= l0 -> 0 <= j < 512 ->
  present (entry_of s' u j) = true -> child_ok s' T' sp0 l0 pre0 j (entry_of s' u j).
Proof.
  intros Hu Hl0 Hj Hp. unfold T' in Hu. destruct (decide (u = page)) as [->|Hn].
  { by rewrite add_page_entry in Hp. }
  rewrite lookup_insert_ne in Hu by done. destruct (decide (u = t /\ j = i)) as [[-> ->]|Hslot].
  - unfold s'. rewrite slot_set_eq. rewrite Ht in Hu. injection Hu as <- <- <-. unfold child_ok.
    rewrite (proj2 (Z.eqb_neq l 1)), Hvh, Hva by lia. unfold T'. rewrite lookup_insert_eq.
    change (owner _ sp l i) with (owner s sp l i). by rewrite add_owner.
  - assert (E : entry_of s' u j = entry_of s u j) by (apply add_old; [by eexists|done|by apply slot_ne]).
    rewrite E in *. pose proof (vi_child s T Hi u sp0 l0 pre0 j Hu Hl0 Hj Hp) as Hc.
    change (child_ok s T' sp0 l0 pre0 j (entry_of s u j)). unfold child_ok, T' in *.
    destruct (l0 =? 1).
    + intros Htr. specialize (Hc Htr). rewrite lookup_insert_ne; [done|]. intros E2. rewrite <- E2 in Hc. congruence.
    + destruct (has_flag (entry_of s u j) PageFlags_Huge); [done|]. rewrite lookup_insert_ne; [done|].
      intros E2. rewrite <- E2 in Hc. congruence.
Qed.

Lemma add_parent f sp0 l0 pre0 : T' !! f = Some (mkPlace sp0 l0 pre0) -> l0 < 4 ->
  exists u, T' !! u = Some (mkPlace sp0 (l0 + 1) (pre0 / 512))
    /\ let e := entry_of s' u (pre0 mod 512) in
       present e = true /\ table_at e = f
       /\ if l0 =? 0 then tracked s' sp0 e = true else has_flag e PageFlags_Huge = false.
Proof.
  intros Hf Hl0. unfold T' in Hf. destruct (decide (f = page)) as [->|Hn].
  - rewrite lookup_insert_eq in Hf. injection Hf as <- <- <-. exists t.
    replace ((pre * 512 + i) / 512) with pre by zlia. replace ((pre * 512 + i) mod 512) with i by zlia.
    replace (l - 1 + 1) with l by lia. unfold T'. rewrite lookup_insert_ne by congruence.
    split; [done|]. unfold s'. rewrite slot_set_eq. rewrite (proj2 (Z.eqb_neq (l - 1) 0)) by lia. done.
  - rewrite lookup_insert_ne in Hf by done.
    destruct (vi_parent s T Hi f sp0 l0 pre0 Hf Hl0) as (u & Hu & Hp & Hrest). exists u.
    assert (Hm : 0 <= pre0 mod 512 < 512) by (apply Z.mod_pos_bound; lia).
    assert (u <> page) by congruence. unfold T'. rewrite lookup_insert_ne by done. split; [done|].
    rewrite add_old; [done|by exists (mkPlace sp0 (l0 + 1) (pre0 / 512))|done|].
    destruct (decide (u = t)) as [->|]; [right|by left]. intros E. rewrite E in Hp. congruence.
Qed.

Lemma add_inv : vm_inv s' T'.
Proof.
  assert (Hpage : forall u, live s u -> u <> page).
  { intros u Hu ->. rewrite (vi_spaces s T Hi page Hu) in Hnew. done. }
  split; [exact (vi_frames s T Hi)| | |exact add_child|exact add_parent| | |exact (vi_kernel s T Hi)|].
  - intros f p. unfold T'. destruct (decide (f = page)) as [->|Hn]; [done|].
    rewrite lookup_insert_ne by done. apply (vi_owned s T Hi).
  - intros f p. unfold T'. destruct (decide (f = page)) as [->|Hn].
    + rewrite lookup_insert_eq. intros [= <-]. cbn. pose proof (vi_level s T Hi t _ Ht) as H. cbn in H. lia.
    + rewrite lookup_insert_ne by done. apply (vi_level s T Hi).
  - intros f sp0 pre0. unfold T'. destruct (decide (f = page)) as [->|Hn].
    + rewrite lookup_insert_eq. intros [= <- E <-]. pose proof (vi_level s T Hi t _ Ht) as H. cbn in H. lia.
    + rewrite lookup_insert_ne by done. apply (vi_root s T Hi).
  - intros r Hlive. unfold T'. rewrite lookup_insert_ne by (by intros <-; apply (Hpage page)).
    by apply (vi_spaces s T Hi).
  - intros r j Hlive Hj.
    assert (Hsame : forall x, live s x -> entry_of s' x j = entry_of s x j).
    { intros x Hx. apply add_old; [exists (mkPlace x 4 0); by apply (vi_spaces s T Hi)|lia|].
      destruct (decide (x = t)) as [->|]; [right|by left]. intros ->.
      destruct (vi_upper s T Hi t i Hx Hj) as (H1 & _). congruence. }
    rewrite !Hsame by (done || apply (vi_kernel s T Hi)). by apply (vi_upper s T Hi).
Qed.

Lemma add_leaf r a : live s r -> leaf s' r a = leaf s r a.
Proof.
  intros Hlive.
  assert (Hwalk : forall n u, (1 <= n <= 4)%nat -> T !! u = Some (path_place s r a (Z.of_nat n)) ->
    match walk_from s n u a with
    | LeafTable q => walk_from s' n u a = LeafTable q
    | HugeAt k e => walk_from s' n u a = HugeAt k e
    | Missing => walk_from s' n u a = Missing \/ walk_from s' n u a = LeafTable page
    end).
  { induction n as [|n IH]; intros u Hn Hu; [lia|]. destruct n as [|n]; [done|]. rewrite !walk_from_SS. cbv zeta.
    pose proof (index_of_range a (Z.of_nat (S (S n))) ltac:(lia)) as Hx.
    pose proof (path_step s T r a (Z.of_nat (S (S n))) u Hi ltac:(lia) Hu) as Hstep. cbn zeta in Hstep.
    replace (Z.of_nat (S (S n)) - 1) with (Z.of_nat (S n)) in Hstep by lia.
    set (x := index_of a (Z.of_nat (S (S n)))) in *. unfold present in *.
    destruct (decide (u = t /\ x = i)) as [[-> E]|Hslot].
    - unfold s'. rewrite E, slot_set_eq, Hnone, Hvp, Hvh, Hva. cbn [negb]. destruct n as [|n]; [by right|].
      left. rewrite walk_from_SS. cbv zeta. fold s'. rewrite add_page_entry by (apply index_of_range; lia). done.
    - rewrite (add_old u x); [|by rewrite Hu|done|by apply slot_ne].
      destruct (has_flag (entry_of s u x) PageFlags_Present); cbn [negb]; [|by left].
      destruct (has_flag (entry_of s u x) PageFlags_Huge); [done|]. apply (IH _ ltac:(lia)). by apply Hstep. }
  pose proof (root_place s T r a Hi Hlive) as Hroot. pose proof (Hwalk 4%nat r ltac:(lia) Hroot) as H.
  unfold leaf. destruct (walk_from s 4 r a) as [q|k e|] eqn:Ew; [|by rewrite H|].
  - rewrite H. pose proof (walk_leaf_place s T r a 4 r q Hi ltac:(lia) Hroot Ew) as Hq.
    rewrite (add_old q); [done|by rewrite Hq|apply index_of_range; lia|]. left. intros ->.
    rewrite Ht in Hq. injection Hq as _ E _. lia.
  - destruct H as [->| ->]; [done|]. by rewrite add_page_entry by (apply index_of_range; lia).
Qed.
End AddTable.

(** ** Allocating *)

(** [s'] is [s] with the frame [page], nobody's before, taken and whatever in it. *)
Record took_frame s T s' (page : Z) : Prop := {
  tf_inv : vm_inv s' T;
  tf_new : ~ fa_owned (frames s) page;
  tf_frame : frame_ok page;
  tf_owned : forall b, fa_owned (frames s') b <-> b = page \/ fa_owned (frames s) b;
  tf_rest : s' = with_mem (mem s') (with_frames (frames s') s);
  tf_data : forall f i, f <> page -> frame_ok f -> 0 <= i < 512 -> entry_of s' f i = entry_of s f i;
  tf_leaf : forall r a, live s r -> leaf s' r a = leaf s r a;
}.

Lemma tf_unplaced s T s' page : vm_inv s T -> took_frame s T s' page -> T !! page = None.
Proof.
  intros Hi Ht. destruct (T !! page) as [p|] eqn:E; [|done]. exfalso. apply (tf_new _ _ _ _ Ht).
  exact (vi_owned s T Hi page p E).
Qed.

(** Taking a frame and writing to it is invisible. *)
Lemma took_frame_write s T f page m : vm_inv s T -> fa_ok f -> ~ fa_owned (frames s) page ->
  (forall b, fa_owned f b <-> b = page \/ fa_owned (frames s) b) ->
  (forall g i, g <> page -> frame_ok g -> 0 <= i < 512 ->
     m (g + 8 * i) = mem s (g + 8 * i)) ->
  took_frame s T (with_mem m (with_frames f s)) page.
Proof.
  intros Hi Hok Hnew Hown Hm.
  assert (Hf : frame_ok page) by (apply (fa_owned_range f); [done|]; apply Hown; by left).
  destruct (inv_equiv s (with_mem m (with_frames f s)) T Hi) as [H1 H2]; [done|done| | |].
  - intros g p Hg. apply Hown. right. exact (vi_owned s T Hi g p Hg).
  - intros t p i Ht Hl Hr. left. apply Hm; [|exact (place_frame s T t p Hi Ht)|done].
    intros ->. exact (Hnew (vi_owned s T Hi _ _ Ht)).
  - by split.
Qed.

Lemma allocate_zeroed_spec s T : vm_inv s T ->
  match allocate_zeroed_page s with
  | (Ok page, s') => took_frame s T s' page /\ forall i, 0 <= i < 512 -> entry_of s' page i = 0
  | (Err e, s') => e = ENOMEM /\ s' = s
  | (Panic, _) => False
  end.
Proof.
  intros Hi. unfold allocate_zeroed_page, allocate_frame, on_frames, mtry.
  pose proof (fa_allocate_spec (frames s) (vi_frames s T Hi)) as Ha.
  destruct (fa_allocate (frames s)) as [[page|e|] f]; [|by destruct Ha as [-> ->]; destruct s|done].
  destruct Ha as (Hok & Hnew & Hown). cbn.
  assert (Hf : frame_ok page) by (apply (fa_owned_range f); [done|]; apply Hown; by left).
  split; [|intros i Hr; by apply entry_zero_eq].
  apply (took_frame_write s T f page _ Hi Hok Hnew Hown). intros g i Hn Hg Hr.
  exact (entry_zero_ne s page g i Hf Hg Hr Hn).
Qed.

Lemma allocate_frame_spec s T : vm_inv s T ->
  match allocate_frame s with
  | (Ok page, s') => took_frame s T s' page /\ mem s' = mem s
  | (Err e, s') => e = ENOMEM /\ s' = s
  | (Panic, _) => False
  end.
Proof.
  intros Hi. unfold allocate_frame, on_frames.
  pose proof (fa_allocate_spec (frames s) (vi_frames s T Hi)) as Ha.
  destruct (fa_allocate (frames s)) as [[page|e|] f]; [|by destruct Ha as [-> ->]; destruct s|done].
  destruct Ha as (Hok & Hnew & Hown). split; [|done].
  by apply (took_frame_write s T f page (mem s) Hi Hok Hnew Hown).
Qed.

(** ** [ensure_table] *)

(** A frame just taken becomes a table. *)
Lemma took_grows s T s1 page t sp l pre i v : vm_inv s T -> took_frame s T s1 page ->
  (forall j, 0 <= j < 512 -> entry_of s1 page j = 0) ->
  T !! t = Some (mkPlace sp l pre) -> 2 <= l -> 0 <= i < 512 -> present (entry_of s t i) = false ->
  present v = true -> has_flag v PageFlags_Huge = false -> table_at v = page ->
  let T' := <[page := mkPlace sp (l - 1) (pre * 512 + i)]> T in
  vm_inv (set_entry t i v s1) T' /\ grows sp s T (set_entry t i v s1) T' /\ owner s sp l i = sp.
Proof.
  intros Hi Htf Hz Ht Hl Hr Hnone Hvp Hvh Hva T'. pose proof (tf_inv _ _ _ _ Htf) as Hi1.
  pose proof (tf_unplaced s T s1 page Hi Htf) as Hnew.
  assert (Hne : t <> page) by congruence.
  assert (Hnone1 : present (entry_of s1 t i) = false).
  { rewrite (tf_data _ _ _ _ Htf); [done|done|exact (place_frame s T t _ Hi Ht)|done]. }
  assert (Hown : fa_owned (frames s1) page) by (apply (tf_owned _ _ _ _ Htf); by left).
  split; [by apply (add_inv s1 T)|]. split.
  - split.
    + rewrite (tf_rest _ _ _ _ Htf). by destruct s.
    + by apply insert_subseteq.
    + intros b. change (frames (set_entry t i v s1)) with (frames s1). rewrite (tf_owned _ _ _ _ Htf). unfold T'.
      destruct (decide (b = page)) as [->|Hb]; [rewrite lookup_insert_eq; naive_solver|].
      rewrite lookup_insert_ne by done. split; [naive_solver|]. intros [?|[p Hp]]; [by right|].
      right. exact (vi_owned s T Hi b p Hp).
    + intros b. unfold T'. destruct (decide (b = page)) as [->|Hb]; [intros _; right; apply (tf_new _ _ _ _ Htf)|].
      rewrite lookup_insert_ne by done. by left.
    + intros b p. unfold T'. destruct (decide (b = page)) as [->|Hb].
      * rewrite lookup_insert_eq. intros [= <-] _. cbn. split; [lia|done].
      * rewrite lookup_insert_ne by done. intros Hb' Hno. destruct (Hno (vi_owned s T Hi b p Hb')).
    + intros u p j Hu Hsp Hj. rewrite slot_set_ne;
        [|exact (place_frame s T t _ Hi Ht)|exact (place_frame s T u _ Hi Hu)|done|done
        |left; intros ->; rewrite Ht in Hu; injection Hu as <-; by apply Hsp].
      apply (tf_data _ _ _ _ Htf); [congruence|exact (place_frame s T u _ Hi Hu)|done].
    + intros f j Ho Hnt Hf Hj. rewrite slot_set_ne; [|exact (place_frame s T t _ Hi Ht)|done|done|done|].
      * apply (tf_data _ _ _ _ Htf); [|done|done]. intros ->. exact (tf_new _ _ _ _ Htf Ho).
      * left. intros ->. apply Hnt. exists (mkPlace sp l pre). split; [done|cbn; lia].
    + intros r a Hlive. rewrite (add_leaf s1 T t sp l pre i page v); try done.
      * by apply (tf_leaf _ _ _ _ Htf).
      * unfold live. by rewrite (tf_rest _ _ _ _ Htf).
  - by eapply add_owner.
Qed.

(** Setting the user bit of an entry that leads on. *)
Lemma user_bit_grows s T t sp l pre i : vm_inv s T -> T !! t = Some (mkPlace sp l pre) -> 2 <= l ->
  0 <= i < 512 -> let e := entry_of s t i in present e = true -> has_flag e PageFlags_Huge = false ->
  let s' := set_entry t i (Z.lor e PageFlags_User) s in
  vm_inv s' T /\ grows sp s T s' T /\ entry_equiv l e (entry_of s' t i).
Proof.
  intros Hi Ht Hl Hr e Hp Hh s'.
  assert (Heq : entry_equiv l e (Z.lor e PageFlags_User)).
  { right. split; [done|]. split; [done|]. unfold present in *. split; [|split; [by apply table_at_lor_flag|split; [done|]]].
    - unfold PageFlags_Present, PageFlags_User in *. by rewrite flag_lor_or, Hp.
    - unfold PageFlags_Huge, PageFlags_User in *. by rewrite flag_lor_or, Hh. }
  destruct (inv_equiv s s' T Hi) as [Hi' Hleaf]; [by destruct s|exact (vi_frames s T Hi)|exact (vi_owned s T Hi)| |].
  { intros u p j Hu Hlu Hj. destruct (decide (u = t /\ j = i)) as [[-> ->]|Hn].
    - unfold s'. rewrite slot_set_eq. rewrite Ht in Hu. by injection Hu as <-.
    - left. apply slot_set_ne; [exact (place_frame s T t _ Hi Ht)|exact (place_frame s T u _ Hi Hu)|done|done|].
      by apply slot_ne. }
  split; [done|]. split; [|unfold s'; by rewrite slot_set_eq].
  split; [by destruct s|done|exact (gr_owned _ _ _ _ (grows_refl (sp := sp) s T Hi))|by left
    |exact (gr_level _ _ _ _ (grows_refl s T Hi))| | |done].
  { intros u p j Hu Hsp Hj. apply slot_set_ne; [exact (place_frame s T t _ Hi Ht)|exact (place_frame s T u _ Hi Hu)|done|done|].
    left. intros ->. rewrite Ht in Hu. injection Hu as <-. by apply Hsp. }
  intros f j Ho Hnt Hf Hj. apply slot_set_ne; [exact (place_frame s T t _ Hi Ht)|done|done|done|].
  left. intros ->. apply Hnt. exists (mkPlace sp l pre). split; [done|cbn; lia].
Qed.

Lemma new_table_entry page : frame_ok page ->
  let v := Z.lor (Z.lor page PageFlags_Present) PageFlags_Writable in
  present v = true /\ has_flag v PageFlags_Huge = false /\ table_at v = page.
Proof.
  intros Hp. cbn zeta. rewrite <- Z.lor_assoc. split_and!.
  - unfold present, PageFlags_Present. rewrite flag_lor by (done || left; lia). done.
  - unfold PageFlags_Huge. rewrite flag_lor by (done || left; lia). done.
  - by apply table_at_lor.
Qed.

(** The second half of [ensure_table], once the entry is present. *)
Lemma ensure_present s T t sp l pre i user : vm_inv s T -> T !! t = Some (mkPlace sp l pre) -> 2 <= l ->
  0 <= i < 512 -> present (entry_of s t i) = true -> (user = true -> owner s sp l i <> s_kernel_space s) ->
  match ensure_table t i user s with
  | (Ok t', s') => vm_inv s' T /\ grows (owner s sp l i) s T s' T
      /\ T !! t' = Some (mkPlace (owner s sp l i) (l - 1) (pre * 512 + i))
      /\ present (entry_of s' t i) = true /\ has_flag (entry_of s' t i) PageFlags_Huge = false
      /\ table_at (entry_of s' t i) = t'
  | (Err e, s') => s' = s /\ e = EEXIST /\ has_flag (entry_of s t i) PageFlags_Huge = true
  | (Panic, _) => False
  end.
Proof.
  intros Hi Ht Hl Hr Hp Hu. unfold ensure_table, mtry, mget, mok, mmod, merr.
  assert (Hpp := Hp). unfold present in Hpp. rewrite Hpp. cbn [negb].
  pose proof (vi_child s T Hi t sp l pre i Ht ltac:(lia) Hr Hp) as Hc. unfold child_ok in Hc.
  rewrite (proj2 (Z.eqb_neq l 1)) in Hc by lia.
  destruct (has_flag (entry_of s t i) PageFlags_Huge) eqn:Eh.
  - destruct user; [|by rewrite Eh]. exfalso. destruct Hc as [-> Hl4]. apply (Hu eq_refl). unfold owner.
    by rewrite (proj2 (Z.eqb_neq l 4)) by lia.
  - destruct user.
    + assert (Ho : owner s sp l i = sp) by (specialize (Hu eq_refl); unfold owner in *; by destruct (_ && _)).
      rewrite Ho. destruct (user_bit_grows s T t sp l pre i Hi Ht Hl Hr Hp Eh) as (H1 & H2 & H3). cbv zeta in *.
      set (s' := set_entry _ _ _ _) in *.
      assert (Hf : present (entry_of s' t i) = true /\ has_flag (entry_of s' t i) PageFlags_Huge = false
                /\ table_at (entry_of s' t i) = table_at (entry_of s t i)).
      { destruct H3 as [->|(_ & _ & ? & ? & _ & ?)]; done. }
      destruct Hf as (F1 & F2 & F3). rewrite F2. split_and!; try done. by rewrite F3, Hc, Ho.
    + rewrite Eh. split_and!; try done. by apply grows_refl.
Qed.

Lemma ensure_table_spec s T t sp l pre i user : vm_inv s T -> T !! t = Some (mkPlace sp l pre) -> 2 <= l ->
  0 <= i < 512 -> (user = true -> owner s sp l i <> s_kernel_space s) ->
  match ensure_table t i user s with
  | (Ok t', s') => exists T', vm_inv s' T' /\ grows (owner s sp l i) s T s' T'
      /\ T' !! t' = Some (mkPlace (owner s sp l i) (l - 1) (pre * 512 + i))
      /\ present (entry_of s' t i) = true /\ has_flag (entry_of s' t i) PageFlags_Huge = false
      /\ table_at (entry_of s' t i) = t'
  | (Err e, s') => s' = s
      /\ (e = EEXIST /\ present (entry_of s t i) = true /\ has_flag (entry_of s t i) PageFlags_Huge = true
          \/ e = ENOMEM /\ present (entry_of s t i) = false)
  | (Panic, _) => False
  end.
Proof.
  intros Hi Ht Hl Hr Hu. destruct (present (entry_of s t i)) eqn:Hp.
  { pose proof (ensure_present s T t sp l pre i user Hi Ht Hl Hr Hp Hu) as H.
    destruct (ensure_table t i user s) as [[t'|e|] s']; [by exists T|naive_solver|done]. }
  pose proof (allocate_zeroed_spec s T Hi) as Ha.
  destruct (allocate_zeroed_page s) as [[page|e|] s1] eqn:Ea; [|destruct Ha as [-> ->]|done].
  2:{ unfold ensure_table, mtry, mget, mok. unfold present in Hp. rewrite Hp. cbn [negb]. rewrite Ea.
      split; [done|by right]. }
  destruct Ha as [Htf Hz]. destruct (new_table_entry page (tf_frame _ _ _ _ Htf)) as (V1 & V2 & V3).
  set (v := Z.lor (Z.lor page PageFlags_Present) PageFlags_Writable) in *.
  destruct (took_grows s T s1 page t sp l pre i v Hi Htf Hz Ht Hl Hr Hp V1 V2 V3) as (H1 & H2 & Ho).
  set (T1 := <[page := _]> T) in *. set (s2 := set_entry t i v s1) in *.
  assert (Ht1 : T1 !! t = Some (mkPlace sp l pre)) by exact (lookup_weaken _ _ _ _ Ht (gr_places _ _ _ _ H2)).
  assert (Hk : s_kernel_space s2 = s_kernel_space s) by exact (grows_kernel _ _ _ _ H2).
  assert (Hp2 : present (entry_of s2 t i) = true) by (unfold s2; by rewrite slot_set_eq).
  assert (Ho2 : owner s2 sp l i = owner s sp l i) by (unfold owner; by rewrite Hk).
  pose proof (ensure_present s2 T1 t sp l pre i user H1 Ht1 Hl Hr Hp2 ltac:(by rewrite Hk, Ho2)) as H.
  assert (Heq : ensure_table t i user s = ensure_table t i user s2).
  { unfold ensure_table, mtry, mget, mok, mmod. unfold present in Hp, Hp2. rewrite Hp, Hp2. cbn [negb]. rewrite Ea. done. }
  rewrite Heq. destruct (ensure_table t i user s2) as [[t'|e|] s']; [| |done].
  - destruct H as (I1 & I2 & I3 & I4). exists T1. split; [done|].
    split; [rewrite Ho2, Ho in *; by eapply tables_grow_trans|].
    split; [|done]. by rewrite I3, Ho2.
  - destruct H as (_ & _ & H). unfold s2 in H. rewrite slot_set_eq in H. congruence.
Qed.

(** ** Reaching a table *)

(** A table is where its place says: a walk for any address of that place comes by. *)
Lemma place_reached s T r a n t : vm_inv s T -> live s r -> (1 <= n <= 4)%nat ->
  T !! t = Some (path_place s r a (Z.of_nat n)) -> walk_from s 4 r a = walk_from s n t a.
Proof.
  intros Hi Hr Hn. assert (Hk : exists k, (n = 4 - k)%nat /\ (k <= 3)%nat) by (exists (4 - n)%nat; lia).
  destruct Hk as (k & -> & Hk). clear Hn. revert t. induction k as [|k IH]; intros t Ht.
  - change (4 - 0)%nat with 4%nat in *.
    by rewrite (place_inj s T t r _ Hi Ht (root_place s T r a Hi Hr)).
  - destruct (4 - S k)%nat as [|n] eqn:En; [lia|]. assert (E4 : (4 - k = S (S n))%nat) by lia.
    unfold path_place in Ht. rewrite (proj2 (Z.eqb_neq (Z.of_nat (S n)) 4)) in Ht by lia.
    destruct (vi_parent s T Hi t _ _ _ Ht) as (u & Hu & Hp & Ha & Hh); [lia|].
    replace (Z.of_nat (S n) + 1) with (Z.of_nat (S (S n))) in Hu by lia.
    pose proof (prefix_div a (Z.of_nat (S (S n))) ltac:(lia)) as Hd.
    pose proof (prefix_mod a (Z.of_nat (S (S n))) ltac:(lia)) as Hm.
    replace (Z.of_nat (S (S n)) - 1) with (Z.of_nat (S n)) in Hd, Hm by lia. rewrite Hd in Hu. rewrite Hm in Hp, Ha, Hh.
    rewrite (proj2 (Z.eqb_neq (Z.of_nat (S n)) 0)) in Hh by lia. unfold present in Hp.
    assert (Hv : exists v, walk_from s 4 r a = walk_from s (S (S n)) v a
               /\ let e := entry_of s v (index_of a (Z.of_nat (S (S n)))) in
                  has_flag e PageFlags_Present = true /\ has_flag e PageFlags_Huge = false /\ table_at e = t).
    { destruct (decide (k = 0%nat)) as [->|Hk0].
      - assert (n = 2%nat) as -> by lia. exists r. split; [done|]. cbv zeta. change (Z.of_nat 4) with 4 in *.
        unfold own in Hu. destruct (Z.leb_spec 256 (index_of a 4)) as [Hx|Hx].
        + destruct (vi_root s T Hi u _ _ Hu) as (<- & _ & _).
          pose proof (index_of_range a 4 ltac:(lia)).
          destruct (vi_upper s T Hi r (index_of a 4) Hr ltac:(lia)) as (U1 & U2 & U3).
          split; [done|]. split; [done|]. by rewrite U3.
        + destruct (vi_root s T Hi u _ _ Hu) as (<- & _ & _). done.
      - exists u. split; [|done]. rewrite <- E4. apply IH; [lia|]. rewrite E4. unfold path_place.
        by rewrite (proj2 (Z.eqb_neq (Z.of_nat (S (S n))) 4)) by lia. }
    destruct Hv as (v & -> & H1 & H2 & <-). rewrite walk_from_SS. cbv zeta. by rewrite H1, H2.
Qed.

(** ** Pages *)

Definition same_page s (r a r' a' : Z) : bool :=
  bool_decide (own s r a = own s r' a' /\ vpn a = vpn a').

Lemma same_page_path s r a r' a' l : same_page s r a r' a' = true -> 0 <= l <= 3 ->
  path_place s r' a' l = path_place s r a l.
Proof.
  intros H Hl. apply bool_decide_eq_true in H as [Ho Hv]. unfold path_place.
  rewrite (proj2 (Z.eqb_neq l 4)) by lia. by rewrite Ho, (same_vpn_prefix a a' l Hv) by lia.
Qed.

Lemma path_same_page s r a r' a' : path_place s r' a' 1 = path_place s r a 1 ->
  index_of a' 1 = index_of a 1 -> same_page s r a r' a' = true.
Proof.
  unfold path_place. cbn. intros [= Ho Hp] Hx. apply bool_decide_eq_true. split; [done|].
  unfold vpn. change 0 with (1 - 1). rewrite !prefix_step by lia. by rewrite Hp, Hx.
Qed.

(** What writing the leaf entry of an address changes. *)
Lemma leaf_set s T r a pt v r' a' : vm_inv s T -> live s r -> live s r' ->
  T !! pt = Some (path_place s r a 1) ->
  leaf (set_entry pt (index_of a 1) v s) r' a' =
  if same_page s r a r' a' then if present v then Some (1, v) else None else leaf s r' a'.
Proof.
  intros Hi Hr Hr' Hpt. set (s' := set_entry _ _ _ _).
  pose proof (place_frame s T pt _ Hi Hpt) as Hf. pose proof (index_of_range a 1 ltac:(lia)) as Hx.
  destruct (same_page s r a r' a') eqn:Es.
  - assert (Hpt' : T !! pt = Some (path_place s r' a' 1)) by (rewrite (same_page_path s r a r' a'); (done || lia)).
    assert (Hw : walk_from s' 4 r' a' = LeafTable pt).
    { rewrite (walk_ext s s' T r' a' 4 r'); [|done|lia|by apply root_place|].
      - by rewrite (place_reached s T r' a' 1 pt) by (done || lia).
      - intros l t Hl Ht. left. apply slot_set_ne; [done|exact (place_frame s T t _ Hi Ht)|done|apply index_of_range; lia|].
        left. intros ->. rewrite Hpt in Ht. injection Ht as _ E _. lia. }
    unfold leaf. rewrite Hw. apply bool_decide_eq_true in Es as [_ Hv].
    rewrite <- (same_vpn_index a a' 1 Hv) by lia. unfold s'. by rewrite slot_set_eq.
  - apply (leaf_ext s s' T r' a' Hi Hr'). intros l t Hl Ht. left.
    apply slot_set_ne; [done|exact (place_frame s T t _ Hi Ht)|done|apply index_of_range; lia|].
    destruct (decide (t = pt)) as [->|]; [right|by left]. intros E. rewrite Hpt in Ht.
    assert (l = 1) as -> by (injection Ht as _ E' _; lia). injection Ht as Ht.
    rewrite (path_same_page s r a r' a') in Es; [done| |done]. unfold path_place. cbn. by f_equal.
Qed.

(** ** Writing a leaf entry *)

Section SetLeaf.
Context (s : Vm F) (T : gmap Z Place) (pt sp pre i v : Z).
Context (Hi : vm_inv s T) (Hpt : T !! pt = Some (mkPlace sp 1 pre)) (Hr : 0 <= i < 512).

Let s' := set_entry pt i v s.

Lemma leaf_old u j : is_Some (T !! u) -> 0 <= j < 512 -> u <> pt \/ j <> i -> entry_of s' u j = entry_of s u j.
Proof.
  intros [p Hp] Hj Hne. apply slot_set_ne; [exact (place_frame s T pt _ Hi Hpt)|exact (place_frame s T u _ Hi Hp)|..]; done.
Qed.

(** What stays true of the tables above when the places of level 0 change from
    [T] to [T'] along with the entry. *)
Lemma leaf_inv T' :
  (forall f p, 1 <= p_level p -> T' !! f = Some p <-> T !! f = Some p) ->
  (forall f p, T' !! f = Some p -> fa_owned (frames s) f /\ 0 <= p_level p) ->
  (forall u sp0 pre0 j, T !! u = Some (mkPlace sp0 1 pre0) -> 0 <= j < 512 ->
     present (entry_of s' u j) = true -> tracked s sp0 (entry_of s' u j) = true ->
     T' !! table_at (entry_of s' u j) = Some (mkPlace sp0 0 (pre0 * 512 + j))) ->
  (forall f sp0 pre0, T' !! f = Some (mkPlace sp0 0 pre0) ->
     exists u, T !! u = Some (mkPlace sp0 1 (pre0 / 512))
       /\ let e := entry_of s' u (pre0 mod 512) in present e = true /\ table_at e = f /\ tracked s sp0 e = true) ->
  vm_inv s' T'.
Proof.
  intros Hup Hown Hchild Hparent.
  assert (Hold : forall u p j, T !! u = Some p -> 2 <= p_level p -> 0 <= j < 512 -> entry_of s' u j = entry_of s u j).
  { intros u p j Hu Hl Hj. apply leaf_old; [by exists p|done|]. left. intros ->. rewrite Hpt in Hu.
    injection Hu as <-. cbn in Hl. lia. }
  assert (Hlv : forall f p, T' !! f = Some p -> 0 <= p_level p <= 4).
  { intros f p Hf. destruct (Hown f p Hf) as [_ Hl]. split; [done|].
    destruct (decide (1 <= p_level p)) as [H1|H1]; [|lia]. apply (vi_level s T Hi f p). by apply Hup. }
  split; [exact (vi_frames s T Hi)| |done| | | | |exact (vi_kernel s T Hi)|].
  - intros f p Hf. apply (Hown f p Hf).
  - intros t sp0 l pre0 j Ht Hl Hj Hp. apply Hup in Ht; [|done]. unfold child_ok.
    destruct (Z.eqb_spec l 1) as [->|Hne]; [by apply (Hchild t)|].
    rewrite (Hold t _ j Ht ltac:(cbn; lia) Hj) in *.
    pose proof (vi_child s T Hi t sp0 l pre0 j Ht Hl Hj Hp) as Hc. unfold child_ok in Hc.
    rewrite (proj2 (Z.eqb_neq l 1) Hne) in Hc. destruct (has_flag _ PageFlags_Huge); [done|].
    apply Hup; [cbn; lia|done].
  - intros f sp0 l pre0 Hf Hl. pose proof (Hlv f _ Hf) as Hl0. cbn in Hl0. destruct (Z.eqb_spec l 0) as [->|Hne].
    + destruct (Hparent f sp0 pre0 Hf) as (u & Hu & Hrest). exists u. split; [|done]. by apply Hup.
    + apply Hup in Hf; [|cbn; lia]. destruct (vi_parent s T Hi f sp0 l pre0 Hf Hl) as (u & Hu & Hrest).
      exists u. split; [apply Hup; [cbn; lia|done]|].
      rewrite (Hold u _ (pre0 mod 512) Hu ltac:(cbn; lia) ltac:(apply Z.mod_pos_bound; lia)).
      by rewrite (proj2 (Z.eqb_neq l 0) Hne) in Hrest.
  - intros f sp0 pre0 Hf. apply Hup in Hf; [|cbn; lia]. by apply (vi_root s T Hi).
  - intros r Hlive. apply Hup; [cbn; lia|]. by apply (vi_spaces s T Hi).
  - intros r j Hlive Hj. rewrite !(Hold _ (mkPlace _ 4 0) j) by
      (lia || cbn; lia || apply (vi_spaces s T Hi); (done || apply (vi_kernel s T Hi))).
    by apply (vi_upper s T Hi).
Qed.

(** The slot that belongs to a place of level 0. *)
Lemma leaf_slot f p u : T !! f = Some p -> p_level p = 0 -> T !! u = Some (mkPlace (p_space p) 1 (p_prefix p / 512)) ->
  entry_of s' u (p_prefix p mod 512) = entry_of s u (p_prefix p mod 512)
  \/ u = pt /\ p = mkPlace sp 0 (pre * 512 + i).
Proof.
  intros Hf Hl Hu. assert (Hm : 0 <= p_prefix p mod 512 < 512) by (apply Z.mod_pos_bound; lia).
  destruct (decide (u = pt /\ p_prefix p mod 512 = i)) as [[-> E]|Hn].
  - right. split; [done|]. destruct p as [sp0 l0 pre0]; cbn in *. rewrite Hpt in Hu. injection Hu as <- ->.
    subst l0. f_equal. zlia.
  - left. apply leaf_old; [by rewrite Hu|done|by apply slot_ne].
Qed.

Lemma set_leaf_inv : present (entry_of s pt i) = false -> present v = true ->
  (tracked s sp v = true -> T !! table_at v = None /\ fa_owned (frames s) (table_at v)) ->
  vm_inv s' (if tracked s sp v then <[table_at v := mkPlace sp 0 (pre * 512 + i)]> T else T).
Proof.
  intros Hnone Hvp Hpage.
  set (T' := if tracked s sp v then _ else T).
  assert (Hkeep : forall f p, T !! f = Some p -> T' !! f = Some p).
  { intros f p Hf. unfold T'. destruct (tracked s sp v); [|done]. destruct (Hpage eq_refl) as [Hn _].
    rewrite lookup_insert_ne; [done|]. congruence. }
  assert (Hback : forall f p, T' !! f = Some p ->
            T !! f = Some p \/ tracked s sp v = true /\ f = table_at v /\ p = mkPlace sp 0 (pre * 512 + i)).
  { intros f p. unfold T'. destruct (tracked s sp v); [|by left]. destruct (decide (f = table_at v)) as [->|Hn].
    - rewrite lookup_insert_eq. intros [= <-]. by right.
    - rewrite lookup_insert_ne by done. by left. }
  apply leaf_inv.
  - intros f p Hl. split; [|apply Hkeep]. intros Hf. apply Hback in Hf as [?|(_ & _ & ->)]; [done|]. cbn in Hl. lia.
  - intros f p Hf. apply Hback in Hf as [Hf|(Htr & -> & ->)].
    + split; [exact (vi_owned s T Hi f p Hf)|apply (vi_level s T Hi f p Hf)].
    + split; [apply (Hpage Htr)|done].
  - intros u sp0 pre0 j Hu Hj Hp Htr. destruct (decide (u = pt /\ j = i)) as [[-> ->]|Hn].
    + unfold s' in *. rewrite slot_set_eq in *. rewrite Hpt in Hu. injection Hu as <- <-. unfold T'.
      rewrite Htr. by rewrite lookup_insert_eq.
    + assert (E : entry_of s' u j = entry_of s u j) by (apply leaf_old; [by rewrite Hu|done|by apply slot_ne]).
      rewrite E in *. apply Hkeep. by apply (vi_child s T Hi u sp0 1 pre0 j Hu ltac:(lia) Hj Hp).
  - intros f sp0 pre0 Hf. apply Hback in Hf as [Hf|(Htr & -> & [= -> ->])].
    + destruct (vi_parent s T Hi f sp0 0 pre0 Hf) as (u & Hu & Hp & Ha & Htr); [lia|]. cbn in Htr. exists u.
      split; [done|]. destruct (leaf_slot f _ u Hf eq_refl Hu) as [E|[-> [= -> ->]]]; cbn [p_prefix] in *.
      * by rewrite E.
      * exfalso. replace ((pre * 512 + i) mod 512) with i in Hp by zlia. congruence.
    + exists pt. replace ((pre * 512 + i) / 512) with pre by zlia. replace ((pre * 512 + i) mod 512) with i by zlia.
      split; [done|]. unfold s'. by rewrite slot_set_eq.
Qed.

Lemma clear_leaf_inv : present v = false -> let old := entry_of s pt i in present old = true ->
  vm_inv s' (if tracked s sp old then delete (table_at old) T else T).
Proof.
  intros Hvp old Hold. set (T' := if tracked s sp old then _ else T).
  assert (Hplace : tracked s sp old = true -> T !! table_at old = Some (mkPlace sp 0 (pre * 512 + i))).
  { intros Htr. exact (vi_child s T Hi pt sp 1 pre i Hpt ltac:(lia) Hr Hold Htr). }
  assert (Hback : forall f p, T' !! f = Some p -> T !! f = Some p /\ (tracked s sp old = true -> f <> table_at old)).
  { intros f p. unfold T'. destruct (tracked s sp old); [|done]. intros Hf.
    apply lookup_delete_Some in Hf as [Hn Hf]. split; [done|]. by intros _ ->. }
  assert (Hkeep : forall f p, T !! f = Some p -> (tracked s sp old = true -> f <> table_at old) -> T' !! f = Some p).
  { intros f p Hf Hn. unfold T'. destruct (tracked s sp old); [|done]. rewrite lookup_delete_ne; [done|].
    intros <-. by apply (Hn eq_refl). }
  apply leaf_inv.
  - intros f p Hl. split; [by intros [? _]%Hback|]. intros Hf. apply Hkeep; [done|]. intros Htr ->.
    rewrite (Hplace Htr) in Hf. injection Hf as <-. cbn in Hl. lia.
  - intros f p [Hf _]%Hback. split; [exact (vi_owned s T Hi f p Hf)|apply (vi_level s T Hi f p Hf)].
  - intros u sp0 pre0 j Hu Hj Hp Htr. destruct (decide (u = pt /\ j = i)) as [[-> ->]|Hn].
    { unfold s' in Hp. rewrite slot_set_eq in Hp. congruence. }
    assert (E : entry_of s' u j = entry_of s u j) by (apply leaf_old; [by rewrite Hu|done|by apply slot_ne]).
    rewrite E in *.
    pose proof (vi_child s T Hi u sp0 1 pre0 j Hu ltac:(lia) Hj Hp Htr) as Hc.
    apply Hkeep; [done|]. intros Htr0 Heq. rewrite Heq, (Hplace Htr0) in Hc. injection Hc as -> Hc.
    assert (pre0 = pre /\ j = i) as [-> ->] by zlia. apply Hn. split; [|done].
    exact (place_inj s T u pt _ Hi Hu Hpt).
  - intros f sp0 pre0 [Hf Hne]%Hback. destruct (vi_parent s T Hi f sp0 0 pre0 Hf) as (u & Hu & Hp & Ha & Htr); [lia|].
    cbn in Htr. exists u. split; [done|].
    destruct (leaf_slot f _ u Hf eq_refl Hu) as [E|[-> [= -> ->]]]; cbn [p_prefix] in *; [by rewrite E|].
    exfalso. replace ((pre * 512 + i) mod 512) with i in * by zlia. by apply (Hne Htr).
Qed.
End SetLeaf.

(** ** [map] *)

(** One level down: the state [ensure_table] leaves and the table it returns. *)
Lemma descend s T r a l t user : vm_inv s T -> live s r -> 2 <= l <= 4 ->
  T !! t = Some (path_place s r a l) -> (user = true -> own s r a <> s_kernel_space s) ->
  match ensure_table t (index_of a l) user s with
  | (Ok t', s') => exists T', vm_inv s' T' /\ grows (own s r a) s T s' T' /\ T' !! t' = Some (path_place s r a (l - 1))
  | (Err e, s') => s' = s /\ (e = EEXIST /\ leaf s r a <> None \/ e = ENOMEM /\ leaf s r a = None)
  | (Panic, _) => False
  end.
Proof.
  intros Hi Hr Hl Ht Hu.
  assert (Hx : 0 <= index_of a l < 512) by (apply index_of_range; lia).
  assert (Hown : owner s (p_space (path_place s r a l)) l (index_of a l) = own s r a).
  { cbn. unfold owner, own. destruct (Z.eqb_spec l 4) as [->|]; [by destruct (256 <=? _)|done]. }
  assert (Hu' : user = true -> owner s (p_space (path_place s r a l)) l (index_of a l) <> s_kernel_space s) by by rewrite Hown.
  pose proof (ensure_table_spec s T t _ l _ (index_of a l) user Hi Ht ltac:(lia) Hx Hu') as H.
  assert (Hreach : walk_from s 4 r a = walk_from s (Z.to_nat l) t a).
  { apply (place_reached s T r a (Z.to_nat l) t Hi Hr); [lia|]. by rewrite Z2Nat.id by lia. }
  destruct (ensure_table t (index_of a l) user s) as [[t'|e|] s']; [| |done].
  - cbn [p_space path_place] in *. rewrite Hown in H. destruct H as (T' & H1 & H2 & H3 & _). exists T'.
    split; [done|]. split; [done|]. rewrite H3. f_equal. unfold path_place.
    rewrite (proj2 (Z.eqb_neq (l - 1) 4)) by lia. f_equal. by rewrite prefix_step by lia.
  - destruct H as (-> & H). split; [done|]. unfold leaf. rewrite Hreach.
    destruct (Z.to_nat l) as [|[|n]] eqn:En; [lia|lia|]. rewrite walk_from_SS. cbv zeta.
    replace (Z.of_nat (S (S n))) with l by lia. unfold present in H.
    destruct H as [(-> & Hp & Hh)|(-> & Hp)]; rewrite Hp; [left|right]; [|done]. by rewrite Hh.
Qed.

Definition leaf_entry (page flags : Z) : Z :=
  Z.lor (Z.land page ADDRESS_MASK) (Z.lor flags PageFlags_Present).

Lemma leaf_entry_facts page flags : Z.land flags ADDRESS_MASK = 0 ->
  present (leaf_entry page flags) = true
  /\ table_at (leaf_entry page flags) = Z.land page ADDRESS_MASK
  /\ has_flag (leaf_entry page flags) PageFlags_Foreign = has_flag flags PageFlags_Foreign.
Proof.
  intros Hf. unfold leaf_entry. pose proof (table_at_ok page) as Hok. unfold table_at in Hok.
  split_and!.
  - unfold present, PageFlags_Present. rewrite flag_lor, flag_lor_or by (done || lia || left; lia).
    apply orb_true_r.
  - apply table_at_lor; [done|]. by rewrite Z.land_lor_distr_l, Hf.
  - unfold PageFlags_Foreign. rewrite flag_lor, flag_lor_or by (done || lia || left; lia). apply orb_false_r.
Qed.

Lemma own_grows {sp} s T s' T' r a : grows sp s T s' T' -> own s' r a = own s r a.
Proof. intros H. unfold own. by rewrite (grows_kernel _ _ _ _ H). Qed.

Lemma path_grows {sp} s T s' T' r a l : grows sp s T s' T' -> path_place s' r a l = path_place s r a l.
Proof. intros H. unfold path_place. by rewrite (own_grows _ _ _ _ r a H). Qed.

Lemma descend_chain s T s1 T1 r a l t user : vm_inv s1 T1 -> grows (own s r a) s T s1 T1 -> live s r -> 2 <= l <= 4 ->
  T1 !! t = Some (path_place s r a l) -> (user = true -> own s r a <> s_kernel_space s) ->
  match ensure_table t (index_of a l) user s1 with
  | (Ok t', s') => exists T', vm_inv s' T' /\ grows (own s r a) s T s' T' /\ T' !! t' = Some (path_place s r a (l - 1))
  | (Err e, s') => s' = s1 /\ (e = EEXIST /\ leaf s r a <> None \/ e = ENOMEM /\ leaf s r a = None)
  | (Panic, _) => False
  end.
Proof.
  intros Hi Hg Hr Hl Ht Hu.
  pose proof (descend s1 T1 r a l t user Hi) as H. rewrite (own_grows _ _ _ _ r a Hg), (grows_kernel _ _ _ _ Hg) in H.
  rewrite !(path_grows _ _ _ _ r a _ Hg), (gr_leaf _ _ _ _ Hg) in H by done.
  specialize (H ltac:(by apply (grows_live _ _ _ _ r Hg)) Hl Ht Hu).
  destruct (ensure_table _ _ _ s1) as [[t'|e|] s']; [|done|done]. destruct H as (T' & H1 & H2 & H3).
  exists T'. split; [done|]. split; [by eapply tables_grow_trans|done].
Qed.

(** The page of an address and of its aligned address are the same. *)
Lemma vpn_aligned a : is_u64 a -> vpn (align_down a PAGE_SIZE) = vpn a.
Proof.
  intros Ha. rewrite align_down_page by done. unfold vpn, prefix. change (12 + 9 * 0) with 12.
  change PAGE_SIZE with (2 ^ 12). by rewrite Z.div_mul by done.
Qed.

Lemma walk_from_vpn s n t a a' : vpn a = vpn a' -> (n <= 4)%nat -> walk_from s n t a = walk_from s n t a'.
Proof.
  intros Hv. revert t. induction n as [|n IH]; intros t Hn; [done|]. destruct n as [|n]; [done|].
  rewrite !walk_from_SS. cbv zeta. rewrite (same_vpn_index a a') by (done || lia).
  destruct (negb _); [done|]. destruct (has_flag _ _); [done|]. apply IH. lia.
Qed.

Lemma leaf_same_vpn s r a a' : vpn a = vpn a' -> leaf s r a = leaf s r a'.
Proof. intros Hv. unfold leaf. by rewrite (walk_from_vpn s 4 r a a'), (same_vpn_index a a') by (done || lia). Qed.

Lemma own_same_vpn s r a a' : vpn a = vpn a' -> own s r a = own s r a'.
Proof. intros Hv. unfold own. by rewrite (same_vpn_index a a') by (done || lia). Qed.

Lemma path_same_vpn s r a a' l : vpn a = vpn a' -> 0 <= l <= 4 -> path_place s r a l = path_place s r a' l.
Proof. intros Hv Hl. unfold path_place. by rewrite (own_same_vpn s r a a'), (same_vpn_prefix a a') by done. Qed.

(** The three levels above the leaf. *)
Definition map_tables (m_root virtual_address : Z) (user : bool) : M (Vm F) Z :=
  let! pdpt := ensure_table m_root (index_of virtual_address 4) user in
  let! pd := ensure_table pdpt (index_of virtual_address 3) user in
  ensure_table pd (index_of virtual_address 2) user.

Lemma map_tables_spec s T r a user : vm_inv s T -> live s r ->
  (user = true -> own s r a <> s_kernel_space s) ->
  match map_tables r a user s with
  | (Ok pt, s') => exists T', vm_inv s' T' /\ grows (own s r a) s T s' T' /\ T' !! pt = Some (path_place s r a 1)
  | (Err e, s') => exists T', vm_inv s' T' /\ grows (own s r a) s T s' T'
      /\ (e = EEXIST /\ leaf s r a <> None \/ e = ENOMEM /\ leaf s r a = None)
  | (Panic, _) => False
  end.
Proof.
  intros Hi Hr Hu. unfold map_tables, mtry.
  pose proof (descend_chain s T s T r a 4 r user Hi (grows_refl s T Hi) Hr ltac:(lia)
    (root_place s T r a Hi Hr) Hu) as H4.
  destruct (ensure_table r (index_of a 4) user s) as [[t3|e|] s1]; [| |done].
  2:{ destruct H4 as [-> H4]. exists T. split; [done|]. split; [by apply grows_refl|done]. }
  destruct H4 as (T1 & I1 & G1 & P1).
  pose proof (descend_chain s T s1 T1 r a 3 t3 user I1 G1 Hr ltac:(lia) P1 Hu) as H3.
  destruct (ensure_table t3 (index_of a 3) user s1) as [[t2|e|] s2]; [| |done].
  2:{ destruct H3 as [-> H3]. by exists T1. }
  destruct H3 as (T2 & I2 & G2 & P2).
  pose proof (descend_chain s T s2 T2 r a 2 t2 user I2 G2 Hr ltac:(lia) P2 Hu) as H2.
  destruct (ensure_table t2 (index_of a 2) user s2) as [[t1|e|] s3]; [done| |done].
  destruct H2 as [-> H2]. by exists T2.
Qed.

Lemma inv_spaces s T g : vm_inv s T -> (forall r, is_Some (g !! r) <-> live s r) -> vm_inv (with_spaces g s) T.
Proof.
  intros Hi Hg. assert (Hl : forall r, live (with_spaces g s) r <-> live s r) by exact Hg.
  split; [exact (vi_frames s T Hi)|exact (vi_owned s T Hi)|exact (vi_level s T Hi)|exact (vi_child s T Hi)
         |exact (vi_parent s T Hi)| | | |].
  - intros f sp pre Hf. rewrite Hl. by apply (vi_root s T Hi).
  - intros r Hr. apply (vi_spaces s T Hi). by apply Hl.
  - apply Hl, (vi_kernel s T Hi).
  - intros r i Hr. apply (vi_upper s T Hi). by apply Hl.
Qed.

Lemma resident_live s r n r' : live (add_resident r n s) r' <-> live s r'.
Proof.
  unfold live; cbn. destruct (decide (r = r')) as [->|Hn].
  - rewrite lookup_alter_eq. by destruct (spaces s !! r').
  - by rewrite lookup_alter_ne.
Qed.

Lemma resident_inv s T r n : vm_inv s T -> vm_inv (add_resident r n s) T.
Proof. intros Hi. apply inv_spaces; [done|]. intros r'. apply (resident_live s r n r'). Qed.

(** [s'] is [s] with the entry [e] at the page of [a] in the space [r]. *)
Record mapped s T s' T' (r a e : Z) : Prop := {
  mp_inv : vm_inv s' T';
  mp_was : leaf s r a = None;
  mp_leaf : forall r' a', live s r' ->
    leaf s' r' a' = if same_page s r a r' a' then Some (1, e) else leaf s r' a';
  mp_rest : s' = add_resident r 1 (with_mem (mem s') (with_frames (frames s') s));
  mp_places : T ⊆ T';
  mp_new : forall b p, T' !! b = Some p -> T !! b = Some p
    \/ ~ fa_owned (frames s) b /\ 1 <= p_level p /\ p_space p = own s r a
    \/ b = table_at e /\ tracked s (own s r a) e = true /\ p = path_place s r a 0;
  mp_placed : tracked s (own s r a) e = true -> T' !! table_at e = Some (path_place s r a 0);
  mp_owned : forall b, fa_owned (frames s') b <-> fa_owned (frames s) b \/ is_Some (T' !! b);
  mp_other : forall t p i, T !! t = Some p -> p_space p <> own s r a -> 0 <= i < 512 ->
    entry_of s' t i = entry_of s t i;
  mp_data : forall f i, fa_owned (frames s) f -> ~ is_table T f -> frame_ok f -> 0 <= i < 512 ->
    entry_of s' f i = entry_of s f i;
}.

Lemma path_leaf_place s r a : path_place s r a 0 = mkPlace (own s r a) 0 (prefix a 1 * 512 + index_of a 1).
Proof. unfold path_place. cbn. f_equal. change 0 with (1 - 1). by rewrite prefix_step by lia. Qed.

(** The last step of [map]: the tables are there and the entry is free. *)
Lemma map_leaf s T s1 T1 r a pt e : vm_inv s T -> vm_inv s1 T1 -> grows (own s r a) s T s1 T1 -> live s r ->
  T1 !! pt = Some (path_place s r a 1) -> present (entry_of s1 pt (index_of a 1)) = false ->
  leaf s r a = None -> present e = true ->
  (tracked s (own s r a) e = true -> fa_owned (frames s) (table_at e) /\ T !! table_at e = None) ->
  mapped s T (add_resident r 1 (set_entry pt (index_of a 1) e s1))
    (if tracked s (own s r a) e then <[table_at e := path_place s r a 0]> T1 else T1) r a e.
Proof.
  intros Hi I1 G1 Hr P1 Hnone Hleaf He Hpage.
  assert (Hk : s_kernel_space s1 = s_kernel_space s) by exact (grows_kernel _ _ _ _ G1).
  assert (Htr : forall sp x, tracked s1 sp x = tracked s sp x) by (intros; unfold tracked; by rewrite Hk).
  assert (Hnew : tracked s (own s r a) e = true -> T1 !! table_at e = None).
  { intros H. destruct (Hpage H) as [Ho Hn]. destruct (T1 !! table_at e) as [p|] eqn:E; [|done].
    destruct (gr_new _ _ _ _ G1 (table_at e)) as [[q Hq]|?]; [by exists p|congruence|done]. }
  assert (P1' : T1 !! pt = Some (path_place s1 r a 1)) by by rewrite (path_grows _ _ _ _ r a 1 G1).
  assert (Hsub : T ⊆ (if tracked s (own s r a) e then <[table_at e := path_place s r a 0]> T1 else T1)).
  { destruct (tracked s (own s r a) e); [|apply G1]. etransitivity; [apply G1|]. apply insert_subseteq, Hnew. done. }
  split.
  - apply resident_inv. rewrite path_leaf_place, <- Htr.
    apply (set_leaf_inv s1 T1 pt (own s r a) (prefix a 1) (index_of a 1) e I1); try done; [|].
    + apply index_of_range. lia.
    + rewrite Htr. intros H. split; [by apply Hnew|]. apply (gr_owned _ _ _ _ G1). left. by apply Hpage.
  - done.
  - intros r' a' Hr'. change (leaf (add_resident r 1 (set_entry pt (index_of a 1) e s1)) r' a')
      with (leaf (set_entry pt (index_of a 1) e s1) r' a').
    rewrite (leaf_set s1 T1 r a pt e r' a' I1) by (done || by apply (grows_live _ _ _ _ _ G1)). rewrite He.
    rewrite (gr_leaf _ _ _ _ G1) by done. unfold same_page. by rewrite !(own_grows _ _ _ _ _ _ G1).
  - rewrite (gr_rest _ _ _ _ G1). by destruct s.
  - done.
  - intros b p Hb.
    assert (Hor : T1 !! b = Some p \/ b = table_at e /\ tracked s (own s r a) e = true /\ p = path_place s r a 0).
    { destruct (tracked s (own s r a) e); [|by left]. apply lookup_insert_Some in Hb as [[<- <-]|[_ Hb]]; [by right|by left]. }
    destruct Hor as [Hb1|?]; [|by right; right]. destruct (gr_new _ _ _ _ G1 b) as [[q Hq]|Hno]; [by exists p| |].
    + left. pose proof (lookup_weaken _ _ _ _ Hq (gr_places _ _ _ _ G1)). by simplify_eq.
    + right. left. split; [done|]. by apply (gr_level _ _ _ _ G1 b).
  - intros H. rewrite H. apply lookup_insert_eq.
  - intros b. change (frames (add_resident _ _ _)) with (frames s1). rewrite (gr_owned _ _ _ _ G1).
    destruct (tracked s (own s r a) e) eqn:E; [|done]. destruct (Hpage eq_refl) as [Ho _].
    destruct (decide (b = table_at e)) as [->|Hb]; [rewrite lookup_insert_eq|by rewrite lookup_insert_ne].
    split; [by left|]. intros _. by left.
  - intros t p i Ht Hp Hj. change (entry_of (set_entry pt (index_of a 1) e s1) t i = entry_of s t i).
    rewrite slot_set_ne; [by apply (gr_other _ _ _ _ G1 t p)|exact (place_frame s1 T1 pt _ I1 P1)
      |exact (place_frame s T t _ Hi Ht)|apply index_of_range; lia|done|]. left. intros ->.
    pose proof (lookup_weaken _ _ _ _ Ht (gr_places _ _ _ _ G1)) as Ht1. rewrite P1 in Ht1. injection Ht1 as <-. done.
  - intros f i Ho Hnt Hf Hj. change (entry_of (set_entry pt (index_of a 1) e s1) f i = entry_of s f i).
    rewrite slot_set_ne; [by apply (gr_data _ _ _ _ G1)|exact (place_frame s1 T1 pt _ I1 P1)|done|apply index_of_range; lia|done|].
    left. intros ->. destruct (gr_new _ _ _ _ G1 pt) as [[q Hq]|?]; [by eexists| |done].
    apply Hnt. exists q. split; [done|]. pose proof (lookup_weaken _ _ _ _ Hq (gr_places _ _ _ _ G1)) as Hq1.
    rewrite P1 in Hq1. injection Hq1 as <-. cbn. lia.
Qed.

Lemma map_spec_at s T r a page flags : vm_inv s T -> live s r -> is_u64 a ->
  Z.land flags ADDRESS_MASK = 0 ->
  (has_flag flags PageFlags_User = true -> own s r a <> s_kernel_space s) ->
  (tracked s (own s r a) flags = true -> frame_ok page /\ fa_owned (frames s) page /\ T !! page = None) ->
  match map r a page flags s with
  | (Ok _, s') => exists T', mapped s T s' T' r a (leaf_entry page flags)
  | (Err e, s') => exists T', vm_inv s' T' /\ grows (own s r a) s T s' T'
      /\ (e = EEXIST /\ leaf s r a <> None \/ e = ENOMEM /\ leaf s r a = None)
  | (Panic, _) => False
  end.
Proof.
  intros Hi Hr Ha Hfl Hu Hpage. set (va := align_down a PAGE_SIZE).
  pose proof (vpn_aligned a Ha) as Hv. fold va in Hv.
  assert (Hmap : map r a page flags s = (let! pt := map_tables r va (has_flag flags PageFlags_User) in
     let! s := mget in
     if has_flag (entry_of s pt (index_of va 1)) PageFlags_Present then merr EEXIST
     else mmod (set_entry pt (index_of va 1) (leaf_entry page flags)) ;! mmod (add_resident r 1)) s).
  { unfold map, map_tables, mtry. fold va. destruct (ensure_table r _ _ s) as [[?|?|] ?]; try done.
    by destruct (ensure_table _ _ _ _) as [[?|?|] ?]. }
  rewrite Hmap. clear Hmap. unfold mtry at 1.
  pose proof (map_tables_spec s T r va (has_flag flags PageFlags_User) Hi Hr) as H.
  rewrite (own_same_vpn s r va a), (leaf_same_vpn s r va a), (path_same_vpn s r va a) in H by (done || lia).
  specialize (H Hu). destruct (map_tables r va _ s) as [[pt|e|] s1]; [|done|done].
  destruct H as (T1 & I1 & G1 & P1). unfold mtry, mget, merr, mmod.
  rewrite (same_vpn_index va a) by (done || lia).
  assert (Hr1 : live s1 r) by by apply (grows_live _ _ _ _ r G1).
  assert (P1' : T1 !! pt = Some (path_place s1 r a 1)) by by rewrite (path_grows _ _ _ _ r a 1 G1).
  assert (Hleaf : leaf s r a = if present (entry_of s1 pt (index_of a 1)) then Some (1, entry_of s1 pt (index_of a 1)) else None).
  { rewrite <- (gr_leaf _ _ _ _ G1 r a Hr). unfold leaf. by rewrite (place_reached s1 T1 r a 1 pt) by (done || lia). }
  unfold present in Hleaf. destruct (has_flag (entry_of s1 pt (index_of a 1)) PageFlags_Present) eqn:Ep.
  { exists T1. split; [done|]. split; [done|]. left. by rewrite Hleaf. }
  destruct (leaf_entry_facts page flags Hfl) as (L1 & L2 & L3).
  assert (Htr : tracked s (own s r a) (leaf_entry page flags) = tracked s (own s r a) flags).
  { unfold tracked. by rewrite L3. }
  eexists. apply (map_leaf s T s1 T1); try done. rewrite Htr. intros H. destruct (Hpage H) as (Hf & Ho & Hn).
  rewrite L2, frame_masked by done. done.
Qed.

(** ** [unmap] and [protect] *)

Lemma huge_level s n t a l e : walk_from s n t a = HugeAt l e -> 2 <= l.
Proof.
  revert t. induction n as [|n IH]; intros t; [done|]. destruct n as [|n]; [done|]. rewrite walk_from_SS. cbv zeta.
  destruct (negb _); [done|]. destruct (has_flag _ _); [intros [= <- _]; lia|]. apply IH.
Qed.

Lemma leaf_walk s T r a : vm_inv s T -> live s r ->
  match leaf s r a with
  | Some (l, e) => l = 1 -> exists pt, walk_to_leaf_table s r a = Some pt
      /\ T !! pt = Some (path_place s r a 1) /\ e = entry_of s pt (index_of a 1) /\ present e = true
  | None => True
  end.
Proof.
  intros Hi Hr. unfold leaf, walk_to_leaf_table. destruct (walk_from s 4 r a) as [pt|l e|] eqn:Ew; [| |done].
  - destruct (present _) eqn:Ep; [|done]. intros _. exists pt. split_and!; try done.
    apply (walk_leaf_place s T r a 4 r pt Hi); [lia|by apply root_place|done].
  - intros ->. apply huge_level in Ew. lia.
Qed.

Lemma walk_leaf s T r a pt : vm_inv s T -> live s r -> walk_to_leaf_table s r a = Some pt ->
  T !! pt = Some (path_place s r a 1)
  /\ leaf s r a = if present (entry_of s pt (index_of a 1)) then Some (1, entry_of s pt (index_of a 1)) else None.
Proof.
  intros Hi Hr. unfold walk_to_leaf_table, leaf. destruct (walk_from s 4 r a) as [q| |] eqn:Ew; [|done|done].
  intros [= ->]. split; [|done]. apply (walk_leaf_place s T r a 4 r pt Hi); [lia|by apply root_place|done].
Qed.

Lemma walk_same_vpn s r a a' : vpn a = vpn a' -> walk_to_leaf_table s r a = walk_to_leaf_table s r a'.
Proof. intros Hv. unfold walk_to_leaf_table. by rewrite (walk_from_vpn s 4 r a a') by (done || lia). Qed.

(** [s'] is [s] without the page of [a] in [r], whose entry was [e]. *)
Record unmapped s T s' T' (r a e : Z) : Prop := {
  um_inv : vm_inv s' T';
  um_places : T' = if tracked s (own s r a) e then delete (table_at e) T else T;
  um_placed : tracked s (own s r a) e = true -> T !! table_at e = Some (path_place s r a 0);
  um_leaf : forall r' a', live s r' -> leaf s' r' a' = if same_page s r a r' a' then None else leaf s r' a';
  um_rest : s' = add_resident r (-1) (with_mem (mem s') s);
  um_data : forall f i, ~ is_table T f -> frame_ok f -> 0 <= i < 512 -> entry_of s' f i = entry_of s f i;
}.

Lemma unmap_spec_at s T r a : vm_inv s T -> live s r -> is_u64 a ->
  match leaf s r a with
  | Some (1, e) => exists T', unmapped s T (unmap r a s) T' r a e
  | _ => unmap r a s = s
  end.
Proof.
  intros Hi Hr Ha. pose proof (vpn_aligned a Ha) as Hv. unfold unmap.
  rewrite (walk_same_vpn s r _ a Hv), (same_vpn_index _ a 1 Hv) by lia.
  destruct (walk_to_leaf_table s r a) as [pt|] eqn:Ew.
  - destruct (walk_leaf s T r a pt Hi Hr Ew) as [Hpt Hleaf]. rewrite Hleaf. unfold present.
    destruct (has_flag (entry_of s pt (index_of a 1)) PageFlags_Present) eqn:Ep; [|done]. cbn [negb].
    pose proof (index_of_range a 1 ltac:(lia)) as Hx. eexists. split; [|reflexivity| | | |].
    + apply resident_inv. by apply (clear_leaf_inv s T pt (own s r a) (prefix a 1) (index_of a 1) 0).
    + rewrite path_leaf_place. intros Htr. exact (vi_child s T Hi pt _ 1 _ _ Hpt ltac:(lia) Hx Ep Htr).
    + intros r' a' Hr'. by apply (leaf_set s T r a pt 0 r' a').
    + by destruct s.
    + intros f i Hnt Hf Hj. apply slot_set_ne; [exact (place_frame s T pt _ Hi Hpt)|done|done|done|].
      left. intros ->. apply Hnt. exists (path_place s r a 1). split; [done|cbn; lia].
  - unfold leaf. unfold walk_to_leaf_table in Ew. pose proof (leaf_walk s T r a Hi Hr) as H. unfold leaf, walk_to_leaf_table in H.
    destruct (walk_from s 4 r a) as [?|l e|]; [done| |done]. destruct (decide (l = 1)) as [->|Hn].
    + destruct (H eq_refl) as (? & ? & _). done.
    + destruct l as [|[| |]|]; done.
Qed.

(** ** Ranges of pages *)

(** The page of [a'] in [r'] is one of the [n] pages from [first] in [r]. *)
Definition covered s (r first : Z) (n : nat) (r' a' : Z) : Prop :=
  exists k, 0 <= k < Z.of_nat n /\ same_page s r (first + k * PAGE_SIZE) r' a' = true.

Lemma covered_S s r first n r' a' : covered s r first (S n) r' a' <->
  covered s r first n r' a' \/ same_page s r (first + Z.of_nat n * PAGE_SIZE) r' a' = true.
Proof.
  split.
  - intros (k & Hk & H). destruct (decide (k = Z.of_nat n)) as [->|]; [by right|]. left. exists k. split; [lia|done].
  - intros [(k & Hk & H)|H]; [exists k|exists (Z.of_nat n)]; (split; [lia|done]).
Qed.

Lemma covered_0 s r first r' a' : ~ covered s r first 0 r' a'.
Proof. intros (k & Hk & _). lia. Qed.

#[export] Instance covered_dec s r first n r' a' : Decision (covered s r first n r' a').
Proof.
  induction n as [|n IH]; [right; apply covered_0|].
  destruct (same_page s r (first + Z.of_nat n * PAGE_SIZE) r' a') eqn:E.
  - left. apply covered_S. by right.
  - destruct IH as [H|H]; [left|right]; rewrite covered_S; [by left|]. intros [?|?]; congruence.
Defined.

Lemma same_page_kernel s s' r a r' a' : s_kernel_space s' = s_kernel_space s ->
  same_page s' r a r' a' = same_page s r a r' a'.
Proof. intros H. unfold same_page, own. by rewrite H. Qed.

Lemma covered_kernel s s' r first n r' a' : s_kernel_space s' = s_kernel_space s ->
  covered s' r first n r' a' <-> covered s r first n r' a'.
Proof. intros H. unfold covered. by setoid_rewrite (same_page_kernel s s' _ _ _ _ H). Qed.

(** What [unmap_range] leaves at an address of the range: huge pages are not touched. *)
Definition cleared (x : option (Z * Z)) : option (Z * Z) :=
  match x with Some (1, _) => None | _ => x end.

Record range_unmapped s T s' T' (r first : Z) (n : nat) : Prop := {
  ru_inv : vm_inv s' T';
  ru_places : T' ⊆ T;
  ru_frames : frames s' = frames s;
  ru_kernel : s_kernel_space s' = s_kernel_space s;
  ru_live : forall x, live s' x <-> live s x;
  ru_leaf : forall r' a', live s r' ->
    leaf s' r' a' = if decide (covered s r first n r' a') then cleared (leaf s r' a') else leaf s r' a';
  ru_data : forall f i, ~ is_table T f -> frame_ok f -> 0 <= i < 512 -> entry_of s' f i = entry_of s f i;
}.

Lemma range_unmapped_refl s T r first : vm_inv s T -> range_unmapped s T s T r first 0.
Proof. intros Hi. split; done. Qed.

Lemma unmapped_live s T s' T' r a e x : unmapped s T s' T' r a e -> live s' x <-> live s x.
Proof. intros H. rewrite (um_rest _ _ _ _ _ _ _ H). apply (resident_live (with_mem (mem s') s) r (-1) x). Qed.

(** One page of one space, or of the kernel's half of any, is one entry. *)
Lemma leaf_same_page s T r a r' a' : vm_inv s T -> live s r -> live s r' -> same_page s r a r' a' = true ->
  leaf s r' a' = leaf s r a.
Proof.
  intros Hi Hr Hr' H. apply bool_decide_eq_true in H as [Ho Hv].
  rewrite <- (leaf_same_vpn s r' a a' Hv). rewrite <- (own_same_vpn s r' a a' Hv) in Ho. unfold own in Ho.
  destruct (Z.leb_spec 256 (index_of a 4)) as [Hx|Hx]; [|by rewrite Ho].
  pose proof (index_of_range a 4 ltac:(lia)).
  destruct (vi_upper s T Hi r (index_of a 4) Hr ltac:(lia)) as (A1 & A2 & A3).
  destruct (vi_upper s T Hi r' (index_of a 4) Hr' ltac:(lia)) as (B1 & B2 & B3). unfold present in A1, B1.
  unfold leaf. rewrite !walk_from_SS. change (Z.of_nat 4) with 4. cbv zeta.
  by rewrite A1, A2, A3, B1, B2, B3.
Qed.

Lemma unmap_cleared s T r a : vm_inv s T -> live s r -> is_u64 a ->
  exists T', range_unmapped s T (unmap r a s) T' r a 1.
Proof.
  intros Hi Hr Ha. pose proof (unmap_spec_at s T r a Hi Hr Ha) as Hu.
  assert (Hcov : forall r' a', covered s r a 1 r' a' <-> same_page s r a r' a' = true).
  { intros r' a'. rewrite covered_S. replace (a + Z.of_nat 0 * PAGE_SIZE) with a by lia.
    split; [intros [H|H]; [by apply covered_0 in H|done]|by right]. }
  destruct (leaf s r a) as [[l e]|] eqn:El.
  2:{ rewrite Hu. exists T. split; try done. intros r' a' Hr'. case_decide as Hc; [|done].
      apply Hcov in Hc. by rewrite (leaf_same_page s T r a r' a') , El. }
  destruct (decide (l = 1)) as [->|Hl].
  - destruct Hu as (T2 & Hu). exists T2. split.
    + apply Hu.
    + rewrite (um_places _ _ _ _ _ _ _ Hu). destruct (tracked _ _ _); [apply delete_subseteq|done].
    + by rewrite (um_rest _ _ _ _ _ _ _ Hu).
    + by rewrite (um_rest _ _ _ _ _ _ _ Hu).
    + intros x. by rewrite (unmapped_live _ _ _ _ _ _ _ x Hu).
    + intros r' a' Hr'. rewrite (um_leaf _ _ _ _ _ _ _ Hu) by done. destruct (same_page s r a r' a') eqn:Es.
      * rewrite decide_True by by apply Hcov. by rewrite (leaf_same_page s T r a r' a'), El.
      * rewrite decide_False; [done|]. rewrite Hcov. congruence.
    + intros f i Hnt Hf Hj. by apply (um_data _ _ _ _ _ _ _ Hu).
  - assert (E : unmap r a s = s) by (destruct l as [|[| |]|]; done). rewrite E. exists T. split; try done.
    intros r' a' Hr'. case_decide as Hc; [|done]. apply Hcov in Hc.
    rewrite (leaf_same_page s T r a r' a') by done. rewrite El. by destruct l as [|[| |]|].
Qed.

Lemma cleared_idem x : cleared (cleared x) = cleared x.
Proof. by destruct x as [[[|[| |]|] e]|]. Qed.

Lemma range_unmapped_step s T s1 T1 r first n : vm_inv s T -> live s r ->
  range_unmapped s T s1 T1 r first n -> is_u64 (first + Z.of_nat n * PAGE_SIZE) ->
  exists T2, range_unmapped s T (unmap r (first + Z.of_nat n * PAGE_SIZE) s1) T2 r first (S n).
Proof.
  intros Hi Hr H Ha. set (a := first + Z.of_nat n * PAGE_SIZE) in *.
  assert (Hr1 : live s1 r) by by apply (ru_live _ _ _ _ _ _ _ H).
  destruct (unmap_cleared s1 T1 r a (ru_inv _ _ _ _ _ _ _ H) Hr1 Ha) as (T2 & Hu).
  assert (Hk : s_kernel_space s1 = s_kernel_space s) by apply H. exists T2. split.
  - apply Hu.
  - etransitivity; [apply Hu|apply H].
  - etransitivity; [apply Hu|apply H].
  - etransitivity; [apply Hu|apply H].
  - intros x. rewrite (ru_live _ _ _ _ _ _ _ Hu). apply H.
  - intros r' a' Hr'. rewrite (ru_leaf _ _ _ _ _ _ _ Hu) by by apply (ru_live _ _ _ _ _ _ _ H).
    rewrite (ru_leaf _ _ _ _ _ _ _ H) by done.
    assert (Hc : covered s r first (S n) r' a' <-> covered s r first n r' a' \/ covered s1 r a 1 r' a').
    { rewrite covered_S, (covered_kernel s s1) by done. rewrite (covered_S s r a 0).
      replace (a + Z.of_nat 0 * PAGE_SIZE) with a by lia. pose proof (covered_0 s r a r' a'). fold a. tauto. }
    destruct (decide (covered s1 r a 1 r' a')), (decide (covered s r first n r' a')),
      (decide (covered s r first (S n) r' a')); try (exfalso; tauto); try done. apply cleared_idem.
  - intros f i Hnt Hf Hj. rewrite (ru_data _ _ _ _ _ _ _ Hu f i); [by apply (ru_data _ _ _ _ _ _ _ H)| |done|done].
    intros (p & Hp & Hl). apply Hnt. exists p. split; [|done]. eapply lookup_weaken; [done|apply H].
Qed.

Lemma mfor_unmap s T r first n : vm_inv s T -> live s r ->
  0 <= first -> first + Z.of_nat n * PAGE_SIZE <= 2 ^ 64 ->
  exists s' T', mfor n first PAGE_SIZE (fun p => mmod (unmap r p)) s = (Ok tt, s')
    /\ range_unmapped s T s' T' r first n.
Proof.
  intros Hi Hr H0 Hn.
  assert (H : match mfor n first PAGE_SIZE (fun p => mmod (unmap r p)) s with
              | (Ok _, s') => exists T', range_unmapped s T s' T' r first n
              | (_, _) => False
              end).
  { apply (mfor_ind (fun k s' => exists T', range_unmapped s T s' T' r first k) (fun _ _ => False)).
    - exists T. by apply range_unmapped_refl.
    - intros k s1 Hk (T1 & H1). cbn. apply (range_unmapped_step s T s1 T1 r first k Hi Hr H1).
      unfold is_u64, PAGE_SIZE in *. lia. }
  destruct (mfor n first PAGE_SIZE _ s) as [[[]|e|] s']; [|done|done]. destruct H as (T' & H). by exists s', T'.
Qed.

Lemma range_bound address length : is_u64 address ->
  let first := range_start address in
  0 <= first /\ first + Z.of_nat (page_count first (range_end address length)) * PAGE_SIZE <= 2 ^ 64.
Proof.
  intros Ha. cbn zeta. unfold range_start, page_count. rewrite align_down_page by done.
  assert (He : is_u64 (range_end address length)).
  { unfold range_end, align_up. apply is_u64_land; apply u64_range. }
  unfold is_u64, PAGE_SIZE in *. zlia.
Qed.

Lemma unmap_range_at s T r a length : vm_inv s T -> live s r -> is_u64 a ->
  exists s' T', unmap_range r a length s = (Ok tt, s')
    /\ range_unmapped s T s' T' r (range_start a) (page_count (range_start a) (range_end a length)).
Proof. intros Hi Hr Ha. destruct (range_bound a length Ha). by apply mfor_unmap. Qed.

(** ** Giving a frame back *)

Lemma free_unplaced s T f : vm_inv s T -> fa_owned (frames s) f -> T !! f = None ->
  exists g, free_frame f s = (Ok tt, with_frames g s) /\ vm_inv (with_frames g s) T
    /\ forall b, fa_owned g b <-> b <> f /\ fa_owned (frames s) b.
Proof.
  intros Hi Ho Hn. destruct (fa_free_spec (frames s) f (vi_frames s T Hi) Ho) as (g & Hg & Hok & Hown).
  exists g. unfold free_frame, on_frames. rewrite Hg. split; [done|]. split; [|done].
  apply (inv_equiv s (with_frames g s) T Hi); [by destruct s|done| |by left].
  intros b p Hb. apply Hown. split; [congruence|]. exact (vi_owned s T Hi b p Hb).
Qed.

(** ** [map_anonymous] *)

(** A placed page is mapped. *)
Lemma placed_mapped s T r a f : vm_inv s T -> live s r -> T !! f = Some (path_place s r a 0) -> leaf s r a <> None.
Proof.
  intros Hi Hr Hf. rewrite path_leaf_place in Hf.
  destruct (vi_parent s T Hi f _ 0 _ Hf) as (t & Ht & Hp & _); [lia|].
  pose proof (index_of_range a 1 ltac:(lia)) as Hx.
  replace ((prefix a 1 * 512 + index_of a 1) / 512) with (prefix a 1) in Ht by zlia.
  replace ((prefix a 1 * 512 + index_of a 1) mod 512) with (index_of a 1) in Hp by zlia.
  unfold leaf. rewrite (place_reached s T r a 1 t) by (done || lia). cbn. by rewrite Hp.
Qed.

(** [s1] is [s] with the first [k] pages from [first] mapped: what was there is
    kept, and the rest is fresh zeroed frames. *)
Record filled s T s1 T1 (r first : Z) (k : nat) (flags : Z) : Prop := {
  fl_inv : vm_inv s1 T1;
  fl_live : forall x, live s1 x <-> live s x;
  fl_kernel : s_kernel_space s1 = s_kernel_space s;
  fl_owned : forall b, fa_owned (frames s) b -> fa_owned (frames s1) b;
  fl_keep : forall r' a', live s r' -> leaf s r' a' <> None \/ ~ covered s r first k r' a' ->
    leaf s1 r' a' = leaf s r' a';
  fl_fill : forall r' a', live s r' -> leaf s r' a' = None -> covered s r first k r' a' ->
    exists f, leaf s1 r' a' = Some (1, leaf_entry f flags) /\ frame_ok f
      /\ ~ fa_owned (frames s) f /\ fa_owned (frames s1) f
      /\ (forall p, T1 !! f = Some p -> p = path_place s r' a' 0)
      /\ forall i, 0 <= i < 512 -> entry_of s1 f i = 0;
  fl_old : forall b p, T1 !! b = Some p -> fa_owned (frames s) b -> T !! b = Some p;
  fl_data : forall f i, fa_owned (frames s) f -> ~ is_table T f -> frame_ok f -> 0 <= i < 512 ->
    entry_of s1 f i = entry_of s f i;
}.

Lemma filled_refl s T r first flags : vm_inv s T -> filled s T s T r first 0 flags.
Proof. intros Hi. split; try done. intros r' a' _ _ Hc. by apply covered_0 in Hc. Qed.

Section Fill.
Context (s : Vm F) (T : gmap Z Place) (r first flags : Z) (k : nat) (s1 : Vm F) (T1 : gmap Z Place).
Context (Hi : vm_inv s T) (Hr : live s r) (Hfl : Z.land flags ADDRESS_MASK = 0).
Context (H1 : filled s T s1 T1 r first k flags).
Let a := first + Z.of_nat k * PAGE_SIZE.
Context (Ha : is_u64 a) (Hu : has_flag flags PageFlags_User = true -> own s r a <> s_kernel_space s).

Lemma fill_live : live s1 r.
Proof. by apply (fl_live _ _ _ _ _ _ _ _ H1). Qed.

Lemma fill_table g : fa_owned (frames s) g -> ~ is_table T g -> ~ is_table T1 g.
Proof. intros Ho Hn (p & Hp & Hl). apply Hn. exists p. split; [|done]. by apply (fl_old _ _ _ _ _ _ _ _ H1). Qed.

(** The page is mapped already. *)
Lemma filled_skip : leaf s1 r a <> None -> filled s T s1 T1 r first (S k) flags.
Proof.
  intros Hm. pose proof (fl_inv _ _ _ _ _ _ _ _ H1) as I1.
  split; try apply H1.
  - intros r' a' Hr' [Hl|Hc]; apply (fl_keep _ _ _ _ _ _ _ _ H1); try done; [by left|].
    right. intros Hc'. apply Hc, covered_S. by left.
  - intros r' a' Hr' Hl Hc. apply (fl_fill _ _ _ _ _ _ _ _ H1); [done|done|].
    apply covered_S in Hc as [Hc|Hc]; [done|]. destruct (decide (covered s r first k r' a')) as [|Hn]; [done|]. exfalso.
    apply Hm. rewrite <- Hl, <- (fl_keep _ _ _ _ _ _ _ _ H1 r' a' Hr' (or_intror Hn)). symmetry.
    apply (leaf_same_page s1 T1); [done|apply fill_live|by apply (fl_live _ _ _ _ _ _ _ _ H1)|].
    by rewrite (same_page_kernel s s1) by apply H1.
Qed.

(** A fresh zeroed frame is mapped there. *)
Lemma filled_map s2 f s3 T3 : leaf s1 r a = None -> took_frame s1 T1 s2 f ->
  (forall i, 0 <= i < 512 -> entry_of s2 f i = 0) ->
  mapped s2 T1 s3 T3 r a (leaf_entry f flags) -> filled s T s3 T3 r first (S k) flags.
Proof.
  intros Hm Htf Hz Hmp. pose proof (fl_inv _ _ _ _ _ _ _ _ H1) as I1.
  pose proof (tf_unplaced s1 T1 s2 f I1 Htf) as Hnp.
  destruct (leaf_entry_facts f flags Hfl) as (L1 & L2 & _). pose proof (tf_frame _ _ _ _ Htf) as Hf.
  rewrite frame_masked in L2 by done.
  assert (Hk2 : s_kernel_space s2 = s_kernel_space s).
  { rewrite (tf_rest _ _ _ _ Htf). apply (fl_kernel _ _ _ _ _ _ _ _ H1). }
  assert (Hlv2 : forall x, live s2 x <-> live s x).
  { intros x. unfold live. rewrite (tf_rest _ _ _ _ Htf). apply (fl_live _ _ _ _ _ _ _ _ H1). }
  assert (Hlv3 : forall x, live s3 x <-> live s x).
  { intros x. rewrite (mp_rest _ _ _ _ _ _ _ Hmp), resident_live. apply Hlv2. }
  assert (Hown2 : forall b, fa_owned (frames s1) b -> fa_owned (frames s2) b).
  { intros b Hb. apply (tf_owned _ _ _ _ Htf). by right. }
  assert (Hf2 : fa_owned (frames s2) f) by (apply (tf_owned _ _ _ _ Htf); by left).
  assert (Hlf : forall r' a', live s r' -> leaf s3 r' a'
            = if same_page s r a r' a' then Some (1, leaf_entry f flags) else leaf s1 r' a').
  { intros r' a' Hr'. rewrite (mp_leaf _ _ _ _ _ _ _ Hmp) by by apply Hlv2.
    rewrite (same_page_kernel s s2) by done. destruct (same_page s r a r' a'); [done|].
    apply (tf_leaf _ _ _ _ Htf). by apply (fl_live _ _ _ _ _ _ _ _ H1). }
  assert (Hsp : forall r' a', live s r' -> same_page s r a r' a' = true -> leaf s1 r' a' = None).
  { intros r' a' Hr' Hs. rewrite <- Hm. apply (leaf_same_page s1 T1); [done|apply fill_live|by apply (fl_live _ _ _ _ _ _ _ _ H1)|].
    by rewrite (same_page_kernel s s1) by apply H1. }
  split.
  - apply Hmp.
  - exact Hlv3.
  - rewrite (mp_rest _ _ _ _ _ _ _ Hmp). exact Hk2.
  - intros b Hb. apply (mp_owned _ _ _ _ _ _ _ Hmp). left. by apply Hown2, (fl_owned _ _ _ _ _ _ _ _ H1).
  - intros r' a' Hr' Hor. rewrite Hlf by done.
    assert (Hkeep : leaf s1 r' a' = leaf s r' a').
    { apply (fl_keep _ _ _ _ _ _ _ _ H1); [done|]. destruct Hor as [?|Hc]; [by left|right].
      intros Hc'. apply Hc, covered_S. by left. }
    destruct (same_page s r a r' a') eqn:Es; [|done]. exfalso. destruct Hor as [Hl|Hc].
    + apply Hl. rewrite <- Hkeep. by apply Hsp.
    + apply Hc, covered_S. by right.
  - intros r' a' Hr' Hl Hc. rewrite Hlf by done. destruct (same_page s r a r' a') eqn:Es.
    + exists f. split_and!; try done; [|by apply (mp_owned _ _ _ _ _ _ _ Hmp); left| |].
      * intros Ho. apply (tf_new _ _ _ _ Htf). by apply (fl_owned _ _ _ _ _ _ _ _ H1).
      * intros p Hp. destruct (mp_new _ _ _ _ _ _ _ Hmp f p Hp) as [?|[[? _]|(_ & _ & ->)]]; [congruence|done|].
        rewrite (same_page_path s r a r' a' 0) by (done || lia). unfold path_place. cbn. unfold own. by rewrite Hk2.
      * intros i Hj. rewrite (mp_data _ _ _ _ _ _ _ Hmp) by (done || by intros (p & Hp & _); congruence). by apply Hz.
    + apply covered_S in Hc as [Hc|Hc]; [|fold a in Hc; congruence].
      destruct (fl_fill _ _ _ _ _ _ _ _ H1 r' a' Hr' Hl Hc) as (g & G1 & G2 & G3 & G4 & G5 & G6).
      assert (Hgf : g <> f) by (intros ->; exact (tf_new _ _ _ _ Htf G4)).
      exists g. split_and!; try done; [by apply (mp_owned _ _ _ _ _ _ _ Hmp); left; apply Hown2| |].
      * intros p Hp. destruct (mp_new _ _ _ _ _ _ _ Hmp g p Hp) as [?|[[Hno _]|(E & _)]]; [by apply G5| |congruence].
        by destruct (Hno (Hown2 g G4)).
      * intros i Hj. rewrite (mp_data _ _ _ _ _ _ _ Hmp g i); [|by apply Hown2| |done|done].
        -- rewrite (tf_data _ _ _ _ Htf) by done. by apply G6.
        -- intros (p & Hp & Hlv). rewrite (G5 p Hp) in Hlv. cbn in Hlv. lia.
  - intros b p Hb Ho. apply (fl_old _ _ _ _ _ _ _ _ H1); [|done]. pose proof (fl_owned _ _ _ _ _ _ _ _ H1 b Ho) as Ho1.
    destruct (mp_new _ _ _ _ _ _ _ Hmp b p Hb) as [?|[[Hno _]|(E & _)]]; [done|by destruct (Hno (Hown2 b Ho1))|].
    destruct (tf_new _ _ _ _ Htf). by rewrite <- L2, <- E.
  - intros g i Ho Hnt Hg Hj. pose proof (fl_owned _ _ _ _ _ _ _ _ H1 g Ho) as Ho1.
    rewrite (mp_data _ _ _ _ _ _ _ Hmp g i); [|by apply Hown2|by apply fill_table|done|done].
    rewrite (tf_data _ _ _ _ Htf); [by apply (fl_data _ _ _ _ _ _ _ _ H1)| |done|done]. by intros ->; apply (tf_new _ _ _ _ Htf).
Qed.
End Fill.

(** A mapping that failed half way leaves more tables and nothing else. *)
Lemma filled_failed {sp} s T r first flags k s1 T1 s2 f s3 T3 g :
  filled s T s1 T1 r first k flags -> took_frame s1 T1 s2 f -> grows sp s2 T1 s3 T3 ->
  vm_inv (with_frames g s3) T3 -> (forall b, fa_owned g b <-> b <> f /\ fa_owned (frames s3) b) ->
  filled s T (with_frames g s3) T3 r first k flags.
Proof.
  intros H1 Htf Hg Hi3 Hown. pose proof (fl_inv _ _ _ _ _ _ _ _ H1) as I1.
  assert (Hlv2 : forall x, live s2 x <-> live s1 x) by (intros x; unfold live; by rewrite (tf_rest _ _ _ _ Htf)).
  assert (Hlf : forall r' a', live s r' -> leaf (with_frames g s3) r' a' = leaf s1 r' a').
  { intros r' a' Hr'. change (leaf s3 r' a' = leaf s1 r' a').
    assert (live s1 r') by by apply (fl_live _ _ _ _ _ _ _ _ H1).
    rewrite (gr_leaf _ _ _ _ Hg) by by apply Hlv2. by apply (tf_leaf _ _ _ _ Htf). }
  assert (Hkeep : forall b, fa_owned (frames s1) b -> fa_owned g b).
  { intros b Hb. apply Hown. split; [intros ->; exact (tf_new _ _ _ _ Htf Hb)|].
    apply (gr_owned _ _ _ _ Hg). left. apply (tf_owned _ _ _ _ Htf). by right. }
  split.
  - done.
  - intros x. change (live s3 x <-> live s x). rewrite (grows_live _ _ _ _ x Hg), Hlv2. apply H1.
  - change (s_kernel_space s3 = s_kernel_space s). rewrite (grows_kernel _ _ _ _ Hg), (tf_rest _ _ _ _ Htf). apply H1.
  - intros b Hb. by apply Hkeep, (fl_owned _ _ _ _ _ _ _ _ H1).
  - intros r' a' Hr' Hor. rewrite Hlf by done. by apply (fl_keep _ _ _ _ _ _ _ _ H1).
  - intros r' a' Hr' Hl Hc. rewrite Hlf by done.
    destruct (fl_fill _ _ _ _ _ _ _ _ H1 r' a' Hr' Hl Hc) as (h & G1 & G2 & G3 & G4 & G5 & G6).
    assert (Hh2 : fa_owned (frames s2) h) by (apply (tf_owned _ _ _ _ Htf); by right).
    exists h. split_and!; try done; [by apply Hkeep| |].
    + intros p Hp. apply G5. destruct (gr_new _ _ _ _ Hg h) as [[q Hq]|?]; [by exists p| |done].
      pose proof (lookup_weaken _ _ _ _ Hq (gr_places _ _ _ _ Hg)). by simplify_eq.
    + intros i Hj. change (entry_of s3 h i = 0). rewrite (gr_data _ _ _ _ Hg h i); [|done| |done|done].
      * rewrite (tf_data _ _ _ _ Htf); [by apply G6| |done|done]. intros ->. exact (tf_new _ _ _ _ Htf G4).
      * intros (p & Hp & Hl2). rewrite (G5 p Hp) in Hl2. cbn in Hl2. lia.
  - intros b p Hb Ho. apply (fl_old _ _ _ _ _ _ _ _ H1); [|done]. pose proof (fl_owned _ _ _ _ _ _ _ _ H1 b Ho) as Ho1.
    destruct (gr_new _ _ _ _ Hg b) as [[q Hq]|Hno]; [by exists p| |destruct Hno; apply (tf_owned _ _ _ _ Htf); by right].
    pose proof (lookup_weaken _ _ _ _ Hq (gr_places _ _ _ _ Hg)). by simplify_eq.
  - intros h i Ho Hnt Hh Hj. pose proof (fl_owned _ _ _ _ _ _ _ _ H1 h Ho) as Ho1. change (entry_of s3 h i = entry_of s h i).
    rewrite (gr_data _ _ _ _ Hg h i); [|apply (tf_owned _ _ _ _ Htf); by right|by apply (fill_table s T r first flags k s1 T1 H1)|done|done].
    rewrite (tf_data _ _ _ _ Htf); [by apply (fl_data _ _ _ _ _ _ _ _ H1)| |done|done]. by intros ->; apply (tf_new _ _ _ _ Htf).
Qed.

(** What a failed [map_anonymous] leaves: every page below the one it failed at is
    gone, the ones that were there before the call included, and the frames it had
    taken for the others stay allocated to nobody. *)
Record rolled_back s T s' T' (r first : Z) (k : nat) : Prop := {
  rb_inv : vm_inv s' T';
  rb_live : forall x, live s' x <-> live s x;
  rb_kernel : s_kernel_space s' = s_kernel_space s;
  rb_owned : forall b, fa_owned (frames s) b -> fa_owned (frames s') b;
  rb_leaf : forall r' a', live s r' ->
    leaf s' r' a' = if decide (covered s r first k r' a') then cleared (leaf s r' a') else leaf s r' a';
  rb_leak : forall r' a', live s r' -> leaf s r' a' = None -> covered s r first k r' a' ->
    exists f, ~ fa_owned (frames s) f /\ fa_owned (frames s') f /\ T' !! f = None;
  rb_old : forall b p, T' !! b = Some p -> fa_owned (frames s) b -> T !! b = Some p;
  rb_data : forall f i, fa_owned (frames s) f -> ~ is_table T f -> frame_ok f -> 0 <= i < 512 ->
    entry_of s' f i = entry_of s f i;
}.

Lemma rollback s T r first flags k s1 T1 s' T' : filled s T s1 T1 r first k flags ->
  range_unmapped s1 T1 s' T' r first k -> rolled_back s T s' T' r first k.
Proof.
  intros H1 Hu. pose proof (fl_kernel _ _ _ _ _ _ _ _ H1) as Hk.
  assert (Hlf : forall r' a', live s r' ->
    leaf s' r' a' = if decide (covered s r first k r' a') then cleared (leaf s r' a') else leaf s r' a').
  { intros r' a' Hr'. rewrite (ru_leaf _ _ _ _ _ _ _ Hu) by by apply (fl_live _ _ _ _ _ _ _ _ H1).
    pose proof (covered_kernel s s1 r first k r' a' Hk) as Hc.
    destruct (decide (covered s1 r first k r' a')), (decide (covered s r first k r' a')); try (exfalso; tauto).
    - destruct (leaf s r' a') as [x|] eqn:El.
      + rewrite (fl_keep _ _ _ _ _ _ _ _ H1 r' a' Hr'); [by rewrite El|]. left. by rewrite El.
      + by destruct (fl_fill _ _ _ _ _ _ _ _ H1 r' a' Hr' El) as (f & -> & _).
    - apply (fl_keep _ _ _ _ _ _ _ _ H1); [done|by right]. }
  assert (Hlv : forall x, live s' x <-> live s x).
  { intros x. rewrite (ru_live _ _ _ _ _ _ _ Hu). apply H1. }
  assert (Hk' : s_kernel_space s' = s_kernel_space s) by (rewrite (ru_kernel _ _ _ _ _ _ _ Hu); apply H1).
  split; [apply Hu|done|done| |done| | |].
  - intros b Hb. rewrite (ru_frames _ _ _ _ _ _ _ Hu). by apply H1.
  - intros r' a' Hr' Hl Hc.
    destruct (fl_fill _ _ _ _ _ _ _ _ H1 r' a' Hr' Hl Hc) as (f & _ & _ & G3 & G4 & G5 & _).
    exists f. split; [done|]. split; [by rewrite (ru_frames _ _ _ _ _ _ _ Hu)|].
    destruct (T' !! f) as [p|] eqn:Ep; [|done]. exfalso.
    pose proof (G5 p (lookup_weaken _ _ _ _ Ep (ru_places _ _ _ _ _ _ _ Hu))) as ->.
    apply (placed_mapped s' T' r' a' f); [apply Hu|by apply Hlv| |].
    + rewrite Ep. f_equal. unfold path_place, own. by rewrite Hk'.
    + rewrite Hlf by done. rewrite decide_True, Hl by done. done.
  - intros b p Hb. apply (fl_old _ _ _ _ _ _ _ _ H1). exact (lookup_weaken _ _ _ _ Hb (ru_places _ _ _ _ _ _ _ Hu)).
  - intros f i Ho Hnt Hf Hj. rewrite (ru_data _ _ _ _ _ _ _ Hu); [by apply (fl_data _ _ _ _ _ _ _ _ H1)| |done|done].
    by apply (fill_table s T r first flags k s1 T1 H1).
Qed.

Lemma page_count_exact first k : 0 <= first -> first mod PAGE_SIZE = 0 -> first + Z.of_nat k * PAGE_SIZE < 2 ^ 64 ->
  range_start first = first
  /\ page_count first (range_end first (first + Z.of_nat k * PAGE_SIZE - first)) = k.
Proof.
  intros H0 Hm Hlt. unfold range_start, range_end, page_count.
  assert (Hf : is_u64 first) by (unfold is_u64, PAGE_SIZE in *; lia).
  rewrite align_down_page by done. split; [unfold PAGE_SIZE in *; zlia|].
  replace (first + (first + Z.of_nat k * PAGE_SIZE - first)) with (first + Z.of_nat k * PAGE_SIZE) by lia.
  rewrite u64_small by (unfold is_u64, PAGE_SIZE in *; lia).
  rewrite align_up_aligned by (unfold is_u64, PAGE_SIZE in *; zlia). unfold PAGE_SIZE in *. zlia.
Qed.

(** The body of the loop, as a step from [k] pages to [k + 1]. *)
Lemma anonymous_step s T r first flags n k s1 T1 : vm_inv s T -> live s r -> Z.land flags ADDRESS_MASK = 0 ->
  0 <= first -> first mod PAGE_SIZE = 0 -> first + Z.of_nat n * PAGE_SIZE <= 2 ^ 64 -> (k < n)%nat ->
  filled s T s1 T1 r first k flags -> let a := first + Z.of_nat k * PAGE_SIZE in
  (has_flag flags PageFlags_User = true -> own s r a <> s_kernel_space s) ->
  match (let! s := mget in
         if is_mapped s r a then mok tt
         else
           let! frame_or_error := mcatch allocate_zeroed_page in
           match frame_or_error with
           | inr code => unmap_range r first (a - first) ;! merr code
           | inl frame =>
               let! result := mcatch (map r a frame flags) in
               match result with
               | inr code => free_frame frame ;! unmap_range r first (a - first) ;! merr code
               | inl _ => mok tt
               end
           end) s1 with
  | (Ok _, s2) => exists T2, filled s T s2 T2 r first (S k) flags
  | (Err e, s2) => e = ENOMEM /\ leaf s r a = None /\ exists T2, rolled_back s T s2 T2 r first k
  | (Panic, _) => False
  end.
Proof.
  intros Hi Hr Hfl H0 Hm Hn Hk H1 a Hu.
  assert (Ha : is_u64 a) by (unfold a, is_u64, PAGE_SIZE in *; lia).
  pose proof (fl_inv _ _ _ _ _ _ _ _ H1) as I1. pose proof (fl_kernel _ _ _ _ _ _ _ _ H1) as Hker.
  assert (Hr1 : live s1 r) by by apply (fl_live _ _ _ _ _ _ _ _ H1).
  destruct (page_count_exact first k H0 Hm) as [Hst Hpc]; [unfold a, is_u64, PAGE_SIZE in *; lia|].
  assert (Hfu : is_u64 first) by (unfold a, is_u64, PAGE_SIZE in *; lia).
  assert (Hroll : forall s4 T4 e, filled s T s4 T4 r first k flags ->
    exists s5, (unmap_range r first (a - first) ;! merr (A := unit) e) s4 = (Err e, s5)
      /\ exists T5, rolled_back s T s5 T5 r first k).
  { intros s4 T4 e H4. destruct (unmap_range_at s4 T4 r first (a - first)) as (s5 & T5 & Hru & H5);
      [apply H4|by apply (fl_live _ _ _ _ _ _ _ _ H4)|done|].
    rewrite Hst in H5. unfold a in H5 at 1. rewrite Hpc in H5.
    exists s5. unfold mtry. rewrite Hru. split; [done|]. exists T5. by eapply rollback. }
  unfold mtry at 1, mget. rewrite is_mapped_leaf. case_bool_decide as Hmap.
  { exists T1. apply filled_skip; [done|done|]. fold a. destruct Hmap as [x ->]. done. }
  assert (Hnone : leaf s1 r a = None) by (destruct (leaf s1 r a); [by destruct Hmap|done]). clear Hmap.
  assert (Hnone0 : leaf s r a = None).
  { destruct (leaf s r a) eqn:E; [|done]. rewrite <- E, <- (fl_keep _ _ _ _ _ _ _ _ H1 r a Hr); [done|]. left. by rewrite E. }
  unfold mtry at 1, mcatch at 1. pose proof (allocate_zeroed_spec s1 T1 I1) as Hal.
  destruct (allocate_zeroed_page s1) as [[f|e|] s2]; [|destruct Hal as [-> ->]|done].
  2:{ destruct (Hroll s1 T1 ENOMEM H1) as (s5 & -> & T5 & H5). split; [done|]. split; [done|]. by exists T5. }
  destruct Hal as [Htf Hz]. pose proof (tf_inv _ _ _ _ Htf) as I2.
  assert (Hk2 : s_kernel_space s2 = s_kernel_space s) by (rewrite (tf_rest _ _ _ _ Htf); done).
  assert (Hf2 : fa_owned (frames s2) f) by (apply (tf_owned _ _ _ _ Htf); by left).
  pose proof (tf_unplaced s1 T1 s2 f I1 Htf) as Hnp.
  assert (Hr2 : live s2 r) by (unfold live; by rewrite (tf_rest _ _ _ _ Htf)).
  assert (Hnone2 : leaf s2 r a = None) by by rewrite (tf_leaf _ _ _ _ Htf).
  pose proof (map_spec_at s2 T1 r a f flags I2 Hr2 Ha Hfl) as Hmp. unfold own in Hmp. rewrite Hk2 in Hmp.
  specialize (Hmp Hu ltac:(intros _; exact (conj (tf_frame _ _ _ _ Htf) (conj Hf2 Hnp)))).
  unfold mtry at 1, mcatch at 1. destruct (map r a f flags s2) as [[u|e|] s3]; [| |done].
  - destruct Hmp as (T3 & Hmp). exists T3. by apply (filled_map s T r first flags k s1 T1 Hr Hfl H1 s2 f).
  - destruct Hmp as (T3 & I3 & G3 & [[_ Hmp]|[-> _]]); [done|].
    assert (Hf3 : fa_owned (frames s3) f) by (apply (gr_owned _ _ _ _ G3); by left).
    assert (Hnp3 : T3 !! f = None).
    { destruct (T3 !! f) as [p|] eqn:E; [|done]. destruct (gr_new _ _ _ _ G3 f) as [[q Hq]|?]; [by exists p|congruence|done]. }
    destruct (free_unplaced s3 T3 f I3 Hf3 Hnp3) as (g & Hg & I4 & Hown). unfold mtry at 1. rewrite Hg.
    destruct (Hroll (with_frames g s3) T3 ENOMEM) as (s5 & -> & T5 & H5); [by eapply filled_failed|].
    split; [done|]. split; [done|]. by exists T5.
Qed.

Lemma map_anonymous_at s T r address length flags : vm_inv s T -> live s r -> is_u64 address ->
  Z.land flags ADDRESS_MASK = 0 ->
  let first := range_start address in let n := page_count first (range_end address length) in
  (has_flag flags PageFlags_User = true ->
     forall k, (k < n)%nat -> own s r (first + Z.of_nat k * PAGE_SIZE) <> s_kernel_space s) ->
  match map_anonymous r address length flags s with
  | (Ok _, s') => exists T', filled s T s' T' r first n flags
  | (Err e, s') => e = ENOMEM /\ exists k T', (k < n)%nat
      /\ leaf s r (first + Z.of_nat k * PAGE_SIZE) = None /\ rolled_back s T s' T' r first k
  | (Panic, _) => False
  end.
Proof.
  intros Hi Hr Ha Hfl first n Hu. destruct (range_bound address length Ha) as [H0 Hb]. fold first n in H0, Hb.
  assert (Hm : first mod PAGE_SIZE = 0).
  { unfold first, range_start. rewrite align_down_page by done. unfold PAGE_SIZE. zlia. }
  pose proof (mfor_ind (fun k s' => exists T', filled s T s' T' r first k flags)
    (fun res s' => res = Err ENOMEM /\ exists k T', (k < n)%nat
      /\ leaf s r (first + Z.of_nat k * PAGE_SIZE) = None /\ rolled_back s T s' T' r first k)) as Hfor.
  unfold map_anonymous. fold first n.
  set (body := fun page_address => _). specialize (Hfor n first PAGE_SIZE body s).
  assert (Hgoal : match mfor n first PAGE_SIZE body s with
    | (Ok _, s') => exists T', filled s T s' T' r first n flags
    | (res, s') => res = Err ENOMEM /\ exists k T', (k < n)%nat
      /\ leaf s r (first + Z.of_nat k * PAGE_SIZE) = None /\ rolled_back s T s' T' r first k
    end).
  { apply Hfor; [exists T; by apply filled_refl|]. intros k s1 Hk (T1 & H1).
    pose proof (anonymous_step s T r first flags n k s1 T1 Hi Hr Hfl H0 Hm Hb Hk H1 ltac:(intros; by apply Hu)) as H.
    cbn zeta in H. unfold body. destruct (mtry _ _ s1) as [[u|e|] s2]; [done| |done].
    destruct H as (-> & Hl & T2 & H2). split; [done|]. by exists k, T2. }
  destruct (mfor n first PAGE_SIZE body s) as [[u|e|] s']; [done| |by destruct Hgoal].
  destruct Hgoal as [[= ->] H]. done.
Qed.

(** ** User ranges *)

Lemma user_page_leaf s r w p : user_page_ok s r w p =
  match leaf s r p with
  | Some (1, e) => has_flag e PageFlags_User && negb (w && negb (has_flag e PageFlags_Writable))
  | _ => false
  end.
Proof.
  unfold user_page_ok, walk_to_leaf_table, leaf, present. destruct (walk_from s 4 r p) as [pt|l e|] eqn:Ew; [| |done].
  - by destruct (has_flag _ PageFlags_Present).
  - apply huge_level in Ew. destruct l as [|[| |]|]; try done; lia.
Qed.

Lemma all_pages_spec n p ok : all_pages n p ok = true <->
  forall k, 0 <= k < Z.of_nat n -> ok (p + k * PAGE_SIZE) = true.
Proof.
  revert p. induction n as [|n IH]; intros p; [split; [intros; lia|done]|]. cbn [all_pages].
  rewrite andb_true_iff, IH. split.
  - intros [H0 H] k Hk. destruct (decide (k = 0)) as [->|]; [by rewrite Z.mul_0_l, Z.add_0_r|].
    replace (p + k * PAGE_SIZE) with (p + PAGE_SIZE + (k - 1) * PAGE_SIZE) by lia. apply H. lia.
  - intros H. split; [rewrite <- (H 0 ltac:(lia)); f_equal; lia|]. intros k Hk.
    rewrite <- (H (k + 1) ltac:(lia)). f_equal. lia.
Qed.

Lemma vpn_of_page b p : 0 <= p -> p mod PAGE_SIZE = 0 -> p <= b < p + PAGE_SIZE -> vpn b = vpn p.
Proof.
  intros H0 Hm Hb. unfold vpn, prefix. change (2 ^ (12 + 9 * 0)) with PAGE_SIZE. f_equal. unfold PAGE_SIZE in *. zlia.
Qed.
End Invariant.
