(* ===== verification/Boot.v ===== *)
(** * Building the kernel's address space at boot

    [virtual_memory_initialize] of kernel/mm/address_space.cpp, and that it leaves
    the page tables in the state every later operation starts from. *)

From S2P Require Import Prelude Kstd Physical AddressSpace PageTables.

(** The bounds of the kernel's sections, which the linker script provides. *)
Record ImageBounds := mkImage {
  text_start : Z; text_end : Z;
  rodata_start : Z; rodata_end : Z;
  data_start : Z; bss_end : Z;
}.

Definition direct_map_size (regions : list MemoryRegion) : Z :=
  align_up (foldl (fun highest r =>
    if bool_decide (region_kind r = Usable) then Z.max highest (u64 (region_base r + region_length r)) else highest)
    MINIMUM_HHDM_SIZE regions) HUGE_PAGE_SIZE.

Definition hhdm_flags : Z :=
  Z.lor (Z.lor (Z.lor (Z.lor PageFlags_Present PageFlags_Writable) PageFlags_NoExecute)
    PageFlags_Global) PageFlags_Huge.

Definition sections (image : ImageBounds) : list (Z * Z * Z) :=
  [ (text_start image, text_end image, Z.lor PageFlags_Present PageFlags_Global);
    (rodata_start image, rodata_end image,
       Z.lor (Z.lor PageFlags_Present PageFlags_NoExecute) PageFlags_Global);
    (data_start image, bss_end image,
       Z.lor (Z.lor (Z.lor PageFlags_Present PageFlags_Writable) PageFlags_NoExecute) PageFlags_Global) ].

Section Boot.
Context {F : Type} {FA : FrameAllocator F}.
Implicit Types (s : Vm F) (T : gmap Z Place).

(** A call whose failure stops the machine. *)
Definition or_panic {A} (m : M (Vm F) A) : M (Vm F) A := fun s =>
  match m s with (Err _, s') => (Panic, s') | r => r end.

Definition table_entry (page : Z) : Z := Z.lor (Z.lor page PageFlags_Present) PageFlags_Writable.

Definition kernel_pdpts (root : Z) : M (Vm F) unit :=
  mfor 256 256 1 (fun i =>
    let! table := or_panic allocate_zeroed_page in
    mmod (set_entry root i (table_entry table))).

Definition direct_map_page (root offset : Z) : M (Vm F) unit :=
  let address := u64 (HHDM_BASE + offset) in
  let! s := mget in
  let pdpt := table_at (entry_of s root (index_of address 4)) in
  (if negb (present (entry_of s pdpt (index_of address 3))) then
     let! table := or_panic allocate_zeroed_page in
     mmod (set_entry pdpt (index_of address 3) (table_entry table))
   else mok tt) ;!
  let! s := mget in
  let pd := table_at (entry_of s pdpt (index_of address 3)) in
  mmod (set_entry pd (index_of address 2) (Z.lor offset hhdm_flags)).

Definition direct_map (root size : Z) : M (Vm F) unit :=
  mfor (Z.to_nat (size / HUGE_PAGE_SIZE)) 0 HUGE_PAGE_SIZE (direct_map_page root).

Definition map_section (root : Z) (section : Z * Z * Z) : M (Vm F) unit :=
  let '(start, stop, flags) := section in
  let first := align_down start PAGE_SIZE in
  let last := align_up stop PAGE_SIZE in
  mfor (page_count first last) first PAGE_SIZE (fun address =>
    or_panic (map root address (u64 (address - KERNEL_VMA)) flags)).

Fixpoint map_sections (root : Z) (l : list (Z * Z * Z)) : M (Vm F) unit :=
  match l with
  | [] => mok tt
  | x :: l' => map_section root x ;! map_sections root l'
  end.

Definition virtual_memory_initialize (regions : list MemoryRegion) (image : ImageBounds) : M (Vm F) unit :=
  let! root := or_panic allocate_zeroed_page in
  mmod (fun s => with_kernel_space root (with_spaces (<[root := 0]> (spaces s)) s)) ;!
  kernel_pdpts root ;!
  direct_map root (direct_map_size regions) ;!
  map_sections root (sections image) ;!
  mmod (activate root).

(** ** The root and its upper half *)

(** After [k] of the 256 tables of the upper half. *)
Record upper_built s T (root : Z) (k : nat) : Prop := {
  ub_ok : fa_ok (frames s);
  ub_spaces : spaces s = {[ root := 0 ]};
  ub_kernel : s_kernel_space s = root;
  ub_frame : frame_ok root;
  ub_root : T !! root = Some (mkPlace root 4 0);
  ub_owned : forall f p, T !! f = Some p -> fa_owned (frames s) f;
  ub_place : forall f p, T !! f = Some p -> f = root /\ p = mkPlace root 4 0
    \/ exists j, 0 <= j < Z.of_nat k /\ p = mkPlace root 3 (256 + j) /\ frame_ok f
       /\ entry_of s root (256 + j) = table_entry f /\ forall i, 0 <= i < 512 -> entry_of s f i = 0;
  ub_table : forall j, 0 <= j < Z.of_nat k ->
    exists f, T !! f = Some (mkPlace root 3 (256 + j)) /\ entry_of s root (256 + j) = table_entry f;
  ub_zero : forall i, 0 <= i < 512 -> i < 256 \/ 256 + Z.of_nat k <= i -> entry_of s root i = 0;
}.

Lemma table_entry_facts page : frame_ok page ->
  present (table_entry page) = true /\ has_flag (table_entry page) PageFlags_Huge = false
  /\ table_at (table_entry page) = page.
Proof. exact (new_table_entry page). Qed.

(** What taking a zeroed page does, before there are any tables. *)
Lemma zeroed_raw s : fa_ok (frames s) ->
  match allocate_zeroed_page s with
  | (Ok page, s') => fa_ok (frames s') /\ ~ fa_owned (frames s) page /\ frame_ok page
      /\ (forall b, fa_owned (frames s') b <-> b = page \/ fa_owned (frames s) b)
      /\ s' = zero_page page (with_frames (frames s') s)
  | (Err e, s') => e = ENOMEM /\ s' = s
  | (Panic, _) => False
  end.
Proof.
  intros Hok. unfold allocate_zeroed_page, allocate_frame, on_frames, mtry.
  pose proof (fa_allocate_spec (frames s) Hok) as Ha.
  destruct (fa_allocate (frames s)) as [[page|e|] f]; [|by destruct Ha as [-> ->]; destruct s|done].
  destruct Ha as (Hok' & Hnew & Hown). cbn. split_and!; try done.
  apply (fa_owned_range f); [done|]. apply Hown. by left.
Qed.

Lemma upper_step s T root k : upper_built s T root k -> (k < 256)%nat ->
  match (let! table := or_panic allocate_zeroed_page in
         mmod (set_entry root (256 + Z.of_nat k * 1) (table_entry table))) s with
  | (Ok _, s') => exists T', upper_built s' T' root (S k)
  | (r, _) => r = Panic
  end.
Proof.
  intros H Hk. unfold or_panic, mtry. pose proof (zeroed_raw s (ub_ok _ _ _ _ H)) as Ha.
  destruct (allocate_zeroed_page s) as [[t|e|] s1]; [|done|done].
  destruct Ha as (Hok & Hnew & Hf & Hown & Hs1). cbn [mmod].
  set (i := 256 + Z.of_nat k * 1). assert (Hi : 0 <= i < 512) by lia.
  assert (Hneq : forall f p, T !! f = Some p -> f <> t).
  { intros f p Hp ->. exact (Hnew (ub_owned _ _ _ _ H _ _ Hp)). }
  pose proof (Hneq root _ (ub_root _ _ _ _ H)) as Hroot. pose proof (ub_frame _ _ _ _ H) as Hrf.
  set (s2 := set_entry root i (table_entry t) s1).
  assert (E1 : forall f j, frame_ok f -> 0 <= j < 512 -> f <> t -> f <> root \/ j <> i -> entry_of s2 f j = entry_of s f j).
  { intros f j Hff Hj Hft Hne. unfold s2. rewrite slot_set_ne by done. rewrite Hs1. by rewrite entry_zero_ne. }
  assert (E2 : forall j, 0 <= j < 512 -> entry_of s2 t j = 0).
  { intros j Hj. unfold s2. rewrite slot_set_ne by (done || left; congruence). rewrite Hs1. by apply entry_zero_eq. }
  assert (E3 : entry_of s2 root i = table_entry t) by apply slot_set_eq.
  exists (<[t := mkPlace root 3 (256 + Z.of_nat k)]> T). split.
  - done.
  - unfold s2. rewrite Hs1. apply H.
  - unfold s2. rewrite Hs1. apply H.
  - done.
  - rewrite lookup_insert_ne by congruence. apply H.
  - intros f p Hp. change (fa_owned (frames s1) f). apply Hown.
    apply lookup_insert_Some in Hp as [[<- _]|[_ Hp]]; [by left|right]. exact (ub_owned _ _ _ _ H _ _ Hp).
  - intros f p Hp. apply lookup_insert_Some in Hp as [[<- <-]|[Hft Hp]].
    + right. exists (Z.of_nat k). split_and!; [lia|lia|done|done| |done].
      rewrite <- E3. f_equal. lia.
    + destruct (ub_place _ _ _ _ H f p Hp) as [?|(j & Hj & -> & Hff & Hej & Hz)]; [by left|right].
      exists j. split_and!; try done; try lia.
      * rewrite E1; [done|done|lia|done|right; lia].
      * intros x Hx. rewrite E1; [by apply Hz|done|done|congruence|]. left. intros ->.
        rewrite (ub_root _ _ _ _ H) in Hp. congruence.
  - intros j Hj. destruct (decide (j = Z.of_nat k)) as [->|Hn].
    + exists t. split; [by rewrite lookup_insert_eq|]. rewrite <- E3. f_equal. lia.
    + destruct (ub_table _ _ _ _ H j ltac:(lia)) as (f & Hp & He). exists f.
      split; [rewrite lookup_insert_ne; [done|]; intros <-; by apply (Hneq t _ Hp)|].
      rewrite E1; [done|done|lia|done|right; lia].
  - intros j Hj Hor. rewrite E1; [apply (ub_zero _ _ _ _ H); [done|lia]|done|done|done|right; lia].
Qed.

Lemma upper_inv s T root : upper_built s T root 256 -> vm_inv s T.
Proof.
  intros H. pose proof (ub_kernel _ _ _ _ H) as Hk.
  assert (Hlive : forall r, live s r <-> r = root).
  { intros r. unfold live. rewrite (ub_spaces _ _ _ _ H). split.
    - intros [x Hx]. by apply lookup_singleton_Some in Hx as [-> _].
    - intros ->. rewrite lookup_singleton_eq. by eexists. }
  assert (Hroot : forall f sp pre, T !! f = Some (mkPlace sp 4 pre) -> f = root /\ sp = root /\ pre = 0).
  { intros f sp pre Hf. destruct (ub_place _ _ _ _ H f _ Hf) as [[-> [= -> ->]]|(j & _ & [=] & _)]. done. }
  split.
  - apply H.
  - apply H.
  - intros f p Hf. destruct (ub_place _ _ _ _ H f p Hf) as [[_ ->]|(j & _ & -> & _)]; cbn; lia.
  - intros t sp l pre i Ht Hl Hi Hp. destruct (ub_place _ _ _ _ H t _ Ht) as [[-> [= -> -> ->]]|(j & Hj & [= -> -> ->] & _ & _ & Hz)].
    + destruct (decide (256 <= i)) as [Hge|Hlt].
      * destruct (ub_table _ _ _ _ H (i - 256) ltac:(lia)) as (f & Hf & He).
        replace (256 + (i - 256)) with i in Hf, He by lia. rewrite He.
        destruct (ub_place _ _ _ _ H f _ Hf) as [[_ [=]]|(j & _ & _ & Hff & _)].
        destruct (table_entry_facts f Hff) as (_ & E2 & E3). unfold child_ok. cbn. rewrite E2, E3, Hf.
        unfold owner. rewrite Hk. by destruct (_ && _).
      * rewrite (ub_zero _ _ _ _ H) in Hp by lia. done.
    + rewrite Hz in Hp by done. done.
  - intros f sp l pre Hf Hl. destruct (ub_place _ _ _ _ H f _ Hf) as [[_ [= _ -> _]]|(j & Hj & [= -> -> ->] & Hff & He & _)]; [lia|].
    exists root. replace ((256 + j) / 512) with 0 by zlia. replace ((256 + j) mod 512) with (256 + j) by zlia.
    split; [apply H|]. rewrite He. cbn. destruct (table_entry_facts f Hff) as (E1 & E2 & E3). done.
  - intros f sp pre Hf. destruct (Hroot f sp pre Hf) as (-> & -> & ->). rewrite Hlive. done.
  - intros r ->%Hlive. apply H.
  - rewrite Hk. by apply Hlive.
  - intros r i ->%Hlive Hi. rewrite Hk. destruct (ub_table _ _ _ _ H (i - 256) ltac:(lia)) as (f & Hf & He).
    replace (256 + (i - 256)) with i in Hf, He by lia. rewrite He.
    destruct (ub_place _ _ _ _ H f _ Hf) as [[_ [=]]|(j & _ & _ & Hff & _)].
    destruct (table_entry_facts f Hff) as (E1 & E2 & _). done.
Qed.

Lemma upper_empty s T root a : upper_built s T root 256 -> leaf s root a = None.
Proof.
  intros H. unfold leaf. rewrite walk_from_SS. change (Z.of_nat 4) with 4. cbv zeta.
  pose proof (index_of_range a 4 ltac:(lia)) as Hx.
  destruct (decide (256 <= index_of a 4)) as [Hge|Hlt]; [|by rewrite (ub_zero _ _ _ _ H) by lia].
  destruct (ub_table _ _ _ _ H (index_of a 4 - 256) ltac:(lia)) as (f & Hf & He).
  replace (256 + (index_of a 4 - 256)) with (index_of a 4) in Hf, He by lia. rewrite He.
  destruct (ub_place _ _ _ _ H f _ Hf) as [[_ [=]]|(j & _ & _ & Hff & _ & Hz)].
  destruct (table_entry_facts f Hff) as (E1 & E2 & E3). unfold present in E1. rewrite E1, E2, E3. cbn [negb].
  rewrite walk_from_SS. cbv zeta. by rewrite Hz by (apply index_of_range; lia).
Qed.

(** ** A huge page *)

(** The 2 MiB of an address, in the kernel's half or in one space. *)
Definition same_big_page s (r a r' a' : Z) : bool :=
  bool_decide (own s r a = own s r' a' /\ prefix a 1 = prefix a' 1).

Section SetHuge.
Context (s : Vm F) (T : gmap Z Place) (r a pd v : Z).
Context (Hi : vm_inv s T) (Hr : live s r) (Hk : own s r a = s_kernel_space s).
Context (Hpd : T !! pd = Some (path_place s r a 2)).
Context (Hnone : present (entry_of s pd (index_of a 2)) = false).
Context (Hvp : present v = true) (Hvh : has_flag v PageFlags_Huge = true).
Let i := index_of a 2.
Let s' := set_entry pd i v s.

Lemma huge_index : 0 <= i < 512.
Proof. apply index_of_range. lia. Qed.

Lemma huge_old u j : is_Some (T !! u) -> 0 <= j < 512 -> u <> pd \/ j <> i -> entry_of s' u j = entry_of s u j.
Proof.
  intros [p Hp] Hj Hne. pose proof huge_index.
  apply slot_set_ne; [exact (place_frame s T pd _ Hi Hpd)|exact (place_frame s T u _ Hi Hp)|..]; done.
Qed.

Lemma set_huge_inv : vm_inv s' T.
Proof.
  pose proof huge_index as Hx.
  assert (Hpres : forall u j, is_Some (T !! u) -> 0 <= j < 512 -> present (entry_of s u j) = true ->
            entry_of s' u j = entry_of s u j).
  { intros u j Hu Hj Hp. apply huge_old; [done|done|]. apply slot_ne. intros [-> ->]. fold i in Hnone. congruence. }
  split; [exact (vi_frames s T Hi)|exact (vi_owned s T Hi)|exact (vi_level s T Hi)| | |exact (vi_root s T Hi)
         |exact (vi_spaces s T Hi)|exact (vi_kernel s T Hi)|].
  - intros t sp l pre j Ht Hl Hj Hp. destruct (decide (t = pd /\ j = i)) as [[-> ->]|Hne].
    + unfold s'. rewrite slot_set_eq. rewrite Hpd in Ht. injection Ht as <- <- <-.
      unfold child_ok. cbn. rewrite Hvh. done.
    + assert (E : entry_of s' t j = entry_of s t j) by (apply huge_old; [by rewrite Ht|done|by apply slot_ne]).
      rewrite E in *. by apply (vi_child s T Hi t).
  - intros f sp l pre Hf Hl. destruct (vi_parent s T Hi f sp l pre Hf Hl) as (t & Ht & Hp & Hrest).
    exists t. split; [done|]. rewrite Hpres; [done|by rewrite Ht|apply Z.mod_pos_bound; lia|done].
  - intros x j Hlx Hj.
    assert (Hu : forall y, live s y -> entry_of s' y j = entry_of s y j).
    { intros y Hy. apply Hpres; [by rewrite (vi_spaces s T Hi y Hy)|lia|]. by apply (vi_upper s T Hi y j Hy). }
    rewrite !Hu by (done || apply (vi_kernel s T Hi)). by apply (vi_upper s T Hi).
Qed.

Lemma leaf_set_huge r' a' : live s r' ->
  leaf s' r' a' = if same_big_page s r a r' a' then Some (2, v) else leaf s r' a'.
Proof.
  intros Hr'. pose proof huge_index as Hx. destruct (same_big_page s r a r' a') eqn:Es.
  - apply bool_decide_eq_true in Es as [Ho Hp].
    assert (Hp2 : prefix a' 2 = prefix a 2) by (rewrite <- !(prefix_div _ 2) by lia; change (2 - 1) with 1; congruence).
    assert (Hi2 : index_of a' 2 = i) by (unfold i; rewrite <- !(prefix_mod _ 2) by lia; change (2 - 1) with 1; congruence).
    assert (Hpd' : T !! pd = Some (path_place s r' a' 2)) by (rewrite Hpd; unfold path_place; cbn; by rewrite Ho, Hp2).
    assert (Hpd2 : T !! pd = Some (path_place s' r' a' (Z.of_nat 2))) by exact Hpd'.
    unfold leaf. rewrite (place_reached s' T r' a' 2 pd set_huge_inv) by (done || lia).
    rewrite walk_from_SS. change (Z.of_nat 2) with 2. cbv zeta. rewrite Hi2. unfold s'. rewrite slot_set_eq.
    unfold present in Hvp. rewrite Hvp, Hvh. done.
  - apply (leaf_ext s s' T r' a' Hi Hr'). intros l t Hl Ht. left.
    apply huge_old; [by rewrite Ht|apply index_of_range; lia|].
    destruct (decide (t = pd)) as [->|]; [right|by left]. intros E. rewrite Hpd in Ht.
    injection Ht as H1 H2 H3. subst l. cbn in H1.
    apply bool_decide_eq_false in Es. apply Es. split; [done|]. change 1 with (2 - 1). rewrite !prefix_step by lia. unfold i in E. congruence.
Qed.
End SetHuge.

(** ** The direct map *)

Lemma hhdm_address p : 0 <= p < 2 ^ 46 ->
  u64 (HHDM_BASE + p) = HHDM_BASE + p /\ prefix (HHDM_BASE + p) 1 = 2 ^ 26 + p / 2 ^ 21
  /\ 256 <= index_of (HHDM_BASE + p) 4.
Proof.
  intros Hp. unfold HHDM_BASE, prefix. rewrite index_of_mod by lia. split_and!.
  - apply u64_small. unfold is_u64. lia.
  - change (2 ^ (12 + 9 * 1)) with 2097152. change (2 ^ (36 - 9 * 1)) with 134217728. zlia.
  - change (2 ^ (12 + 9 * (4 - 1))) with 549755813888. zlia.
Qed.

(** The entry of the [j]-th 2 MiB, and what an address means once [k] of them are
    there: nothing but the direct map. *)
Definition hhdm_entry (j : Z) : Z := Z.lor (j * HUGE_PAGE_SIZE) hhdm_flags.

Record direct_built s T (root : Z) (k : nat) : Prop := {
  db_inv : vm_inv s T;
  db_kernel : s_kernel_space s = root;
  db_levels : forall f p, T !! f = Some p -> 2 <= p_level p;
  db_leaf : forall a, leaf s root a = let j := prefix a 1 - 2 ^ 26 in
    if (0 <=? j) && (j <? Z.of_nat k) then Some (2, hhdm_entry j) else None;
}.

Lemma hhdm_entry_facts j : 0 <= j < 2 ^ 25 ->
  present (hhdm_entry j) = true /\ has_flag (hhdm_entry j) PageFlags_Huge = true
  /\ table_at (hhdm_entry j) = j * HUGE_PAGE_SIZE
  /\ has_flag (hhdm_entry j) PageFlags_NoExecute = true.
Proof.
  intros Hj. assert (Hf : frame_ok (j * HUGE_PAGE_SIZE)).
  { unfold frame_ok, HUGE_PAGE_SIZE, PAGE_SIZE. split; [lia|zlia]. }
  unfold hhdm_entry, present, PageFlags_Present, PageFlags_Huge, PageFlags_NoExecute.
  rewrite !flag_lor by (done || (left; lia) || (right; lia)). split_and!; try done. by apply table_at_lor.
Qed.

(** The table below the root, made if it is not there: one level of the walk. *)
Lemma direct_pd s T root a k : direct_built s T root k -> live s root -> 256 <= index_of a 4 -> leaf s root a = None ->
  let pdpt := table_at (entry_of s root (index_of a 4)) in
  match ((if negb (present (entry_of s pdpt (index_of a 3))) then
            let! table := or_panic allocate_zeroed_page in
            mmod (set_entry pdpt (index_of a 3) (table_entry table))
          else mok tt) : M (Vm F) unit) s with
  | (Ok _, s1) => exists T1, vm_inv s1 T1 /\ grows (own s root a) s T s1 T1 /\ (forall f p, T1 !! f = Some p -> 2 <= p_level p)
      /\ T1 !! table_at (entry_of s1 pdpt (index_of a 3)) = Some (path_place s root a 2)
  | (r, _) => r = Panic
  end.
Proof.
  intros H Hr Hx Hnone pdpt. pose proof (db_inv _ _ _ _ H) as Hi.
  pose proof (index_of_range a 4 ltac:(lia)) as H4. pose proof (index_of_range a 3 ltac:(lia)) as H3.
  destruct (vi_upper s T Hi root (index_of a 4) Hr ltac:(lia)) as (U1 & U2 & _).
  pose proof (path_step s T root a 4 root Hi ltac:(lia) (root_place s T root a Hi Hr) U1 U2) as Hpdpt.
  fold pdpt in Hpdpt. change (4 - 1) with 3 in Hpdpt.
  destruct (present (entry_of s pdpt (index_of a 3))) eqn:Ep; cbn [negb].
  - exists T. split; [done|]. split; [by apply grows_refl|]. split; [apply H|].
    apply (path_step s T root a 3 pdpt Hi ltac:(lia) Hpdpt Ep).
    destruct (has_flag (entry_of s pdpt (index_of a 3)) PageFlags_Huge) eqn:Eh; [|done]. exfalso. revert Hnone. unfold leaf.
    rewrite (place_reached s T root a 3 pdpt) by (done || lia). rewrite walk_from_SS. change (Z.of_nat 3) with 3. cbv zeta.
    unfold present in Ep. by rewrite Ep, Eh.
  - unfold mtry, or_panic. pose proof (allocate_zeroed_spec s T Hi) as Ha.
    destruct (allocate_zeroed_page s) as [[t|e|] s1]; [|done|done]. destruct Ha as [Htf Hz].
    destruct (table_entry_facts t (tf_frame _ _ _ _ Htf)) as (V1 & V2 & V3).
    destruct (took_grows s T s1 t pdpt _ 3 _ (index_of a 3) (table_entry t) Hi Htf Hz Hpdpt ltac:(lia) H3 Ep V1 V2 V3)
      as (I1 & G1 & _). cbn [mmod]. eexists. split; [exact I1|]. split; [exact G1|]. split.
    + intros f p Hf. apply lookup_insert_Some in Hf as [[_ <-]|[_ Hf]]; [cbn; lia|]. by apply (db_levels _ _ _ _ H f).
    + rewrite slot_set_eq, V3, lookup_insert_eq. f_equal. unfold path_place. cbn. f_equal.
      change 2 with (3 - 1). by rewrite prefix_step by lia.
Qed.

Lemma direct_step s T root k : direct_built s T root k -> live s root -> Z.of_nat k < 2 ^ 25 ->
  match direct_map_page root (0 + Z.of_nat k * HUGE_PAGE_SIZE) s with
  | (Ok _, s') => live s' root /\ exists T', direct_built s' T' root (S k)
  | (r, _) => r = Panic
  end.
Proof.
  intros H Hr Hk. rewrite Z.add_0_l. set (p := Z.of_nat k * HUGE_PAGE_SIZE).
  destruct (hhdm_address p) as (Hw & Hpre & Hx); [unfold p, HUGE_PAGE_SIZE; lia|].
  replace (p / 2 ^ 21) with (Z.of_nat k) in Hpre by (unfold p, HUGE_PAGE_SIZE; zlia).
  unfold direct_map_page. rewrite Hw. set (a := HHDM_BASE + p) in *. unfold mtry at 1, mget at 1. unfold mtry at 1.
  assert (Hnone : leaf s root a = None).
  { rewrite (db_leaf _ _ _ _ H). cbv zeta. rewrite Hpre. replace (_ && _) with false; [done|]. symmetry.
    apply andb_false_iff. right. lia. }
  pose proof (direct_pd s T root a k H Hr Hx Hnone) as Hd. cbv zeta in Hd.
  match type of Hd with let (_, _) := ?x in _ => destruct x as [[u|e|] s1] end; [|done|done].
  destruct Hd as (T1 & I1 & G1 & Hlv & Hpd). unfold mtry, mget, mmod.
  set (pd := table_at (entry_of s1 _ (index_of a 3))) in *.
  pose proof (grows_kernel _ _ _ _ G1) as Hk1. pose proof (db_kernel _ _ _ _ H) as Hker.
  assert (Hr1 : live s1 root) by by apply (grows_live _ _ _ _ _ G1).
  assert (Hpd1 : T1 !! pd = Some (path_place s1 root a 2)) by by rewrite (path_grows _ _ _ _ _ _ _ G1).
  assert (Hown : forall x, own s1 root x = root) by (intros x; unfold own; rewrite Hk1, Hker; by destruct (256 <=? _)).
  assert (Hn1 : leaf s1 root a = None) by by rewrite (gr_leaf _ _ _ _ G1).
  assert (Hnp : present (entry_of s1 pd (index_of a 2)) = false).
  { destruct (present _) eqn:Ep; [exfalso|done]. destruct (has_flag (entry_of s1 pd (index_of a 2)) PageFlags_Huge) eqn:Eh.
    - revert Hn1. unfold leaf. rewrite (place_reached s1 T1 root a 2 pd) by (done || lia). rewrite walk_from_SS.
      change (Z.of_nat 2) with 2. cbv zeta. unfold present in Ep. by rewrite Ep, Eh.
    - pose proof (path_step s1 T1 root a 2 pd I1 ltac:(lia) Hpd1 Ep Eh) as Hc. apply Hlv in Hc. cbn in Hc. lia. }
  destruct (hhdm_entry_facts (Z.of_nat k) ltac:(lia)) as (V1 & V2 & _). fold p in V1, V2.
  split; [done|]. exists T1. split.
  - apply (set_huge_inv s1 T1 root a pd); try done. by rewrite Hown, Hk1, Hker.
  - change (s_kernel_space s1 = root). congruence.
  - done.
  - intros a'. rewrite (leaf_set_huge s1 T1 root a pd) by (done || by rewrite Hown, Hk1, Hker).
    rewrite (gr_leaf _ _ _ _ G1) by done. rewrite (db_leaf _ _ _ _ H). unfold same_big_page. rewrite !Hown, Hpre. cbv zeta.
    case_bool_decide as Hb.
    + destruct Hb as [_ Hb]. rewrite <- Hb. replace (2 ^ 26 + Z.of_nat k - 2 ^ 26) with (Z.of_nat k) by lia.
      by rewrite (proj2 (Z.leb_le 0 (Z.of_nat k))), (proj2 (Z.ltb_lt (Z.of_nat k) (Z.of_nat (S k)))) by lia.
    + assert (Hne : prefix a' 1 - 2 ^ 26 <> Z.of_nat k) by (intros E; apply Hb; split; [done|lia]).
      replace (prefix a' 1 - 2 ^ 26 <? Z.of_nat (S k)) with (prefix a' 1 - 2 ^ 26 <? Z.of_nat k); [done|].
      apply eq_true_iff_eq. rewrite !Z.ltb_lt. lia.
Qed.

Lemma direct_map_built s T root n : direct_built s T root 0 -> live s root -> Z.of_nat n <= 2 ^ 25 ->
  match mfor n 0 HUGE_PAGE_SIZE (direct_map_page root) s with
  | (Ok _, s') => live s' root /\ exists T', direct_built s' T' root n
  | (r, _) => r = Panic
  end.
Proof.
  intros H Hr Hn. apply (mfor_ind (fun k s' => live s' root /\ exists T', direct_built s' T' root k) (fun r _ => r = Panic)).
  - split; [done|by exists T].
  - intros k s1 Hk (Hl & T1 & H1). apply (direct_step s1 T1 root k H1 Hl). lia.
Qed.

(** ** The sections of the kernel *)

(** Pages mapped into the kernel's space by the boot code. *)
Lemma boot_map s T root a page flags : vm_inv s T -> s_kernel_space s = root -> live s root -> is_u64 a ->
  Z.land flags ADDRESS_MASK = 0 -> has_flag flags PageFlags_User = false ->
  match or_panic (map root a page flags) s with
  | (Ok _, s') => (exists T', vm_inv s' T') /\ s_kernel_space s' = root /\ live s' root /\ leaf s root a = None
      /\ forall a', leaf s' root a' = if bool_decide (vpn a = vpn a') then Some (1, leaf_entry page flags) else leaf s root a'
  | (r, _) => r = Panic
  end.
Proof.
  intros Hi Hk Hr Ha Hfl Hu. unfold or_panic.
  assert (Hown : forall x, own s root x = root) by (intros x; unfold own; rewrite Hk; by destruct (256 <=? _)).
  pose proof (map_spec_at s T root a page flags Hi Hr Ha Hfl ltac:(by rewrite Hu)) as H.
  assert (Htr : tracked s (own s root a) flags = false) by (unfold tracked; by rewrite Hown, Hk, Z.eqb_refl).
  rewrite Htr in H. specialize (H ltac:(done)).
  destruct (map root a page flags s) as [[u|e|] s']; [|done|done]. destruct H as (T' & H).
  split; [exists T'; apply H|]. split; [by rewrite (mp_rest _ _ _ _ _ _ _ H)|]. split.
  - rewrite (mp_rest _ _ _ _ _ _ _ H). by apply resident_live.
  - split; [apply H|]. intros a'. rewrite (mp_leaf _ _ _ _ _ _ _ H) by done.
    unfold same_page. rewrite !Hown. do 2 case_bool_decide; (done || naive_solver).
Qed.

(** What the boot code has added to [s]: nothing that was mapped has changed, and
    every other page has one of [flags]. *)
Record boot_added s s' (root : Z) (flags : list Z) : Prop := {
  ba_inv : exists T, vm_inv s' T;
  ba_kernel : s_kernel_space s' = root;
  ba_live : live s' root;
  ba_keep : forall a, leaf s root a <> None -> leaf s' root a = leaf s root a;
  ba_new : forall a x, leaf s' root a = Some x -> leaf s root a = Some x
    \/ exists page f, x = (1, leaf_entry page f) /\ f ∈ flags;
}.

Definition boot_flags (f : Z) : Prop := Z.land f ADDRESS_MASK = 0 /\ has_flag f PageFlags_User = false.

Lemma section_pages s T root first n f : vm_inv s T -> s_kernel_space s = root -> live s root -> boot_flags f ->
  0 <= first -> first + Z.of_nat n * PAGE_SIZE <= 2 ^ 64 ->
  match mfor n first PAGE_SIZE (fun a => or_panic (map root a (u64 (a - KERNEL_VMA)) f)) s with
  | (Ok _, s') => boot_added s s' root [f]
      /\ forall j, 0 <= j < Z.of_nat n -> let a := first + j * PAGE_SIZE in
           leaf s' root a = Some (1, leaf_entry (u64 (a - KERNEL_VMA)) f)
  | (r, _) => r = Panic
  end.
Proof.
  intros Hi Hk Hr [Hf1 Hf2] H0 Hn.
  apply (mfor_ind (fun k s' => boot_added s s' root [f]
      /\ forall j, 0 <= j < Z.of_nat k -> let a := first + j * PAGE_SIZE in
           leaf s' root a = Some (1, leaf_entry (u64 (a - KERNEL_VMA)) f)) (fun r _ => r = Panic)).
  { split; [|intros; lia]. split; try done; [by exists T|]. intros a x Hx. by left. }
  intros k s1 Hkn ([(T1 & I1) K1 L1 Hkeep Hnew] & Hpages). set (a := first + Z.of_nat k * PAGE_SIZE).
  pose proof (boot_map s1 T1 root a (u64 (a - KERNEL_VMA)) f I1 K1 L1 ltac:(unfold a, is_u64, PAGE_SIZE in *; lia) Hf1 Hf2) as Hm.
  destruct (or_panic (map root a _ f) s1) as [[u|e|] s2]; [|done|done].
  destruct Hm as (HT & K2 & L2 & Hnone & Hleaf).
  assert (Hstay : forall a', leaf s1 root a' <> None -> leaf s2 root a' = leaf s1 root a').
  { intros a' Hs. rewrite Hleaf. case_bool_decide as Hb; [|done]. by rewrite <- (leaf_same_vpn s1 root a a' Hb), Hnone in Hs. }
  split.
  - split; [done|done|done| |].
    + intros a' Hs. rewrite Hstay; [by apply Hkeep|]. by rewrite Hkeep.
    + intros a' x. rewrite Hleaf. case_bool_decide as Hb; [|apply Hnew]. intros [= <-]. right.
      exists (u64 (a - KERNEL_VMA)), f. split; [done|]. by apply list_elem_of_singleton.
  - intros j Hj a'. destruct (decide (j = Z.of_nat k)) as [->|Hne].
    + rewrite Hleaf. by rewrite bool_decide_eq_true_2.
    + unfold a'. rewrite Hstay; [apply Hpages; lia|]. by rewrite (Hpages j) by lia.
Qed.

Lemma boot_added_trans s1 s2 s3 root f g : boot_added s1 s2 root f -> boot_added s2 s3 root g ->
  boot_added s1 s3 root (f ++ g).
Proof.
  intros [A1 A2 A3 A4 A5] [B1 B2 B3 B4 B5]. split; [done|done|done| |].
  - intros a Ha. rewrite B4; [by apply A4|]. by rewrite A4.
  - intros a x Hx. destruct (B5 a x Hx) as [Hx'|(p & h & -> & Hh)].
    + destruct (A5 a x Hx') as [?|(p & h & -> & Hh)]; [by left|right]. exists p, h. split; [done|].
      apply elem_of_app. by left.
    + right. exists p, h. split; [done|]. apply elem_of_app. by right.
Qed.

Definition section_ok (x : Z * Z * Z) : Prop :=
  let '(start, stop, f) := x in KERNEL_VMA <= start < stop /\ stop < 2 ^ 64 - PAGE_SIZE /\ boot_flags f.

(** A byte of a section is where the linker put it, with the section's flags. *)
Definition section_mapped s (root : Z) (x : Z * Z * Z) : Prop :=
  let '(start, stop, f) := x in forall a, start <= a < stop ->
    exists page, leaf s root a = Some (1, leaf_entry page f)
      /\ frame_ok page /\ page + a mod PAGE_SIZE = a - KERNEL_VMA.

Lemma map_section_spec s T root x : vm_inv s T -> s_kernel_space s = root -> live s root -> section_ok x ->
  match map_section root x s with
  | (Ok _, s') => boot_added s s' root [x.2] /\ section_mapped s' root x
  | (r, _) => r = Panic
  end.
Proof.
  intros Hi Hk Hr. destruct x as [[start stop] f]. intros (H1 & H2 & Hf). unfold map_section.
  assert (Hb : 0 <= KERNEL_VMA < 2 ^ 64 /\ KERNEL_VMA mod PAGE_SIZE = 0) by (split; [unfold KERNEL_VMA; lia|reflexivity]).
  unfold page_count. rewrite align_down_page by (unfold is_u64, PAGE_SIZE in *; lia).
  rewrite align_up_page by (unfold PAGE_SIZE in *; lia).
  set (first := start / PAGE_SIZE * PAGE_SIZE). set (n := Z.to_nat _).
  assert (Hn : first + Z.of_nat n * PAGE_SIZE = (stop + PAGE_SIZE - 1) / PAGE_SIZE * PAGE_SIZE).
  { unfold first, n, PAGE_SIZE in *. zlia. }
  pose proof (section_pages s T root first n f Hi Hk Hr Hf ltac:(unfold first, PAGE_SIZE in *; zlia)
    ltac:(rewrite Hn; unfold PAGE_SIZE in *; zlia)) as H.
  destruct (mfor n first PAGE_SIZE _ s) as [[u|e|] s']; [|done|done]. destruct H as [Ha Hp]. split; [done|].
  intros a Hin. set (p := a / PAGE_SIZE * PAGE_SIZE).
  assert (Hj : 0 <= (p - first) / PAGE_SIZE < Z.of_nat n /\ first + (p - first) / PAGE_SIZE * PAGE_SIZE = p).
  { unfold p, first, n, PAGE_SIZE in *. zlia. }
  destruct Hj as [Hj Hpe]. specialize (Hp _ Hj). cbv zeta in Hp. rewrite Hpe in Hp.
  assert (Hlow : KERNEL_VMA <= p < 2 ^ 64 /\ p <= a < p + PAGE_SIZE /\ p mod PAGE_SIZE = 0).
  { unfold p, PAGE_SIZE, KERNEL_VMA in *. zlia. }
  exists (p - KERNEL_VMA). rewrite (leaf_same_vpn s' root a p) by (apply vpn_of_page; lia).
  rewrite u64_small in Hp by (unfold is_u64; lia). split; [done|].
  unfold frame_ok, KERNEL_VMA, PAGE_SIZE in *. split; [|zlia]. split; [lia|zlia].
Qed.

Lemma map_sections_spec s T root l : vm_inv s T -> s_kernel_space s = root -> live s root -> Forall section_ok l ->
  match map_sections root l s with
  | (Ok _, s') => boot_added s s' root (l.*2) /\ Forall (section_mapped s' root) l
  | (r, _) => r = Panic
  end.
Proof.
  revert s T. induction l as [|x l IH]; intros s T Hi Hk Hr Hl.
  { cbn. split; [|constructor]. split; try done; [by exists T|]. intros a y Hy. by left. }
  apply Forall_cons in Hl as [Hx Hl]. cbn [map_sections]. unfold mtry.
  pose proof (map_section_spec s T root x Hi Hk Hr Hx) as H1.
  destruct (map_section root x s) as [[u|e|] s1]; [|done|done]. destruct H1 as [A1 M1].
  destruct (ba_inv _ _ _ _ A1) as [T1 I1].
  pose proof (IH s1 T1 I1 (ba_kernel _ _ _ _ A1) (ba_live _ _ _ _ A1) Hl) as H2.
  destruct (map_sections root l s1) as [[u2|e|] s2]; [|done|done]. destruct H2 as [A2 M2].
  split; [exact (boot_added_trans s s1 s2 root [x.2] (l.*2) A1 A2)|]. constructor; [|done].
  destruct x as [[start stop] f]. intros a Ha. destruct (M1 a Ha) as (page & Hp & Hrest). exists page.
  rewrite (ba_keep _ _ _ _ A2) by by rewrite Hp. done.
Qed.

(** ** Boot *)

Definition never_writable_and_executable (flags : Z) : Prop :=
  has_flag flags PageFlags_Writable = false \/ has_flag flags PageFlags_NoExecute = true.

Lemma query_flag e k : flag_bit k ->
  has_flag (Z.land e (u64 (Z.lnot ADDRESS_MASK))) (Z.shiftl 1 k) = has_flag e (Z.shiftl 1 k).
Proof.
  intros Hk. rewrite !has_flag_bit by (destruct Hk; lia). rewrite Z.land_spec, u64_testbit by (destruct Hk; lia).
  rewrite Z.lnot_spec, mask_bit by (destruct Hk; lia).
  destruct Hk as [Hk| ->]; [|by rewrite andb_true_r]. rewrite (proj2 (Z.leb_gt 12 k)) by lia. by rewrite andb_true_r.
Qed.

Lemma leaf_entry_flag page f k : flag_bit k -> k <> 0 ->
  has_flag (leaf_entry page f) (Z.shiftl 1 k) = has_flag f (Z.shiftl 1 k).
Proof.
  intros Hk H0. unfold leaf_entry. pose proof (table_at_ok page) as Hok. unfold table_at in Hok.
  rewrite flag_lor, flag_lor_or by (done || destruct Hk; lia). unfold PageFlags_Present.
  rewrite (has_flag_bit (Z.shiftl 1 0)) by (destruct Hk; lia).
  rewrite testbit_one_shift by (destruct Hk; lia). rewrite bool_decide_eq_false_2 by lia. apply orb_false_r.
Qed.

Lemma sections_wx image f : f ∈ (sections image).*2 -> never_writable_and_executable f.
Proof.
  cbn. intros H. repeat (apply elem_of_cons in H as [->|H]; [by (left; reflexivity) || (right; reflexivity)|]).
  by apply elem_of_nil in H.
Qed.

Lemma direct_map_size_multiple regions :
  direct_map_size regions = direct_map_size regions / HUGE_PAGE_SIZE * HUGE_PAGE_SIZE /\ 0 <= direct_map_size regions.
Proof.
  unfold direct_map_size, align_up. set (x := u64 _). change (HUGE_PAGE_SIZE - 1) with (2 ^ 21 - 1).
  rewrite land_lnot_low by (apply u64_range || lia). change HUGE_PAGE_SIZE with (2 ^ 21).
  assert (Hx : 0 <= x) by apply u64_range. split; [by rewrite Z.div_mul|].
  apply Z.mul_nonneg_nonneg; [by apply Z.div_pos|done].
Qed.

(** The state before the sections: the direct map and nothing else. *)
Lemma direct_only s T root n : direct_built s T root n -> Z.of_nat n <= 2 ^ 25 ->
  (forall p, 0 <= p < Z.of_nat n * HUGE_PAGE_SIZE ->
     exists e, leaf s root (phys_to_virt p) = Some (2, e) /\ table_at e = p / HUGE_PAGE_SIZE * HUGE_PAGE_SIZE)
  /\ forall a l e, leaf s root a = Some (l, e) -> has_flag e PageFlags_NoExecute = true.
Proof.
  intros H Hn. split.
  - intros p Hp. destruct (hhdm_address p) as (Hw & Hpre & _); [unfold HUGE_PAGE_SIZE in *; lia|].
    unfold phys_to_virt. rewrite Hw, (db_leaf _ _ _ _ H), Hpre. cbv zeta.
    replace (2 ^ 26 + p / 2 ^ 21 - 2 ^ 26) with (p / 2 ^ 21) by lia. change HUGE_PAGE_SIZE with (2 ^ 21) in *.
    assert (Hj : 0 <= p / 2 ^ 21 < Z.of_nat n) by zlia.
    rewrite (proj2 (Z.leb_le 0 (p / 2 ^ 21))), (proj2 (Z.ltb_lt (p / 2 ^ 21) (Z.of_nat n))) by lia.
    eexists. split; [done|]. by destruct (hhdm_entry_facts (p / 2 ^ 21)) as (_ & _ & -> & _); [lia|].
  - intros a l e. rewrite (db_leaf _ _ _ _ H). cbv zeta.
    destruct ((0 <=? prefix a 1 - 2 ^ 26) && (prefix a 1 - 2 ^ 26 <? Z.of_nat n)) eqn:E; [|done].
    intros [= <- <-]. apply hhdm_entry_facts. lia.
Qed.

Lemma kernel_pdpts_built s T root : upper_built s T root 0 ->
  match kernel_pdpts root s with
  | (Ok _, s') => exists T', upper_built s' T' root 256
  | (r, _) => r = Panic
  end.
Proof.
  intros H. apply (mfor_ind (fun k s' => exists T', upper_built s' T' root k) (fun r _ => r = Panic)); [by exists T|].
  intros k s1 Hk (T1 & H1). exact (upper_step s1 T1 root k H1 Hk).
Qed.

Lemma root_built s : fa_ok (frames s) -> spaces s = ∅ ->
  match or_panic allocate_zeroed_page s with
  | (Ok root, s') => upper_built (with_kernel_space root (with_spaces (<[root := 0]> (spaces s')) s'))
                       {[ root := mkPlace root 4 0 ]} root 0
  | (r, _) => r = Panic
  end.
Proof.
  intros Hok Hsp. unfold or_panic. pose proof (zeroed_raw s Hok) as Ha.
  destruct (allocate_zeroed_page s) as [[root|e|] s1]; [|done|done]. destruct Ha as (Hok1 & _ & Hf & Hown & Hs1).
  split; [done| |done|done|apply lookup_singleton_eq| | | |].
  - cbn. rewrite Hs1. cbn. by rewrite Hsp.
  - intros f p Hp. apply lookup_singleton_Some in Hp as [<- _]. apply Hown. by left.
  - intros f p Hp. apply lookup_singleton_Some in Hp as [<- <-]. by left.
  - intros j Hj. lia.
  - intros i Hi _. change (entry_of s1 root i = 0). rewrite Hs1. by apply entry_zero_eq.
Qed.

Lemma boot_state s regions image : fa_ok (frames s) -> spaces s = ∅ ->
  direct_map_size regions <= 2 ^ 46 -> Forall section_ok (sections image) ->
  match virtual_memory_initialize regions image s with
  | (Ok _, s') => exists s1 T1 root n, direct_built s1 T1 root n /\ Z.of_nat n <= 2 ^ 25
      /\ direct_map_size regions = Z.of_nat n * HUGE_PAGE_SIZE
      /\ boot_added s1 s' root ((sections image).*2) /\ Forall (section_mapped s' root) (sections image)
      /\ cr3 s' = root
  | (r, _) => r = Panic
  end.
Proof.
  intros Hok Hsp Hsize Hsec. destruct (direct_map_size_multiple regions) as [Hmul Hpos].
  unfold virtual_memory_initialize. unfold mtry at 1. pose proof (root_built s Hok Hsp) as H0.
  destruct (or_panic allocate_zeroed_page s) as [[root|e|] s0]; [|done|done].
  unfold mtry at 1, mmod at 1. set (s0' := with_kernel_space root _) in *. unfold mtry at 1.
  pose proof (kernel_pdpts_built s0' _ root H0) as H1.
  destruct (kernel_pdpts root s0') as [[u|e|] s1]; [|done|done]. destruct H1 as (T1 & H1).
  pose proof (upper_inv s1 T1 root H1) as I1.
  assert (L1 : live s1 root) by (rewrite <- (ub_kernel _ _ _ _ H1); apply (vi_kernel s1 T1 I1)).
  assert (D1 : direct_built s1 T1 root 0).
  { split; [done|apply H1| |].
    - intros f p Hf. destruct (ub_place _ _ _ _ H1 f p Hf) as [[_ ->]|(j & _ & -> & _)]; cbn; lia.
    - intros a. rewrite (upper_empty s1 T1 root a H1). cbv zeta. destruct (0 <=? _) eqn:E; [|done].
      by rewrite (proj2 (Z.ltb_ge (prefix a 1 - 2 ^ 26) (Z.of_nat 0))) by lia. }
  set (n := Z.to_nat (direct_map_size regions / HUGE_PAGE_SIZE)).
  assert (Hn : direct_map_size regions = Z.of_nat n * HUGE_PAGE_SIZE /\ Z.of_nat n <= 2 ^ 25).
  { unfold n, HUGE_PAGE_SIZE in *. split; zlia. }
  unfold mtry at 1, direct_map. fold n. pose proof (direct_map_built s1 T1 root n D1 L1 ltac:(lia)) as H2.
  destruct (mfor n 0 HUGE_PAGE_SIZE _ s1) as [[u2|e|] s2]; [|done|done]. destruct H2 as (L2 & T2 & D2).
  unfold mtry at 1. pose proof (map_sections_spec s2 T2 root (sections image) (db_inv _ _ _ _ D2) (db_kernel _ _ _ _ D2) L2 Hsec) as H3.
  destruct (map_sections root (sections image) s2) as [[u3|e|] s3]; [|done|done]. destruct H3 as [A3 M3].
  cbn [mmod]. exists s2, T2, root, n. destruct Hn as [Hn1 Hn2]. split_and!; try done.
  destruct A3 as [(T3 & I3) K3 L3 B4 B5]. split; try done. exists T3. unfold activate.
  destruct I3. by split.
Qed.
End Boot.
