(* ===== verification/Spaces.v ===== *)
(** * The life of an address space

    Creating, tearing down and copying a user's half: [create_user_space],
    [destroy_user_mappings] and [clone_user_space] of kernel/mm/address_space.cpp. *)

From S2P Require Import Prelude Kstd Physical AddressSpace PageTables.

Section Life.
Context {F : Type} {FA : FrameAllocator F}.
Implicit Types (s : Vm F) (T : gmap Z Place).

(** ** Creation *)

(** The loop that shares the kernel's half. *)
Lemma share_upper s root : frame_ok root -> frame_ok (s_kernel_space s) -> root <> s_kernel_space s ->
  let s' := share_kernel_half root s in
  (exists m, s' = with_mem m s)
  /\ (forall i, 256 <= i < 512 -> entry_of s' root i = entry_of s (s_kernel_space s) i)
  /\ (forall t i, frame_ok t -> 0 <= i < 512 -> t <> root \/ i < 256 -> entry_of s' t i = entry_of s t i).
Proof.
  intros Hr Hk Hne. cbv zeta. unfold share_kernel_half.
  pose proof (for_up_ind (fun k s' => (exists m, s' = with_mem m s)
    /\ (forall i, 256 <= i < k -> entry_of s' root i = entry_of s (s_kernel_space s) i)
    /\ (forall t i, frame_ok t -> 0 <= i < 512 -> t <> root \/ i < 256 \/ k <= i -> entry_of s' t i = entry_of s t i))
    (fun i s => set_entry root i (entry_of s (s_kernel_space s) i) s) 256 256 s) as H.
  destruct H as (H1 & H2 & H3).
  - split; [exists (mem s); by destruct s|]. split; [intros; lia|done].
  - intros k s' Hk' ((m & ->) & H2 & H3). split; [by eexists|]. split.
    + intros i Hi. destruct (decide (i = k)) as [->|Hn].
      * rewrite slot_set_eq. apply H3; [done|lia|left; congruence].
      * rewrite slot_set_ne by (done || lia). apply H2. lia.
    + intros t i Ht Hi Hor. rewrite slot_set_ne by (done || lia). apply H3; [done|done|lia].
  - split; [done|]. split; [apply H2|]. intros t i Ht Hi Hor. apply H3; [done|done|lia].
Qed.

(** [s'] has a new space [root] whose user half is empty. *)
Record new_space s T s' (root : Z) : Prop := {
  ns_inv : vm_inv s' (<[root := mkPlace root 4 0]> T);
  ns_unplaced : T !! root = None;
  ns_new : ~ fa_owned (frames s) root;
  ns_owned : forall b, fa_owned (frames s') b <-> b = root \/ fa_owned (frames s) b;
  ns_spaces : spaces s' = <[root := 0]> (spaces s);
  ns_fresh : spaces s !! root = None;
  ns_kernel : s_kernel_space s' = s_kernel_space s;
  ns_user : forall a, index_of a 4 < 256 -> leaf s' root a = None;
  ns_shared : forall a, 256 <= index_of a 4 -> leaf s' root a = leaf s (s_kernel_space s) a;
  ns_leaf : forall r a, live s r -> leaf s' r a = leaf s r a;
  ns_data : forall f i, f <> root -> frame_ok f -> 0 <= i < 512 -> entry_of s' f i = entry_of s f i;
}.

Section NewSpace.
Context (s : Vm F) (T : gmap Z Place) (s1 s2 : Vm F) (root : Z).
Context (Hi : vm_inv s T) (Htf : took_frame s T s1 root).
Context (Hz : forall i, 0 <= i < 512 -> entry_of s1 root i = 0).
Context (Hm : exists m, s2 = with_mem m s1).
Context (Hup : forall i, 256 <= i < 512 -> entry_of s2 root i = entry_of s1 (s_kernel_space s) i).
Context (Hold : forall t i, frame_ok t -> 0 <= i < 512 -> t <> root \/ i < 256 -> entry_of s2 t i = entry_of s1 t i).
Let s' := with_spaces (<[root := 0]> (spaces s2)) s2.
Let T' := <[root := mkPlace root 4 0]> T.

Lemma ns_kernel_eq : s_kernel_space s' = s_kernel_space s.
Proof. destruct Hm as [m ->]. cbn. by rewrite (tf_rest _ _ _ _ Htf). Qed.

Lemma ns_entry t i : frame_ok t -> 0 <= i < 512 -> t <> root -> entry_of s' t i = entry_of s t i.
Proof.
  intros Ht Hx Hn. change (entry_of s2 t i = entry_of s t i). rewrite Hold by tauto.
  by apply (tf_data _ _ _ _ Htf).
Qed.

Lemma ns_low i : 0 <= i < 256 -> entry_of s' root i = 0.
Proof.
  intros Hx. change (entry_of s2 root i = 0). pose proof (tf_frame _ _ _ _ Htf).
  rewrite Hold by (done || lia). apply Hz. lia.
Qed.

Lemma ns_high i : 256 <= i < 512 -> entry_of s' root i = entry_of s (s_kernel_space s) i.
Proof.
  intros Hx. change (entry_of s2 root i = entry_of s (s_kernel_space s) i). rewrite Hup by done.
  pose proof (vi_spaces s T Hi _ (vi_kernel s T Hi)) as Hk.
  apply (tf_data _ _ _ _ Htf); [|exact (place_frame s T _ _ Hi Hk)|lia].
  intros E. rewrite E in Hk. rewrite (tf_unplaced s T s1 root Hi Htf) in Hk. done.
Qed.

Lemma ns_place f p : T !! f = Some p -> f <> root.
Proof. intros Hf ->. rewrite (tf_unplaced s T s1 root Hi Htf) in Hf. done. Qed.

Lemma ns_live r : live s' r <-> r = root \/ live s r.
Proof.
  unfold live. cbn. destruct Hm as [m ->]. cbn. rewrite (tf_rest _ _ _ _ Htf). cbn.
  destruct (decide (r = root)) as [->|Hn]; [rewrite lookup_insert_eq|rewrite lookup_insert_ne by done]; [naive_solver|].
  naive_solver.
Qed.

Lemma new_space_inv : vm_inv s' T'.
Proof.
  pose proof (tf_unplaced s T s1 root Hi Htf) as Hnp. pose proof ns_kernel_eq as Hk.
  assert (Hko : forall sp l i, owner s' sp l i = owner s sp l i) by (intros; unfold owner; by rewrite Hk).
  assert (Hkt : forall sp e, tracked s' sp e = tracked s sp e) by (intros; unfold tracked; by rewrite Hk).
  assert (Hframes : frames s' = frames s1) by (by destruct Hm as [m ->]).
  assert (Hkeep : forall f p, T !! f = Some p -> T' !! f = Some p).
  { intros f p Hf. unfold T'. rewrite lookup_insert_ne; [done|]. intros <-. by apply (ns_place root p). }
  assert (Hlift : forall sp l pre i e, child_ok s T sp l pre i e -> child_ok s' T' sp l pre i e).
  { intros sp l pre i e Hc. unfold child_ok in *. rewrite Hkt, Hko, Hk. destruct (l =? 1); [auto|].
    destruct (has_flag e PageFlags_Huge); [done|auto]. }
  split.
  - rewrite Hframes. apply (vi_frames s1 T (tf_inv _ _ _ _ Htf)).
  - intros f p Hf. rewrite Hframes. apply (tf_owned _ _ _ _ Htf).
    apply lookup_insert_Some in Hf as [[<- _]|[_ Hf]]; [by left|right]. exact (vi_owned s T Hi f p Hf).
  - intros f p Hf. apply lookup_insert_Some in Hf as [[_ <-]|[_ Hf]]; [cbn; lia|]. exact (vi_level s T Hi f p Hf).
  - intros t sp l pre i Ht Hl Hx Hp. apply lookup_insert_Some in Ht as [[<- [= <- <- <-]]|[Hn Ht]].
    + destruct (decide (i < 256)) as [Hlt|Hge]; [by rewrite ns_low in Hp by lia|].
      rewrite ns_high in * by lia. apply Hlift.
      pose proof (vi_child s T Hi _ _ 4 0 i (vi_spaces s T Hi _ (vi_kernel s T Hi)) ltac:(lia) Hx Hp) as Hc.
      unfold child_ok, owner in *. cbn in *.
      destruct (vi_upper s T Hi _ i (vi_kernel s T Hi) ltac:(lia)) as (_ & Hh & _). rewrite Hh in *.
      by rewrite (proj2 (Z.leb_le 256 i)) in * by lia.
    + assert (E : entry_of s' t i = entry_of s t i) by (apply ns_entry; [exact (place_frame s T t _ Hi Ht)|done|congruence]).
      rewrite E in *. apply Hlift. by apply (vi_child s T Hi t).
  - intros f sp l pre Hf Hl. apply lookup_insert_Some in Hf as [[<- [= <- <- <-]]|[Hn Hf]]; [lia|].
    destruct (vi_parent s T Hi f sp l pre Hf Hl) as (t & Ht & Hrest). exists t. split; [by apply Hkeep|].
    cbv zeta in Hrest |- *. rewrite ns_entry; [by rewrite Hkt|exact (place_frame s T t _ Hi Ht)|apply Z.mod_pos_bound; lia|by eapply ns_place].
  - intros f sp pre Hf. rewrite ns_live. apply lookup_insert_Some in Hf as [[<- [= <- <-]]|[Hn Hf]]; [auto|].
    destruct (vi_root s T Hi f sp pre Hf) as (-> & -> & ?). auto.
  - intros r [->|Hr]%ns_live; [apply lookup_insert_eq|]. by apply Hkeep, (vi_spaces s T Hi).
  - rewrite Hk. apply ns_live. right. apply (vi_kernel s T Hi).
  - intros r i Hr Hx. rewrite Hk. pose proof (vi_kernel s T Hi) as Hkl.
    assert (E : forall x, live s x -> entry_of s' x i = entry_of s x i).
    { intros x Hx'. pose proof (vi_spaces s T Hi x Hx') as Hp. apply ns_entry; [exact (place_frame s T x _ Hi Hp)|lia|].
      by eapply ns_place. }
    rewrite (E _ Hkl). apply ns_live in Hr as [->|Hr].
    + rewrite ns_high by done. by apply (vi_upper s T Hi).
    + rewrite (E _ Hr). by apply (vi_upper s T Hi).
Qed.

Lemma new_space_spec : new_space s T s' root.
Proof.
  pose proof new_space_inv as Hi'. pose proof ns_kernel_eq as Hk.
  assert (Hsp : spaces s' = <[root := 0]> (spaces s)) by (destruct Hm as [m ->]; cbn; by rewrite (tf_rest _ _ _ _ Htf)).
  assert (Hleaf : forall r a, live s r -> leaf s' r a = leaf s r a).
  { intros r a Hr. apply (leaf_ext s s' T r a Hi Hr). intros l t Hl Ht. left.
    apply ns_entry; [exact (place_frame s T t _ Hi Ht)|apply index_of_range; lia|by eapply ns_place]. }
  split; try done.
  - exact (tf_unplaced s T s1 root Hi Htf).
  - apply Htf.
  - intros b. destruct Hm as [m Hm']. unfold s'. rewrite Hm'. apply (tf_owned _ _ _ _ Htf).
  - destruct (spaces s !! root) as [n|] eqn:E; [|done].
    pose proof (vi_spaces s T Hi root ltac:(by exists n)) as Hp. by destruct (ns_place root _ Hp).
  - intros a Ha. unfold leaf. rewrite walk_from_SS. change (Z.of_nat 4) with 4. cbv zeta.
    pose proof (index_of_range a 4 ltac:(lia)). by rewrite ns_low by lia.
  - intros a Ha. rewrite <- Hleaf by apply (vi_kernel s T Hi).
    apply (leaf_same_page s' T' (s_kernel_space s) a root a Hi').
    + apply ns_live. right. apply (vi_kernel s T Hi).
    + apply ns_live. by left.
    + apply bool_decide_eq_true. split; [|done]. unfold own. by rewrite (proj2 (Z.leb_le 256 _) Ha).
  - intros f i Hn Hf Hx. by apply ns_entry.
Qed.
End NewSpace.

Lemma create_user_space_eq object s : create_user_space object s =
  match allocate_zeroed_page s with
  | (Ok root, s1) =>
      let s2 := share_kernel_half root s1 in
      if object then (Ok root, with_spaces (<[root := 0]> (spaces s2)) s2)
      else match free_frame root s2 with
           | (Ok _, s3) => (Err ENOMEM, s3)
           | (Err e, s3) => (Err e, s3)
           | (Panic, s3) => (Panic, s3)
           end
  | (Err e, s1) => (Err e, s1)
  | (Panic, s1) => (Panic, s1)
  end.
Proof.
  unfold create_user_space, mtry, mmod, merr, mok. destruct (allocate_zeroed_page s) as [[root|e|] s1]; [|done|done].
  by destruct object.
Qed.

Lemma create_user_space_at s T object : vm_inv s T ->
  match create_user_space object s with
  | (Ok root, s') => new_space s T s' root
  | (Err e, s') => e = ENOMEM /\ vm_inv s' T /\ (forall b, fa_owned (frames s') b <-> fa_owned (frames s) b)
      /\ spaces s' = spaces s /\ s_kernel_space s' = s_kernel_space s
      /\ (forall r a, live s r -> leaf s' r a = leaf s r a)
  | (Panic, _) => False
  end.
Proof.
  intros Hi. rewrite create_user_space_eq. pose proof (allocate_zeroed_spec s T Hi) as Ha.
  destruct (allocate_zeroed_page s) as [[root|e|] s1]; [|by destruct Ha as [-> ->]|done]. destruct Ha as [Htf Hz].
  assert (Hk1 : s_kernel_space s1 = s_kernel_space s) by by rewrite (tf_rest _ _ _ _ Htf).
  pose proof (vi_spaces s T Hi _ (vi_kernel s T Hi)) as Hkp.
  destruct (share_upper s1 root) as (Hm & Hup & Hold); [apply Htf|rewrite Hk1; exact (place_frame s T _ _ Hi Hkp)| |].
  { rewrite Hk1. intros E. rewrite <- E, (tf_unplaced s T s1 root Hi Htf) in Hkp. done. }
  cbv zeta. revert Hm Hup Hold. generalize (share_kernel_half root s1). intros s2 Hm Hup Hold.
  rewrite Hk1 in Hup. destruct object.
  - by apply (new_space_spec s T s1 s2 root).
  - destruct (inv_equiv s1 s2 T (tf_inv _ _ _ _ Htf)) as [I2 L2].
    + destruct Hm as [m ->]. by destruct s1.
    + destruct Hm as [m ->]. apply (vi_frames s1 T (tf_inv _ _ _ _ Htf)).
    + destruct Hm as [m ->]. apply (vi_owned s1 T (tf_inv _ _ _ _ Htf)).
    + intros t p i Ht Hl Hx. left. apply Hold; [exact (place_frame s T t _ Hi Ht)|done|left].
      intros ->. rewrite (tf_unplaced s T s1 root Hi Htf) in Ht. done.
    + assert (Hf2 : frames s2 = frames s1) by by destruct Hm as [m ->].
      destruct (free_unplaced s2 T root I2) as (g & Hg & I3 & Hown).
      * rewrite Hf2. apply (tf_owned _ _ _ _ Htf). by left.
      * exact (tf_unplaced s T s1 root Hi Htf).
      * rewrite Hg. cbn. split; [done|]. split; [done|].
        destruct Hm as [m Hm']. split_and!.
        -- intros b. rewrite Hown, Hf2, (tf_owned _ _ _ _ Htf). split; [tauto|]. intros Hb. split; [|by right].
           intros ->. exact (tf_new _ _ _ _ Htf Hb).
        -- rewrite Hm'. cbn. by rewrite (tf_rest _ _ _ _ Htf).
        -- rewrite Hm'. cbn. by rewrite (tf_rest _ _ _ _ Htf).
        -- intros r a Hr. change (leaf s2 r a = leaf s r a).
           rewrite L2 by (unfold live; by rewrite (tf_rest _ _ _ _ Htf)). by apply (tf_leaf _ _ _ _ Htf).
Qed.
(** ** Teardown *)

Section Destroy.
Context (s0 : Vm F) (T : gmap Z Place) (r : Z) (m : Z -> Z).
Context (Hi : vm_inv s0 T) (Hr : r <> s_kernel_space s0).
Let s1 := with_mem m s0.
Context (Hm : forall t p i, T !! t = Some p -> p_level p < 4 -> 0 <= i < 512 -> entry_of s1 t i = entry_of s0 t i).

(** The frames of the tree below and at the place [(l, q)] of the space. *)
Definition sub (l q b : Z) : Prop :=
  exists p, T !! b = Some p /\ p_space p = r /\ p_level p <= l /\ p_prefix p / 512 ^ (l - p_level p) = q.

(** A tree hangs on its root. *)
Lemma sub_root l q b : l <= 3 -> sub l q b -> exists f, T !! f = Some (mkPlace r l q).
Proof.
  intros Hl ([sp k pre] & Hb & Hs & Hk & Hq). cbn in *. subst sp q.
  assert (Hn : exists n, l = k + Z.of_nat n) by (exists (Z.to_nat (l - k)); lia). destruct Hn as [n ->].
  revert k pre b Hb Hk Hl. induction n as [|n IH]; intros k pre b Hb Hk Hl.
  - exists b. replace (k + Z.of_nat 0 - k) with 0 by lia. replace (k + Z.of_nat 0) with k by lia.
    by rewrite Z.pow_0_r, Z.div_1_r.
  - destruct (vi_parent s0 T Hi b r k pre Hb ltac:(lia)) as (t & Ht & _).
    destruct (IH (k + 1) (pre / 512) t Ht ltac:(lia) ltac:(lia)) as (f & Hf). exists f. rewrite Hf. f_equal. f_equal; [lia|].
    rewrite Z.div_div by lia. f_equal. rewrite <- Z.pow_succ_r by lia. f_equal. lia.
Qed.

(** What hangs below a table hangs below one of its entries. *)
Lemma sub_children l pre b : 1 <= l -> (exists i, 0 <= i < 512 /\ sub (l - 1) (pre * 512 + i) b)
  <-> sub l pre b /\ T !! b <> Some (mkPlace r l pre).
Proof.
  intros Hl. split.
  - intros (i & Hx & ([sp k q] & Hb & Hs & Hk & Hq)). cbn in *. split; [|rewrite Hb; intros [= _ -> _]; lia].
    exists (mkPlace sp k q). split_and!; try done; cbn; [lia|].
    replace (l - k) with (l - 1 - k + 1) by lia. rewrite Z.pow_add_r, <- Z.div_div by lia. change (512 ^ 1) with 512.
    rewrite Hq. zlia.
  - intros [([sp k q] & Hb & Hs & Hk & Hq) Hn]. cbn in *. subst sp.
    assert (Hlt : k < l). { destruct (decide (k = l)) as [->|]; [|lia]. exfalso. apply Hn. rewrite Hb.
      rewrite Z.sub_diag, Z.pow_0_r, Z.div_1_r in Hq. by subst. }
    set (c := q / 512 ^ (l - 1 - k)). exists (c mod 512). split; [apply Z.mod_pos_bound; lia|].
    exists (mkPlace r k q). split_and!; try done; cbn; [lia|]. fold c. subst pre.
    replace (l - k) with (l - 1 - k + 1) by lia. rewrite Z.pow_add_r, <- Z.div_div by lia. change (512 ^ 1) with 512. fold c.
    zlia.
Qed.

Lemma sub_disjoint l q q' b : sub l q b -> sub l q' b -> q = q'.
Proof. intros (p & Hp & _ & _ & <-) (p' & Hp' & _ & _ & <-). by simplify_eq. Qed.

(** The child an entry leads to, and that an entry that leads nowhere has none. *)
Lemma sub_entry l pre t i b : 1 <= l <= 3 -> T !! t = Some (mkPlace r l pre) -> 0 <= i < 512 ->
  sub (l - 1) (pre * 512 + i) b ->
  let e := entry_of s1 t i in present e = true /\ T !! table_at e = Some (mkPlace r (l - 1) (pre * 512 + i))
    /\ if l =? 1 then has_flag e PageFlags_Foreign = false else has_flag e PageFlags_Huge = false.
Proof.
  intros Hl Ht Hx Hb. cbv zeta. rewrite (Hm t _ i Ht ltac:(cbn; lia) Hx).
  destruct (sub_root (l - 1) _ b ltac:(lia) Hb) as (f & Hf).
  destruct (vi_parent s0 T Hi f r (l - 1) _ Hf ltac:(lia)) as (u & Hu & Hp & Ha & Hc).
  replace ((pre * 512 + i) / 512) with pre in Hu by zlia. replace ((pre * 512 + i) mod 512) with i in * by zlia.
  replace (l - 1 + 1) with l in Hu by lia. rewrite (place_inj s0 T u t _ Hi Hu Ht) in *.
  split; [done|]. split; [by rewrite Ha|]. destruct (Z.eqb_spec l 1) as [->|Hn].
  - cbn in Hc. unfold tracked in Hc. by destruct (has_flag _ PageFlags_Foreign); rewrite ?andb_false_r in Hc.
  - by rewrite (proj2 (Z.eqb_neq (l - 1) 0)) in Hc by lia.
Qed.

(** A step that gives back exactly the frames of [D]. *)
Definition frees (c : M (Vm F) unit) (D : Z -> Prop) : Prop :=
  forall g, fa_ok g -> (forall b, D b -> fa_owned g b) ->
    exists g', c (with_frames g s1) = (Ok tt, with_frames g' s1) /\ fa_ok g'
      /\ forall b, fa_owned g' b <-> fa_owned g b /\ ~ D b.

Lemma frees_nothing (c : M (Vm F) unit) D : (forall g, c (with_frames g s1) = (Ok tt, with_frames g s1)) ->
  (forall b, ~ D b) -> frees c D.
Proof. intros Hc HD g Hg _. exists g. split; [apply Hc|]. split; [done|]. intros b. specialize (HD b). tauto. Qed.

Lemma frees_seq (c d : M (Vm F) unit) D E : frees c D -> frees d E -> (forall b, D b -> E b -> False) ->
  frees (c ;! d) (fun b => D b \/ E b).
Proof.
  intros Hc Hd Hdis g Hg Hown. destruct (Hc g Hg ltac:(auto)) as (g1 & E1 & G1 & O1).
  destruct (Hd g1 G1) as (g2 & E2 & G2 & O2).
  { intros b Hb. apply O1. split; [auto|]. intros HD. by apply (Hdis b). }
  exists g2. unfold mtry. rewrite E1. split; [done|]. split; [done|]. intros b. rewrite O2, O1. tauto.
Qed.

Lemma frees_frame f : frees (free_frame f) (fun b => b = f).
Proof.
  intros g Hg Hown. destruct (fa_free_spec g f Hg (Hown f eq_refl)) as (g' & E & G & O). exists g'.
  unfold free_frame, on_frames. cbn. rewrite E. split; [done|]. split; [done|]. intros b. rewrite O. tauto.
Qed.

Lemma frees_ext c D E : (forall b, D b <-> E b) -> frees c D -> frees c E.
Proof.
  intros HDE Hc g Hg Hown. destruct (Hc g Hg) as (g' & H1 & H2 & H3); [intros b Hb; by apply Hown, HDE|].
  exists g'. split; [done|]. split; [done|]. intros b. rewrite H3, HDE. done.
Qed.

Lemma frees_loop body (D : Z -> Z -> Prop) n i : (forall k, i <= k < i + Z.of_nat n -> frees (body k) (D k)) ->
  (forall k k' b, D k b -> D k' b -> k = k') ->
  frees (mfor n i 1 body) (fun b => exists k, i <= k < i + Z.of_nat n /\ D k b).
Proof.
  revert i. induction n as [|n IH]; intros i Hb Hdis.
  - apply frees_nothing; [done|]. intros b (k & Hk & _). lia.
  - cbn [mfor]. apply (frees_ext _ (fun b => D i b \/ exists k, i + 1 <= k < i + 1 + Z.of_nat n /\ D k b)).
    { intros b. split.
      - intros [H|(k & Hk & H)]; [exists i|exists k]; (split; [lia|done]).
      - intros (k & Hk & H). destruct (decide (k = i)) as [->|]; [by left|right]. exists k. split; [lia|done]. }
    apply frees_seq; [apply Hb; lia| |].
    + apply IH; [|done]. intros k Hk. apply Hb. lia.
    + intros b H (k & Hk & H'). pose proof (Hdis i k b H H'). lia.
Qed.

Definition strictly (l q b : Z) : Prop := sub l q b /\ T !! b <> Some (mkPlace r l q).

Lemma sub_split l q f b : T !! f = Some (mkPlace r l q) -> 0 <= l -> sub l q b <-> strictly l q b \/ b = f.
Proof.
  intros Hf Hl. split.
  - intros Hb. destruct (decide (T !! b = Some (mkPlace r l q))) as [E|E]; [right|by left].
    exact (place_inj s0 T b f _ Hi E Hf).
  - intros [[H _]| ->]; [done|]. exists (mkPlace r l q). split_and!; try done; cbn.
    by rewrite Z.sub_diag, Z.pow_0_r, Z.div_1_r.
Qed.

Lemma frees_child l q f (c : M (Vm F) unit) : 0 <= l -> T !! f = Some (mkPlace r l q) -> frees c (strictly l q) ->
  frees (c ;! free_frame f) (sub l q).
Proof.
  intros Hl Hf Hc. apply (frees_ext _ (fun b => strictly l q b \/ b = f)).
  - intros b. symmetry. by apply sub_split.
  - apply frees_seq; [done|apply frees_frame|]. intros b [_ Hn] ->. done.
Qed.

Lemma frees_entries l pre body : 1 <= l <= 3 ->
  (forall i, 0 <= i < 512 -> frees (body i) (sub (l - 1) (pre * 512 + i))) ->
  frees (mfor 512 0 1 body) (strictly l pre).
Proof.
  intros Hl Hb. apply (frees_ext _ (fun b => exists i, 0 <= i < 0 + Z.of_nat 512 /\ sub (l - 1) (pre * 512 + i) b)).
  - intros b. unfold strictly. rewrite <- sub_children by lia. by split; intros (i & Hx & H); exists i.
  - apply frees_loop; [done|]. intros k k' b H1 H2. pose proof (sub_disjoint _ _ _ _ H1 H2). lia.
Qed.

(** The entry read in the state of the teardown. *)
Lemma mget_frees (k : Vm F -> M (Vm F) unit) D : (forall g, k (with_frames g s1) = k s1) ->
  frees (k s1) D -> frees (let! s := mget in k s) D.
Proof. intros Hk H g Hg Hown. unfold mtry, mget. rewrite Hk. by apply H. Qed.

Lemma child_placed l pre t i : 1 <= l <= 3 -> T !! t = Some (mkPlace r l pre) -> 0 <= i < 512 ->
  let e := entry_of s1 t i in present e = true ->
  if l =? 1 then has_flag e PageFlags_Foreign = false -> T !! table_at e = Some (mkPlace r 0 (pre * 512 + i))
  else has_flag e PageFlags_Huge = false /\ T !! table_at e = Some (mkPlace r (l - 1) (pre * 512 + i)).
Proof.
  intros Hl Ht Hx. cbv zeta. rewrite (Hm t _ i Ht ltac:(cbn; lia) Hx). intros Hp.
  pose proof (vi_child s0 T Hi t r l pre i Ht ltac:(lia) Hx Hp) as Hc. unfold child_ok in Hc.
  destruct (Z.eqb_spec l 1) as [->|Hn].
  - intros Hf. apply Hc. unfold tracked. rewrite Hf. by rewrite (proj2 (Z.eqb_neq r _) Hr).
  - destruct (has_flag _ PageFlags_Huge); [by destruct Hc|]. split; [done|]. rewrite Hc. f_equal. f_equal.
    unfold owner. by rewrite (proj2 (Z.eqb_neq l 4)) by lia.
Qed.

Lemma destroy_pt_frees t pre : T !! t = Some (mkPlace r 1 pre) -> frees (destroy_pt t) (strictly 1 pre).
Proof.
  intros Ht. apply frees_entries; [lia|]. intros i Hx. apply mget_frees; [done|].
  pose proof (sub_entry 1 pre t i) as He. pose proof (child_placed 1 pre t i ltac:(lia) Ht Hx) as Hc. cbv zeta in *.
  change (1 =? 1) with true in Hc. cbn iota in Hc.
  change (1 - 1) with 0 in *. set (e := entry_of s1 t i) in *.
  destruct (present e) eqn:Ep; cbn [negb].
  2:{ apply frees_nothing; [done|]. intros b Hb. destruct (He b ltac:(lia) Ht Hx Hb) as [? _]. done. }
  destruct (has_flag e PageFlags_Foreign) eqn:Ef.
  { apply frees_nothing; [done|]. intros b Hb. destruct (He b ltac:(lia) Ht Hx Hb) as (_ & _ & H). by cbn in H. }
  apply (frees_ext _ (fun b => b = table_at e)); [|apply frees_frame]. intros b.
  rewrite (sub_split 0 _ (table_at e) b (Hc eq_refl eq_refl) ltac:(lia)). split; [by right|].
  intros [[(p & Hp & Hs & Hk & Hq) Hn]|?]; [|done]. exfalso. apply Hn. rewrite Hp.
  pose proof (vi_level s0 T Hi b p Hp). destruct p as [sp k q]; cbn in *. assert (k = 0) as -> by lia.
  rewrite Z.sub_diag, Z.pow_0_r, Z.div_1_r in Hq. by subst.
Qed.

Lemma destroy_pd_frees t pre : T !! t = Some (mkPlace r 2 pre) -> frees (destroy_pd t) (strictly 2 pre).
Proof.
  intros Ht. apply frees_entries; [lia|]. intros i Hx. apply mget_frees; [done|].
  pose proof (sub_entry 2 pre t i) as He. pose proof (child_placed 2 pre t i ltac:(lia) Ht Hx) as Hc. cbv zeta in *.
  change (2 =? 1) with false in Hc. cbn iota in Hc.
  change (2 - 1) with 1 in *. set (e := entry_of s1 t i) in *.
  destruct (present e) eqn:Ep; cbn [negb].
  2:{ apply frees_nothing; [done|]. intros b Hb. destruct (He b ltac:(lia) Ht Hx Hb) as [? _]. done. }
  destruct (Hc eq_refl) as [Hh Hp]. rewrite Hh. cbn [negb]. apply frees_child; [lia|done|]. by apply destroy_pt_frees.
Qed.

Lemma destroy_pdpt_frees t pre : T !! t = Some (mkPlace r 3 pre) -> frees (destroy_pdpt t) (strictly 3 pre).
Proof.
  intros Ht. apply frees_entries; [lia|]. intros i Hx. apply mget_frees; [done|].
  pose proof (sub_entry 3 pre t i) as He. pose proof (child_placed 3 pre t i ltac:(lia) Ht Hx) as Hc. cbv zeta in *.
  change (3 =? 1) with false in Hc. cbn iota in Hc.
  change (3 - 1) with 2 in *. set (e := entry_of s1 t i) in *.
  destruct (present e) eqn:Ep; cbn [negb].
  2:{ apply frees_nothing; [done|]. intros b Hb. destruct (He b ltac:(lia) Ht Hx Hb) as [? _]. done. }
  destruct (Hc eq_refl) as [Hh Hp]. apply frees_child; [lia|done|]. by apply destroy_pd_frees.
Qed.
End Destroy.

(** The places a teardown of [r] empties: everything of the space but its root. *)
Definition private (r : Z) (p : Place) : bool := (p_space p =? r) && (p_level p <? 4).
Definition without (r : Z) T : gmap Z Place := filter (fun x => private r x.2 = false) T.

Lemma without_Some r T f p : without r T !! f = Some p <-> T !! f = Some p /\ private r p = false.
Proof. unfold without. by rewrite map_lookup_filter_Some. Qed.

Lemma without_None r T f : without r T !! f = None <-> forall p, T !! f = Some p -> private r p = true.
Proof.
  unfold without. rewrite map_lookup_filter_None. split.
  - intros [H|H] p Hp; [congruence|]. specialize (H p Hp). cbn in H. by destruct (private r p).
  - intros H. destruct (T !! f) as [p|]; [right|by left]. intros q [= <-] E. cbn in E. by rewrite (H p eq_refl) in E.
Qed.

(** [s'] is [s] with the user half of [r] gone and its frames given back. *)
Record destroyed s T s' (r : Z) : Prop := {
  de_inv : vm_inv s' (without r T);
  de_owned : forall b, fa_owned (frames s') b <-> fa_owned (frames s) b /\ forall p, T !! b = Some p -> private r p = false;
  de_spaces : spaces s' = alter (fun _ => 0) r (spaces s);
  de_kernel : s_kernel_space s' = s_kernel_space s;
  de_leaf : forall r' a, live s r' -> leaf s' r' a = if own s r' a =? r then None else leaf s r' a;
  de_data : forall f i, f <> r -> frame_ok f -> 0 <= i < 512 -> entry_of s' f i = entry_of s f i;
}.

Section DestroySpace.
Context (s : Vm F) (T : gmap Z Place) (r : Z).
Context (Hi : vm_inv s T) (Hlive : live s r) (Hr : r <> s_kernel_space s).

(** A frame of the user half hangs below one of the lower entries of the root. *)
Lemma private_sub b p : T !! b = Some p -> private r p = true ->
  exists i, 0 <= i < 256 /\ sub T r 3 i b.
Proof.
  intros Hb Hp. apply andb_true_iff in Hp as [Hs Hl]. apply Z.eqb_eq in Hs. apply Z.ltb_lt in Hl.
  set (q := p_prefix p / 512 ^ (3 - p_level p)).
  assert (Hsub : sub T r 3 q b) by (exists p; split_and!; try done; lia). exists q. split; [|done].
  destruct (sub_root s T r Hi 3 q b ltac:(lia) Hsub) as (f & Hf).
  destruct (vi_parent s T Hi f r 3 q Hf ltac:(lia)) as (t & Ht & Hpres & Ha & Hh).
  destruct (vi_root s T Hi t _ _ Ht) as (E & Hq0 & _). subst t.
  assert (Hq : 0 <= q < 512) by zlia. replace (q mod 512) with q in * by zlia.
  destruct (decide (q < 256)) as [|Hge]; [lia|]. exfalso.
  pose proof (vi_child s T Hi r r 4 0 q (vi_spaces s T Hi r Hlive) ltac:(lia) Hq Hpres) as Hc.
  unfold child_ok in Hc. cbn in Hh. change (4 =? 1) with false in Hc. cbn iota in Hc. rewrite Hh, Ha, Hf in Hc.
  unfold owner in Hc. rewrite (proj2 (Z.leb_le 256 q)) in Hc by lia. cbn in Hc. injection Hc as E. done.
Qed.

Lemma sub_private i b : sub T r 3 i b -> exists p, T !! b = Some p /\ private r p = true.
Proof. intros (p & Hp & Hs & Hl & _). exists p. split; [done|]. unfold private. rewrite Hs. lia. Qed.

(** After the first [k] entries. *)
Record half_destroyed (k : nat) (s1 : Vm F) : Prop := {
  hd_rest : s1 = with_mem (mem s1) (with_frames (frames s1) s);
  hd_ok : fa_ok (frames s1);
  hd_owned : forall b, fa_owned (frames s1) b <->
    fa_owned (frames s) b /\ ~ exists i, 0 <= i < Z.of_nat k /\ sub T r 3 i b;
  hd_keep : forall t i, frame_ok t -> 0 <= i < 512 -> t <> r \/ Z.of_nat k <= i -> entry_of s1 t i = entry_of s t i;
  hd_gone : forall i, 0 <= i < Z.of_nat k -> present (entry_of s1 r i) = false;
}.

Lemma root_frame : frame_ok r.
Proof. exact (place_frame s T r _ Hi (vi_spaces s T Hi r Hlive)). Qed.

Lemma mtry_assoc {A B C} (c : M (Vm F) A) (d : M (Vm F) B) (e : M (Vm F) C) x : (c ;! d ;! e) x = ((c ;! d) ;! e) x.
Proof. unfold mtry. by destruct (c x) as [[?|?|] ?]. Qed.

Lemma destroy_step k s1 : half_destroyed k s1 -> (k < 256)%nat ->
  exists s2, (let! s := mget in
    let pml4_entry := entry_of s r (0 + Z.of_nat k * 1) in
    if negb (present pml4_entry) then mok tt
    else destroy_pdpt (table_at pml4_entry) ;! free_frame (Z.land pml4_entry ADDRESS_MASK) ;!
         mmod (set_entry r (0 + Z.of_nat k * 1) 0)) s1 = (Ok tt, s2) /\ half_destroyed (S k) s2.
Proof.
  intros H Hk. replace (0 + Z.of_nat k * 1) with (Z.of_nat k) by lia. set (i := Z.of_nat k).
  assert (Hx : 0 <= i < 256) by lia. pose proof root_frame as Hrf.
  pose proof (hd_keep _ _ H r i Hrf ltac:(lia) ltac:(right; lia)) as He. unfold mtry at 1, mget. cbv zeta. rewrite He.
  assert (Hsplit : forall b, (exists j, 0 <= j < Z.of_nat (S k) /\ sub T r 3 j b)
            <-> (exists j, 0 <= j < Z.of_nat k /\ sub T r 3 j b) \/ sub T r 3 i b).
  { intros b. split.
    - intros (j & Hj & Hb). destruct (decide (j = i)) as [->|]; [by right|left]. exists j. split; [lia|done].
    - intros [(j & Hj & Hb)|Hb]; [exists j|exists i]; (split; [lia|done]). }
  destruct (present (entry_of s r i)) eqn:Ep; cbn [negb].
  - pose proof (vi_child s T Hi r r 4 0 i (vi_spaces s T Hi r Hlive) ltac:(lia) ltac:(lia) Ep) as Hc.
    unfold child_ok in Hc. change (4 =? 1) with false in Hc. cbn iota in Hc.
    destruct (has_flag _ PageFlags_Huge); [by destruct Hc|].
    unfold owner in Hc. rewrite (proj2 (Z.leb_gt 256 i)) in Hc by lia. rewrite andb_false_r in Hc.
    change (0 * 512 + i) with i in Hc. change (4 - 1) with 3 in Hc. set (t := table_at (entry_of s r i)) in *.
    assert (Hm : forall u p j, T !! u = Some p -> p_level p < 4 -> 0 <= j < 512 ->
              entry_of (with_mem (mem s1) s) u j = entry_of s u j).
    { intros u p j Hu Hl Hj. change (entry_of s1 u j = entry_of s u j).
      apply (hd_keep _ _ H); [exact (place_frame s T u p Hi Hu)|done|left]. intros ->.
      rewrite (vi_spaces s T Hi r Hlive) in Hu. injection Hu as <-. cbn in Hl. lia. }
    pose proof (frees_child s T r (mem s1) Hi 3 i t (destroy_pdpt t) ltac:(lia) Hc
      (destroy_pdpt_frees s T r (mem s1) Hi Hr Hm t i Hc)) as Hfree.
    destruct (Hfree (frames s1) (hd_ok _ _ H)) as (g & Hg & Gok & Gown).
    { intros b Hb. apply (hd_owned _ _ H). destruct (sub_private i b Hb) as (p & Hp & _).
      split; [exact (vi_owned s T Hi b p Hp)|]. intros (j & Hj & Hb'). pose proof (sub_disjoint T r 3 j i b Hb' Hb). lia. }
    assert (E1 : with_frames (frames s1) (with_mem (mem s1) s) = s1) by (rewrite (hd_rest _ _ H) at 3; by destruct s).
    rewrite E1 in Hg. rewrite mtry_assoc. change (Z.land (entry_of s r i) ADDRESS_MASK) with t.
    unfold mtry at 1. rewrite Hg. cbn [mmod]. eexists. split; [done|].
    set (s2 := set_entry _ _ _ _). split.
    + by destruct s.
    + done.
    + intros b. change (frames s2) with g. rewrite Gown, (hd_owned _ _ H), Hsplit. tauto.
    + intros u j Hu Hj Hor. unfold s2. rewrite slot_set_ne by (done || lia).
      change (entry_of s1 u j = entry_of s u j). apply (hd_keep _ _ H); [done|done|lia].
    + intros j Hj. destruct (decide (j = i)) as [->|Hn]; [unfold s2; by rewrite slot_set_eq|].
      unfold s2. rewrite slot_set_ne by (done || lia). apply (hd_gone _ _ H). lia.
  - exists s1. split; [done|]. split; try apply H.
    + intros b. rewrite (hd_owned _ _ H), Hsplit. split; [|tauto]. intros [Ho Hn]. split; [done|].
      intros [?|Hb]; [done|]. destruct (sub_root s T r Hi 3 i b ltac:(lia) Hb) as (f & Hf).
      destruct (vi_parent s T Hi f r 3 i Hf ltac:(lia)) as (u & Hu & Hp & _).
      destruct (vi_root s T Hi u _ _ Hu) as (<- & _). replace (i mod 512) with i in Hp by zlia. congruence.
    + intros t j Ht Hj Hor. apply (hd_keep _ _ H); [done|done|lia].
    + intros j Hj. destruct (decide (j = i)) as [->|Hn]; [by rewrite He|]. apply (hd_gone _ _ H). lia.
Qed.

Section Final.
Context (s1 : Vm F) (H : half_destroyed 256 s1).
Let s2 := with_spaces (alter (fun _ => 0) r (spaces s1)) s1.

Lemma fin_kernel : s_kernel_space s2 = s_kernel_space s.
Proof. unfold s2. cbn. by rewrite (hd_rest _ _ H). Qed.

Lemma fin_live x : live s2 x <-> live s x.
Proof.
  unfold live, s2. cbn. rewrite (hd_rest _ _ H). cbn. destruct (decide (r = x)) as [->|Hn].
  - rewrite lookup_alter_eq. by destruct (spaces s !! x).
  - by rewrite lookup_alter_ne.
Qed.

Lemma fin_entry t p i : T !! t = Some p -> private r p = false -> 0 <= i < 512 -> t <> r \/ 256 <= i ->
  entry_of s2 t i = entry_of s t i.
Proof. intros Ht _ Hx Hor. apply (hd_keep _ _ H); [exact (place_frame s T t p Hi Ht)|done|lia]. Qed.

Lemma fin_inv : vm_inv s2 (without r T).
Proof.
  pose proof fin_kernel as Hk.
  assert (Hko : forall sp l i, owner s2 sp l i = owner s sp l i) by (intros; unfold owner; by rewrite Hk).
  assert (Hkt : forall sp e, tracked s2 sp e = tracked s sp e) by (intros; unfold tracked; by rewrite Hk).
  assert (Hpub : forall f sp l pre, T !! f = Some (mkPlace sp l pre) -> sp <> r -> without r T !! f = Some (mkPlace sp l pre)).
  { intros f sp l pre Hf Hn. apply without_Some. split; [done|]. unfold private. cbn. by rewrite (proj2 (Z.eqb_neq sp r) Hn). }
  assert (Hroot : forall x, live s x -> T !! x = Some (mkPlace x 4 0) /\ private r (mkPlace x 4 0) = false).
  { intros x Hx. split; [by apply (vi_spaces s T Hi)|]. unfold private. cbn. apply andb_false_r. }
  split.
  - exact (hd_ok _ _ H).
  - intros f p [Hf Hp]%without_Some. apply (hd_owned _ _ H). split; [exact (vi_owned s T Hi f p Hf)|].
    intros (i & _ & Hb). destruct (sub_private i f Hb) as (q & Hq & Hq'). congruence.
  - intros f p [Hf _]%without_Some. exact (vi_level s T Hi f p Hf).
  - intros t sp l pre i [Ht Hp]%without_Some Hl Hx Hpres.
    destruct (decide (t = r /\ i < 256)) as [[-> Hlt]|Hor].
    { pose proof (hd_gone _ _ H i ltac:(lia)) as Hg. change (entry_of s1 r i) with (entry_of s2 r i) in Hg. congruence. }
    assert (E : entry_of s2 t i = entry_of s t i) by (eapply fin_entry; [done|done|done|lia]).
    rewrite E in *. pose proof (vi_child s T Hi t sp l pre i Ht Hl Hx Hpres) as Hc. unfold child_ok in *.
    rewrite Hkt, Hko, Hk. pose proof (vi_level s T Hi t _ Ht) as Hl4. cbn in Hl4.
    assert (Hsp : l < 4 -> sp <> r).
    { intros Hl3 ->. unfold private in Hp. cbn in Hp. rewrite Z.eqb_refl in Hp. cbn in Hp. lia. }
    destruct (l =? 1) eqn:E1; [intros Htr; apply Hpub; [by apply Hc|apply Hsp; lia]|].
    destruct (has_flag _ PageFlags_Huge); [done|]. apply Hpub; [done|]. unfold owner.
    destruct (Z.eqb_spec l 4) as [->|]; cbn; [|apply Hsp; lia].
    destruct (vi_root s T Hi t sp pre Ht) as (-> & _). destruct (Z.leb_spec 256 i); [done|]. intros ->. apply Hor. lia.
  - intros f sp l pre [Hf Hp]%without_Some Hl. destruct (vi_parent s T Hi f sp l pre Hf Hl) as (t & Ht & Hrest).
    assert (Hsp : sp <> r).
    { intros ->. unfold private in Hp. cbn in Hp. rewrite Z.eqb_refl in Hp. cbn in Hp. lia. }
    exists t. split; [by apply Hpub|]. cbv zeta in Hrest |- *. pose proof (Hpub _ _ _ _ Ht Hsp) as [_ Hpt]%without_Some.
    rewrite (fin_entry t _ _ Ht Hpt); [by rewrite Hkt|apply Z.mod_pos_bound; lia|left]. intros ->.
    rewrite (proj1 (Hroot r Hlive)) in Ht. injection Ht as E _ _. congruence.
  - intros f sp pre [Hf _]%without_Some. rewrite fin_live. by apply (vi_root s T Hi).
  - intros x Hx. apply without_Some. apply Hroot. by apply fin_live.
  - rewrite Hk. apply fin_live, (vi_kernel s T Hi).
  - intros x i Hx Hx2. apply fin_live in Hx. rewrite Hk. destruct (Hroot x Hx) as [P1 P2].
    destruct (Hroot _ (vi_kernel s T Hi)) as [P3 P4].
    rewrite (fin_entry x _ i P1 P2), (fin_entry _ _ i P3 P4) by lia. by apply (vi_upper s T Hi).
Qed.

Lemma fin_destroyed : destroyed s T s2 r.
Proof.
  split.
  - exact fin_inv.
  - intros b. change (frames s2) with (frames s1). rewrite (hd_owned _ _ H). split.
    + intros [Ho Hn]. split; [done|]. intros p Hp. destruct (private r p) eqn:E; [|done]. exfalso. apply Hn.
      destruct (private_sub b p Hp E) as (i & Hx & Hb). by exists i.
    + intros [Ho Hn]. split; [done|]. intros (i & _ & Hb). destruct (sub_private i b Hb) as (p & Hp & E).
      rewrite (Hn p Hp) in E. done.
  - unfold s2. cbn. by rewrite (hd_rest _ _ H).
  - exact fin_kernel.
  - intros r' a Hr'. pose proof (index_of_range a 4 ltac:(lia)) as Hx. destruct (Z.eqb_spec (own s r' a) r) as [E|E].
    + unfold own in E. destruct (Z.leb_spec 256 (index_of a 4)); [congruence|]. subst r'.
      unfold leaf. rewrite walk_from_SS. change (Z.of_nat 4) with 4. cbv zeta.
      pose proof (hd_gone _ _ H (index_of a 4) ltac:(lia)) as Hg.
      change (entry_of s2 r (index_of a 4)) with (entry_of s1 r (index_of a 4)). unfold present in Hg. by rewrite Hg.
    + apply (leaf_ext s s2 T r' a Hi Hr'). intros l t Hl Ht. left.
      assert (Hp : private r (path_place s r' a l) = false).
      { unfold private, path_place. cbn. destruct (Z.eqb_spec l 4) as [->|]; [apply andb_false_r|].
        by rewrite (proj2 (Z.eqb_neq _ _) E). }
      eapply fin_entry; [done|done|apply index_of_range; lia|]. destruct (decide (t = r)) as [->|]; [right|by left].
      rewrite (vi_spaces s T Hi r Hlive) in Ht. injection Ht as E1 E2 _. subst l. cbn in E1. subst r'.
      unfold own in E. destruct (Z.leb_spec 256 (index_of a 4)); [done|congruence].
  - intros f i Hn Hf Hx. apply (hd_keep _ _ H); [done|done|by left].
Qed.
End Final.

Lemma destroy_user_mappings_at : exists s', destroy_user_mappings r s = (Ok tt, s') /\ destroyed s T s' r.
Proof.
  assert (Hl : match mfor 256 0 1 (fun pml4_index =>
    let! s := mget in
    let pml4_entry := entry_of s r pml4_index in
    if negb (present pml4_entry) then mok tt
    else destroy_pdpt (table_at pml4_entry) ;! free_frame (Z.land pml4_entry ADDRESS_MASK) ;!
         mmod (set_entry r pml4_index 0)) s with
    | (Ok _, s1) => half_destroyed 256 s1
    | (_, _) => False
    end).
  { apply (mfor_ind half_destroyed (fun _ _ => False)).
    - split; [by destruct s|exact (vi_frames s T Hi)| |done|intros; lia].
      intros b. split; [|tauto]. intros Hb. split; [done|]. intros (i & Hx & _). lia.
    - intros k s1 Hk H. destruct (destroy_step k s1 H Hk) as (s2 & E & H2). by rewrite E. }
  unfold destroy_user_mappings. unfold mtry at 1.
  match type of Hl with let (_, _) := ?x in _ => destruct x as [[[]|e|] s1] end; [|done|done].
  eexists. split; [done|]. by apply fin_destroyed.
Qed.
End DestroySpace.

(** ** Forgetting a space *)

Lemma place_live s T f p : vm_inv s T -> T !! f = Some p -> live s (p_space p).
Proof.
  intros Hi. assert (H : forall n f p, T !! f = Some p -> p_level p = 4 - Z.of_nat n -> live s (p_space p)).
  { intros n. induction n as [|n IH]; intros g [sp l pre] Hg Hl; cbn in *.
    - assert (l = 4) as -> by lia. destruct (vi_root s T Hi g sp pre Hg) as (-> & _ & ?). done.
    - destruct (vi_parent s T Hi g sp l pre Hg ltac:(lia)) as (t & Ht & _). by apply (IH t _ Ht); cbn; lia. }
  intros Hf. pose proof (vi_level s T Hi f p Hf). apply (H (Z.to_nat (4 - p_level p)) f p Hf). lia.
Qed.

(** A space with nothing left of its own can go; its root frame stays allocated. *)
Lemma forget_space s T r : vm_inv s T -> live s r -> r <> s_kernel_space s ->
  (forall f p, T !! f = Some p -> private r p = false) ->
  vm_inv (with_spaces (delete r (spaces s)) s) (delete r T).
Proof.
  intros Hi Hl Hk Hp. pose proof (vi_spaces s T Hi r Hl) as Hroot.
  assert (Hlive : forall x, live (with_spaces (delete r (spaces s)) s) x <-> x <> r /\ live s x).
  { intros x. unfold live. cbn. destruct (decide (x = r)) as [->|]; [rewrite lookup_delete_eq|rewrite lookup_delete_ne by done].
    - split; [by intros []|naive_solver].
    - naive_solver. }
  assert (Hlow : forall f sp l pre, T !! f = Some (mkPlace sp l pre) -> l <= 3 -> delete r T !! f = Some (mkPlace sp l pre)).
  { intros f sp l pre Hf Hle. rewrite lookup_delete_ne; [done|]. intros <-. rewrite Hroot in Hf. injection Hf as _ E _. lia. }
  split; [exact (vi_frames s T Hi)|..].
  - intros f p Hf. apply lookup_delete_Some in Hf as [_ Hf]. exact (vi_owned s T Hi f p Hf).
  - intros f p Hf. apply lookup_delete_Some in Hf as [_ Hf]. exact (vi_level s T Hi f p Hf).
  - intros t sp l pre i Ht Hl1 Hx Hpr. apply lookup_delete_Some in Ht as [_ Ht].
    pose proof (vi_child s T Hi t sp l pre i Ht Hl1 Hx Hpr) as Hc. pose proof (vi_level s T Hi t _ Ht) as Hle. cbn in Hle.
    revert Hc. unfold child_ok. destruct (Z.eqb_spec l 1); [|destruct (has_flag (entry_of s t i) PageFlags_Huge) eqn:E].
    + intros Hc Htr. apply Hlow; [by apply Hc|lia].
    + intros Hc. unfold entry_of in *. cbn. rewrite E. exact Hc.
    + intros Hc. unfold entry_of in *. cbn. rewrite E. apply Hlow; [exact Hc|lia].
  - intros f sp l pre Hf Hl4. apply lookup_delete_Some in Hf as [_ Hf].
    destruct (vi_parent s T Hi f sp l pre Hf Hl4) as (t & Ht & He). exists t. split; [|exact He].
    rewrite lookup_delete_ne; [done|]. intros <-. rewrite Hroot in Ht. injection Ht as <- _ _.
    specialize (Hp f _ Hf). unfold private in Hp. cbn in Hp. lia.
  - intros f sp pre Hf. apply lookup_delete_Some in Hf as [Hne Hf]. rewrite Hlive.
    destruct (vi_root s T Hi f sp pre Hf) as (? & ? & ?). naive_solver.
  - intros x Hx. apply Hlive in Hx as [Hne Hx]. rewrite lookup_delete_ne by done. exact (vi_spaces s T Hi x Hx).
  - apply Hlive. split; [done|exact (vi_kernel s T Hi)].
  - intros x i Hx. apply Hlive in Hx as [_ Hx]. exact (vi_upper s T Hi x i Hx).
Qed.

End Life.
