(* ===== verification/Clone.v ===== *)
(** * fork's copy of an address space

    [clone_user_space] of kernel/mm/address_space.cpp: the copy maps the same pages
    with the same flags and the same contents in frames of its own, apart from the
    foreign ones, which it shares; the original does not change. *)

From S2P Require Import Prelude Kstd Physical AddressSpace PageTables Spaces.

Section Clone.
Context {F : Type} {FA : FrameAllocator F}.
Implicit Types (s : Vm F) (T : gmap Z Place).
Context (s : Vm F) (T : gmap Z Place) (r c : Z).
Context (Hi : vm_inv s T) (Hr : live s r) (Hc : ~ fa_owned (frames s) c).

Lemma copy_unplaced : T !! c = None.
Proof. destruct (T !! c) as [p|] eqn:E; [|done]. destruct (Hc (vi_owned s T Hi c p E)). Qed.

Lemma copy_not_kernel : c <> s_kernel_space s.
Proof. intros E. pose proof (vi_spaces s T Hi _ (vi_kernel s T Hi)) as H. rewrite <- E, copy_unplaced in H. done. Qed.

Lemma copy_not_live x : live s x -> x <> c.
Proof. intros Hx E. pose proof (vi_spaces s T Hi _ Hx) as H. rewrite E, copy_unplaced in H. done. Qed.

(** The copy [c] is under way: everything of the original state is as it was. *)
Record copying s1 T1 : Prop := {
  cp_inv : vm_inv s1 T1;
  cp_kernel : s_kernel_space s1 = s_kernel_space s;
  cp_spaces : exists n, spaces s1 = <[c := n]> (spaces s);
  cp_places : T ⊆ T1;
  cp_new : forall b p, T1 !! b = Some p -> T !! b = Some p \/ p_space p = c /\ ~ fa_owned (frames s) b;
  cp_owned : forall b, fa_owned (frames s1) b <-> fa_owned (frames s) b \/ is_Some (T1 !! b);
  cp_same : forall t p i, T !! t = Some p -> p_space p <> c -> 0 <= i < 512 -> entry_of s1 t i = entry_of s t i;
  cp_old : forall r' a, live s r' -> leaf s1 r' a = leaf s r' a;
}.

Lemma cp_live s1 T1 x : copying s1 T1 -> live s1 x <-> x = c \/ live s x.
Proof.
  intros H. destruct (cp_spaces _ _ H) as [n Hn]. unfold live. rewrite Hn.
  destruct (decide (x = c)) as [->|Hx]; [rewrite lookup_insert_eq|rewrite lookup_insert_ne by done]; naive_solver.
Qed.

Lemma copying_start s1 : new_space s T s1 c -> copying s1 (<[c := mkPlace c 4 0]> T).
Proof.
  intros H. pose proof copy_unplaced as Hn. split.
  - apply H.
  - apply H.
  - exists 0. apply H.
  - by apply insert_subseteq.
  - intros b p Hb. apply lookup_insert_Some in Hb as [[<- <-]|[_ Hb]]; [right; by split|by left].
  - intros b. rewrite (ns_owned _ _ _ _ H). destruct (decide (b = c)) as [->|Hb].
    + rewrite lookup_insert_eq. naive_solver.
    + rewrite lookup_insert_ne by done. split; [naive_solver|]. intros [?|[p Hp]]; [by right|right].
      exact (vi_owned s T Hi b p Hp).
  - intros t p i Ht Hp Hx. apply (ns_data _ _ _ _ H); [congruence|exact (place_frame s T t p Hi Ht)|done].
  - apply H.
Qed.

(** Between two pages: a frame may have been taken and filled. *)
Record ready s1 T1 s2 : Prop := {
  rd_inv : vm_inv s2 T1;
  rd_kernel : s_kernel_space s2 = s_kernel_space s;
  rd_spaces : spaces s2 = spaces s1;
  rd_leaf : forall x a, live s1 x -> leaf s2 x a = leaf s1 x a;
  rd_data : forall f i, fa_owned (frames s1) f -> frame_ok f -> 0 <= i < 512 -> entry_of s2 f i = entry_of s1 f i;
}.

Lemma ready_same s1 T1 : copying s1 T1 -> ready s1 T1 s1.
Proof. intros H. by split; try apply H. Qed.

Lemma ready_took s1 T1 s2 f : copying s1 T1 -> took_frame s1 T1 s2 f -> ready s1 T1 s2.
Proof.
  intros H Htf. split; try (rewrite (tf_rest _ _ _ _ Htf); by apply H); [apply Htf| |apply Htf|].
  - by rewrite (tf_rest _ _ _ _ Htf).
  - intros g i Hg Hok Hx. apply Htf; [|done..]. intros ->. by apply (tf_new _ _ _ _ Htf).
Qed.

Lemma own_user s1 x a : index_of a 4 < 256 -> own s1 x a = x.
Proof. intros Ha. unfold own. by rewrite (proj2 (Z.leb_gt 256 _) Ha). Qed.

Lemma own_copy s1 a : s_kernel_space s1 = s_kernel_space s -> index_of a 4 < 256 -> own s1 c a = c.
Proof. intros _. apply own_user. Qed.

Lemma other_page s1 a r' a' : s_kernel_space s1 = s_kernel_space s -> index_of a 4 < 256 -> live s r' ->
  same_page s1 c a r' a' = false.
Proof.
  intros Hk Ha Hr'. apply bool_decide_eq_false. rewrite (own_copy s1 a Hk Ha). intros [E _]. revert E.
  unfold own. rewrite Hk. destruct (256 <=? _); [apply copy_not_kernel|]. intros E. by apply (copy_not_live r').
Qed.

(** A page mapped into the copy, in a frame of its own or in a foreign one. *)
Lemma copying_mapped s1 T1 s2 s3 T3 a e : copying s1 T1 -> ready s1 T1 s2 -> index_of a 4 < 256 ->
  (forall b, fa_owned (frames s2) b <-> fa_owned (frames s1) b \/ b = table_at e /\ tracked s2 c e = true) ->
  (tracked s2 c e = true -> ~ fa_owned (frames s) (table_at e)) ->
  mapped s2 T1 s3 T3 c a e -> copying s3 T3.
Proof.
  intros H R Ha Hown Hnew Hm. pose proof (own_copy s2 a (rd_kernel _ _ _ R) Ha) as Ho. split.
  - apply Hm.
  - rewrite (mp_rest _ _ _ _ _ _ _ Hm). apply R.
  - destruct (cp_spaces _ _ H) as [n Hn]. rewrite (mp_rest _ _ _ _ _ _ _ Hm). cbn. rewrite (rd_spaces _ _ _ R), Hn.
    exists (u64 (n + 1)). by rewrite alter_insert_eq.
  - etransitivity; [apply H|apply Hm].
  - intros b p Hb. destruct (mp_new _ _ _ _ _ _ _ Hm b p Hb) as [Hb1|[(Hno & _ & Hs)|(-> & Htr & ->)]].
    + by apply (cp_new _ _ H).
    + right. rewrite Ho in Hs. split; [done|]. intros Hob. apply Hno, Hown. left. apply (cp_owned _ _ H). by left.
    + right. split; [cbn; by rewrite Ho|]. apply Hnew. by rewrite <- Ho.
  - intros b. rewrite (mp_owned _ _ _ _ _ _ _ Hm), Hown, (cp_owned _ _ H). split.
    + intros [[[?|[p Hp]]|(-> & Htr)]|?]; [by left| | |by right].
      * right. exists p. eapply lookup_weaken; [done|apply Hm].
      * right. exists (path_place s2 c a 0). apply (mp_placed _ _ _ _ _ _ _ Hm). by rewrite Ho.
    + intros [?|?]; [|by right]. left. left. by left.
  - intros t p i Ht Hp Hx. pose proof (lookup_weaken _ _ _ _ Ht (cp_places _ _ H)) as Ht1.
    rewrite (mp_other _ _ _ _ _ _ _ Hm t p i); [|done|by rewrite Ho|done].
    rewrite (rd_data _ _ _ R); [by apply (cp_same _ _ H t p)| |exact (place_frame s T t p Hi Ht)|done].
    exact (vi_owned _ _ (cp_inv _ _ H) t p Ht1).
  - intros r' a' Hr'. assert (Hl : live s1 r') by (apply (cp_live _ _ _ H); by right).
    rewrite (mp_leaf _ _ _ _ _ _ _ Hm) by (unfold live; by rewrite (rd_spaces _ _ _ R)).
    rewrite (other_page s2 a r' a' (rd_kernel _ _ _ R) Ha Hr'), (rd_leaf _ _ _ R) by done. by apply (cp_old _ _ H).
Qed.

(** ** The pages copied so far *)

Definition page_flags (e : Z) : Z := Z.land e (u64 (Z.lnot ADDRESS_MASK)).

(** [f] backs the copy of the page that [e] maps at [a]. *)
Definition copy_of s1 T1 (a e f : Z) : Prop :=
  if has_flag e PageFlags_Foreign then f = table_at e
  else T1 !! f = Some (mkPlace c 0 (vpn a)) /\ ~ fa_owned (frames s) f /\ table_at f = f
    /\ forall i, 0 <= i < 512 -> entry_of s1 f i = entry_of s (table_at e) i.

(** Every user page below page number [v] has been copied, none from [v] on. *)
Record cloned (v : Z) s1 T1 : Prop := {
  cl_base : copying s1 T1;
  cl_none : forall a, index_of a 4 < 256 -> v <= vpn a \/ leaf s r a = None -> leaf s1 c a = None;
  cl_page : forall a l e, index_of a 4 < 256 -> vpn a < v -> leaf s r a = Some (l, e) ->
    exists f, leaf s1 c a = Some (1, leaf_entry f (page_flags e)) /\ copy_of s1 T1 a e f;
}.

Lemma cloned_start s1 : new_space s T s1 c -> cloned 0 s1 (<[c := mkPlace c 4 0]> T).
Proof.
  intros H. split; [by apply copying_start|intros; by apply (ns_user _ _ _ _ H)|].
  intros a l e _ Hv. unfold vpn, prefix in Hv. pose proof (Z.mod_pos_bound (a / 2 ^ (12 + 9 * 0)) (2 ^ (36 - 9 * 0))). lia.
Qed.

Lemma cloned_skip v v' s1 T1 : cloned v s1 T1 -> v <= v' ->
  (forall a, index_of a 4 < 256 -> v <= vpn a < v' -> leaf s r a = None) -> cloned v' s1 T1.
Proof.
  intros H Hv Hn. split; [apply H| |].
  - intros a Ha [Hva|?]; apply (cl_none _ _ _ H); auto with lia.
  - intros a l e Ha Hva He. destruct (Z.lt_ge_cases (vpn a) v) as [?|?]; [by apply (cl_page _ _ _ H a l e)|].
    rewrite Hn in He by (done || lia). done.
Qed.

(** The page numbered [v] has been mapped into the copy. *)
Lemma cloned_step v s1 T1 s2 s3 T3 a l e f : cloned v s1 T1 -> ready s1 T1 s2 -> index_of a 4 < 256 -> vpn a = v ->
  leaf s r a = Some (l, e) -> copying s3 T3 -> copy_of s3 T3 a e f ->
  mapped s2 T1 s3 T3 c a (leaf_entry f (page_flags e)) -> cloned (v + 1) s3 T3.
Proof.
  intros H R Ha Hv He C3 Hf Hm. pose proof (cl_base _ _ _ H) as C1. pose proof (rd_kernel _ _ _ R) as Hk.
  assert (Hlc : live s1 c) by (apply (cp_live _ _ _ C1); by left).
  assert (Hl : forall a', index_of a' 4 < 256 -> leaf s3 c a' = if bool_decide (vpn a' = v)
    then Some (1, leaf_entry f (page_flags e)) else leaf s1 c a').
  { intros a' Ha'. rewrite (mp_leaf _ _ _ _ _ _ _ Hm) by (unfold live; by rewrite (rd_spaces _ _ _ R)).
    rewrite (rd_leaf _ _ _ R) by done. unfold same_page. rewrite !own_copy by done.
    rewrite (bool_decide_ext (c = c /\ vpn a = vpn a') (vpn a' = v)) by naive_solver. done. }
  assert (Hsame : forall a', vpn a' = v -> leaf s r a' = Some (l, e)) by (intros a' Ha'; rewrite <- He; symmetry; apply leaf_same_vpn; congruence).
  split; [done| |].
  - intros a' Ha' Hor. rewrite Hl by done. rewrite bool_decide_eq_false_2.
    + apply (cl_none _ _ _ H); [done|]. destruct Hor; [left; lia|by right].
    + intros Hv'. destruct Hor as [?|Hn]; [lia|]. by rewrite Hsame in Hn.
  - intros a' l' e' Ha' Hv' He'. rewrite Hl by done. case_bool_decide as Hd.
    + rewrite Hsame in He' by done. injection He' as <- <-. exists f. split; [done|]. unfold copy_of. rewrite Hd, <- Hv. exact Hf.
    + destruct (cl_page _ _ _ H a' l' e' Ha' ltac:(lia) He') as (g & Hg & Hcg). exists g. split; [done|]. revert Hcg.
      unfold copy_of. destruct (has_flag e' PageFlags_Foreign); [done|]. intros (Hp & Hno & Hok & Hd').
      split; [eapply lookup_weaken; [done|apply Hm]|]. split; [done|]. split; [done|]. intros i Hx.
      pose proof (vi_owned _ _ (cp_inv _ _ C1) _ _ Hp) as Hog. pose proof (place_frame _ _ _ _ (cp_inv _ _ C1) Hp) as Hfg.
      rewrite (mp_data _ _ _ _ _ _ _ Hm), (rd_data _ _ _ R); [by apply Hd'|done..| | |done|done].
      * apply (vi_owned _ _ (rd_inv _ _ _ R) _ _ Hp).
      * intros (q & Hq & Hl'). rewrite Hp in Hq. injection Hq as <-. cbn in Hl'. lia.
Qed.

(** ** Giving up *)

(** What a failed copy leaves behind: only the frame of its root. *)
Record dropped s1 : Prop := {
  dr_inv : vm_inv s1 T;
  dr_spaces : spaces s1 = spaces s;
  dr_kernel : s_kernel_space s1 = s_kernel_space s;
  dr_owned : forall b, fa_owned (frames s1) b <-> b = c \/ fa_owned (frames s) b;
  dr_leaf : forall r' a, live s r' -> leaf s1 r' a = leaf s r' a;
}.

Lemma copying_grown s1 T1 s2 s3 T3 s4 : copying s1 T1 -> ready s1 T1 s2 -> grows c s2 T1 s3 T3 ->
  (forall b, fa_owned (frames s1) b -> fa_owned (frames s2) b) ->
  vm_inv s4 T3 -> s4 = with_frames (frames s4) s3 ->
  (forall b, fa_owned (frames s4) b <-> fa_owned (frames s1) b \/ is_Some (T3 !! b)) -> copying s4 T3.
Proof.
  intros H R G Hsub I4 Hrest Hown. assert (He : forall t i, entry_of s4 t i = entry_of s3 t i) by (intros; by rewrite Hrest).
  assert (Hl4 : forall x a, leaf s4 x a = leaf s3 x a) by (intros x a; by rewrite Hrest).
  split; [done|..].
  - rewrite Hrest. cbn. rewrite (grows_kernel _ _ _ _ G). apply R.
  - rewrite Hrest, (gr_rest _ _ _ _ G). cbn. rewrite (rd_spaces _ _ _ R). apply H.
  - etransitivity; [apply H|apply G].
  - intros b p Hb. destruct (gr_new _ _ _ _ G b (mk_is_Some _ _ Hb)) as [[q Hq]|Hno].
    + pose proof (lookup_weaken _ _ _ _ Hq (gr_places _ _ _ _ G)) as Hq'. rewrite Hb in Hq'. injection Hq' as <-.
      by apply (cp_new _ _ H).
    + right. split; [by apply (gr_level _ _ _ _ G b p)|]. intros Ho. apply Hno, Hsub, (cp_owned _ _ H). by left.
  - intros b. rewrite Hown, (cp_owned _ _ H). split; [|naive_solver]. intros [[?|[p Hp]]|?]; [by left|right|by right].
    exists p. eapply lookup_weaken; [done|apply G].
  - intros t p i Ht Hp Hx. pose proof (lookup_weaken _ _ _ _ Ht (cp_places _ _ H)) as Ht1.
    rewrite He, (gr_other _ _ _ _ G t p), (rd_data _ _ _ R); try done; [by apply (cp_same _ _ H t p)| |].
    + exact (vi_owned _ _ (cp_inv _ _ H) t p Ht1).
    + exact (place_frame s T t p Hi Ht).
  - intros r' a Hr'. assert (Hl : live s1 r') by (apply (cp_live _ _ _ H); by right).
    rewrite Hl4, (gr_leaf _ _ _ _ G), (rd_leaf _ _ _ R); [by apply (cp_old _ _ H)|done|].
    unfold live. by rewrite (rd_spaces _ _ _ R).
Qed.

Lemma place_not_copy f p : T !! f = Some p -> p_space p <> c.
Proof. intros Hf. apply copy_not_live. exact (place_live s T f p Hi Hf). Qed.

Lemma copying_left s1 T1 : copying s1 T1 -> delete c (without c T1) = T.
Proof.
  intros H. apply map_eq. intros b. destruct (decide (b = c)) as [->|Hb].
  - rewrite lookup_delete_eq. symmetry. apply copy_unplaced.
  - rewrite lookup_delete_ne by done. destruct (T !! b) as [p|] eqn:E.
    + apply without_Some. split; [exact (lookup_weaken _ _ _ _ E (cp_places _ _ H))|]. unfold private.
      pose proof (place_not_copy b p E). lia.
    + apply without_None. intros p Hp. destruct (cp_new _ _ H b p Hp) as [?|[Hs _]]; [congruence|]. unfold private.
      pose proof (vi_level _ _ (cp_inv _ _ H) b p Hp) as Hl. destruct (decide (p_level p = 4)) as [E4|]; [|lia]. exfalso.
      destruct p as [sp l pre]. cbn in *. subst. destruct (vi_root _ _ (cp_inv _ _ H) b _ _ Hp) as (? & _). congruence.
Qed.

Lemma drop_copying s1 T1 : copying s1 T1 -> exists s2, drop_copy c s1 = (Ok tt, s2) /\ dropped s2.
Proof.
  intros H. assert (Hlc : live s1 c) by (apply (cp_live _ _ _ H); by left).
  assert (Hk : c <> s_kernel_space s1) by (rewrite (cp_kernel _ _ H); apply copy_not_kernel).
  destruct (destroy_user_mappings_at s1 T1 c (cp_inv _ _ H) Hlc Hk) as (s2 & E & D).
  exists (with_spaces (delete c (spaces s2)) s2). split; [unfold drop_copy, mtry; by rewrite E|].
  assert (Hlive : forall x, live s2 x <-> live s1 x).
  { intros x. unfold live. rewrite (de_spaces _ _ _ _ D). destruct (decide (x = c)) as [->|].
    - rewrite lookup_alter_eq. destruct (spaces s1 !! c) eqn:?; naive_solver.
    - by rewrite lookup_alter_ne. }
  destruct (cp_spaces _ _ H) as [n Hn]. split.
  - rewrite <- (copying_left s1 T1 H). apply forget_space; [apply D|by apply Hlive|by rewrite (de_kernel _ _ _ _ D)|].
    intros f p Hf. by apply without_Some in Hf as [_ ?].
  - cbn. rewrite (de_spaces _ _ _ _ D), Hn, alter_insert_eq, delete_insert_eq. apply delete_id.
    destruct (spaces s !! c) as [m|] eqn:Em; [|done]. destruct (copy_not_live c); [|done]. by exists m.
  - cbn. rewrite (de_kernel _ _ _ _ D). apply H.
  - intros b. cbn. rewrite (de_owned _ _ _ _ D), (cp_owned _ _ H). split.
    + intros [[Ho|[p Hp]] Hpriv]; [by right|]. destruct (decide (b = c)) as [->|Hb]; [by left|right].
      assert (Hd : delete c (without c T1) !! b = Some p)
        by (rewrite lookup_delete_ne by done; apply without_Some; split; [done|by apply Hpriv]).
      rewrite (copying_left s1 T1 H) in Hd. exact (vi_owned s T Hi b p Hd).
    + intros [->|Ho].
      * pose proof (vi_spaces _ _ (cp_inv _ _ H) c Hlc) as Hp. split; [right; by eexists|]. intros p. rewrite Hp. intros [= <-]. apply andb_false_r.
      * split; [by left|]. intros p Hp. unfold private. destruct (cp_new _ _ H b p Hp) as [Hb|[_ ?]]; [|done].
        pose proof (place_not_copy b p Hb). lia.
  - intros r' a Hr'. assert (Hl1 : live s1 r') by (apply (cp_live _ _ _ H); by right).
    transitivity (leaf s2 r' a); [done|]. rewrite (de_leaf _ _ _ _ D) by done. rewrite (cp_old _ _ H) by done.
    unfold own. rewrite (cp_kernel _ _ H). pose proof copy_not_kernel. pose proof (copy_not_live r' Hr').
    destruct (256 <=? _); by rewrite (proj2 (Z.eqb_neq _ _)) by congruence.
Qed.

(** ** One page *)

Lemma page_flags_mask e : Z.land (page_flags e) ADDRESS_MASK = 0.
Proof. unfold page_flags. rewrite <- Z.land_assoc. apply Z.land_0_r. Qed.

Lemma page_flags_foreign e : has_flag (page_flags e) PageFlags_Foreign = has_flag e PageFlags_Foreign.
Proof. unfold has_flag, page_flags. by rewrite <- Z.land_assoc. Qed.

Lemma entry_foreign page e : has_flag (leaf_entry page (page_flags e)) PageFlags_Foreign = has_flag e PageFlags_Foreign.
Proof. rewrite <- (page_flags_foreign e). apply leaf_entry_facts, page_flags_mask. Qed.

Lemma tracked_copy s1 e : s_kernel_space s1 = s_kernel_space s -> tracked s1 c e = negb (has_flag e PageFlags_Foreign).
Proof. intros Hk. unfold tracked. rewrite Hk, (proj2 (Z.eqb_neq _ _) copy_not_kernel). done. Qed.

Definition page_cloned (v : Z) (x : Res unit * Vm F) : Prop :=
  match x with
  | (Ok _, s1) => exists T1, cloned v s1 T1
  | (Err code, s1) => code = ENOMEM /\ dropped s1
  | (Panic, _) => False
  end.

(** Mapping one page of the copy, given the frame. *)
Lemma copy_map v s1 T1 s2 a e l page : cloned v s1 T1 -> ready s1 T1 s2 ->
  is_u64 a -> index_of a 4 < 256 -> vpn a = v -> leaf s r a = Some (l, e) ->
  (if has_flag e PageFlags_Foreign then s2 = s1 /\ page = table_at e
   else took_frame s1 T1 s2 page /\ forall i, 0 <= i < 512 -> entry_of s2 page i = entry_of s (table_at e) i) ->
  match map c a page (page_flags e) s2 with
  | (Ok _, s3) => exists T3, cloned (v + 1) s3 T3
  | (Err code, s3) => code = ENOMEM /\ exists T3, vm_inv s3 T3 /\ grows c s2 T1 s3 T3
  | (Panic, _) => False
  end.
Proof.
  intros H R Ha Hu Hv He Hpage. pose proof (cl_base _ _ _ H) as C. pose proof (rd_kernel _ _ _ R) as Hk.
  pose proof (own_copy s2 a Hk Hu) as Ho.
  assert (Hlc : live s2 c) by (unfold live; rewrite (rd_spaces _ _ _ R); apply (cp_live _ _ _ C); by left).
  assert (Hnone : leaf s2 c a = None).
  { rewrite (rd_leaf _ _ _ R) by (apply (cp_live _ _ _ C); by left). apply (cl_none _ _ _ H); [done|left; lia]. }
  pose proof (map_spec_at s2 T1 c a page (page_flags e) (rd_inv _ _ _ R) Hlc Ha (page_flags_mask e)) as Hm.
  rewrite Ho, tracked_copy, page_flags_foreign in Hm by done. specialize (Hm ltac:(rewrite Hk; intros _; apply copy_not_kernel)).
  assert (Ht : forall x, tracked s2 c (leaf_entry x (page_flags e)) = negb (has_flag e PageFlags_Foreign))
    by (intros x; by rewrite tracked_copy, entry_foreign by done).
  pose proof (proj1 (proj2 (leaf_entry_facts page (page_flags e) (page_flags_mask e)))) as Hat.
  destruct (has_flag e PageFlags_Foreign) eqn:Ef; cbn [negb] in *.
  - destruct Hpage as [-> ->]. specialize (Hm ltac:(done)). destruct (map c a _ _ s1) as [[u|code|] s3]; [|naive_solver|done].
    destruct Hm as [T3 Hm]. exists T3. assert (C3 : copying s3 T3).
    { eapply (copying_mapped s1 T1 s1); [done|done|exact Hu| | |exact Hm]; rewrite Ht; [naive_solver|done]. }
    eapply (cloned_step v s1 T1 s1); [done|done|exact Hu|done|exact He|done| |exact Hm]. unfold copy_of. by rewrite Ef.
  - destruct Hpage as [Htf Hdata]. pose proof (tf_frame _ _ _ _ Htf) as Hok. pose proof (frame_masked page Hok) as Hmask.
    rewrite Hmask in Hat.
    assert (Hnew : ~ fa_owned (frames s) page) by (intros Ho'; apply (tf_new _ _ _ _ Htf), (cp_owned _ _ C); by left).
    specialize (Hm ltac:(intros _; split_and!; [done|apply (tf_owned _ _ _ _ Htf); by left|
                         exact (tf_unplaced _ _ _ _ (cp_inv _ _ C) Htf)])).
    destruct (map c a _ _ s2) as [[u|code|] s3]; [|naive_solver|done]. destruct Hm as [T3 Hm]. exists T3.
    assert (C3 : copying s3 T3).
    { eapply (copying_mapped s1 T1 s2); [done|done|exact Hu| | |exact Hm]; rewrite Ht, Hat; [|done].
      intros b. rewrite (tf_owned _ _ _ _ Htf). naive_solver. }
    eapply (cloned_step v s1 T1 s2); [done|done|exact Hu|done|exact He|done| |exact Hm]. unfold copy_of. rewrite Ef.
    split_and!; [|done|exact Hmask|].
    + pose proof (mp_placed _ _ _ _ _ _ _ Hm) as Hp. rewrite Ho, Ht, Hat, path_leaf_place, Ho in Hp. rewrite (Hp eq_refl).
      f_equal. f_equal. symmetry. apply (prefix_step a 1). lia.
    + intros i Hx. rewrite (mp_data _ _ _ _ _ _ _ Hm); [by apply Hdata| |intros (q & Hq & _)|done|done].
      * apply (tf_owned _ _ _ _ Htf). by left.
      * rewrite (tf_unplaced _ _ _ _ (cp_inv _ _ C) Htf) in Hq. done.
Qed.

Lemma abandon_copy s1 T1 code : copying s1 T1 -> code = ENOMEM -> forall v, page_cloned v ((drop_copy c ;! merr code) s1).
Proof. intros H -> v. destruct (drop_copying s1 T1 H) as (s2 & E & D). unfold mtry. by rewrite E. Qed.

Section Tables.
Context (Hrk : r <> s_kernel_space s).

(** A private page of the original stands on a frame of its own. *)
Lemma private_placed a e : index_of a 4 < 256 -> leaf s r a = Some (1, e) -> has_flag e PageFlags_Foreign = false ->
  T !! table_at e = Some (mkPlace r 0 (vpn a)).
Proof.
  intros Ha He Hf. pose proof (leaf_walk s T r a Hi Hr) as H. rewrite He in H.
  destruct (H eq_refl) as (pt & _ & Hpt & -> & Hp). unfold path_place in Hpt. cbn in Hpt.
  rewrite (own_user s r a Ha) in Hpt. pose proof (index_of_range a 1 ltac:(lia)) as Hx.
  pose proof (vi_child s T Hi _ _ _ _ _ Hpt ltac:(lia) Hx Hp) as Hc'. unfold child_ok in Hc'. cbn in Hc'.
  rewrite Hc'; [|unfold tracked; by rewrite Hf, (proj2 (Z.eqb_neq _ _) Hrk)].
  do 2 f_equal. symmetry. apply (prefix_step a 1). lia.
Qed.

Lemma took_copied s1 T1 s2 page from : vm_inv s1 T1 -> took_frame s1 T1 s2 page -> mem s2 = mem s1 -> frame_ok from ->
  took_frame s1 T1 (copy_page page from s2) page
  /\ forall i, 0 <= i < 512 -> entry_of (copy_page page from s2) page i = entry_of s1 from i.
Proof.
  intros I Htf Hm Hf. pose proof (tf_frame _ _ _ _ Htf) as Hok. split.
  - assert (E : copy_page page from s2 = with_mem (mem (copy_page page from s2)) (with_frames (frames s2) s1))
      by (unfold copy_page; rewrite (tf_rest _ _ _ _ Htf); done).
    rewrite E. apply took_frame_write; [done|exact (vi_frames _ _ (tf_inv _ _ _ _ Htf))|apply Htf|apply Htf|].
    intros g i Hg Hgo Hx. pose proof (entry_copy s2 page from g i Hok Hgo Hx) as Hc'. rewrite decide_False in Hc' by done.
    unfold entry_of in Hc'. by rewrite Hc', Hm.
  - intros i Hx. rewrite (entry_copy s2 page from page i Hok Hok Hx), decide_True by done. unfold entry_of. by rewrite Hm.
Qed.

Lemma clone_page_spec v s1 T1 a e : cloned v s1 T1 -> is_u64 a -> index_of a 4 < 256 -> vpn a = v ->
  leaf s r a = Some (1, e) -> page_cloned (v + 1) (clone_page c a e s1).
Proof.
  intros H Ha Hu Hv He. pose proof (cl_base _ _ _ H) as C. pose proof (cp_inv _ _ C) as I1.
  unfold clone_page. fold (page_flags e). change (Z.land e ADDRESS_MASK) with (table_at e).
  destruct (has_flag e PageFlags_Foreign) eqn:Ef.
  - pose proof (copy_map v s1 T1 s1 a e 1 (table_at e) H (ready_same _ _ C) Ha Hu Hv He) as Hm. rewrite Ef in Hm.
    specialize (Hm (conj eq_refl eq_refl)). unfold mtry at 1, mcatch. destruct (map c a _ _ s1) as [[u|code|] s3]; [done| |done].
    destruct Hm as (-> & T3 & I3 & G). apply (abandon_copy s3 T3); [|done].
    apply (copying_grown s1 T1 s1 s3 T3); try done; [by apply ready_same|by destruct s3|apply G].
  - unfold mtry at 1, mcatch. pose proof (allocate_frame_spec s1 T1 I1) as Hal.
    destruct (allocate_frame s1) as [[page|code|] s2]; [|destruct Hal as [-> ->]; by apply (abandon_copy s1 T1)|done].
    destruct Hal as [Htf Hmem]. pose proof (private_placed a e Hu He Ef) as Hpl.
    pose proof (place_frame s T _ _ Hi Hpl) as Hfr.
    destruct (took_copied s1 T1 s2 page (table_at e) I1 Htf Hmem Hfr) as [Htf3 Hdata].
    set (s3 := copy_page page (table_at e) s2) in *. pose proof (ready_took _ _ _ _ C Htf3) as R.
    unfold mtry at 1, mmod. fold s3. unfold mtry at 1.
    pose proof (copy_map v s1 T1 s3 a e 1 page H R Ha Hu Hv He) as Hm. rewrite Ef in Hm.
    specialize (Hm ltac:(split; [done|]; intros i Hx; rewrite Hdata by done;
      apply (cp_same _ _ C _ _ i Hpl); [exact (place_not_copy _ _ Hpl)|done])).
    clearbody s3. destruct (map c a page _ s3) as [[u|code|] s4]; [done| |done].
    destruct Hm as (-> & T3 & I4 & G).
    assert (Hn : T3 !! page = None).
    { destruct (T3 !! page) eqn:E; [|done]. destruct (gr_new _ _ _ _ G page ltac:(by eexists)) as [Hp|Hno].
      - rewrite (tf_unplaced _ _ _ _ I1 Htf) in Hp. by destruct Hp.
      - destruct Hno. apply (tf_owned _ _ _ _ Htf3). by left. }
    destruct (free_unplaced s4 T3 page I4) as (g & Eg & I5 & Hg); [|done|].
    { apply (gr_owned _ _ _ _ G). left. apply (tf_owned _ _ _ _ Htf3). by left. }
    unfold mtry at 1. rewrite Eg. apply (abandon_copy (with_frames g s4) T3); [|done].
    apply (copying_grown s1 T1 s3 s4 T3); try done.
    + intros b Hb. apply (tf_owned _ _ _ _ Htf3). by right.
    + intros b. cbn. rewrite Hg, (gr_owned _ _ _ _ G), (tf_owned _ _ _ _ Htf3).
      pose proof (tf_new _ _ _ _ Htf3) as Hnew. split; [naive_solver|]. intros Hb. split; [|naive_solver].
      intros ->. destruct Hb as [?|[p Hp]]; [done|congruence].
Qed.

(** ** The loops over the tables

    The page numbers below entry [i] of the table of level [l] and prefix [pre] are
    the [512 ^ (l - 1)] ones from [(pre * 512 + i) * 512 ^ (l - 1)]. *)

Lemma prefix_vpn a l : 0 <= l <= 4 -> prefix a l = vpn a / 512 ^ l.
Proof.
  intros Hl. unfold vpn. assert (E : l = 0 \/ l = 1 \/ l = 2 \/ l = 3 \/ l = 4) by lia.
  pose proof (prefix_div a 1 ltac:(lia)) as H1. pose proof (prefix_div a 2 ltac:(lia)) as H2.
  pose proof (prefix_div a 3 ltac:(lia)) as H3. pose proof (prefix_div a 4 ltac:(lia)) as H4.
  change (1 - 1) with 0 in *. change (2 - 1) with 1 in *. change (3 - 1) with 2 in *. change (4 - 1) with 3 in *.
  destruct E as [-> |[-> |[-> |[-> | ->]]]].
  - by rewrite Z.div_1_r.
  - symmetry. exact H1.
  - rewrite <- H2, <- H1, Z.div_div by lia. done.
  - rewrite <- H3, <- H2, <- H1, !Z.div_div by lia. done.
  - rewrite <- H4, <- H3, <- H2, <- H1, !Z.div_div by lia. done.
Qed.

Lemma leaf_absent t l pre i a : T !! t = Some (mkPlace r l pre) -> 1 <= l <= 4 -> 0 <= i < 512 -> index_of a 4 < 256 ->
  (pre * 512 + i) * 512 ^ (l - 1) <= vpn a < (pre * 512 + i + 1) * 512 ^ (l - 1) ->
  present (entry_of s t i) = false -> leaf s r a = None.
Proof.
  intros Ht Hl Hx Ha Hv He. pose proof (Z.pow_pos_nonneg 512 (l - 1) ltac:(lia) ltac:(lia)) as Hw.
  assert (Hp : prefix a (l - 1) = pre * 512 + i) by (rewrite prefix_vpn by lia; symmetry; apply (Z.div_unique_pos _ _ _ (vpn a - (pre * 512 + i) * 512 ^ (l - 1))); lia).
  pose proof (prefix_div a l ltac:(lia)) as Hd. pose proof (prefix_mod a l ltac:(lia)) as Hm. rewrite Hp in Hd, Hm.
  assert (E1 : prefix a l = pre) by (rewrite <- Hd; symmetry; apply (Z.div_unique_pos _ _ _ i); lia).
  assert (E2 : index_of a l = i) by (rewrite <- Hm; symmetry; apply (Z.mod_unique_pos _ _ pre); lia).
  assert (Hpl : T !! t = Some (path_place s r a (Z.of_nat (Z.to_nat l)))).
  { rewrite Ht, Z2Nat.id by lia. unfold path_place. rewrite own_user, E1 by done. by destruct (l =? 4). }
  unfold leaf. rewrite (place_reached s T r a (Z.to_nat l) t Hi Hr ltac:(lia) Hpl).
  destruct (Z.to_nat l) as [|[|n]] eqn:En; [lia| |].
  - assert (l = 1) as -> by lia. cbn [walk_from]. by rewrite E2, He.
  - rewrite walk_from_SS. assert (Z.of_nat (S (S n)) = l) as -> by lia. cbv zeta. rewrite E2. unfold present in He. by rewrite He.
Qed.

Lemma child_of t l pre i : T !! t = Some (mkPlace r l pre) -> 2 <= l <= 4 -> 0 <= i < 512 -> (l = 4 -> i < 256) ->
  present (entry_of s t i) = true ->
  has_flag (entry_of s t i) PageFlags_Huge = false
  /\ T !! table_at (entry_of s t i) = Some (mkPlace r (l - 1) (pre * 512 + i)).
Proof.
  intros Ht Hl Hx H4 Hp. pose proof (vi_child s T Hi t r l pre i Ht ltac:(lia) Hx Hp) as Hc'. unfold child_ok in Hc'.
  rewrite (proj2 (Z.eqb_neq l 1)) in Hc' by lia. destruct (has_flag _ _); [by destruct Hc'|]. split; [done|].
  rewrite Hc'. unfold owner. destruct (Z.eqb_spec l 4); [|done]. by rewrite (proj2 (Z.leb_gt 256 i)) by auto.
Qed.

Lemma clone_loop n (body : Z -> M (Vm F) unit) v w s1 : page_cloned v (Ok tt, s1) ->
  (forall i s2 T2, 0 <= i < Z.of_nat n -> cloned (v + i * w) s2 T2 -> page_cloned (v + (i + 1) * w) (body i s2)) ->
  page_cloned (v + Z.of_nat n * w) (mfor n 0 1 body s1).
Proof.
  intros H0 Hb.
  pose proof (mfor_ind (fun k s2 => page_cloned (v + Z.of_nat k * w) (Ok tt, s2))
    (fun x s2 => page_cloned 0 (x, s2) /\ x <> Ok tt) n 0 1 body s1) as H.
  cbv beta in H. specialize (H ltac:(by rewrite Z.mul_0_l, Z.add_0_r)).
  ospecialize (H _).
  { intros k s2 Hk (T2 & C2). specialize (Hb (Z.of_nat k) s2 T2 ltac:(lia) C2). rewrite Z.mul_1_r, Z.add_0_l.
    replace (Z.of_nat (S k)) with (Z.of_nat k + 1) by lia. by destruct (body _ s2) as [[[]|e|] s3]. }
  destruct (mfor n 0 1 body s1) as [[[]|e|] s3]; [done| |]; exact (proj1 H).
Qed.

(** The address the loops put together from the four indices. *)
Lemma lor_shift h k x : 0 <= k -> 0 <= x < 2 ^ k -> Z.lor (Z.shiftl h k) x = h * 2 ^ k + x.
Proof.
  intros Hk Hx. rewrite <- Z.shiftl_mul_pow2 by done.
  assert (E : Z.land (Z.shiftl h k) x = 0).
  { destruct (Z.eq_dec x 0) as [->|Hx0]; [apply Z.land_0_r|]. apply Z.bits_inj'. intros n Hn. rewrite Z.land_spec, Z.bits_0. destruct (Z.lt_ge_cases n k).
    - by rewrite Z.shiftl_spec_low.
    - rewrite (Z.bits_above_log2 x n), andb_false_r; [done|lia|].
      apply Z.log2_lt_pow2; [lia|]. pose proof (Z.pow_le_mono_r 2 k n ltac:(lia) ltac:(lia)). lia. }
  by rewrite <- Z.lxor_lor, <- Z.add_nocarry_lxor.
Qed.

Definition indices_address (p4 p3 p2 p1 : Z) : Z := (((p4 * 512 + p3) * 512 + p2) * 512 + p1) * 4096.

Lemma indices_lor p4 p3 p2 p1 : 0 <= p4 < 256 -> 0 <= p3 < 512 -> 0 <= p2 < 512 -> 0 <= p1 < 512 ->
  Z.lor (Z.lor (Z.lor (Z.shiftl p4 39) (Z.shiftl p3 30)) (Z.shiftl p2 21)) (Z.shiftl p1 12)
  = indices_address p4 p3 p2 p1.
Proof.
  intros H4 H3 H2 H1. rewrite <- !Z.lor_assoc.
  rewrite (lor_shift p2 21) by (lia || rewrite Z.shiftl_mul_pow2 by lia; lia).
  rewrite (lor_shift p3 30) by (lia || rewrite Z.shiftl_mul_pow2 by lia; lia).
  rewrite (lor_shift p4 39) by (lia || rewrite Z.shiftl_mul_pow2 by lia; lia).
  rewrite Z.shiftl_mul_pow2 by lia. unfold indices_address. lia.
Qed.

Lemma indices_facts p4 p3 p2 p1 : 0 <= p4 < 256 -> 0 <= p3 < 512 -> 0 <= p2 < 512 -> 0 <= p1 < 512 ->
  let a := indices_address p4 p3 p2 p1 in
  is_u64 a /\ index_of a 4 < 256 /\ vpn a = ((p4 * 512 + p3) * 512 + p2) * 512 + p1.
Proof.
  intros H4 H3 H2 H1 a. assert (Ha : 0 <= a < 2 ^ 47) by (unfold a, indices_address; lia).
  assert (Hv : vpn a = ((p4 * 512 + p3) * 512 + p2) * 512 + p1).
  { unfold vpn, prefix. change (2 ^ (12 + 9 * 0)) with 4096. unfold a, indices_address. rewrite Z.div_mul by done.
    apply Z.mod_small. change (2 ^ (36 - 9 * 0)) with 68719476736. lia. }
  split; [unfold is_u64; lia|]. split; [|done]. rewrite index_of_mod by lia. change (2 ^ (12 + 9 * (4 - 1))) with (2 ^ 39).
  zlia.
Qed.

Lemma clone_entry v s1 T1 t l pre i : cloned v s1 T1 -> T !! t = Some (mkPlace r l pre) -> 0 <= i < 512 ->
  entry_of s1 t i = entry_of s t i.
Proof. intros H Ht Hx. apply (cp_same _ _ (cl_base _ _ _ H) t _ i Ht); [exact (place_not_copy _ _ Ht)|done]. Qed.

Lemma clone_absent v v' s1 T1 t l pre i : cloned v s1 T1 -> T !! t = Some (mkPlace r l pre) -> 1 <= l <= 4 -> 0 <= i < 512 ->
  present (entry_of s t i) = false -> v = (pre * 512 + i) * 512 ^ (l - 1) -> v' = (pre * 512 + i + 1) * 512 ^ (l - 1) ->
  page_cloned v' (Ok tt, s1).
Proof.
  intros H Ht Hl Hx He -> ->. exists T1. apply (cloned_skip _ _ _ _ H).
  - pose proof (Z.pow_pos_nonneg 512 (l - 1) ltac:(lia) ltac:(lia)). nia.
  - intros a Ha Hv. by apply (leaf_absent t l pre i).
Qed.

Lemma clone_pt_spec s1 T1 t p4 p3 p2 : T !! t = Some (mkPlace r 1 ((p4 * 512 + p3) * 512 + p2)) ->
  0 <= p4 < 256 -> 0 <= p3 < 512 -> 0 <= p2 < 512 -> cloned (((p4 * 512 + p3) * 512 + p2) * 512) s1 T1 ->
  page_cloned (((p4 * 512 + p3) * 512 + p2 + 1) * 512) (clone_pt c t p4 p3 p2 s1).
Proof.
  intros Ht H4 H3 H2 H. set (pre := (p4 * 512 + p3) * 512 + p2) in *.
  replace ((pre + 1) * 512) with (pre * 512 + Z.of_nat 512 * 1) by lia. unfold clone_pt.
  apply clone_loop; [by exists T1|]. intros p1 s2 T2 H1 C2. unfold mtry at 1, mget.
  rewrite (clone_entry _ _ _ _ _ _ _ C2 Ht) by lia. destruct (present (entry_of s t p1)) eqn:Ep; cbn [negb].
  - rewrite indices_lor by lia. destruct (indices_facts p4 p3 p2 p1) as (Ha & Hu & Hv); [lia..|].
    replace (pre * 512 + (p1 + 1) * 1) with (pre * 512 + p1 * 1 + 1) by lia.
    apply (clone_page_spec _ s2 T2); [done|done|done|lia|].
    assert (E1 : index_of (indices_address p4 p3 p2 p1) 1 = p1).
    { rewrite <- prefix_mod by lia. change (prefix _ (1 - 1)) with (vpn (indices_address p4 p3 p2 p1)). rewrite Hv. zlia. }
    unfold leaf. rewrite (place_reached s T r _ 1 t Hi Hr ltac:(lia)).
    + cbn [walk_from]. by rewrite E1, Ep.
    + rewrite Ht. unfold path_place. cbn. rewrite own_user by done. do 2 f_equal.
      rewrite (prefix_vpn _ 1), Hv by lia. change (512 ^ 1) with 512. zlia.
  - apply (clone_absent _ _ s2 T2 t 1 pre p1 C2 Ht); [lia|lia|done|change (512 ^ (1 - 1)) with 1; lia..].
Qed.

Lemma clone_pd_spec s1 T1 t p4 p3 : T !! t = Some (mkPlace r 2 (p4 * 512 + p3)) ->
  0 <= p4 < 256 -> 0 <= p3 < 512 -> cloned ((p4 * 512 + p3) * 512 ^ 2) s1 T1 ->
  page_cloned ((p4 * 512 + p3 + 1) * 512 ^ 2) (clone_pd c t p4 p3 s1).
Proof.
  intros Ht H4 H3 H. set (pre := p4 * 512 + p3) in *.
  replace ((pre + 1) * 512 ^ 2) with (pre * 512 ^ 2 + Z.of_nat 512 * 512) by lia. unfold clone_pd.
  apply clone_loop; [by exists T1|]. intros p2 s2 T2 H2 C2. unfold mtry at 1, mget.
  rewrite (clone_entry _ _ _ _ _ _ _ C2 Ht) by lia. destruct (present (entry_of s t p2)) eqn:Ep; cbn [negb orb].
  - destruct (child_of t 2 pre p2 Ht) as [Hh Hch]; [lia..|done|]. rewrite Hh.
    replace (pre * 512 ^ 2 + (p2 + 1) * 512) with ((pre * 512 + p2 + 1) * 512) by lia.
    apply (clone_pt_spec s2 T2); [exact Hch|lia..|]. fold pre. by replace ((pre * 512 + p2) * 512) with (pre * 512 ^ 2 + p2 * 512) by lia.
  - apply (clone_absent _ _ s2 T2 t 2 pre p2 C2 Ht); [lia|lia|done|change (512 ^ (2 - 1)) with 512; lia..].
Qed.

Lemma clone_pdpt_spec s1 T1 t p4 : T !! t = Some (mkPlace r 3 p4) -> 0 <= p4 < 256 -> cloned (p4 * 512 ^ 3) s1 T1 ->
  page_cloned ((p4 + 1) * 512 ^ 3) (clone_pdpt c t p4 s1).
Proof.
  intros Ht H4 H. replace ((p4 + 1) * 512 ^ 3) with (p4 * 512 ^ 3 + Z.of_nat 512 * 512 ^ 2) by lia. unfold clone_pdpt.
  apply clone_loop; [by exists T1|]. intros p3 s2 T2 H3 C2. unfold mtry at 1, mget.
  rewrite (clone_entry _ _ _ _ _ _ _ C2 Ht) by lia. destruct (present (entry_of s t p3)) eqn:Ep; cbn [negb].
  - destruct (child_of t 3 p4 p3 Ht) as [_ Hch]; [lia..|done|].
    replace (p4 * 512 ^ 3 + (p3 + 1) * 512 ^ 2) with ((p4 * 512 + p3 + 1) * 512 ^ 2) by lia.
    apply (clone_pd_spec s2 T2); [exact Hch|lia..|]. by replace ((p4 * 512 + p3) * 512 ^ 2) with (p4 * 512 ^ 3 + p3 * 512 ^ 2) by lia.
  - apply (clone_absent _ _ s2 T2 t 3 p4 p3 C2 Ht); [lia|lia|done|change (512 ^ (3 - 1)) with (512 ^ 2); lia..].
Qed.

Lemma clone_pml4_spec s1 T1 : cloned 0 s1 T1 ->
  page_cloned (256 * 512 ^ 3) (mfor 256 0 1 (fun pml4_index =>
    let! s := mget in
    let pml4_entry := entry_of s r pml4_index in
    if negb (present pml4_entry) then mok tt
    else clone_pdpt c (Z.land pml4_entry ADDRESS_MASK) pml4_index) s1).
Proof.
  intros H. pose proof (vi_spaces s T Hi r Hr) as Ht.
  replace (256 * 512 ^ 3) with (0 + Z.of_nat 256 * 512 ^ 3) by lia.
  apply clone_loop; [by exists T1|]. intros p4 s2 T2 H4 C2. unfold mtry at 1, mget.
  rewrite (clone_entry _ _ _ _ _ _ _ C2 Ht) by lia. cbv zeta. destruct (present (entry_of s r p4)) eqn:Ep; cbn [negb].
  - destruct (child_of r 4 0 p4 Ht) as [_ Hch]; [lia..|done|]. apply (clone_pdpt_spec s2 T2); [exact Hch|lia|exact C2].
  - apply (clone_absent _ _ s2 T2 r 4 0 p4 C2 Ht); [lia|lia|done|change (512 ^ (4 - 1)) with (512 ^ 3); lia..].
Qed.
End Tables.
End Clone.

(** What a finished copy is. *)
Record cloned_space {F} {FA : FrameAllocator F} (s : Vm F) (T : gmap Z Place) (r c : Z) (s1 : Vm F) (T1 : gmap Z Place) : Prop := {
  cs_base : copying s T c s1 T1;
  cs_page : forall a, index_of a 4 < 256 ->
    match leaf s r a with
    | Some (_, e) => exists f, leaf s1 c a = Some (1, leaf_entry f (page_flags e)) /\ copy_of s c s1 T1 a e f
    | None => leaf s1 c a = None
    end;
}.

Lemma clone_user_space_at {F} {FA : FrameAllocator F} (s : Vm F) T r object : vm_inv s T -> live s r -> r <> s_kernel_space s ->
  match clone_user_space r object s with
  | (Ok c, s1) => ~ fa_owned (frames s) c /\ exists T1, cloned_space s T r c s1 T1
  | (Err code, s1) => code = ENOMEM /\ vm_inv s1 T /\ spaces s1 = spaces s
      /\ (forall r' a, live s r' -> leaf s1 r' a = leaf s r' a)
      /\ ((forall b, fa_owned (frames s1) b <-> fa_owned (frames s) b)
          \/ exists c, ~ fa_owned (frames s) c /\ forall b, fa_owned (frames s1) b <-> b = c \/ fa_owned (frames s) b)
  | (Panic, _) => False
  end.
Proof.
  intros Hi Hr Hk. unfold clone_user_space, mtry at 1. pose proof (create_user_space_at s T object Hi) as Hc.
  destruct (create_user_space object s) as [[c|code|] s1]; [|naive_solver|done].
  pose proof (ns_new _ _ _ _ Hc) as Hno. unfold mtry at 1.
  pose proof (clone_pml4_spec s T r c Hi Hr Hno Hk s1 _ (cloned_start s T r c Hi Hno s1 Hc)) as H.
  match type of H with page_cloned _ _ _ _ _ ?x => destruct x as [[u|code|] s2] end; [|cbn in H|done].
  - destruct H as [T2 H]. split; [done|]. exists T2. split; [apply H|]. intros a Ha.
    destruct (leaf s r a) as [[l e]|] eqn:E; [|by apply (cl_none _ _ _ _ _ _ _ H); [|right]].
    apply (cl_page _ _ _ _ _ _ _ H a l e Ha); [|done]. pose proof (prefix_vpn a 3 ltac:(lia)) as Hp.
    pose proof (prefix_step a 4 ltac:(lia)) as Hs. rewrite prefix_top in Hs. change (4 - 1) with 3 in Hs. rewrite Hp in Hs.
    change (512 ^ 3) with 134217728 in *. zlia.
  - destruct H as [-> D]. split_and!; [done|apply D..|]. right. exists c. split; [done|apply D].
Qed.
