(* ===== verification/AddressSpaces.v ===== *)
(** * What address spaces promise

    The properties of kernel/mm/address_space.cpp: the kernel's map after boot, how
    [map], [map_anonymous] and [validate_user_range] act, that tearing a space down
    gives back exactly its frames, and that fork's copy is a copy. *)

From S2P Require Import Prelude Kstd Physical AddressSpace PageTables Boot Spaces Clone.

(** ** A small machine *)

Definition big_map : list MemoryRegion :=
  [ mkRegion 0 0x9F000 Usable; mkRegion 0x9F000 0x61000 Reserved;
    mkRegion 0x100000 0x400000 Usable; mkRegion 0x100000 0x8000 KernelImage ].

Definition big_pmm : Pmm := Eval vm_compute in snd (physical_initialize big_map pmm_boot).

Definition big_image : ImageBounds :=
  mkImage 0xFFFFFFFF80100000 0xFFFFFFFF80103000 0xFFFFFFFF80103000 0xFFFFFFFF80105000 0xFFFFFFFF80105000 0xFFFFFFFF80108000.

Definition vm0 : Vm Pmm := mkVm Pmm big_pmm (fun a => a) ∅ 0 MMIO_WINDOW_BASE MODULE_WINDOW_BASE 0.

(** The first steps of [virtual_memory_initialize], without the direct map. *)
Definition kernel_only : M (Vm Pmm) unit :=
  let! root := or_panic allocate_zeroed_page in
  mmod (fun s => with_kernel_space root (with_spaces (<[root := 0]> (spaces s)) s)) ;!
  kernel_pdpts root.

Definition vm1 : Vm Pmm := snd (kernel_only vm0).
Definition vm2 : Vm Pmm := snd (create_user_space true vm1).
Definition user_root : Z := 0x16C000.
Definition user_flags : Z :=
  Z.lor (Z.lor PageFlags_Present PageFlags_User) (Z.lor PageFlags_Writable PageFlags_NoExecute).
Definition vm3 : Vm Pmm := snd (map_anonymous user_root 0x400000 0x2000 user_flags vm2).

Lemma big_sane : Forall sane_region big_map.
Proof. unfold big_map. repeat constructor; unfold sane_region, sane_range, PAGE_SIZE; cbn; lia. Qed.

Lemma vm0_ok : fa_ok (frames vm0).
Proof.
  split; [|vm_compute; congruence].
  apply (physical_initialize_spec big_map big_pmm big_sane). vm_compute. reflexivity.
Qed.

Lemma kernel_only_ok : fst (kernel_only vm0) = Ok tt.
Proof. vm_compute. reflexivity. Qed.

Lemma kernel_only_built s1 : kernel_only vm0 = (Ok tt, s1) -> exists T root, upper_built s1 T root 256.
Proof.
  unfold kernel_only, mtry at 1.
  pose proof (root_built vm0 vm0_ok eq_refl) as H0. destruct (or_panic allocate_zeroed_page vm0) as [[root|e|] s]; [|done|done].
  unfold mtry, mmod. pose proof (kernel_pdpts_built _ _ _ H0) as H1. destruct (kernel_pdpts root _) as [[u|e|] s2]; [|done|done].
  intros [= _ ->]. destruct H1 as [T1 H1]. by exists T1, root.
Qed.

Lemma vm1_inv : exists T, vm_inv vm1 T /\ forall a, leaf vm1 (s_kernel_space vm1) a = None.
Proof.
  destruct (kernel_only_built vm1) as (T & root & H).
  { unfold vm1. rewrite <- kernel_only_ok. by destruct (kernel_only vm0). }
  exists T. split; [exact (upper_inv _ _ _ H)|]. intros a. rewrite (ub_kernel _ _ _ _ H). exact (upper_empty _ _ _ a H).
Qed.

Lemma create_runs : fst (create_user_space true vm1) = Ok user_root.
Proof. vm_compute. reflexivity. Qed.

Definition user_space (s : Vm Pmm) (T : gmap Z Place) : Prop :=
  vm_inv s T /\ live s user_root /\ user_root <> s_kernel_space s
  /\ forall a l e, leaf s user_root a = Some (l, e) -> has_flag e PageFlags_Foreign = false.

Lemma vm2_user : exists T, user_space vm2 T /\ forall a, leaf vm2 user_root a = None.
Proof.
  destruct vm1_inv as (T1 & I1 & Hz). pose proof create_runs as Hok. unfold vm2. revert Hok.
  pose proof (create_user_space_at vm1 T1 true I1) as H.
  destruct (create_user_space true vm1) as [[root|e|] s]; [|done|done]. cbn [fst snd]. intros [= ->].
  assert (Hn : forall a, leaf s user_root a = None).
  { intros a. destruct (Z.lt_ge_cases (index_of a 4) 256); [by apply (ns_user _ _ _ _ H)|].
    rewrite (ns_shared _ _ _ _ H) by lia. apply Hz. }
  eexists. split; [|exact Hn]. split; [exact (ns_inv _ _ _ _ H)|]. split; [|split].
  - exists 0. rewrite (ns_spaces _ _ _ _ H). apply lookup_insert_eq.
  - rewrite (ns_kernel _ _ _ _ H). apply (copy_not_kernel vm1 T1 user_root I1 (ns_new _ _ _ _ H)).
  - intros a l e. by rewrite Hn.
Qed.

Lemma fill_ok : fst (map_anonymous user_root 0x400000 0x2000 user_flags vm2) = Ok tt.
Proof. vm_compute. reflexivity. Qed.

Lemma vm3_user : exists T, user_space vm3 T.
Proof.
  destruct vm2_user as (T & (I & L & K & _) & Hz). pose proof fill_ok as Hok. unfold vm3. revert Hok.
  pose proof (map_anonymous_at vm2 T user_root 0x400000 0x2000 user_flags I L ltac:(by vm_compute) eq_refl) as H.
  cbv zeta in H. assert (Hp : page_count (range_start 0x400000) (range_end 0x400000 0x2000) = 2%nat) by reflexivity.
  rewrite Hp in H. specialize (H ltac:(intros _ k Hk; destruct k as [|[|]]; [exact K|exact K|lia])).
  destruct (map_anonymous _ _ _ _ vm2) as [[u|e|] s]; [|done|done]. intros _. destruct H as [T' H].
  exists T'. split; [apply H|]. split; [by apply (fl_live _ _ _ _ _ _ _ _ H)|]. cbn [snd].
  rewrite (fl_kernel _ _ _ _ _ _ _ _ H). split; [done|]. intros a l e He.
  destruct (decide (covered vm2 user_root (range_start 0x400000) 2 user_root a)) as [Hc|Hc].
  - destruct (fl_fill _ _ _ _ _ _ _ _ H user_root a L (Hz a) Hc) as (f & Hf & _). rewrite He in Hf. injection Hf as -> ->.
    by destruct (leaf_entry_facts f user_flags eq_refl) as (_ & _ & ->).
  - rewrite (fl_keep _ _ _ _ _ _ _ _ H user_root a L (or_intror Hc)), Hz in He. done.
Qed.

(** ** The theorems *)

Section Theorems.
Context {F : Type} {FA : FrameAllocator F}.
Implicit Types (s : Vm F) (T : gmap Z Place).

Lemma translate_at s r a l e : leaf s r a = Some (l, e) -> 1 <= l ->
  translate s r a = Ok (table_at e + a mod 2 ^ (12 + 9 * (l - 1))).
Proof.
  intros Hl H1. rewrite translate_leaf, Hl. do 2 f_equal. rewrite Z.shiftl_mul_pow2, Z.mul_1_l by lia.
  rewrite Z.sub_1_r, <- Z.ones_equiv. apply Z.land_ones. lia.
Qed.

Lemma same_leaf_translate s s' r r' a : leaf s r a = leaf s' r' a -> translate s r a = translate s' r' a /\ query s r a = query s' r' a.
Proof. intros H. by rewrite !translate_leaf, !query_leaf, H. Qed.

(** C28: [virtual_memory_initialize] either stops the machine for want of memory or
    leaves page tables that satisfy the invariant and are active, in which every
    physical address below the size of the direct map is readable at its
    [phys_to_virt] address, every byte of the kernel image is where the linker put
    it, and no page at all is both writable and executable. *)
Theorem boot_address_space s regions image :
  fa_ok (frames s) -> spaces s = ∅ -> direct_map_size regions <= 2 ^ 46 -> Forall section_ok (sections image) ->
  match virtual_memory_initialize regions image s with
  | (Ok _, s') => let root := s_kernel_space s' in
      cr3 s' = root /\ live s' root /\ (exists T, vm_inv s' T)
      /\ (forall p, 0 <= p < direct_map_size regions -> translate s' root (phys_to_virt p) = Ok p)
      /\ Forall (fun x => forall a, x.1.1 <= a < x.1.2 -> translate s' root a = Ok (a - KERNEL_VMA)) (sections image)
      /\ (forall a flags, query s' root a = Ok flags -> never_writable_and_executable flags)
  | (r, _) => r = Panic
  end.
Proof.
  intros Hok Hsp Hsize Hsec. pose proof (boot_state s regions image Hok Hsp Hsize Hsec) as H.
  destruct (virtual_memory_initialize regions image s) as [[u|e|] s']; [|done|done].
  destruct H as (s1 & T1 & root & n & D & Hn & Hmul & A & M & Hcr). cbv zeta. rewrite (ba_kernel _ _ _ _ A).
  destruct (direct_only s1 T1 root n D Hn) as [Hdir Hnx].
  split; [done|]. split; [apply A|]. split; [apply A|]. split; [|split].
  - intros p Hp. rewrite Hmul in Hp. destruct (Hdir p Hp) as (e & He & Hat).
    assert (He' : leaf s' root (phys_to_virt p) = Some (2, e)) by (rewrite (ba_keep _ _ _ _ A); [exact He|by rewrite He]).
    rewrite (translate_at _ _ _ _ _ He') by lia. rewrite Hat. unfold phys_to_virt.
    destruct (hhdm_address p) as (-> & _); [unfold HUGE_PAGE_SIZE in *; lia|].
    f_equal. unfold HHDM_BASE. change (2 ^ (12 + 9 * (2 - 1))) with 2097152. unfold HUGE_PAGE_SIZE. zlia.
  - apply list.Forall_forall. intros [[start stop] f] Hx a Ha. rewrite list.Forall_forall in Hsec, M.
    destruct (M _ Hx a Ha) as (page & Hl & Hf & Heq). destruct (Hsec _ Hx) as (_ & _ & Hb & _).
    rewrite (translate_at _ _ _ _ _ Hl) by lia. rewrite <- Heq. f_equal. f_equal.
    destruct (leaf_entry_facts page f Hb) as (_ & -> & _). by apply frame_masked.
  - intros a flags. rewrite query_leaf. destruct (leaf s' root a) as [[l e]|] eqn:El; [|done]. intros [= <-].
    unfold never_writable_and_executable, PageFlags_Writable, PageFlags_NoExecute. rewrite !query_flag by (unfold flag_bit; lia).
    destruct (ba_new _ _ _ _ A a _ El) as [Hl|(page & f & [= -> ->] & Hf)]; [right; exact (Hnx a l e Hl)|].
    rewrite !leaf_entry_flag by (unfold flag_bit; lia). exact (sections_wx image f Hf).
Qed.


(** [map_anonymous] over a range of a user space fills every page that was not
    mapped with a zeroed frame nothing else uses and leaves every other page of
    every space, mapped pages of the range included, as it was. When memory runs
    out it fails with ENOMEM and takes down the pages before the failing one:
    those it mapped, but also those that were mapped before the call. *)
Theorem map_anonymous_correct s T r address length flags :
  vm_inv s T -> live s r -> is_u64 address -> Z.land flags ADDRESS_MASK = 0 ->
  let first := range_start address in
  let n := page_count first (range_end address length) in
  (has_flag flags PageFlags_User = true ->
     forall k, (k < n)%nat -> own s r (first + Z.of_nat k * PAGE_SIZE) <> s_kernel_space s) ->
  let '(res, s') := map_anonymous r address length flags s in
  exists T', vm_inv s' T' /\ (forall x, live s' x <-> live s x)
  /\ match res with
     | Ok _ => forall r' a', live s r' ->
         if decide (covered s r first n r' a' /\ is_mapped s r' a' = false) then
           exists f, translate s' r' a' = Ok (f + a' mod PAGE_SIZE)
             /\ ~ fa_owned (frames s) f /\ fa_owned (frames s') f
             /\ (forall p, T' !! f = Some p -> p = path_place s r' a' 0)
             /\ forall i, 0 <= i < 512 -> entry_of s' f i = 0
         else translate s' r' a' = translate s r' a' /\ query s' r' a' = query s r' a'
     | Err e => e = ENOMEM /\ exists k, (k < n)%nat /\
         forall r' a', live s r' ->
           if decide (covered s r first k r' a')
           then leaf s' r' a' = cleared (leaf s r' a')
           else translate s' r' a' = translate s r' a' /\ query s' r' a' = query s r' a'
     | Panic => False
     end.
Proof.
  intros Hi Hr Ha Hfl first n Hu. pose proof (map_anonymous_at s T r address length flags Hi Hr Ha Hfl Hu) as H.
  destruct (map_anonymous r address length flags s) as [[u|e|] s']; [| |done].
  - destruct H as [T' H]. exists T'. split; [apply H|]. split; [apply H|]. intros r' a' Hr'. case_decide as Hc.
    + destruct Hc as [Hc Hm]. rewrite is_mapped_leaf in Hm. apply bool_decide_eq_false in Hm.
      destruct (fl_fill _ _ _ _ _ _ _ _ H r' a' Hr') as (f & Hl & Hf & Hno & Ho & Hpl & Hz); [|done|].
      { destruct (leaf s r' a'); [destruct Hm; by eexists|done]. }
      exists f. split; [|done]. rewrite (translate_at _ _ _ _ _ Hl) by lia.
      destruct (leaf_entry_facts f flags Hfl) as (_ & -> & _). by rewrite frame_masked.
    + apply same_leaf_translate, (fl_keep _ _ _ _ _ _ _ _ H); [done|]. rewrite is_mapped_leaf in Hc.
      destruct (leaf s r' a') as [x|]; [by left|right]. intros Hcov. apply Hc. split; [done|].
      apply bool_decide_eq_false. by intros [].
  - destruct H as (-> & k & T' & Hk & _ & H). exists T'. split; [apply H|]. split; [apply H|]. split; [done|].
    exists k. split; [done|]. intros r' a' Hr'. pose proof (rb_leaf _ _ _ _ _ _ _ H r' a' Hr') as Hl.
    fold first in Hl. revert Hl. repeat case_decide; intros Hl; try done; by apply same_leaf_translate.
Qed.

(** A byte a process may pass to the kernel. *)
Definition user_byte s (r : Z) (for_write : bool) (b : Z) : Prop :=
  exists e, leaf s r b = Some (1, e) /\ has_flag e PageFlags_User = true
    /\ (for_write = true -> has_flag e PageFlags_Writable = true).

Lemma user_byte_page s r w b p : vpn b = vpn p -> user_byte s r w b <-> user_page_ok s r w p = true.
Proof.
  intros Hv. unfold user_byte. rewrite user_page_leaf, (leaf_same_vpn s r b p Hv). split.
  - intros (e & -> & -> & Hw). destruct w; [|done]. by rewrite Hw.
  - destruct (leaf s r p) as [[l e]|]; [|done]. destruct l as [|[?|?|]|?]; try done. intros H. exists e. split; [done|].
    apply andb_true_iff in H as [-> H]. split; [done|]. intros ->. by destruct (has_flag e PageFlags_Writable).
Qed.

Lemma validate_user_range_iff s r address length for_write :
  is_u64 address -> is_u64 length ->
  validate_user_range s r address length for_write = true <->
  address + length <= USER_SPACE_END
  /\ forall b, address <= b < address + length -> user_byte s r for_write b.
Proof.
  intros Ha Hl. unfold validate_user_range. unfold is_u64 in Ha, Hl.
  assert (Hu : u64 (address + length) = address + length \/ u64 (address + length) < address /\ 2 ^ 64 <= address + length).
  { unfold u64. destruct (Z.lt_ge_cases (address + length) (2 ^ 64)); [left; apply Z.mod_small; lia|right]. zlia. }
  assert (He : USER_SPACE_END < 2 ^ 64 - PAGE_SIZE) by (vm_compute; done).
  destruct Hu as [Hu|[Hu Hge]].
  2:{ rewrite (proj2 (Z.ltb_lt _ _) Hu). cbn [orb]. split; [done|]. unfold PAGE_SIZE in He. intros [? _]. lia. }
  rewrite Hu, (proj2 (Z.ltb_ge (address + length) address)) by lia. cbn [orb]. rewrite Z.gtb_ltb.
  destruct (Z.ltb_spec USER_SPACE_END (address + length)) as [Hgt|Hle]; [split; [done|lia]|].
  destruct (Z.eqb_spec length 0) as [->|Hnz]; [split; [intros _; split; [lia|intros; lia]|done]|].
  unfold page_count, range_start, range_end. rewrite Hu.
  rewrite align_down_page by (unfold is_u64; lia). rewrite align_up_page by (unfold PAGE_SIZE in *; lia).
  rewrite all_pages_spec. unfold PAGE_SIZE in *. split.
  - intros H. split; [lia|]. intros b Hb. apply (user_byte_page s r for_write b (address / 4096 * 4096 + (b / 4096 - address / 4096) * 4096)).
    + apply vpn_of_page; unfold PAGE_SIZE; zlia.
    + apply H. zlia.
  - intros [_ H] k Hk. set (p := address / 4096 * 4096 + k * 4096).
    rewrite <- (user_byte_page s r for_write (Z.max address p) p); [apply H; unfold p; zlia|].
    apply vpn_of_page; unfold PAGE_SIZE, p; zlia.
Qed.

(** C30: [validate_user_range] accepts a range exactly when it does not wrap, ends
    at or below [USER_SPACE_END] and each of its bytes is mapped for the user, for
    writing if asked. *)
Theorem validate_user_range_bounds s r address length for_write :
  is_u64 address -> is_u64 length ->
  validate_user_range s r address length for_write = true <->
  address + length <= USER_SPACE_END
  /\ forall b, address <= b < address + length -> user_byte s r for_write b.
Proof. apply validate_user_range_iff. Qed.


Lemma walk_huge_present s n t a l e : walk_from s n t a = HugeAt l e -> present e = true.
Proof.
  revert t. induction n as [|n IH]; intros t; [done|]. destruct n as [|n]; [done|]. rewrite walk_from_SS. cbv zeta.
  unfold present. destruct (has_flag (entry_of s t _) PageFlags_Present) eqn:Ep; [|done]. cbn [negb].
  destruct (has_flag _ PageFlags_Huge); [by intros [= _ <-]|apply IH].
Qed.

Lemma leaf_present s r a l e : leaf s r a = Some (l, e) -> present e = true.
Proof.
  unfold leaf. destruct (walk_from s 4 r a) eqn:Ew; [|intros [= <- <-]; by eapply walk_huge_present|done].
  destruct (present _) eqn:Ep; [by intros [= <- <-]|done].
Qed.

Lemma query_copy f e : present e = true ->
  Z.land (leaf_entry f (page_flags e)) (u64 (Z.lnot ADDRESS_MASK)) = page_flags e.
Proof.
  intros Hp. unfold leaf_entry. rewrite !Z.land_lor_distr_l.
  replace (Z.land (Z.land f ADDRESS_MASK) (u64 (Z.lnot ADDRESS_MASK))) with 0
    by (rewrite <- Z.land_assoc; symmetry; apply Z.land_0_r).
  rewrite Z.lor_0_l. unfold page_flags. rewrite <- Z.land_assoc, Z.land_diag.
  change (Z.land PageFlags_Present (u64 (Z.lnot ADDRESS_MASK))) with 1.
  apply Z.bits_inj'. intros i Hi. rewrite Z.lor_spec, Z.land_spec. destruct (decide (i = 0)) as [->|].
  - unfold present, PageFlags_Present in Hp. rewrite has_flag_bit in Hp by lia. by rewrite Hp.
  - rewrite (Z.bits_above_log2 1 i), orb_false_r by (cbn; lia). done.
Qed.

(** The copy [c] of the page that [e] maps at [a] in the original. *)
Definition page_copied s (T1 : gmap Z Place) s1 (r c a e : Z) : Prop :=
  query s1 c a = query s r a
  /\ if has_flag e PageFlags_Foreign then translate s1 c a = Ok (table_at e + a mod PAGE_SIZE)
     else exists f, translate s1 c a = Ok (f + a mod PAGE_SIZE)
       /\ T1 !! f = Some (mkPlace c 0 (vpn a)) /\ ~ fa_owned (frames s) f
       /\ forall i, 0 <= i < 512 -> entry_of s1 f i = entry_of s (table_at e) i.

Lemma copied_page s T r c s1 T1 a l e : cloned_space s T r c s1 T1 -> index_of a 4 < 256 ->
  leaf s r a = Some (l, e) -> page_copied s T1 s1 r c a e.
Proof.
  intros H Ha He. pose proof (cs_page _ _ _ _ _ _ H a Ha) as Hp. rewrite He in Hp. destruct Hp as (f & Hl & Hf).
  split.
  - rewrite !query_leaf, Hl, He, query_copy by by eapply leaf_present. done.
  - rewrite (translate_at _ _ _ _ _ Hl) by lia.
    destruct (leaf_entry_facts f (page_flags e) (page_flags_mask e)) as (_ & -> & _).
    unfold copy_of in Hf. destruct (has_flag e PageFlags_Foreign).
    + subst f. change (Z.land (table_at e) ADDRESS_MASK) with (table_at (table_at e)). unfold table_at at 1 2.
      by rewrite <- Z.land_assoc, Z.land_diag.
    + destruct Hf as (H1 & H2 & H3 & H4). exists f. split; [|done]. change (Z.land f ADDRESS_MASK) with (table_at f).
      by rewrite H3.
Qed.

(** C32: fork's copy of a user space maps every page of the original with the same
    flags, a foreign page to the same memory and every other page to a frame of its
    own with the same contents, maps nothing else in its user half and shares the
    kernel's half; no translation of any other space changes.  When memory runs
    out, everything but the frame of the copy's root is given back. *)
Theorem clone_is_a_copy s T r object :
  vm_inv s T -> live s r -> r <> s_kernel_space s ->
  let '(res, s1) := clone_user_space r object s in
  (forall r' a, live s r' -> translate s1 r' a = translate s r' a /\ query s1 r' a = query s r' a)
  /\ match res with
     | Ok c => exists T1, vm_inv s1 T1 /\ ~ live s c /\ (forall x, live s1 x <-> x = c \/ live s x)
         /\ (forall b, fa_owned (frames s1) b <-> fa_owned (frames s) b \/ is_Some (T1 !! b))
         /\ forall a, if 256 <=? index_of a 4
              then translate s1 c a = translate s r a /\ query s1 c a = query s r a
              else match leaf s r a with
                   | Some (_, e) => page_copied s T1 s1 r c a e
                   | None => translate s1 c a = Err EFAULT
                   end
     | Err e => e = ENOMEM /\ vm_inv s1 T /\ spaces s1 = spaces s
         /\ exists leaked, (length leaked <= 1)%nat
              /\ forall b, fa_owned (frames s1) b <-> b ∈ leaked \/ fa_owned (frames s) b
     | Panic => False
     end.
Proof.
  intros Hi Hr Hk. pose proof (clone_user_space_at s T r object Hi Hr Hk) as H.
  destruct (clone_user_space r object s) as [[c|e|] s1]; [| |done].
  - destruct H as (Hno & T1 & H). pose proof (cs_base _ _ _ _ _ _ H) as C. pose proof (cp_inv _ _ _ _ _ C) as I1.
    split; [intros r' a Hr'; by apply same_leaf_translate, (cp_old _ _ _ _ _ C)|].
    exists T1. split; [done|]. split; [intros Hc; by apply (copy_not_live s T c Hi Hno c)|].
    split; [intros x; exact (cp_live s T c s1 T1 x C)|]. split; [apply C|].
    intros a. destruct (Z.leb_spec 256 (index_of a 4)) as [Ha|Ha].
    + apply same_leaf_translate. rewrite <- (cp_old _ _ _ _ _ C r a Hr). apply (leaf_same_page s1 T1 r a c a I1).
      * apply (cp_live s T c s1 T1 r C). by right.
      * apply (cp_live s T c s1 T1 c C). by left.
      * unfold same_page, own. rewrite (proj2 (Z.leb_le 256 _) Ha). by apply bool_decide_eq_true.
    + destruct (leaf s r a) as [[l e]|] eqn:He; [by eapply copied_page|].
      pose proof (cs_page _ _ _ _ _ _ H a Ha) as Hp. rewrite He in Hp. by rewrite translate_leaf, Hp.
  - destruct H as (-> & I1 & Hs & Hl & Ho). split; [intros r' a Hr'; by apply same_leaf_translate, Hl|].
    split; [done|]. split; [done|]. split; [done|]. destruct Ho as [Ho|(c & _ & Ho)].
    + exists []. split; [cbn; lia|]. intros b. rewrite Ho. set_solver.
    + exists [c]. split; [cbn; lia|]. intros b. rewrite Ho. set_solver.
Qed.
End Theorems.

(** ** The theorems on the small machine *)

Lemma boot_runs : fst (virtual_memory_initialize big_map big_image vm0) = Ok tt.
Proof. vm_compute. reflexivity. Qed.

Lemma boot_address_space_witness : exists s',
  virtual_memory_initialize big_map big_image vm0 = (Ok tt, s')
  /\ translate s' (s_kernel_space s') (phys_to_virt 0xB8000) = Ok 0xB8000.
Proof.
  pose proof boot_runs as Hok. revert Hok.
  pose proof (boot_address_space vm0 big_map big_image vm0_ok eq_refl ltac:(clear; vm_compute; congruence)
    ltac:(repeat constructor; vm_compute; congruence)) as H.
  destruct (virtual_memory_initialize big_map big_image vm0) as [[[]|e|] s']; [|intros [=]|intros [=]]. intros _.
  exists s'. split; [reflexivity|]. destruct H as (_ & _ & _ & H & _). apply H. split; vm_compute; congruence.
Defined.

Definition shared_flags : Z := Z.lor user_flags PageFlags_Foreign.

Lemma map_runs : fst (map user_root 0x500010 0x9000 shared_flags vm3) = Ok tt.
Proof. vm_compute. reflexivity. Qed.


Lemma fill2_ok : fst (map_anonymous user_root 0x401000 0x2000 user_flags vm3) = Ok tt.
Proof. vm_compute. reflexivity. Qed.

Lemma map_anonymous_correct_witness : exists s' f,
  map_anonymous user_root 0x401000 0x2000 user_flags vm3 = (Ok tt, s')
  /\ translate s' user_root 0x402123 = Ok (f + 0x123) /\ ~ fa_owned (frames vm3) f
  /\ translate s' user_root 0x401123 = translate vm3 user_root 0x401123.
Proof.
  destruct vm3_user as (T & I & L & K & _). pose proof fill2_ok as Hok. revert Hok.
  pose proof (map_anonymous_correct vm3 T user_root 0x401000 0x2000 user_flags I L
    ltac:(clear; split; vm_compute; congruence) eq_refl
    ltac:(intros _ k Hk; change (page_count _ _) with 2%nat in Hk; destruct k as [|[|]]; [exact K|exact K|lia])) as H.
  destruct (map_anonymous user_root 0x401000 0x2000 user_flags vm3) as [[[]|e|] s']; [|intros [=]|intros [=]].
  intros _. destruct H as (T' & _ & _ & H). exists s'.
  pose proof (H user_root 0x402123 L) as H1. rewrite decide_True in H1.
  2:{ split; [|vm_compute; reflexivity]. exists 1. split; [vm_compute; split; congruence|].
      apply bool_decide_eq_true. split; reflexivity. }
  destruct H1 as (f & Hf & Hno & _). exists f. split; [reflexivity|]. split; [exact Hf|]. split; [exact Hno|].
  pose proof (H user_root 0x401123 L) as H2. rewrite decide_False in H2; [apply H2|].
  intros [_ Hm]. vm_compute in Hm. discriminate Hm.
Defined.

Lemma validate_user_range_bounds_witness :
  (forall b, 0x400FF8 <= b < 0x401008 -> user_byte vm3 user_root true b)
  /\ validate_user_range vm3 user_root 0x401FF8 16 false = false.
Proof.
  split; [|vm_compute; reflexivity].
  apply (validate_user_range_bounds vm3 user_root 0x400FF8 16 true); [split; vm_compute; congruence..|].
  vm_compute. reflexivity.
Defined.


Lemma clone_ok : fst (clone_user_space user_root true vm3) = Ok 0x172000.
Proof. vm_compute. reflexivity. Qed.

Lemma vm3_page : exists e, leaf vm3 user_root 0x401010 = Some (1, e) /\ has_flag e PageFlags_Foreign = false.
Proof. eexists. vm_compute. split; reflexivity. Qed.

Lemma clone_is_a_copy_witness : exists s1 f,
  clone_user_space user_root true vm3 = (Ok 0x172000, s1)
  /\ translate s1 0x172000 0x401010 = Ok (f + 0x10) /\ ~ fa_owned (frames vm3) f
  /\ translate s1 user_root 0x401010 = translate vm3 user_root 0x401010.
Proof.
  destruct vm3_user as (T & I & L & K & _). pose proof clone_ok as Hok. revert Hok.
  pose proof (clone_is_a_copy vm3 T user_root true I L K) as H.
  destruct (clone_user_space user_root true vm3) as [[c|e|] s1]; [|intros [=]|intros [=]]. intros [= ->].
  destruct H as (Hold & T1 & _ & _ & _ & _ & Hc). specialize (Hc 0x401010).
  change (256 <=? index_of 0x401010 4) with false in Hc. cbv iota in Hc.
  destruct vm3_page as (e & He & Hf). rewrite He in Hc. destruct Hc as [_ Hc]. rewrite Hf in Hc.
  destruct Hc as (f & H1 & _ & H2 & _). exists s1, f. split; [reflexivity|]. split; [exact H1|]. split; [exact H2|].
  exact (proj1 (Hold user_root 0x401010 L)).
Defined.
