(* ===== verification/UserMemory.v ===== *)
(** * The kernel's access to user memory

    [copy_from_user], [copy_to_user] and [copy_string_from_user] of
    kernel/sys/syscall.cpp.  A [memcpy] through the active page tables is a loop of
    byte accesses, each of which faults ([Panic]) where nothing is mapped. *)

From S2P Require Import Prelude Kstd Physical AddressSpace PageTables Spaces Clone AddressSpaces.

(** ** Bytes of words *)

Definition get_byte (w j : Z) : Z := (w / 2 ^ (8 * j)) mod 256.
Definition put_byte (w j b : Z) : Z := w + (b - get_byte w j) * 2 ^ (8 * j).

Lemma get_put_eq w j b : 0 <= j -> 0 <= b < 256 -> get_byte (put_byte w j b) j = b.
Proof.
  intros Hj Hb. unfold put_byte. set (d := b - get_byte w j). unfold get_byte.
  rewrite Z.div_add by (apply Z.pow_nonzero; lia). unfold d, get_byte. zlia.
Qed.

Lemma get_put_ne w j k b : 0 <= j -> 0 <= k -> j <> k -> 0 <= b < 256 -> get_byte (put_byte w j b) k = get_byte w k.
Proof.
  intros Hj Hk Hne Hb. pose proof (Z.pow_pos_nonneg 2 (8 * j) ltac:(lia) ltac:(lia)) as Hp.
  pose proof (Z.pow_pos_nonneg 2 (8 * k) ltac:(lia) ltac:(lia)) as Hq.
  unfold put_byte. destruct (Z.lt_ge_cases k j) as [Hlt|Hge].
  - assert (E : 2 ^ (8 * j) = 2 ^ (8 * (j - k - 1)) * 256 * 2 ^ (8 * k))
      by (change 256 with (2 ^ 8); rewrite <- !Z.pow_add_r by lia; f_equal; lia).
    rewrite E, Z.mul_assoc. unfold get_byte at 1. rewrite Z.div_add by lia.
    rewrite Z.mul_assoc. by rewrite Z.mod_add.
  - assert (E : 2 ^ (8 * k) = 2 ^ (8 * j) * (256 * 2 ^ (8 * (k - j - 1))))
      by (change 256 with (2 ^ 8); rewrite <- !Z.pow_add_r by lia; f_equal; lia).
    pose proof (Z.pow_pos_nonneg 2 (8 * (k - j - 1)) ltac:(lia) ltac:(lia)) as Hr.
    set (d := b - get_byte w j). unfold get_byte at 1 2. rewrite E, <- !Z.div_div by lia.
    rewrite Z.div_add by lia. do 2 f_equal. unfold d, get_byte. zlia.
Qed.

Section UserMemory.
Context {F : Type} {FA : FrameAllocator F}.
Implicit Types (s : Vm F) (T : gmap Z Place).

(** The byte at a physical address; memory is words at multiples of eight. *)
Definition byte_at s (p : Z) : Z := get_byte (mem s (p - p mod 8)) (p mod 8).
Definition set_byte (p b : Z) s : Vm F :=
  with_mem (fun a => if a =? p - p mod 8 then put_byte (mem s a) (p mod 8) b else mem s a) s.

(** One access of the kernel through the page tables of [root]. *)
Definition load (root address : Z) : M (Vm F) Z := fun s =>
  match translate s root address with
  | Ok p => (Ok (byte_at s p), s)
  | _ => (Panic, s)
  end.

Definition store (root address b : Z) : M (Vm F) unit := fun s =>
  match translate s root address with
  | Ok p => (Ok tt, set_byte p b s)
  | _ => (Panic, s)
  end.

Fixpoint load_bytes (root : Z) (n : nat) (address : Z) : M (Vm F) (list Z) :=
  match n with
  | O => mok []
  | S n' =>
      let! b := load root address in
      let! rest := load_bytes root n' (address + 1) in
      mok (b :: rest)
  end.

Fixpoint store_bytes (root address : Z) (bytes : list Z) : M (Vm F) unit :=
  match bytes with
  | [] => mok tt
  | b :: rest => store root address b ;! store_bytes root (address + 1) rest
  end.

(** [space] is the calling process's address space, if it has one. *)
Definition copy_from_user (space : option Z) (user_source length : Z) : M (Vm F) (list Z) :=
  if length =? 0 then mok []
  else
    match space with
    | None => merr EFAULT
    | Some root =>
        let! s := mget in
        if negb (validate_user_range s root user_source length false) then merr EFAULT
        else load_bytes root (Z.to_nat length) user_source
    end.

Definition copy_to_user (space : option Z) (user_destination : Z) (source : list Z) : M (Vm F) unit :=
  if zlen source =? 0 then mok tt
  else
    match space with
    | None => merr EFAULT
    | Some root =>
        let! s := mget in
        if negb (validate_user_range s root user_destination (zlen source) true) then merr EFAULT
        else store_bytes root user_destination source
    end.

(** The loop of [copy_string_from_user]; [n] is what is left of [capacity - 1], the
    result is what was copied before the terminator. *)
Fixpoint string_loop (root user_source : Z) (n : nat) (length : Z) : M (Vm F) (list Z) :=
  match n with
  | O => merr ENAMETOOLONG
  | S n' =>
      let address := u64 (user_source + length) in
      let! s := mget in
      if ((Z.land address (PAGE_SIZE - 1) =? 0) || (length =? 0))
         && negb (validate_user_range s root address (PAGE_SIZE - Z.land address (PAGE_SIZE - 1)) false)
      then merr EFAULT
      else
        let! c := load root address in
        if c =? 0 then mok []
        else
          let! rest := string_loop root user_source n' (length + 1) in
          mok (c :: rest)
  end.

Definition copy_string_from_user (space : option Z) (user_source capacity : Z) : M (Vm F) (list Z) :=
  if capacity =? 0 then merr EINVAL
  else
    match space with
    | None => merr EFAULT
    | Some root => string_loop root user_source (Z.to_nat (capacity - 1)) 0
    end.

(** ** Reading *)

Lemma user_byte_translate s r w b : user_byte s r w b ->
  exists e, leaf s r b = Some (1, e) /\ translate s r b = Ok (table_at e + b mod PAGE_SIZE).
Proof. intros (e & He & _). exists e. split; [done|]. by rewrite (translate_at _ _ _ _ _ He) by lia. Qed.

(** The bytes a process sees at an address. *)
Definition user_bytes s (r address : Z) (n : nat) : list Z :=
  (fun k => match translate s r (address + Z.of_nat k) with Ok p => byte_at s p | _ => 0 end) <$> seq 0 n.

Lemma user_bytes_S s r address n : user_bytes s r address (S n) =
  match translate s r address with Ok p => byte_at s p | _ => 0 end :: user_bytes s r (address + 1) n.
Proof.
  unfold user_bytes. cbn [seq fmap list_fmap]. rewrite Z.add_0_r. f_equal. rewrite <- seq_shift, <- list_fmap_compose.
  apply list_fmap_ext. intros k i _. cbn. by replace (address + Z.of_nat (S i)) with (address + 1 + Z.of_nat i) by lia.
Qed.

Lemma load_bytes_spec s r n address : (forall b, address <= b < address + Z.of_nat n -> user_byte s r false b) ->
  load_bytes r n address s = (Ok (user_bytes s r address n), s).
Proof.
  revert address. induction n as [|n IH]; intros address H; [done|]. cbn [load_bytes].
  destruct (user_byte_translate s r false address (H address ltac:(lia))) as (e & _ & Ht).
  unfold mtry at 1, load. rewrite Ht. unfold mtry. rewrite IH by (intros b Hb; apply H; lia).
  by rewrite user_bytes_S, Ht.
Qed.

(** ** Writing

    A foreign page is not one of the frames the page tables account for. *)
Definition foreign_apart s T (r : Z) : Prop := forall a e, leaf s r a = Some (1, e) ->
  has_flag e PageFlags_User = true -> has_flag e PageFlags_Foreign = true -> T !! table_at e = None.

(** A write to physical memory outside the tables changes no translation. *)
Lemma set_byte_inv s T f o b : vm_inv s T -> frame_ok f -> ~ is_table T f -> 0 <= o < PAGE_SIZE ->
  vm_inv (set_byte (f + o) b s) T /\ forall r a, live s r -> leaf (set_byte (f + o) b s) r a = leaf s r a.
Proof.
  intros Hi Hf Hn Ho. apply inv_equiv; [done|by destruct s|exact (vi_frames s T Hi)|exact (vi_owned s T Hi)|].
  intros t p i Ht Hl Hx. left. unfold entry_of, set_byte. cbn [mem with_mem].
  pose proof (place_frame s T t p Hi Ht) as Hft. rewrite (proj2 (Z.eqb_neq _ _)); [done|].
  intros E. apply Hn. exists p. split; [|done]. assert (f = t) as ->; [|done].
  destruct Hf as [_ Hf], Hft as [_ Hft]. unfold PAGE_SIZE in *. zlia.
Qed.

Lemma user_frame s T r w b : vm_inv s T -> live s r -> r <> s_kernel_space s -> foreign_apart s T r -> index_of b 4 < 256 ->
  user_byte s r w b -> exists e, leaf s r b = Some (1, e)
    /\ translate s r b = Ok (table_at e + b mod PAGE_SIZE) /\ frame_ok (table_at e) /\ ~ is_table T (table_at e).
Proof.
  intros Hi Hr Hk Hfo Hb Hu. destruct (user_byte_translate s r w b Hu) as (e & He & Ht). exists e. split_and!; [done|done|apply table_at_ok|].
  intros (p & Hp & Hl). destruct Hu as (e' & He' & Hus & _). rewrite He in He'. injection He' as <-.
  destruct (has_flag e PageFlags_Foreign) eqn:Ef.
  - by rewrite (Hfo b e He Hus Ef) in Hp.
  - rewrite (private_placed s T r Hi Hr Hk b e Hb He Ef) in Hp. injection Hp as <-. cbn in Hl. lia.
Qed.

Lemma byte_set_eq s p b : 0 <= b < 256 -> byte_at (set_byte p b s) p = b.
Proof.
  intros Hb. unfold byte_at, set_byte. cbn. rewrite Z.eqb_refl. apply get_put_eq; [|done]. zlia.
Qed.

Lemma byte_set_ne s p q b : 0 <= b < 256 -> p <> q -> byte_at (set_byte p b s) q = byte_at s q.
Proof.
  intros Hb Hne. unfold byte_at, set_byte. cbn. destruct (Z.eqb_spec (q - q mod 8) (p - p mod 8)) as [E|]; [|done].
  apply get_put_ne; [zlia..|done].
Qed.

(** What a copy to the user does: it keeps the tables and changes only bytes the
    process can write. *)
Record written s T (r address : Z) (bytes : list Z) s' : Prop := {
  wr_inv : vm_inv s' T;
  wr_rest : s' = with_mem (mem s') s;
  wr_leaf : forall r' a, live s r' -> leaf s' r' a = leaf s r' a;
  wr_bytes : forall p, byte_at s' p <> byte_at s p ->
    exists b, address <= b < address + zlen bytes /\ translate s r b = Ok p;
}.

Lemma store_bytes_spec T r bytes : Forall (fun b => 0 <= b < 256) bytes -> forall s address,
  vm_inv s T -> live s r -> r <> s_kernel_space s -> foreign_apart s T r -> 0 <= address ->
  address + zlen bytes <= USER_SPACE_END ->
  (forall b, address <= b < address + zlen bytes -> user_byte s r true b) ->
  exists s', store_bytes r address bytes s = (Ok tt, s') /\ written s T r address bytes s'.
Proof.
  intros Hby. induction Hby as [|b bytes Hb Hby IH]; intros s address Hi Hr Hk Hfo H0 Hend Hu.
  { exists s. split; [done|]. split; [done|by destruct s|done|done]. }
  unfold zlen in *. cbn [length] in *. cbn [store_bytes].
  destruct (user_frame s T r true address Hi Hr Hk Hfo) as (e & He & Ht & Hf & Hn).
  { rewrite index_of_mod by lia. change (2 ^ (12 + 9 * (4 - 1))) with 549755813888. unfold USER_SPACE_END in Hend. zlia. }
  { apply Hu. lia. }
  unfold mtry, store. rewrite Ht. set (p := table_at e + address mod PAGE_SIZE).
  destruct (set_byte_inv s T (table_at e) (address mod PAGE_SIZE) b Hi Hf Hn) as [I1 L1]; [apply Z.mod_pos_bound; done|].
  fold p in I1, L1. destruct (IH (set_byte p b s) (address + 1) I1) as (s' & E & W); try done.
  - intros a e' Ha. rewrite L1 in Ha by done. apply Hfo with a. exact Ha.
  - lia.
  - lia.
  - intros x Hx. destruct (Hu x ltac:(lia)) as (e' & He' & Hf'). exists e'. by rewrite L1.
  - exists s'. split; [done|]. split; [apply W| | |].
    + rewrite (wr_rest _ _ _ _ _ _ W). done.
    + intros r' a Hr'. rewrite (wr_leaf _ _ _ _ _ _ W); [by apply L1|done].
    + intros q Hq. destruct (decide (q = p)) as [->|Hqp]; [exists address; split; [unfold zlen; cbn [length]; lia|done]|].
      destruct (wr_bytes _ _ _ _ _ _ W q) as (x & Hx & Hxq); [by rewrite byte_set_ne|].
      exists x. split; [unfold zlen in *; cbn [length]; lia|]. rewrite translate_leaf in Hxq. rewrite L1 in Hxq by done.
      by rewrite translate_leaf.
Qed.

(** Without two addresses for one byte, what was written is read back. *)
Lemma store_bytes_value T r bytes : Forall (fun b => 0 <= b < 256) bytes -> forall s address,
  vm_inv s T -> live s r -> r <> s_kernel_space s -> foreign_apart s T r -> 0 <= address ->
  address + zlen bytes <= USER_SPACE_END ->
  (forall b, address <= b < address + zlen bytes -> user_byte s r true b) ->
  (forall b b', address <= b < b' -> b' < address + zlen bytes -> translate s r b <> translate s r b') ->
  user_bytes (snd (store_bytes r address bytes s)) r address (length bytes) = bytes.
Proof.
  intros Hby. induction Hby as [|b bytes Hb Hby IH]; intros s address Hi Hr Hk Hfo H0 Hend Hu Hinj; [done|].
  unfold zlen in *. cbn [length] in *. cbn [store_bytes].
  destruct (user_frame s T r true address Hi Hr Hk Hfo) as (e & He & Ht & Hf & Hn).
  { rewrite index_of_mod by lia. change (2 ^ (12 + 9 * (4 - 1))) with 549755813888. unfold USER_SPACE_END in Hend. zlia. }
  { apply Hu. lia. }
  unfold mtry, store. rewrite Ht. set (p := table_at e + address mod PAGE_SIZE) in *.
  destruct (set_byte_inv s T (table_at e) (address mod PAGE_SIZE) b Hi Hf Hn) as [I1 L1]; [apply Z.mod_pos_bound; done|].
  fold p in I1, L1. assert (Tr : forall a, translate (set_byte p b s) r a = translate s r a)
    by (intros a; by rewrite !translate_leaf, L1).
  assert (Fo : foreign_apart (set_byte p b s) T r) by (intros a e' Ha; rewrite L1 in Ha by done; apply Hfo with a; exact Ha).
  assert (Ub : forall x, address + 1 <= x < address + 1 + Z.of_nat (length bytes) -> user_byte (set_byte p b s) r true x).
  { intros x Hx. destruct (Hu x ltac:(lia)) as (e' & He' & Hf'). exists e'. by rewrite L1. }
  destruct (store_bytes_spec T r bytes Hby (set_byte p b s) (address + 1) I1) as (s' & E & W); [done|done|done|lia|unfold zlen; lia|done|].
  rewrite user_bytes_S. rewrite IH; [|done|done|done|done|lia|lia|done|intros x x' Hx Hx'; rewrite !Tr; apply Hinj; lia].
  rewrite E. cbn [snd]. assert (Hs' : translate s' r address = Ok p).
  { rewrite translate_leaf, (wr_leaf _ _ _ _ _ _ W) by done. by rewrite <- translate_leaf, Tr. }
  rewrite Hs'. f_equal. destruct (decide (byte_at s' p = byte_at (set_byte p b s) p)) as [->|Hne]; [by apply byte_set_eq|].
  destruct (wr_bytes _ _ _ _ _ _ W p Hne) as (x & Hx & Hxp). rewrite Tr in Hxp. unfold zlen in Hx.
  destruct (Hinj address x); [lia|lia|]. by rewrite Ht.
Qed.

(** ** Strings *)

(** The reference: every byte is checked before it is read. *)
Fixpoint string_by_byte s (root : Z) (n : nat) (address : Z) : Res (list Z) :=
  match n with
  | O => Err ENAMETOOLONG
  | S n' =>
      if validate_user_range s root address 1 false then
        match translate s root address with
        | Ok p =>
            if byte_at s p =? 0 then Ok []
            else match string_by_byte s root n' (address + 1) with
                 | Ok rest => Ok (byte_at s p :: rest)
                 | r => r
                 end
        | _ => Panic
        end
      else Err EFAULT
  end.

Lemma validate_byte s r a : is_u64 a -> validate_user_range s r a 1 false = true <-> a < USER_SPACE_END /\ user_byte s r false a.
Proof.
  intros Ha. rewrite validate_user_range_iff by (done || unfold is_u64; lia). split.
  - intros [H1 H2]. split; [lia|]. apply H2. lia.
  - intros [H1 H2]. split; [lia|]. intros b Hb. by replace b with a by lia.
Qed.

Lemma land_offset a : 0 <= a -> Z.land a (PAGE_SIZE - 1) = a mod PAGE_SIZE.
Proof. intros Ha. change (PAGE_SIZE - 1) with (Z.ones 12). by apply Z.land_ones. Qed.

Lemma same_page_byte s r w a b : 0 <= a -> 0 <= b -> a / PAGE_SIZE = b / PAGE_SIZE -> user_byte s r w a <-> user_byte s r w b.
Proof.
  intros Ha Hb E. assert (Hv : vpn a = vpn b) by (unfold vpn, prefix; change (2 ^ (12 + 9 * 0)) with PAGE_SIZE; by rewrite E).
  unfold user_byte. by rewrite (leaf_same_vpn s r a b Hv).
Qed.

(** The rest of a page is as accessible as its first byte. *)
Lemma validate_rest s r a : is_u64 a ->
  validate_user_range s r a (PAGE_SIZE - Z.land a (PAGE_SIZE - 1)) false = validate_user_range s r a 1 false.
Proof.
  intros Ha. pose proof Ha as Ha'. unfold is_u64 in Ha'. apply eq_true_iff_eq. rewrite validate_byte by done.
  rewrite land_offset by lia. rewrite validate_user_range_iff by (done || unfold is_u64, PAGE_SIZE; zlia). split.
  - intros [H1 H2]. split; [unfold PAGE_SIZE in *; zlia|]. apply H2. unfold PAGE_SIZE. zlia.
  - intros [H1 H2]. split; [unfold USER_SPACE_END, PAGE_SIZE in *; zlia|]. intros b Hb.
    apply (same_page_byte s r false a b); [lia|lia|unfold PAGE_SIZE in *; zlia|done].
Qed.

Lemma string_loop_spec s r source n k : 0 <= source -> 0 <= k -> source + k < 2 ^ 64 ->
  k = 0 \/ validate_user_range s r (source + k - 1) 1 false = true ->
  string_loop r source n k s = (string_by_byte s r n (source + k), s).
Proof.
  intros H0. revert k. induction n as [|n IH]; intros k Hk Hlt Hprev; [done|]. cbn [string_loop string_by_byte].
  assert (Hu : is_u64 (source + k)) by (unfold is_u64; lia). cbv zeta. rewrite u64_small by done.
  unfold mtry at 1, mget. rewrite validate_rest by done.
  assert (Hc : ((Z.land (source + k) (PAGE_SIZE - 1) =? 0) || (k =? 0)) && negb (validate_user_range s r (source + k) 1 false)
    = negb (validate_user_range s r (source + k) 1 false)).
  { destruct (validate_user_range s r (source + k) 1 false) eqn:Ev; [apply andb_false_r|]. rewrite andb_true_r.
    destruct (Z.eqb_spec k 0); [apply orb_true_r|]. rewrite orb_false_r. destruct Hprev as [?|Hprev]; [done|].
    apply Z.eqb_eq. destruct (decide (Z.land (source + k) (PAGE_SIZE - 1) = 0)) as [|Hoff]; [done|]. exfalso.
    apply not_true_iff_false in Ev. apply Ev. apply validate_byte in Hprev as [Hp1 Hp2]; [|unfold is_u64; lia].
    rewrite land_offset in Hoff by lia. apply validate_byte; [done|]. unfold PAGE_SIZE in Hoff. split.
    - unfold USER_SPACE_END in *. zlia.
    - apply (same_page_byte s r false (source + k - 1)); [lia|lia|unfold PAGE_SIZE; zlia|done]. }
  rewrite Hc. destruct (validate_user_range s r (source + k) 1 false) eqn:Ev; [|done]. cbn [negb].
  pose proof Ev as Ev'. apply validate_byte in Ev' as [Hend Hb]; [|done].
  destruct (user_byte_translate s r false _ Hb) as (e & _ & Ht). unfold mtry at 1, load. rewrite Ht.
  destruct (byte_at s _ =? 0); [done|]. unfold mtry. rewrite IH.
  - rewrite Z.add_assoc. by destruct (string_by_byte s r n (source + k + 1)).
  - lia.
  - unfold USER_SPACE_END in Hend. lia.
  - right. by replace (source + (k + 1) - 1) with (source + k) by lia.
Qed.

(** ** The theorems *)

(** C33: [copy_from_user] never makes the kernel fault: it returns the bytes the
    process sees if it may read all of them and EFAULT otherwise, and changes
    nothing. *)
Theorem copy_from_user_safe s r source length :
  is_u64 source -> is_u64 length ->
  copy_from_user (Some r) source length s = (Ok (user_bytes s r source (Z.to_nat length)), s)
    /\ (length = 0 \/ source + length <= USER_SPACE_END /\ forall b, source <= b < source + length -> user_byte s r false b)
  \/ copy_from_user (Some r) source length s = (Err EFAULT, s) /\ length <> 0
    /\ ~ (source + length <= USER_SPACE_END /\ forall b, source <= b < source + length -> user_byte s r false b).
Proof.
  intros Hs Hl. pose proof (validate_user_range_iff s r source length false Hs Hl) as Hv.
  unfold copy_from_user. destruct (Z.eqb_spec length 0) as [->|Hnz]; [left; split; [done|by left]|].
  unfold mtry, mget. destruct (validate_user_range s r source length false) eqn:E; cbn [negb].
  - left. destruct (proj1 Hv eq_refl) as [H1 H2]. split; [|by right]. unfold is_u64 in *.
    apply load_bytes_spec. intros b Hb. apply H2. lia.
  - right. split; [done|]. split; [done|]. intros H. by apply Hv in H.
Qed.


(** C35: checking a page at a time, [copy_string_from_user] reads exactly what a
    check before every byte would allow: the bytes up to the terminator if they
    are all readable and fewer than [capacity - 1], otherwise EFAULT at the first
    unreadable byte or ENAMETOOLONG; it never makes the kernel fault. *)
Theorem copy_string_checks_every_byte s r source capacity :
  is_u64 source -> 0 < capacity ->
  copy_string_from_user (Some r) source capacity s = (string_by_byte s r (Z.to_nat (capacity - 1)) source, s)
  /\ string_by_byte s r (Z.to_nat (capacity - 1)) source <> Panic.
Proof.
  intros Hs Hc. split.
  - unfold copy_string_from_user. rewrite (proj2 (Z.eqb_neq _ _)) by lia. unfold is_u64 in Hs.
    rewrite string_loop_spec by (lia || by left). by rewrite Z.add_0_r.
  - revert source Hs. induction (Z.to_nat (capacity - 1)) as [|n IH]; intros source Hs; [done|]. cbn [string_by_byte].
    destruct (validate_user_range s r source 1 false) eqn:E; [|done]. apply validate_byte in E as [Hend Hb]; [|done].
    destruct (user_byte_translate s r false source Hb) as (e & _ & ->). destruct (byte_at s _ =? 0); [done|].
    specialize (IH (source + 1) ltac:(unfold is_u64, USER_SPACE_END in *; lia)). by destruct (string_by_byte s r n (source + 1)).
Qed.
End UserMemory.

(** ** The theorems on the small machine *)

Lemma copy_from_user_safe_witness :
  copy_from_user (Some user_root) 0x400FFE 4 vm3 = (Ok [0; 0; 0; 0], vm3)
  /\ copy_from_user (Some user_root) 0x401FFE 4 vm3 = (Err EFAULT, vm3).
Proof.
  assert (H1 : is_u64 0x400FFE) by (split; vm_compute; congruence).
  assert (H2 : is_u64 0x401FFE) by (split; vm_compute; congruence).
  assert (H3 : is_u64 4) by (split; vm_compute; congruence).
  split.
  - destruct (copy_from_user_safe vm3 user_root 0x400FFE 4 H1 H3) as [[E _]|(_ & _ & H)].
    + assert (Hb : user_bytes vm3 user_root 0x400FFE (Z.to_nat 4) = [0; 0; 0; 0]) by (vm_compute; reflexivity).
      rewrite Hb in E. exact E.
    + exfalso. apply H. apply (validate_user_range_iff vm3 user_root 0x400FFE 4 false H1 H3). vm_compute. reflexivity.
  - destruct (copy_from_user_safe vm3 user_root 0x401FFE 4 H2 H3) as [[_ [[=]|H]]|(E & _ & _)]; [|exact E].
    apply (validate_user_range_iff vm3 user_root 0x401FFE 4 false H2 H3) in H. vm_compute in H. discriminate H.
Defined.

Lemma vm3_apart : exists T, user_space vm3 T /\ foreign_apart vm3 T user_root.
Proof.
  destruct vm3_user as (T & I & L & K & N). exists T. split; [done|]. intros a e He _ Hf. by rewrite (N a 1 e He) in Hf.
Qed.


Lemma copy_string_checks_every_byte_witness :
  copy_string_from_user (Some user_root) 0x400FFE 64 vm3 = (Ok [], vm3)
  /\ copy_string_from_user (Some user_root) 0x402000 64 vm3 = (Err EFAULT, vm3).
Proof.
  split.
  - assert (Hb : string_by_byte vm3 user_root (Z.to_nat (64 - 1)) 0x400FFE = Ok []) by (vm_compute; reflexivity).
    rewrite <- Hb. apply copy_string_checks_every_byte; [split; vm_compute; congruence|lia].
  - assert (Hb : string_by_byte vm3 user_root (Z.to_nat (64 - 1)) 0x402000 = Err EFAULT) by (vm_compute; reflexivity).
    rewrite <- Hb. apply copy_string_checks_every_byte; [split; vm_compute; congruence|lia].
Defined.
