(* ===== verification/Mmap.v ===== *)
(** * A process's memory calls

    [Process::set_brk] of kernel/sched/process.cpp and [sys_brk], [sys_mmap] and
    [sys_munmap] of kernel/sys/syscall.cpp over the address space of the calling
    process. *)

From S2P Require Import Prelude Kstd Physical AddressSpace PageTables Boot Spaces Clone AddressSpaces UserMemory.

Definition USER_STACK_TOP : Z := 0x00007FFFFFFFF000.
Definition USER_STACK_SIZE : Z := 64 * 1024.

Definition PROT_WRITE := 2.
Definition PROT_EXEC := 4.
Definition MAP_SHARED := 1.
Definition MAP_PRIVATE := 2.
Definition MAP_FIXED := 16.
Definition MAP_ANONYMOUS := 32.

(** What [sys_mmap] uses of the description behind its descriptor: its access mode
    and its inode's [read] of a page's worth of bytes and [physical_page]. *)
Record MapFile := mkMapFile {
  is_readable : bool;
  is_writable : bool;
  inode_read : Z -> Res (list Z);
  physical_page : Z -> bool -> Res Z;
}.

(** The memory side of the calling process. *)
Record Mm (F : Type) := mkMm {
  vm : Vm F;
  m_address_space : Z;
  mmap_next : Z;
  m_brk_start : Z;
  m_brk_current : Z;
}.
Arguments mkMm {F}.
Arguments vm {F}.
Arguments m_address_space {F}.
Arguments mmap_next {F}.
Arguments m_brk_start {F}.
Arguments m_brk_current {F}.

Section Mmap.
Context {F : Type} {FA : FrameAllocator F}.
Implicit Types (s : Mm F) (v : Vm F) (T : gmap Z Place).

Definition with_vm v s : Mm F := mkMm v (m_address_space s) (mmap_next s) (m_brk_start s) (m_brk_current s).
Definition with_mmap_next n s : Mm F := mkMm (vm s) (m_address_space s) n (m_brk_start s) (m_brk_current s).
Definition with_brk n s : Mm F := mkMm (vm s) (m_address_space s) (mmap_next s) (m_brk_start s) n.

Definition on_vm {A} (m : M (Vm F) A) : M (Mm F) A := fun s =>
  let (r, v) := m (vm s) in (r, with_vm v s).

Definition set_brk (address : Z) : M (Mm F) Z :=
  let! s := mget in
  if address =? 0 then mok (m_brk_current s)
  else if address <? m_brk_start s then merr EINVAL
  else if USER_STACK_TOP - USER_STACK_SIZE <=? address then merr ENOMEM
  else
    let old_end := align_up (m_brk_current s) PAGE_SIZE in
    let new_end := align_up address PAGE_SIZE in
    (if new_end >? old_end then
       let flags := Z.lor (Z.lor (Z.lor PageFlags_Present PageFlags_Writable) PageFlags_User) PageFlags_NoExecute in
       on_vm (map_anonymous (m_address_space s) old_end (new_end - old_end) flags)
     else if new_end <? old_end then
       on_vm (unmap_range (m_address_space s) new_end (old_end - new_end))
     else mok tt) ;!
    mmod (with_brk address) ;!
    mok address.

Definition sys_brk (address : Z) : M (Mm F) Z := set_brk address.

(** The flags of the pages a mapping with this protection gets. *)
Definition mmap_flags (protection : Z) : Z :=
  let page_flags := Z.lor PageFlags_Present PageFlags_User in
  let page_flags := if negb (Z.land protection PROT_WRITE =? 0) then Z.lor page_flags PageFlags_Writable else page_flags in
  if Z.land protection PROT_EXEC =? 0 then Z.lor page_flags PageFlags_NoExecute else page_flags.

(** A page of a file: what could be read, and zeroes after it. *)
Definition file_page (read : Res (list Z)) : list Z :=
  let got := match read with Ok l => l | _ => [] end in
  got ++ replicate (Z.to_nat PAGE_SIZE - length got) 0.

(** The private file mapping: anonymous memory filled in by reading.  [bounce] is
    whether the bounce buffer could be allocated. *)
Definition mmap_private (root target rounded protection page_flags : Z) (file : MapFile) (offset : Z) (bounce : bool)
  : M (Mm F) Z :=
  let fill_flags := Z.lor page_flags PageFlags_Writable in
  on_vm (map_anonymous root target rounded fill_flags) ;!
  if negb bounce then on_vm (unmap_range root target rounded) ;! merr ENOMEM
  else
    mfor (Z.to_nat (rounded / PAGE_SIZE)) 0 PAGE_SIZE (fun done =>
      let page := file_page (inode_read file (u64 (offset + done))) in
      let! copied := mcatch (on_vm (copy_to_user (Some root) (u64 (target + done)) page)) in
      match copied with
      | inr code => on_vm (unmap_range root target rounded) ;! merr code
      | inl _ => mok tt
      end) ;!
    (if Z.land protection PROT_WRITE =? 0 then on_vm (protect root target rounded page_flags) else mok tt) ;!
    mok target.

(** The shared mapping: the inode's own pages, marked foreign. *)
Definition mmap_shared (root target rounded protection page_flags : Z) (file : MapFile) (offset : Z) : M (Mm F) Z :=
  let page_flags := Z.lor page_flags PageFlags_Foreign in
  mfor (Z.to_nat (rounded / PAGE_SIZE)) 0 PAGE_SIZE (fun done =>
    match physical_page file (u64 (offset + done)) (negb (Z.land protection PROT_WRITE =? 0)) with
    | Err code => on_vm (unmap_range root target done) ;! merr code
    | Panic => mpanic
    | Ok page =>
        let! mapped := mcatch (on_vm (map root (u64 (target + done)) page page_flags)) in
        match mapped with
        | inr code => on_vm (unmap_range root target done) ;! merr code
        | inl _ => mok tt
        end
    end) ;!
  mok target.

(** [file] is what [description_for] answers for the descriptor. *)
Definition sys_mmap (address length protection flags : Z) (file : Res MapFile) (offset : Z) (bounce : bool) : M (Mm F) Z :=
  if length =? 0 then merr EINVAL
  else
    let anonymous := negb (Z.land flags MAP_ANONYMOUS =? 0) in
    let shared := negb (Z.land flags MAP_SHARED =? 0) in
    if Bool.eqb shared (negb (Z.land flags MAP_PRIVATE =? 0)) then merr EINVAL
    else
      let rounded := align_up length PAGE_SIZE in
      let fixed := negb (Z.land flags MAP_FIXED =? 0) in
      if fixed && negb (Z.land address (PAGE_SIZE - 1) =? 0) then merr EINVAL
      else
        let! s := mget in
        let root := m_address_space s in
        let target := if fixed then address else mmap_next s in
        (if fixed then mok tt else mmod (fun s => with_mmap_next (u64 (mmap_next s + rounded + PAGE_SIZE)) s)) ;!
        let page_flags := mmap_flags protection in
        if anonymous then on_vm (map_anonymous root target rounded page_flags) ;! mok target
        else
          match file with
          | Err code => merr code
          | Panic => mpanic
          | Ok file =>
              if negb (is_readable file) then merr EACCES
              else if shared && negb (Z.land protection PROT_WRITE =? 0) && negb (is_writable file) then merr EACCES
              else if negb (Z.land offset (PAGE_SIZE - 1) =? 0) then merr EINVAL
              else if negb shared then mmap_private root target rounded protection page_flags file offset bounce
              else mmap_shared root target rounded protection page_flags file offset
          end.

Definition sys_munmap (address length : Z) : M (Mm F) Z :=
  if (length =? 0) || negb (Z.land address (PAGE_SIZE - 1) =? 0) then merr EINVAL
  else
    let! s := mget in
    on_vm (unmap_range (m_address_space s) address (align_up length PAGE_SIZE)) ;!
    mok 0.

(** ** Ranges of user addresses *)

Lemma user_vpn a : 0 <= a < USER_SPACE_END -> vpn a = a / PAGE_SIZE /\ index_of a 4 < 256.
Proof.
  intros Ha. unfold USER_SPACE_END in Ha. split.
  - unfold vpn, prefix. change (2 ^ (12 + 9 * 0)) with PAGE_SIZE. apply Z.mod_small. change (2 ^ (36 - 9 * 0)) with 68719476736.
    unfold PAGE_SIZE. zlia.
  - rewrite index_of_mod by lia. change (2 ^ (12 + 9 * (4 - 1))) with 549755813888. zlia.
Qed.

Lemma covered_user v r first n b : 0 <= first -> first mod PAGE_SIZE = 0 -> first + Z.of_nat n * PAGE_SIZE <= USER_SPACE_END ->
  0 <= b < USER_SPACE_END -> covered v r first n r b <-> first <= b < first + Z.of_nat n * PAGE_SIZE.
Proof.
  intros H0 Hm He Hb. destruct (user_vpn b Hb) as [Vb Ib]. unfold covered. split.
  - intros (k & Hk & Hs). apply bool_decide_eq_true in Hs as [_ Hs].
    destruct (user_vpn (first + k * PAGE_SIZE)) as [Vk _]; [unfold PAGE_SIZE in *; lia|]. rewrite Vk, Vb in Hs.
    unfold PAGE_SIZE in *. zlia.
  - intros Hr. exists ((b - first) / PAGE_SIZE). assert (Hk : 0 <= (b - first) / PAGE_SIZE < Z.of_nat n) by (unfold PAGE_SIZE in *; zlia).
    split; [done|]. destruct (user_vpn (first + (b - first) / PAGE_SIZE * PAGE_SIZE)) as [Vk Ik]; [unfold PAGE_SIZE in *; zlia|].
    apply bool_decide_eq_true. rewrite Vk, Vb, !own_user by done. split; [done|]. unfold PAGE_SIZE in *. zlia.
Qed.

(** The kernel's addresses are in no user range. *)
Lemma covered_other v r first n r' a : r <> s_kernel_space v -> 0 <= first -> first + Z.of_nat n * PAGE_SIZE <= USER_SPACE_END ->
  r' <> r \/ 256 <= index_of a 4 -> ~ covered v r first n r' a.
Proof.
  intros Hk H0 He Ho (k & Hx & Hs). apply bool_decide_eq_true in Hs as [Hs _]. revert Hs.
  rewrite own_user by (apply user_vpn; unfold PAGE_SIZE in *; lia). unfold own.
  destruct (Z.leb_spec 256 (index_of a 4)); [congruence|]. destruct Ho; [congruence|lia].
Qed.

(** A page-aligned user range as the loops see it. *)
Lemma range_pages first last : 0 <= first -> first mod PAGE_SIZE = 0 -> last mod PAGE_SIZE = 0 -> first <= last <= USER_SPACE_END ->
  range_start first = first /\ page_count first (range_end first (last - first)) = Z.to_nat ((last - first) / PAGE_SIZE)
  /\ first + Z.of_nat (Z.to_nat ((last - first) / PAGE_SIZE)) * PAGE_SIZE = last.
Proof.
  intros H0 Hf Hl Hr. assert (He : USER_SPACE_END < 2 ^ 64 - PAGE_SIZE) by (vm_compute; done). unfold range_start, range_end, page_count.
  replace (first + (last - first)) with last by lia. rewrite u64_small by (unfold is_u64, PAGE_SIZE in *; lia).
  rewrite align_down_page, align_up_page by (unfold is_u64, PAGE_SIZE in *; lia). unfold PAGE_SIZE in *. split_and!; zlia || (f_equal; zlia) || idtac.
Qed.

Lemma align_up_user a : 0 <= a <= USER_SPACE_END - PAGE_SIZE ->
  a <= align_up a PAGE_SIZE < a + PAGE_SIZE /\ align_up a PAGE_SIZE mod PAGE_SIZE = 0 /\ align_up a PAGE_SIZE <= USER_SPACE_END.
Proof.
  intros Ha. rewrite align_up_page by (unfold USER_SPACE_END, PAGE_SIZE in *; lia). unfold USER_SPACE_END, PAGE_SIZE in *. split_and!; zlia.
Qed.

(** ** The process's memory *)

Definition mm_ok s T : Prop :=
  vm_inv (vm s) T /\ live (vm s) (m_address_space s) /\ m_address_space s <> s_kernel_space (vm s).

(** An address that has nothing to do with the bytes [first] to [last] of [r]. *)
Definition elsewhere (r first last r' a : Z) : Prop :=
  r' <> r \/ 256 <= index_of a 4 \/ 0 <= a < USER_SPACE_END /\ ~ first <= a < last.

Lemma elsewhere_covered v r first last n r' a : r <> s_kernel_space v -> 0 <= first -> first mod PAGE_SIZE = 0 ->
  first + Z.of_nat n * PAGE_SIZE = last -> last <= USER_SPACE_END -> elsewhere r first last r' a -> ~ covered v r first n r' a.
Proof.
  intros Hk H0 Hm Hl He H Hc. destruct (decide (r' = r /\ index_of a 4 < 256)) as [[-> Hi]|Hno].
  - destruct H as [?|[?|[Ha Hn]]]; [done|lia|]. apply Hn. rewrite <- Hl. apply (covered_user v r first n a); [done|done|lia|done|done].
  - revert Hc. apply covered_other; [done|done|lia|]. destruct (decide (r' = r)); [right|by left].
    destruct (Z.lt_ge_cases (index_of a 4) 256); [tauto|lia].
Qed.

(** Memory that [map_anonymous] gave a process: zeroed frames it alone uses. *)
Record grown v v' (r first last flags : Z) : Prop := {
  gw_inv : exists T', vm_inv v' T';
  gw_live : forall x, live v' x <-> live v x;
  gw_kernel : s_kernel_space v' = s_kernel_space v;
  gw_keep : forall r' a, live v r' -> leaf v r' a <> None \/ elsewhere r first last r' a -> leaf v' r' a = leaf v r' a;
  gw_fill : forall b, first <= b < last -> leaf v r b = None ->
    exists f, leaf v' r b = Some (1, leaf_entry f flags) /\ ~ fa_owned (frames v) f /\ fa_owned (frames v') f
      /\ forall i, 0 <= i < 512 -> entry_of v' f i = 0;
}.

(** Pages [first] to [last] of [r] taken down, as far as [map_anonymous] got. *)
Record shrunk v v' (r first last : Z) : Prop := {
  sh_inv : exists T', vm_inv v' T';
  sh_live : forall x, live v' x <-> live v x;
  sh_kernel : s_kernel_space v' = s_kernel_space v;
  sh_keep : forall r' a, live v r' -> elsewhere r first last r' a -> leaf v' r' a = leaf v r' a;
}.

Lemma elsewhere_mono r first last last' r' a : last' <= last -> elsewhere r first last r' a -> elsewhere r first last' r' a.
Proof. unfold elsewhere. intros Hl [?|[?|[? ?]]]; [by left|right; by left|right; right; split; [done|lia]]. Qed.

Lemma anonymous_user v T r first last flags : vm_inv v T -> live v r -> r <> s_kernel_space v ->
  0 <= first -> first mod PAGE_SIZE = 0 -> last mod PAGE_SIZE = 0 -> first <= last <= USER_SPACE_END ->
  Z.land flags ADDRESS_MASK = 0 ->
  match map_anonymous r first (last - first) flags v with
  | (Ok _, v') => grown v v' r first last flags
  | (Err e, v') => e = ENOMEM /\ first < last /\ shrunk v v' r first last
  | (Panic, _) => False
  end.
Proof.
  intros Hi Hr Hk H0 Hf Hl Hfl Hm. destruct (range_pages first last H0 Hf Hl Hfl) as (E1 & E2 & E3).
  assert (He : USER_SPACE_END < 2 ^ 64) by (vm_compute; done).
  pose proof (map_anonymous_at v T r first (last - first) flags Hi Hr ltac:(unfold is_u64; lia) Hm) as H. cbv zeta in H.
  rewrite E1, E2 in H. set (n := Z.to_nat ((last - first) / PAGE_SIZE)) in *.
  specialize (H ltac:(intros _ k Hkn; rewrite own_user; [done|]; apply user_vpn; unfold PAGE_SIZE in *; lia)).
  destruct (map_anonymous r first (last - first) flags v) as [[u|e|] v']; [| |done].
  - destruct H as [T' H]. split; [exists T'; apply H|apply H|apply H| |].
    + intros r' a Hr' Ho. apply (fl_keep _ _ _ _ _ _ _ _ H); [done|]. destruct Ho as [?|Ho]; [by left|right].
      by apply (elsewhere_covered v r first last n r' a Hk H0 Hf E3 ltac:(lia)).
    + intros b Hb Hn. destruct (fl_fill _ _ _ _ _ _ _ _ H r b Hr Hn) as (f & ? & ? & ? & ? & _ & ?); [|by exists f].
      apply covered_user; [done|done|lia|lia|lia].
  - destruct H as (-> & k & T' & Hkn & _ & H). split; [done|]. split; [unfold PAGE_SIZE in *; lia|].
    split; [exists T'; apply H|apply H|apply H|]. intros r' a Hr' Ho. rewrite (rb_leaf _ _ _ _ _ _ _ H) by done.
    rewrite decide_False; [done|]. apply (elsewhere_covered v r first (first + Z.of_nat k * PAGE_SIZE) k r' a Hk H0 Hf eq_refl).
    + unfold PAGE_SIZE in *. lia.
    + apply (elsewhere_mono r first last); [unfold PAGE_SIZE in *; lia|done].
Qed.

Lemma unmap_user v T r first last : vm_inv v T -> live v r -> r <> s_kernel_space v ->
  0 <= first -> first mod PAGE_SIZE = 0 -> last mod PAGE_SIZE = 0 -> first <= last <= USER_SPACE_END ->
  exists v', unmap_range r first (last - first) v = (Ok tt, v') /\ shrunk v v' r first last /\ frames v' = frames v
    /\ forall b, first <= b < last -> leaf v' r b = cleared (leaf v r b).
Proof.
  intros Hi Hr Hk H0 Hf Hl Hfl. destruct (range_pages first last H0 Hf Hl Hfl) as (E1 & E2 & E3).
  assert (He : USER_SPACE_END < 2 ^ 64) by (vm_compute; done).
  destruct (unmap_range_at v T r first (last - first) Hi Hr ltac:(unfold is_u64; lia)) as (v' & T' & E & H).
  rewrite E1, E2 in H. set (n := Z.to_nat ((last - first) / PAGE_SIZE)) in *. exists v'. split; [done|].
  split; [|split; [apply H|]].
  - split; [exists T'; apply H|apply H|apply H|]. intros r' a Hr' Ho. rewrite (ru_leaf _ _ _ _ _ _ _ H) by done.
    rewrite decide_False; [done|]. by apply (elsewhere_covered v r first last n r' a Hk H0 Hf E3 ltac:(lia)).
  - intros b Hb. rewrite (ru_leaf _ _ _ _ _ _ _ H) by done. rewrite decide_True; [done|]. apply covered_user; [done|done|lia|lia|lia].
Qed.

(** A user space has no large pages of its own. *)
Lemma user_walk_small v T r a n t : vm_inv v T -> r <> s_kernel_space v -> index_of a 4 < 256 -> (1 <= n <= 4)%nat ->
  T !! t = Some (path_place v r a (Z.of_nat n)) -> forall l e, walk_from v n t a <> HugeAt l e.
Proof.
  intros Hi Hk Ha Hn. revert t. induction n as [|n IH]; intros t Ht l e; [lia|]. destruct n as [|n]; [done|].
  rewrite walk_from_SS. cbv zeta. set (L := Z.of_nat (S (S n))) in *.
  destruct (has_flag (entry_of v t (index_of a L)) PageFlags_Present) eqn:Ep; [|done]. cbn [negb].
  pose proof (index_of_range a L ltac:(lia)) as Hx.
  destruct (has_flag (entry_of v t (index_of a L)) PageFlags_Huge) eqn:Eh.
  - exfalso. pose proof (vi_child v T Hi t _ _ _ (index_of a L) Ht ltac:(lia) Hx Ep) as Hc. unfold child_ok in Hc.
    rewrite (proj2 (Z.eqb_neq L 1)), Eh in Hc by lia. destruct Hc as [Hc _]. rewrite own_user in Hc by done. by destruct (L =? 4).
  - apply IH; [lia|]. pose proof (path_step v T r a L t Hi ltac:(lia) Ht Ep Eh) as Hs. rewrite Hs. do 2 f_equal. lia.
Qed.

Lemma user_leaf_cleared v T r a : vm_inv v T -> live v r -> r <> s_kernel_space v -> index_of a 4 < 256 ->
  cleared (leaf v r a) = None.
Proof.
  intros Hi Hr Hk Ha. pose proof (user_walk_small v T r a 4 r Hi Hk Ha ltac:(lia) (root_place v T r a Hi Hr)) as H.
  unfold leaf. destruct (walk_from v 4 r a) eqn:Ew; [|by destruct (H _ _ eq_refl)|done]. by destruct (present _).
Qed.

(** ** The theorems *)

Definition brk_ok s : Prop :=
  0 < m_brk_start s <= m_brk_current s /\ m_brk_current s < USER_STACK_TOP - USER_STACK_SIZE.

(** What moving the break from [old] to [new] does to the memory of the process. *)
Definition brk_moved s s' (old new : Z) : Prop :=
  let r := m_address_space s in
  (forall b, align_up old PAGE_SIZE <= b < align_up new PAGE_SIZE ->
     if is_mapped (vm s) r b then translate (vm s') r b = translate (vm s) r b
     else user_byte (vm s') r true b /\ exists f, translate (vm s') r b = Ok (f + b mod PAGE_SIZE)
            /\ ~ fa_owned (frames (vm s)) f /\ forall i, 0 <= i < 512 -> entry_of (vm s') f i = 0)
  /\ (forall b, align_up new PAGE_SIZE <= b < align_up old PAGE_SIZE -> is_mapped (vm s') r b = false)
  /\ (forall r' a, live (vm s) r' ->
        elsewhere r (Z.min (align_up old PAGE_SIZE) (align_up new PAGE_SIZE)) (Z.max (align_up old PAGE_SIZE) (align_up new PAGE_SIZE)) r' a ->
        translate (vm s') r' a = translate (vm s) r' a /\ query (vm s') r' a = query (vm s) r' a).

Definition brk_flags : Z := Z.lor (Z.lor (Z.lor PageFlags_Present PageFlags_Writable) PageFlags_User) PageFlags_NoExecute.

Lemma brk_entry f : let e := leaf_entry f brk_flags in
  has_flag e PageFlags_User = true /\ has_flag e PageFlags_Writable = true.
Proof.
  unfold PageFlags_User, PageFlags_Writable. rewrite !leaf_entry_flag by (unfold flag_bit; lia). split; reflexivity.
Qed.

Lemma brk_grow s v' new : grown (vm s) v' (m_address_space s) (align_up (m_brk_current s) PAGE_SIZE) (align_up new PAGE_SIZE) brk_flags ->
  live (vm s) (m_address_space s) -> align_up (m_brk_current s) PAGE_SIZE < align_up new PAGE_SIZE ->
  brk_moved s (with_brk new (with_vm v' s)) (m_brk_current s) new.
Proof.
  intros H Hr Hlt. split; [|split].
  - intros b Hb. cbn. rewrite is_mapped_leaf. destruct (leaf (vm s) (m_address_space s) b) as [x|] eqn:El.
    + rewrite bool_decide_eq_true_2 by done. apply same_leaf_translate. rewrite (gw_keep _ _ _ _ _ _ H); [done|done|by rewrite El; left].
    + rewrite bool_decide_eq_false_2 by by intros []. destruct (gw_fill _ _ _ _ _ _ H b Hb El) as (f & Hl & Hno & Ho & Hz).
      destruct (brk_entry f) as [Hu Hw]. split; [by exists (leaf_entry f brk_flags)|].
      destruct (leaf_entry_facts f brk_flags eq_refl) as (_ & Hat & _). exists (Z.land f ADDRESS_MASK).
      rewrite (translate_at _ _ _ _ _ Hl) by lia. rewrite Hat. split; [done|].
      destruct (gw_inv _ _ _ _ _ _ H) as [T' I']. rewrite frame_masked; [done|].
      exact (fa_owned_range _ f (vi_frames _ _ I') Ho).
  - intros b Hb. lia.
  - intros r' a Hr' Ho. apply same_leaf_translate, (gw_keep _ _ _ _ _ _ H); [done|]. right. cbn in Ho.
    by rewrite Z.min_l, Z.max_r in Ho by lia.
Qed.

(** C36: [brk] moves the break exactly to the address asked for.  Growing it gives
    the process zeroed, writable memory nobody else uses up to the new break and
    leaves what was mapped there alone, shrinking it takes the pages above the new
    break away, nothing else changes; [brk(0)] only answers, an address below the
    start of the heap is EINVAL, one in the stack's area or more memory than there
    is ENOMEM, and then the break has not moved. *)
Theorem set_brk_correct s T address :
  mm_ok s T -> brk_ok s -> is_u64 address ->
  let '(res, s') := sys_brk address s in
  (exists T', mm_ok s' T') /\ brk_ok s'
  /\ match res with
     | Ok x => x = m_brk_current s'
         /\ (address = 0 /\ s' = s \/ m_brk_current s' = address /\ brk_moved s s' (m_brk_current s) address)
     | Err e => m_brk_current s' = m_brk_current s
         /\ (e = EINVAL /\ 0 < address < m_brk_start s \/ e = ENOMEM /\ m_brk_current s < address)
     | Panic => False
     end.
Proof.
  intros (Hi & Hr & Hk) Hb Ha. destruct Hb as (Hs & Hc). unfold is_u64 in Ha.
  unfold sys_brk, set_brk, mtry at 1, mget.
  destruct (Z.eqb_spec address 0) as [->|Hnz]; [split; [by exists T|]; split; [done|]; split; [done|by left]|].
  destruct (Z.ltb_spec address (m_brk_start s)) as [Hlt|Hge].
  { split; [by exists T|]. split; [done|]. split; [done|]. left. split; [done|lia]. }
  destruct (Z.leb_spec (USER_STACK_TOP - USER_STACK_SIZE) address) as [Hst|Hst].
  { split; [by exists T|]. split; [done|]. split; [done|]. right. split; [done|lia]. }
  assert (Hlim : USER_STACK_TOP - USER_STACK_SIZE <= USER_SPACE_END - PAGE_SIZE) by (vm_compute; done).
  destruct (align_up_user (m_brk_current s) ltac:(lia)) as (Ho1 & Ho2 & Ho3).
  destruct (align_up_user address ltac:(lia)) as (Hn1 & Hn2 & Hn3). cbv zeta. fold brk_flags.
  assert (Hok : forall v', (exists T', vm_inv v' T') -> (forall x, live v' x <-> live (vm s) x) -> s_kernel_space v' = s_kernel_space (vm s) ->
    (exists T', mm_ok (with_brk address (with_vm v' s)) T') /\ brk_ok (with_brk address (with_vm v' s))).
  { intros v' [T' I'] Hl Hk'. split; [exists T'; split; [done|]; split; [by apply Hl|cbn; congruence]|]. split; cbn; lia. }
  rewrite Z.gtb_ltb. destruct (Z.ltb_spec (align_up (m_brk_current s) PAGE_SIZE) (align_up address PAGE_SIZE)) as [Hup|Hdn].
  - unfold mtry at 1, on_vm. pose proof (anonymous_user (vm s) T (m_address_space s) (align_up (m_brk_current s) PAGE_SIZE) (align_up address PAGE_SIZE) brk_flags Hi Hr Hk ltac:(lia) Ho2 Hn2 ltac:(lia) eq_refl) as H.
    destruct (map_anonymous _ _ _ brk_flags (vm s)) as [[u|e|] v']; [| |done].
    + destruct (Hok v') as [H1 H2]; [apply H..|]. split; [exact H1|]. split; [exact H2|]. split; [done|]. right. split; [done|]. by apply brk_grow.
    + destruct H as (-> & _ & H). split; [destruct (sh_inv _ _ _ _ _ H) as [T' I']; exists T'; split; [done|]; split;
        [by apply (sh_live _ _ _ _ _ H)|cbn; by rewrite (sh_kernel _ _ _ _ _ H)]|].
      split; [done|]. split; [done|]. right. split; [done|]. unfold PAGE_SIZE in *. zlia.
  - destruct (Z.ltb_spec (align_up address PAGE_SIZE) (align_up (m_brk_current s) PAGE_SIZE)) as [Hlt'|Heq].
    + unfold mtry at 1, on_vm.
      destruct (unmap_user (vm s) T (m_address_space s) (align_up address PAGE_SIZE) (align_up (m_brk_current s) PAGE_SIZE) Hi Hr Hk ltac:(lia) Hn2 Ho2 ltac:(lia)) as (v' & E & H & _ & Hcl).
      rewrite E. destruct (Hok v') as [H1 H2]; [apply H..|]. split; [exact H1|]. split; [exact H2|]. split; [done|]. right. split; [done|].
      split; [|split].
      * intros b Hb. lia.
      * intros b Hb. cbn. rewrite is_mapped_leaf, Hcl by lia. rewrite (user_leaf_cleared (vm s) T) by (done || apply user_vpn; lia).
        apply bool_decide_eq_false. by intros [].
      * intros r' a Hr' Hel. apply same_leaf_translate, (sh_keep _ _ _ _ _ H); [done|]. by rewrite Z.min_r, Z.max_l in Hel by lia.
    + destruct (Hok (vm s)) as [H1 H2]; [by exists T|done|done|]. replace (with_vm (vm s) s) with s in H1, H2 by by destruct s.
      split; [exact H1|]. split; [exact H2|]. split; [done|]. right. split; [done|]. split; [intros b Hb; lia|]. split; [intros b Hb; lia|done].
Qed.

Lemma mmap_entry f protection : let e := leaf_entry f (mmap_flags protection) in
  has_flag e PageFlags_User = true
  /\ has_flag e PageFlags_Writable = negb (Z.land protection PROT_WRITE =? 0)
  /\ has_flag e PageFlags_NoExecute = (Z.land protection PROT_EXEC =? 0).
Proof.
  unfold PageFlags_User, PageFlags_Writable, PageFlags_NoExecute. rewrite !leaf_entry_flag by (unfold flag_bit; lia).
  unfold mmap_flags. destruct (Z.land protection PROT_WRITE =? 0), (Z.land protection PROT_EXEC =? 0); cbn [negb]; split_and!; reflexivity.
Qed.

Lemma mmap_flags_mask protection : Z.land (mmap_flags protection) ADDRESS_MASK = 0.
Proof. unfold mmap_flags. by destruct (Z.land protection PROT_WRITE =? 0), (Z.land protection PROT_EXEC =? 0). Qed.


Lemma munmap_one s a : 0 <= a < 2 ^ 64 - 2 * PAGE_SIZE -> a mod PAGE_SIZE = 0 ->
  sys_munmap a PAGE_SIZE s = (Ok 0, with_vm (unmap (m_address_space s) a (vm s)) s).
Proof.
  intros Ha Hm. unfold sys_munmap. rewrite land_offset, Hm by lia. change (align_up PAGE_SIZE PAGE_SIZE) with PAGE_SIZE. cbn [orb Z.eqb negb].
  change (PAGE_SIZE =? 0) with false. cbn [orb]. unfold mtry at 1, mget. unfold mtry, on_vm, unmap_range.
  assert (E : page_count (range_start a) (range_end a PAGE_SIZE) = 1%nat /\ range_start a = a).
  { unfold page_count, range_start, range_end. rewrite u64_small by (unfold is_u64, PAGE_SIZE in *; lia).
    rewrite align_down_page, align_up_page by (unfold is_u64, PAGE_SIZE in *; lia). unfold PAGE_SIZE in *. split; [|zlia].
    change 1%nat with (Z.to_nat 1). f_equal. zlia. }
  destruct E as [-> ->]. done.
Qed.

(** nothing in [munmap] keeps a process to its own half of the address space:
    given the address of a page of the kernel it answers success, and the page is
    gone from the kernel's own tables and from every process. *)
Theorem munmap_reaches_kernel s T a e :
  mm_ok s T -> 0 <= a < 2 ^ 64 - 2 * PAGE_SIZE -> a mod PAGE_SIZE = 0 -> 256 <= index_of a 4 ->
  leaf (vm s) (s_kernel_space (vm s)) a = Some (1, e) ->
  exists s', sys_munmap a PAGE_SIZE s = (Ok 0, s')
    /\ forall r, live (vm s) r -> translate (vm s) r a = Ok (table_at e) /\ translate (vm s') r a = Err EFAULT.
Proof.
  intros (Hi & Hr & Hk) Ha Hm Hx He. rewrite munmap_one by done. eexists. split; [done|]. intros r Hlr.
  assert (Hown : forall x, own (vm s) x a = s_kernel_space (vm s)) by (intros x; unfold own; by rewrite (proj2 (Z.leb_le 256 _) Hx)).
  assert (Hl : forall x, live (vm s) x -> leaf (vm s) x a = Some (1, e)).
  { intros x Hlx. rewrite <- He. apply (leaf_same_page (vm s) T); [done|exact (vi_kernel _ _ Hi)|done|].
    unfold same_page. rewrite !Hown. by apply bool_decide_eq_true. }
  split; [rewrite (translate_at _ _ _ _ _ (Hl r Hlr)) by lia; f_equal; change (2 ^ (12 + 9 * (1 - 1))) with PAGE_SIZE; rewrite Hm; lia|].
  pose proof (unmap_spec_at (vm s) T (m_address_space s) a Hi Hr ltac:(unfold is_u64, PAGE_SIZE in *; lia)) as H. rewrite (Hl _ Hr) in H.
  destruct H as [T' H]. cbn. rewrite translate_leaf, (um_leaf _ _ _ _ _ _ _ H) by done. unfold same_page. rewrite !Hown.
  by rewrite bool_decide_eq_true_2.
Qed.

(** the frame behind a page that is unmapped is never given back: tearing the
    whole address space down afterwards leaves it allocated. *)
Theorem munmap_leaks s T a e :
  mm_ok s T -> 0 <= a < USER_SPACE_END -> a mod PAGE_SIZE = 0 ->
  leaf (vm s) (m_address_space s) a = Some (1, e) -> has_flag e PageFlags_Foreign = false ->
  exists s' v, sys_munmap a PAGE_SIZE s = (Ok 0, s')
    /\ destroy_user_mappings (m_address_space s') (vm s') = (Ok tt, v) /\ fa_owned (frames v) (table_at e)
    /\ forall r b, live v r -> b mod PAGE_SIZE = 0 -> index_of b 4 < 256 -> r <> s_kernel_space v ->
         forall e', leaf v r b = Some (1, e') -> has_flag e' PageFlags_Foreign = false -> table_at e' <> table_at e.
Proof.
  intros (Hi & Hr & Hk) Ha Hm He Hf. assert (Hlt : USER_SPACE_END < 2 ^ 64 - 2 * PAGE_SIZE) by (vm_compute; done).
  rewrite munmap_one by (done || lia). destruct (user_vpn a Ha) as [_ Hx].
  pose proof (unmap_spec_at (vm s) T (m_address_space s) a Hi Hr ltac:(unfold is_u64, PAGE_SIZE in *; lia)) as H. rewrite He in H.
  destruct H as [T' H]. pose proof (own_user (vm s) (m_address_space s) a Hx) as Ho.
  assert (Htr : tracked (vm s) (own (vm s) (m_address_space s) a) e = true)
    by (unfold tracked; rewrite Ho, Hf; by rewrite (proj2 (Z.eqb_neq _ _) Hk)).
  pose proof (um_placed _ _ _ _ _ _ _ H Htr) as Hp. pose proof (um_places _ _ _ _ _ _ _ H) as HT. rewrite Htr in HT.
  set (v1 := unmap (m_address_space s) a (vm s)) in *.
  assert (K1 : s_kernel_space v1 = s_kernel_space (vm s)) by by rewrite (um_rest _ _ _ _ _ _ _ H).
  destruct (destroy_user_mappings_at v1 T' (m_address_space s) (um_inv _ _ _ _ _ _ _ H)) as (v & E & D).
  { by apply (unmapped_live _ _ _ _ _ _ _ (m_address_space s) H). }
  { by rewrite K1. }
  exists (with_vm v1 s), v. split; [done|]. split; [exact E|]. split.
  - apply (de_owned _ _ _ _ D). split.
    + rewrite (um_rest _ _ _ _ _ _ _ H). cbn. exact (vi_owned _ _ Hi _ _ Hp).
    + intros p Hp'. rewrite HT, lookup_delete_eq in Hp'. done.
  - intros r b Hlr Hb Hxb Hrk e' He' Hf' Heq.
    pose proof (private_placed v (without (m_address_space s) T') r (de_inv _ _ _ _ D) Hlr Hrk b e' Hxb He' Hf') as Hpl.
    apply without_Some in Hpl as [Hpl _]. rewrite Heq, HT, lookup_delete_eq in Hpl. done.
Qed.
End Mmap.

(** ** The theorems on the small machine *)

Definition demo_mm : Mm Pmm := mkMm vm3 user_root 0x100000000000 0x600000 0x600000.

Lemma demo_mm_ok : exists T, mm_ok demo_mm T.
Proof. destruct vm3_user as (T & I & L & K & _). by exists T. Qed.

Lemma brk_ok_demo : brk_ok demo_mm.
Proof. split; cbn; unfold USER_STACK_TOP, USER_STACK_SIZE; lia. Qed.

Lemma brk_runs : fst (sys_brk 0x601234 demo_mm) = Ok 0x601234.
Proof. vm_compute. reflexivity. Qed.

Lemma set_brk_correct_witness : exists s', sys_brk 0x601234 demo_mm = (Ok 0x601234, s')
  /\ m_brk_current s' = 0x601234 /\ user_byte (vm s') user_root true 0x601233.
Proof.
  destruct demo_mm_ok as [T I]. pose proof brk_runs as Hok. revert Hok.
  pose proof (set_brk_correct demo_mm T 0x601234 I brk_ok_demo ltac:(clear; split; vm_compute; congruence)) as H.
  destruct (sys_brk 0x601234 demo_mm) as [[x|e|] s']; [|intros [=]|intros [=]]. intros [= ->].
  exists s'. split; [reflexivity|]. destruct H as (_ & _ & Hx & H). split; [exact (eq_sym Hx)|].
  destruct H as [[Hz _]|[_ H]]; [discriminate Hz|]. destruct H as [H _].
  assert (Hb : align_up (m_brk_current demo_mm) PAGE_SIZE <= 0x601233 < align_up 0x601234 PAGE_SIZE) by (clear; split; vm_compute; congruence).
  specialize (H 0x601233 Hb).
  assert (E : is_mapped (vm demo_mm) (m_address_space demo_mm) 0x601233 = false) by (vm_compute; reflexivity).
  rewrite E in H. exact (proj1 H).
Defined.

Lemma mmap_runs : fst (sys_mmap 0 5000 PROT_WRITE (Z.lor MAP_PRIVATE MAP_ANONYMOUS) (Err EBADF) 0 true demo_mm) = Ok 0x100000000000.
Proof. vm_compute. reflexivity. Qed.


(** A machine with one page of the kernel mapped, and a process. *)
Definition kernel_page : Z := 0xFFFFFFFF80100000.
Definition vmk : Vm Pmm := snd (map (s_kernel_space vm1) kernel_page 0x100000 (Z.lor PageFlags_Present PageFlags_Global) vm1).
Definition vmk2 : Vm Pmm := snd (create_user_space true vmk).
Definition victim : Mm Pmm := mkMm vmk2 0x16E000 0x100000000000 0x600000 0x600000.

Lemma vmk_create : fst (create_user_space true vmk) = Ok 0x16E000.
Proof. vm_compute. reflexivity. Qed.

Lemma victim_ok : exists T, mm_ok victim T.
Proof.
  destruct vm1_inv as (T1 & I1 & _).
  assert (Ik : exists T, vm_inv vmk T).
  { pose proof (map_spec_at vm1 T1 (s_kernel_space vm1) kernel_page 0x100000 (Z.lor PageFlags_Present PageFlags_Global) I1
      (vi_kernel _ _ I1) ltac:(clear; split; vm_compute; congruence) eq_refl ltac:(intros [=])) as H.
    unfold own in H. change (256 <=? index_of kernel_page 4) with true in H. cbv iota in H.
    specialize (H ltac:(intros Ht; unfold tracked in Ht; by rewrite Z.eqb_refl in Ht)). unfold vmk.
    destruct (map (s_kernel_space vm1) kernel_page _ _ vm1) as [[u|e|] v]; [| |done]; destruct H as [T H]; exists T; apply H. }
  destruct Ik as [T I]. pose proof vmk_create as Hok. unfold victim, vmk2. revert Hok. pose proof (create_user_space_at vmk T true I) as H.
  destruct (create_user_space true vmk) as [[root|e|] v]; [|done|done]. cbn [fst snd]. intros [= ->].
  eexists. split; [exact (ns_inv _ _ _ _ H)|]. split; cbn.
  - exists 0. rewrite (ns_spaces _ _ _ _ H). apply lookup_insert_eq.
  - rewrite (ns_kernel _ _ _ _ H). apply (copy_not_kernel vmk T 0x16E000 I (ns_new _ _ _ _ H)).
Qed.

Lemma victim_page : exists e, leaf (vm victim) (s_kernel_space (vm victim)) kernel_page = Some (1, e).
Proof. eexists. vm_compute. reflexivity. Qed.

Lemma munmap_reaches_kernel_witness : exists s', sys_munmap kernel_page PAGE_SIZE victim = (Ok 0, s')
  /\ translate (vm s') (s_kernel_space (vm victim)) kernel_page = Err EFAULT.
Proof.
  destruct victim_ok as [T I]. destruct victim_page as [e He].
  destruct (munmap_reaches_kernel victim T kernel_page e I ltac:(clear; split; vm_compute; congruence) eq_refl
    ltac:(clear; vm_compute; congruence) He) as (s' & E & H).
  exists s'. split; [exact E|]. apply H. exact (vi_kernel _ _ (proj1 I)).
Defined.

Lemma demo_page : exists e, leaf (vm demo_mm) (m_address_space demo_mm) 0x400000 = Some (1, e) /\ has_flag e PageFlags_Foreign = false.
Proof. eexists. vm_compute. split; reflexivity. Qed.

Lemma munmap_leaks_witness : exists s' v e, sys_munmap 0x400000 PAGE_SIZE demo_mm = (Ok 0, s')
  /\ destroy_user_mappings (m_address_space s') (vm s') = (Ok tt, v)
  /\ leaf (vm demo_mm) (m_address_space demo_mm) 0x400000 = Some (1, e) /\ fa_owned (frames v) (table_at e).
Proof.
  destruct demo_mm_ok as [T I]. destruct demo_page as (e & He & Hf).
  destruct (munmap_leaks demo_mm T 0x400000 e I ltac:(clear; split; vm_compute; congruence) eq_refl He Hf) as (s' & v & E1 & E2 & Ho & _).
  exists s', v, e. split; [exact E1|]. split; [exact E2|]. split; [exact He|exact Ho].
Defined.

(** ** The direct map and shared mappings

    What the processor lets user code touch: every entry of the walk must carry
    the User bit. *)
Fixpoint user_reaches {F} (v : Vm F) (level : nat) (table address : Z) : bool :=
  match level with
  | O => true
  | S level' =>
      let e := entry_of v table (index_of address (Z.of_nat level)) in
      present e && has_flag e PageFlags_User
      && (has_flag e PageFlags_Huge || user_reaches v level' (table_at e) address)
  end.

(** A machine whose direct map covers the first large page, and a process. *)
Definition vmd : Vm Pmm := snd ((direct_map_page (s_kernel_space vm1) 0 ;! create_user_space true) vm1).
Definition intruder : Mm Pmm := mkMm vmd 0x16D000 0x100000000000 0x600000 0x600000.
Definition any_file : MapFile := mkMapFile true true (fun _ => Ok []) (fun _ _ => Ok 0x9000).

Lemma intruder_space : fst ((direct_map_page (s_kernel_space vm1) 0 ;! create_user_space true) vm1) = Ok (m_address_space intruder).
Proof. vm_compute. reflexivity. Qed.

(** a process that asks for a shared mapping at a fixed address of the direct
    map is refused, but the refusal comes after [ensure_table] has set the User bit
    on the way down: from then on user code reaches the whole large page of
    physical memory behind it. *)
Theorem shared_map_exposes_direct_map :
  let a := phys_to_virt 0x1000 in
  let '(res, s') := sys_mmap a PAGE_SIZE PROT_WRITE (Z.lor MAP_SHARED MAP_FIXED) (Ok any_file) 0 true intruder in
  res = Err EEXIST
  /\ user_reaches (vm intruder) 4 (m_address_space intruder) a = false
  /\ user_reaches (vm s') 4 (m_address_space s') a = true
  /\ translate (vm s') (m_address_space s') a = Ok 0x1000
  /\ match query (vm s') (m_address_space s') a with Ok flags => has_flag flags PageFlags_Writable | _ => false end = true.
Proof. vm_compute. split_and!; reflexivity. Qed.
