(* ===== verification/Heap.v ===== *)
(** * The kernel heap

    kernel/mm/heap.cpp: size-class slabs threaded through their own free chunks,
    whole runs of frames for anything bigger, a header in front of every payload.
    Memory is a function from the virtual address of an eight-byte word to its
    value; a pointer is an address and null is zero. *)

From S2P Require Import Prelude Kstd Words Physical.

(** ** What the heap needs of the frame allocator *)

Definition in_run (a n b : Z) : Prop := exists k, 0 <= k < n /\ b = a + k * PAGE_SIZE.

Class RunAllocator (St : Type) : Type := {
  ra_ok : St -> Prop;
  ra_owned : St -> Z -> Prop;
  ra_page : M St Z;
  ra_run : Z -> M St Z;
  ra_free_run : Z -> Z -> M St unit;
  ra_page_spec : forall st, ra_ok st ->
    match ra_page st with
    | (Ok a, st') => ra_ok st' /\ ~ ra_owned st a /\ forall b, ra_owned st' b <-> b = a \/ ra_owned st b
    | (Err e, st') => st' = st
    | (Panic, _) => False
    end;
  ra_run_spec : forall st n, ra_ok st -> 0 <= n <= 2 ^ 52 ->
    match ra_run n st with
    | (Ok a, st') => 0 < n /\ ra_ok st' /\ (forall b, in_run a n b -> ~ ra_owned st b)
                     /\ forall b, ra_owned st' b <-> in_run a n b \/ ra_owned st b
    | (Err e, st') => st' = st
    | (Panic, _) => False
    end;
  ra_range : forall st a, ra_ok st -> ra_owned st a -> 0 <= a < 2 ^ 46 /\ a mod PAGE_SIZE = 0;
  ra_free_spec : forall st a n, ra_ok st -> 0 < n -> (forall b, in_run a n b -> ra_owned st b) ->
    exists st', ra_free_run a n st = (Ok tt, st') /\ ra_ok st'
      /\ forall b, ra_owned st' b <-> ~ in_run a n b /\ ra_owned st b;
}.

(** ** The state *)

Definition HEADER_MAGIC : Z := 0x53484954.
Definition CLASS_LARGE : Z := 0xFFFF.
Definition SIZE_CLASSES : list Z := [32; 64; 128; 256; 512; 1024; 2048].
Definition CLASS_COUNT : Z := 7.
Definition HEADER_SIZE : Z := 16.
Definition ALIGNED_BUCKETS : Z := 64.

Record Heap (F : Type) := mkHeap {
  h_frames : F;
  h_mem : Z -> Z;
  s_free_lists : list Z;
  s_aligned_buckets : list Z;
  s_bytes_in_use : Z;
  s_bytes_reserved : Z;
  s_allocation_count : Z;
  s_free_count : Z;
  s_initialized : bool;
}.
Arguments mkHeap {F}.
Arguments h_frames {F}.
Arguments h_mem {F}.
Arguments s_free_lists {F}.
Arguments s_aligned_buckets {F}.
Arguments s_bytes_in_use {F}.
Arguments s_bytes_reserved {F}.
Arguments s_allocation_count {F}.
Arguments s_free_count {F}.
Arguments s_initialized {F}.

(** The words of an [AllocationHeader]: magic, class and flags, then the size. *)
Definition header_word (size_class : Z) : Z := HEADER_MAGIC + Z.shiftl size_class 32.
Definition header_magic (w : Z) : Z := Z.land w 0xFFFFFFFF.
Definition header_class (w : Z) : Z := Z.land (Z.shiftr w 32) 0xFFFF.

Definition bucket_of (address : Z) : Z := Z.shiftr address 12 mod ALIGNED_BUCKETS.

Fixpoint class_scan (i : Z) (classes : list Z) (payload_size : Z) : Z :=
  match classes with
  | [] => CLASS_LARGE
  | size :: rest => if u64 (payload_size + HEADER_SIZE) <=? size then i else class_scan (i + 1) rest payload_size
  end.
Definition class_for (payload_size : Z) : Z := class_scan 0 SIZE_CLASSES payload_size.
Arguments class_for : simpl never.

Definition header_of (payload : Z) : Z := payload - HEADER_SIZE.

Section Heap.
Context {F : Type} {RA : RunAllocator F}.
Implicit Types (h : Heap F).

Definition with_frames_of f h : Heap F := mkHeap f (h_mem h) (s_free_lists h) (s_aligned_buckets h) (s_bytes_in_use h)
  (s_bytes_reserved h) (s_allocation_count h) (s_free_count h) (s_initialized h).
Definition with_words m h : Heap F := mkHeap (h_frames h) m (s_free_lists h) (s_aligned_buckets h) (s_bytes_in_use h)
  (s_bytes_reserved h) (s_allocation_count h) (s_free_count h) (s_initialized h).
Definition with_free_lists l h : Heap F := mkHeap (h_frames h) (h_mem h) l (s_aligned_buckets h) (s_bytes_in_use h)
  (s_bytes_reserved h) (s_allocation_count h) (s_free_count h) (s_initialized h).
Definition with_buckets l h : Heap F := mkHeap (h_frames h) (h_mem h) (s_free_lists h) l (s_bytes_in_use h)
  (s_bytes_reserved h) (s_allocation_count h) (s_free_count h) (s_initialized h).
Definition add_in_use n h : Heap F := mkHeap (h_frames h) (h_mem h) (s_free_lists h) (s_aligned_buckets h)
  (u64 (s_bytes_in_use h + n)) (s_bytes_reserved h) (s_allocation_count h) (s_free_count h) (s_initialized h).
Definition add_reserved n h : Heap F := mkHeap (h_frames h) (h_mem h) (s_free_lists h) (s_aligned_buckets h)
  (s_bytes_in_use h) (u64 (s_bytes_reserved h + n)) (s_allocation_count h) (s_free_count h) (s_initialized h).
Definition count_allocation h : Heap F := mkHeap (h_frames h) (h_mem h) (s_free_lists h) (s_aligned_buckets h)
  (s_bytes_in_use h) (s_bytes_reserved h) (u64 (s_allocation_count h + 1)) (s_free_count h) (s_initialized h).
Definition count_free h : Heap F := mkHeap (h_frames h) (h_mem h) (s_free_lists h) (s_aligned_buckets h)
  (s_bytes_in_use h) (s_bytes_reserved h) (s_allocation_count h) (u64 (s_free_count h + 1)) (s_initialized h).

Definition set_word (a w : Z) h : Heap F := with_words (fun x => if x =? a then w else h_mem h x) h.
Definition set_head (c x : Z) h : Heap F := with_free_lists (zset (s_free_lists h) c x) h.

Definition on_heap_frames {A} (m : M F A) : M (Heap F) A := fun h =>
  let (r, f) := m (h_frames h) in (r, with_frames_of f h).

Definition heap_initialize h : Heap F :=
  mkHeap (h_frames h) (h_mem h) (replicate (Z.to_nat CLASS_COUNT) 0) (replicate (Z.to_nat ALIGNED_BUCKETS) 0) 0 0 0 0 true.

(** ** The operations *)

(** Pushing a free chunk: its first word is the link. *)
Definition push_chunk (c chunk : Z) h : Heap F :=
  set_head c chunk (set_word chunk (zget 0 (s_free_lists h) c) h).

Definition refill_class (class_index : Z) : M (Heap F) bool :=
  let! page := mcatch (on_heap_frames ra_page) in
  match page with
  | inr _ => mok false
  | inl page =>
      let base := phys_to_virt page in
      let chunk_size := zget 0 SIZE_CLASSES class_index in
      let chunk_count := PAGE_SIZE / chunk_size in
      mmod (for_up (Z.to_nat chunk_count) 0 (fun i => push_chunk class_index (base + i * chunk_size))) ;!
      mmod (add_reserved PAGE_SIZE) ;!
      mok true
  end.

Definition write_header (header size_class size : Z) h : Heap F :=
  set_word (header + 8) size (set_word header (header_word size_class) h).

Definition kmalloc (size : Z) : M (Heap F) Z :=
  if size =? 0 then mok 0
  else
    let! h := mget in
    if negb (s_initialized h) then mpanic
    else
      let class_index := class_for size in
      if class_index =? CLASS_LARGE then
        let pages := div_round_up (u64 (size + HEADER_SIZE)) PAGE_SIZE in
        let! base := mcatch (on_heap_frames (ra_run pages)) in
        match base with
        | inr _ => mok 0
        | inl base =>
            let header := phys_to_virt base in
            mmod (write_header header CLASS_LARGE size) ;!
            mmod (add_in_use size) ;!
            mmod (add_reserved (pages * PAGE_SIZE)) ;!
            mmod count_allocation ;!
            mok (header + HEADER_SIZE)
        end
      else
        let! refilled := if zget 0 (s_free_lists h) class_index =? 0 then refill_class class_index else mok true in
        if negb refilled then mok 0
        else
          let! h := mget in
          let chunk := zget 0 (s_free_lists h) class_index in
          mmod (fun h => set_head class_index (h_mem h chunk) h) ;!
          mmod (write_header chunk class_index size) ;!
          mmod (add_in_use size) ;!
          mmod count_allocation ;!
          mok (chunk + HEADER_SIZE).

Definition memset_zero (to n : Z) h : Heap F := with_words (zero_words (h_mem h) to n) h.
Definition memcpy (to from n : Z) h : Heap F := with_words (copy_words (h_mem h) to from n) h.

Definition kzalloc (size : Z) : M (Heap F) Z :=
  let! pointer := kmalloc size in
  (if negb (pointer =? 0) then mmod (memset_zero pointer size) else mok tt) ;!
  mok pointer.

Definition kfree (pointer : Z) : M (Heap F) unit :=
  if pointer =? 0 then mok tt
  else
    let! h := mget in
    let header := header_of pointer in
    if negb (header_magic (h_mem h header) =? HEADER_MAGIC) then mpanic
    else
      let payload_size := h_mem h (header + 8) in
      let size_class := header_class (h_mem h header) in
      mmod (set_word header (h_mem h header - HEADER_MAGIC)) ;!
      mmod (add_in_use (- payload_size)) ;!
      mmod count_free ;!
      if size_class =? CLASS_LARGE then
        let pages := div_round_up (u64 (payload_size + HEADER_SIZE)) PAGE_SIZE in
        mmod (add_reserved (- (pages * PAGE_SIZE))) ;!
        on_heap_frames (ra_free_run (virt_to_phys header) pages)
      else if CLASS_COUNT <=? size_class then mpanic
      else mmod (push_chunk size_class header).

Definition krealloc (pointer size : Z) : M (Heap F) Z :=
  if pointer =? 0 then kmalloc size
  else if size =? 0 then kfree pointer ;! mok 0
  else
    let! h := mget in
    if negb (header_magic (h_mem h (header_of pointer)) =? HEADER_MAGIC) then mpanic
    else
      let old_size := h_mem h (header_of pointer + 8) in
      if size <=? old_size then mok pointer
      else
        let! replacement := kmalloc size in
        if replacement =? 0 then mok 0
        else
          mmod (memcpy replacement pointer old_size) ;!
          kfree pointer ;!
          mok replacement.

(** ** Page-aligned allocations

    An [AlignedAllocation] is three words: the address, its pages and the link. *)
Definition kmalloc_aligned (size alignment : Z) : M (Heap F) Z :=
  if size =? 0 then mok 0
  else if alignment <=? HEADER_SIZE then kmalloc size
  else if PAGE_SIZE <? alignment then mpanic
  else
    let pages := div_round_up size PAGE_SIZE in
    let! base := mcatch (on_heap_frames (ra_run pages)) in
    match base with
    | inr _ => mok 0
    | inl base =>
        let address := phys_to_virt base in
        let! record := kmalloc 24 in
        if record =? 0 then on_heap_frames (ra_free_run base pages) ;! mok 0
        else
          let bucket := bucket_of address in
          mmod (fun h => set_word (record + 16) (zget 0 (s_aligned_buckets h) bucket)
                           (set_word (record + 8) pages (set_word record address h))) ;!
          mmod (fun h => with_buckets (zset (s_aligned_buckets h) bucket record) h) ;!
          mmod (add_in_use (pages * PAGE_SIZE)) ;!
          mmod (add_reserved (pages * PAGE_SIZE)) ;!
          mok address
    end.

(** The search along a bucket: the record before the one sought (zero at the head
    of the bucket) and the record itself. *)
Fixpoint find_record (fuel : nat) (m : Z -> Z) (previous record address : Z) : option (Z * Z) :=
  match fuel with
  | O => None
  | S fuel' =>
      if record =? 0 then None
      else if m record =? address then Some (previous, record)
      else find_record fuel' m record (m (record + 16)) address
  end.

Definition kfree_aligned (fuel : nat) (pointer : Z) : M (Heap F) unit :=
  if pointer =? 0 then mok tt
  else
    let! h := mget in
    let bucket := bucket_of pointer in
    match find_record fuel (h_mem h) 0 (zget 0 (s_aligned_buckets h) bucket) pointer with
    | None => mpanic
    | Some (previous, record) =>
        let next := h_mem h (record + 16) in
        let pages := h_mem h (record + 8) in
        mmod (fun h => if previous =? 0 then with_buckets (zset (s_aligned_buckets h) bucket next) h
                       else set_word (previous + 16) next h) ;!
        mmod (add_in_use (- (pages * PAGE_SIZE))) ;!
        mmod (add_reserved (- (pages * PAGE_SIZE))) ;!
        on_heap_frames (ra_free_run (virt_to_phys pointer) pages) ;!
        kfree record
    end.

(** ** Who owns what

    Every page the heap holds is a slab of one class or part of the run of one
    block; so every address belongs to one chunk or block. *)
Inductive Owner := Slab (c : Z) | Run (x : Z).

Definition page_of (a : Z) : Z := a - a mod PAGE_SIZE.
Definition csize (c : Z) : Z := zget 0 SIZE_CLASSES c.

Definition start_of (O : gmap Z Owner) (a : Z) : option Z :=
  match O !! page_of a with
  | Some (Slab c) => Some (a - a mod csize c)
  | Some (Run x) => Some x
  | None => None
  end.

Definition cell (O : gmap Z Owner) (c x : Z) : Prop := O !! page_of x = Some (Slab c) /\ x mod csize c = 0.

Fixpoint chain (m : Z -> Z) (head : Z) (l : list Z) : Prop :=
  match l with
  | [] => head = 0
  | x :: rest => head = x /\ x <> 0 /\ chain m (m x) rest
  end.

Definition run_pages (n : Z) : Z := (n + HEADER_SIZE + PAGE_SIZE - 1) / PAGE_SIZE.

(** A block of [n] bytes whose header is at [x]. *)
Definition block_at h (O : gmap Z Owner) (x n : Z) : Prop :=
  h_mem h x = header_word (class_for n) /\ h_mem h (x + 8) = n
  /\ if class_for n =? CLASS_LARGE
     then x mod PAGE_SIZE = 0 /\ forall k, 0 <= k < run_pages n -> O !! (x + k * PAGE_SIZE) = Some (Run x)
     else cell O (class_for n) x.

Definition size_ok (n : Z) : Prop := 0 < n < 2 ^ 64 - PAGE_SIZE - HEADER_SIZE.

(** [L] is the live payloads with their sizes, [FL] the free chunks by class. *)
Record heap_inv h (L : gmap Z Z) (O : gmap Z Owner) (FL : list (list Z)) : Prop := {
  hi_frames : ra_ok (h_frames h);
  hi_ready : s_initialized h = true;
  hi_pages : forall pg o, O !! pg = Some o -> exists f, pg = phys_to_virt f /\ ra_owned (h_frames h) f;
  hi_class : forall pg c, O !! pg = Some (Slab c) -> 0 <= c < CLASS_COUNT;
  hi_lists : length (s_free_lists h) = Z.to_nat CLASS_COUNT /\ length FL = Z.to_nat CLASS_COUNT;
  hi_chain : forall c, 0 <= c < CLASS_COUNT -> chain (h_mem h) (zget 0 (s_free_lists h) c) (zget [] FL c);
  hi_cell : forall c x, 0 <= c < CLASS_COUNT -> x ∈ zget [] FL c -> cell O c x;
  hi_nodup : forall c, 0 <= c < CLASS_COUNT -> NoDup (zget [] FL c);
  hi_live : forall p n, L !! p = Some n -> size_ok n /\ block_at h O (header_of p) n
    /\ forall c, 0 <= c < CLASS_COUNT -> header_of p ∉ zget [] FL c;
}.

(** ** Sizes *)

Lemma csize_facts c : 0 <= c < CLASS_COUNT ->
  32 <= csize c /\ csize c mod 32 = 0 /\ PAGE_SIZE mod csize c = 0 /\ csize c <= 2048.
Proof.
  intros Hc. unfold CLASS_COUNT in Hc.
  assert (E : c = 0 \/ c = 1 \/ c = 2 \/ c = 3 \/ c = 4 \/ c = 5 \/ c = 6) by lia.
  destruct E as [-> |[-> |[-> |[-> |[-> |[-> | ->]]]]]]; vm_compute; split_and!; congruence.
Qed.

Lemma class_for_cases n : size_ok n ->
  (0 <= class_for n < CLASS_COUNT /\ n + HEADER_SIZE <= csize (class_for n))
  \/ (class_for n = CLASS_LARGE /\ 2048 < n + HEADER_SIZE).
Proof.
  intros Hn. unfold size_ok, PAGE_SIZE, HEADER_SIZE in *. unfold class_for, SIZE_CLASSES. cbn [class_scan].
  rewrite u64_small by (unfold is_u64, HEADER_SIZE; lia). unfold HEADER_SIZE, csize.
  repeat match goal with |- context [?a <=? ?b] => destruct (Z.leb_spec a b); [left; split; [unfold CLASS_COUNT; lia|match goal with |- _ <= ?r => let v := eval vm_compute in r in change r with v end; lia]|] end.
  right. split; [done|lia].
Qed.

Lemma class_not_large c : 0 <= c < CLASS_COUNT -> c <> CLASS_LARGE.
Proof. unfold CLASS_COUNT, CLASS_LARGE. lia. Qed.

Lemma pages_eq n : size_ok n -> div_round_up (u64 (n + HEADER_SIZE)) PAGE_SIZE = run_pages n
  /\ 0 < run_pages n <= 2 ^ 52 /\ n + HEADER_SIZE <= run_pages n * PAGE_SIZE.
Proof.
  intros Hn. unfold size_ok, div_round_up, run_pages, HEADER_SIZE, PAGE_SIZE in *.
  rewrite (u64_small (n + 16)) by (unfold is_u64; lia). rewrite u64_small by (unfold is_u64; lia). split; [f_equal; lia|]. zlia.
Qed.

Lemma header_word_facts c : 0 <= c <= 0xFFFF -> header_magic (header_word c) = HEADER_MAGIC /\ header_class (header_word c) = c.
Proof.
  intros Hc. unfold header_magic, header_class, header_word. change 0xFFFFFFFF with (Z.ones 32). change 0xFFFF with (Z.ones 16).
  rewrite !Z.land_ones by lia. rewrite Z.shiftl_mul_pow2, Z.shiftr_div_pow2 by lia. unfold HEADER_MAGIC. split; zlia.
Qed.

(** ** Chunks and blocks do not overlap *)

Lemma class_cases (P : Z -> Prop) : P 0 -> P 1 -> P 2 -> P 3 -> P 4 -> P 5 -> P 6 -> forall c, 0 <= c < CLASS_COUNT -> P c.
Proof.
  intros H0 H1 H2 H3 H4 H5 H6 c Hc. unfold CLASS_COUNT in Hc.
  assert (E : c = 0 \/ c = 1 \/ c = 2 \/ c = 3 \/ c = 4 \/ c = 5 \/ c = 6) by lia.
  by destruct E as [-> |[-> |[-> |[-> |[-> |[-> | ->]]]]]].
Qed.

Lemma cell_start O c x a : 0 <= c < CLASS_COUNT -> cell O c x -> x <= a < x + csize c ->
  start_of O a = Some x /\ page_of a = page_of x.
Proof.
  intros Hc [Hp Hm] Ha. assert (E : page_of a = page_of x /\ a - a mod csize c = x).
  { clear Hp. revert Hm Ha. unfold page_of, PAGE_SIZE. revert c Hc.
    apply (class_cases (fun c => x mod csize c = 0 -> x <= a < x + csize c ->
      a - a mod 4096 = x - x mod 4096 /\ a - a mod csize c = x));
      match goal with |- context [csize ?c] => let v := eval vm_compute in (csize c) in change (csize c) with v end; intros Hm Ha; zlia. }
  destruct E as [E1 E2]. unfold start_of. rewrite E1, Hp. by rewrite E2.
Qed.

Lemma run_start O x n a : x mod PAGE_SIZE = 0 -> (forall k, 0 <= k < n -> O !! (x + k * PAGE_SIZE) = Some (Run x)) ->
  x <= a < x + n * PAGE_SIZE -> start_of O a = Some x.
Proof.
  intros Hm Hk Ha. unfold start_of. replace (page_of a) with (x + (a - x) / PAGE_SIZE * PAGE_SIZE).
  - by rewrite Hk by (unfold PAGE_SIZE in *; zlia).
  - unfold page_of, PAGE_SIZE in *. zlia.
Qed.

Lemma block_start h O x n a : size_ok n -> block_at h O x n -> x <= a < x + HEADER_SIZE + n -> start_of O a = Some x.
Proof.
  intros Hn (_ & _ & Hb) Ha. destruct (class_for_cases n Hn) as [[Hc Hs]|[Hc Hs]].
  - rewrite (proj2 (Z.eqb_neq _ _) (class_not_large _ Hc)) in Hb.
    eapply cell_start; [exact Hc|exact Hb|lia].
  - rewrite Hc, Z.eqb_refl in Hb. destruct Hb as [Hm Hk]. destruct (pages_eq n Hn) as (_ & _ & Hle).
    apply (run_start O x (run_pages n)); [done|done|lia].
Qed.

Lemma free_start h L O FL c x a : heap_inv h L O FL -> 0 <= c < CLASS_COUNT -> x ∈ zget [] FL c -> x <= a < x + csize c ->
  start_of O a = Some x.
Proof. intros H Hc Hx Ha. by apply (cell_start O c x a Hc (hi_cell _ _ _ _ H c x Hc Hx)). Qed.

Lemma chain_ext m m' head l : (forall x, x ∈ l -> m' x = m x) -> chain m head l -> chain m' head l.
Proof.
  revert head. induction l as [|x l IH]; intros head Hm; [done|]. intros (-> & Hx & Hc). split; [done|]. split; [done|].
  rewrite Hm by by left. apply IH; [|done]. intros y Hy. apply Hm. by right.
Qed.

Lemma block_ext h h' O x n : size_ok n -> block_at h O x n -> (forall a, start_of O a = Some x -> h_mem h' a = h_mem h a) ->
  block_at h' O x n.
Proof.
  intros Hn Hb He. pose proof Hb as (H1 & H2 & H3). split; [|split; [|done]].
  - rewrite He; [done|]. eapply block_start; [done|done|]. unfold HEADER_SIZE, size_ok in *. lia.
  - rewrite He; [done|]. eapply block_start; [done|done|]. unfold HEADER_SIZE, size_ok in *. lia.
Qed.

(** Blocks are where they are, whatever else the pages hold. *)
Lemma block_owner h O O' x n : size_ok n -> block_at h O x n ->
  (forall pg o, O !! pg = Some o -> (forall y, o = Run y -> y = x) -> O' !! pg = Some o) -> block_at h O' x n.
Proof.
  intros Hn (H1 & H2 & H3) He. split; [done|]. split; [done|]. destruct (class_for n =? CLASS_LARGE).
  - destruct H3 as [Hm Hk]. split; [done|]. intros k Hk'. apply He; [by apply Hk|]. by intros y [= ->].
  - destruct H3 as [Hp Hm]. split; [|done]. by apply He.
Qed.

(** ** The steps *)

Lemma inv_core h h' L O FL : heap_inv h L O FL -> h_frames h' = h_frames h -> h_mem h' = h_mem h ->
  s_free_lists h' = s_free_lists h -> s_initialized h' = s_initialized h -> heap_inv h' L O FL.
Proof.
  intros H Ef Em El Ei. destruct H as [H1 H2 H3 H4 H5 H6 H7 H8 H9].
  split; rewrite ?Ef, ?Em, ?El, ?Ei; try done. intros p n Hp. destruct (H9 p n Hp) as (? & ? & ?). split_and!; try done.
  unfold block_at. by rewrite Em.
Qed.

Lemma head_free h L O FL c x rest : heap_inv h L O FL -> 0 <= c < CLASS_COUNT -> zget [] FL c = x :: rest ->
  zget 0 (s_free_lists h) c = x /\ x <> 0 /\ chain (h_mem h) (h_mem h x) rest /\ (x ∉ rest) /\ NoDup rest /\ cell O c x.
Proof.
  intros H Hc Hl. pose proof (hi_chain _ _ _ _ H c Hc) as Hch. pose proof (hi_nodup _ _ _ _ H c Hc) as Hnd.
  rewrite Hl in Hch, Hnd. destruct Hch as (-> & Hx & Hch). apply NoDup_cons in Hnd as [Hn Hnd]. split_and!; try done.
  apply (hi_cell _ _ _ _ H c x Hc). rewrite Hl. by left.
Qed.

(** A chunk is on one list only. *)
Lemma one_list h L O FL c d x : heap_inv h L O FL -> 0 <= c < CLASS_COUNT -> 0 <= d < CLASS_COUNT ->
  x ∈ zget [] FL c -> x ∈ zget [] FL d -> c = d.
Proof.
  intros H Hc Hd Hx Hy. destruct (hi_cell _ _ _ _ H c x Hc Hx) as [E1 _]. destruct (hi_cell _ _ _ _ H d x Hd Hy) as [E2 _].
  rewrite E1 in E2. by injection E2.
Qed.

Lemma cell_self O c x : 0 <= c < CLASS_COUNT -> cell O c x -> start_of O x = Some x.
Proof. intros Hc Hx. apply (cell_start O c x x Hc Hx). pose proof (csize_facts c Hc). lia. Qed.

Lemma zlen_lists h L O FL : heap_inv h L O FL -> zlen (s_free_lists h) = CLASS_COUNT /\ zlen FL = CLASS_COUNT.
Proof. intros H. destruct (hi_lists _ _ _ _ H) as [H1 H2]. unfold zlen. rewrite H1, H2. done. Qed.

Lemma take_chunk h L O FL c x rest n : heap_inv h L O FL -> 0 <= c < CLASS_COUNT -> zget [] FL c = x :: rest ->
  size_ok n -> class_for n = c ->
  let h' := write_header x c n (set_head c (h_mem h x) h) in
  heap_inv h' (<[x + HEADER_SIZE := n]> L) O (zset FL c rest) /\ L !! (x + HEADER_SIZE) = None
  /\ forall a, start_of O a <> Some x -> h_mem h' a = h_mem h a.
Proof.
  intros H Hc Hl Hn Hcl h'. destruct (head_free h L O FL c x rest H Hc Hl) as (Hhd & Hx0 & Hch & Hxr & Hnd & Hcell).
  destruct (zlen_lists h L O FL H) as [Z1 Z2].
  assert (Hx8 : start_of O (x + 8) = Some x /\ start_of O x = Some x).
  { pose proof (csize_facts c Hc). split; apply (cell_start O c x _ Hc Hcell); lia. }
  destruct Hx8 as [Hs8 Hs0].
  assert (Hm : forall a, start_of O a <> Some x -> h_mem h' a = h_mem h a).
  { intros a Ha. cbn. destruct (Z.eqb_spec a (x + 8)) as [->|]; [done|]. destruct (Z.eqb_spec a x) as [->|]; done. }
  assert (Hxc : x ∈ zget [] FL c) by (rewrite Hl; by left).
  assert (Hlive : forall p m, L !! p = Some m -> header_of p <> x).
  { intros p m Hp E. destruct (hi_live _ _ _ _ H p m Hp) as (_ & _ & Hnot). apply (Hnot c Hc). by rewrite E. }
  split; [|split; [|exact Hm]].
  2:{ destruct (L !! (x + HEADER_SIZE)) as [m|] eqn:E; [|done]. destruct (Hlive _ _ E). unfold header_of. lia. }
  assert (Hget : forall d, 0 <= d < CLASS_COUNT -> zget [] (zset FL c rest) d = if decide (d = c) then rest else zget [] FL d).
  { intros d Hd. case_decide as E; [subst d; apply zget_zset_eq; lia|apply zget_zset_ne; lia]. }
  split; [apply H|apply H|apply H|apply H| | | | |].
  - cbn. rewrite length_zset. rewrite (length_zset FL). apply H.
  - intros d Hd. rewrite Hget by done. cbn [h' write_header set_word with_words s_free_lists set_head with_free_lists].
    case_decide as E.
    + subst d. rewrite zget_zset_eq by lia. apply (chain_ext (h_mem h)); [|done]. intros y Hy. apply Hm.
      rewrite (free_start h L O FL c y y H Hc); [intros [= ->]; done|rewrite Hl; by right|pose proof (csize_facts c Hc); lia].
    + rewrite zget_zset_ne by lia. apply (chain_ext (h_mem h)); [|by apply H]. intros y Hy. apply Hm.
      rewrite (free_start h L O FL d y y H Hd Hy) by (pose proof (csize_facts d Hd); lia). intros [= ->].
      by apply E, (one_list h L O FL d c x H Hd Hc).
  - intros d y Hd. rewrite Hget by done. case_decide as E; [subst d|by apply H]. intros Hy. apply H; [done|]. rewrite Hl. by right.
  - intros d Hd. rewrite Hget by done. case_decide; [done|by apply H].
  - intros p m Hp. apply lookup_insert_Some in Hp as [[<- <-]|[Hne Hp]].
    + unfold header_of. replace (x + HEADER_SIZE - HEADER_SIZE) with x by lia. split; [done|]. split.
      * split; [rewrite Hcl; cbn; by rewrite (proj2 (Z.eqb_neq x (x + 8))), Z.eqb_refl by lia|]. split; [cbn; by rewrite Z.eqb_refl|].
        rewrite Hcl, (proj2 (Z.eqb_neq _ _) (class_not_large c Hc)). done.
      * intros d Hd. rewrite Hget by done. case_decide as E; [done|]. intros Hy. by apply E, (one_list h L O FL d c x H Hd Hc).
    + destruct (hi_live _ _ _ _ H p m Hp) as (Hmn & Hb & Hnot). split; [done|]. split.
      * apply (block_ext h h' O _ m Hmn Hb). intros a Ha. apply Hm. rewrite Ha. intros [= E]. by apply (Hlive p m Hp).
      * intros d Hd. rewrite Hget by done. case_decide as E; [|by apply Hnot]. subst d. intros Hy. apply (Hnot c Hc). rewrite Hl. by right.
Qed.

(** The chunks of a page, last first. *)
Fixpoint chunks (base size : Z) (k : nat) : list Z :=
  match k with
  | O => []
  | S k' => base + Z.of_nat k' * size :: chunks base size k'
  end.

Lemma chunks_elem base size k x : x ∈ chunks base size k <-> exists i, (i < k)%nat /\ x = base + Z.of_nat i * size.
Proof.
  induction k as [|k IH]; cbn [chunks].
  - split; [by intros ?%elem_of_nil|intros (i & Hi & _); lia].
  - rewrite elem_of_cons, IH. split.
    + intros [->|(i & Hi & ->)]; [exists k|exists i]; split; lia || done.
    + intros (i & Hi & ->). destruct (decide (i = k)) as [->|]; [by left|right]. exists i. split; [lia|done].
Qed.

Lemma chunks_nodup base size k : 0 < size -> NoDup (chunks base size k).
Proof.
  intros Hs. induction k as [|k IH]; cbn [chunks]; constructor; [|done]. rewrite chunks_elem. intros (i & Hi & E). nia.
Qed.

Record pushed h h' (c base size : Z) (k : nat) : Prop := {
  pu_frames : h_frames h' = h_frames h;
  pu_ready : s_initialized h' = s_initialized h;
  pu_length : length (s_free_lists h') = length (s_free_lists h);
  pu_other : forall d, 0 <= d -> d <> c -> zget 0 (s_free_lists h') d = zget 0 (s_free_lists h) d;
  pu_mem : forall a, a ∉ chunks base size k -> h_mem h' a = h_mem h a;
  pu_chain : chain (h_mem h') (zget 0 (s_free_lists h') c) (chunks base size k);
}.

Lemma push_chunks h c base size k : 0 <= c < zlen (s_free_lists h) -> zget 0 (s_free_lists h) c = 0 -> 0 < base -> 0 < size ->
  pushed h (for_up k 0 (fun i => push_chunk c (base + i * size)) h) c base size k.
Proof.
  intros Hc Hz Hb Hs.
  pose proof (for_up_ind (fun i h' => pushed h h' c base size (Z.to_nat i)) (fun i => push_chunk c (base + i * size)) k 0 h) as H.
  cbv beta in H. replace (Z.to_nat (0 + Z.of_nat k)) with k in H by lia. apply H; clear H.
  - by split.
  - intros i h' Hi P. replace (Z.to_nat (i + 1)) with (S (Z.to_nat i)) by lia.
    assert (Ec : chunks base size (S (Z.to_nat i)) = base + i * size :: chunks base size (Z.to_nat i)) by (cbn [chunks]; by rewrite Z2Nat.id by lia).
    assert (Hl : zlen (s_free_lists h') = zlen (s_free_lists h)) by (unfold zlen; by rewrite (pu_length _ _ _ _ _ _ P)).
    assert (Hnew : base + i * size ∉ chunks base size (Z.to_nat i)) by (rewrite chunks_elem; intros (j & Hj & E); nia).
    split; [apply P|apply P|cbn; rewrite length_zset; apply P| | |].
    + intros d Hd Hne. cbn. rewrite zget_zset_ne by lia. by apply P.
    + intros a Ha. rewrite Ec in Ha. cbn. apply not_elem_of_cons in Ha as [Ha1 Ha2]. rewrite (proj2 (Z.eqb_neq _ _) Ha1). by apply P.
    + rewrite Ec. cbn. rewrite zget_zset_eq by lia. split; [done|]. split; [nia|]. rewrite Z.eqb_refl.
      apply (chain_ext (h_mem h')); [|apply P]. intros x Hx. rewrite (proj2 (Z.eqb_neq _ _)); [done|]. intros ->. done.
Qed.

(** ** Fresh pages *)

Lemma virt_facts st f : ra_ok st -> ra_owned st f -> phys_to_virt f = HHDM_BASE + f /\ phys_to_virt f mod PAGE_SIZE = 0
  /\ 0 < phys_to_virt f < 2 ^ 64 - PAGE_SIZE /\ virt_to_phys (phys_to_virt f) = f.
Proof.
  intros Hok Ho. destruct (ra_range st f Hok Ho) as [Hr Hm]. unfold phys_to_virt, virt_to_phys, HHDM_BASE, PAGE_SIZE in *.
  rewrite u64_small by (unfold is_u64; lia). rewrite u64_small by (unfold is_u64; lia). split_and!; zlia.
Qed.

Lemma fresh_page h L O FL f st' : heap_inv h L O FL -> ra_ok st' -> ra_owned st' f -> ~ ra_owned (h_frames h) f ->
  O !! phys_to_virt f = None.
Proof.
  intros H Hok Ho Hn. destruct (O !! phys_to_virt f) as [o|] eqn:E; [|done]. exfalso.
  destruct (hi_pages _ _ _ _ H _ _ E) as (g & Hg & Hog).
  destruct (virt_facts st' f Hok Ho) as (_ & _ & _ & Ef). destruct (virt_facts _ g (hi_frames _ _ _ _ H) Hog) as (_ & _ & _ & Eg).
  rewrite Hg, Eg in Ef. by subst g.
Qed.

(** Pages taken from nobody change no chunk or block. *)
Lemma start_of_more O O' a : O ⊆ O' -> forall x, start_of O a = Some x -> start_of O' a = Some x.
Proof.
  intros Hs x. unfold start_of. destruct (O !! page_of a) as [o|] eqn:E; [|done]. by rewrite (lookup_weaken _ _ _ _ E Hs).
Qed.

Lemma chunk_page c base x : 0 <= c < CLASS_COUNT -> base mod PAGE_SIZE = 0 ->
  x ∈ chunks base (csize c) (Z.to_nat (PAGE_SIZE / csize c)) -> page_of x = base /\ x mod csize c = 0.
Proof.
  intros Hc Hb Hx. apply chunks_elem in Hx as (i & Hi & ->). revert Hi. unfold page_of, PAGE_SIZE in *. revert c Hc.
  apply (class_cases (fun c => (i < Z.to_nat (4096 / csize c))%nat ->
    base + Z.of_nat i * csize c - (base + Z.of_nat i * csize c) mod 4096 = base /\ (base + Z.of_nat i * csize c) mod csize c = 0));
    match goal with |- context [csize ?c] => let v := eval vm_compute in (csize c) in change (csize c) with v end;
    match goal with |- context [Z.to_nat ?e] => let v := eval vm_compute in e in change e with v end; intros Hi; zlia.
Qed.

Lemma chunk_count c : 0 <= c < CLASS_COUNT -> exists k, Z.to_nat (PAGE_SIZE / csize c) = S k.
Proof.
  intros Hc. pose proof (csize_facts c Hc) as Hf. exists (Nat.pred (Z.to_nat (PAGE_SIZE / csize c))).
  assert (1 <= PAGE_SIZE / csize c) by (apply Z.div_le_lower_bound; unfold PAGE_SIZE; lia). lia.
Qed.

Lemma refill_spec h L O FL c : heap_inv h L O FL -> 0 <= c < CLASS_COUNT -> zget [] FL c = [] ->
  match refill_class c h with
  | (Ok true, h') => exists O' x l, O ⊆ O' /\ heap_inv h' L O' (zset FL c (x :: l))
      /\ forall a, is_Some (start_of O a) -> h_mem h' a = h_mem h a
  | (Ok false, h') => heap_inv h' L O FL /\ h_mem h' = h_mem h
  | _ => False
  end.
Proof.
  intros H Hc Hl. unfold refill_class, mtry at 1, mcatch, on_heap_frames.
  pose proof (ra_page_spec (h_frames h) (hi_frames _ _ _ _ H)) as Hp.
  destruct (ra_page (h_frames h)) as [[f|e|] st]; [| |done].
  2:{ subst st. split; [|done]. by apply (inv_core h). }
  destruct Hp as (Hok & Hno & Hown). assert (Hof : ra_owned st f) by (apply Hown; by left).
  destruct (virt_facts st f Hok Hof) as (_ & Hpm & Hpr & _). pose proof (fresh_page h L O FL f st H Hok Hof Hno) as Hfresh.
  set (pg := phys_to_virt f) in *. destruct (zlen_lists h L O FL H) as [Z1 Z2]. destruct (csize_facts c Hc) as (Hs1 & _).
  assert (Hz : zget 0 (s_free_lists h) c = 0) by (pose proof (hi_chain _ _ _ _ H c Hc) as Hch; by rewrite Hl in Hch).
  fold (csize c). set (k := Z.to_nat (PAGE_SIZE / csize c)).
  pose proof (push_chunks (with_frames_of st h) c pg (csize c) k ltac:(cbn; lia) Hz ltac:(lia) ltac:(lia)) as P.
  unfold mtry, mmod, mok. set (h1 := for_up k 0 _ (with_frames_of st h)) in *. clearbody h1.
  destruct (chunk_count c Hc) as [k' Hk']. fold k in Hk'.
  assert (Hmem : forall a, is_Some (start_of O a) -> h_mem h1 a = h_mem h a).
  { intros a [y Hy]. rewrite (pu_mem _ _ _ _ _ _ P); [done|]. intros Ha. destruct (chunk_page c pg a Hc Hpm Ha) as [E _].
    unfold start_of in Hy. by rewrite E, Hfresh in Hy. }
  assert (Hsub : O ⊆ <[pg := Slab c]> O) by by apply insert_subseteq.
  exists (<[pg := Slab c]> O), (pg + Z.of_nat k' * csize c), (chunks pg (csize c) k'). split; [done|]. split; [|exact Hmem].
  change (pg + Z.of_nat k' * csize c :: chunks pg (csize c) k') with (chunks pg (csize c) (S k')). rewrite <- Hk'.
  apply (inv_core h1); [|done..].
  assert (Hget : forall d, 0 <= d < CLASS_COUNT -> zget [] (zset FL c (chunks pg (csize c) k)) d = if decide (d = c) then chunks pg (csize c) k else zget [] FL d).
  { intros d Hd. case_decide as E; [subst d; apply zget_zset_eq; lia|apply zget_zset_ne; lia]. }
  assert (Hcells : forall d y, 0 <= d < CLASS_COUNT -> y ∈ zget [] FL d -> cell O d y) by apply H.
  split.
  - rewrite (pu_frames _ _ _ _ _ _ P). exact Hok.
  - rewrite (pu_ready _ _ _ _ _ _ P). apply H.
  - intros q o Hq. rewrite (pu_frames _ _ _ _ _ _ P). apply lookup_insert_Some in Hq as [[<- _]|[_ Hq]]; [by exists f|].
    destruct (hi_pages _ _ _ _ H q o Hq) as (g & -> & Hg). exists g. split; [done|]. apply Hown. by right.
  - intros q d Hq. apply lookup_insert_Some in Hq as [[_ [= <-]]|[_ Hq]]; [done|by apply (hi_class _ _ _ _ H q)].
  - rewrite (pu_length _ _ _ _ _ _ P), length_zset. apply H.
  - intros d Hd. rewrite Hget by done. case_decide as E; [subst d; apply P|].
    rewrite (pu_other _ _ _ _ _ _ P) by lia. apply (chain_ext (h_mem h)); [|by apply H].
    intros y Hy. apply Hmem. exists y. by apply (cell_self O d y Hd), Hcells.
  - intros d y Hd. rewrite Hget by done. case_decide as E.
    + subst d. intros Hy. destruct (chunk_page c pg y Hc Hpm Hy) as [E1 E2]. split; [rewrite E1; apply lookup_insert_eq|done].
    + intros Hy. destruct (Hcells d y Hd Hy) as [E1 E2]. split; [exact (lookup_weaken _ _ _ _ E1 Hsub)|done].
  - intros d Hd. rewrite Hget by done. case_decide; [apply chunks_nodup; lia|by apply H].
  - intros p n Hp. destruct (hi_live _ _ _ _ H p n Hp) as (Hn & Hb & Hnot). split; [done|]. split.
    + apply (block_owner h1 O); [done| |intros q o Hq _; exact (lookup_weaken _ _ _ _ Hq Hsub)].
      apply (block_ext h); [done|done|]. intros a Ha. apply Hmem. by rewrite Ha.
    + intros d Hd. rewrite Hget by done. case_decide as E; [|by apply Hnot]. subst d. intros Hy.
      destruct (chunk_page c pg _ Hc Hpm Hy) as [E _]. assert (Hs : start_of O (header_of p) = Some (header_of p)).
      { apply (block_start h O _ n); [done|done|]. unfold size_ok, HEADER_SIZE in *. lia. }
      unfold start_of in Hs. by rewrite E, Hfresh in Hs.
Qed.

(** ** Runs of pages *)

Definition run_map (x n : Z) : gmap Z Owner :=
  list_to_map ((fun k => (x + Z.of_nat k * PAGE_SIZE, Run x)) <$> seq 0 (Z.to_nat n)).

Lemma run_map_lookup x n pg o : run_map x n !! pg = Some o <-> o = Run x /\ in_run x n pg.
Proof.
  unfold run_map. rewrite <- elem_of_list_to_map.
  - rewrite list_elem_of_fmap. unfold in_run. split.
    + intros (k & [= -> ->] & Hk). apply elem_of_seq in Hk. split; [done|]. exists (Z.of_nat k). split; [lia|done].
    + intros (-> & k & Hk & ->). exists (Z.to_nat k). rewrite Z2Nat.id by lia. split; [done|]. apply elem_of_seq. lia.
  - rewrite <- list_fmap_compose. apply NoDup_fmap_2_strong; [|apply NoDup_seq]. intros a b _ _. cbn. unfold PAGE_SIZE. lia.
Qed.

Lemma take_run h L O FL n base st' : heap_inv h L O FL -> size_ok n -> class_for n = CLASS_LARGE -> ra_ok st' ->
  (forall b, in_run base (run_pages n) b -> ~ ra_owned (h_frames h) b) ->
  (forall b, ra_owned st' b <-> in_run base (run_pages n) b \/ ra_owned (h_frames h) b) ->
  let x := phys_to_virt base in
  let h' := write_header x CLASS_LARGE n (with_frames_of st' h) in
  exists O', O ⊆ O' /\ heap_inv h' (<[x + HEADER_SIZE := n]> L) O' FL /\ L !! (x + HEADER_SIZE) = None /\ x <> 0
    /\ x mod PAGE_SIZE = 0 /\ O' !! x = Some (Run x) /\ O !! x = None
    /\ forall a, is_Some (start_of O a) -> h_mem h' a = h_mem h a.
Proof.
  intros H Hn Hcl Hok Hno Hown x h'. destruct (pages_eq n Hn) as (_ & Hpg & Hfit).
  assert (Hin : forall k, 0 <= k < run_pages n -> ra_owned st' (base + k * PAGE_SIZE) /\ ~ ra_owned (h_frames h) (base + k * PAGE_SIZE)).
  { intros k Hk. assert (Hr : in_run base (run_pages n) (base + k * PAGE_SIZE)) by by exists k. split; [apply Hown; by left|by apply Hno]. }
  assert (Hvirt : forall k, 0 <= k < run_pages n -> phys_to_virt (base + k * PAGE_SIZE) = x + k * PAGE_SIZE).
  { intros k Hk. destruct (virt_facts st' _ Hok (proj1 (Hin k Hk))) as (-> & _).
    pose proof (proj1 (Hin 0 ltac:(lia))) as H0. rewrite Z.mul_0_l, Z.add_0_r in H0.
    destruct (virt_facts st' _ Hok H0) as (E & _). unfold x. rewrite E. lia. }
  assert (Hx : x mod PAGE_SIZE = 0 /\ 0 < x < 2 ^ 64 - PAGE_SIZE).
  { pose proof (proj1 (Hin 0 ltac:(lia))) as H0. rewrite Z.mul_0_l, Z.add_0_r in H0. destruct (virt_facts st' _ Hok H0) as (_ & ? & ? & _). done. }
  assert (Hfresh : forall pg, in_run x (run_pages n) pg -> O !! pg = None).
  { intros pg (k & Hk & ->). rewrite <- Hvirt by done. destruct (Hin k Hk). by apply (fresh_page h L O FL _ st'). }
  assert (Hsub : O ⊆ run_map x (run_pages n) ∪ O).
  { apply map_union_subseteq_r. apply map_disjoint_spec. intros pg o o' H1 H2. apply run_map_lookup in H1 as [_ H1]. by rewrite Hfresh in H2. }
  assert (Hself : in_run x (run_pages n) x) by (exists 0; split; lia).
  assert (Hmem : forall a, is_Some (start_of O a) -> h_mem h' a = h_mem h a).
  { intros a [y Hy]. cbn. assert (Hpa : page_of a <> x) by (intros E; unfold start_of in Hy; by rewrite E, Hfresh in Hy).
    unfold page_of, PAGE_SIZE in *. destruct Hx as [Hx _]. rewrite !(proj2 (Z.eqb_neq _ _)) by (intros ->; apply Hpa; zlia). done. }
  assert (Hstart : forall a, is_Some (start_of O a) -> page_of a <> x).
  { intros a [y Hy] E. unfold start_of in Hy. by rewrite E, Hfresh in Hy. }
  assert (Hlive : forall p m, L !! p = Some m -> start_of O (header_of p) = Some (header_of p)).
  { intros p m Hp. destruct (hi_live _ _ _ _ H p m Hp) as (Hmn & Hb & _). apply (block_start h O _ m _ Hmn Hb). unfold size_ok, HEADER_SIZE in *. lia. }
  exists (run_map x (run_pages n) ∪ O). split; [done|]. split; [|split_and!].
  2:{ destruct (L !! (x + HEADER_SIZE)) as [m|] eqn:E; [|done]. destruct (Hstart (header_of (x + HEADER_SIZE))); [rewrite (Hlive _ _ E); by eexists|].
      unfold header_of, page_of, HEADER_SIZE, PAGE_SIZE in *. zlia. }
  2:{ lia. }
  2:{ apply Hx. }
  2:{ apply lookup_union_Some_l. by apply run_map_lookup. }
  2:{ by apply Hfresh. }
  2:{ exact Hmem. }
  split.
  - exact Hok.
  - apply H.
  - intros pg o Hp. apply lookup_union_Some_raw in Hp as [Hp|[_ Hp]].
    + apply run_map_lookup in Hp as (_ & k & Hk & ->). exists (base + k * PAGE_SIZE). rewrite Hvirt by done. split; [done|]. by apply Hin.
    + destruct (hi_pages _ _ _ _ H pg o Hp) as (f & -> & Hf). exists f. split; [done|]. apply Hown. by right.
  - intros pg c Hp. apply lookup_union_Some_raw in Hp as [Hp|[_ Hp]]; [by apply run_map_lookup in Hp as [[=] _]|by apply (hi_class _ _ _ _ H pg)].
  - apply H.
  - intros d Hd. apply (chain_ext (h_mem h)); [|by apply H]. intros y Hy. apply Hmem. exists y.
    apply (cell_self O d y Hd). by apply (hi_cell _ _ _ _ H).
  - intros d y Hd Hy. destruct (hi_cell _ _ _ _ H d y Hd Hy) as [E1 E2]. split; [exact (lookup_weaken _ _ _ _ E1 Hsub)|done].
  - apply H.
  - intros p m Hp. apply lookup_insert_Some in Hp as [[<- <-]|[Hne Hp]].
    + unfold header_of. replace (x + HEADER_SIZE - HEADER_SIZE) with x by lia. split; [done|]. split.
      * split; [rewrite Hcl; cbn; by rewrite (proj2 (Z.eqb_neq x (x + 8))), Z.eqb_refl by lia|]. split; [cbn; by rewrite Z.eqb_refl|].
        rewrite Hcl, Z.eqb_refl. split; [apply Hx|]. intros k Hk. apply lookup_union_Some_l, run_map_lookup. split; [done|]. by exists k.
      * intros d Hd Hy. destruct (hi_cell _ _ _ _ H d x Hd Hy) as [E1 _]. apply (Hstart x).
        -- exists x. apply (cell_self O d x Hd). by apply (hi_cell _ _ _ _ H).
        -- unfold page_of. destruct Hx as [-> _]. lia.
    + destruct (hi_live _ _ _ _ H p m Hp) as (Hmn & Hb & Hnot). split; [done|]. split; [|done].
      apply (block_owner h' O); [done| |intros q o Hq _; exact (lookup_weaken _ _ _ _ Hq Hsub)].
      apply (block_ext h); [done|done|]. intros a Ha. apply Hmem. by rewrite Ha.
Qed.

(** ** Allocation *)

Record allocated h (L : gmap Z Z) (O : gmap Z Owner) h' (O' : gmap Z Owner) (p n : Z) : Prop := {
  al_inv : exists FL', heap_inv h' (<[p := n]> L) O' FL';
  al_new : L !! p = None;
  al_pointer : p <> 0 /\ p mod 16 = 0;
  al_owner : forall a y, start_of O a = Some y -> start_of O' a = Some y;
  al_mem : forall q m a, L !! q = Some m -> start_of O a = Some (header_of q) -> h_mem h' a = h_mem h a;
}.

Lemma small_block h L O FL n h' : heap_inv h L O FL -> size_ok n -> 0 <= class_for n < CLASS_COUNT ->
  forall x rest, zget [] FL (class_for n) = x :: rest ->
  h' = count_allocation (add_in_use n (write_header x (class_for n) n (set_head (class_for n) (h_mem h x) h))) ->
  allocated h L O h' O (x + HEADER_SIZE) n.
Proof.
  intros H Hn Hc x rest Hl ->. destruct (take_chunk h L O FL (class_for n) x rest n H Hc Hl Hn eq_refl) as (H1 & H2 & H3).
  destruct (head_free h L O FL _ x rest H Hc Hl) as (_ & Hx0 & _ & _ & _ & Hp & Hm).
  destruct (csize_facts _ Hc) as (_ & H32 & _).
  assert (Hx : 0 < x /\ x mod 32 = 0).
  { destruct (hi_pages _ _ _ _ H _ _ Hp) as (f & Hf & Hof). destruct (virt_facts _ f (hi_frames _ _ _ _ H) Hof) as (_ & _ & Hr & _).
    rewrite <- Hf in Hr. split; [unfold page_of, PAGE_SIZE in *; zlia|].
    assert (E : x = csize (class_for n) / 32 * 32 * (x / csize (class_for n))).
    { pose proof (Z.div_mod x (csize (class_for n))) as Ed. pose proof (Z.div_mod (csize (class_for n)) 32) as Ec.
      destruct (csize_facts _ Hc) as (Hs & _). specialize (Ed ltac:(lia)). specialize (Ec ltac:(lia)). rewrite Hm in Ed. rewrite H32 in Ec.
      replace (csize (class_for n) / 32 * 32) with (csize (class_for n)) by lia. lia. }
    rewrite E. replace (csize (class_for n) / 32 * 32 * (x / csize (class_for n))) with (csize (class_for n) / 32 * (x / csize (class_for n)) * 32) by lia.
    apply Z_mod_mult. }
  split.
  - eexists. eapply inv_core; [exact H1|done..].
  - exact H2.
  - unfold HEADER_SIZE. split; [lia|zlia].
  - done.
  - intros q m a Hq Ha. apply H3. rewrite Ha. intros [= E]. destruct (hi_live _ _ _ _ H q m Hq) as (_ & _ & Hnot).
    apply (Hnot (class_for n) Hc). rewrite Hl, E. by left.
Qed.

Lemma kmalloc_at h L O FL n : heap_inv h L O FL -> size_ok n ->
  exists p h', kmalloc n h = (Ok p, h') /\
    (p = 0 /\ heap_inv h' L O FL /\ h_mem h' = h_mem h \/ exists O', allocated h L O h' O' p n).
Proof.
  intros H Hn. unfold kmalloc. rewrite (proj2 (Z.eqb_neq n 0)) by (unfold size_ok in Hn; lia).
  unfold mtry at 1, mget at 1. rewrite (hi_ready _ _ _ _ H). cbn [negb]. cbv zeta.
  destruct (class_for_cases n Hn) as [[Hc Hs]|[Hc Hs]].
  - rewrite (proj2 (Z.eqb_neq _ _) (class_not_large _ Hc)).
    pose proof (hi_chain _ _ _ _ H _ Hc) as Hch. destruct (zget [] FL (class_for n)) as [|x rest] eqn:El.
    + cbn in Hch. rewrite Hch. cbn [Z.eqb]. unfold mtry at 1. pose proof (refill_spec h L O FL (class_for n) H Hc El) as Hr.
      destruct (refill_class (class_for n) h) as [[[|]|e|] h1]; try done; cbn [negb].
      * destruct Hr as (O' & x & l & Hsub & I1 & Hm). unfold mtry, mget, mmod, mok.
        destruct (zlen_lists h L O FL H) as [_ Z2].
        assert (El1 : zget [] (zset FL (class_for n) (x :: l)) (class_for n) = x :: l) by (apply zget_zset_eq; lia).
        destruct (head_free h1 L O' _ _ x l I1 Hc El1) as (Hhd & _). rewrite Hhd.
        exists (x + HEADER_SIZE). eexists. split; [reflexivity|]. right. exists O'.
        pose proof (small_block h1 L O' _ n _ I1 Hn Hc x l El1 eq_refl) as A. split; [apply A|apply A|apply A| |].
        -- intros a y Ha. apply A. by apply (start_of_more O O' a Hsub).
        -- intros q m a Hq Ha. rewrite (al_mem _ _ _ _ _ _ _ A q m a Hq); [apply Hm; by rewrite Ha|].
           by apply (start_of_more O O' a Hsub).
      * destruct Hr as [I1 Hm]. exists 0, h1. split; [done|]. by left.
    + destruct Hch as (Hhd & Hx0 & Hch). rewrite (proj2 (Z.eqb_neq _ 0)) by congruence. unfold mtry, mget, mmod, mok. cbn [negb]. rewrite Hhd.
      exists (x + HEADER_SIZE). eexists. split; [reflexivity|]. right. exists O.
      exact (small_block h L O FL n _ H Hn Hc x rest El eq_refl).
  - rewrite Hc, Z.eqb_refl. destruct (pages_eq n Hn) as (Hpe & Hpr & _). rewrite Hpe.
    unfold mtry at 1, mcatch, on_heap_frames. pose proof (ra_run_spec (h_frames h) (run_pages n) (hi_frames _ _ _ _ H) ltac:(lia)) as Hr.
    destruct (ra_run (run_pages n) (h_frames h)) as [[base|e|] st]; [| |done].
    + destruct Hr as (_ & Hok & Hno & Hown). destruct (take_run h L O FL n base st H Hn Hc Hok Hno Hown) as (O' & Hsub & I1 & Hnew & Hx0 & Hxm & _ & _ & Hm).
      unfold mtry, mmod, mok. exists (phys_to_virt base + HEADER_SIZE). eexists. split; [reflexivity|]. right. exists O'.
      assert (Hpos : 0 < phys_to_virt base).
      { assert (Ho : ra_owned st base) by (apply Hown; left; exists 0; split; lia). destruct (virt_facts st base Hok Ho) as (_ & _ & ? & _). lia. }
      split; [|done| | |].
      * exists FL. eapply inv_core; [exact I1|done..].
      * unfold HEADER_SIZE, PAGE_SIZE in *. split; [lia|zlia].
      * intros a y Ha. by apply (start_of_more O O' a Hsub).
      * intros q m a Hq Ha. cbn in Hm |- *. apply Hm. by rewrite Ha.
    + subst st. exists 0. eexists. split; [reflexivity|]. left. split; [done|]. split; [|done]. by apply (inv_core h).
Qed.

(** ** Freeing *)

Record released h (L : gmap Z Z) (O : gmap Z Owner) h' (p : Z) : Prop := {
  re_inv : exists O' FL', heap_inv h' (delete p L) O' FL'
    /\ forall a q m, L !! q = Some m -> q <> p -> start_of O a = Some (header_of q) -> start_of O' a = Some (header_of q);
  re_mem : forall q m a, L !! q = Some m -> q <> p -> start_of O a = Some (header_of q) -> h_mem h' a = h_mem h a;
  re_magic : header_magic (h_mem h' (header_of p)) <> HEADER_MAGIC;
}.

Lemma live_header h L O FL p n : heap_inv h L O FL -> L !! p = Some n ->
  header_magic (h_mem h (header_of p)) = HEADER_MAGIC /\ header_class (h_mem h (header_of p)) = class_for n
  /\ h_mem h (header_of p + 8) = n /\ start_of O (header_of p) = Some (header_of p).
Proof.
  intros H Hp. destruct (hi_live _ _ _ _ H p n Hp) as (Hn & Hb & _). pose proof Hb as (H1 & H2 & _).
  assert (Hc : 0 <= class_for n <= 0xFFFF).
  { destruct (class_for_cases n Hn) as [[Hc _]|[-> _]]; unfold CLASS_COUNT, CLASS_LARGE in *; lia. }
  destruct (header_word_facts _ Hc) as [E1 E2]. rewrite H1. split_and!; [done|done|done|].
  apply (block_start h O _ n _ Hn Hb). unfold size_ok, HEADER_SIZE in *. lia.
Qed.

Lemma chunk_aligned h L O FL c x : heap_inv h L O FL -> 0 <= c < CLASS_COUNT -> cell O c x -> x mod 32 = 0 /\ 0 < x.
Proof.
  intros H Hc [Hp Hm]. destruct (hi_pages _ _ _ _ H _ _ Hp) as (f & Hf & Hof).
  destruct (virt_facts _ f (hi_frames _ _ _ _ H) Hof) as (_ & _ & Hr & _). rewrite <- Hf in Hr.
  split; [|unfold page_of, PAGE_SIZE in *; zlia]. revert Hm. clear - Hc. revert c Hc. apply (class_cases (fun c => x mod csize c = 0 -> x mod 32 = 0));
    match goal with |- context [csize ?c] => let v := eval vm_compute in (csize c) in change (csize c) with v end; intros Hm; zlia.
Qed.

(** A chunk that is free does not look allocated. *)
Lemma free_magic h L O FL c x : heap_inv h L O FL -> 0 <= c < CLASS_COUNT -> x ∈ zget [] FL c ->
  header_magic (h_mem h x) <> HEADER_MAGIC.
Proof.
  intros H Hc Hx. pose proof (hi_chain _ _ _ _ H c Hc) as Hch.
  assert (Hal : forall y, y ∈ zget [] FL c -> y mod 32 = 0) by (intros y Hy; by apply (chunk_aligned h L O FL c y H Hc), (hi_cell _ _ _ _ H)).
  assert (Hn : h_mem h x mod 32 = 0).
  { revert Hch Hx Hal. generalize (zget [] FL c) as l, (zget 0 (s_free_lists h) c) as hd. intros l. induction l as [|y l IH]; intros hd Hch Hx Hal; [by apply elem_of_nil in Hx|].
    destruct Hch as (_ & _ & Hch). apply elem_of_cons in Hx as [->|Hx]; [|by apply (IH (h_mem h y)); [| |intros z Hz; apply Hal; right]].
    destruct l as [|z l]; [by rewrite Hch|]. destruct Hch as (-> & _). apply Hal. right. by left. }
  unfold header_magic, HEADER_MAGIC. change 0xFFFFFFFF with (Z.ones 32). rewrite Z.land_ones by lia. intros E. zlia.
Qed.

Lemma give_chunk h L O FL p n w : heap_inv h L O FL -> L !! p = Some n -> 0 <= class_for n < CLASS_COUNT ->
  let x := header_of p in
  let h' := push_chunk (class_for n) x (set_word x w h) in
  heap_inv h' (delete p L) O (zset FL (class_for n) (x :: zget [] FL (class_for n)))
  /\ forall a, start_of O a <> Some x -> h_mem h' a = h_mem h a.
Proof.
  intros H Hp Hc x h'. destruct (hi_live _ _ _ _ H p n Hp) as (Hn & Hb & Hnot). destruct (live_header h L O FL p n H Hp) as (_ & _ & _ & Hs).
  fold x in Hs, Hb. pose proof Hb as (_ & _ & Hcell). rewrite (proj2 (Z.eqb_neq _ _) (class_not_large _ Hc)) in Hcell.
  set (c := class_for n) in *. destruct (zlen_lists h L O FL H) as [Z1 Z2].
  assert (Hm : forall a, start_of O a <> Some x -> h_mem h' a = h_mem h a).
  { intros a Ha. cbn. destruct (Z.eqb_spec a x) as [->|]; [by destruct Ha|done]. }
  split; [|exact Hm].
  assert (Hget : forall d, 0 <= d < CLASS_COUNT -> zget [] (zset FL c (x :: zget [] FL c)) d = if decide (d = c) then x :: zget [] FL c else zget [] FL d).
  { intros d Hd. case_decide as E; [subst d; apply zget_zset_eq; lia|apply zget_zset_ne; lia]. }
  assert (Hold : forall d y, 0 <= d < CLASS_COUNT -> y ∈ zget [] FL d -> h_mem h' y = h_mem h y).
  { intros d y Hd Hy. apply Hm. rewrite (cell_self O d y Hd) by by apply (hi_cell _ _ _ _ H). intros [= ->]. by apply (Hnot d Hd). }
  split; [apply H|apply H|apply H|apply H| | | | |].
  - cbn. rewrite length_zset. rewrite (length_zset FL). apply H.
  - intros d Hd. rewrite Hget by done. cbn [h' push_chunk set_word with_words s_free_lists set_head with_free_lists].
    case_decide as E.
    + subst d. rewrite zget_zset_eq by lia. split; [done|]. split; [destruct (chunk_aligned h L O FL c x H Hc Hcell); lia|].
      replace (h_mem h' x) with (zget 0 (s_free_lists h) c) by (cbn; by rewrite Z.eqb_refl).
      apply (chain_ext (h_mem h)); [by intros y Hy; apply (Hold c)|by apply H].
    + rewrite zget_zset_ne by lia. apply (chain_ext (h_mem h)); [by intros y Hy; apply (Hold d)|by apply H].
  - intros d y Hd. rewrite Hget by done. case_decide as E; [subst d|by apply H]. intros [->|Hy]%elem_of_cons; [done|by apply H].
  - intros d Hd. rewrite Hget by done. case_decide as E; [subst d; constructor; [by apply Hnot|by apply H]|by apply H].
  - intros q m Hq. apply lookup_delete_Some in Hq as [Hne Hq]. destruct (hi_live _ _ _ _ H q m Hq) as (Hmn & Hbq & Hnq).
    assert (Hxq : header_of q <> x) by (unfold x, header_of; lia). split; [done|]. split.
    + apply (block_ext h h' O _ m Hmn Hbq). intros a Ha. apply Hm. congruence.
    + intros d Hd. rewrite Hget by done. case_decide as E; [|by apply Hnq]. subst d. rewrite not_elem_of_cons. split; [done|by apply Hnq].
Qed.

(** Giving the run of a large block back. *)
Lemma give_run h L O FL p n w : heap_inv h L O FL -> L !! p = Some n -> class_for n = CLASS_LARGE ->
  let x := header_of p in
  exists st', ra_free_run (virt_to_phys x) (run_pages n) (h_frames h) = (Ok tt, st')
    /\ heap_inv (with_frames_of st' (set_word x w h)) (delete p L) (O ∖ run_map x (run_pages n)) FL.
Proof.
  intros H Hp Hcl x. destruct (hi_live _ _ _ _ H p n Hp) as (Hn & Hb & Hnot). fold x in Hb. pose proof Hb as (_ & _ & Hr).
  rewrite Hcl, Z.eqb_refl in Hr. destruct Hr as [Hxm Hpg]. destruct (pages_eq n Hn) as (_ & Hpr & _).
  assert (Hphys : forall k, 0 <= k < run_pages n -> exists f, ra_owned (h_frames h) f /\ x + k * PAGE_SIZE = HHDM_BASE + f /\ f = virt_to_phys x + k * PAGE_SIZE).
  { assert (Hone : forall k, 0 <= k < run_pages n -> exists f, ra_owned (h_frames h) f /\ x + k * PAGE_SIZE = HHDM_BASE + f).
    { intros k Hk. destruct (hi_pages _ _ _ _ H _ _ (Hpg k Hk)) as (f & Hf & Hof). exists f. split; [done|].
      destruct (virt_facts _ f (hi_frames _ _ _ _ H) Hof) as (E & _). by rewrite Hf. }
    intros k Hk. destruct (Hone k Hk) as (f & Hof & Hf). exists f. split; [done|]. split; [done|].
    destruct (Hone 0 ltac:(lia)) as (f0 & Ho0 & Hf0). rewrite Z.mul_0_l, Z.add_0_r in Hf0.
    assert (Ev : virt_to_phys x = f0).
    { destruct (virt_facts _ f0 (hi_frames _ _ _ _ H) Ho0) as (E1 & _ & _ & E2). rewrite Hf0, <- E1. exact E2. }
    rewrite Ev. lia. }
  destruct (ra_free_spec (h_frames h) (virt_to_phys x) (run_pages n) (hi_frames _ _ _ _ H) ltac:(lia)) as (st' & E & Hok & Hown).
  { intros b (k & Hk & ->). destruct (Hphys k Hk) as (f & Hof & _ & ->). done. }
  exists st'. split; [done|].
  assert (Hkeep : forall pg o, O !! pg = Some o -> (forall y, o = Run y -> y <> x) -> (O ∖ run_map x (run_pages n)) !! pg = Some o).
  { intros pg o Hpo Ho. apply lookup_difference_Some. split; [done|]. destruct (run_map x (run_pages n) !! pg) as [o'|] eqn:Er; [|done]. exfalso.
    apply run_map_lookup in Er as (_ & k & Hk & ->). rewrite (Hpg k Hk) in Hpo. injection Hpo as <-. by apply (Ho x). }
  assert (Hs : start_of O x = Some x) by apply (live_header h L O FL p n H Hp).
  assert (Hm : forall a, start_of O a <> Some x -> h_mem (with_frames_of st' (set_word x w h)) a = h_mem h a).
  { intros a Ha. cbn. destruct (Z.eqb_spec a x) as [->|]; [done|done]. }
  split.
  - exact Hok.
  - apply H.
  - intros pg o Hpo. apply lookup_difference_Some in Hpo as [Hpo Hno]. destruct (hi_pages _ _ _ _ H pg o Hpo) as (f & -> & Hof).
    exists f. split; [done|]. apply Hown. split; [|done]. intros (k & Hk & ->). destruct (Hphys k Hk) as (g & Hog & Hg & Eg). subst g.
    destruct (virt_facts _ _ (hi_frames _ _ _ _ H) Hof) as (Ef & _). rewrite Ef, <- Hg in Hno.
    assert (Hrm : run_map x (run_pages n) !! (x + k * PAGE_SIZE) = Some (Run x)) by (apply run_map_lookup; split; [done|by exists k]). congruence.
  - intros pg c Hpo. apply lookup_difference_Some in Hpo as [Hpo _]. by apply (hi_class _ _ _ _ H pg).
  - apply H.
  - intros d Hd. apply (chain_ext (h_mem h)); [|by apply H]. intros y Hy. apply Hm.
    rewrite (cell_self O d y Hd) by by apply (hi_cell _ _ _ _ H). intros [= ->]. by apply (Hnot d Hd).
  - intros d y Hd Hy. destruct (hi_cell _ _ _ _ H d y Hd Hy) as [E1 E2]. split; [by apply Hkeep|done].
  - apply H.
  - intros q m Hq. apply lookup_delete_Some in Hq as [Hne Hq]. destruct (hi_live _ _ _ _ H q m Hq) as (Hmn & Hbq & Hnq).
    assert (Hxq : header_of q <> x) by (unfold x, header_of; lia). split; [done|]. split; [|done].
    apply (block_owner _ O); [done| |].
    + apply (block_ext h); [done|done|]. intros a Ha. apply Hm. congruence.
    + intros pg o Hpo Ho. apply Hkeep; [done|]. intros y Hy. rewrite (Ho y Hy). done.
Qed.

Lemma kfree_at h L O FL p n : heap_inv h L O FL -> L !! p = Some n -> p <> 0 ->
  exists h', kfree p h = (Ok tt, h') /\ released h L O h' p.
Proof.
  intros H Hp H0. destruct (live_header h L O FL p n H Hp) as (Hmg & Hcls & Hsz & Hs).
  destruct (hi_live _ _ _ _ H p n Hp) as (Hn & Hb & _).
  unfold kfree. rewrite (proj2 (Z.eqb_neq p 0) H0). unfold mtry at 1, mget. cbv zeta. rewrite Hmg, Z.eqb_refl, Hcls, Hsz. cbn [negb].
  unfold mtry at 1, mmod at 1. unfold mtry at 1, mmod at 1. unfold mtry at 1, mmod at 1.
  set (x := header_of p) in *. set (w := h_mem h x - HEADER_MAGIC).
  assert (Hother : forall q m a, L !! q = Some m -> q <> p -> start_of O a = Some (header_of q) -> start_of O a <> Some x).
  { intros q m a _ Hne Ha. rewrite Ha. intros [= E]. apply Hne. unfold x, header_of in E. lia. }
  destruct (class_for_cases n Hn) as [[Hc _]|[Hc _]].
  - rewrite (proj2 (Z.eqb_neq _ _) (class_not_large _ Hc)), (proj2 (Z.leb_gt CLASS_COUNT _)) by lia.
    destruct (give_chunk h L O FL p n w H Hp Hc) as [I1 Hm]. fold x in I1, Hm.
    eexists. split; [reflexivity|].
    assert (I2 : heap_inv (push_chunk (class_for n) x (count_free (add_in_use (- n) (set_word x w h)))) (delete p L) O
                   (zset FL (class_for n) (x :: zget [] FL (class_for n)))) by (eapply inv_core; [exact I1|done..]).
    split; [exists O; eexists; split; [exact I2|done]| |].
    + intros q m a Hq Hne Ha. exact (Hm a (Hother q m a Hq Hne Ha)).
    + apply (free_magic _ _ _ _ (class_for n) x I2 Hc). destruct (zlen_lists h L O FL H) as [_ Z2].
      rewrite zget_zset_eq by lia. by left.
  - rewrite Hc, Z.eqb_refl. destruct (pages_eq n Hn) as (-> & _). destruct (give_run h L O FL p n w H Hp Hc) as (st' & E & I1). fold x in E, I1.
    unfold mtry, mmod, on_heap_frames. cbn [h_frames add_reserved count_free add_in_use set_word with_words]. rewrite E.
    eexists. split; [reflexivity|]. split.
    + eexists. exists FL. split; [eapply inv_core; [exact I1|done..]|]. intros a q m Hq Hne Ha.
      revert Ha. unfold start_of. destruct (O !! page_of a) as [o|] eqn:Eo; [|done]. intros Ha.
      replace ((O ∖ run_map x (run_pages n)) !! page_of a) with (Some o); [done|]. symmetry. apply lookup_difference_Some. split; [done|].
      destruct (run_map x (run_pages n) !! page_of a) as [o'|] eqn:Er; [|done]. exfalso. apply run_map_lookup in Er as (-> & k & Hk & Epg).
      pose proof Hb as (_ & _ & Hr). rewrite Hc, Z.eqb_refl in Hr. rewrite Epg, (proj2 Hr k Hk) in Eo. injection Eo as <-.
      injection Ha as Ha. apply Hne. unfold x, header_of in Ha. lia.
    + intros q m a Hq Hne Ha. cbn. pose proof (Hother q m a Hq Hne Ha) as Hna. destruct (Z.eqb_spec a x) as [->|]; [done|done].
    + cbn. rewrite Z.eqb_refl. unfold w. destruct Hb as (-> & _). rewrite Hc. vm_compute. congruence.
Qed.

(** ** Payloads *)

Lemma live_pointer h L O FL p n : heap_inv h L O FL -> L !! p = Some n -> p <> 0 /\ p mod 16 = 0.
Proof.
  intros H Hp. destruct (hi_live _ _ _ _ H p n Hp) as (Hn & (_ & _ & Hb) & _). unfold header_of, HEADER_SIZE in *.
  destruct (class_for_cases n Hn) as [[Hc _]|[Hc Hs]].
  - rewrite (proj2 (Z.eqb_neq _ _) (class_not_large _ Hc)) in Hb. destruct (chunk_aligned h L O FL _ _ H Hc Hb). split; [lia|zlia].
  - rewrite Hc, Z.eqb_refl in Hb. destruct Hb as [Hm Hk]. destruct (pages_eq n Hn) as (_ & Hpr & _).
    destruct (hi_pages _ _ _ _ H _ _ (Hk 0 ltac:(lia))) as (f & Hf & Hof).
    destruct (virt_facts _ f (hi_frames _ _ _ _ H) Hof) as (_ & _ & Hr & _). rewrite <- Hf in Hr. unfold PAGE_SIZE in *. split; [lia|zlia].
Qed.

Lemma live_disjoint h L O FL p n q m : heap_inv h L O FL -> L !! p = Some n -> L !! q = Some m -> p <> q ->
  p + n <= q - HEADER_SIZE \/ q + m <= p - HEADER_SIZE.
Proof.
  intros H Hp Hq Hne. destruct (hi_live _ _ _ _ H p n Hp) as (Hn & Hb & _). destruct (hi_live _ _ _ _ H q m Hq) as (Hm & Hb' & _).
  unfold size_ok in Hn, Hm.
  destruct (Z.le_gt_cases (p + n) (q - HEADER_SIZE)) as [|H1]; [by left|]. destruct (Z.le_gt_cases (q + m) (p - HEADER_SIZE)) as [|H2]; [by right|].
  exfalso. set (a := Z.max (header_of p) (header_of q)).
  assert (E1 : start_of O a = Some (header_of p)) by (apply (block_start h O _ n a); [done|done|unfold a, header_of, HEADER_SIZE in *; lia]).
  assert (E2 : start_of O a = Some (header_of q)) by (apply (block_start h O _ m a); [done|done|unfold a, header_of, HEADER_SIZE in *; lia]).
  rewrite E1 in E2. injection E2 as E2. unfold header_of in E2. lia.
Qed.

Lemma payload_start h L O FL p n a : heap_inv h L O FL -> L !! p = Some n -> p <= a < p + n -> start_of O a = Some (header_of p).
Proof.
  intros H Hp Ha. destruct (hi_live _ _ _ _ H p n Hp) as (Hn & Hb & _). apply (block_start h O _ n a Hn Hb). unfold header_of, HEADER_SIZE. lia.
Qed.

(** Writing inside a live payload. *)
Lemma payload_write h h' L O FL p n : heap_inv h L O FL -> L !! p = Some n ->
  h_frames h' = h_frames h -> s_free_lists h' = s_free_lists h -> s_initialized h' = s_initialized h ->
  (forall a, ~ p <= a < p + n -> h_mem h' a = h_mem h a) -> heap_inv h' L O FL.
Proof.
  intros H Hp Ef El Ei Hm. assert (Hs : forall a, start_of O a <> Some (header_of p) -> h_mem h' a = h_mem h a).
  { intros a Ha. apply Hm. intros Hr. by apply Ha, (payload_start h L O FL p n). }
  split; rewrite ?Ef, ?El, ?Ei; try apply H.
  - intros c Hc. apply (chain_ext (h_mem h)); [|by apply H]. intros y Hy. apply Hs.
    rewrite (cell_self O c y Hc) by by apply (hi_cell _ _ _ _ H). intros [= ->].
    destruct (hi_live _ _ _ _ H p n Hp) as (_ & _ & Hnot). by apply (Hnot c Hc).
  - intros q m Hq. destruct (hi_live _ _ _ _ H q m Hq) as (Hmn & Hb & Hnq). split; [done|]. split; [|done].
    destruct (decide (q = p)) as [->|Hne].
    + destruct Hb as (H1 & H2 & H3). unfold header_of, HEADER_SIZE in *. split; [rewrite Hm by lia; done|]. split; [rewrite Hm by lia; done|done].
    + apply (block_ext h h' O _ m Hmn Hb). intros a Ha. apply Hs. rewrite Ha. intros [= E]. apply Hne. unfold header_of in E. lia.
Qed.

Lemma heap_initialize_inv h : ra_ok (h_frames h) -> heap_inv (heap_initialize h) ∅ ∅ (replicate (Z.to_nat CLASS_COUNT) []).
Proof.
  intros Hok. assert (Hz : forall c, 0 <= c < CLASS_COUNT -> zget [] (replicate (Z.to_nat CLASS_COUNT) ([] : list Z)) c = []).
  { intros c Hc. apply zget_replicate. unfold CLASS_COUNT in *. lia. }
  assert (Hz' : forall c, 0 <= c < CLASS_COUNT -> zget 0 (s_free_lists (heap_initialize h)) c = 0).
  { intros c Hc. cbn [heap_initialize s_free_lists]. apply zget_replicate. unfold CLASS_COUNT in *. lia. }
  split; try done.
  - intros c Hc. by rewrite Hz, Hz' by done.
  - intros c x Hc. rewrite Hz by done. by intros ?%elem_of_nil.
  - intros c Hc. rewrite Hz by done. constructor.
Qed.

(** [krealloc] of a live block. *)
Lemma krealloc_at h L O FL p n size : heap_inv h L O FL -> L !! p = Some n -> size_ok size ->
  exists r h', krealloc p size h = (Ok r, h') /\
    ((r = p \/ r = 0) /\ (r = p -> size <= n) /\ h_mem h' = h_mem h /\ heap_inv h' L O FL
     \/ r <> 0 /\ n < size /\ L !! r = None /\ (exists O' FL', heap_inv h' (<[r := size]> (delete p L)) O' FL')
        /\ (forall i, 0 <= i -> i + 8 <= n -> h_mem h' (r + i) = h_mem h (p + i))
        /\ forall q m a, L !! q = Some m -> q <> p -> q <= a < q + m -> h_mem h' a = h_mem h a).
Proof.
  intros H Hp Hsz. destruct (live_header h L O FL p n H Hp) as (Hmg & _ & Hold & _). destruct (live_pointer h L O FL p n H Hp) as [Hp0 _].
  unfold krealloc. rewrite (proj2 (Z.eqb_neq p 0) Hp0), (proj2 (Z.eqb_neq size 0)) by (unfold size_ok in Hsz; lia).
  unfold mtry at 1, mget. rewrite Hmg, Z.eqb_refl, Hold. cbn [negb].
  destruct (Z.leb_spec size n) as [Hle|Hgt]; [exists p, h; split; [done|left; split; [by left|done]]|].
  unfold mtry at 1. destruct (kmalloc_at h L O FL size H Hsz) as (r & h1 & E & Hr). rewrite E.
  destruct (Z.eqb_spec r 0) as [->|Hr0].
  { destruct Hr as [(_ & I1 & Hm)|(O' & A)]; [|by destruct (al_pointer _ _ _ _ _ _ _ A)]. exists 0, h1. split; [done|]. left. split; [by right|]. split; [|done]. intros E0. by destruct Hp0. }
  destruct Hr as [(? & _)|(O' & A)]; [done|]. destruct (al_inv _ _ _ _ _ _ _ A) as [FL1 I1].
  pose proof (al_new _ _ _ _ _ _ _ A) as Hnew. assert (Hrp : r <> p) by congruence.
  assert (Hr1 : <[r := size]> L !! r = Some size) by apply lookup_insert_eq.
  assert (Hp1 : <[r := size]> L !! p = Some n) by by rewrite lookup_insert_ne.
  unfold mtry at 1, mmod. set (h2 := memcpy r p n h1).
  assert (Hm2 : forall a, ~ r <= a < r + size -> h_mem h2 a = h_mem h1 a).
  { intros a Ha. apply copy_words_out. lia. }
  assert (I2 : heap_inv h2 (<[r := size]> L) O' FL1) by (apply (payload_write h1 h2 _ O' FL1 r size I1 Hr1); done).
  destruct (kfree_at h2 _ O' FL1 p n I2 Hp1 Hp0) as (h3 & E3 & R). unfold mtry. rewrite E3.
  exists r, h3. split; [done|]. right. split; [done|]. split; [done|]. split; [done|]. split; [|split].
  - destruct (re_inv _ _ _ _ _ R) as (O3 & FL3 & I3 & _). exists O3, FL3. by rewrite delete_insert_ne in I3.
  - intros i Hi Hin. rewrite (re_mem _ _ _ _ _ R r size (r + i) Hr1 Hrp) by (apply (payload_start h2 _ O' FL1 r size _ I2 Hr1); lia).
    change (h_mem h2) with (copy_words (h_mem h1) r p n). rewrite copy_words_in by lia.
    replace (p + (r + i - r)) with (p + i) by lia.
    apply (al_mem _ _ _ _ _ _ _ A p n (p + i) Hp), (payload_start h L O FL p n _ H Hp). lia.
  - intros q m a Hq Hqp Ha. assert (Hqr : q <> r) by congruence.
    assert (Hq1 : <[r := size]> L !! q = Some m) by by rewrite lookup_insert_ne.
    rewrite (re_mem _ _ _ _ _ R q m a Hq1 Hqp) by (apply (payload_start h2 _ O' FL1 q m _ I2 Hq1); lia).
    rewrite Hm2.
    + apply (al_mem _ _ _ _ _ _ _ A q m a Hq). apply (payload_start h L O FL q m _ H Hq). lia.
    + destruct (live_disjoint h1 _ O' FL1 r size q m I1 Hr1 Hq1 ltac:(congruence)); unfold HEADER_SIZE in *; lia.
Qed.

(** ** The heap against its specification

    The specification of the heap is a finite map from live payloads to their sizes.
    A client allocates, frees and resizes its own blocks and writes words in them. *)
Inductive HeapOp :=
| HAlloc (size : Z)
| HZalloc (size : Z)
| HFree (p : Z)
| HRealloc (p size : Z)
| HWrite (p i w : Z).

Definition op_ok (L : gmap Z Z) (op : HeapOp) : Prop :=
  match op with
  | HAlloc n | HZalloc n => size_ok n
  | HFree p => is_Some (L !! p)
  | HRealloc p n => is_Some (L !! p) /\ size_ok n
  | HWrite p i _ => exists m, L !! p = Some m /\ 0 <= i /\ i + 8 <= m /\ i mod 8 = 0
  end.

(** The call, and what the client then holds; [None] if the kernel panicked. *)
Definition heap_exec (op : HeapOp) h (L : gmap Z Z) : option (Heap F * gmap Z Z) :=
  match op with
  | HAlloc n => match kmalloc n h with (Ok p, h') => Some (h', if p =? 0 then L else <[p := n]> L) | _ => None end
  | HZalloc n => match kzalloc n h with (Ok p, h') => Some (h', if p =? 0 then L else <[p := n]> L) | _ => None end
  | HFree p => match kfree p h with (Ok _, h') => Some (h', delete p L) | _ => None end
  | HRealloc p n =>
      match krealloc p n h with
      | (Ok r, h') => Some (h', if (r =? 0) || (r =? p) then L else <[r := n]> (delete p L))
      | _ => None
      end
  | HWrite p i w => Some (set_word (p + i) w h, L)
  end.

(** Which blocks an operation may change or take away. *)
Definition touches (op : HeapOp) (q : Z) : Prop :=
  match op with HFree p | HRealloc p _ | HWrite p _ _ => q = p | _ => False end.

Inductive heap_reachable : Heap F -> gmap Z Z -> Prop :=
| reach_start h : ra_ok (h_frames h) -> heap_reachable (heap_initialize h) ∅
| reach_step h L op h' L' : heap_reachable h L -> op_ok L op -> heap_exec op h L = Some (h', L') -> heap_reachable h' L'.

(** What a step promises: it returns, the blocks it does not touch stay allocated
    with every word of them as it was, and a moved block keeps its contents. *)
Definition step_safe (op : HeapOp) h (L : gmap Z Z) : Prop :=
  exists h' L' O' FL', heap_exec op h L = Some (h', L') /\ heap_inv h' L' O' FL'
    /\ (forall q m, L !! q = Some m -> ~ touches op q ->
          L' !! q = Some m /\ forall a, q <= a < q + m -> h_mem h' a = h_mem h a)
    /\ match op with
       | HRealloc p _ => forall n, L !! p = Some n -> exists r m, L' !! r = Some m
           /\ forall i, 0 <= i -> i + 8 <= n -> h_mem h' (r + i) = h_mem h (p + i)
       | HZalloc _ => forall q m, L !! q = None -> L' !! q = Some m -> forall i, 0 <= i -> i + 8 <= m -> h_mem h' (q + i) = 0
       | _ => True
       end.

Lemma alloc_safe h L O FL n : heap_inv h L O FL -> size_ok n -> step_safe (HAlloc n) h L.
Proof.
  intros H Hn. destruct (kmalloc_at h L O FL n H Hn) as (p & h' & E & Hr). unfold step_safe. cbn [heap_exec]. rewrite E.
  destruct Hr as [(-> & I & Hm)|(O' & A)].
  - exists h', L, O, FL. split; [done|]. split; [done|]. split; [|done]. intros q m Hq _. split; [done|]. by rewrite Hm.
  - destruct (al_pointer _ _ _ _ _ _ _ A) as [Hp0 _]. destruct (al_inv _ _ _ _ _ _ _ A) as [FL' I].
    rewrite (proj2 (Z.eqb_neq p 0) Hp0). exists h', (<[p := n]> L), O', FL'. split; [done|]. split; [done|]. split; [|done].
    intros q m Hq _. pose proof (al_new _ _ _ _ _ _ _ A). split; [by rewrite lookup_insert_ne by congruence|].
    intros a Ha. apply (al_mem _ _ _ _ _ _ _ A q m a Hq). by apply (payload_start h L O FL q m).
Qed.

Lemma zalloc_safe h L O FL n : heap_inv h L O FL -> size_ok n -> step_safe (HZalloc n) h L.
Proof.
  intros H Hn. destruct (kmalloc_at h L O FL n H Hn) as (p & h1 & E & Hr). unfold step_safe. cbn [heap_exec]. unfold kzalloc, mtry. rewrite E.
  destruct Hr as [(-> & I & Hm)|(O' & A)].
  - exists h1, L, O, FL. split; [done|]. split; [done|]. split; [|congruence]. intros q m Hq _. split; [done|]. by rewrite Hm.
  - destruct (al_pointer _ _ _ _ _ _ _ A) as [Hp0 _]. destruct (al_inv _ _ _ _ _ _ _ A) as [FL' I].
    rewrite (proj2 (Z.eqb_neq p 0) Hp0). cbn [negb mmod mok]. set (h2 := memset_zero p n h1).
    assert (Hp : <[p := n]> L !! p = Some n) by apply lookup_insert_eq.
    assert (Hm2 : forall a, ~ p <= a < p + n -> h_mem h2 a = h_mem h1 a).
    { intros a Ha. by apply zero_words_out. }
    rewrite (proj2 (Z.eqb_neq p 0) Hp0). exists h2, (<[p := n]> L), O', FL'. split; [done|]. split; [by apply (payload_write h1 h2 _ O' FL' p n I Hp)|]. split.
    + intros q m Hq _. pose proof (al_new _ _ _ _ _ _ _ A). assert (Hqp : p <> q) by congruence.
      assert (Hq1 : <[p := n]> L !! q = Some m) by by rewrite lookup_insert_ne. split; [done|]. intros a Ha. rewrite Hm2.
      * apply (al_mem _ _ _ _ _ _ _ A q m a Hq). by apply (payload_start h L O FL q m).
      * destruct (live_disjoint h1 _ O' FL' p n q m I Hp Hq1 Hqp); unfold HEADER_SIZE in *; lia.
    + intros q m Hq Hq' i Hi Him. apply lookup_insert_Some in Hq' as [[<- <-]|[_ Hq']]; [|congruence].
      apply zero_words_in; lia.
Qed.

Lemma free_safe h L O FL p : heap_inv h L O FL -> is_Some (L !! p) -> step_safe (HFree p) h L.
Proof.
  intros H [n Hp]. destruct (live_pointer h L O FL p n H Hp) as [Hp0 _]. destruct (kfree_at h L O FL p n H Hp Hp0) as (h' & E & R).
  destruct (re_inv _ _ _ _ _ R) as (O' & FL' & I & _). unfold step_safe. cbn [heap_exec]. rewrite E.
  exists h', (delete p L), O', FL'. split; [done|]. split; [done|]. split; [|done]. intros q m Hq Hne. cbn [touches] in Hne.
  split; [by rewrite lookup_delete_ne by congruence|]. intros a Ha. apply (re_mem _ _ _ _ _ R q m a Hq Hne). by apply (payload_start h L O FL q m).
Qed.

Lemma realloc_safe h L O FL p n : heap_inv h L O FL -> is_Some (L !! p) -> size_ok n -> step_safe (HRealloc p n) h L.
Proof.
  intros H [m Hp] Hn. destruct (live_pointer h L O FL p m H Hp) as [Hp0 _].
  destruct (krealloc_at h L O FL p m n H Hp Hn) as (r & h' & E & Hr). unfold step_safe. cbn [heap_exec]. rewrite E.
  destruct Hr as [(Hrp & _ & Hm & I)|(Hr0 & _ & Hnew & (O' & FL' & I) & Hcopy & Hkeep)].
  - assert (Eb : (r =? 0) || (r =? p) = true) by (destruct Hrp as [-> | ->]; rewrite Z.eqb_refl; [apply orb_true_r|done]).
    rewrite Eb. exists h', L, O, FL. split; [done|]. split; [done|]. split.
    + intros q k Hq _. split; [done|]. by rewrite Hm.
    + intros k Hk. exists p, k. split; [done|]. by rewrite Hm.
  - assert (Hrp : r <> p) by congruence. rewrite (proj2 (Z.eqb_neq r 0) Hr0), (proj2 (Z.eqb_neq r p) Hrp). cbn [orb].
    exists h', (<[r := n]> (delete p L)), O', FL'. split; [done|]. split; [done|]. split.
    + intros q k Hq Hne. cbn [touches] in Hne. split; [by rewrite lookup_insert_ne, lookup_delete_ne by congruence|].
      intros a Ha. by apply (Hkeep q k).
    + intros k Hk. rewrite Hp in Hk. injection Hk as <-. exists r, n. split; [apply lookup_insert_eq|done].
Qed.

Lemma write_safe h L O FL p i w : heap_inv h L O FL -> op_ok L (HWrite p i w) -> step_safe (HWrite p i w) h L.
Proof.
  intros H (m & Hp & Hi & Him & _). unfold step_safe. cbn [heap_exec]. exists (set_word (p + i) w h), L, O, FL. split; [done|].
  assert (Hm : forall a, a <> p + i -> h_mem (set_word (p + i) w h) a = h_mem h a).
  { intros a Ha. cbn. by rewrite (proj2 (Z.eqb_neq a (p + i)) Ha). }
  split; [apply (payload_write h _ L O FL p m); try done; intros a Ha; apply Hm; lia|]. split; [|done].
  intros q k Hq Hne. cbn [touches] in Hne. split; [done|]. intros a Ha. apply Hm.
  destruct (live_disjoint h L O FL p m q k H Hp Hq ltac:(congruence)); unfold HEADER_SIZE in *; lia.
Qed.

Lemma steps_safe h L O FL op : heap_inv h L O FL -> op_ok L op -> step_safe op h L.
Proof.
  intros H Hop. destruct op as [n|n|p|p n|p i w].
  - by apply (alloc_safe h L O FL).
  - by apply (zalloc_safe h L O FL).
  - by apply (free_safe h L O FL).
  - destruct Hop. by apply (realloc_safe h L O FL).
  - by apply (write_safe h L O FL).
Qed.

Lemma reachable_inv h L : heap_reachable h L -> exists O FL, heap_inv h L O FL.
Proof.
  induction 1 as [h Hok|h L op h' L' _ (O & FL & I) Hop E].
  - eexists ∅, _. by apply heap_initialize_inv.
  - destruct (steps_safe h L O FL op I Hop) as (h1 & L1 & O1 & FL1 & E1 & I1 & _). rewrite E in E1. injection E1 as <- <-. by exists O1, FL1.
Qed.

End Heap.

(** ** The physical allocator is such an allocator *)

(** A machine whose memory the direct map of the kernel can reach. *)
Definition run_ok (st : Pmm) : Prop := pmm_inv st /\ s_total_pages st <= 2 ^ 34.

Lemma in_run_frames s n a : a mod PAGE_SIZE = 0 ->
  in_run (s * PAGE_SIZE) n a <-> s <= a / PAGE_SIZE < s + n.
Proof.
  intros Ha. unfold in_run, PAGE_SIZE in *. split.
  - intros (k & Hk & ->). zlia.
  - intros Hr. exists (a / 4096 - s). zlia.
Qed.

Lemma in_run_aligned s n a : in_run (s * PAGE_SIZE) n a -> a mod PAGE_SIZE = 0.
Proof. intros (k & _ & ->). unfold PAGE_SIZE. zlia. Qed.

Lemma in_run_one s a : in_run s 1 a <-> a = s.
Proof.
  unfold in_run. split; [intros (k & ? & ->); replace k with 0 by lia; lia|].
  intros ->. exists 0. lia.
Qed.

Lemma page_run st : run_ok st ->
  match allocate_page st with
  | (Ok a, st') => run_ok st' /\ ~ pmm_owned st a /\ forall b, pmm_owned st' b <-> b = a \/ pmm_owned st b
  | (Err e, st') => st' = st
  | (Panic, _) => False
  end.
Proof.
  intros [Hinv Hmax].
  destruct (allocate_page_cases st Hinv) as [(i & st' & -> & Htook & Hinv')|[-> _]]; [|done].
  destruct (Htook) as (Hi & Hfree & _ & _ & Ht).
  split_and!; [split; [done|lia]| |].
  - intros (_ & _ & _ & Hbit). rewrite frame_div in Hbit. congruence.
  - intros b. by apply pmm_owned_after_take.
Qed.

Lemma owned_after_run st s n : pmm_inv st -> 0 <= s -> 0 < n -> s + n <= s_total_pages st ->
  forall b, pmm_owned (mark_used s n st) b <-> in_run (s * PAGE_SIZE) n b \/ pmm_owned st b.
Proof.
  intros Hinv Hs Hn Hle b. pose proof (inv_total st Hinv).
  destruct (mark_used_spec st s n Hinv Hs ltac:(unfold is_u64; lia)) as (_ & (Ht & _) & Hbits).
  unfold pmm_owned. rewrite Ht. split.
  - intros (H1 & H2 & H3 & H4). rewrite Hbits in H4 by (unfold PAGE_SIZE in *; zlia).
    apply orb_true_iff in H4 as [H4|H4]; [left|by right].
    apply in_run_frames; [done|]. unfold in_range in H4. zcases_in H4; done || lia.
  - intros [Hr|(H1 & H2 & H3 & H4)].
    + pose proof (in_run_aligned _ _ _ Hr) as Ha. apply in_run_frames in Hr; [|done].
      split_and!; [unfold PAGE_SIZE in *; zlia|done|lia|]. rewrite Hbits by lia.
      unfold in_range. zcases; done || lia.
    + split_and!; [done|done|done|]. rewrite Hbits, H4 by (unfold PAGE_SIZE in *; zlia). apply orb_true_r.
Qed.

#[export] Instance pmm_runs : RunAllocator Pmm.
Proof.
  refine {| ra_ok := run_ok; ra_owned := pmm_owned; ra_page := allocate_page;
            ra_run := allocate_contiguous; ra_free_run := free_contiguous |}.
  - exact page_run.
  - intros st n Hok Hn. destruct (decide (n = 0)) as [->|]; [done|].
    destruct (decide (n = 1)) as [->|].
    { change (allocate_contiguous 1 st) with (allocate_page st). pose proof (page_run st Hok) as H.
      destruct (allocate_page st) as [[a|e|] st']; [|done|done]. destruct H as (H1 & H2 & H3).
      split_and!; [lia|done| |]; intros b; rewrite in_run_one; [by intros ->|apply H3]. }
    destruct Hok as [Hinv Hmax]. pose proof (inv_total st Hinv) as Htot.
    destruct (allocate_contiguous_cases st n Hinv ltac:(lia)) as [(s & -> & Hs & Hle & Hfree & _)|[-> _]]; [|done].
    destruct (mark_used_spec st s n Hinv Hs ltac:(unfold is_u64; lia)) as (Hinv' & (Ht & _) & _).
    split_and!; [lia|split; [done|lia]| |by apply owned_after_run; lia || done].
    intros b Hb (_ & Ha & _ & Hbit). apply in_run_frames in Hb; [|done]. rewrite Hfree in Hbit by done. done.
  - intros st a [_ Hmax] (H1 & H2 & H3 & _). unfold PAGE_SIZE in *. zlia.
  - intros st a n [Hinv Hmax] Hn Hall. pose proof (inv_total st Hinv) as Htot.
    assert (pmm_owned st a) as (A1 & A2 & A3 & A4) by (apply Hall; exists 0; lia).
    assert (pmm_owned st (a + (n - 1) * PAGE_SIZE)) as (_ & _ & B3 & _) by (apply Hall; exists (n - 1); lia).
    assert (a = a / PAGE_SIZE * PAGE_SIZE) as Ea by (by apply frame_of_div).
    rewrite Ea in Hall |- *. set (s := a / PAGE_SIZE) in *.
    assert (s + n <= s_total_pages st) by (unfold s, PAGE_SIZE in *; zlia).
    assert (0 <= s) by (unfold s, PAGE_SIZE in *; zlia).
    destruct (free_contiguous_cases st (s * PAGE_SIZE) n) as (_ & Hok & _);
      [done|unfold PAGE_SIZE; lia|lia|rewrite frame_div; lia|].
    rewrite frame_div, Z.min_l in Hok by lia.
    destruct Hok as (st' & Hr & Hinv' & Hbits & _ & Ht); [lia| |].
    { intros j Hj. rewrite <- (frame_div j). apply Hall. apply in_run_frames; [apply frame_mod|by rewrite frame_div]. }
    exists st'. split_and!; [done|split; [done|lia]|]. intros b. unfold pmm_owned. rewrite Ht. split.
    + intros (C1 & C2 & C3 & C4). rewrite Hbits in C4 by (unfold PAGE_SIZE in *; zlia).
      apply andb_true_iff in C4 as [C4 C5]. split; [|done]. rewrite in_run_frames by done.
      unfold in_range in C4. zcases_in C4; done || lia.
    + intros (Hne & C1 & C2 & C3 & C4). split_and!; [done|done|done|].
      rewrite in_run_frames in Hne by done. rewrite Hbits, C4 by (unfold PAGE_SIZE in *; zlia).
      unfold in_range. zcases; done || lia.
Defined.

(** ** A heap on a small machine *)

Definition demo_heap : Heap Pmm :=
  heap_initialize (mkHeap demo_pmm (fun _ => 0) [] [] 0 0 0 0 false).

Definition demo_block : Z := 18446603336221204368.

Lemma demo_heap_runs :
  fst (kmalloc 100 demo_heap) = Ok demo_block
  /\ s_free_count (snd (kmalloc 100 demo_heap)) = 0
  /\ fst (kmalloc 5000 (snd (kmalloc 100 demo_heap))) = Ok (demo_block + 128).
Proof. vm_compute. done. Qed.

Lemma demo_heap_reachable h : kmalloc 100 demo_heap = (Ok demo_block, h) ->
  heap_reachable h {[demo_block := 100]}.
Proof.
  intros E. apply (reach_step demo_heap ∅ (HAlloc 100)).
  - apply reach_start. split; [exact demo_inv|]. vm_compute. congruence.
  - unfold op_ok, size_ok, PAGE_SIZE, HEADER_SIZE. lia.
  - cbn [heap_exec]. rewrite E. done.
Qed.

