(* ===== verification/Sorting.v ===== *)
(** * qsort and bsearch

    user/libc/src/stdlib.c: a shell sort over raw bytes and the binary search that
    goes with it.  The array is the list of its bytes, an element is the slice of
    [size] bytes at its index, and the comparison is any function of two elements. *)

From S2P Require Import Prelude.
From Stdlib Require Import Sorting.Sorted.

Lemma Forall_mid {A} (P : A -> Prop) (l r : list A) (x : A) : Forall P (l ++ x :: r) -> Forall P l /\ P x /\ Forall P r.
Proof. intros [Hl Hr]%Forall_app. by inversion_clear Hr. Qed.

Lemma split_two {A} (xs : list A) i j : (i < j < length xs)%nat ->
  exists l x m y r, xs = l ++ x :: m ++ y :: r /\ length l = i /\ (length l + S (length m))%nat = j.
Proof.
  intros Hij. destruct (lookup_lt_is_Some_2 xs j ltac:(lia)) as [y Hy].
  apply list_elem_of_split_length in Hy as (k & r & -> & ->).
  destruct (lookup_lt_is_Some_2 k i ltac:(lia)) as [x Hx].
  apply list_elem_of_split_length in Hx as (l & m & -> & ->).
  exists l, x, m, y, r. rewrite <- app_assoc. split_and!; [done|done|]. rewrite length_app. cbn. done.
Qed.

Lemma StronglySorted_lookup {A} (R : A -> A -> Prop) (l : list A) i j x y :
  StronglySorted R l -> (i < j)%nat -> l !! i = Some x -> l !! j = Some y -> R x y.
Proof.
  intros Hs. revert i j. induction Hs as [|z l Hs IH Hall]; intros i j Hij Hi Hj; [done|].
  destruct i as [|i], j as [|j]; [lia| |lia|].
  - cbn in Hi, Hj. injection Hi as ->. rewrite list.Forall_forall in Hall. apply Hall. by eapply list_elem_of_lookup_2.
  - apply (IH i j); [lia|done|done].
Qed.

Section Qsort.
Variable size : nat.
Variable compare : list Z -> list Z -> Z.
Implicit Types (a : list Z) (x y : list Z) (xs l : list (list Z)).

(** The bytes [array + i * size] points at. *)
Definition element (a : list Z) (i : nat) : list Z := take size (drop (i * size) a).

Fixpoint swap_bytes (n : nat) (p q : nat) (a : list Z) : list Z :=
  match n with
  | O => a
  | S n' =>
      let t := default 0 (a !! p) in
      swap_bytes n' (S p) (S q) (<[q := t]> (<[p := default 0 (a !! q)]> a))
  end.

(** The innermost loop, from [j] down in steps of [gap]. *)
Fixpoint sift (fuel : nat) (gap j : nat) (a : list Z) : list Z :=
  match fuel with
  | O => a
  | S fuel' =>
      if (gap <=? j)%nat then
        let left := (j - gap)%nat in
        if compare (element a left) (element a j) <=? 0 then a
        else sift fuel' gap left (swap_bytes size (left * size) (j * size) a)
      else a
  end.

Definition sort_pass (count gap : nat) (a : list Z) : list Z :=
  foldl (fun a i => sift (S i) gap i a) a (seq gap (count - gap)).

Definition GAPS : list nat := [701; 301; 132; 57; 23; 10; 4; 1]%nat.

Definition qsort (count : nat) (a : list Z) : list Z :=
  if ((count <? 2) || (size =? 0))%nat then a
  else foldl (fun a gap => if (count <=? gap)%nat then a else sort_pass count gap a) a GAPS.

(** The search between [low] and [high]; the element found is given by its index. *)
Fixpoint bsearch_loop (fuel : nat) (key : list Z) (a : list Z) (low high : nat) : option nat :=
  match fuel with
  | O => None
  | S fuel' =>
      if (low <? high)%nat then
        let middle := (low + (high - low) / 2)%nat in
        let order := compare key (element a middle) in
        if order =? 0 then Some middle
        else if order <? 0 then bsearch_loop fuel' key a low middle
        else bsearch_loop fuel' key a (S middle) high
      else None
  end.

Definition bsearch (key : list Z) (a : list Z) (count : nat) : option nat :=
  bsearch_loop (S count) key a 0 count.

(** ** Arrays of elements *)

(** The array [a] holds the elements [xs]. *)
Definition holds (a : list Z) (xs : list (list Z)) : Prop :=
  a = concat xs /\ Forall (fun x => length x = size) xs.

Lemma join_length xs : Forall (fun x => length x = size) xs -> length (concat xs) = (length xs * size)%nat.
Proof. induction 1 as [|x xs Hx _ IH]; [done|]. cbn. by rewrite length_app, IH, Hx. Qed.

Lemma element_app l x l' :
  Forall (fun x => length x = size) l -> length x = size -> element (concat (l ++ x :: l')) (length l) = x.
Proof.
  intros Hl Hx. unfold element. rewrite concat_app. cbn [concat].
  rewrite drop_app_length' by (by rewrite join_length). rewrite <- Hx. apply take_app_length.
Qed.

Lemma element_at a xs i x : holds a xs -> xs !! i = Some x -> element a i = x.
Proof.
  intros [-> Hxs] Hi. apply list_elem_of_split_length in Hi as (l & l' & -> & ->).
  apply Forall_app in Hxs as [Hl Hr]. inversion_clear Hr. by apply element_app.
Qed.

Lemma holds_inj a xs ys : holds a xs -> holds a ys -> (0 < size)%nat -> xs = ys.
Proof.
  intros [-> Hx] [E Hy] Hs. revert ys Hy E. induction Hx as [|x xs Hx _ IH]; intros [|y ys] Hy E; cbn in E.
  - done.
  - inversion_clear Hy as [|? ? Hl]. apply (f_equal length) in E. rewrite length_app in E. cbn in E. lia.
  - apply (f_equal length) in E. rewrite length_app in E. cbn in E. lia.
  - inversion_clear Hy. apply app_inj_1 in E as [-> E]; [|congruence]. f_equal. by apply IH.
Qed.

Lemma swap_bytes_spec x : forall y A B C, length x = length y ->
  swap_bytes (length x) (length A) (length A + length x + length B) (A ++ x ++ B ++ y ++ C)
  = A ++ y ++ B ++ x ++ C.
Proof.
  induction x as [|b x IH]; intros [|c y] A B C Hlen; try discriminate; [done|].
  injection Hlen as Hlen. cbn [swap_bytes length].
  set (q := (length A + S (length x) + length B)%nat).
  rewrite lookup_app_r, Nat.sub_diag by lia. cbn [lookup list_lookup default app].
  assert (Hq : (A ++ b :: x ++ B ++ c :: y ++ C) !! q = Some c).
  { replace (A ++ b :: x ++ B ++ c :: y ++ C) with ((A ++ b :: x ++ B) ++ c :: y ++ C)
      by (by rewrite <- !app_assoc, <- !app_comm_cons, <- !app_assoc).
    apply list_lookup_middle. unfold q. rewrite !length_app. cbn. rewrite length_app. lia. }
  rewrite Hq. cbn [default from_option id].
  rewrite insert_app_r_alt, Nat.sub_diag by lia. cbn [insert list_insert].
  replace (<[q:=b]> (A ++ c :: x ++ B ++ c :: y ++ C)) with ((A ++ [c]) ++ x ++ (B ++ [b]) ++ y ++ C).
  - replace (S (length A)) with (length (A ++ [c])) by (rewrite length_app; cbn; lia).
    replace (S q) with (length (A ++ [c]) + length x + length (B ++ [b]))%nat
      by (unfold q; rewrite !length_app; cbn; lia).
    rewrite (IH y (A ++ [c]) (B ++ [b]) C Hlen). rewrite <- !app_assoc. done.
  - replace (A ++ c :: x ++ B ++ c :: y ++ C) with ((A ++ c :: x ++ B) ++ c :: y ++ C)
      by (by rewrite <- !app_assoc, <- !app_comm_cons, <- !app_assoc).
    rewrite insert_app_r_alt by (unfold q; rewrite !length_app; cbn; rewrite length_app; lia).
    replace (q - length (A ++ c :: x ++ B))%nat with 0%nat
      by (unfold q; rewrite !length_app; cbn; rewrite length_app; lia).
    cbn [insert list_insert]. rewrite <- !app_assoc, <- !app_comm_cons, <- !app_assoc. done.
Qed.

Lemma swap_elements l x m y r :
  Forall (fun x => length x = size) (l ++ x :: m ++ y :: r) ->
  swap_bytes size (length l * size) ((length l + S (length m)) * size) (concat (l ++ x :: m ++ y :: r))
  = concat (l ++ y :: m ++ x :: r).
Proof.
  intros (Hl & Hx & Hr)%Forall_mid. apply Forall_mid in Hr as (Hm & Hy & _).
  pose proof (swap_bytes_spec x y (concat l) (concat m) (concat r) ltac:(congruence)) as H.
  rewrite !join_length, Hx in H by done.
  replace ((length l + S (length m)) * size)%nat with (length l * size + size + length m * size)%nat by lia.
  rewrite !concat_app. cbn [concat]. rewrite !concat_app. cbn [concat]. done.
Qed.

(** One exchange of two elements, in terms of the elements. *)
Lemma swap_holds a xs i j : holds a xs -> (i < j < length xs)%nat ->
  exists xs', holds (swap_bytes size (i * size) (j * size) a) xs' /\ xs' ≡ₚ xs.
Proof.
  intros [-> Hxs] (l & x & m & y & r & -> & <- & <-)%split_two.
  rewrite (swap_elements l x m y r Hxs). exists (l ++ y :: m ++ x :: r).
  assert (Hp : l ++ y :: m ++ x :: r ≡ₚ l ++ x :: m ++ y :: r).
  { apply Permutation_app_head. rewrite <- !Permutation_middle. apply Permutation_swap. }
  split; [split; [done|]|done]. by rewrite Hp.
Qed.

Lemma sift_perm fuel gap j : forall a xs, (0 < gap)%nat -> holds a xs -> (j < length xs)%nat ->
  exists xs', holds (sift fuel gap j a) xs' /\ xs' ≡ₚ xs.
Proof.
  revert j. induction fuel as [|fuel IH]; intros j a xs Hg Ha Hj; cbn [sift]; [by exists xs|].
  destruct (Nat.leb_spec gap j); [|by exists xs].
  destruct (_ <=? _); [by exists xs|].
  destruct (swap_holds a xs (j - gap) j Ha ltac:(lia)) as (xs1 & Ha1 & Hp1).
  destruct (IH (j - gap)%nat _ xs1 Hg Ha1) as (xs2 & Ha2 & Hp2).
  - rewrite Hp1. lia.
  - exists xs2. split; [done|]. by rewrite Hp2.
Qed.

Lemma sort_pass_perm count gap a xs : (0 < gap)%nat -> holds a xs -> length xs = count ->
  exists xs', holds (sort_pass count gap a) xs' /\ xs' ≡ₚ xs.
Proof.
  intros Hg Ha Hc. unfold sort_pass.
  assert (Hall : Forall (fun i => (i < count)%nat) (seq gap (count - gap))).
  { apply list.Forall_forall. intros i Hi%elem_of_seq. lia. }
  revert a xs Ha Hc. induction Hall as [|i ks Hi _ IH]; intros a xs Ha Hc; cbn [foldl]; [by exists xs|].
  destruct (sift_perm (S i) gap i a xs Hg Ha ltac:(lia)) as (xs1 & Ha1 & Hp1).
  destruct (IH _ xs1 Ha1 ltac:(by rewrite Hp1)) as (xs2 & Ha2 & Hp2). exists xs2. split; [done|]. by rewrite Hp2.
Qed.

(** ** Sortedness *)

(** What qsort asks of its comparison, on elements: it orders them. *)
Record comparison : Prop := {
  compare_sign : forall x y, length x = size -> length y = size -> Z.sgn (compare y x) = - Z.sgn (compare x y);
  compare_trans : forall x y z, length x = size -> length y = size -> length z = size ->
    compare x y <= 0 -> compare y z <= 0 -> compare x z <= 0;
}.

Definition le_element x y : Prop := compare x y <= 0.
Definition sorted xs : Prop := StronglySorted le_element xs.

Lemma sorted_snoc l x : sorted (l ++ [x]) <-> sorted l /\ Forall (fun y => le_element y x) l.
Proof.
  unfold sorted. induction l as [|y l IH]; cbn [app].
  - split; [split; constructor|repeat constructor].
  - split.
    + intros Hs. inversion Hs as [|? ? Hs' Hall]; subst. apply IH in Hs' as [H1 H2].
      apply Forall_app in Hall as [H3 H4]. inversion_clear H4. split; by constructor.
    + intros [Hs Hall]. inversion Hs; subst. inversion Hall; subst.
      constructor; [by apply IH|]. apply Forall_app. split; [done|]. by constructor.
Qed.

Section Sorted.
Hypothesis Hcmp : comparison.

Lemma compare_total x y : length x = size -> length y = size -> ~ compare x y <= 0 -> compare y x <= 0.
Proof. intros Hx Hy Hn. pose proof (compare_sign Hcmp x y Hx Hy). lia. Qed.

(** Sifting the element after a sorted prefix down by steps of one inserts it. *)
Lemma sift_insert l : forall fuel x r, (length l < fuel)%nat -> sorted l ->
  Forall (fun x => length x = size) (l ++ x :: r) ->
  exists l', sift fuel 1 (length l) (concat (l ++ x :: r)) = concat (l' ++ r) /\ sorted l' /\ l' ≡ₚ l ++ [x].
Proof.
  induction l as [|y l IH] using rev_ind; intros fuel x r Hf Hs Hall; (destruct fuel as [|fuel]; [lia|]); cbn [sift].
  - exists [x]. cbn. split_and!; [done|repeat constructor|done].
  - rewrite length_app in *. cbn [length] in *. rewrite Nat.add_1_r.
    destruct (Nat.leb_spec 1 (S (length l))); [|lia]. replace (S (length l) - 1)%nat with (length l) by lia.
    pose proof Hall as Hall'. rewrite <- app_assoc in Hall. cbn [app] in Hall.
    destruct (Forall_mid _ _ _ _ Hall) as (Hl & Hy & Hxr). inversion_clear Hxr as [|? ? Hx Hr].
    assert (E1 : element (concat ((l ++ [y]) ++ x :: r)) (length l) = y).
    { rewrite <- app_assoc. cbn [app]. by apply element_app. }
    assert (E2 : element (concat ((l ++ [y]) ++ x :: r)) (S (length l)) = x).
    { replace (S (length l)) with (length (l ++ [y])) by (rewrite length_app; cbn; lia).
      apply element_app; [|done]. apply Forall_app. split; [done|by constructor]. }
    rewrite E1, E2. apply sorted_snoc in Hs as [Hs Hle].
    destruct (Z.leb_spec (compare y x) 0) as [Hyx|Hyx].
    + exists (l ++ [y; x]). split_and!; [by rewrite <- !app_assoc| |by rewrite <- app_assoc].
      replace (l ++ [y; x]) with ((l ++ [y]) ++ [x]) by (by rewrite <- app_assoc).
      apply sorted_snoc. split; [by apply sorted_snoc|]. apply Forall_app. split; [|by constructor].
      apply list.Forall_forall. intros z Hz. rewrite list.Forall_forall in Hle, Hl.
      exact (compare_trans Hcmp z y x (Hl z Hz) Hy Hx (Hle z Hz) Hyx).
    + pose proof (swap_elements l y [] x r Hall) as Hsw. cbn [length app] in Hsw. rewrite Nat.add_1_r in Hsw.
      rewrite <- app_assoc. cbn [app]. rewrite Hsw.
      destruct (IH fuel x (y :: r)) as (l' & -> & Hs' & Hp); [lia|done| |].
      { apply Forall_app. split; [done|]. by constructor; [|constructor]. }
      exists (l' ++ [y]). rewrite <- app_assoc. split_and!; [done| |].
      * apply sorted_snoc. split; [done|]. rewrite Hp. apply Forall_app. split; [done|].
        constructor; [|done]. apply compare_total; [done|done|lia].
      * rewrite Hp, <- !app_assoc. apply Permutation_app_head. apply Permutation_swap.
Qed.

Lemma insert_all r : forall l, sorted l -> Forall (fun x => length x = size) (l ++ r) ->
  exists l', foldl (fun a i => sift (S i) 1 i a) (concat (l ++ r)) (seq (length l) (length r)) = concat l'
    /\ sorted l' /\ l' ≡ₚ l ++ r.
Proof.
  induction r as [|x r IH]; intros l Hs Hall; cbn [length seq foldl].
  - exists l. by rewrite app_nil_r.
  - destruct (sift_insert l (S (length l)) x r ltac:(lia) Hs Hall) as (l' & -> & Hs' & Hp).
    assert (Hlen : length l' = S (length l)) by (rewrite Hp, length_app; cbn; lia).
    rewrite <- Hlen. destruct (IH l' Hs') as (l2 & -> & Hs2 & Hp2).
    + rewrite Hp, <- app_assoc. done.
    + exists l2. split_and!; [done|done|]. by rewrite Hp2, Hp, <- app_assoc.
Qed.

Lemma last_pass_sorts a xs : holds a xs ->
  exists xs', holds (sort_pass (length xs) 1 a) xs' /\ sorted xs' /\ xs' ≡ₚ xs.
Proof.
  intros [-> Hall]. destruct xs as [|x r]; [by exists []; repeat constructor|].
  unfold sort_pass. cbn [length]. rewrite Nat.sub_succ, Nat.sub_0_r.
  destruct (insert_all r [x]) as (l' & E & Hs & Hp); [repeat constructor|done|].
  cbn [length app] in E. rewrite E. exists l'. split_and!; [split; [done|]|done|done]. by rewrite Hp.
Qed.

Lemma short_sorted xs : (length xs < 2)%nat -> sorted xs.
Proof. destruct xs as [|x [|y xs]]; cbn; [constructor|repeat constructor|lia]. Qed.

Lemma empty_sorted xs : size = 0%nat -> Forall (fun x => length x = size) xs -> sorted xs.
Proof.
  intros H0 Hall. assert (Forall (fun x => x = []) xs) as Hn.
  { eapply list.Forall_impl; [exact Hall|]. intros x Hx. apply nil_length_inv. cbn in Hx. congruence. }
  assert (Hr : compare [] [] <= 0) by (pose proof (compare_sign Hcmp [] [] ltac:(done) ltac:(done)); lia).
  clear Hall. induction Hn as [|x xs -> Hn IH]; [constructor|]. constructor; [done|].
  eapply list.Forall_impl; [exact Hn|]. by intros y ->.
Qed.
End Sorted.

Lemma passes_perm gaps a xs : Forall (fun gap => (0 < gap)%nat) gaps -> holds a xs ->
  exists xs', holds (foldl (fun a gap => if (length xs <=? gap)%nat then a else sort_pass (length xs) gap a) a gaps) xs'
    /\ xs' ≡ₚ xs.
Proof.
  intros Hg. remember (length xs) as n eqn:Hn. revert a xs Hn.
  induction Hg as [|gap gaps Hpos _ IH]; intros a xs Hn Ha; cbn [foldl]; [by exists xs|].
  destruct (_ <=? _)%nat; [by apply IH|].
  destruct (sort_pass_perm n gap a xs Hpos Ha ltac:(done)) as (xs1 & Ha1 & Hp1).
  destruct (IH _ xs1 ltac:(by rewrite Hp1) Ha1) as (xs2 & Ha2 & Hp2). exists xs2. split; [done|]. by rewrite Hp2.
Qed.

(** C39: qsort rearranges the elements of the array it is given and loses none,
    whatever the comparison does; and if the comparison orders them the result
    is sorted. *)
Theorem qsort_correct a xs : holds a xs ->
  exists xs', holds (qsort (length xs) a) xs' /\ xs' ≡ₚ xs /\ (comparison -> sorted xs').
Proof.
  intros Ha. unfold qsort. destruct (Nat.ltb_spec (length xs) 2); cbn [orb].
  { exists xs. split_and!; [done|done|]. intros _. by apply short_sorted. }
  destruct (Nat.eqb_spec size 0) as [H0|]; cbn [orb].
  { exists xs. split_and!; [done|done|]. intros Hc. apply empty_sorted; [done|done|apply Ha]. }
  change GAPS with ([701; 301; 132; 57; 23; 10; 4] ++ [1])%nat. rewrite foldl_app.
  destruct (passes_perm [701; 301; 132; 57; 23; 10; 4]%nat a xs) as (xs1 & Ha1 & Hp1);
    [repeat constructor; lia|done|].
  cbn [foldl]. destruct (Nat.leb_spec (length xs) 1); [lia|].
  assert (Hlen : length xs = length xs1) by (by rewrite Hp1). rewrite Hlen.
  destruct (sort_pass_perm (length xs1) 1 _ xs1 ltac:(lia) Ha1 ltac:(done)) as (xs2 & Ha2 & Hp2).
  exists xs2. split_and!; [by rewrite <- Hlen in *|by rewrite Hp2|]. intros Hc.
  destruct (last_pass_sorts Hc _ xs1 Ha1) as (xs3 & Ha3 & Hs & _).
  enough (xs2 = xs3) as -> by done. apply (holds_inj _ _ _ Ha2 Ha3). lia.
Qed.

(** ** Searching *)

(** How the elements lie around the key in a sorted array. *)
Lemma sorted_around key xs i j x y : comparison -> length key = size ->
  Forall (fun x => length x = size) xs -> sorted xs -> (i < j)%nat -> xs !! i = Some x -> xs !! j = Some y ->
  (compare key x < 0 -> compare key y < 0) /\ (0 < compare key y -> 0 < compare key x).
Proof.
  intros Hc Hk Hall Hs Hij Hx Hy.
  assert (Hle : compare x y <= 0).
  { exact (StronglySorted_lookup le_element xs i j x y Hs Hij Hx Hy). }
  rewrite list.Forall_forall in Hall.
  assert (length x = size) as Lx by (apply Hall; by eapply list_elem_of_lookup_2).
  assert (length y = size) as Ly by (apply Hall; by eapply list_elem_of_lookup_2).
  pose proof (compare_sign Hc key x Hk Lx). pose proof (compare_sign Hc key y Hk Ly).
  pose proof (compare_trans Hc key x y Hk Lx Ly). pose proof (compare_trans Hc x y key Lx Ly Hk).
  pose proof (compare_trans Hc y key x Ly Hk Lx). pose proof (compare_sign Hc x y Lx Ly). lia.
Qed.

Lemma bsearch_loop_spec key a xs : comparison -> length key = size -> holds a xs -> sorted xs ->
  forall fuel low high, (high - low < fuel)%nat -> (low <= high <= length xs)%nat ->
  (forall i x, (i < low)%nat -> xs !! i = Some x -> 0 < compare key x) ->
  (forall i x, (high <= i)%nat -> xs !! i = Some x -> compare key x < 0) ->
  match bsearch_loop fuel key a low high with
  | Some i => exists x, xs !! i = Some x /\ compare key x = 0
  | None => Forall (fun x => compare key x <> 0) xs
  end.
Proof.
  intros Hc Hk Ha Hs. induction fuel as [|fuel IH]; intros low high Hf Hb Hlow Hhigh; [lia|]. cbn [bsearch_loop].
  destruct (Nat.ltb_spec low high) as [Hlt|Hge].
  - set (middle := (low + (high - low) / 2)%nat).
    assert (low <= middle < high)%nat by (unfold middle; pose proof (Nat.div_lt (high - low) 2 ltac:(lia) ltac:(lia)); lia).
    destruct (lookup_lt_is_Some_2 xs middle ltac:(lia)) as [x Hx]. rewrite (element_at a xs middle x Ha Hx).
    destruct (Z.eqb_spec (compare key x) 0); [by exists x|].
    destruct (Z.ltb_spec (compare key x) 0).
    + apply IH; [lia|lia|done|]. intros i y Hi Hy. destruct (decide (i = middle)) as [->|]; [by simplify_eq|].
      by apply (sorted_around key xs middle i x y Hc Hk (proj2 Ha) Hs ltac:(lia) Hx Hy).
    + apply IH; [lia|lia| |done]. intros i y Hi Hy. destruct (decide (i = middle)) as [->|]; [simplify_eq; lia|].
      apply (sorted_around key xs i middle y x Hc Hk (proj2 Ha) Hs ltac:(lia) Hy Hx). lia.
  - apply Forall_lookup. intros i x Hx. destruct (decide (i < low)%nat) as [Hi|Hi].
    + pose proof (Hlow i x Hi Hx). lia.
    + pose proof (Hhigh i x ltac:(lia) Hx). lia.
Qed.

(** on a sorted array bsearch returns the index of an element equal to the key
    if there is one and nothing otherwise. *)
Theorem bsearch_correct key a xs : comparison -> length key = size -> holds a xs -> sorted xs ->
  match bsearch key a (length xs) with
  | Some i => exists x, xs !! i = Some x /\ compare key x = 0
  | None => Forall (fun x => compare key x <> 0) xs
  end.
Proof.
  intros Hc Hk Ha Hs. apply (bsearch_loop_spec key a xs Hc Hk Ha Hs); [lia|lia|intros i x Hi; lia|].
  intros i x Hi Hx. apply lookup_lt_Some in Hx. lia.
Qed.
End Qsort.

(** ** An array of 16-bit numbers *)

Definition compare_u16 (x y : list Z) : Z :=
  match x, y with
  | [a; b], [c; d] => (a + 256 * b) - (c + 256 * d)
  | _, _ => 0
  end.

Lemma compare_u16_ok : comparison 2 compare_u16.
Proof.
  split.
  - intros [|a [|b [|? ?]]] [|c [|d [|? ?]]] Hx Hy; try discriminate. cbn [compare_u16].
    rewrite <- Z.sgn_opp. f_equal. lia.
  - intros [|a [|b [|? ?]]] [|c [|d [|? ?]]] [|e [|f [|? ?]]] Hx Hy Hz; try discriminate. cbn [compare_u16]. lia.
Qed.

Lemma qsort_correct_witness :
  qsort 2 compare_u16 6 [9; 1; 3; 0; 7; 2; 3; 0; 0; 1; 5; 0] = [3; 0; 3; 0; 5; 0; 0; 1; 9; 1; 7; 2]
  /\ exists xs', holds 2 (qsort 2 compare_u16 6 [9; 1; 3; 0; 7; 2; 3; 0; 0; 1; 5; 0]) xs' /\ sorted compare_u16 xs'.
Proof.
  split; [vm_compute; reflexivity|].
  destruct (qsort_correct 2 compare_u16 [9; 1; 3; 0; 7; 2; 3; 0; 0; 1; 5; 0]
              [[9; 1]; [3; 0]; [7; 2]; [3; 0]; [0; 1]; [5; 0]]) as (xs' & H1 & _ & H2).
  - split; [reflexivity|repeat constructor].
  - exists xs'. split; [exact H1|]. apply H2. exact compare_u16_ok.
Defined.

Lemma bsearch_correct_witness :
  bsearch 2 compare_u16 [0; 1] [3; 0; 5; 0; 0; 1; 9; 1] 4 = Some 2%nat
  /\ exists x, [[3; 0]; [5; 0]; [0; 1]; [9; 1]] !! 2%nat = Some x /\ compare_u16 [0; 1] x = 0.
Proof.
  split; [vm_compute; reflexivity|].
  refine (bsearch_correct 2 compare_u16 [0; 1] [3; 0; 5; 0; 0; 1; 9; 1] [[3; 0]; [5; 0]; [0; 1]; [9; 1]]
            compare_u16_ok eq_refl _ _).
  - split; [reflexivity|repeat constructor].
  - repeat constructor; vm_compute; discriminate.
Defined.
