(* ===== verification/Malloc.v ===== *)
(** * The C library's allocator

    user/libc/src/stdlib.c: malloc, free, calloc and realloc over one arena grown
    with sbrk.  Every block, free or not, is on a doubly linked chain in address
    order; the free ones are also on one of sixteen size-class lists, whose links
    live in their payloads.  Memory is a function from the address of an
    eight-byte word to its value; a pointer is an address and null is zero.
    [Panic] is the process leaving through [heap_corrupt]. *)

From S2P Require Import Prelude Words.

(** ** What the allocator needs of the kernel: the break *)

Class Break (B : Type) : Type := {
  br_ok : B -> Prop;
  br_current : B -> Z;
  br_brk : Z -> M B Z;
  br_report : forall b, br_ok b -> br_brk 0 b = (Ok (br_current b), b);
  br_move : forall b a, br_ok b -> 0 < a < 2 ^ 64 ->
    match br_brk a b with
    | (Ok r, b') => r = a /\ br_ok b' /\ br_current b' = a
    | (Err e, b') => 0 < e < 4096 /\ br_ok b' /\ br_current b' = br_current b
    | (Panic, _) => False
    end;
  br_range : forall b, br_ok b -> 0 < br_current b < 2 ^ 47;
}.

(** ** The state *)

Definition ALIGNMENT : Z := 16.
Definition MIN_GROWTH : Z := 128 * 1024.
Definition BIN_COUNT : Z := 16.
Definition SMALLEST_BIN_SHIFT : Z := 4.
Definition BLOCK_MAGIC : Z := 0x5AFEA110.
Definition SIZEOF_BLOCK : Z := 32.
Definition SIZE_MAX : Z := 2 ^ 64 - 1.

Record Malloc (B : Type) := mkMalloc {
  process : B;
  mem : Z -> Z;
  s_heap : Z;
  s_heap_tail : Z;
  s_bins : list Z;
  errno : Z;
}.
Arguments mkMalloc {B}.
Arguments process {B}.
Arguments mem {B}.
Arguments s_heap {B}.
Arguments s_heap_tail {B}.
Arguments s_bins {B}.
Arguments errno {B}.

Definition upd (m : Z -> Z) (a w : Z) : Z -> Z := fun x => if x =? a then w else m x.

Definition malloc_align_up (value : Z) : Z := Z.land (u64 (value + (ALIGNMENT - 1))) (u64 (Z.lnot (ALIGNMENT - 1))).
Definition header_size : Z := malloc_align_up SIZEOF_BLOCK.
Definition payload_of (block : Z) : Z := u64 (block + header_size).

Fixpoint bin_scan (fuel : nat) (index bound payload : Z) : Z :=
  match fuel with
  | O => index
  | S fuel' =>
      if (index + 1 <? BIN_COUNT) && (u64 (bound * 2) <=? payload)
      then bin_scan fuel' (index + 1) (u64 (bound * 2)) payload
      else index
  end.
Definition bin_index (payload : Z) : Z :=
  bin_scan (Z.to_nat BIN_COUNT) 0 (Z.shiftl 1 SMALLEST_BIN_SHIFT) payload.

Section Malloc.
Context {B : Type} {BK : Break B}.
Implicit Types (h : Malloc B).

Definition with_process p h : Malloc B := mkMalloc p (mem h) (s_heap h) (s_heap_tail h) (s_bins h) (errno h).
Definition with_mem m h : Malloc B := mkMalloc (process h) m (s_heap h) (s_heap_tail h) (s_bins h) (errno h).
Definition with_heap b h : Malloc B := mkMalloc (process h) (mem h) b (s_heap_tail h) (s_bins h) (errno h).
Definition with_tail b h : Malloc B := mkMalloc (process h) (mem h) (s_heap h) b (s_bins h) (errno h).
Definition with_bins l h : Malloc B := mkMalloc (process h) (mem h) (s_heap h) (s_heap_tail h) l (errno h).
Definition with_errno e h : Malloc B := mkMalloc (process h) (mem h) (s_heap h) (s_heap_tail h) (s_bins h) e.

(** The fields of a [Block], and the [FreeLinks] in the payload of a free one;
    [magic] and [is_free] share a word. *)
Definition block_size h b : Z := mem h b.
Definition next h b : Z := mem h (b + 8).
Definition prev h b : Z := mem h (b + 16).
Definition flags h b : Z := mem h (b + 24).
Definition magic h b : Z := Z.land (flags h b) 0xFFFFFFFF.
Definition is_free h b : bool := negb (Z.shiftr (flags h b) 32 =? 0).
Definition links_next h b : Z := mem h (b + 32).
Definition links_prev h b : Z := mem h (b + 40).

Definition set_word a w h : Malloc B := with_mem (upd (mem h) a w) h.
Definition set_size b w h := set_word b w h.
Definition set_next b w h := set_word (b + 8) w h.
Definition set_prev b w h := set_word (b + 16) w h.
Definition set_block_flags b m f h := set_word (b + 24) (m + Z.shiftl f 32) h.
Definition set_is_free b f h := set_block_flags b (magic h b) f h.
Definition set_links_next b w h := set_word (b + 32) w h.
Definition set_links_prev b w h := set_word (b + 40) w h.
Definition bin h i : Z := zget 0 (s_bins h) i.
Definition set_bin i b h : Malloc B := with_bins (zset (s_bins h) i b) h.

(** ** The size-class lists *)

Definition bin_insert (block : Z) h : Malloc B :=
  let index := bin_index (block_size h block) in
  let h := set_links_prev block 0 h in
  let h := set_links_next block (bin h index) h in
  let h := if negb (bin h index =? 0) then set_links_prev (bin h index) block h else h in
  set_bin index block h.

Definition bin_remove (block : Z) h : Malloc B :=
  let index := bin_index (block_size h block) in
  let h := if negb (links_prev h block =? 0) then set_links_next (links_prev h block) (links_next h block) h
           else set_bin index (links_next h block) h in
  if negb (links_next h block =? 0) then set_links_prev (links_next h block) (links_prev h block) h else h.

Definition adjacent (first second : Z) h : bool := u64 (first + header_size + block_size h first) =? second.

(** ** Growing, merging and splitting *)

Definition syscall_brk (a : Z) : M (Malloc B) Z := fun h =>
  match br_brk a (process h) with
  | (Ok r, p) => (Ok (i64 r), with_process p h)
  | (Err e, p) => (Ok (- e), with_process p h)
  | (Panic, p) => (Panic, with_process p h)
  end.

Definition sbrk (increment : Z) : M (Malloc B) Z :=
  let! current := syscall_brk 0 in
  if increment =? 0 then mok (u64 current)
  else
    let wanted := i64 (current + increment) in
    let! result := syscall_brk (u64 wanted) in
    if (result <? 0) && (-4096 <? result) then mmod (with_errno (- result)) ;! mok (u64 (-1))
    else if result <? wanted then mmod (with_errno ENOMEM) ;! mok (u64 (-1))
    else mok (u64 current).

(** The block [extend_heap] makes of fresh memory, on the end of the chain. *)
Definition append_block (block total : Z) h : Malloc B :=
  let h := set_size block (u64 (total - header_size)) h in
  let h := set_next block 0 h in
  let h := set_prev block (s_heap_tail h) h in
  let h := set_block_flags block BLOCK_MAGIC 1 h in
  let h := if negb (s_heap_tail h =? 0) then set_next (s_heap_tail h) block h else with_heap block h in
  with_tail block h.

Definition extend_heap (payload : Z) : M (Malloc B) Z :=
  let total := u64 (header_size + payload) in
  let total := if total <? MIN_GROWTH then MIN_GROWTH else total in
  let total := malloc_align_up total in
  let! memory := sbrk (i64 total) in
  if memory =? u64 (-1) then mok 0
  else
    let block := memory in
    mmod (append_block block total) ;!
    let! h := mget in
    let previous := prev h block in
    if negb (previous =? 0) && is_free h previous && adjacent previous block h then
      mmod (bin_remove previous) ;!
      mmod (fun h => set_size previous (u64 (block_size h previous + u64 (header_size + block_size h block))) h) ;!
      mmod (fun h => set_next previous (next h block) h) ;!
      mmod (with_tail previous) ;!
      mok previous
    else mok block.

(** [block] swallows the block after it: the statements merge_with_next and free
    have in common. *)
Definition absorb (block after : Z) h : Malloc B :=
  let h := set_size block (u64 (block_size h block + u64 (header_size + block_size h after))) h in
  let h := set_next block (next h after) h in
  if negb (next h after =? 0) then set_prev (next h after) block h else with_tail block h.

Definition merge_with_next (block : Z) h : Malloc B :=
  let after := next h block in
  if (after =? 0) || negb (is_free h after) || negb (adjacent block after h) then h
  else absorb block after (bin_remove after h).

(** The first half of split: the header of the remainder, linked in. *)
Definition carve (block rest wanted : Z) h : Malloc B :=
  let h := set_size rest (u64 (block_size h block - wanted - header_size)) h in
  let h := set_block_flags rest BLOCK_MAGIC 1 h in
  let h := set_next rest (next h block) h in
  let h := set_prev rest block h in
  let h := if negb (next h block =? 0) then set_prev (next h block) rest h else with_tail rest h in
  let h := set_size block wanted h in
  set_next block rest h.

Definition split (block wanted : Z) h : Malloc B :=
  if block_size h block <? u64 (u64 (wanted + header_size) + ALIGNMENT) then h
  else
    let rest := u64 (block + header_size + wanted) in
    bin_insert rest (merge_with_next rest (carve block rest wanted h)).

(** ** The allocator *)

Definition check_block (block : Z) : M (Malloc B) unit := fun h =>
  if magic h block =? BLOCK_MAGIC then (Ok tt, h) else (Panic, h).

(** Blocks are at least 48 bytes and lie between the first and the last, so no
    list of them is longer than this. *)
Definition list_fuel h : nat := S (Z.to_nat ((s_heap_tail h - s_heap h) / 48)).

(** The first block on a size-class list from [block] on that is big enough; zero
    if there is none. *)
Fixpoint fit_scan (fuel : nat) (wanted block : Z) : M (Malloc B) Z :=
  match fuel with
  | O => mpanic
  | S fuel' =>
      if block =? 0 then mok 0
      else
        check_block block ;!
        let! h := mget in
        if wanted <=? block_size h block then mmod (bin_remove block) ;! mok block
        else fit_scan fuel' wanted (links_next h block)
  end.

Fixpoint larger_scan (n : nat) (index wanted : Z) : M (Malloc B) Z :=
  match n with
  | O => mok 0
  | S n' =>
      let! h := mget in
      let! block := fit_scan (S (list_fuel h)) wanted (bin h index) in
      if negb (block =? 0) then mok block else larger_scan n' (index + 1) wanted
  end.

Definition take_free_block (wanted : Z) : M (Malloc B) Z :=
  let start := bin_index wanted in
  let! h := mget in
  let! block := fit_scan (S (list_fuel h)) wanted (bin h start) in
  if negb (block =? 0) then mok block
  else larger_scan (Z.to_nat (BIN_COUNT - (start + 1))) (start + 1) wanted.

Definition malloc (size : Z) : M (Malloc B) Z :=
  if size =? 0 then mok 0
  else
    let wanted := malloc_align_up size in
    if wanted <? size then mmod (with_errno ENOMEM) ;! mok 0
    else
      let! block := take_free_block wanted in
      let! block := if block =? 0 then extend_heap wanted else mok block in
      if block =? 0 then mmod (with_errno ENOMEM) ;! mok 0
      else
        mmod (split block wanted) ;!
        mmod (set_is_free block 0) ;!
        mok (payload_of block).

Definition free (pointer : Z) : M (Malloc B) unit :=
  if pointer =? 0 then mok tt
  else
    let block := u64 (pointer - header_size) in
    check_block block ;!
    let! h := mget in
    if is_free h block then mpanic
    else
      mmod (set_is_free block 1) ;!
      mmod (merge_with_next block) ;!
      let! h := mget in
      let before := prev h block in
      if negb (before =? 0) && is_free h before && adjacent before block h then
        mmod (bin_remove before) ;!
        mmod (absorb before block) ;!
        mmod (bin_insert before)
      else mmod (bin_insert block).

Definition calloc (count size : Z) : M (Malloc B) Z :=
  if negb (count =? 0) && (SIZE_MAX / count <? size) then mmod (with_errno ENOMEM) ;! mok 0
  else
    let total := u64 (count * size) in
    let! memory := malloc total in
    (if negb (memory =? 0) then mmod (fun h => with_mem (zero_words (mem h) memory total) h) else mok tt) ;!
    mok memory.

Definition realloc (pointer size : Z) : M (Malloc B) Z :=
  if pointer =? 0 then malloc size
  else if size =? 0 then free pointer ;! mok 0
  else
    let block := u64 (pointer - header_size) in
    check_block block ;!
    let! h := mget in
    let wanted := malloc_align_up size in
    if wanted <=? block_size h block then mmod (split block wanted) ;! mok pointer
    else
      let after := next h block in
      if negb (after =? 0) && is_free h after && adjacent block after h
         && (wanted <=? u64 (u64 (block_size h block + header_size) + block_size h after))
      then
        mmod (merge_with_next block) ;!
        mmod (split block wanted) ;!
        mok pointer
      else
        let! replacement := malloc size in
        if replacement =? 0 then mok 0
        else
          let! h := mget in
          mmod (with_mem (copy_words (mem h) replacement pointer (block_size h block))) ;!
          free pointer ;!
          mok replacement.
End Malloc.

(** ** A process whose break may move within bounds *)

Record SmallProcess := mkSmall { small_start : Z; small_break : Z; small_end : Z }.

Definition small_brk (a : Z) : M SmallProcess Z := fun p =>
  if a =? 0 then (Ok (small_break p), p)
  else if a <? small_start p then (Err EINVAL, p)
  else if small_end p <=? a then (Err ENOMEM, p)
  else (Ok a, mkSmall (small_start p) a (small_end p)).

#[export] Instance small_process : Break SmallProcess.
Proof.
  refine {| br_ok := fun p => 0 < small_start p <= small_break p /\ small_break p < 2 ^ 47 /\ small_end p <= 2 ^ 47;
            br_current := small_break; br_brk := small_brk |}.
  - done.
  - intros b a Hok Ha. unfold small_brk. destruct (Z.eqb_spec a 0); [lia|].
    destruct (Z.ltb_spec a (small_start b)); [unfold EINVAL; split_and!; [lia|lia|tauto..|lia]|].
    destruct (Z.leb_spec (small_end b) a); cbn; unfold ENOMEM; lia.
  - intros b Hok. lia.
Defined.

Definition fresh : Malloc SmallProcess :=
  mkMalloc (mkSmall 0x400000 0x400000 0x4000000) (fun _ => 0) 0 0 (replicate 16 0) 0.
