(* ===== verification/MallocArena.v ===== *)
(** * The arena of malloc

    The invariant of the state of [Malloc.v] and how each of its steps keeps it:
    taking a block off its list and putting one on, merging two neighbours,
    splitting one, marking one and adding fresh memory at the end. *)

From S2P Require Import Prelude Words Malloc.

(** ** Doubly linked segments *)

Definition hd0 (n : Z) (l : list Z) : Z := match l with [] => n | x :: _ => x end.
Fixpoint last0 (p : Z) (l : list Z) : Z := match l with [] => p | x :: r => last0 x r end.

(** [l] is linked by [nx] and [pv], entered from [p] and left towards [n]. *)
Fixpoint seg (nx pv : Z -> Z) (p : Z) (l : list Z) (n : Z) : Prop :=
  match l with
  | [] => True
  | x :: r => x <> 0 /\ pv x = p /\ nx x = hd0 n r /\ seg nx pv x r n
  end.

Lemma last0_app p l1 l2 : last0 p (l1 ++ l2) = last0 (last0 p l1) l2.
Proof. revert p. induction l1 as [|x l1 IH]; intros p; cbn; [done|]. apply IH. Qed.

Lemma hd0_app n l1 l2 : hd0 n (l1 ++ l2) = hd0 (hd0 n l2) l1.
Proof. by destruct l1. Qed.

Lemma last0_in p l : last0 p l = p /\ l = [] \/ last0 p l ∈ l.
Proof.
  revert p. induction l as [|x l IH]; intros p; cbn; [by left|]. right.
  destruct (IH x) as [[-> ->]|H]; set_solver.
Qed.

Lemma hd0_in n l : hd0 n l = n /\ l = [] \/ hd0 n l ∈ l.
Proof. destruct l; [by left|right; set_solver]. Qed.

Section Segments.
Implicit Types (nx pv : Z -> Z) (l : list Z).

Lemma arena_seg_app nx pv p l1 l2 n :
  seg nx pv p (l1 ++ l2) n <-> seg nx pv p l1 (hd0 n l2) /\ seg nx pv (last0 p l1) l2 n.
Proof.
  revert p. induction l1 as [|x l1 IH]; intros p; cbn; [tauto|]. rewrite IH, hd0_app. tauto.
Qed.

Lemma seg_nonzero nx pv p l n x : seg nx pv p l n -> x ∈ l -> x <> 0.
Proof. revert p. induction l as [|y l IH]; intros p; cbn; [set_solver|]. intros (H & _ & _ & Hs) Hx. apply elem_of_cons in Hx as [->|Hx]; eauto. Qed.

(** The links out of a segment may be redirected at its ends. *)
Lemma seg_redirect nx pv nx' pv' p l n p' n' : seg nx pv p l n -> NoDup l ->
  (forall z, z ∈ l -> nx' z = if z =? last0 p l then n' else nx z) ->
  (forall z, z ∈ l -> pv' z = if z =? hd0 n l then p' else pv z) ->
  seg nx' pv' p' l n'.
Proof.
  assert (Hgen : forall l p n p', seg nx pv p l n -> NoDup l ->
    (forall z, z ∈ l -> nx' z = if z =? last0 p l then n' else nx z) ->
    (forall z, z ∈ l -> pv' z = if z =? hd0 n l then p' else pv z) -> seg nx' pv' p' l n').
  { clear. induction l as [|x l IH]; intros p n p' Hs Hn Hx Hp; cbn in *; [done|].
    destruct Hs as (H0 & H1 & H2 & Hs). apply NoDup_cons in Hn as [Hxl Hn].
    split_and!; [done|by rewrite Hp, Z.eqb_refl by set_solver| |].
    - rewrite Hx by set_solver. destruct (Z.eqb_spec x (last0 x l)) as [E|E].
      + destruct (last0_in x l) as [[_ ->]|Hin]; [done|]. rewrite <- E in Hin. done.
      + rewrite H2. destruct l; [done|done].
    - apply (IH x n x); [done|done| |].
      + intros z Hz. rewrite Hx by set_solver. by destruct l.
      + intros z Hz. rewrite Hp by set_solver. destruct (Z.eqb_spec z x) as [->|]; [done|].
        destruct (Z.eqb_spec z (hd0 n l)) as [->|]; [|done]. destruct l as [|y l]; [by apply elem_of_nil in Hz|]. cbn in *. tauto. }
  apply Hgen.
Qed.

Lemma seg_ext nx pv nx' pv' p l n : seg nx pv p l n ->
  (forall z, z ∈ l -> nx' z = nx z /\ pv' z = pv z) -> seg nx' pv' p l n.
Proof.
  revert p. induction l as [|x l IH]; intros p Hs Ha; cbn in *; [done|]. destruct Hs as (H0 & H1 & H2 & Hs).
  destruct (Ha x) as [-> ->]; [set_solver|]. split_and!; [done..|]. apply IH; [done|]. intros z Hz. apply Ha. set_solver.
Qed.

Lemma seg_first nx pv p l n z : seg nx pv p l n -> z ∈ l -> z = hd0 n l -> pv z = p.
Proof. destruct l as [|x l]; [set_solver|]. cbn. intros (_ & H & _) _ ->. done. Qed.

Lemma seg_last nx pv p l n z : seg nx pv p l n -> z ∈ l -> z = last0 p l -> NoDup l -> nx z = n.
Proof.
  revert p. induction l as [|x l IH]; intros p; [set_solver|]. cbn. intros (_ & _ & H & Hs) Hz Hl [Hx Hn]%NoDup_cons.
  destruct (last0_in x l) as [[E ->]|Hin].
  - rewrite E in Hl. subst z. done.
  - apply (IH x); [done|by rewrite Hl|done|done].
Qed.

Lemma seg_out nx pv nx' pv' p l n n' : seg nx pv p l n -> NoDup l ->
  (forall z, z ∈ l -> nx' z = if z =? last0 p l then n' else nx z) ->
  (forall z, z ∈ l -> pv' z = pv z) -> seg nx' pv' p l n'.
Proof.
  intros Hs Hn H1 H2. apply (seg_redirect nx pv nx' pv' p l n p n'); [done..|].
  intros z Hz. rewrite H2 by done. destruct (Z.eqb_spec z (hd0 n l)); [by apply (seg_first nx pv p l n)|done].
Qed.

Lemma seg_in nx pv nx' pv' p l n p' : seg nx pv p l n -> NoDup l ->
  (forall z, z ∈ l -> nx' z = nx z) ->
  (forall z, z ∈ l -> pv' z = if z =? hd0 n l then p' else pv z) -> seg nx' pv' p' l n.
Proof.
  intros Hs Hn H1 H2. apply (seg_redirect nx pv nx' pv' p l n p' n); [done|done| |done].
  intros z Hz. rewrite H1 by done. destruct (Z.eqb_spec z (last0 p l)); [by apply (seg_last nx pv p l n)|done].
Qed.

Lemma seg_remove nx pv nx' pv' l1 y l2 : seg nx pv 0 (l1 ++ y :: l2) 0 -> NoDup (l1 ++ y :: l2) ->
  (forall z, z ∈ l1 ++ l2 -> nx' z = if z =? pv y then nx y else nx z) ->
  (forall z, z ∈ l1 ++ l2 -> pv' z = if z =? nx y then pv y else pv z) ->
  seg nx' pv' 0 (l1 ++ l2) 0.
Proof.
  intros [S1 S2]%arena_seg_app Hn H1 H2. cbn [hd0 seg] in S1, S2. destruct S2 as (Hy & Hp & Hx & S2). rewrite Hp, Hx in *.
  apply NoDup_app in Hn as (N1 & D & N2). apply NoDup_cons in N2 as [N3 N2].
  apply arena_seg_app. split.
  - apply (seg_out nx pv nx' pv' 0 l1 y); [done|done| |]; intros z Hz.
    + rewrite H1 by set_solver. done.
    + rewrite H2 by set_solver. destruct (Z.eqb_spec z (hd0 0 l2)) as [->|]; [|done].
      destruct (hd0_in 0 l2) as [[E _]|Hin]; [|set_solver]. rewrite E in Hz. by apply (seg_nonzero _ _ _ _ _ _ S1) in Hz.
  - apply (seg_in nx pv nx' pv' y l2 0); [done|done| |]; intros z Hz.
    + rewrite H1 by set_solver. destruct (Z.eqb_spec z (last0 0 l1)) as [->|]; [|done].
      destruct (last0_in 0 l1) as [[E _]|Hin]; [|set_solver]. rewrite E in Hz. by apply (seg_nonzero _ _ _ _ _ _ S2) in Hz.
    + rewrite H2 by set_solver. done.
Qed.

(** Putting [y] between [l1] and [l2]. *)
Lemma seg_insert nx pv nx' pv' l1 y l2 : seg nx pv 0 (l1 ++ l2) 0 -> NoDup (l1 ++ y :: l2) -> y <> 0 ->
  nx' y = hd0 0 l2 -> pv' y = last0 0 l1 ->
  (forall z, z ∈ l1 ++ l2 -> nx' z = if z =? last0 0 l1 then y else nx z) ->
  (forall z, z ∈ l1 ++ l2 -> pv' z = if z =? hd0 0 l2 then y else pv z) ->
  seg nx' pv' 0 (l1 ++ y :: l2) 0.
Proof.
  intros [S1 S2]%arena_seg_app Hn Hy Hx Hp H1 H2. apply NoDup_app in Hn as (N1 & D & N2). apply NoDup_cons in N2 as [N3 N2].
  apply arena_seg_app. cbn [hd0 seg]. split_and!; [|done|done|done|].
  - apply (seg_out nx pv nx' pv' 0 l1 (hd0 0 l2)); [done|done| |]; intros z Hz.
    + rewrite H1 by set_solver. done.
    + rewrite H2 by set_solver. destruct (Z.eqb_spec z (hd0 0 l2)) as [->|]; [|done].
      destruct (hd0_in 0 l2) as [[E _]|Hin]; [|set_solver]. rewrite E in Hz. by apply (seg_nonzero _ _ _ _ _ _ S1) in Hz.
  - apply (seg_in nx pv nx' pv' (last0 0 l1) l2 0); [done|done| |]; intros z Hz.
    + rewrite H1 by set_solver. destruct (Z.eqb_spec z (last0 0 l1)) as [->|]; [|done].
      destruct (last0_in 0 l1) as [[E _]|Hin]; [|set_solver]. rewrite E in Hz. by apply (seg_nonzero _ _ _ _ _ _ S2) in Hz.
    + rewrite H2 by set_solver. done.
Qed.
End Segments.

(** ** Blocks side by side *)

(** The blocks [bs], of sizes [sz], lie in order in [[lo, hi)]. *)
Fixpoint laid (sz : Z -> Z) (lo : Z) (bs : list Z) (hi : Z) : Prop :=
  match bs with
  | [] => lo <= hi
  | b :: r => lo <= b /\ b mod 16 = 0 /\ 16 <= sz b /\ sz b mod 16 = 0 /\ laid sz (b + 32 + sz b) r hi
  end.

Lemma laid_ext sz sz' lo bs hi : laid sz lo bs hi -> (forall b, b ∈ bs -> sz' b = sz b) -> laid sz' lo bs hi.
Proof.
  revert lo. induction bs as [|b bs IH]; intros lo Hl Ha; cbn in *; [done|]. rewrite (Ha b) by set_solver.
  destruct Hl as (? & ? & ? & ? & Hl). split_and!; [done..|]. apply IH; [done|]. intros c Hc. apply Ha. set_solver.
Qed.

Lemma laid_app sz lo l1 l2 hi : laid sz lo (l1 ++ l2) hi <-> exists mid, laid sz lo l1 mid /\ laid sz mid l2 hi.
Proof.
  revert lo. induction l1 as [|b l1 IH]; intros lo; cbn [app laid].
  - split; [intros H; exists lo; done|]. intros (mid & H1 & H2). revert lo mid H1 H2.
    destruct l2 as [|c l2]; cbn; intros; [lia|]. intuition lia.
  - rewrite IH. split.
    + intros (? & ? & ? & ? & mid & ? & ?). exists mid. tauto.
    + intros (mid & (? & ? & ? & ? & ?) & ?). split_and!; [done..|]. by exists mid.
Qed.

Lemma laid_bounds sz lo bs hi b : laid sz lo bs hi -> b ∈ bs ->
  lo <= b /\ b mod 16 = 0 /\ 16 <= sz b /\ sz b mod 16 = 0 /\ b + 32 + sz b <= hi.
Proof.
  intros Hl Hb. apply list_elem_of_split in Hb as (l1 & l2 & ->). apply laid_app in Hl as (mid & H1 & H2).
  cbn in H2. destruct H2 as (? & ? & ? & ? & H2).
  assert (forall l a c, laid sz a l c -> a <= c) as Hle.
  { clear. induction l as [|b l IH]; intros a c; cbn; [done|]. intros (? & ? & ? & ? & Hl). apply IH in Hl. lia. }
  pose proof (Hle _ _ _ H1). pose proof (Hle _ _ _ H2). split_and!; [lia|done|done|done|lia].
Qed.

Lemma laid_apart sz lo bs hi b c : laid sz lo bs hi -> b ∈ bs -> c ∈ bs -> b <> c ->
  b + 32 + sz b <= c \/ c + 32 + sz c <= b.
Proof.
  intros Hl Hb Hc Hne. apply list_elem_of_split in Hb as (l1 & l2 & ->). apply laid_app in Hl as (mid & H1 & H2).
  cbn in H2. destruct H2 as (? & ? & ? & ? & H2). apply elem_of_app in Hc as [Hc|Hc].
  - right. pose proof (laid_bounds _ _ _ _ _ H1 Hc). lia.
  - apply elem_of_cons in Hc as [->|Hc]; [done|]. left. pose proof (laid_bounds _ _ _ _ _ H2 Hc). lia.
Qed.

Lemma laid_NoDup sz lo bs hi : laid sz lo bs hi -> NoDup bs.
Proof.
  revert lo. induction bs as [|b bs IH]; intros lo Hl; [constructor|]. cbn in Hl. destruct Hl as (? & ? & ? & ? & Hl).
  apply NoDup_cons. split; [|by eapply IH]. intros Hb. pose proof (laid_bounds _ _ _ _ _ Hl Hb). lia.
Qed.

(** The block right behind [b] in memory, if any, is the next one. *)
Lemma laid_next sz lo l1 b l2 hi c : laid sz lo (l1 ++ b :: l2) hi -> c ∈ l1 ++ b :: l2 -> c = b + 32 + sz b ->
  exists l2', l2 = c :: l2'.
Proof.
  intros Hl Hc E. apply laid_app in Hl as (mid & H1 & H2). cbn in H2. destruct H2 as (? & ? & ? & ? & H2).
  apply elem_of_app in Hc as [Hc|Hc].
  { pose proof (laid_bounds _ _ _ _ _ H1 Hc). lia. }
  apply elem_of_cons in Hc as [->|Hc]; [lia|]. destruct l2 as [|d l2]; [by apply elem_of_nil in Hc|].
  cbn in H2. destruct H2 as (? & ? & ? & ? & H2). apply elem_of_cons in Hc as [->|Hc]; [by exists l2|].
  pose proof (laid_bounds _ _ _ _ _ H2 Hc). lia.
Qed.

Lemma upd_eq m a w : upd m a w a = w.
Proof. unfold upd. by rewrite Z.eqb_refl. Qed.

Lemma upd_ne m a w x : x <> a -> upd m a w x = m x.
Proof. intros Hx. unfold upd. by rewrite (proj2 (Z.eqb_neq x a) Hx). Qed.

(** Reads a word after a sequence of writes, deciding each address with [lia]. *)
Ltac rd := repeat first [rewrite upd_eq | rewrite upd_ne by lia].

Lemma header_size_32 : header_size = 32.
Proof. reflexivity. Qed.

Lemma bin_index_range n : 0 <= bin_index n < 16.
Proof.
  unfold bin_index. assert (H : forall fuel i b, 0 <= i < 16 -> 0 <= bin_scan fuel i b n < 16).
  { induction fuel as [|fuel IH]; intros i b Hi; cbn [bin_scan]; [done|].
    destruct (Z.ltb_spec (i + 1) BIN_COUNT); cbn [andb]; [|done].
    destruct (_ <=? _); [|done]. apply IH. unfold BIN_COUNT in *. lia. }
  apply H. lia.
Qed.

Lemma bin_scan_ge fuel i b n : i <= bin_scan fuel i b n.
Proof.
  revert i b. induction fuel as [|fuel IH]; intros i b; cbn [bin_scan]; [lia|].
  destruct (_ && _); [|lia]. pose proof (IH (i + 1) (u64 (b * 2))). lia.
Qed.

(** A bigger payload is never in a smaller class. *)
Lemma bin_index_mono n m : n <= m -> bin_index n <= bin_index m.
Proof.
  intros Hnm. unfold bin_index. assert (H : forall fuel i b, bin_scan fuel i b n <= bin_scan fuel i b m); [|apply H].
  induction fuel as [|fuel IH]; intros i b; cbn [bin_scan]; [lia|].
  destruct (i + 1 <? BIN_COUNT); cbn [andb]; [|lia].
  destruct (Z.leb_spec (u64 (b * 2)) n), (Z.leb_spec (u64 (b * 2)) m); [apply IH|lia| |lia].
  pose proof (bin_scan_ge fuel (i + 1) (u64 (b * 2)) m). lia.
Qed.

#[local] Opaque bin_index.

(** Decides which of several words an address is. *)
Ltac words :=
  repeat (match goal with |- context [?a =? ?b] => destruct (Z.eqb_spec a b); try (exfalso; lia) end; cbn [negb andb]);
  first [done | lia].

Section Safe.
Context {B : Type} {BK : Break B}.
Implicit Types (h : Malloc B) (bs : list Z) (P : Z -> Prop) (FL : Z -> list Z) (L : gmap Z Z).

(** ** The invariant

    [bs] are the blocks in address order, [FL k] the list of size class [k] and
    [P] says which blocks are on the lists; between two calls those are the free
    ones, in the middle of one a block may be free and off the lists. *)
Record inv P h bs FL : Prop := {
  i_brk : br_ok (process h);
  i_brk16 : br_current (process h) mod 16 = 0;
  i_chain : seg (next h) (prev h) 0 bs 0;
  i_head : s_heap h = hd0 0 bs;
  i_tail : s_heap_tail h = last0 0 bs;
  i_laid : laid (block_size h) 1 bs (br_current (process h));
  i_flags : forall b, b ∈ bs -> flags h b = BLOCK_MAGIC \/ flags h b = BLOCK_MAGIC + 2 ^ 32;
  i_listed : forall b, b ∈ bs -> P b -> is_free h b = true;
  i_bins : zlen (s_bins h) = 16;
  i_bin : forall k, 0 <= k < 16 -> bin h k = hd0 0 (FL k);
  i_list : forall k, 0 <= k < 16 -> seg (links_next h) (links_prev h) 0 (FL k) 0;
  i_nodup : forall k, 0 <= k < 16 -> NoDup (FL k);
  i_class : forall k b, 0 <= k < 16 -> b ∈ FL k <-> b ∈ bs /\ P b /\ bin_index (block_size h b) = k;
  i_apart : forall b c, b ∈ bs -> c ∈ bs -> P b -> P c -> c <> b + 32 + block_size h b;
}.

Lemma block_bounds P h bs FL b : inv P h bs FL -> b ∈ bs ->
  16 <= b /\ b mod 16 = 0 /\ 16 <= block_size h b /\ block_size h b mod 16 = 0 /\ b + 32 + block_size h b < 2 ^ 47.
Proof.
  intros H Hb. destruct (laid_bounds _ _ _ _ _ (i_laid _ _ _ _ H) Hb) as (? & ? & ? & ? & ?).
  pose proof (br_range _ (i_brk _ _ _ _ H)). split_and!; [zlia|done|done|done|lia].
Qed.

Lemma blocks_apart P h bs FL b c : inv P h bs FL -> b ∈ bs -> c ∈ bs ->
  b = c \/ b + 32 + block_size h b <= c \/ c + 32 + block_size h c <= b.
Proof.
  intros H Hb Hc. destruct (decide (b = c)); [by left|right].
  exact (laid_apart _ _ _ _ _ _ (i_laid _ _ _ _ H) Hb Hc n).
Qed.

(** What an operation on the lists may change: links of listed blocks. *)
Record relinked P h bs h' : Prop := {
  rl_process : process h' = process h;
  rl_heap : s_heap h' = s_heap h;
  rl_tail : s_heap_tail h' = s_heap_tail h;
  rl_mem : forall a, (forall b, b ∈ bs -> P b -> a <> b + 32 /\ a <> b + 40) -> mem h' a = mem h a;
}.

Lemma relinked_word P h bs FL h' P' b o : inv P h bs FL -> relinked P' h bs h' -> b ∈ bs -> 0 <= o < 32 ->
  mem h' (b + o) = mem h (b + o).
Proof.
  intros H R Hb Ho. apply (rl_mem _ _ _ _ R). intros c Hc _.
  pose proof (block_bounds _ _ _ _ _ H Hb). pose proof (block_bounds _ _ _ _ _ H Hc).
  pose proof (blocks_apart _ _ _ _ _ _ H Hb Hc). lia.
Qed.

Lemma relinked_fields P h bs FL h' P' b : inv P h bs FL -> relinked P' h bs h' -> b ∈ bs ->
  block_size h' b = block_size h b /\ next h' b = next h b /\ prev h' b = prev h b /\ flags h' b = flags h b.
Proof.
  intros H R Hb. unfold block_size, next, prev, flags.
  pose proof (relinked_word P h bs FL h' P' b 0 H R Hb ltac:(lia)) as E. rewrite Z.add_0_r in E.
  split_and!; [done|apply (relinked_word P h bs FL h' P' b); done || lia..].
Qed.

Lemma is_free_flags h h' b : flags h' b = flags h b -> is_free h' b = is_free h b.
Proof. unfold is_free. by intros ->. Qed.

(** Everything of the invariant that is not about the lists survives relinking. *)
Lemma relinked_inv P P' h bs FL FL' h' : inv P h bs FL -> relinked P' h bs h' ->
  zlen (s_bins h') = 16 ->
  (forall k, 0 <= k < 16 -> bin h' k = hd0 0 (FL' k)) ->
  (forall k, 0 <= k < 16 -> seg (links_next h') (links_prev h') 0 (FL' k) 0) ->
  (forall k, 0 <= k < 16 -> NoDup (FL' k)) -> forall P'',
  (forall b, b ∈ bs -> P'' b -> is_free h b = true) ->
  (forall k b, 0 <= k < 16 -> b ∈ FL' k <-> b ∈ bs /\ P'' b /\ bin_index (block_size h b) = k) ->
  (forall b c, b ∈ bs -> c ∈ bs -> P'' b -> P'' c -> c <> b + 32 + block_size h b) ->
  inv P'' h' bs FL'.
Proof.
  intros H R Hlen Hbin Hseg Hnd P'' Hfree Hclass Happ.
  pose proof (fun b => relinked_fields P h bs FL h' P' b H R) as Hf.
  split; [by rewrite (rl_process _ _ _ _ R); apply H|by rewrite (rl_process _ _ _ _ R); apply H| | | | | | | | | | | |].
  - apply (seg_ext (next h) (prev h)); [apply H|]. intros z Hz. destruct (Hf z Hz) as (_ & ? & ? & _). done.
  - rewrite (rl_heap _ _ _ _ R). apply H.
  - rewrite (rl_tail _ _ _ _ R). apply H.
  - rewrite (rl_process _ _ _ _ R). apply (laid_ext (block_size h)); [apply H|]. intros z Hz. by destruct (Hf z Hz).
  - intros b Hb. destruct (Hf b Hb) as (_ & _ & _ & ->). by apply H.
  - intros b Hb HP. destruct (Hf b Hb) as (_ & _ & _ & E). rewrite (is_free_flags h h' b E). by apply Hfree.
  - done.
  - done.
  - done.
  - done.
  - intros k b Hk. rewrite Hclass by done. split; intros (Hb & ?); destruct (Hf b Hb) as (E & _); rewrite E in *; done.
  - intros b c Hb Hc. destruct (Hf b Hb) as (-> & _). by apply Happ.
Qed.

Lemma listed_in P h bs FL k b : inv P h bs FL -> 0 <= k < 16 -> b ∈ FL k -> b ∈ bs /\ P b.
Proof. intros H Hk Hb. apply (i_class _ _ _ _ H) in Hb; tauto. Qed.

(** The fields of every block after a block left its list. *)
Lemma bin_remove_links P h bs FL y l1 l2 : inv P h bs FL -> y ∈ bs -> P y ->
  FL (bin_index (block_size h y)) = l1 ++ y :: l2 ->
  let h' := bin_remove y h in
  relinked P h bs h'
  /\ s_bins h' = (if last0 0 l1 =? 0 then zset (s_bins h) (bin_index (block_size h y)) (hd0 0 l2) else s_bins h)
  /\ (forall z, z ∈ bs -> z <> y -> links_next h' z = if z =? links_prev h y then links_next h y else links_next h z)
  /\ (forall z, z ∈ bs -> z <> y -> links_prev h' z = if z =? links_next h y then links_prev h y else links_prev h z).
Proof.
  intros H Hy HP E. pose proof (bin_index_range (block_size h y)) as Hk. set (k := bin_index _) in *.
  pose proof (i_list _ _ _ _ H k Hk) as Hs. rewrite E in Hs. apply arena_seg_app in Hs as [_ Hs]. cbn [seg] in Hs.
  destruct Hs as (Hy0 & Ep & En & _). pose proof (i_nodup _ _ _ _ H k Hk) as Hn. rewrite E in Hn.
  apply NoDup_app in Hn as (_ & D & Hn). apply NoDup_cons in Hn as [Hn _].
  assert (Hp : links_prev h y = 0 \/ links_prev h y ∈ bs /\ P (links_prev h y) /\ links_prev h y <> y).
  { rewrite Ep. destruct (last0_in 0 l1) as [[-> _]|Hin]; [by left|right].
    destruct (listed_in P h bs FL k (last0 0 l1) H Hk) as [? ?]; [rewrite E; set_solver|]. split_and!; [done|done|set_solver]. }
  assert (Hx : links_next h y = 0 \/ links_next h y ∈ bs /\ P (links_next h y) /\ links_next h y <> y).
  { rewrite En. destruct (hd0_in 0 l2) as [[-> _]|Hin]; [by left|right].
    destruct (listed_in P h bs FL k (hd0 0 l2) H Hk) as [? ?]; [rewrite E; set_solver|]. split_and!; [done|done|set_solver]. }
  rewrite <- Ep, <- En. clear Ep En E D Hn. cbn zeta. unfold bin_remove. fold k.
  set (p := links_prev h y) in *. set (n := links_next h y) in *.
  assert (Hn1 : forall h1, h1 = (if negb (p =? 0) then set_links_next p n h else set_bin k n h) ->
    links_next h1 y = n /\ links_prev h1 y = p).
  { intros h1 ->. destruct (Z.eqb_spec p 0); cbn [negb]; [done|]. destruct Hp as [?|(Hpb & _ & Hpy)]; [done|].
    pose proof (blocks_apart _ _ _ _ _ _ H Hpb Hy). pose proof (block_bounds _ _ _ _ _ H Hy). pose proof (block_bounds _ _ _ _ _ H Hpb).
    unfold links_next, links_prev, set_links_next, set_word. cbn [mem with_mem]. rd. done. }
  destruct (Hn1 _ eq_refl) as [-> ->]. clear Hn1.
  assert (Hsep : forall z c, z ∈ bs -> c ∈ bs -> z = c \/ z + 48 <= c \/ c + 48 <= z).
  { intros z c Hz Hc. pose proof (blocks_apart _ _ _ _ _ _ H Hz Hc).
    pose proof (block_bounds _ _ _ _ _ H Hz). pose proof (block_bounds _ _ _ _ _ H Hc). lia. }
  set (h' := if negb (n =? 0) then _ else _).
  assert (Hm : forall a, mem h' a = if negb (n =? 0) && (a =? n + 40) then p
                                    else if negb (p =? 0) && (a =? p + 32) then n else mem h a).
  { intros a. unfold h'. by destruct (n =? 0), (p =? 0). }
  assert (Hp1 : forall z, z ∈ bs -> p = 0 \/ z = p \/ z + 48 <= p \/ p + 48 <= z).
  { intros z Hz. destruct Hp as [?|(Hpb & _)]; [by left|right; by apply Hsep]. }
  assert (Hx1 : forall z, z ∈ bs -> n = 0 \/ z = n \/ z + 48 <= n \/ n + 48 <= z).
  { intros z Hz. destruct Hx as [?|(Hnb & _)]; [by left|right; by apply Hsep]. }
  split; [split|split; [|split]].
  - unfold h'. by destruct (n =? 0), (p =? 0).
  - unfold h'. by destruct (n =? 0), (p =? 0).
  - unfold h'. by destruct (n =? 0), (p =? 0).
  - intros a Ha. rewrite Hm. destruct (Z.eqb_spec n 0), (Z.eqb_spec p 0); cbn [negb andb].
    + done.
    + destruct Hp as [?|(Hpb & HPp & _)]; [done|]. destruct (Ha p Hpb HPp). by destruct (Z.eqb_spec a (p + 32)).
    + destruct Hx as [?|(Hnb & HPn & _)]; [done|]. destruct (Ha n Hnb HPn). by destruct (Z.eqb_spec a (n + 40)).
    + destruct Hx as [?|(Hnb & HPn & _)]; [done|]. destruct (Ha n Hnb HPn). destruct (Z.eqb_spec a (n + 40)); [done|].
      destruct Hp as [?|(Hpb & HPp & _)]; [done|]. destruct (Ha p Hpb HPp). by destruct (Z.eqb_spec a (p + 32)).
  - unfold h'. by destruct (n =? 0), (p =? 0).
  - intros z Hz Hzy. unfold links_next. rewrite Hm. pose proof (Hp1 z Hz) as Z1. pose proof (Hx1 z Hz) as Z2.
    destruct (block_bounds _ _ _ _ _ H Hz) as [Z3 _]. clear - Z1 Z2 Z3.
    destruct (Z.eqb_spec n 0), (Z.eqb_spec p 0), (Z.eqb_spec (z + 32) (n + 40)), (Z.eqb_spec (z + 32) (p + 32)), (Z.eqb_spec z p);
      cbn [negb andb]; done || lia.
  - intros z Hz Hzy. unfold links_prev. rewrite Hm. pose proof (Hp1 z Hz) as Z1. pose proof (Hx1 z Hz) as Z2.
    destruct (block_bounds _ _ _ _ _ H Hz) as [Z3 _]. clear - Z1 Z2 Z3.
    destruct (Z.eqb_spec n 0), (Z.eqb_spec p 0), (Z.eqb_spec (z + 40) (n + 40)), (Z.eqb_spec (z + 40) (p + 32)), (Z.eqb_spec z n);
      cbn [negb andb]; done || lia.
Qed.

Lemma bin_get h k j v : zlen (s_bins h) = 16 -> 0 <= k < 16 -> 0 <= j < 16 ->
  zget 0 (zset (s_bins h) k v) j = if j =? k then v else bin h j.
Proof.
  intros Hl Hk Hj. destruct (Z.eqb_spec j k) as [->|]; [apply zget_zset_eq; lia|]. apply zget_zset_ne; lia.
Qed.

Lemma bin_remove_inv P h bs FL y : inv P h bs FL -> y ∈ bs -> P y ->
  exists FL', inv (fun b => P b /\ b <> y) (bin_remove y h) bs FL' /\ relinked P h bs (bin_remove y h).
Proof.
  intros H Hy HP. pose proof (bin_index_range (block_size h y)) as Hk.
  assert (Hin : y ∈ FL (bin_index (block_size h y))) by (by apply (i_class _ _ _ _ H)).
  apply list_elem_of_split in Hin as (l1 & l2 & E).
  destruct (bin_remove_links P h bs FL y l1 l2 H Hy HP E) as (R & Hb & Hx & Hp).
  remember (bin_index (block_size h y)) as k eqn:Hky. set (h' := bin_remove y h) in *.
  pose proof (i_list _ _ _ _ H k Hk) as Hs. rewrite E in Hs. pose proof (i_nodup _ _ _ _ H k Hk) as Hn. rewrite E in Hn.
  assert (Hlinks : links_prev h y = last0 0 l1 /\ links_next h y = hd0 0 l2).
  { apply arena_seg_app in Hs as [_ Hs]. cbn in Hs. tauto. }
  destruct Hlinks as [Ep En].
  assert (Hmem : forall z, z ∈ l1 ++ l2 -> z ∈ FL k /\ z <> y).
  { intros z Hz. rewrite E. apply NoDup_app in Hn as (_ & D & Hn). apply NoDup_cons in Hn as [Hn _].
    split; [set_solver|]. intros ->. apply elem_of_app in Hz as [Hz|Hz]; [|done]. apply (D y); set_solver. }
  assert (Hbs : forall j z, 0 <= j < 16 -> z ∈ FL j -> z ∈ bs) by (intros j z Hj Hz; by apply (listed_in P h bs FL j)).
  exists (fun j => if j =? k then l1 ++ l2 else FL j). split; [|exact R].
  apply (relinked_inv P P h bs FL _ h' H R).
  - rewrite Hb. destruct (_ =? _); [rewrite zlen_zset|]; apply H.
  - intros j Hj. unfold bin. rewrite Hb. destruct (Z.eqb_spec (last0 0 l1) 0) as [E0|E0].
    + rewrite bin_get by (done || apply H). destruct (Z.eqb_spec j k) as [->|]; [|by apply H].
      destruct l1 as [|x l1]; [done|]. destruct (last0_in 0 (x :: l1)) as [[_ ?]|Hin]; [done|].
      rewrite E0 in Hin. apply arena_seg_app in Hs as [Hs _]. by apply (seg_nonzero _ _ _ _ _ _ Hs) in Hin.
    + change (zget 0 (s_bins h) j) with (bin h j). rewrite (i_bin _ _ _ _ H j Hj). destruct (Z.eqb_spec j k) as [->|]; [|done].
      rewrite E. by destruct l1.
  - intros j Hj. destruct (Z.eqb_spec j k) as [->|Hjk].
    + apply (seg_remove (links_next h) (links_prev h) _ _ l1 y l2 Hs Hn); intros z [Hz Hzy]%Hmem; [apply Hx|apply Hp]; eauto.
    + apply (seg_ext (links_next h) (links_prev h)); [by apply H|]. intros z Hz.
      assert (Hcl : forall w, w ∈ FL k -> z <> w).
      { intros w Hw ->. apply Hjk. destruct (proj1 (i_class _ _ _ _ H j w Hj) Hz) as (_ & _ & <-).
        destruct (proj1 (i_class _ _ _ _ H k w Hk) Hw) as (_ & _ & <-). reflexivity. }
      assert (Hzy : z <> y) by (apply Hcl; rewrite E; set_solver). assert (Hz0 : z <> 0) by (by apply (seg_nonzero _ _ _ _ _ _ (i_list _ _ _ _ H j Hj))).
      rewrite Hx, Hp by eauto. rewrite Ep, En.
      destruct (Z.eqb_spec z (last0 0 l1)) as [Ez|], (Z.eqb_spec z (hd0 0 l2)) as [Ez'|]; [..|done].
      all: exfalso.
      1-2: destruct (last0_in 0 l1) as [[? _]|Hin]; [congruence|]; apply (Hcl z); [rewrite E, Ez; set_solver|done].
      destruct (hd0_in 0 l2) as [[? _]|Hin]; [congruence|]. apply (Hcl z); [rewrite E, Ez'; set_solver|done].
  - intros j Hj. destruct (Z.eqb_spec j k) as [->|]; [|by apply H].
    apply NoDup_app in Hn as (N1 & D & N2). apply NoDup_cons in N2 as [_ N2]. apply NoDup_app. split_and!; [done| |done]. set_solver.
  - intros b Hb' [? _]. by apply (i_listed _ _ _ _ H).
  - intros j b Hj. destruct (Z.eqb_spec j k) as [->|Hjk].
    + split.
      * intros [Hz Hzy]%Hmem. apply (i_class _ _ _ _ H) in Hz as (A1 & A2 & A3); [|exact Hk].
        exact (conj A1 (conj (conj A2 Hzy) A3)).
      * intros (Hbb & [HPb Hby] & Hc). pose proof (proj2 (i_class _ _ _ _ H k b Hk) (conj Hbb (conj HPb Hc))) as Hin.
        rewrite E in Hin. clear - Hin Hby. set_solver.
    + rewrite (i_class _ _ _ _ H) by exact Hj. split.
      * intros (A1 & A2 & A3). split_and!; [exact A1|exact A2| |exact A3]. intros ->. congruence.
      * intros (A1 & [A2 _] & A3). exact (conj A1 (conj A2 A3)).
  - intros b c Hb1 Hc1 [? _] [? _]. by apply (i_apart _ _ _ _ H).
Qed.

Lemma sep48 P h bs FL z c : inv P h bs FL -> z ∈ bs -> c ∈ bs -> z = c \/ z + 48 <= c \/ c + 48 <= z.
Proof.
  intros H Hz Hc. pose proof (blocks_apart _ _ _ _ _ _ H Hz Hc).
  pose proof (block_bounds _ _ _ _ _ H Hz). pose proof (block_bounds _ _ _ _ _ H Hc). lia.
Qed.

Lemma bin_insert_links P h bs FL y : inv P h bs FL -> y ∈ bs -> ~ P y ->
  let h' := bin_insert y h in
  let k := bin_index (block_size h y) in
  let head := hd0 0 (FL k) in
  relinked (fun b => P b \/ b = y) h bs h'
  /\ s_bins h' = zset (s_bins h) k y
  /\ links_next h' y = head /\ links_prev h' y = 0
  /\ (forall z, z ∈ bs -> z <> y -> links_next h' z = links_next h z)
  /\ (forall z, z ∈ bs -> z <> y -> links_prev h' z = if z =? head then y else links_prev h z).
Proof.
  intros H Hy HP. cbn zeta. pose proof (bin_index_range (block_size h y)) as Hk. unfold bin_insert.
  remember (bin_index (block_size h y)) as k eqn:Hky. clear Hky.
  assert (Hh : bin h k = hd0 0 (FL k)) by (by apply H). remember (hd0 0 (FL k)) as head eqn:Ehd.
  change (bin (set_links_prev y 0 h) k) with (bin h k).
  change (bin (set_links_next y (bin h k) (set_links_prev y 0 h)) k) with (bin h k). rewrite Hh.
  assert (Hin : head = 0 \/ head ∈ bs /\ P head /\ head <> y).
  { rewrite Ehd. destruct (hd0_in 0 (FL k)) as [[-> _]|Hin]; [by left|right].
    destruct (listed_in P h bs FL k _ H Hk Hin). split_and!; [done|done|congruence]. }
  set (h' := set_bin k y _).
  assert (Hm : forall a, mem h' a = if negb (head =? 0) && (a =? head + 40) then y
                                    else if a =? y + 32 then head else if a =? y + 40 then 0 else mem h a).
  { intros a. unfold h'. by destruct (head =? 0). }
  assert (Hs1 : forall z, z ∈ bs -> head = 0 \/ z = head \/ z + 48 <= head \/ head + 48 <= z).
  { intros z Hz. destruct Hin as [?|(Hb & _)]; [by left|right; by apply (sep48 P h bs FL)]. }
  assert (Hy0 : 16 <= y) by (by apply (block_bounds _ _ _ _ _ H)).
  split; [split|split_and!].
  - unfold h'. by destruct (head =? 0).
  - unfold h'. by destruct (head =? 0).
  - unfold h'. by destruct (head =? 0).
  - intros a Ha. rewrite Hm. destruct (Ha y Hy (or_intror eq_refl)) as [A1 A2].
    rewrite (proj2 (Z.eqb_neq _ _) A1), (proj2 (Z.eqb_neq _ _) A2). destruct (Z.eqb_spec head 0); cbn [negb andb]; [done|].
    destruct Hin as [?|(Hb & HPh & _)]; [done|]. destruct (Ha head Hb (or_introl HPh)) as [_ A3]. by rewrite (proj2 (Z.eqb_neq _ _) A3).
  - unfold h'. by destruct (head =? 0).
  - unfold links_next. rewrite Hm, Z.eqb_refl. pose proof (Hs1 y Hy) as Z1. assert (Z2 : head <> y) by (destruct Hin as [->|(_ & _ & ?)]; [lia|done]).
    destruct (Z.eqb_spec head 0), (Z.eqb_spec (y + 32) (head + 40)); cbn [negb andb]; done || lia.
  - unfold links_prev. rewrite Hm, Z.eqb_refl. pose proof (Hs1 y Hy) as Z1. assert (Z2 : head <> y) by (destruct Hin as [->|(_ & _ & ?)]; [lia|done]).
    clear - Z1 Z2. destruct (Z.eqb_spec head 0), (Z.eqb_spec (y + 40) (head + 40)), (Z.eqb_spec (y + 40) (y + 32)); cbn [negb andb]; done || lia.
  - intros z Hz Hzy. unfold links_next. rewrite Hm. pose proof (Hs1 z Hz) as Z1. pose proof (sep48 P h bs FL z y H Hz Hy) as Z2.
    clear - Z1 Z2 Hzy. destruct (Z.eqb_spec head 0), (Z.eqb_spec (z + 32) (head + 40)), (Z.eqb_spec (z + 32) (y + 32)), (Z.eqb_spec (z + 32) (y + 40));
      cbn [negb andb]; done || lia.
  - intros z Hz Hzy. unfold links_prev. rewrite Hm. pose proof (Hs1 z Hz) as Z1. pose proof (sep48 P h bs FL z y H Hz Hy) as Z2.
    assert (Z3 : 16 <= z) by (by apply (block_bounds _ _ _ _ _ H)).
    clear - Z1 Z2 Z3 Hzy. destruct (Z.eqb_spec head 0), (Z.eqb_spec (z + 40) (head + 40)), (Z.eqb_spec (z + 40) (y + 32)),
      (Z.eqb_spec (z + 40) (y + 40)), (Z.eqb_spec z head); cbn [negb andb]; done || lia.
Qed.

Lemma bin_insert_inv P h bs FL y : inv P h bs FL -> y ∈ bs -> ~ P y -> is_free h y = true ->
  (forall c, c ∈ bs -> P c -> c <> y + 32 + block_size h y /\ y <> c + 32 + block_size h c) ->
  exists FL', inv (fun b => P b \/ b = y) (bin_insert y h) bs FL' /\ relinked (fun b => P b \/ b = y) h bs (bin_insert y h).
Proof.
  intros H Hy HP Hf Hiso. destruct (bin_insert_links P h bs FL y H Hy HP) as (R & Hb & Ey & Epy & Hx & Hp).
  pose proof (bin_index_range (block_size h y)) as Hk. remember (bin_index (block_size h y)) as k eqn:Hky.
  set (h' := bin_insert y h) in *.
  assert (Hny : forall j, 0 <= j < 16 -> y ∉ FL j).
  { intros j Hj Hin. by destruct (listed_in P h bs FL j y H Hj Hin). }
  assert (Hbs : forall j z, 0 <= j < 16 -> z ∈ FL j -> z ∈ bs) by (intros j z Hj Hz; by apply (listed_in P h bs FL j)).
  assert (Hy0 : y <> 0) by (pose proof (block_bounds _ _ _ _ _ H Hy); lia).
  exists (fun j => if j =? k then y :: FL k else FL j). split; [|exact R].
  apply (relinked_inv P (fun b => P b \/ b = y) h bs FL _ h' H R).
  - rewrite Hb, zlen_zset. apply H.
  - intros j Hj. unfold bin. rewrite Hb, bin_get by (done || apply H). destruct (Z.eqb_spec j k) as [->|]; [done|]. by apply H.
  - intros j Hj. destruct (Z.eqb_spec j k) as [->|Hjk].
    + apply (seg_insert (links_next h) (links_prev h) _ _ [] y (FL k)); cbn [app hd0 last0].
      * by apply H.
      * apply NoDup_cons. split; [by apply Hny|by apply H].
      * done.
      * done.
      * done.
      * intros z Hz. assert (z <> y) by (intros ->; by apply (Hny k)). rewrite Hx by eauto.
        assert (z <> 0) by (by apply (seg_nonzero _ _ _ _ _ _ (i_list _ _ _ _ H k Hk))). by destruct (Z.eqb_spec z 0).
      * intros z Hz. assert (z <> y) by (intros ->; by apply (Hny k)). rewrite Hp by eauto. done.
    + apply (seg_ext (links_next h) (links_prev h)); [by apply H|]. intros z Hz.
      assert (z <> y) by (intros ->; by apply (Hny j)). rewrite Hx, Hp by eauto. split; [done|].
      destruct (Z.eqb_spec z (hd0 0 (FL k))) as [Ez|]; [|done]. exfalso. destruct (hd0_in 0 (FL k)) as [[E0 _]|Hin].
      * apply (seg_nonzero _ _ _ _ _ _ (i_list _ _ _ _ H j Hj) Hz). congruence.
      * apply Hjk. rewrite <- Ez in Hin. destruct (proj1 (i_class _ _ _ _ H j z Hj) Hz) as (_ & _ & <-).
        destruct (proj1 (i_class _ _ _ _ H k z Hk) Hin) as (_ & _ & <-). reflexivity.
  - intros j Hj. destruct (Z.eqb_spec j k) as [->|]; [|by apply H]. apply NoDup_cons. split; [by apply Hny|by apply H].
  - intros b Hbb [?| ->]; [by apply (i_listed _ _ _ _ H)|done].
  - intros j b Hj. destruct (Z.eqb_spec j k) as [->|Hjk].
    + rewrite elem_of_cons. split.
      * intros [->|Hin]; [exact (conj Hy (conj (or_intror eq_refl) (eq_sym Hky)))|].
        destruct (proj1 (i_class _ _ _ _ H k b Hk) Hin) as (A1 & A2 & A3). exact (conj A1 (conj (or_introl A2) A3)).
      * intros (A1 & [A2|A2] & A3); [right; exact (proj2 (i_class _ _ _ _ H k b Hk) (conj A1 (conj A2 A3)))|by left].
    + split.
      * intros Hin. destruct (proj1 (i_class _ _ _ _ H j b Hj) Hin) as (A1 & A2 & A3). exact (conj A1 (conj (or_introl A2) A3)).
      * intros (A1 & [A2|A2] & A3); [exact (proj2 (i_class _ _ _ _ H j b Hj) (conj A1 (conj A2 A3)))|]. subst b. congruence.
  - intros b c Hb1 Hc1 [Pb| ->] [Pc| ->].
    + by apply (i_apart _ _ _ _ H).
    + by apply Hiso.
    + by apply Hiso.
    + pose proof (block_bounds _ _ _ _ _ H Hy). lia.
Qed.

(** ** What the live blocks see *)

(** From [h] to [h'] no live block but [x] changed its size or place, and every
    word of a live payload is as it was, those of [x] up to [lim]. *)
Record framed (x lim : Z) h bs h' bs' : Prop := {
  fr_live : forall b, b ∈ bs -> is_free h b = false ->
    b ∈ bs' /\ is_free h' b = false /\ (b <> x -> block_size h' b = block_size h b);
  fr_mem : forall b a, b ∈ bs -> is_free h b = false -> b + 32 <= a < b + 32 + block_size h b -> (b = x -> a < lim) ->
    mem h' a = mem h a /\ (b = x -> a < b + 32 + block_size h' b);
}.

Lemma framed_refl x lim h bs : framed x lim h bs h bs.
Proof. split; [done|]. intros b a Hb Hf Ha _. split; [done|]. lia. Qed.

Lemma framed_trans x lim h1 l1 h2 l2 h3 l3 : framed x lim h1 l1 h2 l2 -> framed x lim h2 l2 h3 l3 -> framed x lim h1 l1 h3 l3.
Proof.
  intros F G. split.
  - intros b Hb Hf. destruct (fr_live _ _ _ _ _ _ F b Hb Hf) as (Hb2 & Hf2 & E2).
    destruct (fr_live _ _ _ _ _ _ G b Hb2 Hf2) as (Hb3 & Hf3 & E3). split_and!; [done|done|].
    intros Hx. by rewrite E3, E2.
  - intros b a Hb Hf Ha Hl. destruct (fr_live _ _ _ _ _ _ F b Hb Hf) as (Hb2 & Hf2 & E2).
    destruct (fr_mem _ _ _ _ _ _ F b a Hb Hf Ha Hl) as [M1 S1].
    destruct (fr_mem _ _ _ _ _ _ G b a Hb2 Hf2) as [M2 S2]; [|done|].
    + destruct (decide (b = x)) as [Hx|Hx]; [specialize (S1 Hx); lia|]. rewrite E2 by done. done.
    + split; [congruence|done].
Qed.

Lemma relinked_framed x lim P P' h bs FL h' : inv P h bs FL -> relinked P' h bs h' ->
  (forall b, b ∈ bs -> P' b -> is_free h b = true) -> framed x lim h bs h' bs.
Proof.
  intros H R HP. split.
  - intros b Hb Hf. destruct (relinked_fields P h bs FL h' P' b H R Hb) as (Es & _ & _ & Ef).
    by rewrite (is_free_flags h h' b Ef).
  - intros b a Hb Hf Ha _. destruct (relinked_fields P h bs FL h' P' b H R Hb) as (-> & _). split; [|lia].
    apply (rl_mem _ _ _ _ R). intros c Hc HPc. pose proof (HP c Hc HPc). assert (b <> c) by congruence.
    destruct (blocks_apart _ _ _ _ _ _ H Hb Hc) as [?|?]; [done|].
    pose proof (block_bounds _ _ _ _ _ H Hb). pose proof (block_bounds _ _ _ _ _ H Hc). lia.
Qed.

(** Rearranging the chain around the listed blocks. *)
Lemma rechain_inv P h h' bs bs' FL : inv P h bs FL ->
  br_ok (process h') -> br_current (process h') mod 16 = 0 ->
  seg (next h') (prev h') 0 bs' 0 -> s_heap h' = hd0 0 bs' -> s_heap_tail h' = last0 0 bs' ->
  laid (block_size h') 1 bs' (br_current (process h')) ->
  (forall b, b ∈ bs' -> flags h' b = BLOCK_MAGIC \/ flags h' b = BLOCK_MAGIC + 2 ^ 32) ->
  s_bins h' = s_bins h ->
  (forall b, P b -> b ∈ bs' <-> b ∈ bs) ->
  (forall b, b ∈ bs -> P b -> block_size h' b = block_size h b /\ flags h' b = flags h b
     /\ links_next h' b = links_next h b /\ links_prev h' b = links_prev h b) ->
  inv P h' bs' FL.
Proof.
  intros H H1 H2 H3 H4 H5 H6 H7 H8 H9 Hf. split; try done.
  - intros b Hb HP. assert (Hb' : b ∈ bs) by (by apply H9). destruct (Hf b Hb' HP) as (_ & Ef & _).
    rewrite (is_free_flags h h' b Ef). by apply (i_listed _ _ _ _ H).
  - rewrite H8. apply H.
  - intros k Hk. unfold bin. rewrite H8. by apply H.
  - intros k Hk. apply (seg_ext (links_next h) (links_prev h)); [by apply H|]. intros z Hz.
    destruct (listed_in P h bs FL k z H Hk Hz) as [Hzb HP]. by destruct (Hf z Hzb HP) as (_ & _ & -> & ->).
  - apply H.
  - intros k b Hk. rewrite (i_class _ _ _ _ H k b Hk). split; intros (A1 & A2 & A3).
    + destruct (Hf b A1 A2) as (E & _). rewrite E. exact (conj (proj2 (H9 b A2) A1) (conj A2 A3)).
    + pose proof (proj1 (H9 b A2) A1) as A1'. destruct (Hf b A1' A2) as (E & _). rewrite E in A3. exact (conj A1' (conj A2 A3)).
  - intros b c Hb Hc Pb Pc. apply H9 in Hb, Hc; [|done..]. destruct (Hf b Hb Pb) as (-> & _). by apply (i_apart _ _ _ _ H).
Qed.

Lemma seg_mid nx pv l1 b l2 : seg nx pv 0 (l1 ++ b :: l2) 0 -> b <> 0 /\ pv b = last0 0 l1 /\ nx b = hd0 0 l2.
Proof. intros [_ Hs]%arena_seg_app. cbn in Hs. tauto. Qed.

Lemma absorb_mem P h l1 b a l2 FL : inv P h (l1 ++ b :: a :: l2) FL -> a = b + 32 + block_size h b ->
  let h' := absorb b a h in let n := hd0 0 l2 in
  (forall z, mem h' z = if negb (n =? 0) && (z =? n + 16) then b else if z =? b + 8 then n
                        else if z =? b then block_size h b + 32 + block_size h a else mem h z)
  /\ process h' = process h /\ s_heap h' = s_heap h /\ s_bins h' = s_bins h
  /\ s_heap_tail h' = (if n =? 0 then b else s_heap_tail h).
Proof.
  intros H Ea. cbn zeta.
  assert (Hb : b ∈ l1 ++ b :: a :: l2) by set_solver. assert (Ha : a ∈ l1 ++ b :: a :: l2) by set_solver.
  pose proof (block_bounds _ _ _ _ _ H Hb) as (B1 & B2 & B3 & B4 & B5). pose proof (block_bounds _ _ _ _ _ H Ha) as (A1 & A2 & A3 & A4 & A5).
  assert (Hs : seg (next h) (prev h) 0 ((l1 ++ [b]) ++ a :: l2) 0) by (rewrite <- app_assoc; apply H).
  destruct (seg_mid _ _ _ _ _ Hs) as (_ & _ & En). unfold absorb. rewrite header_size_32.
  assert (N1 : forall w, next (set_size b w h) a = next h a).
  { intros w. unfold next, set_size, set_word. cbn [mem with_mem]. rd. done. }
  rewrite N1, En. assert (N2 : forall w n, next (set_next b n (set_size b w h)) a = next h a).
  { intros w n. unfold next, set_next, set_size, set_word. cbn [mem with_mem]. rd. done. }
  rewrite N2, En. assert (U1 : u64 (32 + block_size h a) = 32 + block_size h a) by (apply u64_small; unfold is_u64; lia).
  assert (U2 : u64 (block_size h b + (32 + block_size h a)) = block_size h b + 32 + block_size h a) by (rewrite u64_small by (unfold is_u64; lia); lia).
  rewrite U1, U2. clear. split_and!; by destruct (hd0 0 l2 =? 0).
Qed.

Lemma nodup_mid (l1 l2 : list Z) b : NoDup (l1 ++ b :: l2) -> b ∉ l1 /\ b ∉ l2.
Proof. intros (_ & D & [Hn _]%NoDup_cons)%NoDup_app. split; [|done]. intros Hb. apply (D b Hb). by left. Qed.

Lemma absorb_inv P h l1 b a l2 FL x lim : inv P h (l1 ++ b :: a :: l2) FL -> ~ P b -> ~ P a ->
  a = b + 32 + block_size h b -> is_free h a = true -> (is_free h b = false -> b = x) ->
  let h' := absorb b a h in
  inv P h' (l1 ++ b :: l2) FL /\ framed x lim h (l1 ++ b :: a :: l2) h' (l1 ++ b :: l2)
  /\ block_size h' b = block_size h b + 32 + block_size h a
  /\ (forall z, z ∈ l1 ++ l2 -> block_size h' z = block_size h z)
  /\ (forall z, z ∈ l1 ++ b :: a :: l2 -> flags h' z = flags h z) /\ process h' = process h.
Proof.
  intros H HPb HPa Ea Hfa Hfb. cbn zeta. destruct (absorb_mem P h l1 b a l2 FL H Ea) as (Hm & Ep & Eh & Eb & Et).
  set (h' := absorb b a h) in *. set (n := hd0 0 l2) in *. set (bs := l1 ++ b :: a :: l2) in *.
  assert (Hin : forall z, z ∈ bs <-> z ∈ l1 \/ z = b \/ z = a \/ z ∈ l2) by (clear; intros z; unfold bs; set_solver).
  assert (Hb : b ∈ bs) by (apply Hin; tauto). assert (Ha : a ∈ bs) by (apply Hin; tauto).
  pose proof (laid_NoDup _ _ _ _ (i_laid _ _ _ _ H)) as Hnd. pose proof (i_chain _ _ _ _ H) as Hs.
  destruct (nodup_mid _ _ _ Hnd) as [Nb1 Nb2]. apply not_elem_of_cons in Nb2 as [Nba Nb2].
  assert (Na : a ∉ l1 ++ [b] /\ a ∉ l2) by (apply nodup_mid; by rewrite <- app_assoc). destruct Na as [Na1 Na2].
  apply not_elem_of_app in Na1 as [Na1 _].
  assert (Hs' : seg (next h) (prev h) 0 ((l1 ++ [b]) ++ a :: l2) 0) by (by rewrite <- app_assoc).
  destruct (seg_mid _ _ _ _ _ Hs') as (_ & Epa & Ena). fold n in Ena. rewrite last0_app in Epa. cbn in Epa.
  assert (Hnin : n = 0 \/ n ∈ bs /\ n <> b /\ n <> a).
  { unfold n. destruct (hd0_in 0 l2) as [[-> _]|Hh]; [by left|right]. split_and!; [by apply Hin; tauto|intros Eq; rewrite Eq in Hh; done..]. }
  assert (Hz : forall z, z ∈ bs -> 16 <= z /\ (z = b \/ z + 48 <= b \/ b + 48 <= z) /\ (n = 0 \/ z = n \/ z + 48 <= n \/ n + 48 <= z)).
  { intros z Hz. split_and!; [by apply (block_bounds _ _ _ _ _ H)|by apply (sep48 P h bs FL)|].
    destruct Hnin as [?|(Hn & _)]; [by left|right; by apply (sep48 P h bs FL)]. }
  assert (Hsz : forall z, z ∈ bs -> z <> b -> block_size h' z = block_size h z).
  { intros z Hzb Hne. destruct (Hz z Hzb) as (Z1 & Z2 & Z3). unfold block_size. rewrite Hm.
    clear - Z1 Z2 Z3 Hne. destruct (Z.eqb_spec n 0), (Z.eqb_spec z (n + 16)), (Z.eqb_spec z (b + 8)), (Z.eqb_spec z b); cbn [negb andb]; done || lia. }
  assert (Hszb : block_size h' b = block_size h b + 32 + block_size h a).
  { destruct (Hz b Hb) as (Z1 & Z2 & Z3). unfold block_size at 1. rewrite Hm, Z.eqb_refl.
    destruct (Z.eqb_spec n 0), (Z.eqb_spec b (n + 16)), (Z.eqb_spec b (b + 8)); cbn [negb andb]; try lia; done. }
  assert (Hfl : forall z, z ∈ bs -> flags h' z = flags h z).
  { intros z Hzb. destruct (Hz z Hzb) as (Z1 & Z2 & Z3). unfold flags. rewrite Hm.
    clear - Z1 Z2 Z3. destruct (Z.eqb_spec n 0), (Z.eqb_spec (z + 24) (n + 16)), (Z.eqb_spec (z + 24) (b + 8)), (Z.eqb_spec (z + 24) b); cbn [negb andb]; done || lia. }
  assert (Hpay : forall z c, z ∈ bs -> z + 32 <= c < z + 32 + block_size h z -> mem h' c = mem h c).
  { intros z c Hzb Hc. rewrite Hm. pose proof (block_bounds _ _ _ _ _ H Hb) as (_ & _ & Z1 & _). pose proof (block_bounds _ _ _ _ _ H Hzb) as (Z7 & _ & Z8 & _).
    pose proof (blocks_apart _ _ _ _ _ _ H Hzb Hb) as Z2. assert (Z3 : n = 0 \/ z = n \/ z + 32 + block_size h z <= n \/ n + 48 <= z).
    { destruct Hnin as [?|(Hn & _)]; [by left|right]. pose proof (blocks_apart _ _ _ _ _ _ H Hzb Hn) as A1. pose proof (block_bounds _ _ _ _ _ H Hn) as (_ & _ & A2 & _). clear - A1 A2. lia. }
    clear - Z1 Z2 Z3 Z7 Z8 Hc. destruct (Z.eqb_spec n 0), (Z.eqb_spec c (n + 16)), (Z.eqb_spec c (b + 8)), (Z.eqb_spec c b); cbn [negb andb]; try lia; done. }
  assert (Hin' : forall z, z ∈ l1 ++ b :: l2 <-> z ∈ l1 \/ z = b \/ z ∈ l2) by (clear; intros z; set_solver).
  assert (Hsub : forall z, z ∈ l1 ++ b :: l2 -> z ∈ bs) by (intros z Hzz; apply Hin; apply Hin' in Hzz; tauto).
  split_and!; [| |exact Hszb| |exact Hfl|exact Ep].
  - apply (rechain_inv P h h' bs (l1 ++ b :: l2) FL H).
    + rewrite Ep. apply H.
    + rewrite Ep. apply H.
    + replace (l1 ++ b :: l2) with ((l1 ++ [b]) ++ l2) by (by rewrite <- app_assoc).
      apply (seg_remove (next h) (prev h) _ _ (l1 ++ [b]) a l2 Hs'); [by rewrite <- app_assoc| |]; intros z Hzz; rewrite <- app_assoc in Hzz; cbn in Hzz;
        destruct (Hz z (Hsub z Hzz)) as (Z1 & Z2 & Z3); rewrite Epa, Ena; unfold next, prev; rewrite Hm; clear - Z1 Z2 Z3.
      * destruct (Z.eqb_spec n 0), (Z.eqb_spec (z + 8) (n + 16)), (Z.eqb_spec (z + 8) (b + 8)), (Z.eqb_spec (z + 8) b), (Z.eqb_spec z b); cbn [negb andb]; done || lia.
      * destruct (Z.eqb_spec n 0), (Z.eqb_spec (z + 16) (n + 16)), (Z.eqb_spec (z + 16) (b + 8)), (Z.eqb_spec (z + 16) b), (Z.eqb_spec z n); cbn [negb andb]; done || lia.
    + rewrite Eh, (i_head _ _ _ _ H). unfold bs. by destruct l1.
    + rewrite Et, (i_tail _ _ _ _ H). unfold bs, n. rewrite !last0_app. cbn [last0]. destruct l2 as [|y l2]; [done|]. cbn [hd0 last0].
      destruct (Z.eqb_spec y 0); [|done]. subst y. exfalso.
      apply (seg_nonzero _ _ _ _ _ 0 Hs); [|done]. apply Hin. right; right; right. by left.
    + rewrite Ep. pose proof (i_laid _ _ _ _ H) as Hl. unfold bs in Hl. apply laid_app in Hl as (mid & Hl1 & Hl2). apply laid_app. exists mid.
      split; [apply (laid_ext (block_size h)); [done|]; intros z Hzz; apply Hsz; [apply Hin; tauto|by intros ->]|].
      cbn [laid] in Hl2 |- *. destruct Hl2 as (G1 & G2 & G3 & G4 & G5 & G6 & G7 & G8 & G9). rewrite Hszb. split_and!; [done|done|lia|zlia|].
      replace (b + 32 + (block_size h b + 32 + block_size h a)) with (a + 32 + block_size h a) by lia.
      apply (laid_ext (block_size h)); [done|]. intros z Hzz. apply Hsz; [apply Hin; tauto|by intros ->].
    + intros z Hzz. rewrite Hfl by auto. apply (i_flags _ _ _ _ H). auto.
    + done.
    + intros z HPz. split; [apply Hsub|]. intros Hzz. assert (z <> a) by congruence. apply Hin'. apply Hin in Hzz. tauto.
    + intros z Hzb HPz. assert (z <> b) by congruence. split_and!; [by apply Hsz|by apply Hfl| |].
      * apply (Hpay z (z + 32)); [done|]. pose proof (block_bounds _ _ _ _ _ H Hzb). lia.
      * apply (Hpay z (z + 40)); [done|]. pose proof (block_bounds _ _ _ _ _ H Hzb). lia.
  - split.
    + intros z Hzb Hf. rewrite (is_free_flags h h' z) by (by apply Hfl). assert (z <> a) by congruence.
      split_and!; [apply Hin'; apply Hin in Hzb; tauto|done|]. intros Hx. apply Hsz; [done|]. intros ->. by apply Hx, Hfb.
    + intros z c Hzb Hf Hc _. split; [by apply (Hpay z)|]. intros ->. destruct (decide (x = b)) as [->|Hne]; [|rewrite Hsz by done; lia].
      rewrite Hszb. pose proof (block_bounds _ _ _ _ _ H Ha). lia.
  - intros z [Hzz|Hzz]%elem_of_app; (apply Hsz; [apply Hin; tauto|by intros ->]).
Qed.

Lemma carve_mem P h l1 b l2 FL wanted : inv P h (l1 ++ b :: l2) FL -> 16 <= wanted -> wanted mod 16 = 0 ->
  wanted + 48 <= block_size h b ->
  let r := b + 32 + wanted in let h' := carve b r wanted h in let n := hd0 0 l2 in
  (forall z, mem h' z = if z =? b + 8 then r else if z =? b then wanted
                        else if negb (n =? 0) && (z =? n + 16) then r else if z =? r + 16 then b
                        else if z =? r + 8 then n else if z =? r + 24 then BLOCK_MAGIC + 2 ^ 32
                        else if z =? r then block_size h b - wanted - 32 else mem h z)
  /\ process h' = process h /\ s_heap h' = s_heap h /\ s_bins h' = s_bins h
  /\ s_heap_tail h' = (if n =? 0 then r else s_heap_tail h).
Proof.
  intros H Hw Hw16 Hsz. cbn zeta. assert (Hb : b ∈ l1 ++ b :: l2) by set_solver.
  pose proof (block_bounds _ _ _ _ _ H Hb) as (B1 & B2 & B3 & B4 & B5).
  destruct (seg_mid _ _ _ _ _ (i_chain _ _ _ _ H)) as (_ & _ & En). unfold carve. rewrite header_size_32.
  set (r := b + 32 + wanted). assert (U : u64 (block_size h b - wanted - 32) = block_size h b - wanted - 32).
  { apply u64_small. unfold is_u64. lia. }
  rewrite U. set (S := block_size h b - wanted - 32).
  assert (N1 : next (set_block_flags r BLOCK_MAGIC 1 (set_size r S h)) b = hd0 0 l2).
  { rewrite <- En. unfold next, set_block_flags, set_size, set_word. cbn [mem with_mem]. rd. done. }
  rewrite N1. assert (N2 : next (set_prev r b (set_next r (hd0 0 l2) (set_block_flags r BLOCK_MAGIC 1 (set_size r S h)))) b = hd0 0 l2).
  { rewrite <- N1 at 2. unfold next, set_next, set_prev, set_block_flags, set_size, set_word. cbn [mem with_mem]. rd. done. }
  rewrite N2. clear. split_and!; by destruct (hd0 0 l2 =? 0).
Qed.

Section Carve.
Context (P : Z -> Prop) (h : Malloc B) (l1 : list Z) (b : Z) (l2 : list Z) (FL : Z -> list Z) (wanted : Z).
Hypothesis H : inv P h (l1 ++ b :: l2) FL.
Hypothesis Hw : 16 <= wanted.
Hypothesis Hw16 : wanted mod 16 = 0.
Hypothesis Hsz : wanted + 48 <= block_size h b.
Let r := b + 32 + wanted.
Let n := hd0 0 l2.
Let bs := l1 ++ b :: l2.
Let h' := carve b r wanted h.

Lemma carve_places z : z ∈ bs ->
  16 <= z /\ (z = b \/ z + 48 <= b \/ r + 48 <= z) /\ (n = 0 \/ z = n \/ z + 48 <= n \/ n + 48 <= z)
  /\ (n = 0 \/ r + 48 <= n).
Proof.
  intros Hz. assert (Hb : b ∈ bs) by (unfold bs; set_solver).
  pose proof (blocks_apart _ _ _ _ _ _ H Hz Hb) as A1. pose proof (block_bounds _ _ _ _ _ H Hz) as A2.
  split_and!; [lia|unfold r; lia| |].
  - unfold n. destruct (hd0_in 0 l2) as [[-> _]|Hh]; [by left|right]. apply (sep48 P h bs FL); [done|done|]. unfold bs. set_solver.
  - unfold n. destruct (hd0_in 0 l2) as [[-> _]|Hh]; [by left|right].
    pose proof (i_laid _ _ _ _ H) as Hl. apply laid_app in Hl as (mid & _ & Hl). cbn in Hl. destruct Hl as (_ & _ & _ & _ & Hl).
    pose proof (laid_bounds _ _ _ _ _ Hl Hh). unfold r. lia.
Qed.

Lemma carve_fields z : z ∈ bs -> flags h' z = flags h z
  /\ block_size h' z = (if z =? b then wanted else block_size h z)
  /\ next h' z = (if z =? b then r else next h z)
  /\ prev h' z = (if negb (n =? 0) && (z =? n) then r else prev h z).
Proof.
  intros Hz. destruct (carve_places z Hz) as (Z1 & Z2 & Z3 & Z4). destruct (carve_mem P h l1 b l2 FL wanted H Hw Hw16 Hsz) as (Hm & _).
  unfold h', flags, block_size, next, prev. fold r n in Hm. rewrite !Hm. assert (Z5 : b + 48 <= r) by (unfold r; lia).
  clear - Z1 Z2 Z3 Z4 Z5. split_and!; words.
Qed.

Lemma carve_rest : flags h' r = BLOCK_MAGIC + 2 ^ 32 /\ block_size h' r = block_size h b - wanted - 32
  /\ next h' r = n /\ prev h' r = b.
Proof.
  assert (Hb : b ∈ bs) by (unfold bs; set_solver). destruct (carve_places b Hb) as (Z1 & _ & _ & Z4).
  destruct (carve_mem P h l1 b l2 FL wanted H Hw Hw16 Hsz) as (Hm & _).
  unfold h', flags, next, prev. unfold block_size at 1. fold r n in Hm. rewrite !Hm. assert (Z5 : b + 48 <= r) by (unfold r; lia).
  generalize (block_size h b - wanted - 32). clear - Z1 Z4 Z5. intros S. split_and!; words.
Qed.

Lemma carve_payload z c : z ∈ bs -> z + 32 <= c < z + 32 + block_size h z -> (z = b -> c < r) -> mem h' c = mem h c.
Proof.
  intros Hz Hc Hr. destruct (carve_places z Hz) as (Z1 & Z2 & _ & Z4). destruct (carve_mem P h l1 b l2 FL wanted H Hw Hw16 Hsz) as (Hm & _).
  assert (Hb : b ∈ bs) by (unfold bs; set_solver).
  pose proof (blocks_apart _ _ _ _ _ _ H Hz Hb) as Z5. assert (Z6 : n = 0 \/ z = n \/ z + 32 + block_size h z <= n \/ n + 48 <= z).
  { unfold n. destruct (hd0_in 0 l2) as [[-> _]|Hh]; [by left|right]. assert (Hn : hd0 0 l2 ∈ bs) by (clear - Hh; set_solver).
    pose proof (blocks_apart _ _ _ _ _ _ H Hz Hn) as A1. pose proof (block_bounds _ _ _ _ _ H Hn) as (_ & _ & A2 & _). lia. }
  unfold h'. fold r n in Hm. rewrite Hm. assert (Z7 : b + 48 <= r) by (unfold r; lia).
  assert (Z8 : r + 48 <= b + 32 + block_size h b) by (unfold r; lia).
  assert (Z9 : z <> b \/ c < r) by (destruct (decide (z = b)); auto).
  assert (Z10 : b + 32 <= c < r \/ c < b \/ r + 32 <= c) by (clear - Z1 Z5 Z7 Z8 Z9 Hc; lia).
  assert (Z11 : n = 0 \/ c < n \/ n + 32 <= c) by (clear - Z1 Z6 Hc; lia). clear - Z4 Z7 Z10 Z11. words.
Qed.

Lemma carve_in z : z ∈ l1 ++ b :: r :: l2 <-> z = r \/ z ∈ bs.
Proof. unfold bs. clear. set_solver. Qed.

Lemma carve_new : r ∉ bs.
Proof.
  intros Hr. destruct (carve_places r Hr) as (_ & Z & _). unfold r in Z. lia.
Qed.

Lemma carve_chain : seg (next h') (prev h') 0 (l1 ++ b :: r :: l2) 0.
Proof.
  assert (Ea : l1 ++ b :: r :: l2 = (l1 ++ [b]) ++ r :: l2) by (by rewrite <- app_assoc).
  assert (Eb : (l1 ++ [b]) ++ l2 = bs) by (unfold bs; by rewrite <- app_assoc).
  destruct carve_rest as (_ & _ & En & Ep). rewrite Ea.
  apply (seg_insert (next h) (prev h)); rewrite ?Eb.
  - apply H.
  - rewrite <- Permutation_middle, Eb. apply NoDup_cons. split; [apply carve_new|]. exact (laid_NoDup _ _ _ _ (i_laid _ _ _ _ H)).
  - assert (Hb : b ∈ bs) by (unfold bs; set_solver). destruct (carve_places b Hb). unfold r. lia.
  - exact En.
  - rewrite last0_app. exact Ep.
  - intros z Hz. rewrite last0_app. cbn [last0]. by destruct (carve_fields z Hz) as (_ & _ & -> & _).
  - intros z Hz. destruct (carve_fields z Hz) as (_ & _ & _ & ->). fold n. destruct (carve_places z Hz) as (Z1 & _).
    clear - Z1. words.
Qed.

Lemma carve_laid : laid (block_size h') 1 (l1 ++ b :: r :: l2) (br_current (process h)).
Proof.
  pose proof (i_laid _ _ _ _ H) as Hl. destruct (nodup_mid _ _ _ (laid_NoDup _ _ _ _ Hl)) as [N1 N2].
  apply laid_app in Hl as (mid & Hl1 & Hl2). apply laid_app. exists mid.
  assert (Hz : forall z, z ∈ l1 \/ z ∈ l2 -> block_size h' z = block_size h z).
  { intros z Hz. destruct (carve_fields z) as (_ & -> & _); [unfold bs; clear - Hz; set_solver|].
    destruct (Z.eqb_spec z b) as [->|]; [tauto|done]. }
  split; [apply (laid_ext (block_size h)); [done|]; intros z ?; apply Hz; by left|].
  cbn [laid] in Hl2 |- *. destruct Hl2 as (G1 & G2 & G3 & G4 & G5).
  destruct (carve_fields b) as (_ & Eb & _); [unfold bs; clear; set_solver|]. rewrite Z.eqb_refl in Eb.
  destruct carve_rest as (_ & Er & _). rewrite Eb, Er. split_and!; [exact G1|exact G2|exact Hw|exact Hw16|unfold r; lia|unfold r; zlia|lia|zlia|].
  replace (r + 32 + (block_size h b - wanted - 32)) with (b + 32 + block_size h b) by (unfold r; lia).
  apply (laid_ext (block_size h)); [done|]. intros z ?; apply Hz; by right.
Qed.

Lemma carve_inv x lim : ~ P b -> ~ P r -> (is_free h b = false -> b = x /\ lim <= r) ->
  inv P h' (l1 ++ b :: r :: l2) FL /\ framed x lim h bs h' (l1 ++ b :: r :: l2).
Proof.
  intros HPb HPr Hx. destruct (carve_mem P h l1 b l2 FL wanted H Hw Hw16 Hsz) as (_ & Ep & Eh & Ebin & Et). fold r h' n in Ep, Eh, Ebin, Et.
  destruct carve_rest as (Ef & Es & _). split; [|split].
  - apply (rechain_inv P h h' bs (l1 ++ b :: r :: l2) FL H).
    + rewrite Ep. apply H.
    + rewrite Ep. apply H.
    + exact carve_chain.
    + rewrite Eh, (i_head _ _ _ _ H). unfold bs. by destruct l1.
    + rewrite Et, (i_tail _ _ _ _ H). unfold bs, n. rewrite !last0_app. cbn [last0]. destruct l2 as [|y l3] eqn:E2; [done|]. cbn [hd0 last0].
      destruct (Z.eqb_spec y 0); [|done]. subst y. exfalso. apply (seg_nonzero _ _ _ _ _ 0 (i_chain _ _ _ _ H)); [|done].
      clear. set_solver.
    + rewrite Ep. exact carve_laid.
    + intros z [->|Hz]%carve_in; [by right|]. destruct (carve_fields z Hz) as (-> & _). by apply (i_flags _ _ _ _ H).
    + exact Ebin.
    + intros z HPz. rewrite carve_in. split; [intros [->|?]; done|by right].
    + intros z Hz HPz. assert (z <> b) by congruence. destruct (carve_fields z Hz) as (E1 & E2 & _).
      pose proof (block_bounds _ _ _ _ _ H Hz). destruct (Z.eqb_spec z b); [done|]. split_and!; [done|done| |];
      (apply (carve_payload z); [done|lia|done]).
  - intros z Hz Hf. destruct (carve_fields z Hz) as (E1 & E2 & _). rewrite (is_free_flags h h' z E1), carve_in.
    split_and!; [by right|done|]. intros Hzx. rewrite E2. destruct (Z.eqb_spec z b) as [->|]; [|done]. destruct (Hx Hf). done.
  - intros z c Hz Hf Hc Hl. assert (Hr : z = b -> c < r).
    { intros ->. destruct (Hx Hf) as [-> Hlim]. specialize (Hl eq_refl). lia. }
    split; [by apply (carve_payload z)|]. intros ->. destruct (carve_fields x Hz) as (_ & -> & _).
    destruct (Z.eqb_spec x b) as [->|]; [|lia]. specialize (Hr eq_refl). unfold r in Hr. lia.
Qed.
End Carve.

(** ** Marking a block, and fresh memory *)

Lemma magic_ok P h bs FL b : inv P h bs FL -> b ∈ bs -> magic h b = BLOCK_MAGIC.
Proof. intros H Hb. unfold magic. by destruct (i_flags _ _ _ _ H b Hb) as [-> | ->]. Qed.

Lemma is_free_cases P h bs FL b : inv P h bs FL -> b ∈ bs ->
  flags h b = BLOCK_MAGIC /\ is_free h b = false \/ flags h b = BLOCK_MAGIC + 2 ^ 32 /\ is_free h b = true.
Proof.
  intros H Hb. unfold is_free. destruct (i_flags _ _ _ _ H b Hb) as [-> | ->]; [left|right]; done.
Qed.

Lemma set_is_free_inv P h bs FL b (f : bool) : inv P h bs FL -> b ∈ bs -> ~ P b ->
  let h' := set_is_free b (if f then 1 else 0) h in
  inv P h' bs FL /\ is_free h' b = f /\ process h' = process h
  /\ (forall a, a <> b + 24 -> mem h' a = mem h a)
  /\ (forall c, c ∈ bs -> block_size h' c = block_size h c /\ next h' c = next h c /\ prev h' c = prev h c)
  /\ (forall c, c ∈ bs -> c <> b -> flags h' c = flags h c).
Proof.
  intros H Hb HP. cbn zeta. set (h' := set_is_free _ _ h).
  assert (Hm : forall a, a <> b + 24 -> mem h' a = mem h a).
  { intros a Ha. unfold h', set_is_free, set_block_flags, set_word. cbn [mem with_mem]. by rewrite upd_ne. }
  assert (Hfb : flags h' b = BLOCK_MAGIC + Z.shiftl (if f then 1 else 0) 32).
  { unfold h', set_is_free, set_block_flags, set_word, flags. cbn [mem with_mem]. rewrite upd_eq. by rewrite (magic_ok P h bs FL b H Hb). }
  assert (Hw : forall c o, c ∈ bs -> 0 <= o < 48 -> (c = b -> o <> 24) -> mem h' (c + o) = mem h (c + o)).
  { intros c o Hc Ho Hne. apply Hm. pose proof (sep48 P h bs FL c b H Hc Hb). destruct (decide (c = b)) as [->|]; [specialize (Hne eq_refl)|]; lia. }
  assert (Hf : forall c, c ∈ bs -> block_size h' c = block_size h c /\ next h' c = next h c /\ prev h' c = prev h c).
  { intros c Hc. unfold block_size, next, prev. pose proof (Hw c 0 Hc ltac:(lia) ltac:(lia)) as E. rewrite Z.add_0_r in E.
    split_and!; [done|apply (Hw c 8)|apply (Hw c 16)]; done || lia. }
  assert (Hfl : forall c, c ∈ bs -> c <> b -> flags h' c = flags h c) by (intros c Hc Hne; apply (Hw c 24); done || lia).
  split_and!; [|unfold is_free; rewrite Hfb; by destruct f|done|done|done|done].
  apply (rechain_inv P h h' bs bs FL H); try apply H.
  - apply (seg_ext (next h) (prev h)); [apply H|]. intros c Hc. by destruct (Hf c Hc) as (_ & -> & ->).
  - apply (laid_ext (block_size h)); [apply H|]. intros c Hc. by destruct (Hf c Hc) as (-> & _).
  - intros c Hc. destruct (decide (c = b)) as [->|Hne]; [|rewrite Hfl by done; by apply (i_flags _ _ _ _ H)].
    rewrite Hfb. destruct f; [by right|by left].
  - done.
  - done.
  - intros c Hc HPc. assert (c <> b) by congruence. destruct (Hf c Hc) as (-> & _). split_and!; [done|by apply Hfl| |]; unfold links_next, links_prev; apply Hw; done || lia.
Qed.

Lemma append_inv P h bs FL block total : inv P h bs FL -> ~ P block ->
  laid (block_size h) 1 bs block -> 16 <= block -> block mod 16 = 0 -> 48 <= total -> total mod 16 = 0 ->
  br_current (process h) = block + total ->
  let h' := append_block block total h in
  inv P h' (bs ++ [block]) FL /\ process h' = process h
  /\ is_free h' block = true /\ block_size h' block = total - 32 /\ next h' block = 0 /\ prev h' block = last0 0 bs
  /\ (forall z, z ∈ bs -> block_size h' z = block_size h z /\ flags h' z = flags h z)
  /\ (forall z a, z ∈ bs -> z + 32 <= a < z + 32 + block_size h z -> mem h' a = mem h a).
Proof.
  intros H HP Hl Hb1 Hb2 Ht1 Ht2 Hbr. cbn zeta. set (h' := append_block block total h).
  pose proof (br_range _ (i_brk _ _ _ _ H)) as Hr. set (t := last0 0 bs).
  assert (Htail : t = 0 \/ t ∈ bs) by (unfold t; destruct (last0_in 0 bs) as [[-> _]|?]; [by left|by right]).
  assert (Hm : forall z, mem h' z = if negb (t =? 0) && (z =? t + 8) then block else if z =? block + 24 then BLOCK_MAGIC + 2 ^ 32
                         else if z =? block + 16 then t else if z =? block + 8 then 0 else if z =? block then total - 32 else mem h z).
  { intros z. unfold h', append_block. rewrite header_size_32, u64_small by (unfold is_u64; lia).
    cbn [s_heap_tail set_prev set_next set_size set_block_flags set_word with_mem]. rewrite (i_tail _ _ _ _ H). fold t. by destruct (t =? 0). }
  assert (Hpos : forall z, z ∈ bs -> 16 <= z /\ z + 48 <= block /\ z + 32 + block_size h z <= block).
  { intros z Hz. pose proof (laid_bounds _ _ _ _ _ Hl Hz) as A. pose proof (block_bounds _ _ _ _ _ H Hz). lia. }
  assert (Hz0 : forall z, z ∈ bs -> (t = 0 \/ z = t \/ z + 48 <= t \/ t + 48 <= z) /\ (t = 0 \/ t + 48 <= block)).
  { intros z Hz. destruct Htail as [->|Ht]; [by split; left|]. split; [right; by apply (sep48 P h bs FL)|right; by apply Hpos]. }
  assert (Hold : forall z, z ∈ bs -> block_size h' z = block_size h z /\ flags h' z = flags h z
      /\ next h' z = (if z =? t then block else next h z) /\ prev h' z = prev h z).
  { intros z Hz. destruct (Hpos z Hz) as (A1 & A2 & _). destruct (Hz0 z Hz) as [A3 A4].
    unfold block_size, flags, next, prev. rewrite !Hm. clear - A1 A2 A3 A4. split_and!; words. }
  assert (Hnew : flags h' block = BLOCK_MAGIC + 2 ^ 32 /\ block_size h' block = total - 32 /\ next h' block = 0 /\ prev h' block = t).
  { assert (A : t = 0 \/ t + 48 <= block) by (destruct Htail as [->|Ht]; [by left|right; by apply Hpos]).
    unfold block_size, flags, next, prev. rewrite !Hm. clear - A Hb1. split_and!; words. }
  assert (Hpay : forall z a, z ∈ bs -> z + 32 <= a < z + 32 + block_size h z -> mem h' a = mem h a).
  { intros z a Hz Ha. destruct (Hpos z Hz) as (A1 & A2 & A3). destruct (Hz0 z Hz) as [_ A4].
    assert (A5 : t = 0 \/ a < t \/ t + 32 <= a).
    { destruct Htail as [->|Ht]; [by left|right]. pose proof (blocks_apart _ _ _ _ _ _ H Hz Ht). pose proof (block_bounds _ _ _ _ _ H Ht). lia. }
    rewrite Hm. clear - A1 A2 A3 A4 A5 Ha. words. }
  destruct Hnew as (Nf & Ns & Nn & Np).
  assert (Ep : process h' = process h) by (unfold h', append_block; by case_match).
  split_and!; [|done|unfold is_free; by rewrite Nf|done|done|done|by intros z Hz; destruct (Hold z Hz) as (? & ? & _)|done].
  apply (rechain_inv P h h' bs (bs ++ [block]) FL H); rewrite ?Ep.
  - apply H.
  - apply H.
  - apply (seg_insert (next h) (prev h) _ _ bs block []); rewrite ?app_nil_r; cbn [hd0]; fold t; [apply H| |lia|done|done| |].
    + apply NoDup_app. split_and!; [exact (laid_NoDup _ _ _ _ Hl)| |by apply NoDup_singleton].
      intros z Hz ->%list_elem_of_singleton. destruct (Hpos _ Hz) as (? & ? & ?). lia.
    + intros z Hz. by destruct (Hold z Hz) as (_ & _ & -> & _).
    + intros z Hz. destruct (Hold z Hz) as (_ & _ & _ & ->). destruct (Hpos z Hz) as (? & ? & ?). by destruct (Z.eqb_spec z 0); [lia|].
  - assert (Eh : s_heap h' = if t =? 0 then block else s_heap h).
    { unfold h', append_block. cbn [s_heap_tail set_prev set_next set_size set_block_flags set_word with_mem].
      rewrite (i_tail _ _ _ _ H). fold t. by destruct (t =? 0). }
    rewrite Eh. destruct (Z.eqb_spec t 0) as [E|E].
    + destruct bs as [|c l]; [done|]. destruct (last0_in 0 (c :: l)) as [[_ ?]|Hin]; [done|]. fold t in Hin. rewrite E in Hin. destruct (Hpos 0 Hin) as (? & ? & ?). lia.
    + rewrite (i_head _ _ _ _ H). unfold t in E. by destruct bs.
  - rewrite last0_app. unfold h', append_block. by case_match.
  - rewrite Hbr. apply laid_app. exists block. split; [apply (laid_ext (block_size h)); [done|]; intros z Hz; by destruct (Hold z Hz)|].
    cbn [laid]. rewrite Ns. split_and!; [lia|done|lia|zlia|lia].
  - intros z [Hz| ->%list_elem_of_singleton]%elem_of_app; [|by right]. destruct (Hold z Hz) as (_ & -> & _). by apply (i_flags _ _ _ _ H).
  - unfold h', append_block. by case_match.
  - intros z HPz. rewrite elem_of_app, list_elem_of_singleton. split; [intros [?| ->]; done|by left].
  - intros z Hz HPz. destruct (Hold z Hz) as (-> & -> & _). pose proof (block_bounds _ _ _ _ _ H Hz). split_and!; [done|done| |]; apply (Hpay z); done || lia.
Qed.
End Safe.
