(* ===== verification/MallocSafe.v ===== *)
(** * What malloc promises

    The contract of malloc, free, calloc and realloc of [Malloc.v]: a client that
    frees and resizes only what it was given and writes only inside its blocks is
    never told its heap is corrupt, its blocks never overlap, and nothing but its
    own writes changes what is in them. *)

From S2P Require Import Prelude Words Malloc MallocArena.

#[local] Opaque bin_index.

Section Calls.
Context {B : Type} {BK : Break B}.
Implicit Types (h : Malloc B) (bs X : list Z) (P : Z -> Prop) (FL : Z -> list Z) (L : gmap Z Z).

(** The blocks on the lists are the free ones, except those of [X]. *)
Definition listed X h bs (c : Z) : Prop := c ∈ bs /\ is_free h c = true /\ c ∉ X.
Definition arena X h bs FL : Prop := inv (listed X h bs) h bs FL.

Lemma inv_iff P P' h bs FL : inv P h bs FL -> (forall c, c ∈ bs -> P c <-> P' c) -> inv P' h bs FL.
Proof.
  intros H E. split; try apply H.
  - intros b Hb HP. apply (i_listed _ _ _ _ H b Hb), E; done.
  - intros k b Hk. rewrite (i_class _ _ _ _ H k b Hk).
    split; intros (A1 & A2 & A3); exact (conj A1 (conj (proj1 (E b A1) A2) A3)) || exact (conj A1 (conj (proj2 (E b A1) A2) A3)).
  - intros b c Hb Hc Pb Pc. apply (i_apart _ _ _ _ H); [done|done|apply E|apply E]; done.
Qed.

Lemma arena_remove X h bs FL y : arena X h bs FL -> listed X h bs y ->
  exists FL', arena (y :: X) (bin_remove y h) bs FL' /\ relinked (listed X h bs) h bs (bin_remove y h)
    /\ forall x lim, framed x lim h bs (bin_remove y h) bs.
Proof.
  intros H Hy. destruct (bin_remove_inv _ h bs FL y H (proj1 Hy) Hy) as (FL' & I & R).
  exists FL'. split; [|split; [exact R|]].
  - apply (inv_iff _ _ _ _ _ I). intros c Hc. destruct (relinked_fields _ h bs FL _ _ c H R Hc) as (_ & _ & _ & Ef).
    unfold listed. rewrite (is_free_flags _ _ c Ef), not_elem_of_cons. tauto.
  - intros x lim. apply (relinked_framed x lim _ _ h bs FL _ H R). intros b Hb (_ & ? & _). done.
Qed.

Lemma arena_insert X h bs FL y : arena (y :: X) h bs FL -> y ∈ bs -> y ∉ X -> is_free h y = true ->
  (forall c, listed (y :: X) h bs c -> c <> y + 32 + block_size h y /\ y <> c + 32 + block_size h c) ->
  exists FL', arena X (bin_insert y h) bs FL' /\ relinked (listed X h bs) h bs (bin_insert y h)
    /\ forall x lim, framed x lim h bs (bin_insert y h) bs.
Proof.
  intros H Hy HX Hf Hiso.
  destruct (bin_insert_inv _ h bs FL y H Hy) as (FL' & I & R); [unfold listed; set_solver|done|by intros c _; apply Hiso|].
  assert (E : forall c, c ∈ bs -> (listed (y :: X) h bs c \/ c = y) <-> listed X h bs c).
  { intros c Hc. unfold listed. rewrite not_elem_of_cons. destruct (decide (c = y)) as [->|]; tauto. }
  assert (R' : relinked (listed X h bs) h bs (bin_insert y h)).
  { split; [apply R|apply R|apply R|]. intros a Ha. apply (rl_mem _ _ _ _ R). intros b Hb HP. apply Ha; [done|by apply E]. }
  exists FL'. split; [|split; [exact R'|]].
  - apply (inv_iff _ _ _ _ _ I). intros c Hc. destruct (relinked_fields _ h bs FL _ _ c H R' Hc) as (_ & _ & _ & Ef).
    rewrite (E c Hc). unfold listed. by rewrite (is_free_flags _ _ c Ef).
  - intros x lim. apply (relinked_framed x lim _ _ h bs FL _ H R'). intros b Hb (_ & ? & _). done.
Qed.

Lemma adjacent_spec P h bs FL b c : inv P h bs FL -> b ∈ bs -> adjacent b c h = true <-> c = b + 32 + block_size h b.
Proof.
  intros H Hb. pose proof (block_bounds _ _ _ _ _ H Hb). unfold adjacent. rewrite header_size_32, u64_small by (unfold is_u64; lia).
  rewrite Z.eqb_eq. lia.
Qed.

(** Merging [b], which is off the lists, with what follows it. *)
Lemma merge_spec X h l1 b l2 FL x lim : arena X h (l1 ++ b :: l2) FL -> b ∈ X -> (is_free h b = false -> b = x) ->
  (forall c, c ∈ X -> c <> b + 32 + block_size h b) ->
  let h' := merge_with_next b h in
  exists l2' FL', arena X h' (l1 ++ b :: l2') FL' /\ framed x lim h (l1 ++ b :: l2) h' (l1 ++ b :: l2')
    /\ process h' = process h /\ l2' ⊆ l2
    /\ (forall c, c ∈ l1 ++ b :: l2' -> flags h' c = flags h c)
    /\ (forall c, c ∈ l1 ++ l2' -> block_size h' c = block_size h c)
    /\ (forall c, c ∈ l1 ++ b :: l2' -> is_free h' c = true -> c ∉ X -> c <> b + 32 + block_size h' b)
    /\ (h' = h /\ l2' = l2 \/ exists a, l2 = a :: l2' /\ a = b + 32 + block_size h b /\ is_free h a = true
         /\ block_size h' b = block_size h b + 32 + block_size h a).
Proof.
  intros H HbX Hx HXa. cbn zeta. assert (Hb : b ∈ l1 ++ b :: l2) by set_solver.
  destruct (seg_mid _ _ _ _ _ (i_chain _ _ _ _ H)) as (_ & _ & En). unfold merge_with_next. rewrite En.
  pose proof (i_laid _ _ _ _ H) as Hl.
  assert (Hskip : (forall c, c ∈ l1 ++ b :: l2 -> is_free h c = true -> c ∉ X -> c <> b + 32 + block_size h b) ->
    exists l2' FL', arena X h (l1 ++ b :: l2') FL' /\ framed x lim h (l1 ++ b :: l2) h (l1 ++ b :: l2')
    /\ process h = process h /\ l2' ⊆ l2 /\ (forall c, c ∈ l1 ++ b :: l2' -> flags h c = flags h c)
    /\ (forall c, c ∈ l1 ++ l2' -> block_size h c = block_size h c)
    /\ (forall c, c ∈ l1 ++ b :: l2' -> is_free h c = true -> c ∉ X -> c <> b + 32 + block_size h b)
    /\ (h = h /\ l2' = l2 \/ exists a, l2 = a :: l2' /\ a = b + 32 + block_size h b /\ is_free h a = true
         /\ block_size h b = block_size h b + 32 + block_size h a)).
  { intros Hn. exists l2, FL. split_and!; [done|apply framed_refl|done|done|done|done|done|by left]. }
  destruct l2 as [|a l2]; cbn [hd0].
  { cbn [Z.eqb orb]. apply Hskip. intros c Hc _ _ E. destruct (laid_next _ _ _ _ _ _ _ Hl Hc E). done. }
  assert (Ha : a ∈ l1 ++ b :: a :: l2) by set_solver.
  pose proof (block_bounds _ _ _ _ _ H Ha) as (A1 & _). destruct (Z.eqb_spec a 0); [lia|]. cbn [orb].
  assert (Hn : forall c, c ∈ l1 ++ b :: a :: l2 -> c = b + 32 + block_size h b -> c = a).
  { intros c Hc E. destruct (laid_next _ _ _ _ _ _ _ Hl Hc E) as (l' & El). congruence. }
  destruct (is_free h a) eqn:Hfa; cbn [negb orb].
  2: { apply Hskip. intros c Hc Hf _ E. rewrite (Hn c Hc E) in Hf. congruence. }
  destruct (adjacent b a h) eqn:Hadj; cbn [negb].
  2: { apply Hskip. intros c Hc _ _ E. pose proof (Hn c Hc E) as ->. apply (adjacent_spec _ h _ FL b a H Hb) in E. congruence. }
  apply (adjacent_spec _ h _ FL b a H Hb) in Hadj. assert (HaX : a ∉ X) by (intros Hin; by apply (HXa a Hin)).
  destruct (arena_remove X h _ FL a H) as (FL1 & I1 & R1 & F1); [done|]. set (h1 := bin_remove a h) in *.
  pose proof (fun c => relinked_fields _ h _ FL h1 _ c H R1) as Hf1. destruct (Hf1 b Hb) as (Sb & _ & _ & Fb). destruct (Hf1 a Ha) as (Sa & _ & _ & Fa).
  destruct (absorb_inv _ h1 l1 b a l2 FL1 x lim I1) as (I2 & F2 & S2 & So2 & Fl2 & P2).
  { intros (_ & _ & Hx'). apply Hx'. by right. } { intros (_ & _ & Hx'). apply Hx'. by left. } { by rewrite Sb. } { by rewrite (is_free_flags h h1 a Fa). }
  { rewrite (is_free_flags h h1 b Fb). done. }
  set (h2 := absorb b a h1) in *.
  assert (Hsub : forall c, c ∈ l1 ++ b :: l2 -> c ∈ l1 ++ b :: a :: l2) by (clear; set_solver).
  assert (Hflags : forall c, c ∈ l1 ++ b :: l2 -> flags h2 c = flags h c).
  { intros c Hc. rewrite Fl2 by auto. by destruct (Hf1 c (Hsub c Hc)) as (_ & _ & _ & ->). }
  assert (Hna : a ∉ l1 ++ b :: l2).
  { pose proof (laid_NoDup _ _ _ _ Hl) as Hnd. replace (l1 ++ b :: a :: l2) with ((l1 ++ [b]) ++ a :: l2) in Hnd by (by rewrite <- app_assoc).
    apply nodup_mid in Hnd as [N1 N2]. clear - N1 N2. set_solver. }
  assert (I3 : arena X h2 (l1 ++ b :: l2) FL1).
  { apply (inv_iff _ _ _ _ _ I2). intros c Hc. unfold listed.
    rewrite (is_free_flags h1 h2 c) by (apply Fl2; auto). rewrite not_elem_of_cons.
    assert (c <> a) by (intros ->; done). specialize (Hsub c Hc). tauto. }
  exists l2, FL1. split_and!.
  - exact I3.
  - eapply framed_trans; [apply F1|exact F2].
  - rewrite P2. apply (rl_process _ _ _ _ R1).
  - intros z Hz. by right.
  - exact Hflags.
  - intros c Hc. rewrite So2 by done. destruct (Hf1 c) as (-> & _); [clear - Hc; set_solver|done].
  - intros c Hc Hf Hcx Ec. rewrite S2, Sb, Sa in Ec.
    assert (Hla : listed X h (l1 ++ b :: a :: l2) a) by done.
    apply (i_apart _ _ _ _ H a c); [done|auto|done| |].
    + split_and!; [auto| |done]. by rewrite (is_free_flags h h2 c) in Hf by (by apply Hflags).
    + lia.
  - right. exists a. by rewrite S2, Sb, Sa.
Qed.

(** Splitting [b], which is off the lists, at [wanted] bytes. *)
Lemma split_spec h l1 b l2 FL x lim wanted : arena [b] h (l1 ++ b :: l2) FL ->
  16 <= wanted -> wanted mod 16 = 0 -> wanted <= block_size h b ->
  (is_free h b = false -> b = x /\ lim <= b + 32 + wanted) ->
  let h' := split b wanted h in
  exists bs' FL', arena [b] h' bs' FL' /\ framed x lim h (l1 ++ b :: l2) h' bs' /\ b ∈ bs'
    /\ process h' = process h /\ flags h' b = flags h b /\ wanted <= block_size h' b
    /\ (forall c, c ∈ bs' -> is_free h' c = false -> c ∈ l1 ++ b :: l2 /\ is_free h c = false).
Proof.
  intros H Hw Hw16 Hsz Hx. cbn zeta. assert (Hb : b ∈ l1 ++ b :: l2) by (clear; set_solver).
  pose proof (block_bounds _ _ _ _ _ H Hb) as (B1 & B2 & B3 & B4 & B5). unfold split, ALIGNMENT. rewrite header_size_32.
  rewrite (u64_small (wanted + 32)) by (unfold is_u64; lia). rewrite (u64_small (_ + 16)) by (unfold is_u64; lia).
  destruct (Z.ltb_spec (block_size h b) (wanted + 32 + 16)) as [Hlt|Hge].
  { exists (l1 ++ b :: l2), FL. split_and!; [done|apply framed_refl|done|done|done|done|done]. }
  rewrite (u64_small (b + 32 + wanted)) by (unfold is_u64; lia).
  set (r := b + 32 + wanted). assert (Hsz' : wanted + 48 <= block_size h b) by lia.
  pose proof (carve_new _ h l1 b l2 FL wanted H Hw Hw16 Hsz') as Hnew. fold r in Hnew.
  destruct (carve_inv _ h l1 b l2 FL wanted H Hw Hw16 Hsz' x lim) as (I1 & F1).
  { intros (_ & _ & Hn). apply Hn. by left. } { intros (Hn & _). done. } { exact Hx. } fold r in I1, F1.
  destruct (carve_rest _ h l1 b l2 FL wanted H Hw Hw16 Hsz') as (Fr & Sr & _). fold r in Fr, Sr.
  pose proof (carve_fields _ h l1 b l2 FL wanted H Hw Hw16 Hsz') as Hf1. fold r in Hf1.
  assert (P1 : process (carve b r wanted h) = process h) by apply (carve_mem _ h l1 b l2 FL wanted H Hw Hw16 Hsz').
  set (h1 := carve b r wanted h) in *.
  assert (Hrb : r <> b) by (unfold r; lia).
  assert (Hin1 : forall c, c ∈ l1 ++ b :: r :: l2 <-> c = r \/ c ∈ l1 ++ b :: l2) by (clear; set_solver).
  assert (Efr : is_free h1 r = true) by (unfold is_free; by rewrite Fr).
  replace (l1 ++ b :: r :: l2) with ((l1 ++ [b]) ++ r :: l2) in * by (by rewrite <- app_assoc).
  assert (I1' : arena [r; b] h1 ((l1 ++ [b]) ++ r :: l2) FL).
  { apply (inv_iff _ _ _ _ _ I1). intros c Hc. unfold listed. rewrite !not_elem_of_cons. apply Hin1 in Hc as [->|Hc]; [tauto|].
    assert (c <> r) by congruence. destruct (Hf1 c Hc) as (Ef & _). rewrite (is_free_flags h h1 c Ef), Hin1. tauto. }
  destruct (merge_spec [r; b] h1 (l1 ++ [b]) r l2 FL x lim I1') as (l2' & FL2 & I2 & F2 & P2 & Sub & Fl2 & S2 & Iso & _).
  { by left. } { congruence. } { intros c Hc. apply elem_of_cons in Hc as [->|Hc%list_elem_of_singleton]; [rewrite Sr; lia|subst c; rewrite Sr; unfold r; lia]. }
  set (h2 := merge_with_next r h1) in *.
  assert (Hin2 : forall c, c ∈ (l1 ++ [b]) ++ r :: l2' -> c = r \/ c ∈ l1 ++ b :: l2) by (clear - Sub; set_solver).
  assert (Hb2 : b ∈ (l1 ++ [b]) ++ r :: l2') by (clear; set_solver). assert (Hr2 : r ∈ (l1 ++ [b]) ++ r :: l2') by (clear; set_solver).
  destruct (arena_insert [b] h2 _ FL2 r I2) as (FL3 & I3 & R3 & F3); [done|by apply not_elem_of_cons; split; [|apply not_elem_of_nil]| | |].
  { rewrite (is_free_flags h1 h2 r); [done|by apply Fl2]. }
  { intros c (Hc & Hfc & HX). split; [by apply Iso|]. intros Er. apply HX.
    assert (c <> r) by (intros ->; apply HX; by left).
    assert (Sb2 : block_size h2 b = wanted) by (rewrite S2 by (clear; set_solver); destruct (Hf1 b Hb) as (_ & -> & _); by rewrite Z.eqb_refl).
    destruct (blocks_apart _ _ _ _ _ _ I2 Hb2 Hc) as [->|[G|G]]; [right; by left| |];
      exfalso; pose proof (block_bounds _ _ _ _ _ I2 Hc) as (_ & _ & G2 & _); rewrite ?Sb2 in G; unfold r in *; lia. }
  exists ((l1 ++ [b]) ++ r :: l2'), FL3.
  destruct (relinked_fields _ h2 _ FL2 _ _ b I2 R3 Hb2) as (Sb3 & _ & _ & Fb3).
  split_and!.
  - exact I3.
  - eapply framed_trans; [exact F1|]. eapply framed_trans; [exact F2|]. apply F3.
  - done.
  - rewrite (rl_process _ _ _ _ R3), P2. exact P1.
  - rewrite Fb3, Fl2 by done. by destruct (Hf1 b Hb) as (-> & _).
  - rewrite Sb3, S2 by (clear; set_solver). destruct (Hf1 b Hb) as (_ & -> & _). rewrite Z.eqb_refl. done.
  - intros c Hc Hfc. destruct (relinked_fields _ h2 _ FL2 _ _ c I2 R3 Hc) as (_ & _ & _ & Fc3).
    rewrite (is_free_flags h2 _ c Fc3), (is_free_flags h1 h2 c) in Hfc by (by apply Fl2).
    destruct (Hin2 c Hc) as [->|Hc']; [congruence|]. split; [done|]. destruct (Hf1 c Hc') as (Ef & _). by rewrite (is_free_flags h h1 c Ef) in Hfc.
Qed.

(** ** Finding a free block *)

Lemma laid_span sz lo bs hi : laid sz lo bs hi -> 48 * (Z.of_nat (length bs) - 1) <= last0 0 bs - hd0 0 bs.
Proof.
  destruct bs as [|b bs]; [cbn; lia|]. cbn [hd0 last0 length laid]. intros (_ & _ & Hs & _ & Hl).
  revert b Hs Hl. induction bs as [|c bs IH]; intros b Hs Hl; cbn [last0 length]; [lia|].
  cbn [laid] in Hl. destruct Hl as (? & _ & Hc & _ & Hl). specialize (IH c Hc Hl). lia.
Qed.

Lemma list_fuel_enough P h bs FL k : inv P h bs FL -> 0 <= k < 16 -> (length (FL k) <= list_fuel h)%nat.
Proof.
  intros H Hk. assert (Hle : (length (FL k) <= length bs)%nat).
  { apply submseteq_length, NoDup_submseteq; [by apply (i_nodup _ _ _ _ H)|]. intros b Hb. by apply (listed_in P h bs FL k b H Hk). }
  pose proof (laid_span _ _ _ _ (i_laid _ _ _ _ H)) as Hs. unfold list_fuel. rewrite (i_head _ _ _ _ H), (i_tail _ _ _ _ H). zlia.
Qed.

Lemma check_ok P h bs FL b : inv P h bs FL -> b ∈ bs -> check_block b h = (Ok tt, h).
Proof. intros H Hb. unfold check_block. by rewrite (magic_ok P h bs FL b H Hb), Z.eqb_refl. Qed.

Lemma fit_scan_spec h bs FL k wanted : arena [] h bs FL -> 0 <= k < 16 -> forall l l0 fuel, FL k = l0 ++ l -> (length l < fuel)%nat ->
  exists r, (fit_scan fuel wanted (hd0 0 l) h = (Ok 0, h) /\ r = 0 /\ Forall (fun c => block_size h c < wanted) l)
    \/ (fit_scan fuel wanted (hd0 0 l) h = (Ok r, bin_remove r h) /\ r ∈ l /\ wanted <= block_size h r).
Proof.
  intros H Hk. induction l as [|b l IH]; intros l0 fuel E Hf; (destruct fuel as [|fuel]; [lia|]); cbn [fit_scan hd0].
  { exists 0. left. split_and!; [done|done|constructor]. }
  pose proof (i_list _ _ _ _ H k Hk) as Hs. rewrite E in Hs. destruct (seg_mid _ _ _ _ _ Hs) as (Hb0 & _ & En).
  destruct (listed_in _ h bs FL k b H Hk) as [Hb _]; [rewrite E; set_solver|].
  destruct (Z.eqb_spec b 0); [done|]. rewrite (mtry_ok _ _ h tt h) by exact (check_ok _ h bs FL b H Hb).
  rewrite mtry_get. destruct (Z.leb_spec wanted (block_size h b)) as [Hle|Hgt].
  - exists b. right. split_and!; [done|by left|done].
  - rewrite En. destruct (IH (l0 ++ [b]) fuel) as (r & [(E1 & -> & Hall)|(E1 & Hr & Hsz)]); [by rewrite <- app_assoc|cbn in Hf; lia| |].
    + exists 0. left. split_and!; [done|done|by constructor].
    + exists r. right. split_and!; [done|by right|done].
Qed.

(** What a search of the lists may answer. *)
Definition searched h bs wanted (k : Z) (res : Res Z * Malloc B) : Prop :=
  (res = (Ok 0, h) /\ forall c, listed [] h bs c -> k <= bin_index (block_size h c) -> block_size h c < wanted)
  \/ exists r, res = (Ok r, bin_remove r h) /\ listed [] h bs r /\ r <> 0 /\ wanted <= block_size h r.

Lemma fit_scan_bin h bs FL k wanted : arena [] h bs FL -> 0 <= k < 16 ->
  let res := fit_scan (S (list_fuel h)) wanted (bin h k) h in
  (res = (Ok 0, h) /\ forall c, listed [] h bs c -> bin_index (block_size h c) = k -> block_size h c < wanted)
  \/ exists r, res = (Ok r, bin_remove r h) /\ listed [] h bs r /\ r <> 0 /\ wanted <= block_size h r.
Proof.
  intros H Hk. cbn zeta. rewrite (i_bin _ _ _ _ H k Hk). pose proof (list_fuel_enough _ h bs FL k H Hk) as Hf.
  destruct (fit_scan_spec h bs FL k wanted H Hk (FL k) [] (S (list_fuel h)) eq_refl ltac:(lia)) as (r & [(-> & _ & Hall)|(-> & Hr & Hsz)]).
  - left. split; [done|]. intros c Hc Ec. rewrite list.Forall_forall in Hall. apply Hall.
    exact (proj2 (i_class _ _ _ _ H k c Hk) (conj (proj1 Hc) (conj Hc Ec))).
  - right. exists r. destruct (listed_in _ h bs FL k r H Hk Hr) as [Hrb Hl]. split_and!; [done|done| |done].
    pose proof (block_bounds _ _ _ _ _ H Hrb). lia.
Qed.

Lemma larger_scan_spec h bs FL wanted : arena [] h bs FL -> forall n k, 0 <= k -> k + Z.of_nat n = 16 ->
  searched h bs wanted k (larger_scan n k wanted h).
Proof.
  intros H. induction n as [|n IH]; intros k Hk Hn; cbn [larger_scan].
  - left. split; [done|]. intros c _ Hc. pose proof (bin_index_range (block_size h c)). lia.
  - rewrite mtry_get. destruct (fit_scan_bin h bs FL k wanted H ltac:(lia)) as [(E & Hnone)|(r & E & Hl & Hr0 & Hsz)];
      rewrite (mtry_ok _ _ _ _ _ E).
    + cbn [Z.eqb negb]. destruct (IH (k + 1) ltac:(lia) ltac:(lia)) as [(-> & Hrest)|(r & -> & Hr)]; [left|right; by exists r].
      split; [done|]. intros c Hc Hge. destruct (decide (bin_index (block_size h c) = k)) as [Ek|Ek]; [by apply Hnone|]. apply Hrest; [done|lia].
    + rewrite (proj2 (Z.eqb_neq r 0) Hr0). cbn [negb]. right. by exists r.
Qed.

Lemma take_free_block_spec h bs FL wanted : arena [] h bs FL ->
  (take_free_block wanted h = (Ok 0, h) /\ forall c, c ∈ bs -> is_free h c = true -> block_size h c < wanted)
  \/ exists r, take_free_block wanted h = (Ok r, bin_remove r h) /\ listed [] h bs r /\ r <> 0 /\ wanted <= block_size h r.
Proof.
  intros H. unfold take_free_block, BIN_COUNT. pose proof (bin_index_range wanted) as Hk. pose proof (bin_index_mono wanted) as Hmono.
  remember (bin_index wanted) as k eqn:Ek. clear Ek. rewrite mtry_get.
  destruct (fit_scan_bin h bs FL k wanted H Hk) as [(E & Hnone)|(r & E & Hl & Hr0 & Hsz)]; rewrite (mtry_ok _ _ _ _ _ E).
  - cbn [Z.eqb negb]. destruct (larger_scan_spec h bs FL wanted H (Z.to_nat (16 - (k + 1))) (k + 1) ltac:(lia) ltac:(lia)) as [(-> & Hrest)|(r & -> & Hr)]; [left|right; by exists r].
    split; [done|]. intros c Hc Hf. assert (Hl : listed [] h bs c) by (split_and!; [done|done|apply not_elem_of_nil]).
    destruct (decide (wanted <= block_size h c)) as [Hw|Hw]; [|lia]. pose proof (Hmono _ Hw).
    destruct (decide (bin_index (block_size h c) = k)) as [Ek|Ek]; [by apply Hnone|]. apply Hrest; [done|lia].
  - rewrite (proj2 (Z.eqb_neq r 0) Hr0). cbn [negb]. right. by exists r.
Qed.

(** ** Growing the arena *)

Lemma with_process_same h : with_process (process h) h = h.
Proof. by destruct h. Qed.

Lemma laid_mono sz lo bs hi hi' : laid sz lo bs hi -> hi <= hi' -> laid sz lo bs hi'.
Proof.
  revert lo. induction bs as [|b bs IH]; intros lo; cbn; [lia|]. intros (? & ? & ? & ? & Hl) Hh. split_and!; [done..|]. by apply IH.
Qed.

Lemma inv_process P h bs FL p e : inv P h bs FL -> br_ok p -> br_current p mod 16 = 0 ->
  br_current (process h) <= br_current p -> inv P (with_errno e (with_process p h)) bs FL.
Proof.
  intros H Hok H16 Hle. split; try apply H; try done. apply (laid_mono _ _ _ (br_current (process h))); [apply H|done].
Qed.

Lemma sbrk_spec h n : br_ok (process h) -> 0 < n < 2 ^ 62 ->
  exists p e, br_ok p /\
  ((sbrk n h = (Ok (br_current (process h)), with_process p h) /\ e = errno h /\ br_current p = br_current (process h) + n)
   \/ (sbrk n h = (Ok (2 ^ 64 - 1), with_errno e (with_process p h)) /\ br_current p = br_current (process h))).
Proof.
  intros Hok Hn. pose proof (br_range _ Hok) as Hr. set (cur := br_current (process h)) in *.
  assert (Hi : forall z, 0 <= z < 2 ^ 63 -> i64 z = z) by (intros z Hz; unfold i64; rewrite Z.mod_small by lia; lia).
  unfold sbrk. rewrite (mtry_ok _ _ h cur h).
  2: { unfold syscall_brk. rewrite (br_report _ Hok), with_process_same. fold cur. by rewrite Hi by lia. }
  destruct (Z.eqb_spec n 0); [lia|]. rewrite (Hi (cur + n)), (u64_small (cur + n)) by (unfold is_u64; lia).
  pose proof (br_move _ (cur + n) Hok ltac:(lia)) as Hm. unfold syscall_brk.
  destruct (br_brk (cur + n) (process h)) as [[r|e|] p] eqn:E; [..|done].
  - destruct Hm as (-> & Hp & Ec). exists p, (errno h). split; [done|left]. pose proof (br_range _ Hp).
    rewrite (mtry_ok _ _ h (cur + n) (with_process p h)) by (rewrite E, Hi by lia; done).
    destruct (Z.ltb_spec (cur + n) 0); [lia|]. cbn [andb]. destruct (Z.ltb_spec (cur + n) (cur + n)); [lia|].
    rewrite u64_small by (unfold is_u64; lia). done.
  - destruct Hm as (He & Hp & Ec). exists p, e. split; [done|right].
    rewrite (mtry_ok _ _ h (- e) (with_process p h)) by (by rewrite E).
    destruct (Z.ltb_spec (- e) 0); [|lia]. destruct (Z.ltb_spec (-4096) (- e)); [|lia]. cbn [andb].
    rewrite mtry_mod, Z.opp_involutive. done.
Qed.

Lemma malloc_align_up_16 n : 0 <= n < 2 ^ 64 - 16 -> malloc_align_up n = (n + 15) / 16 * 16.
Proof.
  intros Hn. unfold malloc_align_up, ALIGNMENT. rewrite u64_small by (unfold is_u64; lia).
  change (u64 (Z.lnot (16 - 1))) with (Z.shiftl (2 ^ 60 - 1) 4).
  replace (n + (16 - 1)) with (n + 15) by lia. apply Z.bits_inj'. intros k Hk. rewrite Z.land_spec.
  change ((n + 15) / 16 * 16) with ((n + 15) / 2 ^ 4 * 2 ^ 4).
  rewrite <- Z.shiftl_mul_pow2, <- Z.shiftr_div_pow2 by lia. rewrite !Z.shiftl_spec by lia.
  destruct (Z.ltb_spec k 4).
  - rewrite (Z.testbit_neg_r _ (k - 4)), (Z.testbit_neg_r (Z.shiftr _ _)) by lia. apply andb_false_r.
  - rewrite Z.shiftr_spec by lia. replace (k - 4 + 4) with k by lia.
    change (2 ^ 60 - 1) with (Z.ones 60). destruct (Z.ltb_spec (k - 4) 60).
    + rewrite Z.ones_spec_low by lia. apply andb_true_r.
    + rewrite (testbit_high (n + 15) k) by (unfold is_u64; lia). done.
Qed.

(** After a call took the block [b] out of the arena or made it: it is free, off
    the lists and big enough, and the live blocks are those of before. *)
Record taken h bs (wanted b : Z) h' bs' FL' : Prop := {
  tk_arena : arena [b] h' bs' FL';
  tk_in : b ∈ bs';
  tk_free : is_free h' b = true;
  tk_size : wanted <= block_size h' b;
  tk_framed : framed 0 0 h bs h' bs';
  tk_live : forall c, c ∈ bs' -> is_free h' c = false -> c ∈ bs /\ is_free h c = false;
}.

Lemma grown_block h bs FL p total : arena [] h bs FL -> br_ok p -> 48 <= total -> total mod 16 = 0 ->
  br_current p = br_current (process h) + total ->
  let block := br_current (process h) in let h1 := append_block block total (with_process p h) in
  taken h bs (total - 32) block h1 (bs ++ [block]) FL /\ prev h1 block = last0 0 bs /\ next h1 block = 0
  /\ (forall z, z ∈ bs -> block_size h1 z = block_size h z /\ flags h1 z = flags h z).
Proof.
  intros H Hp Ht Ht16 Ec. cbn zeta. set (block := br_current (process h)) in *. pose proof (br_range _ (i_brk _ _ _ _ H)) as Hr.
  pose proof (i_brk16 _ _ _ _ H) as H16. fold block in Hr, H16.
  assert (Hnb : block ∉ bs).
  { intros Hb. pose proof (laid_bounds _ _ _ _ _ (i_laid _ _ _ _ H) Hb). fold block in H0. lia. }
  assert (H' : inv (listed [] h bs) (with_process p h) bs FL).
  { pose proof (inv_process _ h bs FL p (errno h) H Hp) as I. destruct h. apply I; rewrite Ec; fold block; [zlia|lia]. }
  destruct (append_inv _ (with_process p h) bs FL block total H') as (I & Ep & Nf & Ns & Nn & Np & Hold & Hpay);
    [by intros [? _]|apply H|zlia|done|done|done|done|].
  set (h1 := append_block _ _ _) in *.
  assert (Hf : forall z, z ∈ bs -> is_free h1 z = is_free h z).
  { intros z Hz. apply is_free_flags. by destruct (Hold z Hz). }
  assert (Hin : forall z, z ∈ bs ++ [block] <-> z ∈ bs \/ z = block) by (clear; set_solver).
  split_and!; [split|done|done|done].
  - apply (inv_iff _ _ _ _ _ I). intros c Hc. unfold listed. rewrite list_elem_of_singleton. apply Hin in Hc as [Hc| ->].
    + rewrite (Hf c Hc), Hin. assert (c <> block) by congruence. assert (c ∉ []) by apply not_elem_of_nil. tauto.
    + tauto.
  - apply Hin. by right.
  - done.
  - rewrite Ns. lia.
  - split.
    + intros z Hz Hfz. rewrite Hf by done. destruct (Hold z Hz) as [E _]. split_and!; [apply Hin; by left|done|done].
    + intros z a Hz Hfz Ha _. split; [by apply (Hpay z)|]. intros ->. destruct (Hold 0 Hz) as [E _]. rewrite E. apply Ha.
  - intros c [Hc| ->]%Hin Hfc; [|congruence]. rewrite Hf in Hfc by done. done.
Qed.

(** The fresh block joins the free one that ends where it starts. *)
Lemma grown_merge h l t FL block wanted h1 FL1 : arena [] h (l ++ [t]) FL ->
  taken h (l ++ [t]) wanted block h1 ((l ++ [t]) ++ [block]) FL1 ->
  next h1 block = 0 -> (forall z, z ∈ l ++ [t] -> block_size h1 z = block_size h z /\ flags h1 z = flags h z) ->
  is_free h1 t = true -> adjacent t block h1 = true ->
  let h2 := bin_remove t h1 in
  let h3 := set_size t (u64 (block_size h2 t + u64 (header_size + block_size h2 block))) h2 in
  let h4 := with_tail t (set_next t (next h3 block) h3) in
  exists FL', taken h (l ++ [t]) wanted t h4 (l ++ [t]) FL'.
Proof.
  intros H T Hn Hold Hft Hadj. set (bs1 := (l ++ [t]) ++ [block]) in *. pose proof (tk_arena _ _ _ _ _ _ _ T) as I.
  assert (Ht : t ∈ bs1) by (clear; set_solver). assert (Hb : block ∈ bs1) by (clear; set_solver).
  apply (adjacent_spec _ h1 bs1 FL1 t block I Ht) in Hadj. pose proof (block_bounds _ _ _ _ _ I Ht) as (T1 & _ & T2 & _ & T3).
  assert (Hne : t <> block) by lia.
  destruct (arena_remove [block] h1 bs1 FL1 t I) as (FL2 & I2 & R2 & F2).
  { split_and!; [done|done|]. by rewrite list_elem_of_singleton. }
  cbn zeta. set (h2 := bin_remove t h1) in *. pose proof (fun c => relinked_fields _ h1 bs1 FL1 h2 _ c I R2) as Hf2.
  destruct (Hf2 t Ht) as (St & _ & _ & Ft). destruct (Hf2 block Hb) as (Sb & Nb & _ & Fb).
  set (h3 := set_size t _ h2). assert (Eab : with_tail t (set_next t (next h3 block) h3) = absorb t block h2).
  { unfold absorb. fold h3. assert (N3 : next h3 block = 0).
    { unfold h3, next, set_size, set_word. cbn [mem with_mem]. rewrite upd_ne by lia. change (next h2 block = 0). by rewrite Nb. }
    assert (N4 : next (set_next t 0 h3) block = 0).
    { unfold next at 1, set_next, set_word. cbn [mem with_mem]. rewrite upd_ne by lia. exact N3. }
    rewrite N3, N4. done. }
  rewrite Eab. assert (Ebs : bs1 = l ++ t :: block :: []) by (unfold bs1; by rewrite <- app_assoc).
  rewrite Ebs in I2. destruct (absorb_inv _ h2 l t block [] FL2 0 0 I2) as (I3 & F3 & S3 & So3 & Fl3 & _).
  { intros (_ & _ & X). apply X. by left. } { intros (_ & _ & X). apply X. right. by left. } { by rewrite St. }
  { rewrite (is_free_flags h1 h2 block Fb). exact (tk_free _ _ _ _ _ _ _ T). } { rewrite (is_free_flags h1 h2 t Ft). congruence. }
  rewrite <- Ebs in F3, Fl3. set (h5 := absorb t block h2) in *.
  assert (Hfl : forall c, c ∈ bs1 -> is_free h5 c = is_free h1 c).
  { intros c Hc. apply is_free_flags. rewrite Fl3 by done. by destruct (Hf2 c Hc) as (_ & _ & _ & ->). }
  assert (Hin : forall c, c ∈ bs1 <-> c ∈ l ++ [t] \/ c = block) by (clear; set_solver).
  assert (Hnb : block ∉ l ++ [t]).
  { pose proof (laid_NoDup _ _ _ _ (i_laid _ _ _ _ I)) as Hnd. unfold bs1 in Hnd. by destruct (nodup_mid _ _ _ Hnd). }
  exists FL2. split.
  - apply (inv_iff _ _ _ _ _ I3). intros c Hc. unfold listed. assert (Hc1 : c ∈ bs1) by (apply Hin; by left).
    rewrite (Hfl c Hc1), (is_free_flags h1 h2 c) by (by destruct (Hf2 c Hc1) as (_ & _ & _ & ->)).
    rewrite !not_elem_of_cons. assert (c <> block) by congruence. rewrite <- Ebs. tauto.
  - clear. set_solver.
  - by rewrite Hfl.
  - rewrite S3, Sb, St. pose proof (tk_size _ _ _ _ _ _ _ T). lia.
  - eapply framed_trans; [exact (tk_framed _ _ _ _ _ _ _ T)|]. eapply framed_trans; [apply F2|exact F3].
  - intros c Hc Hfc. assert (Hc1 : c ∈ bs1) by (apply Hin; by left). rewrite Hfl in Hfc by done.
    exact (tk_live _ _ _ _ _ _ _ T c Hc1 Hfc).
Qed.

Lemma extend_heap_spec h bs FL wanted : arena [] h bs FL -> 16 <= wanted < 2 ^ 61 -> wanted mod 16 = 0 ->
  (exists p e, extend_heap wanted h = (Ok 0, with_errno e (with_process p h)) /\ arena [] (with_errno e (with_process p h)) bs FL)
  \/ exists b h' bs' FL', extend_heap wanted h = (Ok b, h') /\ b <> 0 /\ taken h bs wanted b h' bs' FL'.
Proof.
  intros H Hw Hw16. unfold extend_heap. rewrite header_size_32, (u64_small (32 + wanted)) by (unfold is_u64; lia).
  set (total0 := if _ <? _ then _ else _). assert (H0 : 32 + wanted <= total0 < 2 ^ 62 /\ total0 mod 16 = 0 /\ 48 <= total0).
  { unfold total0, MIN_GROWTH. destruct (Z.ltb_spec (32 + wanted) (128 * 1024)); zlia. }
  assert (E0 : malloc_align_up total0 = total0) by (rewrite malloc_align_up_16 by lia; zlia). rewrite E0. clearbody total0.
  assert (Ei : i64 total0 = total0) by (unfold i64; rewrite Z.mod_small by lia; lia). rewrite Ei.
  pose proof (br_range _ (i_brk _ _ _ _ H)) as Hr.
  destruct (sbrk_spec h total0 (i_brk _ _ _ _ H) ltac:(lia)) as (p & e & Hp & [(Es & _ & Ec)|(Es & Ec)]).
  2: { left. exists p, e. rewrite (mtry_ok _ _ _ _ _ Es). change (2 ^ 64 - 1 =? u64 (-1)) with true. split; [done|].
       apply (inv_process _ h bs FL p e H Hp); rewrite Ec; [apply H|lia]. }
  right. rewrite (mtry_ok _ _ _ _ _ Es). change (u64 (-1)) with (2 ^ 64 - 1).
  destruct (Z.eqb_spec (br_current (process h)) (2 ^ 64 - 1)); [lia|]. rewrite mtry_mod, mtry_get.
  destruct (grown_block h bs FL p total0 H Hp ltac:(lia) ltac:(lia) Ec) as (T & Ep & En & Hold).
  set (block := br_current (process h)) in *. set (h1 := append_block _ _ _) in *. rewrite Ep.
  assert (T' : taken h bs wanted block h1 (bs ++ [block]) FL).
  { destruct T as [T1 T2 T3 T4 T5 T6]. split; [done|done|done|lia|done|done]. }
  destruct (negb (last0 0 bs =? 0) && is_free h1 (last0 0 bs) && adjacent (last0 0 bs) block h1) eqn:Ecnd.
  2: { exists block, h1, (bs ++ [block]), FL. split_and!; [done|lia|done]. }
  apply andb_true_iff in Ecnd as [[Et Ef]%andb_true_iff Ea]. apply negb_true_iff, Z.eqb_neq in Et.
  assert (Hne : bs <> []) by (by intros ->). destruct (exists_last Hne) as (l & x & ->). rewrite last0_app in *. cbn [last0] in *.
  destruct (grown_merge h l x FL block wanted h1 FL H T' En Hold Ef Ea) as (FL' & T4).
  autorewrite with run. eexists _, _, (l ++ [x]), FL'. split; [reflexivity|]. split; [done|exact T4].
Qed.

(** ** The client's view *)

(** The blocks the client holds, by payload address, with the size it asked for. *)
Definition held h L bs : Prop := forall p n, L !! p = Some n ->
  p - 32 ∈ bs /\ is_free h (p - 32) = false /\ 0 < n <= block_size h (p - 32).

Record good h L bs FL : Prop := {
  g_arena : arena [] h bs FL;
  g_block : held h L bs;
  g_all : forall b, b ∈ bs -> is_free h b = false -> is_Some (L !! (b + 32));
}.

(** No word of a block of [L] changed, nor its size. *)
Definition kept L h h' : Prop := forall q m, L !! q = Some m ->
  block_size h' (q - 32) = block_size h (q - 32) /\ forall a, q <= a < q + m -> mem h' a = mem h a.

Lemma kept_framed X h L bs FL h' bs' : arena X h bs FL -> held h L bs -> framed 0 0 h bs h' bs' -> kept L h h'.
Proof.
  intros H G F q m Hq. destruct (G q m Hq) as (Hb & Hf & Hm). pose proof (block_bounds _ _ _ _ _ H Hb). split.
  - apply (fr_live _ _ _ _ _ _ F); [done|done|lia].
  - intros a Ha. apply (fr_mem _ _ _ _ _ _ F (q - 32)); [done|done|lia|lia].
Qed.

Lemma kept_trans L h1 h2 h3 : kept L h1 h2 -> kept L h2 h3 -> kept L h1 h3.
Proof.
  intros K1 K2 q m Hq. destruct (K1 q m Hq) as [S1 M1], (K2 q m Hq) as [S2 M2].
  split; [congruence|]. intros a Ha. by rewrite M2, M1.
Qed.

Lemma held_framed X h L bs FL h' bs' : arena X h bs FL -> held h L bs -> framed 0 0 h bs h' bs' -> held h' L bs'.
Proof.
  intros H G F q m Hq. destruct (G q m Hq) as (Hb & Hf & Hm). pose proof (block_bounds _ _ _ _ _ H Hb).
  destruct (fr_live _ _ _ _ _ _ F _ Hb Hf) as (Hb' & Hf' & ->); [done|lia].
Qed.

Lemma take_taken h bs FL wanted r : arena [] h bs FL -> listed [] h bs r -> wanted <= block_size h r ->
  exists FL', taken h bs wanted r (bin_remove r h) bs FL'.
Proof.
  intros H Hr Hsz. destruct (arena_remove [] h bs FL r H Hr) as (FL' & I & R & F). destruct Hr as (Hr & Hf & _).
  pose proof (fun c => relinked_fields _ h bs FL _ _ c H R) as Hfl. exists FL'. split; [done|done| | |apply F|].
  - rewrite (is_free_flags h); [done|]. by destruct (Hfl r Hr) as (_ & _ & _ & ->).
  - by destruct (Hfl r Hr) as (-> & _).
  - intros c Hc Hfc. rewrite (is_free_flags h) in Hfc by (by destruct (Hfl c Hc) as (_ & _ & _ & ->)). done.
Qed.

(** Trimming a taken block and handing it out. *)
Lemma hand_out h L bs FL n wanted b h1 bs1 FL1 : good h L bs FL -> 0 < n <= wanted -> 16 <= wanted -> wanted mod 16 = 0 ->
  taken h bs wanted b h1 bs1 FL1 ->
  let h' := set_is_free b 0 (split b wanted h1) in
  L !! (b + 32) = None /\ payload_of b = b + 32 /\ 16 <= b /\ b mod 16 = 0
  /\ kept L h h' /\ exists bs' FL', good h' (<[b + 32 := n]> L) bs' FL'.
Proof.
  intros G Hn Hw Hw16 T. cbn zeta. pose proof (tk_arena _ _ _ _ _ _ _ T) as I1. pose proof (tk_in _ _ _ _ _ _ _ T) as Hb1.
  pose proof (tk_free _ _ _ _ _ _ _ T) as Hf1. pose proof (tk_framed _ _ _ _ _ _ _ T) as F1.
  pose proof (block_bounds _ _ _ _ _ I1 Hb1) as (B1 & B2 & B3 & _ & B5).
  assert (Hnone : L !! (b + 32) = None).
  { destruct (L !! (b + 32)) as [m|] eqn:E; [|done]. 
    destruct (held_framed [] h L bs FL h1 bs1 (g_arena _ _ _ _ G) (g_block _ _ _ _ G) F1 _ _ E) as (_ & Hf & _).
    replace (b + 32 - 32) with b in Hf by lia. congruence. }
  destruct (list_elem_of_split _ _ Hb1) as (l1 & l2 & E1). rewrite E1 in *.
  destruct (split_spec h1 l1 b l2 FL1 0 0 wanted I1 Hw Hw16) as (bs2 & FL2 & I2 & F2 & Hb2 & _ & Fl2 & S2 & Lv2);
    [exact (tk_size _ _ _ _ _ _ _ T)|congruence|].
  set (h2 := split b wanted h1) in *.
  assert (Hf2 : is_free h2 b = true) by (by rewrite (is_free_flags h1 h2 b Fl2)).
  destruct (set_is_free_inv _ h2 bs2 FL2 b false I2 Hb2) as (I3 & Hf3 & _ & Hm3 & Hs3 & Hfl3).
  { intros (_ & _ & X). apply X. by left. }
  set (h3 := set_is_free b 0 h2) in *.
  assert (Hoth : forall c, c ∈ bs2 -> c <> b -> is_free h3 c = is_free h2 c) by (intros c Hc Hne; by apply is_free_flags, Hfl3).
  assert (A3 : arena [] h3 bs2 FL2).
  { apply (inv_iff _ _ _ _ _ I3). intros c Hc. unfold listed. rewrite list_elem_of_singleton. assert (c ∉ []) by apply not_elem_of_nil.
    destruct (decide (c = b)) as [->|Hne]; [rewrite Hf3; split; [tauto|intros (_ & ? & _); done]|]. rewrite Hoth by done. tauto. }
  assert (F3 : framed 0 0 h2 bs2 h3 bs2).
  { split.
    - intros c Hc Hfc. assert (c <> b) by congruence. rewrite Hoth by done. by destruct (Hs3 c Hc) as (-> & _).
    - intros c a Hc Hfc Ha _. destruct (Hs3 c Hc) as (-> & _). split; [|lia]. apply Hm3.
      pose proof (blocks_apart _ _ _ _ _ _ I2 Hc Hb2). pose proof (block_bounds _ _ _ _ _ I2 Hc). pose proof (block_bounds _ _ _ _ _ I2 Hb2). lia. }
  assert (F : framed 0 0 h bs h3 bs2) by (eapply framed_trans; [exact F1|]; eapply framed_trans; [exact F2|exact F3]).
  split_and!; [done|unfold payload_of; rewrite header_size_32, u64_small by (unfold is_u64; lia); done|done|done|exact (kept_framed [] h L bs FL h3 bs2 (g_arena _ _ _ _ G) (g_block _ _ _ _ G) F)|].
  exists bs2, FL2. split; [done| |].
  - intros p m [[<- <-]|[Hne Hp]]%lookup_insert_Some; [|exact (held_framed [] h L bs FL h3 bs2 (g_arena _ _ _ _ G) (g_block _ _ _ _ G) F _ _ Hp)].
    replace (b + 32 - 32) with b by lia. destruct (Hs3 b Hb2) as (-> & _). split_and!; [done|done|lia|lia].
  - intros c Hc Hfc. destruct (decide (c = b)) as [->|Hne]; [rewrite lookup_insert_eq; by eexists|].
    rewrite lookup_insert_ne by lia. rewrite Hoth in Hfc by done. destruct (Lv2 c Hc Hfc) as [Hc1 Hfc1].
    destruct (tk_live _ _ _ _ _ _ _ T c Hc1 Hfc1). by apply (g_all _ _ _ _ G).
Qed.

Definition size_ok (n : Z) : Prop := 0 < n < 2 ^ 60.

Lemma wanted_ok n : size_ok n -> let w := malloc_align_up n in n <= w /\ 16 <= w < 2 ^ 61 /\ w mod 16 = 0.
Proof. unfold size_ok. intros Hn. cbn zeta. rewrite malloc_align_up_16 by lia. zlia. Qed.

Lemma malloc_at h L bs FL n : good h L bs FL -> size_ok n ->
  (exists h', malloc n h = (Ok 0, h') /\ good h' L bs FL /\ mem h' = mem h /\ errno h' = ENOMEM
     /\ forall c, c ∈ bs -> is_free h c = true -> block_size h c < malloc_align_up n)
  \/ exists p h' bs' FL', malloc n h = (Ok p, h') /\ 16 <= p /\ p mod 16 = 0 /\ L !! p = None /\ kept L h h'
       /\ good h' (<[p := n]> L) bs' FL'.
Proof.
  intros G Hn. destruct (wanted_ok n Hn) as (W1 & W2 & W3). unfold size_ok in Hn. unfold malloc.
  destruct (Z.eqb_spec n 0); [lia|]. destruct (Z.ltb_spec (malloc_align_up n) n); [lia|]. set (w := malloc_align_up n) in *.
  assert (Hout : forall b h1 bs1 FL1, taken h bs w b h1 bs1 FL1 ->
    exists p h' bs' FL', (Ok (payload_of b), set_is_free b 0 (split b w h1)) = (Ok p, h') /\ 16 <= p /\ p mod 16 = 0 /\ L !! p = None
      /\ kept L h h' /\ good h' (<[p := n]> L) bs' FL').
  { intros b h1 bs1 FL1 T. destruct (hand_out h L bs FL n w b h1 bs1 FL1 G ltac:(lia) ltac:(lia) W3 T) as (O1 & O2 & O3 & O4 & O5 & bs' & FL' & O6).
    exists (b + 32), (set_is_free b 0 (split b w h1)), bs', FL'. rewrite O2. split_and!; [done|lia|zlia|done|done|done]. }
  destruct (take_free_block_spec h bs FL w (g_arena _ _ _ _ G)) as [(E & Hnone)|(r & E & Hl & Hr0 & Hsz)]; rewrite (mtry_ok _ _ _ _ _ E).
  - rewrite (proj2 (Z.eqb_eq 0 0) eq_refl).
    destruct (extend_heap_spec h bs FL w (g_arena _ _ _ _ G) W2 W3) as [(p & e & E2 & A)|(b & h1 & bs1 & FL1 & E2 & Hb0 & T)]; rewrite (mtry_ok _ _ _ _ _ E2).
    + left. cbn [Z.eqb]. rewrite mtry_mod. eexists. split; [reflexivity|]. split_and!; [|done|done|done]. split; [|apply G|apply G].
      destruct A. by split.
    + right. rewrite (proj2 (Z.eqb_neq b 0) Hb0). autorewrite with run. apply (Hout b h1 bs1 FL1 T).
  - right. rewrite (proj2 (Z.eqb_neq r 0) Hr0). rewrite mtry_mok, (proj2 (Z.eqb_neq r 0) Hr0). autorewrite with run.
    destruct (take_taken h bs FL w r (g_arena _ _ _ _ G) Hl Hsz) as (FL' & T). exact (Hout r _ _ _ T).
Qed.

(** ** Giving a block back *)

Lemma laid_before sz lo l1 b l2 hi c : laid sz lo (l1 ++ b :: l2) hi -> c ∈ l1 ++ b :: l2 -> b = c + 32 + sz c -> last0 0 l1 = c.
Proof.
  intros Hl Hc E. pose proof (laid_bounds _ _ _ _ _ Hl Hc) as (_ & _ & Hs & _).
  apply laid_app in Hl as (mid & H1 & H2). cbn in H2. destruct H2 as (Hm & _ & Hsb & _ & H2).
  apply elem_of_app in Hc as [Hc|Hc].
  - assert (Hne : l1 <> []) by (intros ->; by apply elem_of_nil in Hc). destruct (exists_last Hne) as (l & t & ->).
    rewrite last0_app. cbn. apply laid_app in H1 as (mid' & H1 & H3). cbn in H3. destruct H3 as (? & _ & ? & _ & ?).
    apply elem_of_app in Hc as [Hc|Hc%list_elem_of_singleton]; [|done]. pose proof (laid_bounds _ _ _ _ _ H1 Hc). lia.
  - apply elem_of_cons in Hc as [->|Hc]; [lia|]. pose proof (laid_bounds _ _ _ _ _ H2 Hc) as (? & _). lia.
Qed.

(** What freeing leaves: the free block is on its list, the others are as they
    were, and the header of [b] still says that it is free. *)
Record released h bs (b : Z) h' : Prop := {
  re_arena : exists bs' FL', arena [] h' bs' FL' /\ framed 0 0 h bs h' bs'
    /\ (forall c, c ∈ bs' -> is_free h' c = false -> c ∈ bs /\ is_free h c = false)
    /\ exists c, c ∈ bs' /\ is_free h' c = true /\ block_size h b <= block_size h' c;
  re_flags : flags h' b = flags h b;
}.

(** The block before is free and ends where [b] starts. *)
Lemma join_before h l t b l2 FL : arena [b] h (l ++ t :: b :: l2) FL -> is_free h b = true -> is_free h t = true ->
  b = t + 32 + block_size h t ->
  (forall c, c ∈ l ++ t :: b :: l2 -> is_free h c = true -> c <> b + 32 + block_size h b) ->
  released h (l ++ t :: b :: l2) b (bin_insert t (absorb t b (bin_remove t h))).
Proof.
  intros H Hfb Hft Eb Iso. set (bs := l ++ t :: b :: l2) in *. assert (Ht : t ∈ bs) by (clear; set_solver). assert (Hb : b ∈ bs) by (clear; set_solver).
  pose proof (block_bounds _ _ _ _ _ H Ht) as (T1 & _ & T2 & _ & T3). pose proof (block_bounds _ _ _ _ _ H Hb) as (_ & _ & B2 & _ & _).
  assert (Hl : listed [b] h bs t) by (split_and!; [done|done|rewrite list_elem_of_singleton; lia]).
  destruct (arena_remove [b] h bs FL t H Hl) as (FL1 & I1 & R1 & F1). set (h1 := bin_remove t h) in *.
  pose proof (fun c => relinked_fields _ h bs FL h1 _ c H R1) as Hf1. destruct (Hf1 t Ht) as (St & _ & _ & Ft). destruct (Hf1 b Hb) as (Sb & _ & _ & Fb).
  destruct (absorb_inv _ h1 l t b l2 FL1 0 0 I1) as (I2 & F2 & S2 & So2 & Fl2 & _).
  { intros (_ & _ & X). apply X. by left. } { intros (_ & _ & X). apply X. right. by left. } { by rewrite St. }
  { by rewrite (is_free_flags h h1 b Fb). } { rewrite (is_free_flags h h1 t Ft). congruence. }
  set (h2 := absorb t b h1) in *. set (bs2 := l ++ t :: l2) in *.
  assert (Hin : forall c, c ∈ bs <-> c ∈ bs2 \/ c = b) by (clear; set_solver).
  assert (Hnb : b ∉ bs2).
  { pose proof (laid_NoDup _ _ _ _ (i_laid _ _ _ _ H)) as Hnd. unfold bs in Hnd.
    replace (l ++ t :: b :: l2) with ((l ++ [t]) ++ b :: l2) in Hnd by (by rewrite <- app_assoc).
    apply nodup_mid in Hnd as [N1 N2]. clear - N1 N2. set_solver. }
  assert (Hfl : forall c, c ∈ bs -> flags h2 c = flags h c).
  { intros c Hc. rewrite Fl2 by done. by destruct (Hf1 c Hc) as (_ & _ & _ & ->). }
  assert (Hsz : forall c, c ∈ bs2 -> c <> t -> block_size h2 c = block_size h c).
  { intros c Hc Hct. rewrite So2 by (clear - Hc Hct; set_solver). destruct (Hf1 c) as (-> & _); [apply Hin; by left|done]. }
  assert (A2 : arena [t] h2 bs2 FL1).
  { apply (inv_iff _ _ _ _ _ I2). intros c Hc. assert (Hcb : c ∈ bs) by (apply Hin; by left). assert (c <> b) by congruence. unfold listed.
    rewrite (is_free_flags h1 h2 c) by (by apply Fl2). rewrite !not_elem_of_cons. assert (c ∉ []) by apply not_elem_of_nil. tauto. }
  assert (Ht2 : t ∈ bs2) by (clear; set_solver).
  destruct (arena_insert [] h2 bs2 FL1 t A2 Ht2) as (FL3 & I3 & R3 & F3); [apply not_elem_of_nil|by rewrite (is_free_flags h h2 t) by (by apply Hfl)| |].
  { intros c (Hc & Hfc & Hct). rewrite list_elem_of_singleton in Hct. assert (Hcb : c ∈ bs) by (apply Hin; by left).
    rewrite (is_free_flags h h2 c) in Hfc by (by apply Hfl). split.
    - rewrite S2, St, Sb. pose proof (Iso c Hcb Hfc). lia.
    - rewrite Hsz by done. apply (i_apart _ _ _ _ H c t Hcb Ht); [|done].
      split_and!; [done|done|]. rewrite list_elem_of_singleton. congruence. }
  set (h3 := bin_insert t h2) in *. split.
  - exists bs2, FL3. split_and!; [done|eapply framed_trans; [apply F1|]; eapply framed_trans; [exact F2|apply F3]| |].
    + intros c Hc Hfc. destruct (relinked_fields _ h2 bs2 FL1 h3 _ c A2 R3 Hc) as (_ & _ & _ & Ef).
      assert (Hcb : c ∈ bs) by (apply Hin; by left). rewrite (is_free_flags h2 h3 c Ef), (is_free_flags h h2 c) in Hfc by (by apply Hfl). done.
    + exists t. destruct (relinked_fields _ h2 bs2 FL1 h3 _ t A2 R3 Ht2) as (Es & _ & _ & Ef).
      rewrite (is_free_flags h2 h3 t Ef), (is_free_flags h h2 t), Es, S2, Sb, St by (by apply Hfl). split_and!; [done|done|lia].
  - rewrite <- (Hfl b Hb). apply (rl_mem _ _ _ _ R3). intros c Hc _.
    pose proof (blocks_apart _ _ _ _ _ _ I2 Hc Ht2) as G. pose proof (block_bounds _ _ _ _ _ I2 Hc) as (_ & _ & G2 & _). rewrite S2, St, Sb in G. lia.
Qed.

Lemma free_block h bs FL b : arena [b] h bs FL -> b ∈ bs -> is_free h b = true ->
  let h1 := merge_with_next b h in let before := prev h1 b in
  let h' := if negb (before =? 0) && is_free h1 before && adjacent before b h1
            then bin_insert before (absorb before b (bin_remove before h1)) else bin_insert b h1 in
  released h bs b h'.
Proof.
  intros H Hb Hf. cbn zeta. destruct (list_elem_of_split _ _ Hb) as (l1 & l2 & ->).
  destruct (merge_spec [b] h l1 b l2 FL 0 0 H) as (l2' & FL1 & I1 & F1 & P1 & Sub & Fl1 & S1 & Iso & Hgrow); [by left|congruence| |].
  { intros c ->%list_elem_of_singleton. pose proof (block_bounds _ _ _ _ _ H Hb). lia. }
  set (h1 := merge_with_next b h) in *. set (bs1 := l1 ++ b :: l2') in *. assert (Hb1 : b ∈ bs1) by (clear; set_solver).
  destruct (seg_mid _ _ _ _ _ (i_chain _ _ _ _ I1)) as (_ & Ep & _). rewrite Ep.
  assert (Hf1 : is_free h1 b = true) by (by rewrite (is_free_flags h h1 b) by (by apply Fl1)).
  assert (Hb0 : forall c, c ∈ bs1 -> c <> 0) by (intros c Hc ->; pose proof (block_bounds _ _ _ _ _ I1 Hc); lia).
  assert (Iso' : forall c, c ∈ bs1 -> is_free h1 c = true -> c <> b + 32 + block_size h1 b).
  { intros c Hc Hfc. destruct (decide (c = b)) as [->|]; [pose proof (block_bounds _ _ _ _ _ I1 Hb1); lia|]. apply Iso; [done|done|]. by rewrite list_elem_of_singleton. }
  assert (Hsz : block_size h b <= block_size h1 b).
  { destruct Hgrow as [[-> _]|(a & -> & _ & _ & ->)]; [lia|]. assert (Ha : a ∈ l1 ++ b :: a :: l2') by (clear; set_solver).
    pose proof (block_bounds _ _ _ _ _ H Ha). lia. }
  assert (Hlift : forall h', released h1 bs1 b h' -> released h (l1 ++ b :: l2) b h').
  { intros h' [(bs' & FL' & A & F & Lv & c & Hc & Hfc & Hsc) Ef]. split; [exists bs', FL'|by rewrite Ef, Fl1 by done].
    split_and!; [done|by eapply framed_trans; [exact F1|]| |exists c; split_and!; [done|done|lia]].
    intros d Hd Hfd. destruct (Lv d Hd Hfd) as [Hd1 Hfd1]. rewrite (is_free_flags h h1 d) in Hfd1 by (by apply Fl1). split; [|done]. clear - Hd1 Sub. set_solver. }
  apply Hlift. destruct (_ && _) eqn:Ec.
  - apply andb_true_iff in Ec as [[Et Ef]%andb_true_iff Ea]. apply negb_true_iff, Z.eqb_neq in Et.
    assert (Hne : l1 <> []) by (by intros ->). destruct (exists_last Hne) as (l & t & ->). rewrite last0_app in *. cbn [last0] in *.
    assert (E1 : bs1 = l ++ t :: b :: l2') by (unfold bs1; by rewrite <- app_assoc). rewrite E1 in *.
    apply (join_before h1 l t b l2' FL1 I1 Hf1 Ef); [|done]. apply (adjacent_spec _ h1 _ FL1 t b I1) in Ea; [done|clear; set_solver].
  - destruct (arena_insert [] h1 bs1 FL1 b I1 Hb1) as (FL2 & I2 & R2 & F2); [apply not_elem_of_nil|done| |].
    { intros c (Hc & Hfc & _). split; [by apply Iso'|]. intros Eb. pose proof (laid_before _ _ _ _ _ _ _ (i_laid _ _ _ _ I1) Hc Eb) as Et.
      rewrite Et, Hfc, (proj2 (adjacent_spec _ h1 bs1 FL1 c b I1 Hc) Eb) in Ec. pose proof (Hb0 c Hc). by destruct (Z.eqb_spec c 0). }
    pose proof (fun c => relinked_fields _ h1 bs1 FL1 _ _ c I1 R2) as Hf2. split; [|by destruct (Hf2 b Hb1) as (_ & _ & _ & ->)].
    exists bs1, FL2. split_and!; [done|apply F2| |].
    + intros c Hc Hfc. rewrite (is_free_flags h1) in Hfc by (by destruct (Hf2 c Hc) as (_ & _ & _ & ->)). done.
    + exists b. destruct (Hf2 b Hb1) as (Es & _ & _ & Ef). rewrite (is_free_flags h1 _ b Ef), Es. done.
Qed.

Lemma free_at h L bs FL p n : good h L bs FL -> L !! p = Some n ->
  exists h' bs' FL', free p h = (Ok tt, h') /\ good h' (delete p L) bs' FL' /\ kept (delete p L) h h' /\ free p h' = (Panic, h')
    /\ exists c, c ∈ bs' /\ is_free h' c = true /\ n <= block_size h' c.
Proof.
  intros G Hp. pose proof (g_arena _ _ _ _ G) as H. destruct (g_block _ _ _ _ G p n Hp) as (Hb & Hf & Hn).
  set (b := p - 32) in *. pose proof (block_bounds _ _ _ _ _ H Hb) as (B1 & _ & B3 & _ & B5).
  assert (Eb : u64 (p - header_size) = b) by (rewrite header_size_32; apply u64_small; unfold is_u64, b in *; lia).
  destruct (set_is_free_inv _ h bs FL b true H Hb) as (I1 & Hf1 & _ & Hm1 & Hs1 & Hfl1); [intros (_ & ? & _); congruence|].
  set (h1 := set_is_free b 1 h) in *.
  assert (Hoth : forall c, c ∈ bs -> c <> b -> is_free h1 c = is_free h c) by (intros c Hc Hne; by apply is_free_flags, Hfl1).
  assert (A1 : arena [b] h1 bs FL).
  { apply (inv_iff _ _ _ _ _ I1). intros c Hc. unfold listed. rewrite list_elem_of_singleton. assert (c ∉ []) by apply not_elem_of_nil.
    destruct (decide (c = b)) as [->|Hne]; [rewrite Hf; split; [intros (_ & ? & _); done|tauto]|]. rewrite Hoth by done. tauto. }
  assert (Hd : held h1 (delete p L) bs).
  { intros q m [Hqp Hq]%lookup_delete_Some. destruct (g_block _ _ _ _ G q m Hq) as (Hqb & Hqf & Hqm).
    destruct (Hs1 _ Hqb) as (-> & _). split_and!; [done| |lia|lia]. rewrite Hoth; [done|done|unfold b; lia]. }
  assert (K1 : kept (delete p L) h h1).
  { intros q m [Hqp Hq]%lookup_delete_Some. destruct (g_block _ _ _ _ G q m Hq) as (Hqb & Hqf & Hqm).
    split; [by destruct (Hs1 _ Hqb)|]. intros a Ha. apply Hm1. pose proof (blocks_apart _ _ _ _ _ _ H Hqb Hb). pose proof (block_bounds _ _ _ _ _ H Hqb). unfold b in *. lia. }
  pose proof (free_block h1 bs FL b A1 Hb Hf1) as Hrel. cbn zeta in Hrel.
  match type of Hrel with released _ _ _ ?x => set (h' := x) in * end. destruct Hrel as [(bs' & FL' & A2 & F2 & Lv2 & c & Hc & Hfc & Hsc) Ef].
  assert (Efree : forall h0, flags h0 b = BLOCK_MAGIC + 2 ^ 32 -> free p h0 = (Panic, h0)).
  { intros h0 E0. unfold free. destruct (Z.eqb_spec p 0); [unfold b in *; lia|]. rewrite Eb.
    rewrite (mtry_ok _ _ h0 tt h0) by (unfold check_block, magic; by rewrite E0). rewrite mtry_get. unfold is_free. by rewrite E0. }
  exists h', bs', FL'. split_and!.
  - unfold free. destruct (Z.eqb_spec p 0); [unfold b in *; lia|]. rewrite Eb, (mtry_ok _ _ h tt h) by exact (check_ok _ h bs FL b H Hb).
    rewrite mtry_get, Hf. autorewrite with run. fold h1. unfold h'. by destruct (_ && _).
  - split; [done|exact (held_framed [b] h1 _ bs FL h' bs' A1 Hd F2)|]. intros d Hdd Hfd. destruct (Lv2 d Hdd Hfd) as [Hd1 Hfd1].
    assert (d <> b) by congruence. rewrite lookup_delete_ne by (unfold b in *; lia). rewrite Hoth in Hfd1 by done. by apply (g_all _ _ _ _ G).
  - apply (kept_trans _ _ h1); [done|]. exact (kept_framed [b] h1 _ bs FL h' bs' A1 Hd F2).
  - apply Efree. rewrite Ef. destruct (is_free_cases _ h1 bs FL b A1 Hb) as [[_ ?]|[? _]]; [congruence|done].
  - exists c. destruct (Hs1 b Hb) as (Es & _). split_and!; [done|done|lia].
Qed.

(** ** Resizing *)

Lemma held_framed_at x lim X h L bs FL h' bs' : arena X h bs FL -> held h L bs -> framed x lim h bs h' bs' -> L !! (x + 32) = None ->
  held h' L bs' /\ kept L h h'.
Proof.
  intros H G F Hx. split.
  - intros q m Hq. destruct (G q m Hq) as (Hb & Hf & Hm). assert (q - 32 <> x) by (intros E; replace (x + 32) with q in Hx by lia; congruence).
    destruct (fr_live _ _ _ _ _ _ F _ Hb Hf) as (Hb' & Hf' & ->); [done|]. done.
  - intros q m Hq. destruct (G q m Hq) as (Hb & Hf & Hm). assert (q - 32 <> x) by (intros E; replace (x + 32) with q in Hx by lia; congruence).
    split; [by apply (fr_live _ _ _ _ _ _ F)|]. intros a Ha. apply (fr_mem _ _ _ _ _ _ F (q - 32)); [done|done|lia|done].
Qed.

(** A block resized in place. *)
Lemma resized_good h L bs FL p n m h' bs' FL' : good h L bs FL -> L !! p = Some n -> 0 < m ->
  arena [p - 32] h' bs' FL' -> framed (p - 32) (p + malloc_align_up m) h bs h' bs' -> p - 32 ∈ bs' -> m <= malloc_align_up m <= block_size h' (p - 32) ->
  (forall c, c ∈ bs' -> is_free h' c = false -> c ∈ bs /\ is_free h c = false) ->
  good h' (<[p := m]> (delete p L)) bs' FL' /\ kept (delete p L) h h'
  /\ forall i, 0 <= i -> i + 8 <= n -> i + 8 <= m -> mem h' (p + i) = mem h (p + i).
Proof.
  intros G Hp Hm A F Hb' Hsz Lv. pose proof (g_arena _ _ _ _ G) as H. destruct (g_block _ _ _ _ G p n Hp) as (Hb & Hf & Hn).
  destruct (fr_live _ _ _ _ _ _ F _ Hb Hf) as (_ & Hf' & _).
  destruct (held_framed_at (p - 32) (p + malloc_align_up m) [] h (delete p L) bs FL h' bs' H) as [Hd K]; [|done| |].
  { intros q k [_ Hq]%lookup_delete_Some. by apply (g_block _ _ _ _ G). }
  { replace (p - 32 + 32) with p by lia. apply lookup_delete_eq. }
  split_and!; [split|done|].
  - apply (inv_iff _ _ _ _ _ A). intros c Hc. unfold listed. rewrite list_elem_of_singleton. assert (c ∉ []) by apply not_elem_of_nil.
    destruct (decide (c = p - 32)) as [->|]; [rewrite Hf'; split; [tauto|intros (_ & ? & _); done]|tauto].
  - intros q k [[<- <-]|[Hne Hq]]%lookup_insert_Some; [split_and!; [done|done|lia|lia]|by apply Hd].
  - intros c Hc Hfc. destruct (decide (c + 32 = p)) as [->|Hne]; [rewrite lookup_insert_eq; by eexists|].
    rewrite lookup_insert_ne, lookup_delete_ne by lia. destruct (Lv c Hc Hfc). by apply (g_all _ _ _ _ G).
  - intros i Hi Hin Him. apply (fr_mem _ _ _ _ _ _ F (p - 32)); [done|done|lia|lia].
Qed.

(** Writing inside a block disturbs nothing else. *)
Lemma block_payload_write h L bs FL p n m' : good h L bs FL -> L !! p = Some n ->
  (forall a, ~ p <= a < p + block_size h (p - 32) -> m' a = mem h a) -> good (with_mem m' h) L bs FL.
Proof.
  intros G Hp Hm. pose proof (g_arena _ _ _ _ G) as H. destruct (g_block _ _ _ _ G p n Hp) as (Hb & Hf & _).
  assert (Hw : forall c o, c ∈ bs -> 0 <= o < 48 -> (c = p - 32 -> o < 32) -> m' (c + o) = mem h (c + o)).
  { intros c o Hc Ho Hne. apply Hm. pose proof (blocks_apart _ _ _ _ _ _ H Hc Hb). pose proof (block_bounds _ _ _ _ _ H Hc).
    destruct (decide (c = p - 32)) as [->|]; [specialize (Hne eq_refl)|]; lia. }
  set (h' := with_mem m' h). assert (Hfl : forall c, c ∈ bs -> block_size h' c = block_size h c /\ next h' c = next h c /\ prev h' c = prev h c /\ flags h' c = flags h c).
  { intros c Hc. unfold h', block_size, next, prev, flags. cbn [mem with_mem]. pose proof (Hw c 0 Hc ltac:(lia) ltac:(lia)) as E. rewrite Z.add_0_r in E.
    split_and!; [done|apply Hw; done || lia..]. }
  assert (Hff : forall c, c ∈ bs -> is_free h' c = is_free h c) by (intros c Hc; apply is_free_flags; by destruct (Hfl c Hc) as (_ & _ & _ & ->)).
  split.
  - apply (inv_iff (listed [] h bs)); [|intros c Hc; unfold listed; by rewrite Hff].
    apply (rechain_inv _ h h' bs bs FL H); try apply H.
    + apply (seg_ext (next h) (prev h)); [apply H|]. intros c Hc. by destruct (Hfl c Hc) as (_ & -> & -> & _).
    + apply (laid_ext (block_size h)); [apply H|]. intros c Hc. by destruct (Hfl c Hc) as (-> & _).
    + intros c Hc. destruct (Hfl c Hc) as (_ & _ & _ & ->). by apply (i_flags _ _ _ _ H).
    + done.
    + done.
    + intros c Hc (_ & Hfc & _). assert (c <> p - 32) by congruence. destruct (Hfl c Hc) as (-> & _ & _ & ->).
      split_and!; [done|done| |]; unfold links_next, links_prev; apply Hw; done || lia.
  - intros q k Hq. destruct (g_block _ _ _ _ G q k Hq) as (Hqb & Hqf & Hqk). rewrite Hff by done. destruct (Hfl _ Hqb) as (-> & _). done.
  - intros c Hc Hfc. rewrite Hff in Hfc by done. by apply (g_all _ _ _ _ G).
Qed.

(** Two blocks of the client do not meet, headers included. *)
Lemma held_apart h L bs FL p n q m : good h L bs FL -> L !! p = Some n -> L !! q = Some m -> p <> q ->
  p + block_size h (p - 32) + 32 <= q \/ q + block_size h (q - 32) + 32 <= p.
Proof.
  intros G Hp Hq Hne. destruct (g_block _ _ _ _ G p n Hp) as (Hpb & _). destruct (g_block _ _ _ _ G q m Hq) as (Hqb & _).
  pose proof (blocks_apart _ _ _ _ _ _ (g_arena _ _ _ _ G) Hpb Hqb). lia.
Qed.

(** The outcome of resizing block [p] of [n] bytes to [m]. *)
Definition resized h L p n m r h' : Prop :=
  16 <= r /\ r mod 16 = 0 /\ (r = p \/ L !! r = None) /\ kept (delete p L) h h'
  /\ (exists bs' FL', good h' (<[r := m]> (delete p L)) bs' FL')
  /\ forall i, 0 <= i -> i + 8 <= n -> i + 8 <= m -> mem h' (r + i) = mem h (p + i).

Lemma resize_in_place h L bs FL p n m h1 l1 l2 FL1 : good h L bs FL -> L !! p = Some n -> size_ok m ->
  arena [p - 32] h1 (l1 ++ (p - 32) :: l2) FL1 -> framed (p - 32) (p + malloc_align_up m) h bs h1 (l1 ++ (p - 32) :: l2) ->
  is_free h1 (p - 32) = false -> malloc_align_up m <= block_size h1 (p - 32) ->
  (forall c, c ∈ l1 ++ (p - 32) :: l2 -> is_free h1 c = false -> c ∈ bs /\ is_free h c = false) ->
  resized h L p n m p (split (p - 32) (malloc_align_up m) h1).
Proof.
  intros G Hp Hm A F Hf Hsz Lv. destruct (wanted_ok m Hm) as (W1 & W2 & W3). pose proof (g_arena _ _ _ _ G) as H.
  destruct (g_block _ _ _ _ G p n Hp) as (Hb & _). pose proof (block_bounds _ _ _ _ _ H Hb) as (B1 & B2 & _).
  destruct (split_spec h1 l1 (p - 32) l2 FL1 (p - 32) (p + malloc_align_up m) (malloc_align_up m) A) as (bs2 & FL2 & A2 & F2 & Hb2 & _ & _ & S2 & Lv2); [lia|done|done|lia|].
  destruct (resized_good h L bs FL p n m _ bs2 FL2 G Hp ltac:(unfold size_ok in Hm; lia) A2) as (G2 & K2 & C2);
    [by eapply framed_trans; [exact F|]|done|lia| |].
  { intros c Hc Hfc. destruct (Lv2 c Hc Hfc). by apply Lv. }
  split_and!; [lia|zlia|by left|done|by eexists _, _|done].
Qed.

Lemma resize_moved h L bs FL p n m r h1 bs1 FL1 : good h L bs FL -> L !! p = Some n -> L !! r = None -> 16 <= r -> r mod 16 = 0 ->
  kept L h h1 -> good h1 (<[r := m]> L) bs1 FL1 -> block_size h1 (p - 32) <= block_size h1 (r - 32) ->
  let h2 := with_mem (copy_words (mem h1) r p (block_size h1 (p - 32))) h1 in
  exists h3, free p h2 = (Ok tt, h3) /\ resized h L p n m r h3.
Proof.
  intros G Hp Hr Hr16 Hrm K1 G1 Hsz. cbn zeta. assert (Hrp : r <> p) by congruence.
  assert (Hr1 : <[r := m]> L !! r = Some m) by apply lookup_insert_eq. assert (Hp1 : <[r := m]> L !! p = Some n) by by rewrite lookup_insert_ne.
  set (s := block_size h1 (p - 32)) in *. set (h2 := with_mem _ h1).
  assert (Hm2 : forall a, ~ r <= a < r + s -> mem h2 a = mem h1 a) by (intros a Ha; by apply copy_words_out).
  assert (G2 : good h2 (<[r := m]> L) bs1 FL1) by (apply (block_payload_write h1 _ bs1 FL1 r m _ G1 Hr1); intros a Ha; apply Hm2; lia).
  destruct (free_at h2 _ bs1 FL1 p n G2 Hp1) as (h3 & bs3 & FL3 & E3 & G3 & K3 & _ & _). exists h3. split; [done|].
  rewrite delete_insert_ne in G3, K3 by done. split_and!; [done|done|by right| |by eexists _, _|].
  - intros q k [Hqp Hq]%lookup_delete_Some. assert (Hqr : q <> r) by congruence. assert (Hq1 : <[r := m]> L !! q = Some k) by by rewrite lookup_insert_ne.
    destruct (K3 q k) as [S3 M3]; [by rewrite lookup_insert_ne, lookup_delete_ne by done|]. destruct (K1 q k Hq) as [S1 M1].
    destruct (g_block _ _ _ _ G1 q k Hq1) as (_ & _ & Hk).
    pose proof (held_apart h1 _ bs1 FL1 r m q k G1 Hr1 Hq1 ltac:(done)) as Hap. split.
    + rewrite S3, <- S1. apply Hm2. lia.
    + intros a Ha. rewrite M3, Hm2 by lia. by apply M1.
  - intros i Hi Hin Him. destruct (K3 r m) as [_ M3]; [by rewrite lookup_insert_eq|]. rewrite M3 by lia.
    destruct (g_block _ _ _ _ G1 p n Hp1) as (_ & _ & Hns). fold s in Hns. cbn [h2 mem with_mem].
    rewrite copy_words_in by lia. replace (p + (r + i - r)) with (p + i) by lia. destruct (K1 p n Hp) as [_ M1]. apply M1. lia.
Qed.

Lemma realloc_at h L bs FL p n m : good h L bs FL -> L !! p = Some n -> size_ok m ->
  exists r h', realloc p m h = (Ok r, h') /\ ((r = 0 /\ good h' L bs FL /\ kept L h h') \/ resized h L p n m r h').
Proof.
  intros G Hp Hm. pose proof (g_arena _ _ _ _ G) as H. destruct (g_block _ _ _ _ G p n Hp) as (Hb & Hf & Hn).
  pose proof (block_bounds _ _ _ _ _ H Hb) as (B1 & _ & B3 & _ & B5). destruct (wanted_ok m Hm) as (W1 & W2 & W3).
  assert (Eb : u64 (p - header_size) = p - 32) by (rewrite header_size_32; apply u64_small; unfold is_u64; lia).
  unfold realloc. destruct (Z.eqb_spec p 0); [lia|]. destruct (Z.eqb_spec m 0); [unfold size_ok in Hm; lia|].
  rewrite Eb, (mtry_ok _ _ h tt h) by exact (check_ok _ h bs FL _ H Hb). rewrite mtry_get. set (b := p - 32) in *.
  assert (A : arena [b] h bs FL).
  { apply (inv_iff _ _ _ _ _ H). intros c Hc. unfold listed. rewrite list_elem_of_singleton. assert (c ∉ []) by apply not_elem_of_nil.
    destruct (decide (c = b)) as [->|]; [rewrite Hf; split; intros (_ & ? & _); done|tauto]. }
  destruct (list_elem_of_split _ _ Hb) as (l1 & l2 & Ebs).
  destruct (Z.leb_spec (malloc_align_up m) (block_size h b)) as [Hle|Hgt].
  { autorewrite with run. eexists p, _. split; [reflexivity|right]. rewrite Ebs in A.
    apply (resize_in_place h L bs FL p n m h l1 l2 FL G Hp Hm A); fold b; rewrite <- ?Ebs; [apply framed_refl|done|done|done]. }
  destruct (_ && _ && _ && _) eqn:Ec.
  - apply andb_true_iff in Ec as [[[E0 Ef]%andb_true_iff Ea]%andb_true_iff Esz]. rewrite Ebs in A.
    destruct (merge_spec [b] h l1 b l2 FL b (p + malloc_align_up m) A) as (l2' & FL1 & A1 & F1 & _ & Sub & Fl1 & _ & Iso & Hcase); [by left|done| |].
    { intros c ->%list_elem_of_singleton. lia. }
    assert (Hb1 : b ∈ l1 ++ b :: l2') by (clear; set_solver).
    assert (S1 : malloc_align_up m <= block_size (merge_with_next b h) b).
    { pose proof (i_chain _ _ _ _ H) as Hs. rewrite Ebs in Hs. destruct (seg_mid _ _ _ _ _ Hs) as (_ & _ & En). rewrite En in *.
      destruct Hcase as [[Eh El]|(a & -> & Ea' & Hfa & S1)].
      - exfalso. destruct l2 as [|a l2]; [done|]. cbn [hd0] in *. subst l2'.
        apply (adjacent_spec _ h _ FL b a H Hb) in Ea. assert (Han : a ∈ bs) by (rewrite Ebs; clear; set_solver).
        rewrite Eh in Iso. apply (Iso a); [rewrite <- Ebs; done|done|rewrite list_elem_of_singleton; lia|done].
      - cbn [hd0] in Esz. rewrite S1. apply Z.leb_le in Esz. rewrite header_size_32 in Esz. assert (Han : a ∈ bs) by (rewrite Ebs; clear; set_solver).
        pose proof (block_bounds _ _ _ _ _ H Han). rewrite !u64_small in Esz by (unfold is_u64; rewrite ?u64_small by (unfold is_u64; lia); lia). lia. }
    autorewrite with run. eexists p, _. split; [reflexivity|right]. rewrite <- Ebs in F1.
    apply (resize_in_place h L bs FL p n m _ l1 l2' FL1 G Hp Hm A1 F1); [by rewrite (is_free_flags h) by (by apply Fl1)|done|].
    intros c Hc Hfc. rewrite (is_free_flags h) in Hfc by (by apply Fl1). split; [|done]. rewrite Ebs. clear - Hc Sub. set_solver.
  - destruct (malloc_at h L bs FL m G Hm) as [(h1 & E1 & G1 & M1 & _)|(r & h1 & bs1 & FL1 & E1 & R1 & R2 & R3 & K1 & G1)]; rewrite (mtry_ok _ _ _ _ _ E1).
    + cbn [Z.eqb]. exists 0, h1. split; [done|left]. split_and!; [done|done|]. intros q k _. unfold block_size. by rewrite M1.
    + destruct (Z.eqb_spec r 0); [lia|]. rewrite mtry_get, mtry_mod.
      destruct (resize_moved h L bs FL p n m r h1 bs1 FL1 G Hp R3 R1 R2 K1 G1) as (h3 & E3 & R).
      { destruct (K1 p n Hp) as [-> _]. fold b. destruct (g_block _ _ _ _ G1 r m) as (Hrb & _ & Hrm); [apply lookup_insert_eq|].
        pose proof (block_bounds _ _ _ _ _ (g_arena _ _ _ _ G1) Hrb) as (_ & _ & _ & R4 & _). rewrite malloc_align_up_16 in Hgt by (unfold size_ok in Hm; lia). zlia. }
      fold b in E3. rewrite (mtry_ok _ _ _ _ _ E3). by exists r, h3; split; [|right].
Qed.

Lemma calloc_at h L bs FL count n : good h L bs FL -> 0 <= count < 2 ^ 64 -> 0 <= n < 2 ^ 64 -> size_ok (count * n) ->
  (exists h', calloc count n h = (Ok 0, h') /\ good h' L bs FL /\ mem h' = mem h)
  \/ exists p h' bs' FL', calloc count n h = (Ok p, h') /\ 16 <= p /\ p mod 16 = 0 /\ L !! p = None /\ kept L h h'
       /\ good h' (<[p := count * n]> L) bs' FL' /\ forall i, 0 <= i -> i + 8 <= count * n -> mem h' (p + i) = 0.
Proof.
  intros G Hc Hn Ht. unfold calloc, SIZE_MAX. pose proof Ht as Ht'. unfold size_ok in Ht'.
  assert (Hc0 : count <> 0) by (intros ->; lia). destruct (Z.eqb_spec count 0); [done|]. cbn [negb andb].
  destruct (Z.ltb_spec ((2 ^ 64 - 1) / count) n) as [Hov|_].
  { exfalso. assert (n <= (2 ^ 64 - 1) / count) by (apply Z.div_le_lower_bound; lia). lia. }
  rewrite u64_small by (unfold is_u64; lia). set (total := count * n) in *.
  destruct (malloc_at h L bs FL total G Ht) as [(h1 & E1 & G1 & M1 & _)|(p & h1 & bs1 & FL1 & E1 & P1 & P2 & P3 & K1 & G1)]; rewrite (mtry_ok _ _ _ _ _ E1).
  - left. cbn [Z.eqb negb]. autorewrite with run. by eexists.
  - right. destruct (Z.eqb_spec p 0); [lia|]. cbn [negb]. rewrite mtry_mod. eexists p, _, bs1, FL1. split; [reflexivity|].
    assert (Hp1 : <[p := total]> L !! p = Some total) by apply lookup_insert_eq. destruct (g_block _ _ _ _ G1 p total Hp1) as (_ & _ & Hsz).
    assert (G2 : good (with_mem (zero_words (mem h1) p total) h1) (<[p := total]> L) bs1 FL1).
    { apply (block_payload_write h1 _ bs1 FL1 p total _ G1 Hp1). intros a Ha. apply zero_words_out. lia. }
    split_and!; [done|done|done| |done|].
    + intros q k Hq. assert (Hqp : q <> p) by congruence. assert (Hq1 : <[p := total]> L !! q = Some k) by by rewrite lookup_insert_ne.
      destruct (K1 q k Hq) as [S1 M1]. pose proof (held_apart h1 _ bs1 FL1 p total q k G1 Hp1 Hq1 ltac:(done)) as Hap.
      destruct (g_block _ _ _ _ G1 q k Hq1) as (_ & _ & Hk). split.
      * rewrite <- S1. apply zero_words_out. lia.
      * intros a Ha. rewrite <- M1 by done. apply zero_words_out. lia.
    + intros i Hi Him. apply zero_words_in; lia.
Qed.

(** ** Clients *)

Inductive MallocOp :=
| MMalloc (n : Z)
| MCalloc (count n : Z)
| MFree (p : Z)
| MRealloc (p n : Z)
| MWrite (p i w : Z)
| MSbrk (n : Z).

(** A client frees and resizes what it holds, writes inside it, and takes memory
    of its own from the kernel in multiples of 16 bytes. *)
Definition client_ok L (op : MallocOp) : Prop :=
  match op with
  | MMalloc n => size_ok n
  | MCalloc count n => 0 <= count < 2 ^ 64 /\ 0 <= n < 2 ^ 64 /\ size_ok (count * n)
  | MFree p => is_Some (L !! p)
  | MRealloc p n => is_Some (L !! p) /\ size_ok n
  | MWrite p i _ => exists m, L !! p = Some m /\ 0 <= i /\ i + 8 <= m /\ i mod 8 = 0
  | MSbrk n => 0 < n < 2 ^ 62 /\ n mod 16 = 0
  end.

(** The call, and what the client then holds; [None] if the process was stopped. *)
Definition client_exec (op : MallocOp) h L : option (Malloc B * gmap Z Z) :=
  match op with
  | MMalloc n => match malloc n h with (Ok p, h') => Some (h', if p =? 0 then L else <[p := n]> L) | _ => None end
  | MCalloc count n => match calloc count n h with (Ok p, h') => Some (h', if p =? 0 then L else <[p := count * n]> L) | _ => None end
  | MFree p => match free p h with (Ok _, h') => Some (h', delete p L) | _ => None end
  | MRealloc p n => match realloc p n h with (Ok r, h') => Some (h', if r =? 0 then L else <[r := n]> (delete p L)) | _ => None end
  | MWrite p i w => Some (set_word (p + i) w h, L)
  | MSbrk n => match sbrk n h with (Ok _, h') => Some (h', L) | _ => None end
  end.

Definition op_touches (op : MallocOp) (q : Z) : Prop :=
  match op with MFree p | MRealloc p _ | MWrite p _ _ => q = p | _ => False end.

(** A fresh process: nothing allocated, the break where the loader put it. *)
Definition starts h : Prop :=
  br_ok (process h) /\ br_current (process h) mod 16 = 0 /\ s_heap h = 0 /\ s_heap_tail h = 0 /\ s_bins h = replicate 16 0.

Inductive malloc_reachable : Malloc B -> gmap Z Z -> Prop :=
| mreach_start h : starts h -> malloc_reachable h ∅
| mreach_step h L op h' L' : malloc_reachable h L -> client_ok L op -> client_exec op h L = Some (h', L') -> malloc_reachable h' L'.

(** What a call promises. *)
Definition call_safe (op : MallocOp) h L : Prop :=
  exists h' L', client_exec op h L = Some (h', L') /\ (exists bs' FL', good h' L' bs' FL')
    /\ (forall q m, L !! q = Some m -> ~ op_touches op q -> L' !! q = Some m /\ forall a, q <= a < q + m -> mem h' a = mem h a)
    /\ match op with
       | MRealloc p n => forall k, L !! p = Some k -> exists r m, L' !! r = Some m
           /\ (r = p /\ L' = L \/ m = n /\ L' = <[r := n]> (delete p L))
           /\ forall i, 0 <= i -> i + 8 <= k -> i + 8 <= m -> mem h' (r + i) = mem h (p + i)
       | MCalloc count n => forall q, L !! q = None -> L' !! q = Some (count * n) -> forall i, 0 <= i -> i + 8 <= count * n -> mem h' (q + i) = 0
       | _ => True
       end.

Lemma starts_good h : starts h -> good h ∅ [] (fun _ => []).
Proof.
  intros (H1 & H2 & H3 & H4 & H5). pose proof (br_range _ H1). assert (Hnil : forall b : Z, b ∉ []) by (intros b; apply not_elem_of_nil).
  split; [split| |]; try done.
  - cbn. lia.
  - intros b Hb. by destruct (Hnil b).
  - intros b Hb. by destruct (Hnil b).
  - by rewrite H5.
  - intros k Hk. unfold bin, zget. rewrite H5. cbn [hd0].
    destruct (replicate 16 0 !! Z.to_nat k) as [x|] eqn:E; [|done]. apply lookup_replicate in E as [-> _]. done.
  - intros k Hk. constructor.
  - intros k b Hk. split; [intros Hb; by destruct (Hnil b)|intros (Hb & _); by destruct (Hnil b)].
  - intros b c Hb. by destruct (Hnil b).
  - intros b Hb. by destruct (Hnil b).
Qed.

Lemma write_call h L bs FL p i w : good h L bs FL -> client_ok L (MWrite p i w) -> call_safe (MWrite p i w) h L.
Proof.
  intros G (m & Hp & Hi & Him & _). destruct (g_block _ _ _ _ G p m Hp) as (_ & _ & Hsz). exists (set_word (p + i) w h), L. split; [done|].
  assert (Hm : forall a, a <> p + i -> mem (set_word (p + i) w h) a = mem h a) by (intros a Ha; apply upd_ne; done).
  split_and!; [exists bs, FL; apply (block_payload_write h L bs FL p m _ G Hp); intros a Ha; apply Hm; lia| |done].
  intros q k Hq Hne. cbn [op_touches] in Hne. split; [done|]. intros a Ha. apply Hm.
  pose proof (held_apart h L bs FL p m q k G Hp Hq ltac:(congruence)). destruct (g_block _ _ _ _ G q k Hq) as (_ & _ & Hk). lia.
Qed.

Lemma sbrk_call h L bs FL n : good h L bs FL -> client_ok L (MSbrk n) -> call_safe (MSbrk n) h L.
Proof.
  intros G [Hn H16]. pose proof (g_arena _ _ _ _ G) as H. unfold call_safe. cbn [client_exec].
  destruct (sbrk_spec h n (i_brk _ _ _ _ H) Hn) as (p & e & Hp & [(E & -> & Ec)|(E & Ec)]); rewrite E.
  all: eexists _, L; split; [reflexivity|split_and!; [exists bs, FL|by intros q m Hq _|done]].
  - pose proof (inv_process _ h bs FL p (errno h) H Hp) as I. destruct G as [_ G1 G2]. split; [|done|done].
    assert (X : inv (listed [] h bs) (with_errno (errno h) (with_process p h)) bs FL).
    { apply I; rewrite Ec; [|lia]. pose proof (i_brk16 _ _ _ _ H). zlia. }
    by destruct h.
  - destruct G as [_ G1 G2]. split; [|done|done]. apply (inv_process _ h bs FL p e H Hp); rewrite Ec; [apply H|lia].
Qed.

Lemma calls_safe h L bs FL op : good h L bs FL -> client_ok L op -> call_safe op h L.
Proof.
  intros G Hop. destruct op as [n|count n|p|p n|p i w|n]; [..|by apply (write_call h L bs FL)|by apply (sbrk_call h L bs FL)];
    unfold call_safe; cbn [client_exec client_ok op_touches] in *.
  - destruct (malloc_at h L bs FL n G Hop) as [(h' & -> & G' & M & _)|(p & h' & bs' & FL' & -> & P1 & _ & P3 & K & G')].
    + eexists h', L. split; [done|]. split_and!; [by eexists _, _| |done]. intros q m Hq _. split; [done|]. by rewrite M.
    + destruct (Z.eqb_spec p 0); [lia|]. eexists h', _. split; [done|]. split_and!; [by eexists _, _| |done].
      intros q m Hq _. rewrite lookup_insert_ne by congruence. split; [done|]. apply (K q m Hq).
  - destruct Hop as (Hc & Hn & Ht). destruct (calloc_at h L bs FL count n G Hc Hn Ht) as [(h' & -> & G' & M)|(p & h' & bs' & FL' & -> & P1 & _ & P3 & K & G' & Z0)].
    + eexists h', L. split; [done|]. split_and!; [by eexists _, _| |congruence]. intros q m Hq _. split; [done|]. by rewrite M.
    + destruct (Z.eqb_spec p 0); [lia|]. eexists h', _. split; [done|]. split_and!; [by eexists _, _| |].
      * intros q m Hq _. rewrite lookup_insert_ne by congruence. split; [done|]. apply (K q m Hq).
      * intros q Hq Hq'. apply lookup_insert_Some in Hq' as [[<- _]|[_ ?]]; [done|congruence].
  - destruct Hop as [n Hp]. destruct (free_at h L bs FL p n G Hp) as (h' & bs' & FL' & -> & G' & K & _). eexists h', _. split; [done|].
    split_and!; [by eexists _, _| |done]. intros q m Hq Hne. assert (Hq' : delete p L !! q = Some m) by (by rewrite lookup_delete_ne). split; [done|]. apply (K q m Hq').
  - destruct Hop as [[k Hp] Hn]. destruct (realloc_at h L bs FL p k n G Hp Hn) as (r & h' & -> & [(-> & G' & K)|(R1 & _ & R3 & K & (bs' & FL' & G') & C)]).
    + eexists h', L. split; [done|]. split_and!; [by eexists _, _|intros q m Hq _; split; [done|apply (K q m Hq)]|].
      intros k' Hk'. exists p, k'. split_and!; [done|by left|]. intros i Hi Hik _. destruct (K p k' Hk') as [_ M]. apply M. lia.
    + destruct (Z.eqb_spec r 0); [lia|]. eexists h', _. split; [done|]. split_and!; [by eexists _, _| |].
      * intros q m Hq Hne. assert (Hqr : r <> q) by (destruct R3; congruence). assert (Hq' : delete p L !! q = Some m) by (by rewrite lookup_delete_ne).
        rewrite lookup_insert_ne by done. split; [done|]. apply (K q m Hq').
      * intros k' Hk'. exists r, n. rewrite lookup_insert_eq. split_and!; [done|by right|]. intros i Hi Hik Hin. apply C; [done|congruence|done].
Qed.

Lemma reachable_good h L : malloc_reachable h L -> exists bs FL, good h L bs FL.
Proof.
  induction 1 as [h Hs|h L op h' L' _ (bs & FL & G) Hop E]; [eexists _, _; by apply starts_good|].
  destruct (calls_safe h L bs FL op G Hop) as (h1 & L1 & E1 & G1 & _). rewrite E in E1. by injection E1 as <- <-.
Qed.


(** a realloc to a size within 15 bytes of 2^64 is granted: the rounding wraps
    to zero and, unlike malloc, realloc does not look; the client is told it holds
    almost 2^64 bytes and the block it had is split at nothing. *)
Theorem realloc_wraps h L p n m : malloc_reachable h L -> L !! p = Some n -> 2 ^ 64 - 15 <= m < 2 ^ 64 ->
  realloc p m h = (Ok p, split (p - 32) 0 h).
Proof.
  intros Hr Hp Hm. destruct (reachable_good h L Hr) as (bs & FL & G). pose proof (g_arena _ _ _ _ G) as H.
  destruct (g_block _ _ _ _ G p n Hp) as (Hb & Hf & Hn). pose proof (block_bounds _ _ _ _ _ H Hb) as (B1 & _ & B3 & _ & B5).
  assert (Ew : malloc_align_up m = 0).
  { unfold malloc_align_up, ALIGNMENT. replace (u64 (m + (16 - 1))) with (m + 15 - 2 ^ 64) by (unfold u64; zlia).
    assert (Hk : 0 <= m + 15 - 2 ^ 64 < 15) by lia. revert Hk. generalize (m + 15 - 2 ^ 64). intros k Hk.
    assert (Hc : k = 0 \/ k = 1 \/ k = 2 \/ k = 3 \/ k = 4 \/ k = 5 \/ k = 6 \/ k = 7 \/ k = 8 \/ k = 9 \/ k = 10 \/ k = 11 \/ k = 12 \/ k = 13 \/ k = 14) by lia.
    by repeat (destruct Hc as [-> |Hc]; [reflexivity|]); subst. }
  assert (Eb : u64 (p - header_size) = p - 32) by (rewrite header_size_32; apply u64_small; unfold is_u64; lia).
  unfold realloc. destruct (Z.eqb_spec p 0); [lia|]. destruct (Z.eqb_spec m 0); [lia|].
  rewrite Eb, (mtry_ok _ _ h tt h) by exact (check_ok _ h bs FL _ H Hb). rewrite mtry_get, Ew.
  destruct (Z.leb_spec 0 (block_size h (p - 32))); [|lia]. by autorewrite with run.
Qed.
End Calls.

(** ** A small process *)

Definition fresh_block : Z := 0x400020.

Lemma fresh_starts : starts fresh.
Proof. repeat split; done. Qed.

Lemma fresh_runs : fst (malloc 100 fresh) = Ok fresh_block.
Proof. vm_compute. reflexivity. Qed.

Lemma fresh_reachable h : malloc 100 fresh = (Ok fresh_block, h) -> malloc_reachable h {[fresh_block := 100]}.
Proof.
  intros E. apply (mreach_step fresh ∅ (MMalloc 100)).
  - apply mreach_start. exact fresh_starts.
  - unfold client_ok, size_ok. lia.
  - cbn [client_exec]. rewrite E. done.
Qed.


Lemma realloc_wraps_witness :
  exists h, malloc 100 fresh = (Ok fresh_block, h) /\ fst (realloc fresh_block (2 ^ 64 - 1) h) = Ok fresh_block.
Proof.
  pose proof fresh_runs as E. destruct (malloc 100 fresh) as [r h] eqn:Ek. cbn [fst] in E. subst r.
  exists h. split; [reflexivity|].
  rewrite (realloc_wraps h {[fresh_block := 100]} fresh_block 100 (2 ^ 64 - 1) (fresh_reachable h Ek) (lookup_singleton_eq _ _) ltac:(lia)).
  reflexivity.
Defined.

(** After that, the next request is given memory inside the block still held. *)
Lemma realloc_wraps_overlap :
  fst ((let! p := malloc 100 in realloc p (2 ^ 64 - 1) ;! malloc 40) fresh) = Ok (fresh_block + 32).
Proof. vm_compute. reflexivity. Qed.

(** A request just below 2^64 is granted, and moves the break down. *)
Lemma malloc_lowers_the_break :
  let h := snd (malloc 100 fresh) in
  fst (malloc (2 ^ 64 - 4096) h) = Ok 4194480
  /\ br_current (process (snd (malloc (2 ^ 64 - 4096) h))) = br_current (process h) - 4064.
Proof. vm_compute. split; reflexivity. Qed.
