(* ===== verification/Paths.v ===== *)
(** * Paths

    The parts of kernel/fs/vfs.cpp that only look at a path.  A path is the bytes
    of a C string before its terminator, so none of them is zero. *)

From S2P Require Import Prelude.

Definition FILENAME_MAX_LENGTH : Z := 128.
Definition PATH_MAX_LENGTH : Z := 1024.

Definition SLASH : Z := 47.
Definition DOT : list Z := [46].
Definition DOTDOT : list Z := [46; 46].

(** [strncpy(dest, src, n)] into an array of zeros, read back as a string. *)
Definition strncpy (src : list Z) (n : Z) : list Z := take (Z.to_nat n) src.

(** ** One component after another *)

Fixpoint skip_slashes (path : list Z) : list Z :=
  match path with
  | c :: rest => if c =? SLASH then skip_slashes rest else path
  | [] => []
  end.

(** Copies up to the next slash; what does not fit [out] is passed over. *)
Fixpoint take_component (path out : list Z) : list Z * list Z :=
  match path with
  | c :: rest =>
      if c =? SLASH then (out, path)
      else take_component rest (if zlen out + 1 <? FILENAME_MAX_LENGTH then out ++ [c] else out)
  | [] => (out, [])
  end.

Definition next_component (path : list Z) : option (list Z * list Z) :=
  match skip_slashes path with
  | [] => None
  | rest => Some (take_component rest [])
  end.

(** ** The last component *)

(** The position of the last slash that something follows. *)
Fixpoint last_slash (path : list Z) (position : nat) (found : option nat) : option nat :=
  match path with
  | [] => found
  | c :: rest =>
      last_slash rest (S position) (if (c =? SLASH) && negb (bool_decide (rest = [])) then Some position else found)
  end.

Definition starts_with_slash (path : list Z) : bool :=
  match path with c :: _ => c =? SLASH | [] => false end.

(** ** Lemmas *)

(** What the calls of [next_component] on a path yield, in order. *)
Fixpoint components_from (fuel : nat) (path : list Z) : list (list Z) :=
  match fuel with
  | O => []
  | S fuel' =>
      match next_component path with
      | None => []
      | Some (c, rest) => c :: components_from fuel' rest
      end
  end.
Definition components (path : list Z) : list (list Z) := components_from (length path) path.

Lemma skip_slashes_length path : (length (skip_slashes path) <= length path)%nat.
Proof. induction path as [|c rest IH]; cbn; [lia|]. destruct (c =? SLASH); cbn; lia. Qed.

Lemma take_component_length path : forall out, (length (take_component path out).2 <= length path)%nat.
Proof. induction path as [|c rest IH]; intros out; cbn; [lia|]. destruct (c =? SLASH); cbn; [lia|]. etransitivity; [apply IH|lia]. Qed.

Lemma skip_slashes_head path : match skip_slashes path with [] => True | c :: _ => c <> SLASH end.
Proof. induction path as [|c rest IH]; cbn; [done|]. destruct (Z.eqb_spec c SLASH); done. Qed.

(** Every component uses up part of the path. *)
Lemma next_component_length path c rest : next_component path = Some (c, rest) -> (length rest < length path)%nat.
Proof.
  unfold next_component. pose proof (skip_slashes_length path) as Hl. pose proof (skip_slashes_head path) as Hh.
  destruct (skip_slashes path) as [|d r]; [done|]. cbn [take_component length] in *.
  destruct (Z.eqb_spec d SLASH); [done|]. intros [= Hc].
  match type of Hc with take_component r ?o = _ => pose proof (take_component_length r o) as Ht end.
  rewrite Hc in Ht. cbn in Ht. lia.
Qed.

Lemma components_enough fuel : forall path, (length path <= fuel)%nat -> components_from fuel path = components path.
Proof.
  unfold components. induction fuel as [fuel IH] using lt_wf_ind. intros path Hf.
  destruct fuel as [|fuel]; [destruct path; [done|cbn in Hf; lia]|]. destruct (length path) as [|n] eqn:En.
  - by destruct path.
  - cbn [components_from]. destruct (next_component path) as [[c rest]|] eqn:E; [|done]. f_equal.
    apply next_component_length in E. rewrite !IH by lia. symmetry. apply IH; lia.
Qed.

Lemma components_eq path : components path =
  match next_component path with None => [] | Some (c, rest) => c :: components rest end.
Proof.
  rewrite <- (components_enough (S (length path))) by lia. cbn [components_from].
  destruct (next_component path) as [[c rest]|] eqn:E; [|done]. apply next_component_length in E.
  by rewrite components_enough by lia.
Qed.

(** *** Names *)

(** A name that is one whole component: it has no slash and fits. *)
Definition plain (name : list Z) : Prop := name <> [] /\ SLASH ∉ name /\ zlen name < FILENAME_MAX_LENGTH.

(** A plain name that a walk does not treat specially. *)
Definition ordinary (name : list Z) : Prop := plain name /\ name <> DOT /\ name <> DOTDOT.

(** The path that names [names] one after the other, as getcwd writes it. *)
Fixpoint join (names : list (list Z)) : list Z :=
  match names with [] => [] | n :: rest => SLASH :: n ++ join rest end.

Lemma take_component_plain name : forall out rest, SLASH ∉ name -> zlen out + zlen name < FILENAME_MAX_LENGTH ->
  match rest with [] => True | c :: _ => c = SLASH end -> take_component (name ++ rest) out = (out ++ name, rest).
Proof.
  induction name as [|c name IH]; intros out rest Hs Hl Hr.
  - rewrite app_nil_r. destruct rest as [|d rest]; cbn; [done|]. subst d. done.
  - rewrite not_elem_of_cons in Hs. destruct Hs as [Hc Hs]. cbn [app take_component].
    destruct (Z.eqb_spec c SLASH); [congruence|]. unfold zlen in *. cbn [length] in Hl.
    destruct (Z.ltb_spec (Z.of_nat (length out) + 1) FILENAME_MAX_LENGTH); [|lia].
    rewrite IH; [by rewrite <- app_assoc|done|rewrite length_app; cbn; lia|done].
Qed.

Lemma join_head names : match join names with [] => True | c :: _ => c = SLASH end.
Proof. by destruct names. Qed.

Lemma next_component_plain name rest : plain name -> match rest with [] => True | c :: _ => c = SLASH end ->
  next_component (name ++ rest) = Some (name, rest) /\ next_component (SLASH :: name ++ rest) = Some (name, rest).
Proof.
  intros (Hne & Hs & Hl) Hr. assert (H : skip_slashes (name ++ rest) = name ++ rest).
  { destruct name as [|c name]; [done|]. cbn. destruct (Z.eqb_spec c SLASH); [|done]. subst. by destruct (not_elem_of_cons name SLASH SLASH) as [[] _]. }
  unfold next_component. cbn [skip_slashes]. rewrite Z.eqb_refl, H.
  pose proof (take_component_plain name [] rest Hs Hl Hr) as E. destruct name as [|c name]; [done|]. cbn [app] in *. by rewrite E.
Qed.

Lemma components_join names : Forall plain names -> components (join names) = names.
Proof.
  induction 1 as [|n names Hn _ IH]; [done|]. rewrite components_eq. cbn [join].
  destruct (next_component_plain n (join names) Hn (join_head names)) as [_ ->]. by rewrite IH.
Qed.

(** The slashes around a relative path make no difference to its components. *)
Lemma components_plain name : plain name -> components name = [name].
Proof.
  intros Hn. rewrite components_eq. destruct (next_component_plain name [] Hn I) as [E _]. rewrite app_nil_r in E. by rewrite E.
Qed.
