(* ===== verification/Vfs.v ===== *)
(** * The file tree

    kernel/fs/vfs.cpp and vfs.h, the directories and files of kernel/fs/tmpfs.cpp,
    and the path system calls of kernel/sys/syscall.cpp.  An inode is an address
    in [inodes]; zero is the null pointer, and following an address that is not
    there is a [Panic], as the kernel has then used freed memory.  The page frames
    come from a [FrameAllocator]; [mem] is physical memory by bytes.  Whether the
    kernel heap has room is an argument of the calls that ask it. *)

From S2P Require Import Prelude Kstd Physical Pipe Files Paths.

Definition O_CREAT : Z := 0x0040.
Definition O_EXCL : Z := 0x0080.
Definition O_TRUNC : Z := 0x0200.
Definition O_DIRECTORY : Z := 0x10000.

Inductive InodeType := Regular | Directory | CharacterDevice | BlockDevice | Fifo | SymbolicLink.

(** Which of the three classes an inode is of: its virtual functions. *)
Inductive InodeClass := TmpfsInode | UstarInode | DevfsInode.

#[export] Instance InodeType_eq_dec : EqDecision InodeType.
Proof. solve_decision. Defined.
#[export] Instance InodeClass_eq_dec : EqDecision InodeClass.
Proof. solve_decision. Defined.

(** The fields of the three classes together: [m_pages] and [m_fifo] are a tmpfs
    inode's, [m_data] an initial ramdisk's, the last four a device's. *)
Record Inode := mkInode {
  class : InodeClass;
  m_filesystem : Z;
  m_parent : Z;
  m_reference_count : Z;
  m_unlinked : bool;
  m_access_time : Z;
  m_modify_time : Z;
  m_change_time : Z;
  m_type : InodeType;
  m_mode : Z;
  m_size : Z;
  m_inode_number : Z;
  m_name : list Z;
  m_pages : list Z;
  m_children : list Z;
  m_fifo : option PipeBuffer;
  m_data : Z;
  m_ops : Z;
  m_memory_base : Z;
  m_memory_length : Z;
  m_open_descriptions : Z;
}.

Record FileSystem := mkFileSystem { fs_class : InodeClass; m_root : Z; m_next_inode_number : Z }.

Record MountEntry := mkMount { covered : Z; filesystem : Z; mount_path : list Z }.

(** The constructor: one reference, for the directory entry that names it. *)
Definition inode_new (cl : InodeClass) (fs : Z) (type : InodeType) (mode : Z) : Inode :=
  mkInode cl fs 0 1 false 0 0 0 type mode 0 0 [] [] [] None 0 0 0 0 0.

Definition with_count (n : Z) (x : Inode) : Inode :=
  mkInode (class x) (m_filesystem x) (m_parent x) n (m_unlinked x) (m_access_time x)
    (m_modify_time x) (m_change_time x) (m_type x) (m_mode x) (m_size x) (m_inode_number x)
    (m_name x) (m_pages x) (m_children x) (m_fifo x) (m_data x) (m_ops x) (m_memory_base x)
    (m_memory_length x) (m_open_descriptions x).
Definition with_inode_parent (p : Z) (x : Inode) : Inode :=
  mkInode (class x) (m_filesystem x) p (m_reference_count x) (m_unlinked x) (m_access_time x)
    (m_modify_time x) (m_change_time x) (m_type x) (m_mode x) (m_size x) (m_inode_number x)
    (m_name x) (m_pages x) (m_children x) (m_fifo x) (m_data x) (m_ops x) (m_memory_base x)
    (m_memory_length x) (m_open_descriptions x).
Definition mark_unlinked (x : Inode) : Inode :=
  mkInode (class x) (m_filesystem x) 0 (m_reference_count x) true (m_access_time x)
    (m_modify_time x) (m_change_time x) (m_type x) (m_mode x) (m_size x) (m_inode_number x)
    (m_name x) (m_pages x) (m_children x) (m_fifo x) (m_data x) (m_ops x) (m_memory_base x)
    (m_memory_length x) (m_open_descriptions x).
Definition touched (now : Z) (x : Inode) : Inode :=
  mkInode (class x) (m_filesystem x) (m_parent x) (m_reference_count x) (m_unlinked x)
    (if m_access_time x =? 0 then now else m_access_time x) now now (m_type x) (m_mode x)
    (m_size x) (m_inode_number x) (m_name x) (m_pages x) (m_children x) (m_fifo x) (m_data x)
    (m_ops x) (m_memory_base x) (m_memory_length x) (m_open_descriptions x).
Definition with_mode (mode : Z) (x : Inode) : Inode :=
  mkInode (class x) (m_filesystem x) (m_parent x) (m_reference_count x) (m_unlinked x)
    (m_access_time x) (m_modify_time x) (m_change_time x) (m_type x) mode (m_size x)
    (m_inode_number x) (m_name x) (m_pages x) (m_children x) (m_fifo x) (m_data x) (m_ops x)
    (m_memory_base x) (m_memory_length x) (m_open_descriptions x).
Definition with_size (n : Z) (x : Inode) : Inode :=
  mkInode (class x) (m_filesystem x) (m_parent x) (m_reference_count x) (m_unlinked x)
    (m_access_time x) (m_modify_time x) (m_change_time x) (m_type x) (m_mode x) n
    (m_inode_number x) (m_name x) (m_pages x) (m_children x) (m_fifo x) (m_data x) (m_ops x)
    (m_memory_base x) (m_memory_length x) (m_open_descriptions x).
Definition with_number (n : Z) (x : Inode) : Inode :=
  mkInode (class x) (m_filesystem x) (m_parent x) (m_reference_count x) (m_unlinked x)
    (m_access_time x) (m_modify_time x) (m_change_time x) (m_type x) (m_mode x) (m_size x) n
    (m_name x) (m_pages x) (m_children x) (m_fifo x) (m_data x) (m_ops x) (m_memory_base x)
    (m_memory_length x) (m_open_descriptions x).
Definition with_name (name : list Z) (x : Inode) : Inode :=
  mkInode (class x) (m_filesystem x) (m_parent x) (m_reference_count x) (m_unlinked x)
    (m_access_time x) (m_modify_time x) (m_change_time x) (m_type x) (m_mode x) (m_size x)
    (m_inode_number x) name (m_pages x) (m_children x) (m_fifo x) (m_data x) (m_ops x)
    (m_memory_base x) (m_memory_length x) (m_open_descriptions x).
Definition with_pages (pages : list Z) (x : Inode) : Inode :=
  mkInode (class x) (m_filesystem x) (m_parent x) (m_reference_count x) (m_unlinked x)
    (m_access_time x) (m_modify_time x) (m_change_time x) (m_type x) (m_mode x) (m_size x)
    (m_inode_number x) (m_name x) pages (m_children x) (m_fifo x) (m_data x) (m_ops x)
    (m_memory_base x) (m_memory_length x) (m_open_descriptions x).
Definition with_children (children : list Z) (x : Inode) : Inode :=
  mkInode (class x) (m_filesystem x) (m_parent x) (m_reference_count x) (m_unlinked x)
    (m_access_time x) (m_modify_time x) (m_change_time x) (m_type x) (m_mode x) (m_size x)
    (m_inode_number x) (m_name x) (m_pages x) children (m_fifo x) (m_data x) (m_ops x)
    (m_memory_base x) (m_memory_length x) (m_open_descriptions x).
Definition with_fifo (fifo : option PipeBuffer) (x : Inode) : Inode :=
  mkInode (class x) (m_filesystem x) (m_parent x) (m_reference_count x) (m_unlinked x)
    (m_access_time x) (m_modify_time x) (m_change_time x) (m_type x) (m_mode x) (m_size x)
    (m_inode_number x) (m_name x) (m_pages x) (m_children x) fifo (m_data x) (m_ops x)
    (m_memory_base x) (m_memory_length x) (m_open_descriptions x).
Definition set_times (t : Z) (x : Inode) : Inode :=
  mkInode (class x) (m_filesystem x) (m_parent x) (m_reference_count x) (m_unlinked x) t t t
    (m_type x) (m_mode x) (m_size x) (m_inode_number x) (m_name x) (m_pages x) (m_children x)
    (m_fifo x) (m_data x) (m_ops x) (m_memory_base x) (m_memory_length x)
    (m_open_descriptions x).
Definition with_data (data : Z) (x : Inode) : Inode :=
  mkInode (class x) (m_filesystem x) (m_parent x) (m_reference_count x) (m_unlinked x)
    (m_access_time x) (m_modify_time x) (m_change_time x) (m_type x) (m_mode x) (m_size x)
    (m_inode_number x) (m_name x) (m_pages x) (m_children x) (m_fifo x) data (m_ops x)
    (m_memory_base x) (m_memory_length x) (m_open_descriptions x).
Definition with_device (ops base length : Z) (x : Inode) : Inode :=
  mkInode (class x) (m_filesystem x) (m_parent x) (m_reference_count x) (m_unlinked x)
    (m_access_time x) (m_modify_time x) (m_change_time x) (m_type x) (m_mode x) (m_size x)
    (m_inode_number x) (m_name x) (m_pages x) (m_children x) (m_fifo x) (m_data x) ops base
    length (m_open_descriptions x).
Definition with_open (n : Z) (x : Inode) : Inode :=
  mkInode (class x) (m_filesystem x) (m_parent x) (m_reference_count x) (m_unlinked x)
    (m_access_time x) (m_modify_time x) (m_change_time x) (m_type x) (m_mode x) (m_size x)
    (m_inode_number x) (m_name x) (m_pages x) (m_children x) (m_fifo x) (m_data x) (m_ops x)
    (m_memory_base x) (m_memory_length x) n.

Definition is_directory (x : Inode) : bool := bool_decide (m_type x = Directory).

(** What the kernel heap answers during one call: the address of a new inode,
    whether a FIFO's buffer, an open description and the vector of a directory's
    children can be had, and whether a file's vector of pages can grow to a
    number of entries. *)
Record KernelHeap := mkKernelHeap {
  inode_memory : option Z;
  fifo_memory : bool;
  description_memory : bool;
  children_room : bool;
  pages_room : Z -> bool;
}.

Record DirectoryEntry := mkEntry { entry_name : list Z; entry_number : Z; entry_type : InodeType }.

Section Vfs.
Context {F : Type} {FA : FrameAllocator F}.

Record Vfs := mkVfs {
  frames : F;
  mem : Z -> Z;
  inodes : gmap Z Inode;
  filesystems : gmap Z FileSystem;
  s_mounts : list MountEntry;
  s_root_filesystem : Z;
  now : Z;
}.

Definition set_inodes (f : gmap Z Inode -> gmap Z Inode) (s : Vfs) : Vfs :=
  mkVfs (frames s) (mem s) (f (inodes s)) (filesystems s) (s_mounts s) (s_root_filesystem s) (now s).
Definition upd_mem (f : (Z -> Z) -> Z -> Z) (s : Vfs) : Vfs :=
  mkVfs (frames s) (f (mem s)) (inodes s) (filesystems s) (s_mounts s) (s_root_filesystem s) (now s).
Definition upd_filesystems (f : gmap Z FileSystem -> gmap Z FileSystem) (s : Vfs) : Vfs :=
  mkVfs (frames s) (mem s) (inodes s) (f (filesystems s)) (s_mounts s) (s_root_filesystem s) (now s).
Definition with_mounts (l : list MountEntry) (s : Vfs) : Vfs :=
  mkVfs (frames s) (mem s) (inodes s) (filesystems s) l (s_root_filesystem s) (now s).
Definition with_vfs_frames (f : F) (s : Vfs) : Vfs :=
  mkVfs f (mem s) (inodes s) (filesystems s) (s_mounts s) (s_root_filesystem s) (now s).

Definition vfs_frames {A} (m : M F A) : M Vfs A := fun s =>
  let '(r, f) := m (frames s) in (r, with_vfs_frames f s).

Definition deref (i : Z) : M Vfs Inode := fun s =>
  match inodes s !! i with Some x => (Ok x, s) | None => (Panic, s) end.
Definition modify (i : Z) (f : Inode -> Inode) : M Vfs unit :=
  deref i ;! mmod (set_inodes (alter f i)).
Definition touch (i : Z) : M Vfs unit :=
  let! s := mget in modify i (touched (now s)).

Fixpoint each (l : list Z) (body : Z -> M Vfs unit) : M Vfs unit :=
  match l with [] => mok tt | i :: rest => body i ;! each rest body end.

(** ** The pages of a file *)

Definition pages_for (bytes : Z) : Z := u64 (bytes + PAGE_SIZE - 1) / PAGE_SIZE.

(** The bytes of a C array written at an address, and read from one. *)
Definition mem_store (a : Z) (l : list Z) (m : Z -> Z) : Z -> Z := fun z =>
  if (a <=? z) && (z <? a + zlen l) then zget 0 l (z - a) else m z.
Definition mem_load (m : Z -> Z) (a n : Z) : list Z := (fun k => m (a + k)) <$> seqZ 0 n.
Definition clear (a n : Z) (m : Z -> Z) : Z -> Z := fun z => if (a <=? z) && (z <? a + n) then 0 else m z.

Definition zeroed_page : M Vfs Z :=
  let! page := vfs_frames fa_allocate in
  mmod (upd_mem (clear page PAGE_SIZE)) ;!
  mok page.

Fixpoint release_loop (n : nat) (i : Z) : M Vfs unit :=
  match n with
  | O => mok tt
  | S n' =>
      let! x := deref i in
      vfs_frames (fa_free (zget 0 (m_pages x) (zlen (m_pages x) - 1))) ;!
      modify i (with_pages (removelast (m_pages x))) ;!
      release_loop n' i
  end.

Definition release_pages_from (i first_index : Z) : M Vfs unit :=
  let! x := deref i in
  release_loop (Z.to_nat (zlen (m_pages x) - first_index)) i.

(** [pages_room h n] says whether the vector of pages can grow to [n] entries. *)
Fixpoint ensure_loop (n : nat) (h : KernelHeap) (i : Z) : M Vfs unit :=
  match n with
  | O => mok tt
  | S n' =>
      let! page := mcatch zeroed_page in
      let! x := deref i in
      match page with
      | inr e => release_pages_from i (pages_for (m_size x)) ;! merr e
      | inl page =>
          if pages_room h (zlen (m_pages x) + 1) then
            modify i (with_pages (m_pages x ++ [page])) ;!
            ensure_loop n' h i
          else
            vfs_frames (fa_free page) ;!
            release_pages_from i (pages_for (m_size x)) ;!
            merr ENOMEM
      end
  end.

Definition ensure_pages (h : KernelHeap) (i wanted_bytes : Z) : M Vfs unit :=
  let! x := deref i in
  ensure_loop (Z.to_nat (pages_for wanted_bytes - zlen (m_pages x))) h i.

(** Where byte [position] of a file is; there is no such page out of range. *)
Definition page_at (x : Inode) (position : Z) : M Vfs Z :=
  match m_pages x !! Z.to_nat (position / PAGE_SIZE) with
  | Some page => mok page
  | None => mpanic
  end.

(** A copy of [length] bytes meets at most [length / PAGE_SIZE + 2] pages. *)
Definition copy_fuel (length : Z) : nat := Z.to_nat (length / PAGE_SIZE + 3).

Fixpoint read_pages (fuel : nat) (x : Inode) (offset copied to_copy : Z) : M Vfs (list Z) :=
  match fuel with
  | O => mpanic
  | S fuel' =>
      if copied <? to_copy then
        let position := u64 (offset + copied) in
        let within := position mod PAGE_SIZE in
        let run := Z.min (to_copy - copied) (PAGE_SIZE - within) in
        let! page := page_at x position in
        let! s := mget in
        let! rest := read_pages fuel' x offset (copied + run) to_copy in
        mok (mem_load (mem s) (page + within) run ++ rest)
      else mok []
  end.

Definition tmpfs_read (i offset length : Z) : M Vfs (list Z) :=
  let! x := deref i in
  if is_directory x then merr EISDIR
  else if m_size x <=? offset then mok []
  else
    let to_copy := Z.min length (m_size x - offset) in
    read_pages (copy_fuel to_copy) x offset 0 to_copy.

Fixpoint write_pages (fuel : nat) (x : Inode) (offset written : Z) (input : list Z) : M Vfs unit :=
  match fuel with
  | O => mpanic
  | S fuel' =>
      if written <? zlen input then
        let position := u64 (offset + written) in
        let within := position mod PAGE_SIZE in
        let run := Z.min (zlen input - written) (PAGE_SIZE - within) in
        let! page := page_at x position in
        mmod (upd_mem (mem_store (page + within) (take (Z.to_nat run) (drop (Z.to_nat written) input)))) ;!
        write_pages fuel' x offset (written + run) input
      else mok tt
  end.

Definition tmpfs_write (h : KernelHeap) (i offset : Z) (input : list Z) : M Vfs Z :=
  let! x := deref i in
  if is_directory x then merr EISDIR
  else if zlen input =? 0 then mok 0
  else
    ensure_pages h i (u64 (offset + zlen input)) ;!
    let! x := deref i in
    write_pages (copy_fuel (zlen input)) x offset 0 input ;!
    modify i (with_size (Z.max (m_size x) (u64 (offset + zlen input)))) ;!
    touch i ;!
    mok (zlen input).

Definition tmpfs_truncate (h : KernelHeap) (i size : Z) : M Vfs unit :=
  let! x := deref i in
  if is_directory x then merr EISDIR
  else
    (if m_size x <? size then ensure_pages h i size
     else if size <? m_size x then
       let keep := pages_for size in
       let within := size mod PAGE_SIZE in
       (if negb (within =? 0) && (0 <? keep) then
          let! page := page_at x ((keep - 1) * PAGE_SIZE) in
          mmod (upd_mem (clear (page + within) (PAGE_SIZE - within)))
        else mok tt) ;!
       release_pages_from i keep
     else mok tt) ;!
    modify i (with_size size) ;!
    touch i.

Definition tmpfs_physical_page (h : KernelHeap) (i offset : Z) (for_write : bool) : M Vfs Z :=
  let! x := deref i in
  if is_directory x then merr EISDIR
  else
    let index := offset / PAGE_SIZE in
    (if for_write then ensure_pages h i (u64 (offset + PAGE_SIZE)) else mok tt) ;!
    let! x := deref i in
    if zlen (m_pages x) <=? index then merr ENXIO else page_at x offset.

(** ** FIFOs

    A FIFO's inode has a pipe behind it (Pipe.v) and forwards to it.  A call on a
    pipe may sleep; it is then run again from where it slept with what it carried
    over, and other calls run in between. *)

Definition settled {L A} (b : Blocking L A) : M Vfs (Blocking L A) :=
  match b with Done (Err e) => merr e | Done Panic => mpanic | _ => mok b end.

Definition TmpfsInode_read (pending : bool) (i offset length : Z) : M Vfs (Blocking unit (list Z)) :=
  let! x := deref i in
  match m_fifo x with
  | Some p =>
      let '(p', _, b) := PipeBuffer_read pending length p in
      modify i (with_fifo (Some p')) ;!
      settled b
  | None => let! bytes := tmpfs_read i offset length in mok (Done (Ok bytes))
  end.

(** A write to a FIFO that slept is run again with the bytes left and the number
    [written]; every other write starts with all its bytes and zero. *)
Definition TmpfsInode_write (h : KernelHeap) (pending : bool) (i offset : Z) (rest : list Z) (written : Z) :
    M Vfs (Blocking (list Z * Z) Z) :=
  let! x := deref i in
  match m_fifo x with
  | Some p =>
      let '(p', _, b) := PipeBuffer_write pending rest written p in
      modify i (with_fifo (Some p')) ;!
      settled b
  | None => let! n := tmpfs_write h i offset rest in mok (Done (Ok n))
  end.

Definition TmpfsInode_await_peer (pending : bool) (i flags : Z) : M Vfs (Blocking Z unit) :=
  let! x := deref i in
  match m_fifo x with
  | Some p =>
      let '(p', _, b) := PipeBuffer_await_peer flags pending p in
      modify i (with_fifo (Some p')) ;!
      settled b
  | None => mok (Done (Ok tt))
  end.

(** [await_peer] again after a sleep: it goes on with the pipe it was called on. *)
Definition await_peer_resume (pending : bool) (i flags arrivals : Z) : M Vfs (Blocking Z unit) :=
  let! x := deref i in
  match m_fifo x with
  | Some p =>
      let '(p', b) := await_check (Z.land flags O_ACCMODE =? O_RDONLY) arrivals pending p in
      modify i (with_fifo (Some p')) ;!
      settled b
  | None => mpanic
  end.

(** ** Reference counts *)

Definition Inode_ref (i : Z) : M Vfs unit :=
  let! x := deref i in
  modify i (with_count (u32 (m_reference_count x + 1))).

(** [unref] and, when it drops the last reference, [destroy]: the destructor of a
    tmpfs inode gives back its pages and the reference it held on each child.
    The nesting of directories bounds the recursion. *)
Fixpoint unref_nested (fuel : nat) (i : Z) : M Vfs unit :=
  match fuel with
  | O => mpanic
  | S fuel' =>
      let! x := deref i in
      let remaining := u32 (m_reference_count x - 1) in
      modify i (with_count remaining) ;!
      if remaining =? 0 then
        (if bool_decide (class x = TmpfsInode) then
           release_pages_from i 0 ;! each (m_children x) (unref_nested fuel')
         else mok tt) ;!
        mmod (set_inodes (delete i))
      else mok tt
  end.

Definition Inode_unref (i : Z) : M Vfs unit :=
  let! s := mget in unref_nested (S (size (inodes s))) i.

(** ** Directories *)

Fixpoint find_child (children : list Z) (name : list Z) : M Vfs Z :=
  match children with
  | [] => mok 0
  | c :: rest =>
      let! x := deref c in
      if bool_decide (m_name x = name) then mok c else find_child rest name
  end.

Definition lookup (dir : Z) (name : list Z) : M Vfs Z :=
  let! d := deref dir in
  if negb (is_directory d) then merr ENOTDIR
  else
    let! c := find_child (m_children d) name in
    if c =? 0 then merr ENOENT else mok c.

Definition read_directory (dir index : Z) : M Vfs (option DirectoryEntry) :=
  let! d := deref dir in
  if negb (is_directory d) then merr ENOTDIR
  else if index =? 0 then mok (Some (mkEntry DOT (m_inode_number d) Directory))
  else if index =? 1 then
    (if m_parent d =? 0 then mok (Some (mkEntry DOTDOT (m_inode_number d) Directory))
     else let! p := deref (m_parent d) in mok (Some (mkEntry DOTDOT (m_inode_number p) Directory)))
  else
    match m_children d !! Z.to_nat (index - 2) with
    | None => mok None
    | Some c =>
        let! x := deref c in
        mok (Some (mkEntry (strncpy (m_name x) (FILENAME_MAX_LENGTH - 1)) (m_inode_number x) (m_type x)))
    end.

Definition allocate_inode_number (fs : Z) : M Vfs Z := fun s =>
  match filesystems s !! fs with
  | None => (Panic, s)
  | Some f => (Ok (m_next_inode_number f),
               upd_filesystems <[fs := mkFileSystem (fs_class f) (m_root f) (u64 (m_next_inode_number f + 1))]> s)
  end.

Definition tmpfs_create (h : KernelHeap) (dir : Z) (name : list Z) (type : InodeType) (mode : Z) : M Vfs Z :=
  let! d := deref dir in
  if negb (is_directory d) then merr ENOTDIR
  else if FILENAME_MAX_LENGTH <=? zlen name then merr ENAMETOOLONG
  else
    let! existing := find_child (m_children d) name in
    if negb (existing =? 0) then merr EEXIST
    else
      match inode_memory h with
      | None => merr ENOMEM
      | Some child =>
          mmod (set_inodes <[child := inode_new TmpfsInode (m_filesystem d) type mode]>) ;!
          (if bool_decide (type = Fifo) then
             if fifo_memory h then modify child (with_fifo (Some PipeBuffer_new))
             else Inode_unref child ;! merr ENOMEM
           else mok tt) ;!
          modify child (with_name (strncpy name (FILENAME_MAX_LENGTH - 1))) ;!
          modify child (with_inode_parent dir) ;!
          let! number := allocate_inode_number (m_filesystem d) in
          modify child (with_number number) ;!
          touch child ;!
          touch dir ;!
          if children_room h then modify dir (fun d => with_children (m_children d ++ [child]) d) ;! mok child
          else Inode_unref child ;! merr ENOMEM
      end.

(** The index of the first child of the name. *)
Fixpoint find_index (children : list Z) (name : list Z) (index : nat) : M Vfs (option (nat * Z)) :=
  match children with
  | [] => mok None
  | c :: rest =>
      let! x := deref c in
      if bool_decide (m_name x = name) then mok (Some (index, c)) else find_index rest name (S index)
  end.

Definition tmpfs_unlink (dir : Z) (name : list Z) : M Vfs unit :=
  let! d := deref dir in
  if negb (is_directory d) then merr ENOTDIR
  else
    let! found := find_index (m_children d) name 0 in
    match found with
    | None => merr ENOENT
    | Some (index, child) =>
        let! x := deref child in
        if is_directory x && negb (bool_decide (m_children x = [])) then merr ENOTEMPTY
        else
          modify dir (with_children (delete index (m_children d))) ;!
          modify child mark_unlinked ;!
          Inode_unref child
    end.

Fixpoint remove_child (children : list Z) (child : Z) : list Z :=
  match children with
  | [] => []
  | c :: rest => if c =? child then rest else c :: remove_child rest child
  end.

Definition take_out (dir child : Z) : M Vfs unit :=
  modify dir (fun d => with_children (remove_child (m_children d) child) d).

Definition tmpfs_rename (h : KernelHeap) (dir : Z) (name : list Z) (destination : Z) (new_name : list Z) : M Vfs unit :=
  let! d := deref dir in
  let! n := deref destination in
  if negb (is_directory d) || negb (is_directory n) then merr ENOTDIR
  else if FILENAME_MAX_LENGTH <=? zlen new_name then merr ENAMETOOLONG
  else
    let! source := find_child (m_children d) name in
    if source =? 0 then merr ENOENT
    else if (destination =? dir) && bool_decide (name = new_name) then mok tt
    else
      let! replaced := find_child (m_children n) new_name in
      if replaced =? source then mok tt
      else
        let! x := deref source in
        (if negb (replaced =? 0) then
           let! r := deref replaced in
           if negb (Bool.eqb (is_directory r) (is_directory x)) then merr (if is_directory x then ENOTDIR else EISDIR)
           else if is_directory r && negb (bool_decide (m_children r = [])) then merr ENOTEMPTY
           else mok tt
         else mok tt) ;!
        if negb (children_room h) then merr ENOMEM
        else
          (if negb (replaced =? 0) then take_out destination replaced else mok tt) ;!
          take_out dir source ;!
          modify source (with_name (strncpy new_name (FILENAME_MAX_LENGTH - 1))) ;!
          modify source (with_inode_parent destination) ;!
          modify destination (fun n => with_children (m_children n ++ [source]) n) ;!
          touch dir ;!
          touch destination ;!
          if negb (replaced =? 0) then modify replaced mark_unlinked ;! Inode_unref replaced else mok tt.

(** ** The virtual functions *)

Definition Inode_create (h : KernelHeap) (dir : Z) (name : list Z) (type : InodeType) (mode : Z) : M Vfs Z :=
  let! d := deref dir in
  if bool_decide (class d = TmpfsInode) then tmpfs_create h dir name type mode else merr EROFS.
Definition Inode_unlink (dir : Z) (name : list Z) : M Vfs unit :=
  let! d := deref dir in
  if bool_decide (class d = TmpfsInode) then tmpfs_unlink dir name else merr EROFS.
Definition Inode_rename (h : KernelHeap) (dir : Z) (name : list Z) (destination : Z) (new_name : list Z) : M Vfs unit :=
  let! d := deref dir in
  if bool_decide (class d = TmpfsInode) then tmpfs_rename h dir name destination new_name else merr ENOTSUP.
Definition Inode_truncate (h : KernelHeap) (i size : Z) : M Vfs unit :=
  let! x := deref i in
  if bool_decide (class x = TmpfsInode) then tmpfs_truncate h i size else merr EROFS.

Definition is_read_only (fs : Z) : M Vfs bool := fun s =>
  match filesystems s !! fs with
  | None => (if fs =? 0 then Ok false else Panic, s)
  | Some f => (Ok (bool_decide (fs_class f = UstarInode)), s)
  end.

(** ** Mounts *)

Definition MAX_MOUNTS : Z := 8.

Definition root_of (s : Vfs) (fs : Z) : Z :=
  match filesystems s !! fs with Some f => m_root f | None => 0 end.

Fixpoint mount_point_scan (s : Vfs) (mounts : list MountEntry) (filesystem_root : Z) : Z :=
  match mounts with
  | [] => 0
  | e :: rest =>
      if covered e =? 0 then mount_point_scan s rest filesystem_root
      else if root_of s (filesystem e) =? filesystem_root then covered e
      else mount_point_scan s rest filesystem_root
  end.
Definition mount_point_of (filesystem_root : Z) (s : Vfs) : Z := mount_point_scan s (s_mounts s) filesystem_root.

Fixpoint follow_scan (s : Vfs) (mounts : list MountEntry) (inode : Z) : Z :=
  match mounts with
  | [] => inode
  | e :: rest => if covered e =? inode then root_of s (filesystem e) else follow_scan s rest inode
  end.
Definition follow_mount (inode : Z) (s : Vfs) : Z := follow_scan s (s_mounts s) inode.

Definition root_inode (s : Vfs) : Z :=
  if s_root_filesystem s =? 0 then 0 else root_of s (s_root_filesystem s).

Definition mount_root (fs : Z) : M Vfs unit :=
  let! s := mget in
  if negb (s_root_filesystem s =? 0) then merr EBUSY
  else mmod (fun s => mkVfs (frames s) (mem s) (inodes s) (filesystems s)
               (s_mounts s ++ [mkMount 0 fs [SLASH]]) fs (now s)).

(** ** Path resolution *)

Fixpoint resolve_loop (fuel : nat) (current : Z) (cursor : list Z) : M Vfs Z :=
  match fuel with
  | O => mpanic
  | S fuel' =>
      match next_component cursor with
      | None => mok current
      | Some (component, cursor) =>
          if bool_decide (component = DOT) then resolve_loop fuel' current cursor
          else if bool_decide (component = DOTDOT) then
            let! x := deref current in
            resolve_loop fuel' (if m_parent x =? 0 then current else m_parent x) cursor
          else
            let! x := deref current in
            if negb (is_directory x) then merr ENOTDIR
            else
              let! next := lookup current component in
              let! s := mget in
              resolve_loop fuel' (follow_mount next s) cursor
      end
  end.

Definition resolve (path : list Z) (base : Z) : M Vfs Z :=
  let! s := mget in
  if s_root_filesystem s =? 0 then merr ENOENT
  else
    let current := if starts_with_slash path || (base =? 0) then root_inode s else base in
    resolve_loop (S (length path)) (follow_mount current s) path.

Definition resolve_parent (path : list Z) (base : Z) : M Vfs (Z * list Z) :=
  let! s := mget in
  match last_slash path 0 None with
  | None =>
      let parent := if starts_with_slash path then root_inode s
                    else if negb (base =? 0) then base else root_inode s in
      mok (follow_mount parent s, strncpy path (FILENAME_MAX_LENGTH - 1))
  | Some last =>
      let directory := take (Z.to_nat (Z.min (Z.of_nat last) (PATH_MAX_LENGTH - 1))) path in
      let name := strncpy (drop (S last) path) (FILENAME_MAX_LENGTH - 1) in
      if bool_decide (directory = []) then mok (follow_mount (root_inode s) s, name)
      else let! parent := resolve directory base in mok (parent, name)
  end.

Definition mount (path : list Z) (fs : Z) : M Vfs unit :=
  let! s := mget in
  if s_root_filesystem s =? 0 then merr ENOENT
  else
    let! mount_point := resolve path 0 in
    let! x := deref mount_point in
    if negb (is_directory x) then merr ENOTDIR
    else if MAX_MOUNTS <=? zlen (s_mounts s) then merr ENOSPC
    else if existsb (fun e => covered e =? mount_point) (s_mounts s) then merr EBUSY
    else
      Inode_ref mount_point ;!
      mmod (fun s => with_mounts (s_mounts s ++ [mkMount mount_point fs (strncpy path (FILENAME_MAX_LENGTH - 1))]) s).

(** ** Open and close *)

Definition flag_set (flags f : Z) : bool := negb (Z.land flags f =? 0).

(** The framebuffer device counts its openings; the last close gives the screen
    back to the console. *)
Definition FB0 : list Z := [102; 98; 48].

Definition on_description_opened (i flags : Z) : M Vfs unit :=
  modify i (fun x =>
    if bool_decide (class x = DevfsInode) then
      (if bool_decide (m_name x = FB0) then with_open (u64 (m_open_descriptions x + 1)) x else x)
    else match m_fifo x with Some p => with_fifo (Some (fst (PipeBuffer_opened flags p))) x | None => x end).
Definition on_description_closed (i flags : Z) : M Vfs unit :=
  modify i (fun x =>
    if bool_decide (class x = DevfsInode) then
      (if bool_decide (m_name x = FB0) && (0 <? m_open_descriptions x) then with_open (m_open_descriptions x - 1) x else x)
    else match m_fifo x with Some p => with_fifo (Some (fst (PipeBuffer_closed flags p))) x | None => x end).

(** The file an open names, made if need be. *)
Definition open_inode (h : KernelHeap) (path : list Z) (flags mode base : Z) : M Vfs Z :=
  let! resolved := mcatch (resolve path base) in
  match resolved with
  | inr e =>
      if negb (e =? ENOENT) || negb (flag_set flags O_CREAT) then merr e
      else
        let! parent_name := resolve_parent path base in
        let '(parent, name) := parent_name in
        let! p := deref parent in
        let! ro := is_read_only (m_filesystem p) in
        if ro then merr EROFS else Inode_create h parent name Regular mode
  | inl inode =>
      if flag_set flags O_CREAT && flag_set flags O_EXCL then merr EEXIST else mok inode
  end.

(** The description, made once nothing is left to wait for. *)
Definition describe (h : KernelHeap) (inode flags : Z) : M Vfs FileDescription :=
  if negb (description_memory h) then merr ENOMEM
  else
    Inode_ref inode ;!
    on_description_opened inode flags ;!
    let! x := deref inode in
    mok (mkDescription inode flags (if flag_set flags O_APPEND then m_size x else 0) 1 0).

(** A sleeping open carries the inode and the arrivals it has seen. *)
Definition open_finish (h : KernelHeap) (inode flags : Z) (b : Blocking Z unit) : M Vfs (Blocking (Z * Z) FileDescription) :=
  match b with
  | WaitOn arrivals => mok (WaitOn (inode, arrivals))
  | Done _ => let! d := describe h inode flags in mok (Done (Ok d))
  end.

Definition open (h : KernelHeap) (pending : bool) (path : list Z) (flags mode base : Z) :
    M Vfs (Blocking (Z * Z) FileDescription) :=
  let wants_write := negb (Z.land flags O_ACCMODE =? O_RDONLY) || flag_set flags (Z.lor O_CREAT O_TRUNC) in
  let! inode := open_inode h path flags mode base in
  let! x := deref inode in
  let! ro := is_read_only (m_filesystem x) in
  if wants_write && ro then merr EROFS
  else if flag_set flags O_DIRECTORY && negb (is_directory x) then merr ENOTDIR
  else if is_directory x && negb (Z.land flags O_ACCMODE =? O_RDONLY) then merr EISDIR
  else
    (if flag_set flags O_TRUNC && negb (Z.land flags O_ACCMODE =? O_RDONLY) && bool_decide (m_type x = Regular)
     then Inode_truncate h inode 0 else mok tt) ;!
    let! b := (if bool_decide (m_type x = Fifo) && negb (flag_set flags O_NONBLOCK)
               then TmpfsInode_await_peer pending inode flags else mok (Done (Ok tt))) in
    open_finish h inode flags b.

(** An open that slept, run again. *)
Definition open_resume (h : KernelHeap) (pending : bool) (inode flags arrivals : Z) :
    M Vfs (Blocking (Z * Z) FileDescription) :=
  let! b := await_peer_resume pending inode flags arrivals in
  open_finish h inode flags b.

(** What [release_description] does when the last holder has gone. *)
Definition close (inode flags : Z) : M Vfs unit :=
  on_description_closed inode flags ;! Inode_unref inode.

(** ** rename *)

(** The walk up from [to_parent]: whether it meets [source]. *)
Fixpoint walk_up (fuel : nat) (walk source : Z) : M Vfs bool :=
  match fuel with
  | O => mpanic
  | S fuel' =>
      if walk =? 0 then mok false
      else if walk =? source then mok true
      else let! x := deref walk in walk_up fuel' (m_parent x) source
  end.

Definition rename (h : KernelHeap) (from to : list Z) (base : Z) : M Vfs unit :=
  let! from_end := resolve_parent from base in
  let! to_end := resolve_parent to base in
  let '(from_parent, from_name) := from_end in
  let '(to_parent, to_name) := to_end in
  let! f := deref from_parent in
  let! t := deref to_parent in
  if negb (m_filesystem f =? m_filesystem t) then merr EXDEV
  else
    let! ro := is_read_only (m_filesystem f) in
    if ro then merr EROFS
    else if bool_decide (from_name = DOT) || bool_decide (from_name = DOTDOT)
            || bool_decide (to_name = DOT) || bool_decide (to_name = DOTDOT) then merr EINVAL
    else
      let! source := lookup from_parent from_name in
      let! x := deref source in
      let! s := mget in
      (if is_directory x then
         let! below := walk_up (S (size (inodes s))) to_parent source in
         if below then merr EINVAL else mok tt
       else mok tt) ;!
      Inode_rename h from_parent from_name to_parent to_name.

(** ** getcwd *)

Fixpoint name_loop (fuel : nat) (parent current index : Z) : M Vfs (list Z) :=
  match fuel with
  | O => mpanic
  | S fuel' =>
      let! have := mcatch (read_directory parent index) in
      match have with
      | inr _ | inl None => mok []
      | inl (Some dir_entry) =>
          let! child := mcatch (lookup parent (entry_name dir_entry)) in
          match child with
          | inl c => if c =? current then mok (strncpy (entry_name dir_entry) (FILENAME_MAX_LENGTH - 1))
                     else name_loop fuel' parent current (index + 1)
          | inr _ => name_loop fuel' parent current (index + 1)
          end
      end
  end.

(** The name [current] has in [parent]; empty if it has none. *)
Definition name_in (parent current : Z) : M Vfs (list Z) :=
  let! p := deref parent in
  name_loop (length (m_children p) + 3) parent current 0.

(** One turn of the loop up to the root: [inl] is where it goes on, with the
    parent to look the name up in; [inr] where it stops. *)
Definition step_up (current : Z) : M Vfs ((Z * Z) + Z) :=
  let! x := deref current in
  if negb (m_parent x =? 0) then mok (inl (current, m_parent x))
  else
    let! s := mget in
    let covered := mount_point_of current s in
    if covered =? 0 then mok (inr current)
    else if covered =? root_inode s then mok (inr covered)
    else
      let! c := deref covered in
      if m_parent c =? 0 then mok (inr covered) else mok (inl (covered, m_parent c)).

Fixpoint path_loop (fuel : nat) (current position : Z) (scratch : list Z) : M Vfs (Z * list Z) :=
  match fuel with
  | O => mpanic
  | S fuel' =>
      let! s := mget in
      if (current =? 0) || (current =? root_inode s) then mok (current, scratch)
      else
        let! up := step_up current in
        match up with
        | inr stop => mok (stop, scratch)
        | inl (current, parent) =>
            let! name := name_in parent current in
            if bool_decide (name = []) then merr ENOENT
            else if position <? zlen name + 1 then merr ENAMETOOLONG
            else path_loop fuel' parent (position - zlen name - 1) (SLASH :: name ++ scratch)
        end
  end.

Definition path_fuel (s : Vfs) : nat := S (length (s_mounts s)) * S (size (inodes s)).

Definition absolute_path_of (inode capacity : Z) : M Vfs (list Z) :=
  let! s := mget in
  if inode =? root_inode s then (if capacity <? 2 then merr ERANGE else mok [SLASH])
  else
    let! reached := path_loop (path_fuel s) inode (PATH_MAX_LENGTH - 1) [] in
    let '(current, scratch) := reached in
    if negb (current =? root_inode s) then merr ENOENT
    else if capacity <? zlen scratch + 1 then merr ERANGE
    else mok scratch.

(** ** System calls, once their paths are copied in

    [base] is the working directory, or the directory an [at] call names. *)

Definition umasked (mode umask : Z) : Z := Z.land (u32 mode) (u32 (Z.lnot umask)).

(** mkdir, mkdirat and mkfifo. *)
Definition make_node (h : KernelHeap) (type : InodeType) (path : list Z) (mode umask base : Z) : M Vfs unit :=
  let! existing := mcatch (resolve path base) in
  match existing with
  | inl _ => merr EEXIST
  | inr _ =>
      let! parent_name := resolve_parent path base in
      let '(parent, name) := parent_name in
      let! p := deref parent in
      let! ro := is_read_only (m_filesystem p) in
      if ro then merr EROFS
      else Inode_create h parent name type (umasked mode umask) ;! mok tt
  end.
Definition sys_mkdir (h : KernelHeap) := make_node h Directory.
Definition sys_mkfifo (h : KernelHeap) := make_node h Fifo.

Definition sys_unlink_common (path : list Z) (base : Z) (must_be_directory : bool) : M Vfs unit :=
  let! target := resolve path base in
  let! x := deref target in
  if must_be_directory && negb (is_directory x) then merr ENOTDIR
  else if negb must_be_directory && is_directory x then merr EISDIR
  else
    let! parent_name := resolve_parent path base in
    let '(parent, name) := parent_name in
    let! p := deref parent in
    let! ro := is_read_only (m_filesystem p) in
    if ro then merr EROFS else Inode_unlink parent name.

Definition sys_unlinkat (path : list Z) (base : Z) (wants_directory : bool) : M Vfs unit :=
  let! parent_name := resolve_parent path base in
  let '(parent, name) := parent_name in
  let! p := deref parent in
  let! ro := is_read_only (m_filesystem p) in
  if ro then merr EROFS
  else
    let! target := lookup parent name in
    let! x := deref target in
    if wants_directory && negb (is_directory x) then merr ENOTDIR
    else if negb wants_directory && is_directory x then merr EISDIR
    else Inode_unlink parent name.

Definition sys_chmod (path : list Z) (mode base : Z) : M Vfs unit :=
  let! inode := resolve path base in
  let! x := deref inode in
  let! ro := is_read_only (m_filesystem x) in
  if ro then merr EROFS
  else
    modify inode (with_mode (Z.land (Z.land (u32 mode) 0xFFF) 0xFFF)) ;!
    touch inode.

(** chdir, with [set_working_directory]: the new directory is the result. *)
Definition vfs_chdir (path : list Z) (cwd : Z) : M Vfs Z :=
  let! inode := resolve path cwd in
  let! x := deref inode in
  if negb (is_directory x) then merr ENOTDIR
  else
    Inode_ref inode ;!
    (if negb (cwd =? 0) then Inode_unref cwd else mok tt) ;!
    mok inode.

Definition sys_getcwd (cwd capacity : Z) : M Vfs (list Z) :=
  if cwd =? 0 then merr ENOENT
  else
    let! path := absolute_path_of cwd PATH_MAX_LENGTH in
    if capacity <? zlen path + 1 then merr ERANGE else mok path.
End Vfs.
