(* ===== verification/Trees.v ===== *)
(** * Reference-counted trees of names

    What the inodes of a file system are as a tree: who is whose child under what
    name, and how many references each holds.  [tree_ok] is the invariant; the
    operations are the changes a file system makes, and each keeps it.  Vfs.v's
    inodes are related to this in VfsTree.v. *)

From S2P Require Import Prelude Files Vfs.

Record Node := mkNode {
  n_parent : Z;
  n_children : list Z;
  n_name : list Z;
  n_dir : bool;
  n_unlinked : bool;
  n_count : Z;
  n_fs : Z;
  n_class : InodeClass;
}.

(** The part of an inode that is in the tree. *)
Definition node_of (x : Inode) : Node :=
  mkNode (m_parent x) (m_children x) (m_name x) (is_directory x) (m_unlinked x) (m_reference_count x) (m_filesystem x) (class x).

Implicit Types (T : gmap Z Node) (R : list Z) (n m : Node).

Definition n_with_children (l : list Z) n : Node :=
  mkNode (n_parent n) l (n_name n) (n_dir n) (n_unlinked n) (n_count n) (n_fs n) (n_class n).
Definition n_unlink n : Node :=
  mkNode 0 (n_children n) (n_name n) (n_dir n) true (n_count n) (n_fs n) (n_class n).
Definition n_with_count (k : Z) n : Node :=
  mkNode (n_parent n) (n_children n) (n_name n) (n_dir n) (n_unlinked n) k (n_fs n) (n_class n).
Definition n_place (p : Z) (name : list Z) n : Node :=
  mkNode p (n_children n) name (n_dir n) (n_unlinked n) (n_count n) (n_fs n) (n_class n).

Definition n_append c n : Node := n_with_children (n_children n ++ [c]) n.
Definition n_remove c n : Node := n_with_children (remove_child (n_children n) c) n.

Lemma lookup_alter_at {A} (f : A -> A) (t : gmap Z A) i k : alter f i t !! k = (if decide (i = k) then f else id) <$> t !! k.
Proof. rewrite lookup_alter. case_decide; [by subst|]. by rewrite option_fmap_id. Qed.

(** From an inode up to one without a parent. *)
Inductive up_chain T : Z -> list Z -> Prop :=
| chain_top i n : T !! i = Some n -> n_parent n = 0 -> up_chain T i [i]
| chain_under i n l : T !! i = Some n -> n_parent n <> 0 -> up_chain T (n_parent n) l -> up_chain T i (i :: l).

(** [R] lists the references held from outside the tree. *)
Record tree_ok T R : Prop := {
  t_null : T !! 0 = None;
  t_link : forall d c n, T !! d = Some n -> c ∈ n_children n <-> exists m, T !! c = Some m /\ n_parent m = d;
  t_parent : forall c m, T !! c = Some m -> n_parent m <> 0 -> is_Some (T !! n_parent m);
  t_nodup : forall i n, T !! i = Some n -> NoDup (n_children n);
  t_dir : forall i n, T !! i = Some n -> n_children n <> [] -> n_dir n = true /\ n_unlinked n = false;
  t_linked : forall i n, T !! i = Some n -> n_parent n <> 0 -> n_unlinked n = false;
  t_count : forall i n, T !! i = Some n -> n_count n = (if n_unlinked n then 0 else 1) + occ i R /\ 0 < n_count n;
  t_names : forall c1 c2 m1 m2, T !! c1 = Some m1 -> T !! c2 = Some m2 -> n_parent m1 = n_parent m2 -> n_parent m1 <> 0 ->
    n_name m1 = n_name m2 -> c1 = c2;
  t_same : forall c m p, T !! c = Some m -> T !! n_parent m = Some p -> n_fs m = n_fs p /\ n_class m = n_class p;
  t_chain : forall i, is_Some (T !! i) -> exists l, up_chain T i l;
  t_held : forall i, i ∈ R -> is_Some (T !! i);
  t_few : zlen R < LIMIT;
}.

(** ** Chains *)

Lemma chain_head T i l : up_chain T i l -> is_Some (T !! i) /\ exists l', l = i :: l'.
Proof. by destruct 1; eauto. Qed.

Lemma chain_unique T i l : up_chain T i l -> forall l', up_chain T i l' -> l = l'.
Proof.
  induction 1 as [i n Hn Hp|i n l Hn Hp _ IH]; intros l' H'; inversion H' as [j m Hm Hq|j m k Hm Hq Hk]; subst;
    rewrite Hn in Hm; injection Hm as <-; try done.
  f_equal. by apply IH.
Qed.

Lemma chain_suffix T i l j : up_chain T i l -> j ∈ l -> exists l', up_chain T j l' /\ (length l' <= length l)%nat.
Proof.
  induction 1 as [i n Hn Hp|i n l Hn Hp H IH]; intros Hj.
  - apply list_elem_of_singleton in Hj. subst. exists [i]. split; [by eapply chain_top|done].
  - apply elem_of_cons in Hj as [-> |Hj]; [exists (i :: l); split; [by eapply chain_under|done]|].
    destruct (IH Hj) as (l' & H1 & H2). exists l'. split; [done|cbn; lia].
Qed.

Lemma chain_nodup T i l : up_chain T i l -> NoDup l.
Proof.
  induction 1 as [i n Hn Hp|i n l Hn Hp H IH]; [apply NoDup_singleton|]. apply NoDup_cons. split; [|done]. intros Hi.
  destruct (chain_suffix T _ l i H Hi) as (l' & H1 & H2).
  rewrite (chain_unique T i l' H1 (i :: l) (chain_under T i n l Hn Hp H)) in H2. cbn in H2. lia.
Qed.

Lemma chain_live T i l j : up_chain T i l -> j ∈ l -> is_Some (T !! j).
Proof. intros H Hj. destruct (chain_suffix T i l j H Hj) as (l' & H' & _). apply (chain_head T j l' H'). Qed.

Lemma chain_length T i l : up_chain T i l -> (length l <= size T)%nat.
Proof.
  intros H. rewrite <- (size_dom T), <- (size_list_to_set (C := gset Z) l (chain_nodup T i l H)).
  apply subseteq_size. intros j Hj. apply elem_of_list_to_set in Hj. apply elem_of_dom. by apply (chain_live T i l).
Qed.

(** A chain survives any change that keeps the parents along it. *)
Lemma chain_keep T T' i l : up_chain T i l ->
  (forall j n, j ∈ l -> T !! j = Some n -> exists n', T' !! j = Some n' /\ n_parent n' = n_parent n) -> up_chain T' i l.
Proof.
  induction 1 as [i n Hn Hp|i n l Hn Hp H IH]; intros Hk.
  - destruct (Hk i n) as (n' & H1 & H2); [by apply list_elem_of_singleton|done|]. eapply chain_top; [done|congruence].
  - destruct (Hk i n) as (n' & H1 & H2); [by left|done|]. eapply chain_under; [done|congruence|]. rewrite H2.
    apply IH. intros j k Hj. apply Hk. by right.
Qed.

(** ** Removing from the list of children *)

Lemma remove_child_in l c x : NoDup l -> x ∈ remove_child l c <-> x ∈ l /\ x <> c.
Proof.
  induction 1 as [|y l Hy Hl IH]; cbn; [set_solver|]. destruct (Z.eqb_spec y c) as [->|].
  - set_solver.
  - set_solver.
Qed.

Lemma remove_child_nodup l c : NoDup l -> NoDup (remove_child l c).
Proof.
  induction 1 as [|y l Hy Hl IH]; cbn; [constructor|]. destruct (Z.eqb_spec y c); [done|]. apply NoDup_cons. split; [|done].
  rewrite remove_child_in by done. tauto.
Qed.

Lemma remove_child_delete l c k : NoDup l -> l !! k = Some c -> remove_child l c = delete k l.
Proof.
  intros Hl. revert k. induction Hl as [|y l Hy Hl IH]; intros k Hk; [done|]. destruct k as [|k]; cbn in *.
  - injection Hk as ->. by rewrite Z.eqb_refl.
  - destruct (Z.eqb_spec y c) as [->|]; [by apply list_elem_of_lookup_2 in Hk|]. f_equal. by apply IH.
Qed.

(** ** Counts *)

(** Two trees that differ in their counts at most. *)
Definition same_shape T T' : Prop := forall k, n_with_count 0 <$> T' !! k = n_with_count 0 <$> T !! k.

Lemma same_shape_sym T T' : same_shape T T' -> same_shape T' T.
Proof. intros H k. by rewrite H. Qed.

Lemma same_shape_lookup T T' k n' : same_shape T T' -> T' !! k = Some n' -> exists n z, T !! k = Some n /\ n' = n_with_count z n.
Proof.
  intros H Hk. specialize (H k). rewrite Hk in H. destruct (T !! k) as [n|]; [|done]. exists n, (n_count n'). split; [done|].
  destruct n, n'. cbn in H. injection H. intros. by subst.
Qed.

Lemma same_shape_chain T T' i l : same_shape T T' -> up_chain T i l -> up_chain T' i l.
Proof.
  intros H Hc. apply (chain_keep T T' i l Hc). intros j n _ Hn. destruct (same_shape_lookup T' T j n (same_shape_sym _ _ H) Hn) as (n' & ? & H1 & ->).
  by exists n'.
Qed.

Lemma tree_recount T T' R R' : tree_ok T R -> same_shape T T' ->
  (forall i n, T' !! i = Some n -> n_count n = (if n_unlinked n then 0 else 1) + occ i R' /\ 0 < n_count n) ->
  (forall i, i ∈ R' -> is_Some (T !! i)) -> zlen R' < LIMIT -> tree_ok T' R'.
Proof.
  intros H Hs Hc Hh Hf.
  assert (Hb : forall k n', T' !! k = Some n' -> exists n z, T !! k = Some n /\ n' = n_with_count z n) by (intros k n'; by apply same_shape_lookup).
  assert (Hg : forall k n, T !! k = Some n -> exists n', T' !! k = Some n' /\ n_parent n' = n_parent n).
  { intros k n Hn. destruct (same_shape_lookup T' T k n (same_shape_sym _ _ Hs) Hn) as (n' & ? & H1 & ->). by exists n'. }
  assert (Hl : forall k, is_Some (T' !! k) <-> is_Some (T !! k)).
  { intros k. specialize (Hs k). destruct (T' !! k), (T !! k); cbn in Hs; try done; by rewrite !is_Some_alt. }
  split.
  - specialize (Hs 0). rewrite (t_null _ _ H) in Hs. by destruct (T' !! 0).
  - intros d c n' Hn'. destruct (Hb d n' Hn') as (n & ? & Hn & ->). cbn. rewrite (t_link _ _ H d c n Hn). split.
    + intros (m & Hm & Hp). destruct (Hg c m Hm) as (m' & ? & ?). exists m'. split; [done|congruence].
    + intros (m' & Hm' & Hp). destruct (Hb c m' Hm') as (m & ? & Hm & ->). by exists m.
  - intros c m' Hm' Hp. destruct (Hb c m' Hm') as (m & ? & Hm & ->). cbn in *. apply Hl, (t_parent _ _ H c m Hm Hp).
  - intros i n' Hn'. destruct (Hb i n' Hn') as (n & ? & Hn & ->). apply (t_nodup _ _ H i n Hn).
  - intros i n' Hn'. destruct (Hb i n' Hn') as (n & ? & Hn & ->). apply (t_dir _ _ H i n Hn).
  - intros i n' Hn'. destruct (Hb i n' Hn') as (n & ? & Hn & ->). apply (t_linked _ _ H i n Hn).
  - done.
  - intros c1 c2 m1' m2' H1 H2. destruct (Hb c1 m1' H1) as (m1 & ? & E1 & ->), (Hb c2 m2' H2) as (m2 & ? & E2 & ->). apply (t_names _ _ H c1 c2 m1 m2 E1 E2).
  - intros c m' p' Hm' Hp'. destruct (Hb c m' Hm') as (m & ? & Hm & ->). cbn in Hp'. destruct (Hb _ p' Hp') as (p & ? & Hp & ->). apply (t_same _ _ H c m p Hm Hp).
  - intros i Hi. apply Hl in Hi. destruct (t_chain _ _ H i Hi) as [l Hc']. exists l. by apply (same_shape_chain T).
  - intros i Hi. apply Hl. by apply Hh.
  - done.
Qed.

Lemma tree_perm T R R' : R ≡ₚ R' -> tree_ok T R -> tree_ok T R'.
Proof.
  intros HP H. apply (tree_recount T T R R' H); [done| | |].
  - intros i n Hn. rewrite <- (occ_perm i _ _ HP). by apply (t_count _ _ H).
  - intros i Hi. apply (t_held _ _ H). by rewrite HP.
  - rewrite <- HP. apply H.
Qed.

Lemma same_shape_count T i f : same_shape T (alter (fun n => n_with_count (f n) n) i T).
Proof. intros k. rewrite lookup_alter. case_decide; [subst|done]. by destruct (T !! k). Qed.

Lemma tree_ref T R i : tree_ok T R -> is_Some (T !! i) -> zlen R + 1 < LIMIT ->
  tree_ok (alter (fun n => n_with_count (n_count n + 1) n) i T) (i :: R).
Proof.
  intros H Hi Hf. apply (tree_recount T _ R (i :: R) H); [apply same_shape_count| | |unfold zlen in *; cbn [length]; lia].
  - intros j n Hn. rewrite occ_cons. rewrite lookup_alter in Hn. case_decide as E; [subst j|].
    + destruct (T !! i) as [n0|] eqn:E0; [|done]. injection Hn as <-. destruct (t_count _ _ H i n0 E0). cbn. rewrite decide_True by done. lia.
    + destruct (t_count _ _ H j n Hn). rewrite decide_False by congruence. lia.
  - intros j [-> |Hj]%elem_of_cons; [done|by apply (t_held _ _ H)].
Qed.

Lemma held_count T R i n : tree_ok T (i :: R) -> T !! i = Some n -> n_count n = (if n_unlinked n then 0 else 1) + occ i R + 1 /\ n_count n < 2 ^ 32.
Proof.
  intros H Hn. destruct (t_count _ _ H i n Hn) as [Hc _]. rewrite occ_cons, decide_True in Hc by done. split; [lia|].
  pose proof (t_few _ _ H) as Hf. pose proof (occ_le i R). unfold zlen, LIMIT in *. cbn [length] in Hf. destruct (n_unlinked n); lia.
Qed.

Lemma tree_unref T R i n : tree_ok T (i :: R) -> T !! i = Some n -> n_count n - 1 <> 0 ->
  tree_ok (alter (n_with_count (n_count n - 1)) i T) R.
Proof.
  intros H Hn Hz. apply (tree_recount T _ (i :: R) R H); [apply (same_shape_count T i (fun _ => n_count n - 1))| | |].
  - intros j m Hm. rewrite lookup_alter in Hm. case_decide as E; [subst j|].
    + rewrite Hn in Hm. injection Hm as <-. cbn. destruct (held_count T R i n H Hn). destruct (t_count _ _ H i n Hn). lia.
    + destruct (t_count _ _ H j m Hm) as [Hc Hp]. rewrite occ_cons, decide_False in Hc by congruence. lia.
  - intros j Hj. apply (t_held _ _ H). by right.
  - pose proof (t_few _ _ H) as Hf. unfold zlen in *. cbn [length] in Hf. lia.
Qed.

(** An inode without a name or a child is not part of anybody's chain. *)
Lemma chain_avoids T R i n : tree_ok T R -> T !! i = Some n -> n_children n = [] -> forall j l, up_chain T j l -> j <> i -> i ∉ l.
Proof.
  intros H Hn Hc. induction 1 as [j m Hm Hp|j m l Hm Hp Hch IH]; intros Hj.
  - rewrite list_elem_of_singleton. congruence.
  - rewrite not_elem_of_cons. split; [congruence|]. apply IH. intros E. assert (Hin : j ∈ n_children n) by (apply (t_link _ _ H i j n Hn); by exists m).
    rewrite Hc in Hin. by apply not_elem_of_nil in Hin.
Qed.

Lemma tree_destroy T R i n : tree_ok T (i :: R) -> T !! i = Some n -> n_count n - 1 = 0 ->
  n_unlinked n = true /\ n_children n = [] /\ n_parent n = 0 /\ tree_ok (delete i T) R.
Proof.
  intros H Hn Hz. destruct (held_count T R i n H Hn) as [Hc _]. pose proof (occ_nonneg i R) as Ho.
  destruct (n_unlinked n) eqn:Hu; [|lia]. assert (Ho0 : occ i R = 0) by lia.
  assert (Hk : n_children n = []). { destruct (n_children n) eqn:Ek; [done|]. destruct (t_dir _ _ H i n Hn) as [_ ?]; congruence. }
  assert (Hp : n_parent n = 0). { destruct (Z.eq_dec (n_parent n) 0); [done|]. pose proof (t_linked _ _ H i n Hn). intuition congruence. }
  split_and!; try done.
  assert (Hb : forall k m, delete i T !! k = Some m <-> k <> i /\ T !! k = Some m) by (intros; rewrite lookup_delete_Some; naive_solver).
  assert (Hup : forall c m, T !! c = Some m -> n_parent m <> i).
  { intros c m Hm E. assert (c ∈ n_children n) by (apply (t_link _ _ H i c n Hn); by exists m). rewrite Hk in *. by apply not_elem_of_nil in H0. }
  split.
  - rewrite lookup_delete_None. right. apply H.
  - intros d c m Hm. apply Hb in Hm as [Hd Hm]. rewrite (t_link _ _ H d c m Hm). split.
    + intros (q & Hq & E). exists q. split; [|done]. apply Hb. split; [|done]. intros ->. assert (E0 : d = 0) by congruence. by rewrite E0, (t_null _ _ H) in Hm.
    + intros (q & Hq & E). apply Hb in Hq as [_ Hq]. by exists q.
  - intros c m Hm Hpm. apply Hb in Hm as [Hd Hm]. destruct (t_parent _ _ H c m Hm Hpm) as [q Hq]. exists q. apply Hb. split; [by apply (Hup c)|done].
  - intros j m Hm. apply Hb in Hm as [_ Hm]. by apply (t_nodup _ _ H j).
  - intros j m Hm. apply Hb in Hm as [_ Hm]. by apply (t_dir _ _ H j).
  - intros j m Hm. apply Hb in Hm as [_ Hm]. by apply (t_linked _ _ H j).
  - intros j m Hm. apply Hb in Hm as [Hj Hm]. destruct (t_count _ _ H j m Hm) as [E1 E2]. rewrite occ_cons, decide_False in E1 by done. lia.
  - intros c1 c2 m1 m2 H1 H2. apply Hb in H1 as [_ H1], H2 as [_ H2]. by apply (t_names _ _ H c1 c2).
  - intros c m p Hm Hq. apply Hb in Hm as [_ Hm], Hq as [_ Hq]. by apply (t_same _ _ H c m p).
  - intros j [m Hm]. apply Hb in Hm as [Hj Hm]. destruct (t_chain _ _ H j (ex_intro _ m Hm)) as [l Hl]. exists l.
    apply (chain_keep T _ j l Hl). intros k q Hkl Hq. exists q. split; [|done]. apply Hb. split; [|done]. intros ->. by destruct (chain_avoids T _ i n H Hn Hk j l Hl Hj).
  - intros j Hj. destruct (t_held _ _ H j (list_elem_of_further _ _ _ Hj)) as [m Hm]. exists m. apply Hb. split; [|done]. intros ->. apply occ_pos in Hj. lia.
  - pose proof (t_few _ _ H) as Hf. unfold zlen in *. cbn [length] in Hf. lia.
Qed.

(** ** Adding and moving *)

(** [T'] is [T] with [c], a child of [d], put under [e] as [name]; with [e = 0] it
    loses its name. *)
Record node_relinked T T' (c d e : Z) (name : list Z) : Prop := {
  rl_back : forall k n', T' !! k = Some n' -> exists n, T !! k = Some n
    /\ n_dir n' = n_dir n /\ n_count n' = n_count n /\ n_fs n' = n_fs n /\ n_class n' = n_class n
    /\ n_parent n' = (if decide (k = c) then e else n_parent n)
    /\ n_name n' = (if decide (k = c) then name else n_name n)
    /\ n_unlinked n' = (if decide (k = c /\ e = 0) then true else n_unlinked n)
    /\ NoDup (n_children n')
    /\ forall x, x ∈ n_children n' <-> x ∈ n_children n /\ ~ (k = d /\ x = c) \/ k = e /\ x = c;
  rl_live : forall k, is_Some (T' !! k) <-> is_Some (T !! k);
}.

Definition may_hold T (m : Node) (c e : Z) (name : list Z) : Prop :=
  exists en l, T !! e = Some en /\ n_dir en = true /\ n_unlinked en = false /\ n_fs en = n_fs m /\ n_class en = n_class m
    /\ up_chain T e l /\ c ∉ l /\ forall k q, T !! k = Some q -> n_parent q = e -> k <> c -> n_name q <> name.

Lemma relink_self T R c d m : tree_ok T R -> T !! c = Some m -> n_parent m = d -> d <> 0 -> c <> d.
Proof.
  intros H Hm Hd Hd0 E. destruct (t_chain _ _ H c (ex_intro _ m Hm)) as [l Hl]. pose proof (chain_nodup _ _ _ Hl) as Hn.
  inversion Hl as [i n Hi Hp|i n l' Hi Hp Hc]; subst; rewrite Hm in Hi; injection Hi as <-; [done|].
  apply NoDup_cons in Hn as [Hn _]. apply Hn. destruct (chain_head _ _ _ Hc) as [_ [l2 ->]]. left.
Qed.

Section Relink.
Variables (T T' : gmap Z Node) (R : list Z) (c d e : Z) (name : list Z) (m : Node).
Hypothesis (H : tree_ok T R) (Hr : node_relinked T T' c d e name) (Hm : T !! c = Some m) (Hd : n_parent m = d) (Hd0 : d <> 0).
Hypothesis (He : e <> 0 -> may_hold T m c e name) (Hk : e = 0 -> n_children m = []).

Lemma relink_fwd k n : T !! k = Some n -> exists n', T' !! k = Some n' /\ n_parent n' = (if decide (k = c) then e else n_parent n).
Proof.
  intros Hn. destruct (proj2 (rl_live _ _ _ _ _ _ Hr k) (ex_intro _ n Hn)) as [n' Hn']. exists n'. split; [done|].
  destruct (rl_back _ _ _ _ _ _ Hr k n' Hn') as (n0 & E & _ & _ & _ & _ & Hp & _). rewrite Hn in E. injection E as <-. done.
Qed.

Lemma relink_chain i : is_Some (T !! i) -> exists l, up_chain T' i l.
Proof.
  assert (Hc : exists l, up_chain T' c l).
  { destruct (relink_fwd c m Hm) as (c' & Hc' & Hp). rewrite decide_True in Hp by done. destruct (Z.eq_dec e 0) as [E|E].
    - exists [c]. eapply chain_top; [done|congruence].
    - destruct (He E) as (en & l & _ & _ & _ & _ & _ & Hl & Hcl & _). exists (c :: l). eapply chain_under; [done|congruence|]. rewrite Hp.
      apply (chain_keep T T' e l Hl). intros j n Hj Hn. destruct (relink_fwd j n Hn) as (n' & H1 & H2). rewrite decide_False in H2 by (intros ->; done). by exists n'. }
  intros Hi. destruct (t_chain _ _ H i Hi) as [l Hl]. induction Hl as [i n Hn Hp|i n l Hn Hp Hl IH].
  - destruct (decide (i = c)) as [->|Hne]; [done|]. destruct (relink_fwd i n Hn) as (n' & H1 & H2). rewrite decide_False in H2 by done.
    exists [i]. eapply chain_top; [done|congruence].
  - destruct (decide (i = c)) as [->|Hne]; [done|]. destruct (relink_fwd i n Hn) as (n' & H1 & H2). rewrite decide_False in H2 by done.
    destruct IH as [l' Hl']; [apply (chain_head _ _ _ Hl)|]. exists (i :: l'). eapply chain_under; [done|congruence|congruence].
Qed.

(** The place [e] is another directory than [c]. *)
Lemma relink_target : c <> e.
Proof.
  intros E. destruct (Z.eq_dec e 0) as [E0|E0]; [subst; by rewrite (t_null _ _ H) in Hm|].
  destruct (He E0) as (en & l & _ & _ & _ & _ & _ & Hl & Hcl & _). apply Hcl. rewrite E. destruct (chain_head _ _ _ Hl) as [_ [l2 ->]]. by left.
Qed.

Lemma relink_link d' x n' : T' !! d' = Some n' -> x ∈ n_children n' <-> exists m', T' !! x = Some m' /\ n_parent m' = d'.
Proof.
  intros Hn'. destruct (rl_back _ _ _ _ _ _ Hr d' n' Hn') as (n & Hn & _ & _ & _ & _ & _ & _ & _ & _ & Hx). rewrite Hx, (t_link _ _ H d' x n Hn).
  assert (Hd'0 : d' <> 0) by (intros ->; by rewrite (t_null _ _ H) in Hn). split.
  - intros [((q & Hq & Hp) & Hne)|[-> ->]].
    + destruct (relink_fwd x q Hq) as (q' & H1 & H2). exists q'. split; [done|]. rewrite H2. case_decide as E; [|done].
      subst x. rewrite Hm in Hq. injection Hq as <-. destruct Hne. split; congruence.
    + destruct (relink_fwd c m Hm) as (q' & H1 & H2). exists q'. split; [done|]. by rewrite H2, decide_True.
  - intros (q' & Hq' & Hp). destruct (rl_back _ _ _ _ _ _ Hr x q' Hq') as (q & Hq & _ & _ & _ & _ & E & _). rewrite Hp in E. case_decide as Ec.
    + right. by subst.
    + left. split; [by exists q|]. by intros [_ ?].
Qed.

Lemma tree_relink R' : (forall i, occ i R' = occ i R + (if decide (i = c /\ e = 0) then 1 else 0)) ->
  (forall i, i ∈ R' -> is_Some (T !! i)) -> zlen R' < LIMIT -> tree_ok T' R'.
Proof.
  intros Ho Hh Hf.
  assert (Hlinked : n_unlinked m = false) by (apply (t_linked _ _ H c m Hm); congruence).
  assert (Hc : forall i n', T' !! i = Some n' -> n_children n' <> [] -> i = e \/ exists n, T !! i = Some n /\ n_children n <> [] /\ (i = c -> e <> 0)).
  { intros i n' Hn' Hne. destruct (rl_back _ _ _ _ _ _ Hr i n' Hn') as (n & Hn & _ & _ & _ & _ & _ & _ & _ & _ & Hx).
    destruct (n_children n') as [|x l]; [done|]. destruct (proj1 (Hx x) ltac:(by left)) as [[Hx1 _]|[-> _]]; [right|by left].
    exists n. split_and!; [done|intros E; rewrite E in Hx1; by apply not_elem_of_nil in Hx1|]. intros -> E0. rewrite Hm in Hn. injection Hn as <-.
    rewrite (Hk E0) in Hx1. by apply not_elem_of_nil in Hx1. }
  split.
  - apply eq_None_not_Some. rewrite (rl_live _ _ _ _ _ _ Hr). rewrite (t_null _ _ H). by intros [? ?].
  - apply relink_link.
  - intros x q' Hq' Hp. destruct (rl_back _ _ _ _ _ _ Hr x q' Hq') as (q & Hq & _ & _ & _ & _ & E & _). apply (rl_live _ _ _ _ _ _ Hr). rewrite E in *. case_decide.
    + destruct (He Hp) as (en & _ & Hen & _). by exists en.
    + by apply (t_parent _ _ H x q).
  - intros i n' Hn'. by destruct (rl_back _ _ _ _ _ _ Hr i n' Hn') as (n & _ & _ & _ & _ & _ & _ & _ & _ & ? & _).
  - intros i n' Hn' Hne. destruct (rl_back _ _ _ _ _ _ Hr i n' Hn') as (n & Hn & Ed & _ & _ & _ & _ & _ & Eu & _). rewrite Ed, Eu.
    destruct (Hc i n' Hn' Hne) as [E|(n1 & Hn1 & Hk1 & Hce)].
    + rewrite decide_False by (intros [E1 _]; by apply relink_target; congruence). destruct (Z.eq_dec e 0) as [E0|E0]; [rewrite E, E0, (t_null _ _ H) in Hn; done|].
      destruct (He E0) as (en & _ & Hen & D1 & D2 & _). rewrite E, Hen in Hn. injection Hn as <-. done.
    + rewrite decide_False by (intros [E1 E2]; by apply Hce). rewrite Hn in Hn1. injection Hn1 as <-. by apply (t_dir _ _ H i n Hn).
  - intros i n' Hn' Hp. destruct (rl_back _ _ _ _ _ _ Hr i n' Hn') as (n & Hn & _ & _ & _ & _ & Ep & _ & Eu & _). rewrite Eu. rewrite Ep in Hp. destruct (decide (i = c)) as [->|E1].
    + rewrite Hm in Hn. injection Hn as <-. by rewrite decide_False by (intros [_ ?]; done).
    + rewrite decide_False by (intros [? _]; done). by apply (t_linked _ _ H i n Hn).
  - intros i n' Hn'. destruct (rl_back _ _ _ _ _ _ Hr i n' Hn') as (n & Hn & _ & Ec & _ & _ & _ & _ & Eu & _). destruct (t_count _ _ H i n Hn) as [C1 C2].
    rewrite Ec, Eu, Ho. split; [|done]. case_decide as E1; [|lia]. destruct E1 as [-> _]. rewrite Hm in Hn. injection Hn as <-. rewrite Hlinked in C1. lia.
  - intros c1 c2 q1' q2' H1 H2 Hp Hp0 Hnm. destruct (rl_back _ _ _ _ _ _ Hr c1 q1' H1) as (q1 & Hq1 & _ & _ & _ & _ & P1 & N1 & _).
    destruct (rl_back _ _ _ _ _ _ Hr c2 q2' H2) as (q2 & Hq2 & _ & _ & _ & _ & P2 & N2 & _). rewrite P1 in Hp0. rewrite P1, P2 in Hp. rewrite N1, N2 in Hnm.
    destruct (decide (c1 = c)) as [->|Hn1], (decide (c2 = c)) as [->|Hn2]; [done| | |by apply (t_names _ _ H c1 c2 q1 q2)].
    + destruct (He Hp0) as (_ & _ & _ & _ & _ & _ & _ & _ & _ & Hu). by destruct (Hu c2 q2).
    + destruct (He ltac:(congruence)) as (_ & _ & _ & _ & _ & _ & _ & _ & _ & Hu). by destruct (Hu c1 q1).
  - intros x q' p' Hq' Hp'. destruct (rl_back _ _ _ _ _ _ Hr x q' Hq') as (q & Hq & _ & _ & F1 & K1 & P1 & _). rewrite P1 in Hp'.
    destruct (rl_back _ _ _ _ _ _ Hr _ p' Hp') as (p & Hp & _ & _ & F2 & K2 & _). rewrite F1, F2, K1, K2. case_decide as E1.
    + subst x. rewrite Hm in Hq. injection Hq as <-. destruct (Z.eq_dec e 0) as [E0|E0]; [rewrite E0, (t_null _ _ H) in Hp; done|].
      destruct (He E0) as (en & _ & Hen & _ & _ & ? & ? & _). rewrite Hen in Hp. injection Hp as <-. done.
    + by apply (t_same _ _ H x q p).
  - intros i Hi. apply relink_chain, (rl_live _ _ _ _ _ _ Hr), Hi.
  - intros i Hi. apply (rl_live _ _ _ _ _ _ Hr). by apply Hh.
  - done.
Qed.
End Relink.

Lemma detach_relinked T R c d m : tree_ok T R -> T !! c = Some m -> n_parent m = d -> d <> 0 ->
  node_relinked T (alter n_unlink c (alter (n_remove c) d T)) c d 0 (n_name m).
Proof.
  intros H Hm Hd Hd0. pose proof (relink_self T R c d m H Hm Hd Hd0) as Hcd.
  assert (Hc0 : c <> 0) by (intros ->; by rewrite (t_null _ _ H) in Hm). split.
  - intros k n' Hn'. rewrite !lookup_alter_at in Hn'. destruct (decide (c = k)) as [<-|Hck]; [rewrite decide_False in Hn' by done|destruct (decide (d = k)) as [<-|Hdk]].
    + rewrite Hm in Hn'. injection Hn' as <-. exists m. rewrite !decide_True by done. cbn.
      split_and!; try done; [apply (t_nodup _ _ H c m Hm)|]. intros x. split; [|tauto]. intros Hx. left. split; [done|]. intros [-> _]. done.
    + destruct (t_parent _ _ H c m Hm ltac:(congruence)) as [n Hn]. rewrite Hd in Hn. rewrite Hn in Hn'. injection Hn' as <-. exists n.
      rewrite !decide_False by (intros E; try destruct E; congruence). cbn. pose proof (t_nodup _ _ H d n Hn) as Hnd.
      split_and!; try done; [by apply remove_child_nodup|]. intros x. rewrite remove_child_in by done. split; [intros [? ?]; left; split; [done|]; intros [_ ?]; done|].
      intros [[? Hx]|[? _]]; [|done]. split; [done|]. intros ->. by apply Hx.
    + rewrite !option_fmap_id in Hn'. exists n'. rewrite !decide_False by (intros E; try destruct E; congruence). split_and!; try done; [apply (t_nodup _ _ H k n' Hn')|].
      intros x. assert (k <> 0) by (intros ->; by rewrite (t_null _ _ H) in Hn'). split; [|tauto]. intros Hx. left. split; [done|]. intros [? _]. congruence.
  - intros k. by rewrite !lookup_alter_is_Some.
Qed.

Lemma tree_detach T R c d m : tree_ok T R -> T !! c = Some m -> n_parent m = d -> d <> 0 -> n_children m = [] -> zlen R + 1 < LIMIT ->
  tree_ok (alter n_unlink c (alter (n_remove c) d T)) (c :: R).
Proof.
  intros H Hm Hd Hd0 Hk Hf. apply (tree_relink T _ R c d 0 (n_name m) m H (detach_relinked T R c d m H Hm Hd Hd0) Hm Hd Hd0); try done.
  - intros i. rewrite occ_cons. destruct (decide (i = c)) as [->|].
    + rewrite decide_True by done. lia.
    + rewrite decide_False by (intros [? _]; done). lia.
  - intros i [-> |Hi]%elem_of_cons; [by exists m|by apply (t_held _ _ H)].
  - unfold zlen in *. cbn [length]. lia.
Qed.

Lemma move_relinked T R c d e name m : tree_ok T R -> T !! c = Some m -> n_parent m = d -> d <> 0 -> e <> 0 -> c <> e ->
  node_relinked T (alter (n_append c) e (alter (n_place e name) c (alter (n_remove c) d T))) c d e name.
Proof.
  intros H Hm Hd Hd0 He0 Hce. pose proof (relink_self T R c d m H Hm Hd Hd0) as Hcd. split.
  - intros k n' Hn'. pose proof (ex_intro _ n' Hn' : is_Some _) as Hi. rewrite !lookup_alter_is_Some in Hi. rewrite !lookup_alter_at in Hn'. destruct (decide (c = k)) as [<-|Hck].
    + rewrite !decide_False in Hn' by done. rewrite Hm in Hn'. injection Hn' as <-. exists m. rewrite !decide_True by done.
      rewrite decide_False by (intros [_ ?]; done). cbn. split_and!; try done; [apply (t_nodup _ _ H c m Hm)|].
      intros x. split; [|intros [[? _]|[? _]]; done]. intros Hx. left. split; [done|]. by intros [? _].
    + destruct Hi as [n Hn]. exists n. split; [done|]. rewrite !decide_False by (intros E; try destruct E; congruence).
      pose proof (t_nodup _ _ H k n Hn) as Hnd.
      assert (Hin : c ∈ n_children n <-> k = d).
      { rewrite (t_link _ _ H k c n Hn). split; [intros (m' & E & ?); congruence|intros ->; by exists m]. }
      destruct (decide (d = k)) as [Edk|Hdk], (decide (e = k)) as [Eek|Hek]; rewrite Hn in Hn'; injection Hn' as <-; cbn; split_and!; try done.
      * apply NoDup_app. split_and!; [by apply remove_child_nodup| |apply NoDup_singleton]. intros x Hx. rewrite list_elem_of_singleton. intros ->. by apply remove_child_in in Hx as [_ ?].
      * intros x. rewrite elem_of_app, list_elem_of_singleton, remove_child_in by done. naive_solver.
      * by apply remove_child_nodup.
      * intros x. rewrite remove_child_in by done. naive_solver.
      * apply NoDup_app. split_and!; [done| |apply NoDup_singleton]. intros x Hx. rewrite list_elem_of_singleton. intros ->. apply Hin in Hx. congruence.
      * intros x. rewrite elem_of_app, list_elem_of_singleton. naive_solver.
      * intros x. naive_solver.
  - intros k. by rewrite !lookup_alter_is_Some.
Qed.

Lemma tree_move T R c d e name m : tree_ok T R -> T !! c = Some m -> n_parent m = d -> d <> 0 -> e <> 0 -> may_hold T m c e name ->
  tree_ok (alter (n_append c) e (alter (n_place e name) c (alter (n_remove c) d T))) R.
Proof.
  intros H Hm Hd Hd0 He0 Hmay. assert (Hce : c <> e).
  { intros ->. destruct Hmay as (en & l & _ & _ & _ & _ & _ & Hl & Hcl & _). apply Hcl. destruct (chain_head _ _ _ Hl) as [_ [l2 ->]]. by left. }
  apply (tree_relink T _ R c d e name m H (move_relinked T R c d e name m H Hm Hd Hd0 He0 Hce) Hm Hd Hd0); try done; try apply H.
  intros i. rewrite decide_False by (intros [_ ?]; done). lia.
Qed.

Lemma tree_add T R d dn c name dir : tree_ok T R -> T !! d = Some dn -> n_dir dn = true -> n_unlinked dn = false ->
  c <> 0 -> T !! c = None -> (forall k q, T !! k = Some q -> n_parent q = d -> n_name q <> name) ->
  tree_ok (alter (n_append c) d (<[c := mkNode d [] name dir false 1 (n_fs dn) (n_class dn)]> T)) R.
Proof.
  intros H Hd Hdir Hun Hc0 Hc Hnm. assert (Hcd : c <> d) by congruence. assert (Hd0 : d <> 0) by (intros ->; by rewrite (t_null _ _ H) in Hd).
  set (cn := mkNode d [] name dir false 1 (n_fs dn) (n_class dn)). set (T' := alter _ d _).
  assert (Hb : forall k n', T' !! k = Some n' -> k = c /\ n' = cn \/ k <> c /\ exists n, T !! k = Some n /\ n' = (if decide (k = d) then n_append c n else n)).
  { intros k n' Hn'. unfold T' in Hn'. rewrite lookup_alter in Hn'. destruct (decide (k = c)) as [->|Hk].
    - rewrite decide_False, lookup_insert_eq in Hn' by done. left. split; [done|]. by injection Hn'.
    - right. split; [done|]. rewrite !lookup_insert_ne in Hn' by done. destruct (decide (d = k)) as [<-|].
      + rewrite Hd in Hn'. injection Hn' as <-. exists dn. by rewrite decide_True.
      + exists n'. by rewrite decide_False. }
  assert (Hg : forall k n, T !! k = Some n -> k <> c /\ T' !! k = Some (if decide (k = d) then n_append c n else n)).
  { intros k n Hn. split; [congruence|]. unfold T'. rewrite lookup_alter, !lookup_insert_ne by congruence. destruct (decide (d = k)) as [<-|]; [by rewrite Hn, decide_True|by rewrite decide_False]. }
  assert (Hcn : T' !! c = Some cn) by (unfold T'; by rewrite lookup_alter, decide_False, lookup_insert_eq).
  assert (Hup : forall k n, T !! k = Some n -> n_parent n <> c).
  { intros k n Hn E. assert (Hx : n_parent n <> 0) by congruence. destruct (t_parent _ _ H k n Hn Hx) as [? ?]. congruence. }
  assert (Hchain : forall i l, up_chain T i l -> up_chain T' i l).
  { intros i l Hl. apply (chain_keep T T' i l Hl). intros j n _ Hn. destruct (Hg j n Hn) as [_ E]. eexists. split; [done|]. by case_decide. }
  split.
  - unfold T'. rewrite lookup_alter, decide_False, lookup_insert_ne by done. apply H.
  - intros d' x n' Hn'. destruct (Hb d' n' Hn') as [[-> ->]|[Hne (n & Hn & ->)]].
    + cbn. split; [by intros ?%not_elem_of_nil|]. intros (q & Hq & E). destruct (Hb x q Hq) as [[-> ->]|[_ (n & Hn & ->)]]; [done|]. case_decide; by apply Hup in Hn.
    + trans (x ∈ n_children n \/ d' = d /\ x = c).
      { case_decide; [|naive_solver]. cbn. rewrite elem_of_app, list_elem_of_singleton. naive_solver. }
      rewrite (t_link _ _ H d' x n Hn). split.
      * intros [(q & Hq & E)|[-> ->]]; [|by exists cn]. destruct (Hg x q Hq) as [_ E']. eexists. split; [done|]. by case_decide.
      * intros (q & Hq & E). destruct (Hb x q Hq) as [[-> ->]|[_ (n2 & Hn2 & ->)]]; [by right|left]. exists n2. split; [done|]. by case_decide.
  - intros x q Hq Hp. destruct (Hb x q Hq) as [[-> ->]|[_ (n & Hn & ->)]]; cbn in *.
    + destruct (Hg d dn Hd) as [_ ->]. done.
    + assert (Ep : n_parent (if decide (x = d) then n_append c n else n) = n_parent n) by (by case_decide). rewrite Ep in *.
      destruct (t_parent _ _ H x n Hn Hp) as [p Hp2]. destruct (Hg _ p Hp2) as [_ ->]. done.
  - intros i q Hq. destruct (Hb i q Hq) as [[-> ->]|[_ (n & Hn & ->)]]; [constructor|]. pose proof (t_nodup _ _ H i n Hn). case_decide; [|done]. cbn.
    apply NoDup_app. split_and!; [done| |apply NoDup_singleton]. intros x Hx. rewrite list_elem_of_singleton. intros ->. apply (t_link _ _ H i c n Hn) in Hx as (? & ? & _). congruence.
  - intros i q Hq Hk. destruct (Hb i q Hq) as [[-> ->]|[_ (n & Hn & ->)]]; [done|]. case_decide; [|by apply (t_dir _ _ H i n Hn)]. subst. rewrite Hd in Hn. by injection Hn as <-.
  - intros i q Hq Hp. destruct (Hb i q Hq) as [[-> ->]|[_ (n & Hn & ->)]]; [done|]. case_decide; by apply (t_linked _ _ H i n Hn).
  - intros i q Hq. destruct (Hb i q Hq) as [[-> ->]|[_ (n & Hn & ->)]].
    + cbn. rewrite occ_zero; [lia|]. intros Hi. destruct (t_held _ _ H c Hi). congruence.
    + case_decide; apply (t_count _ _ H i n Hn).
  - intros c1 c2 q1 q2 H1 H2 Hp Hp0 Hn. destruct (Hb c1 q1 H1) as [[-> ->]|[_ (n1 & Hn1 & ->)]], (Hb c2 q2 H2) as [[-> ->]|[_ (n2 & Hn2 & ->)]]; [done| | |].
    + cbn in *. destruct (Hnm c2 n2 Hn2); by case_decide.
    + cbn in *. destruct (Hnm c1 n1 Hn1); by case_decide.
    + apply (t_names _ _ H c1 c2 n1 n2 Hn1 Hn2); by repeat case_decide.
  - intros x q p Hq Hp. destruct (Hb x q Hq) as [[-> ->]|[_ (n & Hn & ->)]].
    + cbn in Hp. destruct (Hg d dn Hd) as [_ E]. rewrite E in Hp. injection Hp as <-. by case_decide.
    + assert (Hp' : T' !! n_parent n = Some p) by (by case_decide). destruct (Hb _ p Hp') as [[E ->]|[_ (p0 & Hp0 & ->)]]; [by apply Hup in Hn|].
      destruct (t_same _ _ H x n p0 Hn Hp0). by repeat case_decide.
  - intros i [q Hq]. destruct (Hb i q Hq) as [[-> ->]|[_ (n & Hn & ->)]].
    + destruct (t_chain _ _ H d (ex_intro _ dn Hd)) as [l Hl]. exists (c :: l). eapply chain_under; [done|done|]. by apply Hchain.
    + destruct (t_chain _ _ H i (ex_intro _ n Hn)) as [l Hl]. exists l. by apply Hchain.
  - intros i Hi. destruct (t_held _ _ H i Hi) as [n Hn]. destruct (Hg i n Hn) as [_ ->]. done.
  - apply H.
Qed.

(** The root of a new file system. *)
Lemma tree_root T R r name fs cl : tree_ok T R -> r <> 0 -> T !! r = None -> tree_ok (<[r := mkNode 0 [] name true false 1 fs cl]> T) R.
Proof.
  intros H Hr0 Hr. set (rn := mkNode 0 [] name true false 1 fs cl). set (T' := <[r := rn]> T).
  assert (Hb : forall k n, T' !! k = Some n <-> k = r /\ n = rn \/ k <> r /\ T !! k = Some n).
  { intros k n. unfold T'. destruct (decide (k = r)) as [->|Hk]; [rewrite lookup_insert_eq|rewrite lookup_insert_ne by done]; naive_solver. }
  assert (Hup : forall k n, T !! k = Some n -> n_parent n <> r).
  { intros k n Hn E. assert (Hx : n_parent n <> 0) by congruence. destruct (t_parent _ _ H k n Hn Hx) as [? ?]. congruence. }
  assert (Hg : forall k n, T !! k = Some n -> T' !! k = Some n) by (intros k n Hn; apply Hb; right; split; [congruence|done]).
  split.
  - unfold T'. rewrite lookup_insert_ne by done. apply H.
  - intros d c n Hn. apply Hb in Hn as [[-> ->]|[_ Hn]].
    + cbn. split; [by intros ?%not_elem_of_nil|]. intros (q & Hq & E). apply Hb in Hq as [[-> ->]|[_ Hq]]; [done|by apply Hup in Hq].
    + rewrite (t_link _ _ H d c n Hn). split; intros (q & Hq & E); [exists q; split; [by apply Hg|done]|].
      apply Hb in Hq as [[-> ->]|[_ Hq]]; [|by exists q]. cbn in E. subst d. by rewrite (t_null _ _ H) in Hn.
  - intros c q Hq Hp. apply Hb in Hq as [[-> ->]|[_ Hq]]; [done|]. destruct (t_parent _ _ H c q Hq Hp) as [p Hp2]. exists p. by apply Hg.
  - intros i n Hn. apply Hb in Hn as [[-> ->]|[_ Hn]]; [constructor|by apply (t_nodup _ _ H i)].
  - intros i n Hn. apply Hb in Hn as [[-> ->]|[_ Hn]]; [done|by apply (t_dir _ _ H i)].
  - intros i n Hn. apply Hb in Hn as [[-> ->]|[_ Hn]]; [done|by apply (t_linked _ _ H i)].
  - intros i n Hn. apply Hb in Hn as [[-> ->]|[_ Hn]]; [|by apply (t_count _ _ H i)]. cbn. rewrite occ_zero; [lia|]. intros Hi. destruct (t_held _ _ H r Hi). congruence.
  - intros c1 c2 m1 m2 H1 H2 Hp Hp0 Hn. apply Hb in H1 as [[-> ->]|[_ H1]]; [done|]. apply Hb in H2 as [[-> ->]|[_ H2]]; [cbn in Hp; congruence|]. by apply (t_names _ _ H c1 c2 m1 m2).
  - intros c m p Hm Hp. apply Hb in Hm as [[-> ->]|[_ Hm]].
    + cbn in Hp. apply Hb in Hp as [[? _]|[_ Hp]]; [congruence|]. by rewrite (t_null _ _ H) in Hp.
    + apply Hb in Hp as [[E _]|[_ Hp]]; [by apply Hup in Hm|by apply (t_same _ _ H c m p)].
  - intros i [n Hn]. apply Hb in Hn as [[-> ->]|[_ Hn]]; [exists [r]; apply (chain_top _ _ rn); [apply Hb; by left|done]|].
    destruct (t_chain _ _ H i (ex_intro _ n Hn)) as [l Hl]. exists l. apply (chain_keep T T' i l Hl). intros j q _ Hq. exists q. split; [by apply Hg|done].
  - intros i Hi. destruct (t_held _ _ H i Hi) as [n Hn]. exists n. by apply Hg.
  - apply H.
Qed.
