(* ===== verification/Tmpfs.v ===== *)
(** * File contents on tmpfs

    A tmpfs file is a vector of page frames and a size; read, write and truncate
    go through them page by page.  Here they are shown to act on the file as on a
    list of bytes, without touching another file, and to give back what they took
    when memory runs out. *)

From S2P Require Import Prelude Kstd Physical Files Paths Vfs Trees.

(** ** Stepping through the code *)

Lemma alter_some {A} (t : gmap Z A) i x f : t !! i = Some x -> alter f i t = <[i := f x]> t.
Proof. intros H. apply map_eq. intros k. rewrite lookup_alter, lookup_insert. case_decide; [by rewrite H|done]. Qed.

Section Steps.
Context {F : Type} {FA : FrameAllocator F}.
Implicit Types (s : @Vfs F).

Definition set_inode (i : Z) (x : Inode) s := set_inodes <[i := x]> s.

Lemma deref_ok i x s : inodes s !! i = Some x -> deref i s = (Ok x, s).
Proof. unfold deref. by intros ->. Qed.

Lemma modify_ok i x f s : inodes s !! i = Some x -> modify i f s = (Ok tt, set_inode i (f x) s).
Proof. intros H. unfold modify, mtry. rewrite (deref_ok i x s H). unfold mmod, set_inode, set_inodes. by rewrite (alter_some _ _ x). Qed.

Lemma touch_ok i x s : inodes s !! i = Some x -> touch i s = (Ok tt, set_inode i (touched (now s) x) s).
Proof. intros H. unfold touch. rewrite mtry_get. by apply modify_ok. Qed.

Lemma try_deref {A} i x (k : Inode -> M Vfs A) s : inodes s !! i = Some x -> mtry (deref i) k s = k x s.
Proof. intros H. by rewrite (mtry_ok _ _ s x s (deref_ok i x s H)). Qed.

Lemma try_modify {A} i x f (k : unit -> M Vfs A) s : inodes s !! i = Some x -> mtry (modify i f) k s = k tt (set_inode i (f x) s).
Proof. intros H. by rewrite (mtry_ok _ _ s tt _ (modify_ok i x f s H)). Qed.

Lemma try_touch {A} i x (k : unit -> M Vfs A) s : inodes s !! i = Some x -> mtry (touch i) k s = k tt (set_inode i (touched (now s) x) s).
Proof. intros H. by rewrite (mtry_ok _ _ s tt _ (touch_ok i x s H)). Qed.

Lemma set_inode_eq i x s : inodes (set_inode i x s) !! i = Some x.
Proof. apply lookup_insert_eq. Qed.

Lemma set_inode_ne i j x s : i <> j -> inodes (set_inode i x s) !! j = inodes s !! j.
Proof. apply lookup_insert_ne. Qed.

Lemma set_inode_twice i x y s : set_inode i y (set_inode i x s) = set_inode i y s.
Proof. unfold set_inode, set_inodes. cbn. by rewrite insert_insert_eq. Qed.

Lemma set_inode_id i x s : inodes s !! i = Some x -> set_inode i x s = s.
Proof. intros H. unfold set_inode, set_inodes. rewrite insert_id by done. by destruct s. Qed.
End Steps.

#[export] Hint Rewrite @set_inode_eq @set_inode_twice : run.

(** ** Files as the allocator sees them *)

Record File := mkFile { f_class : InodeClass; f_pages : list Z; f_size : Z }.

Definition file_of (x : Inode) : File := mkFile (class x) (m_pages x) (m_size x).

(** Byte [k] of a file, which need not be below its size, and its contents. *)
Definition byte_of (m : Z -> Z) (f : File) (k : Z) : Z := m (zget 0 (f_pages f) (k / PAGE_SIZE) + k mod PAGE_SIZE).
Definition contents (m : Z -> Z) (f : File) : list Z := byte_of m f <$> seqZ 0 (f_size f).

(** The bytes the pages of a file have room for. *)
Definition capacity (f : File) : Z := zlen (f_pages f) * PAGE_SIZE.

Section Files.
Context {F : Type} {FA : FrameAllocator F}.
Implicit Types (s : @Vfs F) (fr : F) (P : gmap Z File).

Definition files s : gmap Z File := file_of <$> inodes s.

Record pages_ok fr P : Prop := {
  p_frames : fa_ok fr;
  p_owned : forall i f p, P !! i = Some f -> p ∈ f_pages f -> fa_owned fr p;
  p_nodup : forall i f, P !! i = Some f -> NoDup (f_pages f);
  p_apart : forall i j f g p, P !! i = Some f -> P !! j = Some g -> p ∈ f_pages f -> p ∈ f_pages g -> i = j;
  p_other : forall i f, P !! i = Some f -> f_class f <> TmpfsInode -> f_pages f = [];
  p_size : forall i f, P !! i = Some f -> f_class f = TmpfsInode -> 0 <= f_size f <= capacity f /\ f_size f < 2 ^ 63;
}.

(** Past its end a file's pages are zero. *)
Definition zero_ok (m : Z -> Z) P : Prop := forall i f k, P !! i = Some f -> f_class f = TmpfsInode ->
  f_size f <= k < capacity f -> byte_of m f k = 0.

Definition files_ok s : Prop := pages_ok (frames s) (files s) /\ zero_ok (mem s) (files s).

(** Memory changed outside the frames in use at most. *)
Definition mem_keep fr (m m' : Z -> Z) : Prop := forall p a, fa_owned fr p -> p <= a < p + PAGE_SIZE -> m' a = m a.

Lemma files_lookup s i x : inodes s !! i = Some x -> files s !! i = Some (file_of x).
Proof. unfold files. rewrite lookup_fmap. by intros ->. Qed.

Lemma files_lookup_inv s i f : files s !! i = Some f -> exists x, inodes s !! i = Some x /\ f = file_of x.
Proof. unfold files. rewrite lookup_fmap. destruct (inodes s !! i) as [x|]; [|done]. intros [= <-]. by exists x. Qed.

Lemma files_set i x s : files (set_inode i x s) = <[i := file_of x]> (files s).
Proof. unfold files, set_inode, set_inodes. cbn. by rewrite fmap_insert. Qed.

(** *** Where bytes are *)

Lemma page_in (f : File) k : 0 <= k < capacity f -> f_pages f !! Z.to_nat (k / PAGE_SIZE) = Some (zget 0 (f_pages f) (k / PAGE_SIZE)).
Proof.
  unfold capacity, zlen, PAGE_SIZE. intros Hk. destruct (f_pages f !! Z.to_nat (k / 4096)) as [p|] eqn:E.
  - unfold zget. by rewrite E.
  - apply lookup_ge_None in E. zlia.
Qed.

Lemma page_elem (f : File) k : 0 <= k < capacity f -> zget 0 (f_pages f) (k / PAGE_SIZE) ∈ f_pages f.
Proof. intros Hk. apply list_elem_of_lookup_2 with (Z.to_nat (k / PAGE_SIZE)). by apply page_in. Qed.

Lemma byte_of_keep fr P m m' i f k : pages_ok fr P -> mem_keep fr m m' -> P !! i = Some f -> 0 <= k < capacity f -> byte_of m' f k = byte_of m f k.
Proof.
  intros H Hm Hf Hk. unfold byte_of. apply (Hm (zget 0 (f_pages f) (k / PAGE_SIZE))).
  - apply (p_owned _ _ H i f _ Hf). by apply page_elem.
  - unfold PAGE_SIZE. pose proof (Z.mod_pos_bound k 4096). lia.
Qed.

Lemma contents_eq m m' (f g : File) : f_size f = f_size g -> (forall k, 0 <= k < f_size f -> byte_of m f k = byte_of m' g k) -> contents m f = contents m' g.
Proof. intros E H. unfold contents. rewrite <- E. apply list_fmap_ext. intros n k [-> Hk]%lookup_seqZ. apply H. lia. Qed.

Lemma contents_keep fr P m m' i f : pages_ok fr P -> mem_keep fr m m' -> P !! i = Some f -> f_class f = TmpfsInode -> contents m' f = contents m f.
Proof.
  intros H Hm Hf Hc. apply contents_eq; [done|]. intros k Hk. destruct (p_size _ _ H i f Hf Hc). apply (byte_of_keep fr P m m' i f k H Hm Hf). lia.
Qed.

(** Two pages in use are the same or do not overlap. *)
Lemma frames_apart fr p q a b : fa_ok fr -> fa_owned fr p -> fa_owned fr q -> p <= a < p + PAGE_SIZE -> q <= b < q + PAGE_SIZE -> a = b -> p = q.
Proof.
  intros Hok Hp Hq. destruct (fa_owned_range fr p Hok Hp) as [_ Hp0], (fa_owned_range fr q Hok Hq) as [_ Hq0]. unfold PAGE_SIZE in *. zlia.
Qed.

(** ** Giving pages back *)

Definition with_file fr m i x s : @Vfs F := mkVfs fr m (<[i := x]> (inodes s)) (filesystems s) (s_mounts s) (s_root_filesystem s) (now s).

Lemma with_file_twice fr fr' m m' i x y s : with_file fr' m' i y (with_file fr m i x s) = with_file fr' m' i y s.
Proof. unfold with_file. cbn. by rewrite insert_insert_eq. Qed.

Lemma with_file_eq fr m i x s : inodes (with_file fr m i x s) !! i = Some x.
Proof. apply lookup_insert_eq. Qed.

Lemma files_with fr m i x s : files (with_file fr m i x s) = <[i := file_of x]> (files s).
Proof. unfold files, with_file. cbn. by rewrite fmap_insert. Qed.

Lemma on_frames_ok {A B} (c : M F A) (k : A -> M Vfs B) s a fr : c (frames s) = (Ok a, fr) -> mtry (vfs_frames c) k s = k a (with_vfs_frames fr s).
Proof. unfold mtry, vfs_frames. by intros ->. Qed.

Lemma release_loop_at rel : forall s i x keep, fa_ok (frames s) -> inodes s !! i = Some x -> m_pages x = keep ++ rel -> NoDup rel ->
  (forall p, p ∈ rel -> fa_owned (frames s) p) ->
  exists fr, release_loop (length rel) i s = (Ok tt, with_file fr (mem s) i (with_pages keep x) s) /\ fa_ok fr
    /\ forall b, fa_owned fr b <-> fa_owned (frames s) b /\ b ∉ rel.
Proof.
  induction rel as [|p rel IH] using rev_ind; intros s i x keep Hok Hx Hp Hnd Ho.
  - exists (frames s). rewrite app_nil_r in Hp. cbn. split_and!; [|done|intros b; split; [intros; split; [done|apply not_elem_of_nil]|tauto]].
    unfold mok. f_equal. unfold with_file. replace (with_pages keep x) with x by (destruct x; cbn in *; by subst). rewrite insert_id by done. by destruct s.
  - rewrite length_app, Nat.add_comm. cbn [length Nat.add release_loop]. rewrite (try_deref i x) by done.
    assert (El : zget 0 (m_pages x) (zlen (m_pages x) - 1) = p).
    { unfold zget, zlen. rewrite Hp, app_assoc, length_app. cbn [length]. replace (Z.to_nat _) with (length (keep ++ rel)) by lia. by rewrite lookup_app_r, Nat.sub_diag by lia. }
    rewrite El. destruct (fa_free_spec (frames s) p Hok) as (fr1 & E1 & Hok1 & Ho1); [apply Ho; rewrite elem_of_app, list_elem_of_singleton; by right|].
    rewrite (on_frames_ok _ _ _ _ _ E1). rewrite (try_modify i x) by done.
    assert (Er : removelast (m_pages x) = keep ++ rel) by (by rewrite Hp, app_assoc, removelast_last). rewrite Er.
    apply NoDup_app in Hnd as (Hnd & Hdis & _).
    destruct (IH (set_inode i (with_pages (keep ++ rel) x) (with_vfs_frames fr1 s)) i (with_pages (keep ++ rel) x) keep) as (fr & E & Hok' & Ho').
    + done.
    + apply set_inode_eq.
    + done.
    + done.
    + intros q Hq. cbn. apply Ho1. split; [intros ->; apply (Hdis p Hq); by apply list_elem_of_singleton|]. apply Ho. rewrite elem_of_app. by left.
    + exists fr. split_and!; [|done|].
      * rewrite E. f_equal. change (set_inode i ?y (with_vfs_frames fr1 s)) with (with_file fr1 (mem s) i y s). rewrite with_file_twice. done.
      * intros b. rewrite Ho'. cbn. rewrite Ho1, elem_of_app, list_elem_of_singleton. tauto.
Qed.

Lemma release_at s i x k : files_ok s -> inodes s !! i = Some x -> 0 <= k ->
  exists fr, release_pages_from i k s = (Ok tt, with_file fr (mem s) i (with_pages (take (Z.to_nat k) (m_pages x)) x) s) /\ fa_ok fr
    /\ forall b, fa_owned fr b <-> fa_owned (frames s) b /\ b ∉ drop (Z.to_nat k) (m_pages x).
Proof.
  intros [H _] Hx Hk. unfold release_pages_from. rewrite (try_deref i x) by done.
  pose proof (files_lookup s i x Hx) as Hf. pose proof (p_nodup _ _ H i _ Hf) as Hnd. cbn in Hnd.
  rewrite <- (take_drop (Z.to_nat k) (m_pages x)) in Hnd. apply NoDup_app in Hnd as (_ & _ & Hnd).
  replace (Z.to_nat (zlen (m_pages x) - k)) with (length (drop (Z.to_nat k) (m_pages x))) by (rewrite length_drop; unfold zlen; lia).
  apply release_loop_at; [apply H|done|by rewrite take_drop|done|].
  intros p Hp. apply (p_owned _ _ H i _ p Hf). cbn. rewrite <- (take_drop (Z.to_nat k) (m_pages x)), elem_of_app. by right.
Qed.

(** A file that keeps a first part of its pages, the rest being given back. *)
Lemma pages_ok_shrink fr fr' P i f f' k : pages_ok fr P -> P !! i = Some f -> f_class f' = f_class f -> f_pages f' = take k (f_pages f) ->
  (f_class f = TmpfsInode -> 0 <= f_size f' <= capacity f' /\ f_size f' < 2 ^ 63) ->
  fa_ok fr' -> (forall b, fa_owned fr' b <-> fa_owned fr b /\ b ∉ drop k (f_pages f)) -> pages_ok fr' (<[i := f']> P).
Proof.
  intros H Hf Hc Hp Hs Hok Ho. assert (Hsub : forall p, p ∈ f_pages f' -> p ∈ f_pages f).
  { intros p. rewrite Hp. intros Hin. rewrite <- (take_drop k (f_pages f)), elem_of_app. by left. }
  pose proof (p_nodup _ _ H i f Hf) as Hnd. rewrite <- (take_drop k (f_pages f)) in Hnd. apply NoDup_app in Hnd as (N1 & N2 & N3). split.
  - done.
  - intros j g p Hg Hin. apply Ho. apply lookup_insert_Some in Hg as [[<- <-]|[Hne Hg]].
    + split; [by apply (p_owned _ _ H i f p Hf), Hsub|]. apply N2. by rewrite <- Hp.
    + split; [by apply (p_owned _ _ H j g p Hg)|]. intros Hd. apply Hne, (p_apart _ _ H i j f g p Hf Hg); [|done].
      rewrite <- (take_drop k (f_pages f)), elem_of_app. by right.
  - intros j g Hg. apply lookup_insert_Some in Hg as [[<- <-]|[_ Hg]]; [by rewrite Hp|by apply (p_nodup _ _ H j g)].
  - intros j1 j2 g1 g2 p H1 H2 I1 I2. apply lookup_insert_Some in H1 as [[<- <-]|[D1 H1]], H2 as [[<- <-]|[D2 H2]]; [done| | |].
    + by apply (p_apart _ _ H i j2 f g2 p Hf H2); [apply Hsub|].
    + by apply (p_apart _ _ H j1 i g1 f p H1 Hf); [|apply Hsub].
    + by apply (p_apart _ _ H j1 j2 g1 g2 p H1 H2).
  - intros j g Hg Hcl. apply lookup_insert_Some in Hg as [[<- <-]|[_ Hg]]; [|by apply (p_other _ _ H j g)].
    rewrite Hp, (p_other _ _ H i f Hf) by congruence. by destruct k.
  - intros j g Hg Hcl. apply lookup_insert_Some in Hg as [[<- <-]|[_ Hg]]; [apply Hs; congruence|by apply (p_size _ _ H j g)].
Qed.

(** ** Getting pages *)

Lemma pages_for_spec n : 0 <= n < 2 ^ 63 -> 0 <= pages_for n /\ n <= pages_for n * PAGE_SIZE /\ pages_for n * PAGE_SIZE < n + PAGE_SIZE.
Proof. intros Hn. unfold pages_for, u64, PAGE_SIZE. rewrite Z.mod_small by lia. zlia. Qed.

(** The frames [new] taken for a file and cleared. *)
Record grew s (new : list Z) fr (m : Z -> Z) : Prop := {
  gr_ok : fa_ok fr;
  gr_owned : forall b, fa_owned fr b <-> fa_owned (frames s) b \/ b ∈ new;
  gr_fresh : forall p, p ∈ new -> ~ fa_owned (frames s) p;
  gr_nodup : NoDup new;
  gr_keep : mem_keep (frames s) (mem s) m;
  gr_zero : forall p a, p ∈ new -> p <= a < p + PAGE_SIZE -> m a = 0;
}.

Lemma allocate_zeroed_at s : fa_ok (frames s) ->
  match zeroed_page s with
  | (Ok p, s') => exists fr m, s' = mkVfs fr m (inodes s) (filesystems s) (s_mounts s) (s_root_filesystem s) (now s)
      /\ fa_ok fr /\ ~ fa_owned (frames s) p /\ (forall b, fa_owned fr b <-> b = p \/ fa_owned (frames s) b)
      /\ mem_keep (frames s) (mem s) m /\ forall a, p <= a < p + PAGE_SIZE -> m a = 0
  | (Err e, s') => e = ENOMEM /\ s' = s
  | (Panic, _) => False
  end.
Proof.
  intros Hok. unfold zeroed_page, mtry, vfs_frames. pose proof (fa_allocate_spec (frames s) Hok) as H.
  destruct (fa_allocate (frames s)) as [[p|e|] fr]; [|destruct H as [-> ->]; split; [done|by destruct s]|done].
  destruct H as (Hok' & Hf & Ho). unfold mmod, mok. exists fr, (clear p PAGE_SIZE (mem s)). split_and!; try done.
  - intros q a Hq Ha. unfold clear. destruct (Z.leb_spec p a), (Z.ltb_spec a (p + PAGE_SIZE)); cbn; try done.
    exfalso. apply Hf. assert (p = q) as -> by (apply (frames_apart fr p q a a Hok'); [apply Ho; by left|apply Ho; by right|lia|lia|done]). done.
  - intros a Ha. unfold clear. destruct (Z.leb_spec p a), (Z.ltb_spec a (p + PAGE_SIZE)); cbn; try lia; done.
Qed.

Definition with_memory fr m s : @Vfs F := mkVfs fr m (inodes s) (filesystems s) (s_mounts s) (s_root_filesystem s) (now s).

Lemma zero_ok_keep fr P m m' : pages_ok fr P -> mem_keep fr m m' -> zero_ok m P -> zero_ok m' P.
Proof.
  intros H Hm Hz i f k Hf Hc Hk. destruct (p_size _ _ H i f Hf Hc). rewrite (byte_of_keep fr P m m' i f k H Hm Hf) by lia. by apply (Hz i f k).
Qed.

Lemma files_ok_memory s fr m : files_ok s -> fa_ok fr -> (forall b, fa_owned (frames s) b -> fa_owned fr b) -> mem_keep (frames s) (mem s) m ->
  files_ok (with_memory fr m s).
Proof.
  intros [H Hz] Hok Ho Hm. split; [|by apply (zero_ok_keep (frames s) _ (mem s))]. split; [done|..]; try apply H.
  intros i f p Hf Hp. by apply Ho, (p_owned _ _ H i f).
Qed.

Lemma capacity_app (f : File) new : capacity (mkFile (f_class f) (f_pages f ++ new) (f_size f)) = capacity f + zlen new * PAGE_SIZE.
Proof. unfold capacity, zlen. cbn. rewrite length_app. lia. Qed.

Lemma byte_of_app m (f : File) new k : 0 <= k < capacity f -> byte_of m (mkFile (f_class f) (f_pages f ++ new) (f_size f)) k = byte_of m f k.
Proof.
  intros Hk. unfold byte_of, zget. cbn. rewrite lookup_app_l; [done|]. unfold capacity, zlen, PAGE_SIZE in *. zlia.
Qed.

Lemma byte_of_new m (f : File) new k : (forall p a, p ∈ new -> p <= a < p + PAGE_SIZE -> m a = 0) ->
  capacity f <= k < capacity f + zlen new * PAGE_SIZE -> byte_of m (mkFile (f_class f) (f_pages f ++ new) (f_size f)) k = 0.
Proof.
  intros Hz Hk. unfold byte_of. cbn. set (f' := mkFile (f_class f) (f_pages f ++ new) (f_size f)).
  assert (Hin : zget 0 (f_pages f') (k / PAGE_SIZE) ∈ new).
  { apply list_elem_of_lookup_2 with (Z.to_nat (k / PAGE_SIZE) - length (f_pages f))%nat. rewrite <- lookup_app_r.
    - apply (page_in f'). unfold f'. rewrite capacity_app. unfold capacity, zlen, PAGE_SIZE in *. lia.
    - unfold capacity, zlen, PAGE_SIZE in *. zlia. }
  apply (Hz _ _ Hin). unfold PAGE_SIZE. pose proof (Z.mod_pos_bound k 4096). unfold f'. cbn [f_pages]. lia.
Qed.

(** The pages of a grown file. *)
Lemma grew_files_ok s i x new fr m : files_ok s -> inodes s !! i = Some x -> class x = TmpfsInode -> grew s new fr m ->
  files_ok (with_file fr m i (with_pages (m_pages x ++ new) x) s).
Proof.
  intros [H Hz] Hx Hc G. pose proof (files_lookup s i x Hx) as Hf. unfold files_ok. rewrite files_with. cbn [frames mem with_file].
  assert (Hold : forall j g p, files s !! j = Some g -> p ∈ f_pages g -> p ∉ new).
  { intros j g p Hg Hp Hn. by apply (gr_fresh _ _ _ _ G p Hn), (p_owned _ _ H j g). }
  change (file_of (with_pages (m_pages x ++ new) x)) with (mkFile (f_class (file_of x)) (f_pages (file_of x) ++ new) (f_size (file_of x))).
  destruct (p_size _ _ H i _ Hf Hc) as [Hs1 Hs2]. split; [split|].
  - apply G.
  - intros j g p Hg Hp. apply (gr_owned _ _ _ _ G). apply lookup_insert_Some in Hg as [[<- <-]|[_ Hg]].
    + cbn in Hp. apply elem_of_app in Hp as [Hp|Hp]; [left; by apply (p_owned _ _ H i (file_of x))|by right].
    + left. by apply (p_owned _ _ H j g).
  - intros j g Hg. apply lookup_insert_Some in Hg as [[<- <-]|[_ Hg]]; [|by apply (p_nodup _ _ H j g)]. cbn. apply NoDup_app.
    split_and!; [apply (p_nodup _ _ H i _ Hf)|intros p Hp; by apply (Hold i (file_of x))|apply G].
  - intros j1 j2 g1 g2 p H1 H2 I1 I2. apply lookup_insert_Some in H1 as [[<- <-]|[D1 H1]], H2 as [[<- <-]|[D2 H2]]; [done| | |by apply (p_apart _ _ H j1 j2 g1 g2 p)].
    + cbn in I1. apply elem_of_app in I1 as [I1|I1]; [by apply (p_apart _ _ H i j2 _ g2 p Hf H2)|by destruct (Hold j2 g2 p H2 I2)].
    + cbn in I2. apply elem_of_app in I2 as [I2|I2]; [by apply (p_apart _ _ H j1 i g1 _ p H1 Hf)|by destruct (Hold j1 g1 p H1 I1)].
  - intros j g Hg Hcl. apply lookup_insert_Some in Hg as [[<- <-]|[_ Hg]]; [done|by apply (p_other _ _ H j g)].
  - intros j g Hg Hcl. apply lookup_insert_Some in Hg as [[<- <-]|[_ Hg]]; [|by apply (p_size _ _ H j g)]. rewrite capacity_app. pose proof (zlen_nonneg new).
    unfold PAGE_SIZE in *. cbn [f_size]. lia.
  - intros j g k Hg Hcl Hk. apply lookup_insert_Some in Hg as [[<- <-]|[_ Hg]].
    + rewrite capacity_app in Hk. cbn [f_size] in Hk. destruct (Z.ltb_spec k (capacity (file_of x))).
      * rewrite byte_of_app, (byte_of_keep (frames s) _ (mem s) m i _ k H (gr_keep _ _ _ _ G) Hf) by lia. apply (Hz i _ k Hf Hc). lia.
      * apply byte_of_new; [apply G|lia].
    + by apply (zero_ok_keep (frames s) _ (mem s) m H (gr_keep _ _ _ _ G) Hz j g k).
Qed.

Lemma grew_nil s : fa_ok (frames s) -> grew s [] (frames s) (mem s).
Proof. intros Hok. split; try done; [set_solver..|constructor|]. intros p a Hp. by apply not_elem_of_nil in Hp. Qed.

Lemma grew_cons s s1 p new fr m : grew s [p] (frames s1) (mem s1) -> grew s1 new fr m -> grew s (p :: new) fr m.
Proof.
  intros G1 G2. assert (Hp : fa_owned (frames s1) p) by (apply (gr_owned _ _ _ _ G1); right; by left).
  assert (Hs : forall b, fa_owned (frames s) b -> fa_owned (frames s1) b) by (intros b Hb; apply (gr_owned _ _ _ _ G1); by left).
  split.
  - apply G2.
  - intros b. rewrite (gr_owned _ _ _ _ G2), (gr_owned _ _ _ _ G1), list_elem_of_singleton, elem_of_cons. tauto.
  - intros q [-> |Hq]%elem_of_cons; [apply (gr_fresh _ _ _ _ G1); by left|]. intros Ho. by apply (gr_fresh _ _ _ _ G2 q Hq), Hs.
  - apply NoDup_cons. split; [|apply G2]. intros Hn. by apply (gr_fresh _ _ _ _ G2 p Hn).
  - intros q a Hq Ha. rewrite (gr_keep _ _ _ _ G2 q a (Hs q Hq) Ha). by apply (gr_keep _ _ _ _ G1 q).
  - intros q a [-> |Hq]%elem_of_cons Ha; [|by apply (gr_zero _ _ _ _ G2 q)]. rewrite (gr_keep _ _ _ _ G2 p a Hp Ha). apply (gr_zero _ _ _ _ G1 p); [by left|done].
Qed.

Lemma grew_one s p fr m : fa_ok (frames s) -> fa_ok fr -> ~ fa_owned (frames s) p -> (forall b, fa_owned fr b <-> b = p \/ fa_owned (frames s) b) ->
  mem_keep (frames s) (mem s) m -> (forall a, p <= a < p + PAGE_SIZE -> m a = 0) -> grew s [p] fr m.
Proof.
  intros Hok Hok' Hf Ho Hk Hz. split; try done.
  - intros b. rewrite Ho, list_elem_of_singleton. tauto.
  - intros q. rewrite list_elem_of_singleton. by intros ->.
  - apply NoDup_singleton.
  - intros q a. rewrite list_elem_of_singleton. intros ->. apply Hz.
Qed.

(** The pages that back the size of a file. *)
Definition backing (x : Inode) : nat := Z.to_nat (pages_for (m_size x)).

Lemma backing_le s i x : files_ok s -> inodes s !! i = Some x -> class x = TmpfsInode -> (backing x <= length (m_pages x))%nat.
Proof.
  intros [H _] Hx Hc. destruct (p_size _ _ H i _ (files_lookup s i x Hx) Hc) as [Hs1 Hs2]. destruct (pages_for_spec (m_size x)) as (P1 & P2 & P3); [cbn in *; lia|].
  unfold backing, capacity, zlen, PAGE_SIZE in *. cbn in *. lia.
Qed.

(** A failed attempt leaves the file with the pages its size needs. *)
Definition gave_up s i x s' : Prop := exists fr m, s' = with_file fr m i (with_pages (take (backing x) (m_pages x)) x) s /\ fa_ok fr
  /\ (forall b, fa_owned fr b <-> fa_owned (frames s) b /\ b ∉ drop (backing x) (m_pages x)) /\ mem_keep (frames s) (mem s) m.

Lemma rolled_back s i x fr m : files_ok s -> inodes s !! i = Some x -> class x = TmpfsInode -> fa_ok fr ->
  (forall b, fa_owned fr b <-> fa_owned (frames s) b) -> mem_keep (frames s) (mem s) m ->
  exists s', release_pages_from i (pages_for (m_size x)) (with_memory fr m s) = (Ok tt, s') /\ gave_up s i x s'.
Proof.
  intros Hs Hx Hc Hok Ho Hk. assert (Hs1 : files_ok (with_memory fr m s)) by (apply files_ok_memory; [done|done|intros b; apply Ho|done]).
  destruct Hs as [H _]. destruct (p_size _ _ H i _ (files_lookup s i x Hx) Hc) as [Hz1 Hz2]. destruct (pages_for_spec (m_size x)) as (P1 & _); [cbn in *; lia|].
  destruct (release_at (with_memory fr m s) i x (pages_for (m_size x)) Hs1 Hx P1) as (fr' & E & Hok' & Ho'). eexists. split; [exact E|].
  exists fr', m. split_and!; [done|done| |done]. intros b. rewrite Ho'. cbn. by rewrite Ho.
Qed.

Lemma ensure_loop_at h n : forall s i x, files_ok s -> inodes s !! i = Some x -> class x = TmpfsInode ->
  match ensure_loop n h i s with
  | (Ok _, s') => exists new fr m, s' = with_file fr m i (with_pages (m_pages x ++ new) x) s /\ length new = n /\ grew s new fr m
  | (Err e, s') => e = ENOMEM /\ gave_up s i x s'
  | (Panic, _) => False
  end.
Proof.
  induction n as [|n IH]; intros s i x Hs Hx Hc; cbn [ensure_loop].
  - exists [], (frames s), (mem s). split_and!; [|done|apply grew_nil, Hs]. unfold with_file. rewrite app_nil_r. replace (with_pages (m_pages x) x) with x by (by destruct x).
    rewrite insert_id by done. by destruct s.
  - pose proof (allocate_zeroed_at s (p_frames _ _ (proj1 Hs))) as Ha. unfold mcatch, mtry at 1. destruct (zeroed_page s) as [[p|e|] s1]; [| |done].
    + destruct Ha as (fr & m & -> & Hok & Hfr & Ho & Hk & Hz). fold (with_memory fr m s). rewrite (try_deref i x) by done. destruct (pages_room h _).
      * rewrite (try_modify i x) by done. change (set_inode i ?y (with_memory fr m s)) with (with_file fr m i y s).
        pose proof (grew_one s p fr m (p_frames _ _ (proj1 Hs)) Hok Hfr Ho Hk Hz) as G.
        pose proof (grew_files_ok s i x [p] fr m Hs Hx Hc G) as Hs2.
        specialize (IH _ i _ Hs2 (with_file_eq _ _ _ _ _) Hc). destruct (ensure_loop n h i _) as [[u|e|] s']; [| |done].
        -- destruct IH as (new & fr' & m' & -> & Hl & G'). exists (p :: new), fr', m'. rewrite with_file_twice. cbn. rewrite <- app_assoc. split_and!; [done|lia|].
           by apply (grew_cons s (with_file fr m i (with_pages (m_pages x ++ [p]) x) s)).
        -- destruct IH as (-> & fr' & m' & -> & Hok' & Ho' & Hk'). split; [done|]. exists fr', m'. rewrite with_file_twice.
           pose proof (backing_le s i x Hs Hx Hc) as Hb. change (backing (with_pages (m_pages x ++ [p]) x)) with (backing x) in *. cbn [m_pages with_pages] in *.
           rewrite take_app_le, drop_app_le in * by done. split_and!; [done|done| |].
           ++ intros b. rewrite Ho'. cbn [frames with_file]. rewrite Ho, elem_of_app, list_elem_of_singleton. split; [tauto|]. intros [? ?]. split; [tauto|]. intros [?| ->]; done.
           ++ intros q a Hq Hqa. rewrite (Hk' q a); [by apply (Hk q)|cbn; apply Ho; by right|done].
      * destruct (fa_free_spec fr p Hok) as (fr' & E & Hok' & Ho'); [apply Ho; by left|]. rewrite (on_frames_ok (fa_free p) _ (with_memory fr m s) tt fr' E). change (with_vfs_frames fr' (with_memory fr m s)) with (with_memory fr' m s).
        destruct (rolled_back s i x fr' m Hs Hx Hc Hok') as (s' & E2 & G); [intros b; rewrite Ho', Ho; split; [tauto|]; intros Hb; split; [intros ->; done|by right]|done|].
        rewrite (mtry_ok _ _ _ _ _ E2). done.
    + destruct Ha as [-> ->]. rewrite (try_deref i x) by done.
      destruct (rolled_back s i x (frames s) (mem s) Hs Hx Hc (p_frames _ _ (proj1 Hs))) as (s' & E2 & G); [done|by intros ? ?|].
      replace (with_memory (frames s) (mem s) s) with s in E2 by (by destruct s). rewrite (mtry_ok _ _ _ _ _ E2). done.
Qed.

Lemma ensure_at h s i x n : files_ok s -> inodes s !! i = Some x -> class x = TmpfsInode -> 0 <= n < 2 ^ 63 ->
  match ensure_pages h i n s with
  | (Ok _, s') => exists new fr m, s' = with_file fr m i (with_pages (m_pages x ++ new) x) s /\ n <= (zlen (m_pages x) + zlen new) * PAGE_SIZE /\ grew s new fr m
  | (Err e, s') => e = ENOMEM /\ gave_up s i x s'
  | (Panic, _) => False
  end.
Proof.
  intros Hs Hx Hc Hn. unfold ensure_pages. rewrite (try_deref i x) by done. destruct (pages_for_spec n Hn) as (P1 & P2 & P3).
  pose proof (ensure_loop_at h (Z.to_nat (pages_for n - zlen (m_pages x))) s i x Hs Hx Hc) as H.
  destruct (ensure_loop _ h i s) as [[u|e|] s']; [|done|done]. destruct H as (new & fr & m & -> & Hl & G). exists new, fr, m. split_and!; [done| |done].
  unfold zlen, PAGE_SIZE in *. lia.
Qed.

(** What an attempt that failed leaves is as good as before. *)
Lemma gave_up_ok s i x s' : files_ok s -> inodes s !! i = Some x -> class x = TmpfsInode -> gave_up s i x s' ->
  files_ok s' /\ (exists x', inodes s' !! i = Some x' /\ contents (mem s') (file_of x') = contents (mem s) (file_of x))
  /\ forall j y, j <> i -> inodes s !! j = Some y -> inodes s' !! j = Some y /\ (class y = TmpfsInode -> contents (mem s') (file_of y) = contents (mem s) (file_of y)).
Proof.
  intros Hs Hx Hc (fr & m & -> & Hok & Ho & Hk). pose proof (files_lookup s i x Hx) as Hf. pose proof (backing_le s i x Hs Hx Hc) as Hb.
  destruct Hs as [H Hz]. destruct (p_size _ _ H i _ Hf Hc) as [Hs1 Hs2]. destruct (pages_for_spec (m_size x)) as (P1 & P2 & P3); [cbn in *; lia|].
  set (x' := with_pages (take (backing x) (m_pages x)) x).
  assert (Hcap : m_size x <= capacity (file_of x') <= capacity (file_of x)).
  { unfold capacity, x', backing in *. cbn [file_of f_pages m_pages with_pages]. unfold zlen, PAGE_SIZE in *. rewrite length_take. lia. }
  assert (Hby : forall k, 0 <= k < capacity (file_of x') -> byte_of m (file_of x') k = byte_of (mem s) (file_of x) k).
  { intros k Hk'. rewrite <- (byte_of_keep (frames s) _ (mem s) m i _ k H Hk Hf) by lia. unfold byte_of, zget. cbn [file_of f_pages x' m_pages with_pages].
    rewrite lookup_take_lt; [done|]. unfold capacity, x' in Hk'. cbn [file_of f_pages m_pages with_pages] in Hk'. unfold zlen, PAGE_SIZE in *. rewrite length_take in Hk'. zlia. }
  assert (Hp' : pages_ok fr (<[i := file_of x']> (files s))).
  { apply (pages_ok_shrink (frames s) fr (files s) i (file_of x) (file_of x') (backing x)); try done. intros _. cbn [f_size file_of] in *. change (m_size x') with (m_size x). lia. }
  split_and!.
  - split; rewrite files_with; cbn [frames mem with_file]; [done|]. intros j g k Hg Hcl Hkk. apply lookup_insert_Some in Hg as [[<- <-]|[Hne Hg]].
    + rewrite Hby by (cbn in *; lia). apply (Hz i _ k Hf Hc). cbn in *. lia.
    + by apply (zero_ok_keep (frames s) _ (mem s) m H Hk Hz j g k).
  - exists x'. split; [apply with_file_eq|]. apply contents_eq; [done|]. intros k Hkk. apply Hby. cbn in *. lia.
  - intros j y Hj Hy. split; [cbn; by rewrite lookup_insert_ne|]. intros Hcy. by apply (contents_keep (frames s) (files s) (mem s) m j _ H Hk (files_lookup s j y Hy)).
Qed.

(** ** Reading *)

Lemma slice_seqZ (g : Z -> Z) offset n size : 0 <= offset -> 0 <= n -> offset + n <= size ->
  g <$> seqZ offset n = take (Z.to_nat n) (drop (Z.to_nat offset) (g <$> seqZ 0 size)).
Proof.
  intros Ho Hn Hs. replace size with (offset + (n + (size - offset - n))) by lia. rewrite !seqZ_app, !fmap_app by lia.
  rewrite drop_app_length' by (rewrite length_fmap, length_seqZ; lia). rewrite Z.add_0_l, take_app_length' by (rewrite length_fmap, length_seqZ; lia). done.
Qed.

Lemma page_at_ok x position s : 0 <= position < capacity (file_of x) -> page_at x position s = (Ok (zget 0 (m_pages x) (position / PAGE_SIZE)), s).
Proof. intros H. unfold page_at. pose proof (page_in (file_of x) position H) as E. cbn in E. by rewrite E. Qed.

(** A run within one page. *)
Lemma load_run m (f : File) position run : 0 <= position -> 0 <= run <= PAGE_SIZE - position mod PAGE_SIZE ->
  mem_load m (zget 0 (f_pages f) (position / PAGE_SIZE) + position mod PAGE_SIZE) run = byte_of m f <$> seqZ position run.
Proof.
  intros Hp Hr. unfold mem_load. replace (seqZ position run) with (Z.add position <$> seqZ 0 run) by (rewrite fmap_add_seqZ; f_equal; lia). rewrite <- list_fmap_compose.
  apply list_fmap_ext. intros n k [-> Hk]%lookup_seqZ. unfold byte_of, compose. f_equal. unfold PAGE_SIZE in *.
  replace ((position + (0 + Z.of_nat n)) / 4096) with (position / 4096) by zlia. zlia.
Qed.

Definition enough (fuel : nat) (rest within : Z) : Prop := rest + within <= (Z.of_nat fuel - 1) * PAGE_SIZE \/ rest = 0 /\ fuel <> 0%nat.

Lemma enough_start length within : 0 <= length -> 0 <= within < PAGE_SIZE -> enough (copy_fuel length) length within.
Proof. intros Hl Hw. left. unfold copy_fuel, PAGE_SIZE in *. zlia. Qed.

(** After a run, what is left starts a page or is nothing. *)
Lemma enough_step fuel rest position : 0 < rest -> 0 <= position -> let within := position mod PAGE_SIZE in let run := Z.min rest (PAGE_SIZE - within) in
  enough fuel rest within -> exists fuel', fuel = S fuel' /\ 0 < run <= rest /\ enough fuel' (rest - run) ((position + run) mod PAGE_SIZE).
Proof.
  intros Hr Hp within run He. assert (Hw : 0 <= within < PAGE_SIZE) by (unfold within, PAGE_SIZE; zlia). destruct He as [He|[? _]]; [|lia].
  destruct fuel as [|fuel]; [unfold PAGE_SIZE in *; lia|]. exists fuel. split_and!; [done|unfold run; lia|unfold run; lia|].
  destruct (Z.leb_spec rest (PAGE_SIZE - within)).
  - right. unfold run. split; [lia|]. intros ->. unfold PAGE_SIZE in *. lia.
  - left. unfold run, within, PAGE_SIZE in *. replace (Z.min _ _) with (4096 - position mod 4096) by lia. replace ((position + (4096 - position mod 4096)) mod 4096) with 0 by zlia. lia.
Qed.

Lemma read_pages_at x offset to_copy s : 0 <= offset -> offset + to_copy <= capacity (file_of x) -> offset + to_copy < 2 ^ 63 ->
  forall fuel copied, 0 <= copied <= to_copy -> enough fuel (to_copy - copied) ((offset + copied) mod PAGE_SIZE) ->
  read_pages fuel x offset copied to_copy s = (Ok (byte_of (mem s) (file_of x) <$> seqZ (offset + copied) (to_copy - copied)), s).
Proof.
  intros Ho Hc Hb fuel. induction fuel as [|fuel IH]; intros copied Hcp He.
  { exfalso. destruct He as [He|[_ ?]]; [|done]. unfold PAGE_SIZE in *. zlia. }
  cbn [read_pages]. destruct (Z.ltb_spec copied to_copy).
  - rewrite (u64_small (offset + copied)) by (unfold is_u64; lia).
    destruct (enough_step (S fuel) (to_copy - copied) (offset + copied)) as (fuel' & [= <-] & Hr1 & Hr2); [lia|lia|done|].
    set (run := Z.min (to_copy - copied) (PAGE_SIZE - (offset + copied) mod PAGE_SIZE)) in *.
    rewrite (mtry_ok _ _ _ _ _ (page_at_ok x (offset + copied) s ltac:(lia))), mtry_get.
    rewrite (mtry_ok _ _ _ _ _ (IH (copied + run) ltac:(lia) ltac:(by replace (to_copy - (copied + run)) with (to_copy - copied - run) by lia; rewrite Z.add_assoc))).
    unfold mok. do 2 f_equal. change (m_pages x) with (f_pages (file_of x)). rewrite load_run by (unfold run in *; lia).
    rewrite Z.add_assoc, <- fmap_app, <- seqZ_app by lia. do 2 f_equal. lia.
  - replace (to_copy - copied) with 0 by lia. done.
Qed.

Lemma read_at s i x offset length : files_ok s -> inodes s !! i = Some x -> class x = TmpfsInode -> is_directory x = false -> 0 <= offset -> 0 <= length ->
  tmpfs_read i offset length s = (Ok (take (Z.to_nat length) (drop (Z.to_nat offset) (contents (mem s) (file_of x)))), s).
Proof.
  intros [H _] Hx Hc Hd Ho Hl. destruct (p_size _ _ H i _ (files_lookup s i x Hx) Hc) as [Hs1 Hs2]. cbn [file_of f_size] in *.
  unfold tmpfs_read. rewrite (try_deref i x), Hd by done. destruct (Z.leb_spec (m_size x) offset).
  - unfold contents. rewrite drop_ge, take_nil by (rewrite length_fmap, length_seqZ; cbn [file_of f_size]; lia). done.
  - rewrite (read_pages_at x offset (Z.min length (m_size x - offset)) s Ho ltac:(lia) ltac:(lia));
      [|lia|rewrite Z.sub_0_r; apply enough_start; [lia|unfold PAGE_SIZE; zlia]].
    rewrite Z.add_0_r, Z.sub_0_r. do 2 f_equal. rewrite (slice_seqZ _ offset _ (m_size x)) by lia. unfold contents. cbn [file_of f_size].
    destruct (Z.leb_spec length (m_size x - offset)); [by replace (Z.min _ _) with length by lia|]. replace (Z.min _ _) with (m_size x - offset) by lia.
    rewrite !take_ge; [done| |]; rewrite length_drop, length_fmap, length_seqZ; lia.
Qed.

(** ** Writing *)

(** The address of a byte of a file is in a run of another exactly when the byte is. *)
Lemma addr_run fr (f : File) position run k : fa_ok fr -> NoDup (f_pages f) -> (forall p, p ∈ f_pages f -> fa_owned fr p) ->
  0 <= position < capacity f -> 0 <= run <= PAGE_SIZE - position mod PAGE_SIZE -> 0 <= k < capacity f ->
  let a := zget 0 (f_pages f) (position / PAGE_SIZE) + position mod PAGE_SIZE in
  let b := zget 0 (f_pages f) (k / PAGE_SIZE) + k mod PAGE_SIZE in
  (a <= b < a + run <-> position <= k < position + run) /\ (a <= b < a + run -> b - a = k - position).
Proof.
  intros Hok Hnd Ho Hp Hr Hk a b. pose proof (page_in f position Hp) as Ep. pose proof (page_in f k Hk) as Ek.
  destruct (decide (k / PAGE_SIZE = position / PAGE_SIZE)) as [E|E].
  - unfold a, b. rewrite E. unfold PAGE_SIZE in *. zlia.
  - assert (Hne : zget 0 (f_pages f) (k / PAGE_SIZE) <> zget 0 (f_pages f) (position / PAGE_SIZE)).
    { intros Eq. rewrite Eq in Ek. pose proof (NoDup_lookup _ _ _ _ Hnd Ek Ep) as En. apply E. unfold PAGE_SIZE in *. zlia. }
    pose proof (page_elem f position Hp) as Ip. pose proof (page_elem f k Hk) as Ik.
    destruct (fa_owned_range fr _ Hok (Ho _ Ip)) as [_ Mp], (fa_owned_range fr _ Hok (Ho _ Ik)) as [_ Mk].
    unfold a, b, PAGE_SIZE in *. zlia.
Qed.

(** What a copy into the pages of [f] from byte [offset] on leaves. *)
Record wrote (m m' : Z -> Z) (f : File) (offset : Z) (input : list Z) : Prop := {
  wr_bytes : forall k, 0 <= k < capacity f -> byte_of m' f k = (if decide (offset <= k < offset + zlen input) then zget 0 input (k - offset) else byte_of m f k);
  wr_else : forall a, (forall p, p ∈ f_pages f -> ~ p <= a < p + PAGE_SIZE) -> m' a = m a;
}.

Lemma store_run fr m (f : File) position (l : list Z) : fa_ok fr -> NoDup (f_pages f) -> (forall p, p ∈ f_pages f -> fa_owned fr p) ->
  0 <= position < capacity f -> zlen l <= PAGE_SIZE - position mod PAGE_SIZE ->
  wrote m (mem_store (zget 0 (f_pages f) (position / PAGE_SIZE) + position mod PAGE_SIZE) l m) f position l.
Proof.
  intros Hok Hnd Ho Hp Hl. pose proof (zlen_nonneg l) as Hl0. split.
  - intros k Hk. unfold byte_of at 1, mem_store.
    destruct (addr_run fr f position (zlen l) k Hok Hnd Ho Hp ltac:(lia) Hk) as [A1 A2]. cbv zeta in A1, A2.
    set (a := zget 0 (f_pages f) (position / PAGE_SIZE) + position mod PAGE_SIZE) in *. set (b := zget 0 (f_pages f) (k / PAGE_SIZE) + k mod PAGE_SIZE) in *.
    destruct (decide (position <= k < position + zlen l)) as [D|D].
    + apply A1 in D as D'. rewrite (A2 D'). destruct (Z.leb_spec a b), (Z.ltb_spec b (a + zlen l)); cbn; try done; lia.
    + rewrite <- A1 in D. destruct (Z.leb_spec a b), (Z.ltb_spec b (a + zlen l)); cbn; try done. lia.
  - intros a Ha. unfold mem_store. specialize (Ha _ (page_elem f position Hp)). pose proof (Z.mod_pos_bound position PAGE_SIZE ltac:(done)).
    destruct (Z.leb_spec (zget 0 (f_pages f) (position / PAGE_SIZE) + position mod PAGE_SIZE) a); [|done].
    destruct (Z.ltb_spec a (zget 0 (f_pages f) (position / PAGE_SIZE) + position mod PAGE_SIZE + zlen l)); [|done]. lia.
Qed.

Lemma wrote_app m m1 m2 (f : File) offset l1 l2 : 0 <= offset -> wrote m m1 f offset l1 -> wrote m1 m2 f (offset + zlen l1) l2 -> wrote m m2 f offset (l1 ++ l2).
Proof.
  intros Ho W1 W2. split.
  - intros k Hk. rewrite (wr_bytes _ _ _ _ _ W2), (wr_bytes _ _ _ _ _ W1) by done. pose proof (zlen_nonneg l1). pose proof (zlen_nonneg l2).
    assert (El : zlen (l1 ++ l2) = zlen l1 + zlen l2) by (unfold zlen; rewrite length_app; lia). rewrite El.
    repeat case_decide; try lia; try done; unfold zget, zlen in *.
    + rewrite lookup_app_r by lia. do 2 f_equal. lia.
    + by rewrite lookup_app_l by lia.
  - intros a Ha. rewrite (wr_else _ _ _ _ _ W2), (wr_else _ _ _ _ _ W1); done.
Qed.

Lemma wrote_nil m (f : File) offset : wrote m m f offset [].
Proof. split; [|done]. intros k _. rewrite decide_False; [done|]. unfold zlen. cbn. lia. Qed.

Lemma write_pages_at x offset input : 0 <= offset -> offset + zlen input <= capacity (file_of x) -> offset + zlen input < 2 ^ 63 ->
  forall fuel written s, fa_ok (frames s) -> NoDup (m_pages x) -> (forall p, p ∈ m_pages x -> fa_owned (frames s) p) ->
  0 <= written <= zlen input -> enough fuel (zlen input - written) ((offset + written) mod PAGE_SIZE) ->
  exists m', write_pages fuel x offset written input s = (Ok tt, with_memory (frames s) m' s)
    /\ wrote (mem s) m' (file_of x) (offset + written) (drop (Z.to_nat written) input).
Proof.
  intros Ho Hc Hb fuel. induction fuel as [|fuel IH]; intros written s Hok Hnd Hown Hw He.
  { exfalso. destruct He as [He|[_ ?]]; [|done]. unfold PAGE_SIZE in *. zlia. }
  cbn [write_pages]. destruct (Z.ltb_spec written (zlen input)).
  - rewrite (u64_small (offset + written)) by (unfold is_u64; lia).
    destruct (enough_step (S fuel) (zlen input - written) (offset + written)) as (fuel' & [= <-] & Hr1 & Hr2); [lia|lia|done|].
    set (run := Z.min (zlen input - written) (PAGE_SIZE - (offset + written) mod PAGE_SIZE)) in *.
    rewrite (mtry_ok _ _ _ _ _ (page_at_ok x (offset + written) s ltac:(lia))), mtry_mod.
    set (l := take (Z.to_nat run) (drop (Z.to_nat written) input)).
    assert (Hll : zlen l = run) by (unfold l, zlen in *; rewrite length_take, length_drop; lia).
    set (a := zget 0 (m_pages x) ((offset + written) / PAGE_SIZE) + (offset + written) mod PAGE_SIZE).
    set (m1 := mem_store a l (mem s)). change (upd_mem (mem_store a l) s) with (with_memory (frames s) m1 s).
    destruct (IH (written + run) (with_memory (frames s) m1 s)) as (m' & E & W); [done|done|done|lia|by replace (zlen input - (written + run)) with (zlen input - written - run) by lia; rewrite Z.add_assoc|].
    exists m'. split; [exact E|]. replace (drop (Z.to_nat written) input) with (l ++ drop (Z.to_nat (written + run)) input).
    + apply (wrote_app _ m1); [lia| |by rewrite Hll, <- Z.add_assoc]. exact (store_run (frames s) (mem s) (file_of x) (offset + written) l Hok Hnd Hown ltac:(lia) ltac:(rewrite Hll; unfold run; lia)).
    + unfold l. rewrite Z2Nat.inj_add, <- drop_drop by lia. apply take_drop.
  - exists (mem s). split; [by destruct s|]. rewrite drop_ge by (unfold zlen in *; lia). apply wrote_nil.
Qed.

(** ** What the calls do *)

(** The bytes of a file after [input] is written at [offset] and after it is cut
    or extended; what was not there before is zero. *)
Definition overlay (offset : Z) (input old : list Z) : list Z :=
  resize (Z.to_nat offset) 0 old ++ input ++ drop (Z.to_nat offset + length input) old.
Definition resized_bytes (size : Z) (old : list Z) : list Z := resize (Z.to_nat size) 0 old.

(** From [s] to [s'] the file [i] became [x'] and nothing else changed for
    anybody. *)
Record file_step s s' i x x' : Prop := {
  fs_inodes : inodes s' = <[i := x']> (inodes s);
  fs_node : node_of x' = node_of x;
  fs_type : m_type x' = m_type x;
  fs_rest : filesystems s' = filesystems s /\ s_mounts s' = s_mounts s /\ s_root_filesystem s' = s_root_filesystem s /\ now s' = now s;
  fs_files : files_ok s';
  fs_else : forall j y, j <> i -> inodes s !! j = Some y -> class y = TmpfsInode -> contents (mem s') (file_of y) = contents (mem s) (file_of y);
}.

Lemma contents_lookup m (f : File) n : contents m f !! n = (if decide (Z.of_nat n < f_size f) then Some (byte_of m f (Z.of_nat n)) else None).
Proof.
  unfold contents. rewrite list_lookup_fmap. case_decide.
  - rewrite lookup_seqZ_lt by lia. cbn. by replace (0 + Z.of_nat n) with (Z.of_nat n) by lia.
  - by rewrite lookup_seqZ_ge by lia.
Qed.

Lemma length_contents m (f : File) : length (contents m f) = Z.to_nat (f_size f).
Proof. unfold contents. by rewrite length_fmap, length_seqZ. Qed.

Lemma resize_lookup (l : list Z) n k : resize n 0 l !! k = (if decide (k < n)%nat then Some (default 0 (l !! k)) else None).
Proof.
  case_decide as D; [|apply lookup_resize_old; lia]. destruct (l !! k) as [v|] eqn:E.
  - rewrite lookup_resize; [done|lia|by apply lookup_lt_Some in E].
  - apply lookup_ge_None in E. rewrite lookup_resize_new; [done|lia|lia].
Qed.

Lemma overlay_lookup offset (input old : list Z) k : 0 <= offset -> overlay offset input old !! k =
  (if decide (Z.of_nat k < offset) then Some (default 0 (old !! k))
   else if decide (Z.of_nat k < offset + zlen input) then input !! (k - Z.to_nat offset)%nat else old !! k).
Proof.
  intros Ho. unfold overlay, zlen. case_decide.
  - rewrite lookup_app_l by (rewrite length_resize; lia). rewrite resize_lookup, decide_True by lia. done.
  - rewrite lookup_app_r, length_resize by (rewrite length_resize; lia). case_decide.
    + by rewrite lookup_app_l by lia.
    + rewrite lookup_app_r by lia. rewrite lookup_drop. f_equal. lia.
Qed.

(** A write into pages that are there. *)
Lemma wrote_contents m m' (f f' : File) offset input : f_pages f' = f_pages f -> 0 <= offset -> input <> [] -> 0 <= f_size f <= capacity f ->
  offset + zlen input <= capacity f -> f_size f' = Z.max (f_size f) (offset + zlen input) -> wrote m m' f offset input ->
  (forall k, f_size f <= k < capacity f -> byte_of m f k = 0) ->
  contents m' f' = overlay offset input (contents m f) /\ forall k, f_size f' <= k < capacity f' -> byte_of m' f' k = 0.
Proof.
  intros Hp Ho Hi Hs Hc Hf W Hz.
  assert (Hb : forall k, byte_of m' f' k = byte_of m' f k) by (intros; unfold byte_of; by rewrite Hp).
  assert (Hcap : capacity f' = capacity f) by (unfold capacity; by rewrite Hp). split.
  - pose proof (zlen_nonneg input). apply list_eq. intros n. rewrite contents_lookup, overlay_lookup, Hf by done. rewrite !contents_lookup.
    destruct (decide (Z.of_nat n < Z.max (f_size f) (offset + zlen input))) as [D|D]; repeat case_decide; try lia.
    + rewrite Hb, (wr_bytes _ _ _ _ _ W), decide_False by lia. done.
    + rewrite Hb, (wr_bytes _ _ _ _ _ W), decide_False by lia. f_equal. cbn. apply Hz. lia.
    + rewrite Hb, (wr_bytes _ _ _ _ _ W), decide_True by lia. unfold zget. replace (Z.to_nat (Z.of_nat n - offset)) with (n - Z.to_nat offset)%nat by lia.
      destruct (lookup_lt_is_Some_2 input (n - Z.to_nat offset)) as [v ->]; [unfold zlen in *; lia|done].
    + rewrite Hb, (wr_bytes _ _ _ _ _ W), decide_False by lia. done.
    + done.
  - intros k Hk. rewrite Hb, (wr_bytes _ _ _ _ _ W), decide_False by lia. apply Hz. lia.
Qed.

Lemma in_place s i x x' m' : files_ok s -> inodes s !! i = Some x -> class x = TmpfsInode -> class x' = class x -> m_pages x' = m_pages x ->
  0 <= m_size x' <= capacity (file_of x) -> m_size x' < 2 ^ 63 ->
  (forall a, (forall p, p ∈ m_pages x -> ~ p <= a < p + PAGE_SIZE) -> m' a = mem s a) ->
  (forall k, m_size x' <= k < capacity (file_of x) -> byte_of m' (file_of x') k = 0) ->
  files_ok (with_file (frames s) m' i x' s)
  /\ forall j y, j <> i -> inodes s !! j = Some y -> class y = TmpfsInode -> contents m' (file_of y) = contents (mem s) (file_of y).
Proof.
  intros [H Hz] Hx Hc Hc' Hp Hs Hs3 Hm Hz'. pose proof (files_lookup s i x Hx) as Hf.
  assert (Hby : forall j g k, j <> i -> files s !! j = Some g -> 0 <= k < capacity g -> byte_of m' g k = byte_of (mem s) g k).
  { intros j g k Hj Hg Hk. unfold byte_of. apply Hm. intros p Hpx Ha. pose proof (page_elem g k Hk) as Hin. apply Hj.
    set (q := zget 0 (f_pages g) (k / PAGE_SIZE)) in *. pose proof (Z.mod_pos_bound k PAGE_SIZE ltac:(done)).
    assert (q = p) as <- by (apply (frames_apart (frames s) q p (q + k mod PAGE_SIZE) (q + k mod PAGE_SIZE) (p_frames _ _ H) (p_owned _ _ H j g _ Hg Hin) (p_owned _ _ H i _ p Hf Hpx)); [lia|done|done]).
    by apply (p_apart _ _ H j i g (file_of x) q Hg Hf). }
  assert (Hcap : capacity (file_of x') = capacity (file_of x)) by (unfold capacity; cbn; by rewrite Hp).
  split; [split; rewrite files_with; cbn [frames mem with_file]|].
  - replace (m_pages x) with (take (length (m_pages x)) (m_pages x)) in Hp by (by rewrite firstn_all).
    apply (pages_ok_shrink (frames s) (frames s) (files s) i (file_of x) (file_of x') (length (m_pages x))); try done; [by rewrite Hcap|apply H|].
    intros b. cbn. rewrite drop_all. split; [|tauto]. intros Hb. split; [done|apply not_elem_of_nil].
  - intros j g k Hg Hcl Hk. apply lookup_insert_Some in Hg as [[<- <-]|[Hne Hg]]; [apply Hz'; by rewrite <- Hcap|].
    destruct (p_size _ _ H j g Hg Hcl). rewrite (Hby j g k) by (done || lia). by apply (Hz j g k).
  - intros j y Hj Hy Hcy. pose proof (files_lookup s j y Hy) as Hfy. destruct (p_size _ _ H j _ Hfy Hcy). apply contents_eq; [done|]. intros k Hk. apply (Hby j); [done|done|lia].
Qed.

Lemma contents_app m (f : File) new : f_size f <= capacity f -> contents m (mkFile (f_class f) (f_pages f ++ new) (f_size f)) = contents m f.
Proof. intros Hs. apply contents_eq; [done|]. intros k Hk. cbn in Hk. apply byte_of_app. lia. Qed.

(** The file after it has been given pages: same bytes, more room. *)
Lemma grew_step s i x new fr m : files_ok s -> inodes s !! i = Some x -> class x = TmpfsInode -> grew s new fr m ->
  let x1 := with_pages (m_pages x ++ new) x in
  contents m (file_of x1) = contents (mem s) (file_of x) /\ file_step s (with_file fr m i x1 s) i x x1.
Proof.
  intros Hs Hx Hc G x1. pose proof (files_lookup s i x Hx) as Hf. destruct Hs as [H Hz]. destruct (p_size _ _ H i _ Hf Hc) as [Hs1 Hs2]. split.
  - trans (contents m (file_of x)); [apply (contents_app m (file_of x)); lia|]. by apply (contents_keep (frames s) (files s) (mem s) m i _ H (gr_keep _ _ _ _ G)).
  - split; try done; [by apply grew_files_ok|]. intros j y Hj Hy Hcy.
    by apply (contents_keep (frames s) (files s) (mem s) m j _ H (gr_keep _ _ _ _ G) (files_lookup s j y Hy)).
Qed.

Lemma file_step_trans s s1 s2 i x x1 x2 : file_step s s1 i x x1 -> file_step s1 s2 i x1 x2 -> file_step s s2 i x x2.
Proof.
  intros S1 S2. destruct (fs_rest _ _ _ _ _ S1) as (A1 & A2 & A3 & A4), (fs_rest _ _ _ _ _ S2) as (B1 & B2 & B3 & B4). split.
  - by rewrite (fs_inodes _ _ _ _ _ S2), (fs_inodes _ _ _ _ _ S1), insert_insert_eq.
  - by rewrite (fs_node _ _ _ _ _ S2), (fs_node _ _ _ _ _ S1).
  - by rewrite (fs_type _ _ _ _ _ S2), (fs_type _ _ _ _ _ S1).
  - split_and!; congruence.
  - apply S2.
  - intros j y Hj Hy Hc. rewrite (fs_else _ _ _ _ _ S2 j y Hj); [by apply (fs_else _ _ _ _ _ S1 j y)| |done]. rewrite (fs_inodes _ _ _ _ _ S1). by rewrite lookup_insert_ne.
Qed.

Lemma gave_up_step s i x s' : files_ok s -> inodes s !! i = Some x -> class x = TmpfsInode -> gave_up s i x s' ->
  exists x', file_step s s' i x x' /\ contents (mem s') (file_of x') = contents (mem s) (file_of x).
Proof.
  intros Hs Hx Hc G. destruct (gave_up_ok s i x s' Hs Hx Hc G) as (Hok & (x' & Hx' & Hcx) & He). destruct G as (fr & m & -> & _).
  exists x'. split; [|done]. cbn in Hx'. rewrite lookup_insert_eq in Hx'. injection Hx' as <-. split; try done. intros j y Hj Hy. by apply (He j y Hj Hy).
Qed.

Lemma write_at h s i x offset input : files_ok s -> inodes s !! i = Some x -> class x = TmpfsInode -> is_directory x = false ->
  0 <= offset -> input <> [] -> offset + zlen input < 2 ^ 63 ->
  match tmpfs_write h i offset input s with
  | (Ok n, s') => n = zlen input /\ exists x', file_step s s' i x x' /\ contents (mem s') (file_of x') = overlay offset input (contents (mem s) (file_of x))
  | (Err e, s') => e = ENOMEM /\ exists x', file_step s s' i x x' /\ contents (mem s') (file_of x') = contents (mem s) (file_of x)
  | (Panic, _) => False
  end.
Proof.
  intros Hs Hx Hc Hd Ho Hi Hb. assert (Hl : 0 < zlen input) by (destruct input; [done|unfold zlen; cbn; lia]).
  unfold tmpfs_write. rewrite (try_deref i x), Hd by done. destruct (Z.eqb_spec (zlen input) 0); [lia|]. rewrite (u64_small (offset + zlen input)) by (unfold is_u64; lia).
  pose proof (ensure_at h s i x (offset + zlen input) Hs Hx Hc ltac:(lia)) as He. unfold mtry at 1.
  destruct (ensure_pages h i (offset + zlen input) s) as [[u|e|] s1]; [| |done].
  2: { destruct He as [-> G]. split; [done|]. by apply gave_up_step. }
  destruct He as (new & fr & m & -> & Hcap & G). destruct (grew_step s i x new fr m Hs Hx Hc G) as [C1 S1]. cbv zeta in C1, S1.
  set (x1 := with_pages (m_pages x ++ new) x) in *. set (s1 := with_file fr m i x1 s) in *.
  assert (Hx1 : inodes s1 !! i = Some x1) by apply with_file_eq. pose proof (fs_files _ _ _ _ _ S1) as Hs1.
  assert (Hcap1 : offset + zlen input <= capacity (file_of x1)) by (unfold capacity, x1, zlen in *; cbn [file_of f_pages m_pages with_pages]; rewrite length_app; lia).
  pose proof Hs1 as [H1 Hz1]. pose proof (files_lookup s1 i x1 Hx1) as Hf1. destruct (p_size _ _ H1 i _ Hf1 Hc) as [Hz2 Hz3].
  rewrite (try_deref i x1) by done.
  destruct (write_pages_at x1 offset input Ho Hcap1 Hb (copy_fuel (zlen input)) 0 s1) as (m' & E & W).
  { apply H1. } { apply (p_nodup _ _ H1 i _ Hf1). } { intros p. apply (p_owned _ _ H1 i _ p Hf1). } { lia. }
  { rewrite Z.sub_0_r. apply enough_start; [lia|unfold PAGE_SIZE; zlia]. }
  rewrite Z.add_0_r in W. cbn [drop Z.to_nat] in W. rewrite (mtry_ok _ _ _ _ _ E). rewrite (try_modify i x1) by done. rewrite (try_touch i (with_size (Z.max (m_size x1) (offset + zlen input)) x1)) by apply set_inode_eq.
  unfold mok. split; [done|]. rewrite set_inode_twice. set (x' := touched _ _). exists x'.
  destruct (wrote_contents m m' (file_of x1) (file_of x') offset input) as [C2 Z2]; try done.
  { intros k Hk. by apply (Hz1 i _ k Hf1). }
  destruct (in_place s1 i x1 x' m' Hs1 Hx1 Hc eq_refl eq_refl) as [Hok He]; [cbn in *; lia|cbn in *; lia|exact (wr_else _ _ _ _ _ W)|exact Z2|].
  split; [|by rewrite <- C1]. apply (file_step_trans _ s1 _ i x x1 x' S1). by split.
Qed.

(** *** truncate *)

Lemma clear_store a n m z : 0 <= n -> clear a n m z = mem_store a (replicate (Z.to_nat n) 0) m z.
Proof.
  intros Hn. unfold clear, mem_store. assert (El : zlen (replicate (Z.to_nat n) 0) = n) by (unfold zlen; rewrite length_replicate; lia). rewrite El.
  destruct (Z.leb_spec a z), (Z.ltb_spec z (a + n)); cbn; try done. unfold zget. by rewrite lookup_replicate_2 by lia.
Qed.

Lemma wrote_ext m m1 m2 (f : File) offset l : (forall z, m2 z = m1 z) -> wrote m m1 f offset l -> wrote m m2 f offset l.
Proof.
  intros E W. split; [|intros; rewrite E; by apply W]. intros k Hk. rewrite <- (wr_bytes _ _ _ _ _ W k Hk). unfold byte_of. apply E.
Qed.

Lemma resized_grow m (f : File) (f' : File) : f_pages f' = f_pages f -> f_size f <= f_size f' <= capacity f -> (forall k, f_size f <= k < capacity f -> byte_of m f k = 0) ->
  contents m f' = resized_bytes (f_size f') (contents m f) /\ forall k, f_size f' <= k < capacity f -> byte_of m f' k = 0.
Proof.
  intros Hp Hs Hz. assert (Hb : forall k, byte_of m f' k = byte_of m f k) by (intros; unfold byte_of; by rewrite Hp). split.
  - apply list_eq. intros n. rewrite contents_lookup. unfold resized_bytes. rewrite resize_lookup, contents_lookup. repeat case_decide; try lia; cbn; [by rewrite Hb|rewrite Hb, Hz by lia; done|done].
  - intros k Hk. rewrite Hb. apply Hz. lia.
Qed.

(** The tail of the last page kept is cleared. *)
Definition cut_memory s x size : Z -> Z :=
  let within := size mod PAGE_SIZE in
  if negb (within =? 0) && (0 <? pages_for size) then clear (zget 0 (m_pages x) (pages_for size - 1) + within) (PAGE_SIZE - within) (mem s) else mem s.

Lemma cut_run s x size : 0 <= size < m_size x -> m_size x <= capacity (file_of x) -> m_size x < 2 ^ 63 -> forall A (k : unit -> M Vfs A),
  mtry (let within := size mod PAGE_SIZE in
        if negb (within =? 0) && (0 <? pages_for size)
        then let! page := page_at x ((pages_for size - 1) * PAGE_SIZE) in mmod (upd_mem (clear (page + within) (PAGE_SIZE - within))) else mok tt) k s
  = k tt (with_memory (frames s) (cut_memory s x size) s).
Proof.
  intros Hs Hc Hb A k. unfold cut_memory. cbv zeta. destruct (pages_for_spec size ltac:(lia)) as (P1 & P2 & P3).
  destruct (negb _ && _) eqn:E; [|rewrite mtry_mok; by destruct s]. apply andb_true_iff in E as [_ E]. apply Z.ltb_lt in E.
  unfold mtry at 1. rewrite (mtry_ok _ _ _ _ _ (page_at_ok x ((pages_for size - 1) * PAGE_SIZE) s ltac:(unfold PAGE_SIZE in *; lia))). rewrite Z.div_mul by done. done.
Qed.

Lemma cut_wrote s i x size : files_ok s -> inodes s !! i = Some x -> class x = TmpfsInode -> 0 <= size < m_size x ->
  (forall a, (forall p, p ∈ m_pages x -> ~ p <= a < p + PAGE_SIZE) -> cut_memory s x size a = mem s a)
  /\ (forall k, 0 <= k < capacity (file_of x) -> byte_of (cut_memory s x size) (file_of x) k = (if decide (size <= k < pages_for size * PAGE_SIZE) then 0 else byte_of (mem s) (file_of x) k)).
Proof.
  intros [H Hz] Hx Hc Hs. pose proof (files_lookup s i x Hx) as Hf. destruct (p_size _ _ H i _ Hf Hc) as [Hs1 Hs2]. cbn in Hs1, Hs2.
  destruct (pages_for_spec size ltac:(lia)) as (P1 & P2 & P3). unfold cut_memory. cbv zeta. destruct (negb _ && _) eqn:E.
  - apply andb_true_iff in E as [E1 E2]. apply negb_true_iff, Z.eqb_neq in E1. apply Z.ltb_lt in E2.
    assert (Ep : pages_for size - 1 = size / PAGE_SIZE) by (unfold PAGE_SIZE in *; zlia). rewrite Ep.
    set (l := replicate (Z.to_nat (PAGE_SIZE - size mod PAGE_SIZE)) 0). assert (Hl : zlen l = PAGE_SIZE - size mod PAGE_SIZE) by (unfold l, zlen, PAGE_SIZE; rewrite length_replicate; zlia).
    assert (W : wrote (mem s) (clear (zget 0 (m_pages x) (size / PAGE_SIZE) + size mod PAGE_SIZE) (PAGE_SIZE - size mod PAGE_SIZE) (mem s)) (file_of x) size l).
    { eapply wrote_ext; [intros z; apply clear_store; unfold PAGE_SIZE; zlia|]. apply (store_run (frames s) (mem s) (file_of x) size l); [apply H|apply (p_nodup _ _ H i _ Hf)|intros p; apply (p_owned _ _ H i _ p Hf)|lia|lia]. }
    split; [exact (wr_else _ _ _ _ _ W)|]. intros k Hk. rewrite (wr_bytes _ _ _ _ _ W k Hk), Hl. unfold PAGE_SIZE in *. repeat case_decide; try done; try zlia.
    unfold zget, l. by rewrite lookup_replicate_2 by zlia.
  - split; [done|]. intros k Hk. rewrite decide_False; [done|]. apply andb_false_iff in E as [E|E].
    + apply negb_false_iff, Z.eqb_eq in E. unfold PAGE_SIZE in *. zlia.
    + apply Z.ltb_ge in E. unfold PAGE_SIZE in *. lia.
Qed.

Lemma truncate_at h s i x size : files_ok s -> inodes s !! i = Some x -> class x = TmpfsInode -> is_directory x = false -> 0 <= size < 2 ^ 63 ->
  match tmpfs_truncate h i size s with
  | (Ok _, s') => exists x', file_step s s' i x x' /\ contents (mem s') (file_of x') = resized_bytes size (contents (mem s) (file_of x))
      /\ forall p, p ∈ drop (Z.to_nat (pages_for size)) (m_pages x) -> size < m_size x -> ~ fa_owned (frames s') p
  | (Err e, s') => e = ENOMEM /\ m_size x < size /\ exists x', file_step s s' i x x' /\ contents (mem s') (file_of x') = contents (mem s) (file_of x)
  | (Panic, _) => False
  end.
Proof.
  intros Hs Hx Hc Hd Hsz. pose proof Hs as [H Hz]. pose proof (files_lookup s i x Hx) as Hf. destruct (p_size _ _ H i _ Hf Hc) as [Hs1 Hs2]. cbn [file_of f_size] in Hs1, Hs2.
  unfold tmpfs_truncate. rewrite (try_deref i x), Hd by done. destruct (Z.ltb_spec (m_size x) size) as [Hlt|Hge].
  - unfold mtry at 1. pose proof (ensure_at h s i x size Hs Hx Hc Hsz) as He. destruct (ensure_pages h i size s) as [[u|e|] s1]; [| |done].
    2: { destruct He as [-> G]. split_and!; [done|done|]. by apply gave_up_step. }
    destruct He as (new & fr & m & -> & Hcap & G). destruct (grew_step s i x new fr m Hs Hx Hc G) as [C1 S1]. cbv zeta in C1, S1.
    set (x1 := with_pages (m_pages x ++ new) x) in *. set (s1 := with_file fr m i x1 s) in *. pose proof (fs_files _ _ _ _ _ S1) as Hok1.
    assert (Hx1 : inodes s1 !! i = Some x1) by apply with_file_eq.
    assert (Hcap1 : size <= capacity (file_of x1)) by (unfold capacity, x1, zlen in *; cbn [file_of f_pages m_pages with_pages]; rewrite length_app; lia).
    rewrite (try_modify i x1), (touch_ok i (with_size size x1)) by (done || apply set_inode_eq). rewrite set_inode_twice. set (x' := touched _ _). exists x'.
    destruct (resized_grow m (file_of x1) (file_of x')) as [C2 Z2]; [done|cbn in *; lia|intros k Hk; by apply (proj2 Hok1 i _ k (files_lookup s1 i x1 Hx1))|].
    destruct (in_place s1 i x1 x' m Hok1 Hx1 Hc eq_refl eq_refl) as [Hok He]; [cbn in *; lia|cbn in *; lia|done|exact Z2|].
    split_and!; [|by rewrite <- C1|lia]. apply (file_step_trans _ s1 _ i x x1 x' S1). by split.
  - destruct (Z.ltb_spec size (m_size x)) as [Hlt|Hge'].
    + unfold mtry at 1. destruct (cut_wrote s i x size Hs Hx Hc ltac:(lia)) as [Cm Cb]. destruct (pages_for_spec size ltac:(lia)) as (P1 & P2 & P3).
      set (s1 := with_memory (frames s) (cut_memory s x size) s).
      assert (Hs1' : files_ok s1).
      { destruct (in_place s i x x (cut_memory s x size) Hs Hx Hc eq_refl eq_refl) as [Hok _]; [done|done|done| |by replace s1 with (with_file (frames s) (cut_memory s x size) i x s) by (unfold with_file, s1, with_memory; by rewrite insert_id)].
        intros k Hk. rewrite Cb by lia. case_decide; [done|]. by apply (Hz i _ k Hf Hc). }
      destruct (release_at s1 i x (pages_for size) Hs1' Hx P1) as (fr & E & Hok & Ho). cbv zeta. rewrite cut_run by lia. fold s1. rewrite E. cbv iota beta.
      set (x1 := with_pages (take (Z.to_nat (pages_for size)) (m_pages x)) x) in *. rewrite (try_modify i x1), (touch_ok i (with_size size x1)) by apply with_file_eq || apply set_inode_eq. rewrite set_inode_twice.
      set (x' := touched _ _). exists x'.
      assert (Hpl : pages_for size <= zlen (m_pages x)) by (unfold capacity, PAGE_SIZE in *; cbn in Hs1; lia).
      assert (Hcap : capacity (file_of x') = pages_for size * PAGE_SIZE) by (unfold capacity; change (f_pages (file_of x')) with (take (Z.to_nat (pages_for size)) (m_pages x)); unfold zlen in *; rewrite length_take; f_equal; lia).
      assert (Hby : forall k, 0 <= k < capacity (file_of x') -> byte_of (cut_memory s x size) (file_of x') k = if decide (size <= k) then 0 else byte_of (mem s) (file_of x) k).
      { intros k Hk. rewrite Hcap in Hk. trans (byte_of (cut_memory s x size) (file_of x) k).
        - unfold byte_of, zget, x', x1. cbn. rewrite lookup_take_lt; [done|]. unfold PAGE_SIZE in *. zlia.
        - rewrite Cb by (unfold capacity, PAGE_SIZE in *; cbn in *; lia). repeat case_decide; try lia; done. }
      split_and!.
      * split; try done; [cbn; by rewrite insert_insert_eq|split|].
        -- rewrite files_set, files_with, insert_insert_eq. cbn [frames with_file set_inode set_inodes].
           apply (pages_ok_shrink (frames s) fr (files s) i (file_of x) (file_of x') (Z.to_nat (pages_for size))); try done. intros _. rewrite Hcap. cbn. lia.
        -- rewrite files_set, files_with, insert_insert_eq. intros j g k Hg Hcl Hk. apply lookup_insert_Some in Hg as [[<- <-]|[Hne Hg]].
           ++ cbn [mem set_inode set_inodes with_file s1 with_memory]. cbn in Hk. rewrite Hby, decide_True by (cbn in *; lia). done.
           ++ apply (proj2 Hs1' j g k Hg Hcl Hk).
        -- intros j y Hj Hy Hcy. destruct (in_place s i x x (cut_memory s x size) Hs Hx Hc eq_refl eq_refl) as [_ He]; [done|done|done| |by apply (He j y)].
           intros k Hk. rewrite Cb by lia. case_decide; [done|]. by apply (Hz i _ k Hf Hc).
      * cbn [mem set_inode set_inodes with_file s1 with_memory]. apply list_eq. intros n. unfold resized_bytes. rewrite contents_lookup, resize_lookup, contents_lookup. cbn [file_of f_size x' touched with_size m_size].
        repeat case_decide; try lia; [|done]. cbn. rewrite Hby, decide_False by (rewrite ?Hcap; lia). done.
      * intros p Hp _ Hown. cbn in Hown. apply Ho in Hown as [_ Hown]. done.
    + assert (size = m_size x) as -> by lia. rewrite mtry_mok. rewrite (try_modify i x), (touch_ok i (with_size (m_size x) x)) by (done || apply set_inode_eq). rewrite set_inode_twice.
      set (x' := touched _ _). exists x'. destruct (in_place s i x x' (mem s) Hs Hx Hc eq_refl eq_refl) as [Hok He]; [cbn; lia|cbn; lia|done|intros k Hk; by apply (Hz i _ k Hf Hc)|].
      split_and!; [by split| |lia]. unfold resized_bytes. rewrite resize_all_alt; [done|]. by rewrite length_contents.
Qed.
End Files.
