(* ===== verification/VfsTree.v ===== *)
(** * The file tree stays a tree

    The invariant of the whole file system, and that the operations on names keep
    it: the inodes form the trees of Trees.v, their pages are those of Tmpfs.v, and
    no operation follows a pointer to an inode that has been freed. *)

From S2P Require Import Prelude Kstd Physical Pipe Files Paths Vfs Trees Tmpfs.

Section VfsTree.
Context {F : Type} {FA : FrameAllocator F}.
Implicit Types (s : @Vfs F) (x y : Inode) (R held : list Z).

Definition tree s : gmap Z Node := node_of <$> inodes s.

(** The references of the mount table. *)
Definition mount_refs s : list Z := filter (fun i => i <> 0) (covered <$> s_mounts s).

(** The initial ramdisk is mounted first, on nothing, and other file systems on
    directories of it, as at boot. *)
Definition mounts_ok (mounts : list MountEntry) (root : Z) : Prop :=
  NoDup (filesystem <$> mounts) /\ NoDup (covered <$> mounts)
  /\ exists path rest, mounts = mkMount 0 root path :: rest.

(** Every inode is of its file system's class, and every file system has its root. *)
Record fs_base (T : gmap Z Node) (fss : gmap Z FileSystem) : Prop := {
  b_fs : forall i n, T !! i = Some n -> exists f, fss !! n_fs n = Some f /\ fs_class f = n_class n;
  b_root : forall k f, fss !! k = Some f -> exists n, T !! m_root f = Some n /\ n_parent n = 0 /\ n_unlinked n = false /\ n_dir n = true /\ n_fs n = k;
}.

(** The same with what the mount table says. *)
Record fs_ok (T : gmap Z Node) (fss : gmap Z FileSystem) (mounts : list MountEntry) (root : Z) : Prop := {
  mo_base : fs_base T fss;
  mo_rootfs : root <> 0 /\ is_Some (fss !! root);
  mo_entries : forall e, e ∈ mounts -> is_Some (fss !! filesystem e);
  mo_covers : forall e, e ∈ mounts -> covered e <> 0 -> exists n, T !! covered e = Some n /\ n_class n = UstarInode /\ n_parent n <> 0 /\ n_fs n = root;
  mo_mounts : mounts_ok mounts root;
}.

Record vfs_inv s held : Prop := {
  v_files : files_ok s;
  v_tree : tree_ok (tree s) (held ++ mount_refs s);
  v_fs : fs_ok (tree s) (filesystems s) (s_mounts s) (s_root_filesystem s);
}.

(** File systems that differ in the next inode number only. *)
Definition same_fss (fss fss' : gmap Z FileSystem) : Prop := forall k, (fun f => (fs_class f, m_root f)) <$> fss' !! k = (fun f => (fs_class f, m_root f)) <$> fss !! k.

(** Nothing happened to the mounts or to the contents of a file. *)
Record quiet s s' : Prop := {
  q_mounts : s_mounts s' = s_mounts s;
  q_root : s_root_filesystem s' = s_root_filesystem s;
  q_fss : same_fss (filesystems s) (filesystems s');
  q_contents : forall j y y', inodes s !! j = Some y -> inodes s' !! j = Some y' -> class y = TmpfsInode ->
    class y' = TmpfsInode /\ contents (mem s') (file_of y') = contents (mem s) (file_of y);
}.

(** ** The tree of a state *)

Lemma tree_lookup s i x : inodes s !! i = Some x -> tree s !! i = Some (node_of x).
Proof. unfold tree. rewrite lookup_fmap. by intros ->. Qed.

Lemma tree_lookup_inv s i n : tree s !! i = Some n -> exists x, inodes s !! i = Some x /\ n = node_of x.
Proof. unfold tree. rewrite lookup_fmap. destruct (inodes s !! i) as [x|]; [|done]. intros [= <-]. by exists x. Qed.

Lemma tree_live s i : is_Some (tree s !! i) <-> is_Some (inodes s !! i).
Proof. unfold tree. by rewrite lookup_fmap, fmap_is_Some. Qed.

Lemma tree_set i x s : tree (set_inode i x s) = <[i := node_of x]> (tree s).
Proof. unfold tree, set_inode, set_inodes. cbn. by rewrite fmap_insert. Qed.

Lemma tree_set_same i x y s : inodes s !! i = Some y -> node_of x = node_of y -> tree (set_inode i x s) = tree s.
Proof. intros Hy E. rewrite tree_set, E. apply insert_id. by apply tree_lookup. Qed.

Lemma tree_delete i s : tree (set_inodes (delete i) s) = delete i (tree s).
Proof. unfold tree, set_inodes. cbn. by rewrite fmap_delete. Qed.

(** Trees one of which comes from the other by operations on names. *)
Definition evolves (T T' : gmap Z Node) : Prop :=
  (forall i n', T' !! i = Some n' -> exists j n, T !! j = Some n /\ n_fs n' = n_fs n /\ n_class n' = n_class n)
  /\ (forall i n, T !! i = Some n -> n_parent n = 0 -> n_unlinked n = false ->
        exists n', T' !! i = Some n' /\ n_parent n' = 0 /\ n_unlinked n' = false /\ n_dir n' = n_dir n /\ n_fs n' = n_fs n)
  /\ (forall i n, T !! i = Some n -> n_class n = UstarInode -> n_parent n <> 0 ->
        exists n', T' !! i = Some n' /\ n_class n' = UstarInode /\ n_parent n' = n_parent n /\ n_fs n' = n_fs n).

Lemma evolves_refl T : evolves T T.
Proof. split_and!; [intros i n Hn; by exists i, n|intros i n Hn Hp Hu; by exists n|intros i n Hn Hp Hu; by exists n]. Qed.

Lemma evolves_trans T T1 T2 : evolves T T1 -> evolves T1 T2 -> evolves T T2.
Proof.
  intros (A1 & B1 & C1) (A2 & B2 & C2). split_and!.
  - intros i n2 H2. destruct (A2 i n2 H2) as (j & n1 & H1 & E1 & E2). destruct (A1 j n1 H1) as (k & n & H & E3 & E4). exists k, n. split_and!; congruence.
  - intros i n Hn Hp Hu. destruct (B1 i n Hn Hp Hu) as (n1 & H1 & P1 & U1 & D1 & F1). destruct (B2 i n1 H1 P1 U1) as (n2 & H2 & P2 & U2 & D2 & F2).
    exists n2. split_and!; congruence.
  - intros i n Hn Hc Hp. destruct (C1 i n Hn Hc Hp) as (n1 & H1 & K1 & P1 & F1). destruct (C2 i n1 H1 K1 ltac:(congruence)) as (n2 & H2 & K2 & P2 & F2).
    exists n2. split_and!; congruence.
Qed.

Lemma same_fss_to fss fss' k f : same_fss fss fss' -> fss !! k = Some f -> exists f', fss' !! k = Some f' /\ fs_class f' = fs_class f /\ m_root f' = m_root f.
Proof. intros Hk E. specialize (Hk k). rewrite E in Hk. destruct (fss' !! k) as [f'|]; [|done]. exists f'. injection Hk. done. Qed.

Lemma same_fss_from fss fss' k f' : same_fss fss fss' -> fss' !! k = Some f' -> exists f, fss !! k = Some f /\ fs_class f' = fs_class f /\ m_root f' = m_root f.
Proof. intros Hk E. specialize (Hk k). rewrite E in Hk. destruct (fss !! k) as [f|]; [|done]. exists f. injection Hk. done. Qed.

Lemma evolves_base T T' fss fss' : evolves T T' -> same_fss fss fss' -> fs_base T fss -> fs_base T' fss'.
Proof.
  intros (A & B & C) Hk H. split.
  - intros i n' Hn'. destruct (A i n' Hn') as (j & n & Hn & E1 & E2). destruct (b_fs _ _ H j n Hn) as (f & Hff & Hc).
    destruct (same_fss_to _ _ _ f Hk Hff) as (f' & ? & ? & _). exists f'. rewrite E1, E2. split; [done|congruence].
  - intros k f' Hf'. destruct (same_fss_from _ _ k f' Hk Hf') as (f & Hff & _ & E). destruct (b_root _ _ H k f Hff) as (n & Hn & Hp & Hu & Hd & Hs).
    destruct (B _ n Hn Hp Hu) as (n' & ? & ? & ? & ? & ?). exists n'. rewrite E. split_and!; congruence.
Qed.

Lemma evolves_fs T T' fss fss' mounts root : evolves T T' -> same_fss fss fss' -> fs_ok T fss mounts root -> fs_ok T' fss' mounts root.
Proof.
  intros He Hk H. pose proof He as (_ & _ & C). split.
  - by apply (evolves_base T T' fss); [..|apply H].
  - destruct (mo_rootfs _ _ _ _ H) as [? [f Hff]]. split; [done|]. destruct (same_fss_to _ _ _ f Hk Hff) as (f' & ? & _). by exists f'.
  - intros e Hin. destruct (mo_entries _ _ _ _ H e Hin) as [f Hff]. destruct (same_fss_to _ _ _ f Hk Hff) as (f' & ? & _). by exists f'.
  - intros e Hin Hc. destruct (mo_covers _ _ _ _ H e Hin Hc) as (n & Hn & Hk1 & Hp & Hs). destruct (C _ n Hn Hk1 Hp) as (n' & ? & ? & ? & ?).
    exists n'. split_and!; congruence.
  - apply H.
Qed.

Lemma evolves_shape T T' : same_shape T T' -> evolves T T'.
Proof.
  intros H. split_and!.
  - intros i n' Hn'. destruct (same_shape_lookup T T' i n' H Hn') as (n & z & Hn & ->). by exists i, n.
  - intros i n Hn Hp Hu. destruct (same_shape_lookup T' T i n (same_shape_sym _ _ H) Hn) as (n' & z & Hn' & ->). by exists n'.
  - intros i n Hn Hp Hu. destruct (same_shape_lookup T' T i n (same_shape_sym _ _ H) Hn) as (n' & z & Hn' & ->). by exists n'.
Qed.

Lemma evolves_delete T i n : T !! i = Some n -> n_unlinked n = true -> n_parent n = 0 -> evolves T (delete i T).
Proof.
  intros Hn Hu Hp0. split_and!.
  - intros j m Hm. apply lookup_delete_Some in Hm as [_ Hm]. by exists j, m.
  - intros j m Hm Hp Hu'. exists m. rewrite lookup_delete_ne by congruence. done.
  - intros j m Hm Hc Hp. exists m. rewrite lookup_delete_ne by congruence. done.
Qed.

Lemma evolves_relink T T' c d e name m : node_relinked T T' c d e name -> T !! c = Some m -> n_parent m <> 0 -> n_class m <> UstarInode -> evolves T T'.
Proof.
  intros Hr Hm Hp Hcl. split_and!.
  - intros i n' Hn'. destruct (rl_back _ _ _ _ _ _ Hr i n' Hn') as (n & Hn & _ & _ & Ef & Ec & _). by exists i, n.
  - intros i n Hn Hp0 Hu. destruct (proj2 (rl_live _ _ _ _ _ _ Hr i) (ex_intro _ n Hn)) as [n' Hn']. exists n'.
    destruct (rl_back _ _ _ _ _ _ Hr i n' Hn') as (n0 & Hn0 & E1 & E2 & E3 & E4 & E5 & E6 & E7 & _). rewrite Hn in Hn0. injection Hn0 as <-.
    assert (Hic : i <> c) by congruence. rewrite decide_False in E5 by done. rewrite decide_False in E7 by (intros [? _]; done). split_and!; congruence.
  - intros i n Hn Hc Hp0. destruct (proj2 (rl_live _ _ _ _ _ _ Hr i) (ex_intro _ n Hn)) as [n' Hn']. exists n'.
    destruct (rl_back _ _ _ _ _ _ Hr i n' Hn') as (n0 & Hn0 & E1 & E2 & E3 & E4 & E5 & _). rewrite Hn in Hn0. injection Hn0 as <-.
    assert (Hic : i <> c) by congruence. rewrite decide_False in E5 by done. split_and!; congruence.
Qed.

Lemma evolves_add T d dn c name dir : T !! d = Some dn -> T !! c = None ->
  evolves T (alter (n_append c) d (<[c := mkNode d [] name dir false 1 (n_fs dn) (n_class dn)]> T)).
Proof.
  intros Hd Hc. split_and!.
  - intros i n'. rewrite lookup_alter_at. destruct (decide (i = c)) as [->|Hi].
    + rewrite lookup_insert_eq, decide_False by congruence. intros [= <-]. by exists d, dn.
    + rewrite lookup_insert_ne by done. destruct (T !! i) as [n|] eqn:En; [|done]. intros [= <-]. exists i, n. by case_decide.
  - intros i n Hn Hp Hu. rewrite lookup_alter_at, lookup_insert_ne, Hn by congruence. eexists. split; [reflexivity|]. by case_decide.
  - intros i n Hn Hk Hp. rewrite lookup_alter_at, lookup_insert_ne, Hn by congruence. eexists. split; [reflexivity|]. by case_decide.
Qed.

(** ** Looking names up *)

Definition inode_live s i : Prop := is_Some (inodes s !! i).
Definition linked s i : Prop := exists x, inodes s !! i = Some x /\ m_unlinked x = false.

Lemma linked_live s i : linked s i -> inode_live s i.
Proof. intros (x & Hx & _). by exists x. Qed.

Section Read.
Variables (s : @Vfs F) (held : list Z).
Hypothesis (H : vfs_inv s held).
Let T := tree s.
Let Ht := v_tree s held H.

Lemma inv_null : inodes s !! 0 = None.
Proof. pose proof (t_null _ _ Ht) as E. unfold tree in E. rewrite lookup_fmap in E. by destruct (inodes s !! 0). Qed.

Lemma inv_nonzero i : inode_live s i -> i <> 0.
Proof. intros [x Hx] ->. by rewrite inv_null in Hx. Qed.

(** The children of a directory are the inodes that name it as their parent. *)
Lemma inv_child d x c : inodes s !! d = Some x -> c ∈ m_children x <-> exists y, inodes s !! c = Some y /\ m_parent y = d.
Proof.
  intros Hx. rewrite (t_link _ _ Ht d c (node_of x) (tree_lookup s d x Hx)). split.
  - intros (m & Hm & Hp). apply tree_lookup_inv in Hm as (y & Hy & ->). by exists y.
  - intros (y & Hy & Hp). exists (node_of y). split; [by apply tree_lookup|done].
Qed.

Lemma inv_parent i x : inodes s !! i = Some x -> m_parent x <> 0 -> exists p, inodes s !! m_parent x = Some p /\ is_directory p = true /\ m_unlinked p = false
  /\ m_filesystem x = m_filesystem p /\ class x = class p /\ i ∈ m_children p.
Proof.
  intros Hx Hp. destruct (t_parent _ _ Ht i (node_of x) (tree_lookup s i x Hx) Hp) as [n Hn]. cbn in Hn. apply tree_lookup_inv in Hn as (p & Hpp & ->). exists p.
  assert (Hin : i ∈ m_children p) by (apply (inv_child _ p i Hpp); by exists x).
  assert (Hne : n_children (node_of p) <> []) by (cbn; intros E; rewrite E in Hin; by apply not_elem_of_nil in Hin).
  destruct (t_dir _ _ Ht _ (node_of p) (tree_lookup s _ p Hpp) Hne) as [D1 D2].
  destruct (t_same _ _ Ht i (node_of x) (node_of p) (tree_lookup s i x Hx) (tree_lookup s _ p Hpp)) as [S1 S2]. by split_and!.
Qed.

Lemma inv_fs i x : inodes s !! i = Some x -> exists f, filesystems s !! m_filesystem x = Some f /\ fs_class f = class x.
Proof. intros Hx. apply (b_fs _ _ (mo_base _ _ _ _ (v_fs s held H)) i (node_of x)). by apply tree_lookup. Qed.

Lemma read_only_at i x : inodes s !! i = Some x -> is_read_only (m_filesystem x) s = (Ok (bool_decide (class x = UstarInode)), s).
Proof. intros Hx. destruct (inv_fs i x Hx) as (f & Hf & Hc). unfold is_read_only. by rewrite Hf, Hc. Qed.

(** *** Children by name *)

Lemma find_child_in children name : (forall c, c ∈ children -> inode_live s c) -> exists c, find_child children name s = (Ok c, s)
  /\ (c = 0 /\ (forall k y, k ∈ children -> inodes s !! k = Some y -> m_name y <> name) \/ c ∈ children /\ exists y, inodes s !! c = Some y /\ m_name y = name).
Proof.
  induction children as [|k rest IH]; intros Hl; cbn [find_child].
  - exists 0. split; [done|]. left. split; [done|]. intros k y Hk. by apply not_elem_of_nil in Hk.
  - destruct (Hl k ltac:(by left)) as [y Hy]. rewrite (try_deref k y) by done. case_bool_decide as E.
    + exists k. split; [done|]. right. split; [by left|by exists y].
    + destruct IH as (c & Ec & Hc); [intros c Hc; apply Hl; by right|]. exists c. split; [done|]. destruct Hc as [[-> Hn]|[Hc Hy']].
      * left. split; [done|]. intros j z [-> |Hj]%elem_of_cons Hz; [congruence|by apply (Hn j)].
      * right. split; [by right|done].
Qed.

(** What a name in a directory stands for; zero if nothing. *)
Definition names_child d (name : list Z) c : Prop :=
  c = 0 /\ (forall k y, inodes s !! k = Some y -> m_parent y = d -> m_name y <> name)
  \/ exists y, inodes s !! c = Some y /\ m_parent y = d /\ m_name y = name.

Lemma find_child_at d x name : inodes s !! d = Some x -> exists c, find_child (m_children x) name s = (Ok c, s) /\ names_child d name c.
Proof.
  intros Hx. destruct (find_child_in (m_children x) name) as (c & E & Hc); [intros c Hc; apply (inv_child d x c Hx) in Hc as (y & Hy & _); by exists y|].
  exists c. split; [done|]. destruct Hc as [[-> Hn]|[Hc (y & Hy & Hn)]].
  - left. split; [done|]. intros k y Hy Hp. apply (Hn k); [|done]. apply (inv_child d x k Hx). by exists y.
  - right. exists y. split_and!; [done| |done]. apply (inv_child d x c Hx) in Hc as (z & Hz & Hp). congruence.
Qed.

Lemma names_child_zero d name c : d <> 0 -> names_child d name c -> c = 0 <-> (forall k y, inodes s !! k = Some y -> m_parent y = d -> m_name y <> name).
Proof.
  intros Hd [[-> Hn]|(y & Hy & Hp & Hn)]; [tauto|]. split; [intros ->; by rewrite inv_null in Hy|]. intros Hk. by destruct (Hk c y).
Qed.

(** A name stands for one inode. *)
Lemma names_child_unique d name c1 c2 : d <> 0 -> names_child d name c1 -> names_child d name c2 -> c1 = c2.
Proof.
  intros Hd [[-> N1]|(y1 & H1 & P1 & E1)] [[-> N2]|(y2 & H2 & P2 & E2)]; [done|by destruct (N1 c2 y2)|by destruct (N2 c1 y1)|].
  apply (t_names _ _ Ht c1 c2 (node_of y1) (node_of y2)); [by apply tree_lookup|by apply tree_lookup|cbn; congruence|cbn; congruence|cbn; congruence].
Qed.

Lemma lookup_at d x name : inodes s !! d = Some x ->
  match lookup d name s with
  | (Ok c, s') => s' = s /\ is_directory x = true /\ exists y, inodes s !! c = Some y /\ m_parent y = d /\ m_name y = name
  | (Err e, s') => s' = s /\ (e = ENOTDIR /\ is_directory x = false \/ e = ENOENT /\ is_directory x = true /\ forall k y, inodes s !! k = Some y -> m_parent y = d -> m_name y <> name)
  | (Panic, _) => False
  end.
Proof.
  intros Hx. unfold lookup. rewrite (try_deref d x) by done. destruct (is_directory x) eqn:Ed; cbn [negb]; [|split; [done|by left]].
  destruct (find_child_at d x name Hx) as (c & E & Hc). rewrite (mtry_ok _ _ _ _ _ E). destruct (Z.eqb_spec c 0) as [->|Hc0].
  - split; [done|]. right. split_and!; try done. apply (names_child_zero d name 0); [|done|done]. apply inv_nonzero. by exists x.
  - destruct Hc as [[? _]|Hc]; [done|]. split_and!; done.
Qed.

Lemma find_index_at d x name : inodes s !! d = Some x -> exists r, find_index (m_children x) name 0 s = (Ok r, s) /\
  match r with
  | None => forall k y, inodes s !! k = Some y -> m_parent y = d -> m_name y <> name
  | Some (index, c) => m_children x !! index = Some c /\ exists y, inodes s !! c = Some y /\ m_parent y = d /\ m_name y = name
  end.
Proof.
  intros Hx. assert (Hl : forall c, c ∈ m_children x -> exists y, inodes s !! c = Some y /\ m_parent y = d) by (intros c; apply (inv_child d x c Hx)).
  assert (G : forall l n, (forall c, c ∈ l -> exists y, inodes s !! c = Some y /\ m_parent y = d) -> exists r, find_index l name n s = (Ok r, s) /\
    match r with
    | None => forall k y, k ∈ l -> inodes s !! k = Some y -> m_name y <> name
    | Some (index, c) => (n <= index)%nat /\ l !! (index - n)%nat = Some c /\ exists y, inodes s !! c = Some y /\ m_parent y = d /\ m_name y = name
    end).
  { clear Hl Hx. induction l as [|c l IH]; intros n Hl; cbn [find_index].
    - exists None. split; [done|]. intros k y Hk. by apply not_elem_of_nil in Hk.
    - destruct (Hl c ltac:(by left)) as (y & Hy & Hp). rewrite (try_deref c y) by done. case_bool_decide as E.
      + exists (Some (n, c)). split; [done|]. rewrite Nat.sub_diag. split_and!; [lia|done|by exists y].
      + destruct (IH (S n)) as (r & Er & Hr); [intros k Hk; apply Hl; by right|]. exists r. split; [done|]. destruct r as [[index k]|].
        * destruct Hr as (H1 & H2 & H3). split_and!; [lia| |done]. by replace (index - n)%nat with (S (index - S n)) by lia.
        * intros k z [-> |Hk]%elem_of_cons Hz; [congruence|by apply (Hr k)]. }
  destruct (G (m_children x) 0%nat Hl) as (r & E & Hr). exists r. split; [done|]. destruct r as [[index c]|].
  - destruct Hr as (_ & H2 & H3). by rewrite Nat.sub_0_r in H2.
  - intros k y Hy Hp. apply (Hr k y); [|done]. apply (inv_child d x k Hx). by exists y.
Qed.

(** ** Walking paths *)

Lemma root_of_linked k : is_Some (filesystems s !! k) -> linked s (root_of s k).
Proof.
  intros [f Hf]. unfold root_of. rewrite Hf. destruct (b_root _ _ (mo_base _ _ _ _ (v_fs s held H)) k f Hf) as (n & Hn & _ & Hu & _).
  apply tree_lookup_inv in Hn as (x & Hx & ->). by exists x.
Qed.

Lemma root_inode_linked : linked s (root_inode s).
Proof.
  destruct (mo_rootfs _ _ _ _ (v_fs s held H)) as [Hr Hf]. unfold root_inode. destruct (Z.eqb_spec (s_root_filesystem s) 0); [done|]. by apply root_of_linked.
Qed.

Lemma follow_mount_cases i : follow_mount i s = i \/ linked s (follow_mount i s).
Proof.
  unfold follow_mount. pose proof (mo_entries _ _ _ _ (v_fs s held H)) as He. induction (s_mounts s) as [|e l IH]; cbn [follow_scan]; [by left|].
  destruct (Z.eqb_spec (covered e) i); [right; apply root_of_linked, He; by left|]. apply IH. intros e' He'. apply He. by right.
Qed.

Lemma follow_mount_live i : inode_live s i -> inode_live s (follow_mount i s).
Proof. destruct (follow_mount_cases i) as [->|?]; [done|]. intros _. by apply linked_live. Qed.

Lemma follow_mount_linked i : linked s i -> linked s (follow_mount i s).
Proof. by destruct (follow_mount_cases i) as [->|?]. Qed.

(** The parent of a live inode, or itself. *)
Lemma up_live i x : inodes s !! i = Some x -> m_parent x <> 0 -> linked s (m_parent x).
Proof. intros Hx Hp. destruct (inv_parent i x Hx Hp) as (p & Hpp & _ & Hu & _). by exists p. Qed.

Lemma child_linked i x : inodes s !! i = Some x -> m_parent x <> 0 -> linked s i.
Proof. intros Hx Hp. exists x. split; [done|]. apply (t_linked _ _ Ht i (node_of x) (tree_lookup s i x Hx) Hp). Qed.

Lemma resolve_loop_at fuel : forall current path, (length path < fuel)%nat -> inode_live s current ->
  match resolve_loop fuel current path s with
  | (Ok i, s') => s' = s /\ inode_live s i /\ (linked s current -> linked s i)
  | (Err e, s') => s' = s
  | (Panic, _) => False
  end.
Proof.
  induction fuel as [|fuel IH]; intros current path Hf [x Hx]; [lia|]. cbn [resolve_loop]. destruct (next_component path) as [[component cursor]|] eqn:En.
  2: { split_and!; [done|by exists x|done]. }
  apply next_component_length in En. case_bool_decide; [by apply IH; [lia|exists x]|]. case_bool_decide; rewrite (try_deref current x) by done.
  - destruct (Z.eqb_spec (m_parent x) 0) as [E|E]; [by apply IH; [lia|exists x]|]. pose proof (up_live current x Hx E) as Hu.
    specialize (IH (m_parent x) cursor ltac:(lia) (linked_live _ _ Hu)). destruct (resolve_loop fuel _ _ _) as [[i|e|] s']; [|done|done]. naive_solver.
  - destruct (is_directory x); cbn [negb]; [|done]. pose proof (lookup_at current x component Hx) as Hl. unfold mtry at 1. destruct (lookup current component s) as [[c|e|] s']; [|naive_solver|done].
    destruct Hl as (-> & _ & y & Hy & Hp & _). rewrite mtry_get. assert (Hc0 : current <> 0) by (apply inv_nonzero; by exists x).
    assert (Hcl : linked s c) by (apply (child_linked c y Hy); congruence).
    specialize (IH (follow_mount c s) cursor ltac:(lia) (follow_mount_live c (linked_live _ _ Hcl))).
    destruct (resolve_loop fuel _ _ _) as [[i|e|] s']; [|done|done]. destruct IH as (-> & ? & Hi). split_and!; [done|done|]. intros _. by apply Hi, follow_mount_linked.
Qed.

Definition base_ok base : Prop := base = 0 \/ inode_live s base.

Lemma resolve_at path base : base_ok base ->
  match resolve path base s with
  | (Ok i, s') => s' = s /\ inode_live s i /\ (base = 0 \/ linked s base -> linked s i)
  | (Err e, s') => s' = s
  | (Panic, _) => False
  end.
Proof.
  intros Hb. unfold resolve. rewrite mtry_get. destruct (s_root_filesystem s =? 0); [done|].
  set (current := if _ || _ then root_inode s else base). assert (Hc : inode_live s current /\ (base = 0 \/ linked s base -> linked s current)).
  { pose proof root_inode_linked as Hr. unfold current. destruct (starts_with_slash path || (base =? 0)) eqn:E; [by split; [apply linked_live|]|].
    apply orb_false_iff in E as [_ E]. apply Z.eqb_neq in E. destruct Hb; [done|]. split; [done|]. intros [?|?]; done. }
  destruct Hc as [Hc1 Hc2]. pose proof (resolve_loop_at (S (length path)) (follow_mount current s) path ltac:(lia) (follow_mount_live _ Hc1)) as Hl.
  destruct (resolve_loop _ _ _ _) as [[i|e|] s']; [|done|done]. destruct Hl as (-> & ? & Hi). split_and!; [done|done|]. intros Hlb. by apply Hi, follow_mount_linked, Hc2.
Qed.

Lemma resolve_parent_at path base : base_ok base ->
  match resolve_parent path base s with
  | (Ok (p, name), s') => s' = s /\ inode_live s p /\ (base = 0 \/ linked s base -> linked s p)
  | (Err e, s') => s' = s
  | (Panic, _) => False
  end.
Proof.
  intros Hb. unfold resolve_parent. rewrite mtry_get. pose proof root_inode_linked as Hr. destruct (last_slash path 0 None) as [k|].
  - case_bool_decide; [split_and!; [done|apply linked_live, follow_mount_linked, Hr|intros _; apply follow_mount_linked, Hr]|].
    match goal with |- context [resolve ?p base] => pose proof (resolve_at p base Hb) as Hl; unfold mtry at 1; destruct (resolve p base s) as [[i|e|] s'] end; [|done|done].
    destruct Hl as (-> & ? & ?). by split_and!.
  - destruct (starts_with_slash path); [split_and!; [done|apply linked_live, follow_mount_linked, Hr|intros _; apply follow_mount_linked, Hr]|].
    destruct (Z.eqb_spec base 0) as [E|E]; cbn [negb]; [split_and!; [done|apply linked_live, follow_mount_linked, Hr|intros _; apply follow_mount_linked, Hr]|].
    destruct Hb as [?|Hb]; [done|]. split_and!; [done|by apply follow_mount_live|]. intros [?|?]; [done|by apply follow_mount_linked].
Qed.
End Read.

(** ** References *)

Lemma quiet_refl s : quiet s s.
Proof. split; try done. intros j y y' Hy Hy' Hc. by simplify_eq. Qed.

Lemma quiet_trans s s1 s2 : quiet s s1 -> quiet s1 s2 -> (forall j, is_Some (inodes s !! j) -> is_Some (inodes s2 !! j) -> is_Some (inodes s1 !! j)) -> quiet s s2.
Proof.
  intros Q1 Q2 Hl. split; [by rewrite (q_mounts _ _ Q2), (q_mounts _ _ Q1)|by rewrite (q_root _ _ Q2), (q_root _ _ Q1)|intros k; by rewrite (q_fss _ _ Q2 k), (q_fss _ _ Q1 k)|].
  intros j y y2 Hy Hy2 Hcl. destruct (Hl j ltac:(by exists y) ltac:(by exists y2)) as [y1 Hy1].
  destruct (q_contents _ _ Q1 j y y1 Hy Hy1 Hcl) as [Hc1 E1]. destruct (q_contents _ _ Q2 j y1 y2 Hy1 Hy2 Hc1) as [Hc2 E2]. split; [done|by rewrite E2].
Qed.

Lemma live_set s i x j : inode_live s j -> inode_live (set_inode i x s) j.
Proof. intros Hj. unfold inode_live. destruct (decide (j = i)) as [->|]; [rewrite set_inode_eq; by eexists|by rewrite set_inode_ne]. Qed.

(** An inode replaced by one with the same file. *)
Lemma files_ok_set s i x y : files_ok s -> inodes s !! i = Some x -> file_of y = file_of x -> files_ok (set_inode i y s).
Proof. intros [H Hz] Hx E. unfold files_ok. rewrite files_set, E, insert_id by by apply files_lookup. done. Qed.

Lemma quiet_set s i x y : inodes s !! i = Some x -> file_of y = file_of x -> quiet s (set_inode i y s).
Proof.
  intros Hx E. split; try done. intros j z z' Hz Hz' Hcl. destruct (decide (j = i)) as [->|Hne].
  - rewrite set_inode_eq in Hz'. injection Hz' as <-. rewrite Hx in Hz. injection Hz as <-. split; [|by rewrite E]. unfold file_of in E. congruence.
  - rewrite set_inode_ne in Hz' by done. by simplify_eq.
Qed.

Lemma pages_ok_delete (fr fr' : F) P i f : pages_ok fr P -> P !! i = Some f -> fa_ok fr' -> (forall b, fa_owned fr' b <-> fa_owned fr b /\ b ∉ f_pages f) -> pages_ok fr' (delete i P).
Proof.
  intros H Hf Hok Ho. split.
  - done.
  - intros j g p Hg Hp. apply lookup_delete_Some in Hg as [Hne Hg]. apply Ho. split; [by apply (p_owned _ _ H j g)|]. intros Hpf. by apply Hne, (p_apart _ _ H i j f g p).
  - intros j g Hg. apply lookup_delete_Some in Hg as [_ Hg]. by apply (p_nodup _ _ H j g).
  - intros j1 j2 g1 g2 p H1 H2. apply lookup_delete_Some in H1 as [_ H1], H2 as [_ H2]. by apply (p_apart _ _ H j1 j2 g1 g2).
  - intros j g Hg. apply lookup_delete_Some in Hg as [_ Hg]. by apply (p_other _ _ H j g).
  - intros j g Hg. apply lookup_delete_Some in Hg as [_ Hg]. by apply (p_size _ _ H j g).
Qed.

(** The destructor of an inode that has no children. *)
Lemma destroy_at s i x : files_ok s -> inodes s !! i = Some x ->
  exists fr x', (if bool_decide (class x = TmpfsInode) then release_pages_from i 0 else mok tt) s = (Ok tt, with_file fr (mem s) i x' s)
    /\ files_ok (set_inodes (delete i) (with_file fr (mem s) i x' s)).
Proof.
  intros Hs Hx. pose proof (files_lookup s i x Hx) as Hf. pose proof Hs as [H Hz].
  assert (Hfin : forall fr x', fa_ok fr -> (forall b, fa_owned fr b <-> fa_owned (frames s) b /\ b ∉ m_pages x) -> files_ok (set_inodes (delete i) (with_file fr (mem s) i x' s))).
  { intros fr x' Hok Ho. assert (E : files (set_inodes (delete i) (with_file fr (mem s) i x' s)) = delete i (files s)).
    { unfold files, set_inodes, with_file. cbn. by rewrite delete_insert_eq, fmap_delete. }
    split; rewrite E; cbn [frames mem set_inodes with_file].
    - by apply (pages_ok_delete (frames s) fr (files s) i (file_of x)).
    - intros j g k Hg. apply lookup_delete_Some in Hg as [_ Hg]. by apply (Hz j g). }
  case_bool_decide as Hc.
  - destruct (release_at s i x 0 Hs Hx ltac:(lia)) as (fr & E & Hok & Ho). eexists fr, _. split; [exact E|]. apply Hfin; [done|]. intros b. by rewrite Ho.
  - exists (frames s), x. split; [unfold mok, with_file; rewrite insert_id by done; by destruct s|]. apply Hfin; [apply H|]. intros b.
    pose proof (p_other _ _ H i _ Hf Hc) as Ep. cbn in Ep. rewrite Ep. split; [|tauto]. intros Hb. split; [done|apply not_elem_of_nil].
Qed.

(** What happens to an inode that loses a reference: it keeps everything else, or
    it goes. *)
Record unreffed s s' i x : Prop := {
  dr_else : forall j, j <> i -> inodes s' !! j = inodes s !! j;
  dr_self : inodes s' !! i = Some (with_count (m_reference_count x - 1) x) /\ m_reference_count x - 1 <> 0
    \/ inodes s' !! i = None /\ m_reference_count x - 1 = 0 /\ m_unlinked x = true;
  dr_fss : filesystems s' = filesystems s;
}.

Lemma unref_at s held i x : vfs_inv s (i :: held) -> inodes s !! i = Some x ->
  exists s', Inode_unref i s = (Ok tt, s') /\ vfs_inv s' held /\ quiet s s' /\ unreffed s s' i x.
Proof.
  intros H Hx. pose proof (v_tree _ _ H) as Ht. cbn [app] in Ht. pose proof (tree_lookup s i x Hx) as Hn.
  destruct (held_count _ _ i _ Ht Hn) as [_ Hlt]. destruct (t_count _ _ Ht i _ Hn) as [_ Hpos]. cbn [n_count node_of] in Hlt, Hpos.
  unfold Inode_unref. rewrite mtry_get. cbn [unref_nested]. rewrite (try_deref i x) by done.
  replace (u32 (m_reference_count x - 1)) with (m_reference_count x - 1) by (unfold u32; rewrite Z.mod_small; lia). rewrite (try_modify i x) by done.
  set (s1 := set_inode i (with_count (m_reference_count x - 1) x) s). assert (Hs1 : files_ok s1) by (apply (files_ok_set s i x); [apply H|done|done]).
  destruct (Z.eqb_spec (m_reference_count x - 1) 0) as [E0|E0].
  - destruct (tree_destroy _ _ i _ Ht Hn E0) as (Hu & Hk & Hp & Ht'). cbn in Hu, Hk.
    destruct (destroy_at s1 i (with_count (m_reference_count x - 1) x) Hs1 (set_inode_eq _ _ _)) as (fr & x' & E & Hok). cbn [class with_count] in E.
    exists (set_inodes (delete i) (with_file fr (mem s1) i x' s1)).
    assert (Ed : inodes (set_inodes (delete i) (with_file fr (mem s1) i x' s1)) = delete i (inodes s)) by (cbn; by rewrite !delete_insert_eq).
    assert (Etr : tree (set_inodes (delete i) (with_file fr (mem s1) i x' s1)) = delete i (tree s)) by (unfold tree; by rewrite Ed, fmap_delete).
    split_and!.
    + unfold mtry at 1. case_bool_decide; [rewrite (mtry_ok _ _ _ _ _ E), Hk|rewrite E]; done.
    + split; [done|by rewrite Etr|]. rewrite Etr. by apply (evolves_fs (tree s) _ (filesystems s)); [by apply (evolves_delete _ i (node_of x) Hn)|done|apply H].
    + split; try done. intros j y y' Hy Hy' Hcl0. rewrite Ed in Hy'. apply lookup_delete_Some in Hy' as [_ Hy']. by simplify_eq.
    + split; [|right|done]; rewrite Ed.
      * intros j Hj. by rewrite lookup_delete_ne.
      * by rewrite lookup_delete_eq.
  - exists s1. assert (Etr : tree s1 = alter (n_with_count (n_count (node_of x) - 1)) i (tree s)) by (unfold s1; by rewrite tree_set, (alter_some _ i (node_of x))).
    split_and!; [done| | |].
    + split; [done| |]; rewrite Etr; [by apply tree_unref|]. apply (evolves_fs (tree s) _ (filesystems s)); [|done|apply H].
      apply evolves_shape, (same_shape_count _ i (fun _ => n_count (node_of x) - 1)).
    + by apply (quiet_set s i x).
    + split; [intros j Hj; by apply set_inode_ne|left; split; [apply set_inode_eq|done]|done].
Qed.

Lemma ref_at s held i x : vfs_inv s held -> inodes s !! i = Some x -> zlen held + zlen (s_mounts s) + 1 < LIMIT ->
  let x' := with_count (m_reference_count x + 1) x in
  Inode_ref i s = (Ok tt, set_inode i x' s) /\ vfs_inv (set_inode i x' s) (i :: held) /\ quiet s (set_inode i x' s).
Proof.
  intros H Hx Hf x'. pose proof (v_tree _ _ H) as Ht. pose proof (tree_lookup s i x Hx) as Hn.
  assert (Hlen : zlen (held ++ mount_refs s) <= zlen held + zlen (s_mounts s)).
  { unfold zlen, mount_refs. rewrite length_app. pose proof (length_filter (fun i => i <> 0) (covered <$> s_mounts s)) as Hlf. rewrite length_fmap in Hlf. lia. }
  assert (Hc : 0 < m_reference_count x < 2 ^ 32 - 1).
  { destruct (t_count _ _ Ht i _ Hn) as [C1 C2]. cbn in C1, C2. pose proof (occ_le i (held ++ mount_refs s)). unfold LIMIT in *. destruct (m_unlinked x); lia. }
  split_and!.
  - unfold Inode_ref. rewrite (try_deref i x) by done. rewrite (modify_ok i x) by done. unfold u32. by rewrite Z.mod_small by lia.
  - assert (Etr : tree (set_inode i x' s) = alter (fun n => n_with_count (n_count n + 1) n) i (tree s)) by (by rewrite tree_set, (alter_some _ i (node_of x))).
    split; [by apply (files_ok_set s i x); [apply H|..]| |]; rewrite Etr.
    + apply (tree_ref _ _ i Ht); [by exists (node_of x)|lia].
    + apply (evolves_fs (tree s) _ (filesystems s)); [apply evolves_shape, same_shape_count|done|apply H].
  - by apply (quiet_set s i x).
Qed.

(** ** Creating *)

(** An address the heap hands out is not an inode's already. *)
Definition heap_ok (h : KernelHeap) s : Prop := forall c, inode_memory h = Some c -> c <> 0 /\ inodes s !! c = None.

(** A new inode that could not be linked is given back at once. *)
Lemma drop_new s c y : inodes s !! c = Some y -> class y = TmpfsInode -> m_reference_count y = 1 -> m_pages y = [] -> m_children y = [] ->
  Inode_unref c s = (Ok tt, set_inodes (delete c) s).
Proof.
  intros Hy Hc Hn Hp Hk. unfold Inode_unref. rewrite mtry_get. cbn [unref_nested]. rewrite (try_deref c y) by done. rewrite Hn, Hk, Hc. change (u32 (1 - 1)) with 0.
  rewrite (try_modify c y) by done. rewrite bool_decide_eq_true_2 by done. cbn [Z.eqb each].
  assert (E : release_pages_from c 0 (set_inode c (with_count 0 y) s) = (Ok tt, set_inode c (with_count 0 y) s)).
  { unfold release_pages_from. rewrite (try_deref c (with_count 0 y)) by apply set_inode_eq. cbn [m_pages with_count]. by rewrite Hp. }
  unfold mtry at 1. rewrite (mtry_ok _ _ _ _ _ E). unfold mok, mmod, set_inode, set_inodes. cbn. by rewrite delete_insert_eq.
Qed.

Lemma set_inode_swap i j x y s : i <> j -> set_inode i x (set_inode j y s) = set_inode j y (set_inode i x s).
Proof. intros Hne. unfold set_inode, set_inodes. cbn. by rewrite insert_insert_ne. Qed.

Lemma set_inode_delete i x s : inodes s !! i = None -> set_inodes (delete i) (set_inode i x s) = s.
Proof. intros Hi. unfold set_inode, set_inodes. cbn. rewrite delete_insert_id by done. by destruct s. Qed.

Definition with_fss fss s : @Vfs F := mkVfs (frames s) (mem s) (inodes s) fss (s_mounts s) (s_root_filesystem s) (now s).

(** A file system with its next inode number taken. *)
Definition numbered (f : FileSystem) : FileSystem := mkFileSystem (fs_class f) (m_root f) (u64 (m_next_inode_number f + 1)).

(** The inode [tmpfs_create] links in. *)
Definition created s d x f (name : list Z) (type : InodeType) (mode : Z) : Inode :=
  let y := inode_new TmpfsInode (m_filesystem x) type mode in
  let y := if bool_decide (type = Fifo) then with_fifo (Some PipeBuffer_new) y else y in
  touched (now s) (with_number (m_next_inode_number f) (with_inode_parent d (with_name name y))).

Lemma create_run h s d x f name type mode c : inodes s !! d = Some x -> is_directory x = true -> zlen name < FILENAME_MAX_LENGTH ->
  find_child (m_children x) name s = (Ok 0, s) -> inode_memory h = Some c -> inodes s !! c = None -> filesystems s !! m_filesystem x = Some f ->
  let s1 := with_fss (<[m_filesystem x := numbered f]> (filesystems s)) s in
  tmpfs_create h d name type mode s =
  if bool_decide (type = Fifo) && negb (fifo_memory h) then (Err ENOMEM, s)
  else if children_room h
  then (Ok c, set_inode d (with_children (m_children x ++ [c]) (touched (now s) x)) (set_inode c (created s d x f name type mode) s1))
  else (Err ENOMEM, set_inode d (touched (now s) x) s1).
Proof.
  intros Hx Hd Hl Hf Hm Hc Hff s1. assert (Hdc : d <> c) by congruence. unfold tmpfs_create. rewrite (try_deref d x), Hd by done. cbn [negb].
  destruct (Z.leb_spec FILENAME_MAX_LENGTH (zlen name)); [lia|]. rewrite (mtry_ok _ _ _ _ _ Hf), Hm. cbn [Z.eqb negb]. rewrite mtry_mod.
  set (y0 := inode_new TmpfsInode (m_filesystem x) type mode). change (set_inodes <[c := y0]> s) with (set_inode c y0 s).
  assert (Hname : strncpy name (FILENAME_MAX_LENGTH - 1) = name) by (unfold strncpy; rewrite take_ge; [done|unfold zlen, FILENAME_MAX_LENGTH in *; lia]).
  assert (Htail : forall y1, y1 = (if bool_decide (type = Fifo) then with_fifo (Some PipeBuffer_new) y0 else y0) ->
    (modify c (with_name (strncpy name (FILENAME_MAX_LENGTH - 1))) ;!
     modify c (with_inode_parent d) ;!
     let! number := allocate_inode_number (m_filesystem x) in
     modify c (with_number number) ;! touch c ;! touch d ;!
     if children_room h then modify d (fun d => with_children (m_children d ++ [c]) d) ;! mok c
     else Inode_unref c ;! merr ENOMEM) (set_inode c y1 s)
    = if children_room h
      then (Ok c, set_inode d (with_children (m_children x ++ [c]) (touched (now s) x)) (set_inode c (created s d x f name type mode) s1))
      else (Err ENOMEM, set_inode d (touched (now s) x) s1)).
  { intros y1 Ey1. rewrite Hname. rewrite (try_modify c y1) by apply set_inode_eq. rewrite set_inode_twice.
    rewrite (try_modify c (with_name name y1)) by apply set_inode_eq. rewrite set_inode_twice.
    set (y2 := with_inode_parent d (with_name name y1)). unfold mtry at 1, allocate_inode_number. change (filesystems (set_inode c y2 s)) with (filesystems s). rewrite Hff.
    change (upd_filesystems <[m_filesystem x := mkFileSystem (fs_class f) (m_root f) (u64 (m_next_inode_number f + 1))]> (set_inode c y2 s)) with (set_inode c y2 s1).
    rewrite (try_modify c y2) by apply set_inode_eq. rewrite set_inode_twice. rewrite (try_touch c (with_number (m_next_inode_number f) y2)) by apply set_inode_eq.
    rewrite set_inode_twice. assert (Ey : touched (now s) (with_number (m_next_inode_number f) y2) = created s d x f name type mode) by (unfold y2; by rewrite Ey1).
    change (now (set_inode c (with_number (m_next_inode_number f) y2) s1)) with (now s). rewrite Ey. set (y3 := created s d x f name type mode).
    rewrite (try_touch d x) by (rewrite set_inode_ne by done; done). change (now (set_inode c y3 s1)) with (now s).
    destruct (children_room h).
    - rewrite (try_modify d (touched (now s) x)) by apply set_inode_eq. rewrite set_inode_twice. done.
    - rewrite set_inode_swap by done. rewrite (mtry_ok _ _ _ tt (set_inode d (touched (now s) x) s1)); [done|].
      rewrite (drop_new _ c y3); [| |unfold y3, created; by case_bool_decide..].
      + rewrite set_inode_delete; [done|]. by rewrite set_inode_ne.
      + by rewrite set_inode_eq. }
  unfold mtry at 1. case_bool_decide as Ht; cbn [andb].
  - destruct (fifo_memory h); cbn [negb].
    + rewrite (modify_ok c y0) by apply set_inode_eq. rewrite set_inode_twice. by apply Htail.
    + rewrite (mtry_ok _ _ _ tt s); [done|]. rewrite (drop_new _ c y0) by (apply set_inode_eq || done). by rewrite set_inode_delete.
  - unfold mok at 1. by apply Htail.
Qed.

Lemma numbered_same (fss : gmap Z FileSystem) k f : fss !! k = Some f -> same_fss fss (<[k := numbered f]> fss).
Proof. intros Hf j. rewrite lookup_insert. case_decide; [subst; by rewrite Hf|done]. Qed.

(** A directory that was only touched. *)
Lemma touched_inv s held d x fss : vfs_inv s held -> inodes s !! d = Some x ->
  same_fss (filesystems s) fss ->
  let s' := set_inode d (touched (now s) x) (with_fss fss s) in vfs_inv s' held /\ quiet s s' /\ tree s' = tree s.
Proof.
  intros H Hx Hk s'. assert (Etr : tree s' = tree s) by (apply (tree_set_same d _ x (with_fss fss s)); done). split_and!; [| |done].
  - split; [apply (files_ok_set (with_fss fss s) d x); [apply H|done|done]|rewrite Etr; apply H|]. rewrite Etr.
    apply (evolves_fs (tree s) _ (filesystems s)); [apply evolves_refl|done|apply H].
  - pose proof (quiet_set (with_fss fss s) d x (touched (now s) x) Hx eq_refl) as Q. split; [done|done|done|apply Q].
Qed.

Lemma files_ok_new s c y : files_ok s -> inodes s !! c = None -> m_pages y = [] -> m_size y = 0 -> files_ok (set_inode c y s).
Proof.
  intros [H Hz] Hc Hp Hs. assert (Hn : files s !! c = None) by (unfold files; by rewrite lookup_fmap, Hc).
  unfold files_ok. rewrite files_set. cbn [frames mem set_inode set_inodes]. unfold file_of. rewrite Hp, Hs. split; [split|].
  - apply H.
  - intros j g p Hg Hin. apply lookup_insert_Some in Hg as [[<- <-]|[_ Hg]]; [by apply not_elem_of_nil in Hin|by apply (p_owned _ _ H j g)].
  - intros j g Hg. apply lookup_insert_Some in Hg as [[<- <-]|[_ Hg]]; [constructor|by apply (p_nodup _ _ H j g)].
  - intros j1 j2 g1 g2 p H1 H2 I1 I2. apply lookup_insert_Some in H1 as [[<- <-]|[_ H1]]; [by apply not_elem_of_nil in I1|].
    apply lookup_insert_Some in H2 as [[<- <-]|[_ H2]]; [by apply not_elem_of_nil in I2|]. by apply (p_apart _ _ H j1 j2 g1 g2 p).
  - intros j g Hg. apply lookup_insert_Some in Hg as [[<- <-]|[_ Hg]]; [done|by apply (p_other _ _ H j g)].
  - intros j g Hg. apply lookup_insert_Some in Hg as [[<- <-]|[_ Hg]]; [done|by apply (p_size _ _ H j g)].
  - intros j g k Hg Hcg Hk. apply lookup_insert_Some in Hg as [[<- <-]|[_ Hg]]; [unfold capacity, zlen in Hk; cbn in Hk; lia|by apply (Hz j g)].
Qed.

Lemma create_at h s held d x name type mode : vfs_inv s held -> inodes s !! d = Some x -> class x = TmpfsInode -> m_unlinked x = false -> heap_ok h s ->
  match tmpfs_create h d name type mode s with
  | (Ok c, s') => vfs_inv s' held /\ quiet s s' /\ inode_memory h = Some c /\ is_directory x = true /\ zlen name < FILENAME_MAX_LENGTH
      /\ (forall k y, inodes s !! k = Some y -> m_parent y = d -> m_name y <> name)
      /\ exists f, inodes s' = <[d := with_children (m_children x ++ [c]) (touched (now s) x)]> (<[c := created s d x f name type mode]> (inodes s))
  | (Err e, s') => vfs_inv s' held /\ quiet s s' /\ tree s' = tree s
  | (Panic, _) => False
  end.
Proof.
  intros H Hx Hc Hu Hh. destruct (inv_fs s held H d x Hx) as (f & Hf & _). destruct (find_child_at s held H d x name Hx) as (e & Ee & He).
  assert (Hd0 : d <> 0) by (apply (inv_nonzero s held H); by exists x).
  destruct (is_directory x) eqn:Hd.
  2: { unfold tmpfs_create. rewrite (try_deref d x), Hd by done. split_and!; [done|apply quiet_refl|done]. }
  destruct (Z.leb_spec FILENAME_MAX_LENGTH (zlen name)) as [Hl|Hl].
  { unfold tmpfs_create. rewrite (try_deref d x), Hd by done. cbn [negb]. destruct (Z.leb_spec FILENAME_MAX_LENGTH (zlen name)); [|lia]. split_and!; [done|apply quiet_refl|done]. }
  destruct (Z.eqb_spec e 0) as [->|He0].
  2: { unfold tmpfs_create. rewrite (try_deref d x), Hd by done. cbn [negb]. destruct (Z.leb_spec FILENAME_MAX_LENGTH (zlen name)); [lia|].
       rewrite (mtry_ok _ _ _ _ _ Ee). destruct (Z.eqb_spec e 0); [done|]. split_and!; [done|apply quiet_refl|done]. }
  pose proof (proj1 (names_child_zero s held H d name 0 Hd0 He) eq_refl) as Hfree. destruct (inode_memory h) as [c|] eqn:Hm.
  2: { unfold tmpfs_create. rewrite (try_deref d x), Hd by done. cbn [negb]. destruct (Z.leb_spec FILENAME_MAX_LENGTH (zlen name)); [lia|].
       rewrite (mtry_ok _ _ _ _ _ Ee), Hm. split_and!; [done|apply quiet_refl|done]. }
  destruct (Hh c Hm) as [Hc0 Hcn]. pose proof (create_run h s d x f name type mode c Hx Hd Hl Ee Hm Hcn Hf) as E. cbv zeta in E. rewrite E.
  destruct (bool_decide _ && _); [split_and!; [done|apply quiet_refl|done]|]. destruct (children_room h); [|by apply touched_inv; [..|apply numbered_same]].
  set (s1 := with_fss _ s). set (y := created s d x f name type mode). assert (Hdc : d <> c) by congruence.
  assert (Etr : tree (set_inode d (with_children (m_children x ++ [c]) (touched (now s) x)) (set_inode c y s1)) = alter (n_append c) d (<[c := mkNode d [] name (is_directory y) false 1 (n_fs (node_of x)) (n_class (node_of x))]> (tree s))).
  { rewrite !tree_set, (alter_some _ d (node_of x)) by (rewrite lookup_insert_ne by congruence; by apply tree_lookup). f_equal. f_equal.
    unfold y, created, node_of. rewrite Hc. by case_bool_decide. }
  assert (Hfy : file_of y = mkFile TmpfsInode [] 0) by (unfold y, created, file_of; by case_bool_decide).
  split_and!; try done; [| |by exists f].
  - split.
    + apply (files_ok_set _ d x); [|by rewrite set_inode_ne|done]. apply files_ok_new; [apply H|done|unfold file_of in Hfy; congruence..].
    + rewrite Etr. apply (tree_add (tree s) _ d (node_of x) c name _ (v_tree _ _ H)); [by apply tree_lookup|done|done|done|unfold tree; by rewrite lookup_fmap, Hcn|].
      intros k q Hq Hp. apply tree_lookup_inv in Hq as (z & Hz & ->). by apply (Hfree k z).
    + rewrite Etr. apply (evolves_fs (tree s) _ (filesystems s)); [|by apply numbered_same|apply H].
      apply evolves_add; [by apply tree_lookup|unfold tree; by rewrite lookup_fmap, Hcn].
  - split; [done|done|by apply numbered_same|]. intros j z z' Hz Hz' Hcl0. cbn in Hz'. destruct (decide (j = d)) as [->|Hjd].
    + rewrite lookup_insert_eq in Hz'. simplify_eq. done.
    + rewrite lookup_insert_ne, lookup_insert_ne in Hz' by congruence. by simplify_eq.
Qed.

(** ** Removing *)

(** References are few enough for one more. *)
Definition few s held : Prop := zlen held + zlen (s_mounts s) + 1 < LIMIT.

Lemma few_refs s held : few s held -> zlen (held ++ mount_refs s) + 1 < LIMIT.
Proof.
  unfold few, zlen, mount_refs. rewrite length_app. pose proof (length_filter (fun i => i <> 0) (covered <$> s_mounts s)) as Hlf. rewrite length_fmap in Hlf. lia.
Qed.

(** An inode with children is a directory. *)
Lemma leaf_children s held i y : vfs_inv s held -> inodes s !! i = Some y -> is_directory y && negb (bool_decide (m_children y = [])) = false -> m_children y = [].
Proof.
  intros H Hy E. apply andb_false_iff in E as [E|E].
  - destruct (m_children y) eqn:Ek; [done|]. destruct (t_dir _ _ (v_tree _ _ H) i _ (tree_lookup s i y Hy)) as [D _]; [cbn; congruence|]. cbn in D. congruence.
  - apply negb_false_iff, bool_decide_eq_true in E. done.
Qed.

(** [c], a child of [d] without children, loses its name: its link becomes a
    reference held by the code that is about to drop it. *)
Lemma detach_child_inv s held d x c y : vfs_inv s held -> few s held -> inodes s !! d = Some x -> inodes s !! c = Some y -> m_parent y = d -> m_children y = [] -> class y <> UstarInode ->
  let s' := set_inode c (mark_unlinked y) (set_inode d (with_children (remove_child (m_children x) c) x) s) in
  c <> d /\ vfs_inv s' (c :: held) /\ quiet s s' /\ inodes s' !! c = Some (mark_unlinked y).
Proof.
  intros H Hfew Hx Hy Hp Hk Hcy s'. assert (Hd0 : d <> 0) by (apply (inv_nonzero s held H); by exists x).
  pose proof (tree_lookup s d x Hx) as Hn. pose proof (tree_lookup s c y Hy) as Hm. pose proof (v_tree _ _ H) as Ht.
  assert (Hcd : c <> d) by (apply (relink_self (tree s) (held ++ mount_refs s) c d (node_of y)); done).
  assert (Hyd : inodes (set_inode d (with_children (remove_child (m_children x) c) x) s) !! c = Some y) by (by rewrite set_inode_ne).
  assert (Etr : tree s' = alter n_unlink c (alter (n_remove c) d (tree s))).
  { unfold s'. rewrite !tree_set, (alter_some (tree s) d (node_of x)) by done. rewrite (alter_some _ c (node_of y)) by (by rewrite lookup_insert_ne). done. }
  split_and!; [done| | |apply set_inode_eq].
  - split; [|rewrite Etr|rewrite Etr].
    + apply (files_ok_set _ c y); [|done|done]. apply (files_ok_set s d x); [apply H|done|done].
    + cbn [app]. apply (tree_detach (tree s) _ c d (node_of y) Ht Hm); [done|done|done|by apply few_refs].
    + apply (evolves_fs (tree s) _ (filesystems s)); [|done|apply H]. apply (evolves_relink _ _ c d 0 (m_name y) (node_of y)); [|done|cbn; congruence|done].
      by apply (detach_relinked (tree s) (held ++ mount_refs s) c d (node_of y)).
  - pose proof (quiet_set s d x (with_children (remove_child (m_children x) c) x) Hx eq_refl) as Q1. pose proof (quiet_set _ c y (mark_unlinked y) Hyd eq_refl) as Q2.
    apply (quiet_trans s _ s' Q1 Q2). intros j Hj _. by apply live_set.
Qed.

(** [c] has gone from the directory [d]. *)
Record removed s s' d x c y : Prop := {
  rm_dir : inodes s' !! d = Some (with_children (remove_child (m_children x) c) x);
  rm_else : forall j, j <> d -> j <> c -> inodes s' !! j = inodes s !! j;
  rm_self : forall z, inodes s' !! c = Some z -> z = with_count (m_reference_count y - 1) (mark_unlinked y);
  rm_gone : inodes s' !! c = None <-> m_reference_count y = 1;
}.

Lemma unref_dropped_removed s s' d x c y : c <> d -> inodes s !! d = Some x ->
  unreffed (set_inode c (mark_unlinked y) (set_inode d (with_children (remove_child (m_children x) c) x) s)) s' c (mark_unlinked y) -> removed s s' d x c y.
Proof.
  intros Hcd Hx D. split.
  - rewrite (dr_else _ _ _ _ D) by done. rewrite set_inode_ne by done. apply set_inode_eq.
  - intros j Hj1 Hj2. rewrite (dr_else _ _ _ _ D) by done. by rewrite !set_inode_ne.
  - intros z Hz. destruct (dr_self _ _ _ _ D) as [[E _]|[E _]]; rewrite E in Hz; by simplify_eq.
  - destruct (dr_self _ _ _ _ D) as [[E Hne]|[E [Heq _]]]; rewrite E; cbn in *; split; try done; lia.
Qed.

Lemma unlink_at s held d x name : vfs_inv s held -> few s held -> inodes s !! d = Some x -> class x = TmpfsInode ->
  match tmpfs_unlink d name s with
  | (Ok _, s') => vfs_inv s' held /\ quiet s s' /\ exists c y, inodes s !! c = Some y /\ m_parent y = d /\ m_name y = name /\ m_children y = [] /\ removed s s' d x c y
  | (Err e, s') => s' = s
  | (Panic, _) => False
  end.
Proof.
  intros H Hfew Hx Hcx. unfold tmpfs_unlink. rewrite (try_deref d x) by done. destruct (is_directory x); cbn [negb]; [|done].
  destruct (find_index_at s held H d x name Hx) as (r & E & Hr). rewrite (mtry_ok _ _ _ _ _ E). destruct r as [[index c]|]; [|done].
  destruct Hr as (Hi & y & Hy & Hp & Hnm). rewrite (try_deref c y) by done. destruct (is_directory y && negb (bool_decide (m_children y = []))) eqn:Ek; [done|].
  pose proof (leaf_children s held c y H Hy Ek) as Hk. rewrite (try_modify d x) by done.
  rewrite <- (remove_child_delete (m_children x) c index) by (done || apply (t_nodup _ _ (v_tree _ _ H) d _ (tree_lookup s d x Hx))).
  assert (Hcy : class y <> UstarInode).
  { destruct (inv_parent s held H c y Hy) as (px & Hpx & _ & _ & _ & Ecl & _); [rewrite Hp; apply (inv_nonzero s held H); by exists x|]. congruence. }
  destruct (detach_child_inv s held d x c y H Hfew Hx Hy Hp Hk Hcy) as (Hcd & H2 & Q2 & Hy2).
  rewrite (try_modify c y) by (by rewrite set_inode_ne).
  set (s2 := set_inode c (mark_unlinked y) _) in *. destruct (unref_at s2 held c _ H2 Hy2) as (s' & E' & H' & Q' & D'). rewrite E'. split_and!; [done| |].
  - apply (quiet_trans s s2 s' Q2 Q'). intros j Hj _. by apply live_set, live_set.
  - exists c, y. split_and!; try done. by apply (unref_dropped_removed s s' d x c y).
Qed.

(** ** Moving *)

Lemma modify_alter i f s : inode_live s i -> modify i f s = (Ok tt, set_inodes (alter f i) s).
Proof. intros [x Hx]. unfold modify, mtry. by rewrite (deref_ok i x s Hx). Qed.

Lemma try_alter {A} i f (k : unit -> M Vfs A) s : inode_live s i -> mtry (modify i f) k s = k tt (set_inodes (alter f i) s).
Proof. intros Hi. by rewrite (mtry_ok _ _ _ _ _ (modify_alter i f s Hi)). Qed.

Lemma try_touch_alter {A} i (k : unit -> M Vfs A) s : inode_live s i -> mtry (touch i) k s = k tt (set_inodes (alter (touched (now s)) i) s).
Proof. intros Hi. unfold touch. rewrite (mtry_ok _ _ s tt (set_inodes (alter (touched (now s)) i) s)); [done|]. rewrite mtry_get. by apply modify_alter. Qed.

Lemma live_alter i f j s : inode_live (set_inodes (alter f i) s) j <-> inode_live s j.
Proof. unfold inode_live. cbn. by rewrite lookup_alter_is_Some. Qed.

Lemma tree_alter i f g s : (forall x, node_of (f x) = g (node_of x)) -> tree (set_inodes (alter f i) s) = alter g i (tree s).
Proof.
  intros Hf. unfold tree. cbn. apply map_eq. intros k. rewrite lookup_fmap, !lookup_alter_at, lookup_fmap. destruct (inodes s !! k) as [x|]; [|done]. cbn. case_decide; [by rewrite Hf|done].
Qed.

Lemma alter_trivial (T : gmap Z Node) i : alter id i T = T.
Proof. apply map_eq. intros k. rewrite lookup_alter_at. case_decide; by rewrite option_fmap_id. Qed.

Lemma tree_alter_id i f s : (forall x, node_of (f x) = node_of x) -> tree (set_inodes (alter f i) s) = tree s.
Proof. intros Hf. rewrite (tree_alter i f id) by done. apply alter_trivial. Qed.

Lemma files_alter i f s : (forall x, file_of (f x) = file_of x) -> files (set_inodes (alter f i) s) = files s.
Proof.
  intros Hf. unfold files. cbn. apply map_eq. intros k. rewrite !lookup_fmap, lookup_alter_at. destruct (inodes s !! k) as [x|]; [|done]. cbn. case_decide; [by rewrite Hf|done].
Qed.

Lemma quiet_files s s' : files s' = files s -> mem s' = mem s -> s_mounts s' = s_mounts s -> s_root_filesystem s' = s_root_filesystem s -> filesystems s' = filesystems s -> quiet s s'.
Proof.
  intros Hf Hm H1 H2 H3. split; [done|done|intros k; by rewrite H3|]. intros j y y' Hy Hy' Hcl. apply files_lookup in Hy, Hy'. rewrite Hf, Hy in Hy'. injection Hy' as E1 E2 E3. split; [congruence|]. rewrite Hm. unfold file_of. congruence.
Qed.

(** What the statements of rename from the removal of the old name to the last
    touch do. *)
Definition moved (now d c e : Z) (name : list Z) (m : gmap Z Inode) : gmap Z Inode :=
  alter (touched now) e (alter (touched now) d (alter (fun n => with_children (m_children n ++ [c]) n) e
    (alter (with_inode_parent e) c (alter (with_name name) c (alter (fun x => with_children (remove_child (m_children x) c) x) d m))))).

Lemma moved_run s d c e name : inode_live s d -> inode_live s c -> inode_live s e -> zlen name < FILENAME_MAX_LENGTH -> forall A (k : M Vfs A),
  (take_out d c ;!
   modify c (with_name (strncpy name (FILENAME_MAX_LENGTH - 1))) ;!
   modify c (with_inode_parent e) ;!
   modify e (fun n => with_children (m_children n ++ [c]) n) ;!
   touch d ;!
   touch e ;! k) s = k (set_inodes (moved (now s) d c e name) s).
Proof.
  intros Hd Hc He Hl A k. assert (Hname : strncpy name (FILENAME_MAX_LENGTH - 1) = name) by (unfold strncpy; rewrite take_ge; [done|unfold zlen, FILENAME_MAX_LENGTH in *; lia]).
  unfold take_out. rewrite Hname. rewrite !try_alter by (rewrite ?live_alter; done). rewrite !try_touch_alter by (rewrite ?live_alter; done). done.
Qed.

Lemma moved_tree s t d c e name : tree (set_inodes (moved t d c e name) s) = alter (n_append c) e (alter (n_place e name) c (alter (n_remove c) d (tree s))).
Proof.
  unfold moved. change (set_inodes (fun m => alter ?f1 e (alter ?f2 d (alter ?f3 e (alter ?f4 c (alter ?f5 c (alter ?f6 d m)))))) s)
    with (set_inodes (alter f1 e) (set_inodes (alter f2 d) (set_inodes (alter f3 e) (set_inodes (alter f4 c) (set_inodes (alter f5 c) (set_inodes (alter f6 d) s)))))).
  rewrite !(tree_alter_id _ (touched t)) by done. rewrite (tree_alter e _ (n_append c)) by done. f_equal.
  rewrite (tree_alter c (with_inode_parent e) (fun n => n_place e (n_name n) n)) by done. rewrite (tree_alter c (with_name name) (fun n => n_place (n_parent n) name n)) by done.
  rewrite (tree_alter d _ (n_remove c)) by done. apply map_eq. intros k. rewrite !lookup_alter_at. destruct (tree s !! k); [|done]. cbn. case_decide; [|done]. by repeat case_decide.
Qed.

Lemma moved_files s t d c e name : files (set_inodes (moved t d c e name) s) = files s.
Proof.
  unfold moved. change (set_inodes (fun m => alter ?f1 e (alter ?f2 d (alter ?f3 e (alter ?f4 c (alter ?f5 c (alter ?f6 d m)))))) s)
    with (set_inodes (alter f1 e) (set_inodes (alter f2 d) (set_inodes (alter f3 e) (set_inodes (alter f4 c) (set_inodes (alter f5 c) (set_inodes (alter f6 d) s)))))).
  by rewrite !files_alter by done.
Qed.

(** The move on a state in which the new name is free. *)
Lemma move_inv s held d c y e n name l : vfs_inv s held -> inodes s !! c = Some y -> m_parent y = d -> d <> 0 ->
  inodes s !! e = Some n -> is_directory n = true -> m_unlinked n = false -> m_filesystem n = m_filesystem y -> class n = class y -> class y = TmpfsInode ->
  up_chain (tree s) e l -> c ∉ l -> (forall k z, inodes s !! k = Some z -> m_parent z = e -> k <> c -> m_name z <> name) ->
  vfs_inv (set_inodes (moved (now s) d c e name) s) held /\ quiet s (set_inodes (moved (now s) d c e name) s).
Proof.
  intros H Hy Hp Hd0 Hn Hdir Hun Hfs Hcl Htm Hch Hcl2 Hfree. assert (He0 : e <> 0) by (apply (inv_nonzero s held H); by exists n).
  assert (Hce : c <> e) by (intros ->; apply Hcl2; destruct (chain_head _ _ _ Hch) as [_ [l2 ->]]; by left).
  assert (Hmay : may_hold (tree s) (node_of y) c e name).
  { exists (node_of n), l. split_and!; try done; [by apply tree_lookup|]. intros k q Hq. apply tree_lookup_inv in Hq as (z & Hz & ->). by apply Hfree. }
  pose proof (tree_lookup s c y Hy) as Hm. split.
  - split.
    + unfold files_ok. rewrite moved_files. apply H.
    + rewrite moved_tree. by apply (tree_move (tree s) _ c d e name (node_of y) (v_tree _ _ H)).
    + rewrite moved_tree. apply (evolves_fs (tree s) _ (filesystems s)); [|done|apply H].
      apply (evolves_relink _ _ c d e name (node_of y)); [|done|cbn; congruence|cbn; congruence]. by apply (move_relinked (tree s) (held ++ mount_refs s) c d e name (node_of y) (v_tree _ _ H)).
  - by apply quiet_files; [apply moved_files|..].
Qed.

(** ** Directories as maps *)

(** Directory [p] has the entry [name] for inode [k]. *)
Definition dir_entry (T : gmap Z Node) p (name : list Z) k : Prop := p <> 0 /\ exists n, T !! k = Some n /\ n_parent n = p /\ n_name n = name.

Lemma entry_relinked (T T' : gmap Z Node) c d e name p nm k : node_relinked T T' c d e name -> is_Some (T !! c) ->
  dir_entry T' p nm k <-> (k = c /\ p = e /\ nm = name /\ e <> 0) \/ (k <> c /\ dir_entry T p nm k).
Proof.
  intros Hr Hc. unfold dir_entry. split.
  - intros (Hp & n' & Hn' & P' & N'). destruct (rl_back _ _ _ _ _ _ Hr k n' Hn') as (n & Hn & _ & _ & _ & _ & E1 & E2 & _).
    destruct (decide (k = c)) as [->|Hk]; [left; split_and!; congruence|right]. split; [done|]. split; [done|]. exists n. split_and!; congruence.
  - intros [(-> & -> & -> & He)|(Hk & Hp & n & Hn & P & N)].
    + split; [done|]. destruct (proj2 (rl_live _ _ _ _ _ _ Hr c) Hc) as [n' Hn']. exists n'.
      destruct (rl_back _ _ _ _ _ _ Hr c n' Hn') as (n & Hn & _ & _ & _ & _ & E1 & E2 & _). rewrite decide_True in E1 by done. rewrite decide_True in E2 by done. done.
    + split; [done|]. destruct (proj2 (rl_live _ _ _ _ _ _ Hr k) (ex_intro _ n Hn)) as [n' Hn']. exists n'.
      destruct (rl_back _ _ _ _ _ _ Hr k n' Hn') as (n0 & Hn0 & _ & _ & _ & _ & E1 & E2 & _). rewrite decide_False in E1 by done. rewrite decide_False in E2 by done. rewrite Hn in Hn0. injection Hn0 as <-.
      split_and!; congruence.
Qed.

Lemma entry_shape (T T' : gmap Z Node) p nm k : same_shape T T' -> dir_entry T' p nm k <-> dir_entry T p nm k.
Proof.
  intros Hs. unfold dir_entry. split; intros (Hp & n & Hn & P & N); (split; [done|]).
  - destruct (same_shape_lookup T T' k n Hs Hn) as (n0 & z & Hn0 & ->). by exists n0.
  - destruct (same_shape_lookup T' T k n (same_shape_sym _ _ Hs) Hn) as (n0 & z & Hn0 & ->). by exists n0.
Qed.

(** Dropping a reference changes no directory. *)
Lemma entry_dropped s s' held i x p nm k : vfs_inv s held -> inodes s !! i = Some x -> unreffed s s' i x -> dir_entry (tree s') p nm k <-> dir_entry (tree s) p nm k.
Proof.
  intros H Hx D. pose proof (v_tree _ _ H) as Ht. assert (Hgo : forall j n, j <> i -> tree s' !! j = Some n <-> tree s !! j = Some n).
  { intros j n Hj. unfold tree. by rewrite !lookup_fmap, (dr_else _ _ _ _ D). }
  unfold dir_entry. destruct (decide (k = i)) as [->|Hk]; [|by setoid_rewrite (Hgo k _ Hk)].
  destruct (dr_self _ _ _ _ D) as [[E _]|(E & _ & Hu)].
  - rewrite (tree_lookup s' i _ E), (tree_lookup s i x Hx). split; intros (Hp & n & [= <-] & P & N); (split; [done|]); eexists; split; [done|split; assumption|done|split; assumption].
  - unfold tree at 1. rewrite lookup_fmap, E. split; [intros (_ & n & Hn & _); done|]. intros (Hp & n & Hn & P & N). exfalso. apply tree_lookup_inv in Hn as (x' & Hx' & ->).
    rewrite Hx in Hx'. injection Hx' as <-. pose proof (t_linked _ _ Ht i _ (tree_lookup s i x Hx)) as Hl. cbn in *. rewrite Hl in Hu; [done|congruence].
Qed.

Lemma entry_unique s held p nm k1 k2 : vfs_inv s held -> dir_entry (tree s) p nm k1 -> dir_entry (tree s) p nm k2 -> k1 = k2.
Proof. intros H (Hp & n1 & H1 & P1 & N1) (_ & n2 & H2 & P2 & N2). apply (t_names _ _ (v_tree _ _ H) k1 k2 n1 n2); congruence. Qed.

(** ** rename *)

(** [c], the entry [name] of [d], is now the entry [new_name] of [e]; whatever had
    that name has lost it. *)
Definition renamed (T T' : gmap Z Node) d (name : list Z) e (new_name : list Z) c : Prop :=
  dir_entry T d name c /\ forall p nm k, dir_entry T' p nm k <-> (k = c /\ p = e /\ nm = new_name) \/ (k <> c /\ ~ (p = e /\ nm = new_name) /\ dir_entry T p nm k).

Lemma rename_noop s held d name c : vfs_inv s held -> dir_entry (tree s) d name c -> renamed (tree s) (tree s) d name d name c.
Proof.
  intros H Hc. split; [done|]. intros p nm k. split.
  - intros Hk. destruct (decide (k = c)) as [->|Hne].
    + left. destruct Hc as (_ & n & Hn & P & N), Hk as (_ & n2 & Hn2 & P2 & N2). rewrite Hn in Hn2. injection Hn2 as <-. split_and!; congruence.
    + right. split_and!; [done| |done]. intros [-> ->]. by apply Hne, (entry_unique s held d name).
  - intros [(-> & -> & ->)|(_ & _ & Hk)]; done.
Qed.

Lemma rename_free s held d c y e n name l : vfs_inv s held -> inodes s !! c = Some y -> m_parent y = d -> d <> 0 ->
  inodes s !! e = Some n -> is_directory n = true -> m_unlinked n = false -> m_filesystem n = m_filesystem y -> class n = class y -> class y = TmpfsInode ->
  up_chain (tree s) e l -> c ∉ l -> (forall k, k <> c -> ~ dir_entry (tree s) e name k) ->
  let s' := set_inodes (moved (now s) d c e name) s in
  vfs_inv s' held /\ quiet s s' /\ forall p nm k, dir_entry (tree s') p nm k <-> (k = c /\ p = e /\ nm = name) \/ (k <> c /\ dir_entry (tree s) p nm k).
Proof.
  intros H Hy Hp Hd0 Hn Hdir Hun Hfs Hcl Htm Hch Hcl2 Hfree s'. assert (He0 : e <> 0) by (apply (inv_nonzero s held H); by exists n).
  assert (Hce : c <> e) by (intros ->; apply Hcl2; destruct (chain_head _ _ _ Hch) as [_ [l2 ->]]; by left).
  destruct (move_inv s held d c y e n name l H Hy Hp Hd0 Hn Hdir Hun Hfs Hcl Htm Hch Hcl2) as [H' Q'].
  { intros k z Hz Hpz Hk Hnm. apply (Hfree k Hk). split; [done|]. exists (node_of z). split; [by apply tree_lookup|done]. }
  split_and!; [done|done|]. intros p nm k. unfold s'. rewrite moved_tree.
  rewrite (entry_relinked (tree s) _ c d e name p nm k (move_relinked (tree s) (held ++ mount_refs s) c d e name (node_of y) (v_tree _ _ H) (tree_lookup s c y Hy) Hp Hd0 He0 Hce)); [tauto|].
  exists (node_of y). by apply tree_lookup.
Qed.

Lemma moved_commute r f t d c e name (m : gmap Z Inode) : r <> d -> r <> c -> r <> e -> alter f r (moved t d c e name m) = moved t d c e name (alter f r m).
Proof.
  intros Hd Hc He. unfold moved. apply map_eq. intros k. rewrite !lookup_alter_at. destruct (m !! k) as [x|]; [|done]. cbn.
  destruct (decide (r = k)) as [<-|]; [|done]. by rewrite !decide_False.
Qed.

(** The same when the new name was that of [r], which is given up. *)
Lemma rename_replacing s held d c y e n name l r z : vfs_inv s held -> few s held -> inodes s !! c = Some y -> m_parent y = d -> d <> 0 ->
  inodes s !! e = Some n -> is_directory n = true -> m_unlinked n = false -> m_filesystem n = m_filesystem y -> class n = class y -> class y = TmpfsInode ->
  up_chain (tree s) e l -> c ∉ l -> inodes s !! r = Some z -> m_parent z = e -> m_name z = name -> m_children z = [] -> r <> c -> r <> d ->
  let s0 := set_inodes (alter mark_unlinked r) (set_inodes (moved (now s) d c e name) (set_inodes (alter (fun x => with_children (remove_child (m_children x) r) x) e) s)) in
  exists s', Inode_unref r s0 = (Ok tt, s') /\ vfs_inv s' held /\ quiet s s'
    /\ forall p nm k, dir_entry (tree s') p nm k <-> (k = c /\ p = e /\ nm = name) \/ (k <> c /\ ~ (p = e /\ nm = name) /\ dir_entry (tree s) p nm k).
Proof.
  intros H Hfew Hy Hp Hd0 Hn Hdir Hun Hfs Hcl Htm Hch Hcl2 Hz Hpz Hnz Hkz Hrc Hrd s0.
  assert (He0 : e <> 0) by (apply (inv_nonzero s held H); by exists n).
  assert (Hcz : class z <> UstarInode).
  { destruct (inv_parent s held H r z Hz ltac:(congruence)) as (px & Hpx & _ & _ & _ & Ecl & _). congruence. }
  destruct (detach_child_inv s held e n r z H Hfew Hn Hz Hpz Hkz Hcz) as (Hre & H1 & Q1 & Hz1).
  set (s1 := set_inode r (mark_unlinked z) (set_inode e (with_children (remove_child (m_children n) r) n) s)) in *.
  assert (Es : s0 = set_inodes (moved (now s) d c e name) s1).
  { unfold s0, s1, set_inode, set_inodes. cbn. f_equal. rewrite moved_commute by done. f_equal. rewrite (alter_some (inodes s) e n) by done. rewrite (alter_some _ r z); [done|]. by rewrite lookup_insert_ne. }
  assert (Hce : c <> e) by (intros ->; apply Hcl2; destruct (chain_head _ _ _ Hch) as [_ [l2 ->]]; by left).
  assert (Hy1 : inodes s1 !! c = Some y) by (unfold s1; by rewrite !set_inode_ne by congruence).
  assert (Hn1 : inodes s1 !! e = Some (with_children (remove_child (m_children n) r) n)) by (unfold s1; rewrite set_inode_ne by done; apply set_inode_eq).
  assert (Etr : tree s1 = alter n_unlink r (alter (n_remove r) e (tree s))).
  { unfold s1. rewrite !tree_set, (alter_some (tree s) e (node_of n)) by (by apply tree_lookup). rewrite (alter_some _ r (node_of z)); [done|]. rewrite lookup_insert_ne by done. by apply tree_lookup. }
  pose proof (detach_relinked (tree s) (held ++ mount_refs s) r e (node_of z) (v_tree _ _ H) (tree_lookup s r z Hz) Hpz He0) as Hrl. rewrite <- Etr in Hrl.
  assert (Hch1 : up_chain (tree s1) e l).
  { apply (chain_keep (tree s) (tree s1) e l Hch). intros j m Hj Hm. assert (Hjr : j <> r).
    { intros ->. by destruct (chain_avoids _ _ r (node_of z) (v_tree _ _ H) (tree_lookup s r z Hz) Hkz e l Hch ltac:(done)). }
    destruct (proj2 (rl_live _ _ _ _ _ _ Hrl j) (ex_intro _ m Hm)) as [m' Hm']. exists m'. split; [done|].
    destruct (rl_back _ _ _ _ _ _ Hrl j m' Hm') as (m0 & Hm0 & _ & _ & _ & _ & E & _). rewrite decide_False in E by done. congruence. }
  assert (Hent : forall p nm k, dir_entry (tree s1) p nm k <-> k <> r /\ dir_entry (tree s) p nm k).
  { intros p nm k. rewrite (entry_relinked _ _ r e 0 _ p nm k Hrl (ex_intro _ _ (tree_lookup s r z Hz))). split; [|tauto]. intros [(_ & _ & _ & ?)|?]; done. }
  assert (Hr0 : dir_entry (tree s) e name r) by (split; [done|]; exists (node_of z); split; [by apply tree_lookup|done]).
  destruct (rename_free s1 (r :: held) d c y e _ name l H1 Hy1 Hp Hd0 Hn1 Hdir Hun Hfs Hcl Htm Hch1 Hcl2) as (H2 & Q2 & E2).
  { intros k Hk Hek. apply Hent in Hek as [Hkr Hek]. by apply Hkr, (entry_unique s held e name). }
  change (now s1) with (now s) in *. rewrite <- Es in H2, Q2, E2.
  assert (Hz2 : inodes s0 !! r = Some (mark_unlinked z)).
  { rewrite Es. cbn. unfold moved. rewrite !lookup_alter_ne by done. done. }
  destruct (unref_at s0 held r _ H2 Hz2) as (s' & E' & H' & Q' & D'). exists s'. split_and!; [done|done| |].
  - assert (Q : quiet s s0) by (apply (quiet_trans s s1 s0 Q1 Q2); intros j Hj _; by apply live_set, live_set).
    apply (quiet_trans s s0 s' Q Q'). intros j Hj _. unfold s0. cbn. unfold moved. by rewrite !lookup_alter_is_Some.
  - intros p nm k. rewrite (entry_dropped s0 s' _ r _ p nm k H2 Hz2 D'), E2, Hent. split; [|intros [?|(? & Hne & Hek)]; [tauto|right; split_and!; [done| |done]]].
    + intros [?|(? & Hkr & Hek)]; [tauto|right]. split_and!; [done| |done]. intros [-> ->]. by apply Hkr, (entry_unique s held e name).
    + intros ->. apply Hne. destruct Hek as (_ & m & Hm & P & N), Hr0 as (_ & m2 & Hm2 & P2 & N2). rewrite Hm in Hm2. injection Hm2 as <-. split; congruence.
Qed.

Lemma named_entry s d name c y : d <> 0 -> inodes s !! c = Some y -> m_parent y = d -> m_name y = name -> dir_entry (tree s) d name c.
Proof. intros Hd Hy Hp Hn. split; [done|]. exists (node_of y). split; [by apply tree_lookup|done]. Qed.

Lemma rename_at h s held d x name e n new_name : vfs_inv s held -> few s held -> inodes s !! d = Some x -> inodes s !! e = Some n -> class x = TmpfsInode ->
  m_unlinked n = false -> m_filesystem n = m_filesystem x ->
  (forall c y, inodes s !! c = Some y -> m_parent y = d -> m_name y = name -> is_directory y = true -> exists l, up_chain (tree s) e l /\ c ∉ l) ->
  match tmpfs_rename h d name e new_name s with
  | (Ok _, s') => vfs_inv s' held /\ quiet s s' /\ exists c, renamed (tree s) (tree s') d name e new_name c
  | (Err e, s') => s' = s
  | (Panic, _) => False
  end.
Proof.
  intros H Hfew Hx Hn Hcx Hun Hfs Hbelow. assert (Hd0 : d <> 0) by (apply (inv_nonzero s held H); by exists x). assert (He0 : e <> 0) by (apply (inv_nonzero s held H); by exists n).
  unfold tmpfs_rename. rewrite (try_deref d x), (try_deref e n) by done. destruct (is_directory x) eqn:Hdx; [|done]. destruct (is_directory n) eqn:Hdn; [|done]. cbn [negb orb].
  destruct (Z.leb_spec FILENAME_MAX_LENGTH (zlen new_name)) as [?|Hl]; [done|].
  destruct (find_child_at s held H d x name Hx) as (c & Ec & Hc). rewrite (mtry_ok _ _ _ _ _ Ec). destruct (Z.eqb_spec c 0) as [->|Hc0]; [done|].
  destruct Hc as [[? _]|(y & Hy & Hp & Hnm)]; [done|]. pose proof (named_entry s d name c y Hd0 Hy Hp Hnm) as Hent.
  destruct (Z.eqb_spec e d) as [Eed|Hed]; [case_bool_decide as Enn|]; cbn [andb].
  1: { subst. split_and!; [done|apply quiet_refl|]. exists c. by apply (rename_noop s held). }
  all: destruct (find_child_at s held H e n new_name Hn) as (r & Er & Hr); rewrite (mtry_ok _ _ _ _ _ Er).
  all: destruct (Z.eqb_spec r c) as [->|Hrc];
    [split_and!; [done|apply quiet_refl|]; exists c; destruct Hr as [[? _]|(y' & Hy' & Hp' & Hn')]; [done|]; rewrite Hy in Hy'; injection Hy' as <-; subst; by apply (rename_noop s held)|].
  all: rewrite (try_deref c y) by done.
  all: destruct (inv_fs s held H e n Hn) as (f1 & Hf1 & Hc1); destruct (inv_parent s held H c y Hy ltac:(congruence)) as (px & Hpx & _ & _ & Hfy & Hcy & Hin).
  all: rewrite Hp, Hx in Hpx; injection Hpx as <-; destruct (inv_fs s held H d x Hx) as (f2 & Hf2 & Hc2).
  all: assert (Hcl : class n = class y) by (rewrite Hfs in Hf1; congruence); assert (Hfsy : m_filesystem n = m_filesystem y) by congruence; assert (Htm : class y = TmpfsInode) by congruence.
  all: assert (Hch : exists l, up_chain (tree s) e l /\ c ∉ l) by
    (destruct (is_directory y) eqn:Hdy; [by apply (Hbelow c y)|];
     destruct (t_chain _ _ (v_tree _ _ H) e ltac:(apply tree_live; by exists n)) as [l Hch]; exists l; split; [done|];
     apply (chain_avoids _ _ c (node_of y) (v_tree _ _ H) (tree_lookup s c y Hy)) with e; [|done|congruence];
     cbn; apply (leaf_children s held c y H Hy); by rewrite Hdy).
  all: destruct Hch as (l & Hch & Hcl2); destruct (Z.eqb_spec r 0) as [->|Hr0]; cbn [negb].
  1,3: rewrite mtry_mok; destruct (children_room h); cbn [negb]; [|done]; rewrite mtry_mok.
  1,2: rewrite moved_run by (done || (eexists; done)); unfold mok;
    destruct (rename_free s held d c y e n new_name l H Hy Hp Hd0 Hn Hdn Hun Hfsy Hcl Htm Hch Hcl2) as (H' & Q' & E');
    [intros k Hk (_ & m & Hm & Pm & Nm); apply tree_lookup_inv in Hm as (z & Hz & ->); by apply (proj1 (names_child_zero s held H e new_name 0 He0 Hr) eq_refl k z)|];
    split_and!; [done|done|]; exists c; split; [done|]; intros p nm k; rewrite E'; split; [|tauto]; intros [?|[? Hek]]; [by left|right]; split_and!; [done| |done]; intros [-> ->];
    destruct Hek as (_ & m & Hm & Pm & Nm); apply tree_lookup_inv in Hm as (z & Hz & ->); by apply (proj1 (names_child_zero s held H e new_name 0 He0 Hr) eq_refl k z).
  all: destruct Hr as [[? _]|(z & Hz & Hpz & Hnz)]; [done|]; unfold mtry at 1; rewrite (try_deref r z) by done.
  all: destruct (Bool.eqb (is_directory z) (is_directory y)) eqn:Edir; cbn [negb]; [|by destruct (is_directory y)].
  all: destruct (is_directory z && negb (bool_decide (m_children z = []))) eqn:Ek; [done|]; unfold mok at 1.
  all: pose proof (leaf_children s held r z H Hz Ek) as Hkz; destruct (children_room h); cbn [negb]; [|done].
  all: assert (Hrd : r <> d) by (intros ->; rewrite Hx in Hz; injection Hz as <-; rewrite Hkz in Hin; by apply not_elem_of_nil in Hin).
  all: unfold take_out at 1; rewrite try_alter by (eexists; done).
  all: rewrite moved_run by (done || (rewrite live_alter; eexists; done)); rewrite try_alter by (unfold inode_live; cbn; unfold moved; rewrite !lookup_alter_is_Some; eexists; done).
  all: destruct (rename_replacing s held d c y e n new_name l r z H Hfew Hy Hp Hd0 Hn Hdn Hun Hfsy Hcl Htm Hch Hcl2 Hz Hpz Hnz Hkz Hrc Hrd) as (s' & E' & H' & Q' & Hs').
  all: cbn [now set_inodes] in *; rewrite E'; split_and!; [done|done|]; exists c; split; done.
Qed.

End VfsTree.
