(* ===== verification/VfsCalls.v ===== *)
(** * The calls on names

    open, close, mkdir, mkfifo, unlink, rename, chmod and chdir: each keeps the
    invariant of VfsTree.v, and its effect is an effect on directories seen as
    finite maps from names to inodes. *)

From S2P Require Import Prelude Kstd Physical Pipe Files Paths Vfs Trees Tmpfs VfsTree.

Section VfsCalls.
Context {F : Type} {FA : FrameAllocator F}.
Implicit Types (s : @Vfs F) (x y : Inode) (held : list Z).

(** ** Effects on directories *)

Definition same_names s s' : Prop := forall p nm k, dir_entry (tree s') p nm k <-> dir_entry (tree s) p nm k.
Definition free_name s p nm : Prop := forall k, ~ dir_entry (tree s) p nm k.
Definition added s s' p nm c : Prop := free_name s p nm /\ forall q n k, dir_entry (tree s') q n k <-> (q = p /\ n = nm /\ k = c) \/ dir_entry (tree s) q n k.
Definition erased s s' p nm c : Prop := dir_entry (tree s) p nm c /\ forall q n k, dir_entry (tree s') q n k <-> ~ (q = p /\ n = nm) /\ dir_entry (tree s) q n k.

Lemma same_names_refl s : same_names s s.
Proof. done. Qed.

Lemma same_names_tree s s' : tree s' = tree s -> same_names s s'.
Proof. intros E p nm k. by rewrite E. Qed.

Lemma entry_inode s p nm k : dir_entry (tree s) p nm k <-> p <> 0 /\ exists y, inodes s !! k = Some y /\ m_parent y = p /\ m_name y = nm.
Proof.
  unfold dir_entry. split; intros (Hp & n & Hn & P & N); (split; [done|]).
  - apply tree_lookup_inv in Hn as (y & Hy & ->). by exists y.
  - exists (node_of n). split; [by apply tree_lookup|done].
Qed.

Lemma created_added s s' d x f name type mode c : d <> 0 -> inodes s !! d = Some x -> inodes s !! c = None ->
  (forall k y, inodes s !! k = Some y -> m_parent y = d -> m_name y <> name) ->
  inodes s' = <[d := with_children (m_children x ++ [c]) (touched (now s) x)]> (<[c := created s d x f name type mode]> (inodes s)) -> added s s' d name c.
Proof.
  intros Hd Hx Hc Hfree E. split; [intros k (_ & y & Hy & P & N)%entry_inode; by apply (Hfree k y)|]. intros q nm k.
  rewrite !entry_inode, E. destruct (decide (k = c)) as [->|Hk].
  - rewrite lookup_insert_ne, lookup_insert_eq, Hc by congruence. split; [|intros [(-> & -> & _)|(_ & y & ? & _)]; [|done]].
    + intros (Hq & y & [= <-] & P & N). left. unfold created in P, N. by case_bool_decide.
    + split; [done|]. eexists. split; [done|]. unfold created. by case_bool_decide.
  - destruct (decide (k = d)) as [->|Hkd].
    + rewrite lookup_insert_eq, Hx. split; [intros (Hq & y & [= <-] & P & N); right; split; [done|]; by exists x|].
      intros [(_ & _ & ?)|(Hq & y & [= <-] & P & N)]; [done|]. split; [done|]. eexists. split; [done|by split].
    + rewrite !lookup_insert_ne by done. split; [by right|]. intros [(_ & _ & ?)|?]; done.
Qed.

Lemma removed_erased s s' held d x c y name : vfs_inv s held -> inodes s !! d = Some x -> inodes s !! c = Some y -> m_parent y = d -> m_name y = name ->
  removed s s' d x c y -> erased s s' d name c.
Proof.
  intros H Hx Hy Hp Hnm R. assert (Hd : d <> 0) by (apply (inv_nonzero s held H); by exists x).
  assert (Hent : dir_entry (tree s) d name c) by (apply entry_inode; split; [done|by exists y]). split; [done|]. intros q nm k.
  assert (Hcd : c <> d) by (apply (relink_self (tree s) (held ++ mount_refs s) c d (node_of y)); [apply H|by apply tree_lookup|done|done]).
  destruct (decide (k = c)) as [->|Hk].
  - split; [intros (Hq & z & Hz & P & N)%entry_inode|intros (Hn & Hc)].
    + apply (rm_self _ _ _ _ _ _ R) in Hz. subst z. cbn in P. congruence.
    + exfalso. apply entry_inode in Hc as (_ & z & Hz & P & N). apply Hn. split; congruence.
  - assert (Hsame : dir_entry (tree s') q nm k <-> dir_entry (tree s) q nm k).
    { rewrite !entry_inode. destruct (decide (k = d)) as [->|Hkd]; [|by rewrite (rm_else _ _ _ _ _ _ R)]. rewrite (rm_dir _ _ _ _ _ _ R), Hx.
      split; intros (Hq & z & [= <-] & P & N); (split; [done|]); eexists; (split; [done|by split]). }
    rewrite Hsame. split; [|tauto]. intros Hq. split; [|done]. intros [-> ->]. by apply Hk, (entry_unique s held d name).
Qed.

(** ** Creating and removing by path *)

Definition base_linked s base : Prop := base = 0 \/ linked s base.

Lemma base_linked_ok s base : base_linked s base -> base_ok s base.
Proof. intros [?|?]; [by left|right; by apply linked_live]. Qed.

(** What a call that makes a node does. *)
Definition made s held s' p name c : Prop := vfs_inv s' held /\ quiet s s' /\ added s s' p name c /\ linked s' c /\ forall j, inode_live s j -> inode_live s' j.

Lemma new_at h s held p x name type mode : vfs_inv s held -> inodes s !! p = Some x -> m_unlinked x = false -> heap_ok h s ->
  match (let! ro := is_read_only (m_filesystem x) in if ro then merr EROFS else Inode_create h p name type mode) s with
  | (Ok c, s') => made s held s' p name c /\ inode_memory h = Some c
  | (Err e, s') => vfs_inv s' held /\ quiet s s' /\ same_names s s'
  | (Panic, _) => False
  end.
Proof.
  intros H Hx Hu Hh. rewrite (mtry_ok _ _ _ _ _ (read_only_at s held H p x Hx)). case_bool_decide as Hro; [split_and!; [done|apply quiet_refl|done]|].
  unfold Inode_create. rewrite (try_deref p x) by done. case_bool_decide as Hc; [|split_and!; [done|apply quiet_refl|done]].
  pose proof (create_at h s held p x name type mode H Hx Hc Hu Hh) as Hcr. destruct (tmpfs_create h p name type mode s) as [[c|e|] s']; [| |done].
  - destruct Hcr as (H' & Q' & Hm & _ & _ & Hfree & f & E). assert (Hp0 : p <> 0) by (apply (inv_nonzero s held H); by exists x). destruct (Hh c Hm) as [_ Hcn].
    split; [|done]. split_and!; [done|done|by apply (created_added s s' p x f name type mode c)| |].
    + exists (created s p x f name type mode). rewrite E, lookup_insert_ne, lookup_insert_eq by congruence. split; [done|]. unfold created. by case_bool_decide.
    + intros j Hj. unfold inode_live. rewrite E. by apply (live_set (set_inode c _ s) p), live_set.
  - destruct Hcr as (H' & Q' & E). split_and!; [done|done|by apply same_names_tree].
Qed.

Lemma make_node_at h s held type path mode umask base : vfs_inv s held -> base_linked s base -> heap_ok h s ->
  match make_node h type path mode umask base s with
  | (Ok _, s') => exists p name c, resolve_parent path base s = (Ok (p, name), s) /\ made s held s' p name c
  | (Err e, s') => vfs_inv s' held /\ quiet s s' /\ same_names s s'
  | (Panic, _) => False
  end.
Proof.
  intros H Hb Hh. pose proof (base_linked_ok _ _ Hb) as Hb0. unfold make_node. unfold mtry at 1, mcatch. pose proof (resolve_at s held H path base Hb0) as Hr.
  destruct (resolve path base s) as [[i|e|] s1]; [destruct Hr as (-> & _)|subst s1|done]; [split_and!; [done|apply quiet_refl|done]|].
  pose proof (resolve_parent_at s held H path base Hb0) as Hp. unfold mtry at 1. destruct (resolve_parent path base s) as [[[p name]|e1|] s1]; [|subst; split_and!; [done|apply quiet_refl|done]|done].
  destruct Hp as (-> & _ & Hl). destruct (Hl Hb) as (x & Hx & Hu). rewrite (try_deref p x) by done.
  pose proof (new_at h s held p x name type (umasked mode umask) H Hx Hu Hh) as Hn. revert Hn. unfold mtry. destruct (is_read_only (m_filesystem x) s) as [[[]|?|] s1]; try done.
  destruct (Inode_create _ _ _ _ _ _) as [[c|?|] s2]; try done. intros [Hm _]. exists p, name, c. done.
Qed.

Lemma erase_at s held p x name : vfs_inv s held -> few s held -> inodes s !! p = Some x ->
  match Inode_unlink p name s with
  | (Ok _, s') => vfs_inv s' held /\ quiet s s' /\ exists c, erased s s' p name c
  | (Err e, s') => s' = s
  | (Panic, _) => False
  end.
Proof.
  intros H Hf Hx. unfold Inode_unlink. rewrite (try_deref p x) by done. case_bool_decide as Hc; [|done].
  pose proof (unlink_at s held p x name H Hf Hx Hc) as Hu. destruct (tmpfs_unlink p name s) as [[u|e|] s']; [|done|done].
  destruct Hu as (H' & Q' & c & y & Hy & Hp & Hn & _ & R). split_and!; [done|done|]. exists c. by apply (removed_erased s s' held p x c y name).
Qed.

Lemma unlink_common_at s held path base dir : vfs_inv s held -> few s held -> base_ok s base ->
  match sys_unlink_common path base dir s with
  | (Ok _, s') => vfs_inv s' held /\ quiet s s' /\ exists p name c, resolve_parent path base s = (Ok (p, name), s) /\ erased s s' p name c
  | (Err e, s') => s' = s
  | (Panic, _) => False
  end.
Proof.
  intros H Hf Hb. unfold sys_unlink_common. pose proof (resolve_at s held H path base Hb) as Hr. unfold mtry at 1.
  destruct (resolve path base s) as [[i|e|] s1]; [destruct Hr as (-> & [x Hx] & _)|by subst|done]. rewrite (try_deref i x) by done.
  destruct (dir && _); [done|]. destruct (negb dir && _); [done|]. pose proof (resolve_parent_at s held H path base Hb) as Hp. unfold mtry at 1.
  destruct (resolve_parent path base s) as [[[p name]|e1|] s1]; [destruct Hp as (-> & [y Hy] & _)|by subst|done]. rewrite (try_deref p y) by done.
  rewrite (mtry_ok _ _ _ _ _ (read_only_at s held H p y Hy)). case_bool_decide; [done|].
  pose proof (erase_at s held p y name H Hf Hy) as He. destruct (Inode_unlink p name s) as [[u|e|] s']; [|done|done].
  destruct He as (? & ? & c & ?). split_and!; [done|done|]. by exists p, name, c.
Qed.

Lemma unlinkat_at s held path base dir : vfs_inv s held -> few s held -> base_ok s base ->
  match sys_unlinkat path base dir s with
  | (Ok _, s') => vfs_inv s' held /\ quiet s s' /\ exists p name c, resolve_parent path base s = (Ok (p, name), s) /\ erased s s' p name c
  | (Err e, s') => s' = s
  | (Panic, _) => False
  end.
Proof.
  intros H Hf Hb. unfold sys_unlinkat. pose proof (resolve_parent_at s held H path base Hb) as Hp. unfold mtry at 1.
  destruct (resolve_parent path base s) as [[[p name]|e1|] s1]; [destruct Hp as (-> & [y Hy] & _)|by subst|done]. rewrite (try_deref p y) by done.
  rewrite (mtry_ok _ _ _ _ _ (read_only_at s held H p y Hy)). case_bool_decide; [done|].
  pose proof (lookup_at s held H p y name Hy) as Hl. unfold mtry at 1. destruct (lookup p name s) as [[t|e|] s1]; [destruct Hl as (-> & _ & x & Hx & _)|by destruct Hl|done].
  rewrite (try_deref t x) by done. destruct (dir && _); [done|]. destruct (negb dir && _); [done|].
  pose proof (erase_at s held p y name H Hf Hy) as He. destruct (Inode_unlink p name s) as [[u|e|] s']; [|done|done].
  destruct He as (? & ? & c & ?). split_and!; [done|done|]. by exists p, name, c.
Qed.

(** ** rename *)

(** The walk up from the new parent goes over its chain, which the fuel covers. *)
Lemma walk_up_chain s held e l c : vfs_inv s held -> up_chain (tree s) e l -> c <> 0 -> forall fuel, (length l < fuel)%nat -> walk_up fuel e c s = (Ok (bool_decide (c ∈ l)), s).
Proof.
  intros H Hch Hc0. assert (Hz : forall i n, tree s !! i = Some n -> i <> 0) by (intros i n Hn ->; by rewrite (t_null _ _ (v_tree _ _ H)) in Hn).
  induction Hch as [i n Hn Hp|i n l Hn Hp Hl IH]; intros [|fuel] Hf; cbn [length] in Hf; try lia; cbn [walk_up];
    (destruct (Z.eqb_spec i 0); [by destruct (Hz i n)|]); destruct (Z.eqb_spec i c) as [->|Hic].
  1, 3: by rewrite bool_decide_eq_true_2 by left.
  all: pose proof Hn as (x & Hx & ->)%tree_lookup_inv; rewrite (try_deref i x) by done; cbn in Hp.
  - rewrite Hp. destruct fuel; [lia|]. cbn [walk_up Z.eqb]. rewrite bool_decide_eq_false_2; [done|]. rewrite list_elem_of_singleton. congruence.
  - cbn [n_parent node_of] in IH. rewrite (IH fuel) by lia. f_equal. f_equal. apply bool_decide_ext. rewrite elem_of_cons. naive_solver.
Qed.

Lemma walk_up_at s held e c : vfs_inv s held -> inode_live s e -> c <> 0 ->
  exists l, up_chain (tree s) e l /\ walk_up (S (size (inodes s))) e c s = (Ok (bool_decide (c ∈ l)), s).
Proof.
  intros H He Hc. destruct (t_chain _ _ (v_tree _ _ H) e) as [l Hl]; [by apply tree_live|]. exists l. split; [done|]. apply (walk_up_chain s held e l c H Hl Hc).
  pose proof (chain_length _ _ _ Hl) as Hs. unfold tree in Hs. rewrite map_size_fmap in Hs. lia.
Qed.

Lemma rename_inode_at h s held p x name q n new_name c y l : vfs_inv s held -> few s held -> inodes s !! p = Some x -> inodes s !! q = Some n ->
  m_unlinked n = false -> m_filesystem x = m_filesystem n -> inodes s !! c = Some y -> m_parent y = p -> m_name y = name -> up_chain (tree s) q l -> (is_directory y = true -> c ∉ l) ->
  match Inode_rename h p name q new_name s with
  | (Ok _, s') => vfs_inv s' held /\ quiet s s' /\ exists c, renamed (tree s) (tree s') p name q new_name c
  | (Err e, s') => s' = s
  | (Panic, _) => False
  end.
Proof.
  intros H Hf Hx Hn Hu Efs Hy Hpy Hny Hch Hnl. unfold Inode_rename. rewrite (try_deref p x) by done. case_bool_decide as Hc; [|done].
  apply (rename_at h s held p x name q n new_name H Hf Hx Hn Hc Hu (eq_sym Efs)). intros c1 y1 Hy1 P1 N1 D1. exists l. split; [done|].
  assert (Hp0 : p <> 0) by (apply (inv_nonzero s held H); by exists x).
  assert (Ec : c1 = c) by (apply (names_child_unique s held H p name c1 c Hp0); right; [by exists y1|by exists y]). rewrite Ec. apply Hnl. congruence.
Qed.

Lemma rename_call_at h s held from to base : vfs_inv s held -> few s held -> base_linked s base ->
  match rename h from to base s with
  | (Ok _, s') => vfs_inv s' held /\ quiet s s' /\ exists p name q new_name c, resolve_parent from base s = (Ok (p, name), s) /\ resolve_parent to base s = (Ok (q, new_name), s)
      /\ renamed (tree s) (tree s') p name q new_name c
  | (Err e, s') => s' = s
  | (Panic, _) => False
  end.
Proof.
  intros H Hf Hb. pose proof (base_linked_ok _ _ Hb) as Hb0. unfold rename.
  pose proof (resolve_parent_at s held H from base Hb0) as Hp. unfold mtry at 1. destruct (resolve_parent from base s) as [[[p name]|e1|] s1]; [destruct Hp as (-> & [x Hx] & _)|by subst|done].
  pose proof (resolve_parent_at s held H to base Hb0) as Hq. unfold mtry at 1. destruct (resolve_parent to base s) as [[[q new_name]|e1|] s1]; [destruct Hq as (-> & _ & Hq)|by subst|done].
  destruct (Hq Hb) as (n & Hn & Hu). rewrite (try_deref p x), (try_deref q n) by done. destruct (Z.eqb_spec (m_filesystem x) (m_filesystem n)) as [Efs|]; cbn [negb]; [|done].
  rewrite (mtry_ok _ _ _ _ _ (read_only_at s held H p x Hx)). case_bool_decide as Hro; [done|]. destruct (_ || _ || _ || _); [done|].
  pose proof (lookup_at s held H p x name Hx) as Hl. unfold mtry at 1. destruct (lookup p name s) as [[c|e|] s1]; [destruct Hl as (-> & Hdx & y & Hy & Hpy & Hny)|by destruct Hl|done].
  rewrite (try_deref c y) by done. rewrite mtry_get. assert (Hc0 : c <> 0) by (apply (inv_nonzero s held H); by exists y).
  destruct (walk_up_at s held q c H ltac:(by exists n) Hc0) as (l & Hch & Ew).
  pose proof (rename_inode_at h s held p x name q n new_name c y l H Hf Hx Hn Hu Efs Hy Hpy Hny Hch) as Hgo.
  unfold mtry at 1. destruct (is_directory y) eqn:Hdy; [rewrite (mtry_ok _ _ _ _ _ Ew); case_bool_decide as Hin; [done|]|]; unfold mok at 1; specialize (Hgo ltac:(done));
    (destruct (Inode_rename h p name q new_name s) as [[u|e|] s']; [|done|done]); destruct Hgo as (? & ? & c0 & Hr); (split_and!; [done|done|]); by exists p, name, q, new_name, c0.
Qed.

(** ** Steps that leave the tree alone *)

Lemma alter_inv s held i f : vfs_inv s held -> (forall x, node_of (f x) = node_of x) -> (forall x, file_of (f x) = file_of x) ->
  vfs_inv (set_inodes (alter f i) s) held /\ quiet s (set_inodes (alter f i) s) /\ tree (set_inodes (alter f i) s) = tree s.
Proof.
  intros H Hn Hf. pose proof (tree_alter_id i f s Hn) as Et. pose proof (files_alter i f s Hf) as Ef. split_and!; [split| |done].
  - unfold files_ok. rewrite Ef. apply H.
  - rewrite Et. apply H.
  - rewrite Et. apply H.
  - by apply quiet_files.
Qed.

Lemma step_inv s s' held i x x' : vfs_inv s held -> inodes s !! i = Some x -> file_step s s' i x x' -> vfs_inv s' held /\ tree s' = tree s.
Proof.
  intros H Hx S. destruct (fs_rest _ _ _ _ _ S) as (E1 & E2 & E3 & _).
  assert (Et : tree s' = tree s) by (unfold tree; rewrite (fs_inodes _ _ _ _ _ S), fmap_insert, (fs_node _ _ _ _ _ S); apply insert_id, tree_lookup, Hx).
  split; [split|done]; rewrite ?Et; [apply S| |]; unfold mount_refs; rewrite ?E1, ?E2, ?E3; apply H.
Qed.

(** The bytes of the file [i] became [new] of what they were; no other file's
    changed. *)
Definition bytes s s' i (new : list Z -> list Z) : Prop := forall j y y', inodes s !! j = Some y -> inodes s' !! j = Some y' -> class y = TmpfsInode ->
  class y' = TmpfsInode /\ contents (mem s') (file_of y') = (if decide (j = i) then new else id) (contents (mem s) (file_of y)).

Lemma step_bytes s s' i x x' new : inodes s !! i = Some x -> file_step s s' i x x' -> contents (mem s') (file_of x') = new (contents (mem s) (file_of x)) -> bytes s s' i new.
Proof.
  intros Hx S E j y y' Hy Hy' Hc. rewrite (fs_inodes _ _ _ _ _ S) in Hy'. case_decide as Hj.
  - subst j. rewrite lookup_insert_eq in Hy'. simplify_eq. split; [|done]. pose proof (fs_node _ _ _ _ _ S) as En. unfold node_of in En. congruence.
  - rewrite lookup_insert_ne in Hy' by done. simplify_eq. split; [done|]. by apply (fs_else _ _ _ _ _ S j).
Qed.

Lemma quiet_bytes s s' i : quiet s s' -> bytes s s' i id.
Proof. intros Q j y y' Hy Hy' Hc. destruct (q_contents _ _ Q j y y' Hy Hy' Hc) as [E1 E2]. split; [done|]. by case_decide. Qed.

Lemma bytes_trans s s1 s2 i new : (forall j, inode_live s j -> inode_live s2 j -> inode_live s1 j) -> bytes s s1 i id -> bytes s1 s2 i new -> bytes s s2 i new.
Proof.
  intros Hl B1 B2 j y y2 Hy Hy2 Hc. destruct (Hl j ltac:(by exists y) ltac:(by exists y2)) as [y1 Hy1]. destruct (B1 j y y1 Hy Hy1 Hc) as [Hc1 E1]. destruct (B2 j y1 y2 Hy1 Hy2 Hc1) as [Hc2 E2].
  split; [done|]. rewrite E2, E1. by case_decide.
Qed.

Lemma bytes_after s s1 s2 i new : (forall j, inode_live s j -> inode_live s2 j -> inode_live s1 j) -> bytes s s1 i new -> bytes s1 s2 i id -> bytes s s2 i new.
Proof.
  intros Hl B1 B2 j y y2 Hy Hy2 Hc. destruct (Hl j ltac:(by exists y) ltac:(by exists y2)) as [y1 Hy1]. destruct (B1 j y y1 Hy Hy1 Hc) as [Hc1 E1]. destruct (B2 j y1 y2 Hy1 Hy2 Hc1) as [Hc2 E2].
  split; [done|]. rewrite E2, E1. by case_decide.
Qed.

Lemma same_names_trans s s1 s2 : same_names s s1 -> same_names s1 s2 -> same_names s s2.
Proof. intros H1 H2 p nm k. by rewrite (H2 p nm k), (H1 p nm k). Qed.

Lemma same_names_added s s1 s2 p nm c : added s s1 p nm c -> same_names s1 s2 -> added s s2 p nm c.
Proof. intros [Hf Ha] Hs. split; [done|]. intros q n k. by rewrite (Hs q n k), Ha. Qed.

Lemma live_tree s s' j : tree s' = tree s -> inode_live s j <-> inode_live s' j.
Proof. intros E. unfold inode_live. by rewrite <- !tree_live, E. Qed.

(** ** open and close *)

(** The entry an open makes, if any. *)
Definition open_names s s' path base i : Prop :=
  resolve path base s = (Ok i, s) /\ same_names s s'
  \/ resolve path base s = (Err ENOENT, s) /\ exists p name, resolve_parent path base s = (Ok (p, name), s) /\ added s s' p name i.

Lemma open_inode_at h s held path flags mode base : vfs_inv s held -> base_ok s base -> (flag_set flags O_CREAT = true -> base_linked s base) -> heap_ok h s ->
  match open_inode h path flags mode base s with
  | (Ok i, s') => vfs_inv s' held /\ quiet s s' /\ inode_live s' i /\ open_names s s' path base i /\ (forall j, inode_live s j -> inode_live s' j)
  | (Err e, s') => vfs_inv s' held
  | (Panic, _) => False
  end.
Proof.
  intros H Hb Hb2 Hh. unfold open_inode. unfold mtry at 1, mcatch. pose proof (resolve_at s held H path base Hb) as Hr.
  unfold open_names. destruct (resolve path base s) as [[i|e|] s1]; [destruct Hr as (-> & Hi & _)|subst s1|done].
  - destruct (_ && _); [done|]. split_and!; [done|apply quiet_refl|done|by left|done].
  - destruct (Z.eqb_spec e ENOENT) as [->|]; [|done]. destruct (flag_set flags O_CREAT) eqn:Ec; [|done]. cbn [negb orb]. specialize (Hb2 eq_refl).
    pose proof (resolve_parent_at s held H path base Hb) as Hp. unfold mtry at 1. destruct (resolve_parent path base s) as [[[p name]|e1|] s1]; [destruct Hp as (-> & _ & Hl)|by subst|done].
    destruct (Hl Hb2) as (x & Hx & Hu). rewrite (try_deref p x) by done. pose proof (new_at h s held p x name Regular mode H Hx Hu Hh) as Hn.
    destruct (mtry _ _ s) as [[c|?|] s2]; [|by destruct Hn|done]. destruct Hn as [(H' & Q' & A' & L' & K') Hm]. split_and!; [done|done|by apply linked_live| |done].
    right. split; [done|]. by exists p, name.
Qed.

(** Whether an open empties the file. *)
Definition truncates (flags : Z) : bool := flag_set flags O_TRUNC && negb (Z.land flags O_ACCMODE =? O_RDONLY).

Lemma contents_dir m x : m_size x = 0 -> contents m (file_of x) = [].
Proof. intros E. unfold contents. cbn. by rewrite E. Qed.

Lemma cut_at h s held i x flags : vfs_inv s held -> inodes s !! i = Some x -> is_directory x = false \/ truncates flags = false ->
  match (if truncates flags && bool_decide (m_type x = Regular) then Inode_truncate h i 0 else mok tt) s with
  | (Ok _, s') => vfs_inv s' held /\ tree s' = tree s /\ s_mounts s' = s_mounts s /\ (exists x', inodes s' !! i = Some x' /\ m_type x' = m_type x) /\ bytes s s' i (if truncates flags && bool_decide (m_type x = Regular) then fun _ => [] else id)
  | (Err e, s') => vfs_inv s' held
  | (Panic, _) => False
  end.
Proof.
  intros H Hx Hd. destruct (truncates flags && _) eqn:Ef; [|split_and!; [done|done|done|by exists x|apply quiet_bytes, quiet_refl]].
  apply andb_true_iff in Ef as [Ef _]. unfold Inode_truncate. rewrite (try_deref i x) by done. case_bool_decide as Hc; [|done].
  pose proof (truncate_at h s i x 0 (v_files _ _ H) Hx Hc ltac:(destruct Hd; congruence) ltac:(lia)) as Ht. destruct (tmpfs_truncate h i 0 s) as [[u|e|] s']; [| |done].
  - destruct Ht as (x' & S & E & _). destruct (step_inv s s' held i x x' H Hx S) as [H' Et]. split_and!; [done|done|by destruct (fs_rest _ _ _ _ _ S) as (_ & ? & _)|exists x'; split; [by rewrite (fs_inodes _ _ _ _ _ S), lookup_insert_eq|apply S]|].
    apply (step_bytes s s' i x x'); [done|done|]. rewrite E. unfold resized_bytes. by destruct (contents (mem s) (file_of x)).
  - destruct Ht as (_ & _ & x' & S & _). by apply (step_inv s s' held i x x' H Hx S).
Qed.

(** Taking a reference to an inode the call has resolved. *)
Lemma hold_at s held i : vfs_inv s held -> few s held -> inode_live s i ->
  exists s', Inode_ref i s = (Ok tt, s') /\ vfs_inv s' (i :: held) /\ quiet s s' /\ same_names s s' /\ s_mounts s' = s_mounts s /\ (forall j, inode_live s' j <-> inode_live s j)
    /\ (m_type <$> inodes s' !! i) = (m_type <$> inodes s !! i).
Proof.
  intros H Hf [x Hx]. destruct (ref_at s held i x H Hx Hf) as (E & H' & Q'). eexists. split; [exact E|]. split_and!; [done|done| |done| |by rewrite set_inode_eq, Hx].
  - intros p nm k. apply entry_shape. rewrite tree_set. change (node_of (with_count (m_reference_count x + 1) x)) with ((fun n => n_with_count (n_count n + 1) n) (node_of x)).
    rewrite <- (alter_some (tree s) i (node_of x)) by (by apply tree_lookup). apply same_shape_count.
  - intros j. unfold inode_live. destruct (decide (j = i)) as [->|]; [rewrite set_inode_eq, Hx; split; by eexists|by rewrite set_inode_ne].
Qed.

(** What a call on the pipe behind a FIFO does to the state. *)
Definition through_fifo s s' i : Prop := s' = s \/ exists p, s' = set_inodes (alter (with_fifo (Some p)) i) s.

Lemma through_inv s s' held i : vfs_inv s held -> through_fifo s s' i ->
  vfs_inv s' held /\ quiet s s' /\ tree s' = tree s /\ s_mounts s' = s_mounts s /\ (m_type <$> inodes s' !! i) = (m_type <$> inodes s !! i).
Proof.
  intros H [->|[p ->]]; [split_and!; [done|apply quiet_refl|done..]|]. destruct (alter_inv s held i (with_fifo (Some p)) H) as (H' & Q & T); [done..|]. split_and!; try done.
  change (m_type <$> alter (with_fifo (Some p)) i (inodes s) !! i = m_type <$> inodes s !! i). rewrite lookup_alter_at, decide_True by done. by destruct (inodes s !! i).
Qed.

(** Such a call ends, sleeps or fails; it does not panic. *)
Definition fifo_call {L A} i s (r : Res (Blocking L A) * @Vfs F) : Prop :=
  match r with (Ok (Done (Ok _)), s') | (Ok (WaitOn _), s') | (Err _, s') => through_fifo s s' i | _ => False end.

Lemma settled_call {L A} i s x p (b : Blocking L A) : inodes s !! i = Some x -> b <> Done Panic -> fifo_call i s ((modify i (with_fifo (Some p)) ;! settled b) s).
Proof. intros Hx Hb. rewrite try_alter by (by exists x). destruct b as [[a|e|]|l]; try done; right; by exists p. Qed.

Lemma pipe_read_returns pending n p : snd (PipeBuffer_read pending n p) <> Done Panic.
Proof. unfold PipeBuffer_read. repeat case_match; done. Qed.

Lemma write_turns_return fuel pending : forall rest written p effects, snd (write_turns fuel pending rest written p effects) <> Done Panic.
Proof. induction fuel as [|fuel IH]; intros rest written p effects; [done|]. cbn [write_turns]. repeat case_match; done || apply IH. Qed.

Lemma await_check_returns as_reader n pending p : snd (await_check as_reader n pending p) <> Done Panic.
Proof. unfold await_check. repeat case_match; done. Qed.

Lemma await_peer_returns flags pending p : snd (PipeBuffer_await_peer flags pending p) <> Done Panic.
Proof.
  unfold PipeBuffer_await_peer. destruct (_ && _); [done|]. match goal with |- context [await_check ?a ?b ?c ?d] => pose proof (await_check_returns a b c d) as Hr; destruct (await_check a b c d) as [p' b'] end. done.
Qed.

Lemma await_at pending i flags s x : inodes s !! i = Some x -> fifo_call i s (TmpfsInode_await_peer pending i flags s).
Proof.
  intros Hx. unfold TmpfsInode_await_peer. rewrite (try_deref i x) by done. destruct (m_fifo x) as [p|]; [|by left].
  pose proof (await_peer_returns flags pending p) as Hr. destruct (PipeBuffer_await_peer flags pending p) as [[p' e] b]. by apply (settled_call i s x).
Qed.

Lemma await_resume_at pending i flags n s x : inodes s !! i = Some x -> m_fifo x <> None -> fifo_call i s (await_peer_resume pending i flags n s).
Proof.
  intros Hx Hf. unfold await_peer_resume. rewrite (try_deref i x) by done. destruct (m_fifo x) as [p|]; [|done].
  pose proof (await_check_returns (Z.land flags O_ACCMODE =? O_RDONLY) n pending p) as Hr. destruct (await_check _ n pending p) as [p' b]. by apply (settled_call i s x).
Qed.

(** Reading and writing what has a pipe behind it. *)
Lemma fifo_read_at pending i offset n s x : inodes s !! i = Some x -> m_fifo x <> None -> fifo_call i s (TmpfsInode_read pending i offset n s).
Proof.
  intros Hx Hf. unfold TmpfsInode_read. rewrite (try_deref i x) by done. destruct (m_fifo x) as [p|]; [|done].
  pose proof (pipe_read_returns pending n p) as Hr. destruct (PipeBuffer_read pending n p) as [[p' e] b]. by apply (settled_call i s x).
Qed.

Lemma fifo_write_at h pending i offset rest written s x : inodes s !! i = Some x -> m_fifo x <> None -> fifo_call i s (TmpfsInode_write h pending i offset rest written s).
Proof.
  intros Hx Hf. unfold TmpfsInode_write. rewrite (try_deref i x) by done. destruct (m_fifo x) as [p|]; [|done].
  pose proof (write_turns_return 3 pending rest written p []) as Hr. unfold PipeBuffer_write. destruct (write_turns 3 pending rest written p []) as [[p' e] b]. by apply (settled_call i s x).
Qed.

Lemma file_read_at pending i offset n s x : inodes s !! i = Some x -> m_fifo x = None ->
  TmpfsInode_read pending i offset n s = (let '(r, s') := tmpfs_read i offset n s in (match r with Ok l => Ok (Done (Ok l)) | Err e => Err e | Panic => Panic end, s')).
Proof. intros Hx Hf. unfold TmpfsInode_read. rewrite (try_deref i x), Hf by done. unfold mtry. by destruct (tmpfs_read i offset n s) as [[| |] ?]. Qed.

Lemma file_write_at h pending i offset rest written s x : inodes s !! i = Some x -> m_fifo x = None ->
  TmpfsInode_write h pending i offset rest written s = (let '(r, s') := tmpfs_write h i offset rest s in (match r with Ok n => Ok (Done (Ok n)) | Err e => Err e | Panic => Panic end, s')).
Proof. intros Hx Hf. unfold TmpfsInode_write. rewrite (try_deref i x), Hf by done. unfold mtry. by destruct (tmpfs_write h i offset rest s) as [[| |] ?]. Qed.

(** The description an open makes. *)
Lemma describe_at h s held i flags : vfs_inv s held -> few s held -> inode_live s i ->
  match describe h i flags s with
  | (Ok d, s') => vfs_inv s' (i :: held) /\ m_inode d = i /\ m_flags d = flags /\ quiet s s' /\ same_names s s' /\ (forall j, inode_live s' j <-> inode_live s j)
      /\ exists x, inodes s' !! i = Some x /\ Some (m_type x) = m_type <$> inodes s !! i /\ m_offset d = (if flag_set flags O_APPEND then m_size x else 0)
  | (Err e, s') => s' = s
  | (Panic, _) => False
  end.
Proof.
  intros H Hf Hl. unfold describe. destruct (description_memory h); cbn [negb]; [|done]. destruct (hold_at s held i H Hf Hl) as (s3 & E3 & H3 & Q3 & N3 & M3 & L3 & Ty3). rewrite (mtry_ok _ _ _ _ _ E3).
  destruct (proj2 (L3 i) Hl) as [x3 Hx3]. rewrite Hx3 in Ty3. unfold on_description_opened. rewrite try_alter by (by exists x3). set (f := fun y : Inode => if bool_decide (class y = DevfsInode) then _ else _).
  destruct (alter_inv s3 (i :: held) i f H3) as (H4 & Q4 & T4); [intros y; unfold f; repeat case_match; done..|]. set (s4 := set_inodes (alter f i) s3) in *.
  assert (L4 : forall j, inode_live s3 j <-> inode_live s4 j) by (intros j; by apply live_tree).
  assert (Hx4 : inodes s4 !! i = Some (f x3)) by (unfold s4; cbn; by rewrite lookup_alter_at, Hx3, decide_True).
  rewrite (try_deref i (f x3)) by done. unfold mok. cbn [m_inode m_flags m_offset]. split_and!; [done|done|done| | | |exists (f x3); split_and!; [done| |done]].
  - apply (quiet_trans s s3 s4 Q3 Q4). intros j Hj _. by apply L3.
  - apply (same_names_trans s s3); [done|by apply same_names_tree].
  - intros j. by rewrite <- L4, L3.
  - rewrite <- Ty3. unfold f. repeat case_match; done.
Qed.

(** What [open_finish] leaves: a description, or a sleeping call. *)
Definition opened_at s s' held i flags (b : Blocking (Z * Z) FileDescription) : Prop :=
  match b with
  | Done (Ok d) => vfs_inv s' (i :: held) /\ m_inode d = i /\ m_flags d = flags
      /\ exists x, inodes s' !! i = Some x /\ Some (m_type x) = m_type <$> inodes s !! i /\ m_offset d = (if flag_set flags O_APPEND then m_size x else 0)
  | Done _ => False
  | WaitOn (j, _) => vfs_inv s' held /\ j = i /\ exists x, inodes s' !! i = Some x /\ Some (m_type x) = m_type <$> inodes s !! i
  end.

Lemma finish_at h s held i flags L (m : M (@Vfs F) (Blocking Z unit)) : vfs_inv s held -> few s held -> inode_live s i -> L = (fun j => inode_live s j) -> fifo_call i s (m s) ->
  match (let! b := m in open_finish h i flags b) s with
  | (Ok b, s') => opened_at s s' held i flags b /\ quiet s s' /\ same_names s s' /\ (forall j, inode_live s' j <-> L j)
  | (Err e, s') => vfs_inv s' held
  | (Panic, _) => False
  end.
Proof.
  intros H Hf Hi -> Hm. unfold mtry at 1. destruct (m s) as [[b|e|] s1]; [|by apply (through_inv s s1 held i H)|done].
  assert (Ht : through_fifo s s1 i) by (by destruct b as [[| |]|]). destruct (through_inv s s1 held i H Ht) as (H1 & Q1 & T1 & M1 & Ty1). assert (L1 : forall j, inode_live s j <-> inode_live s1 j) by (intros j; by apply live_tree).
  destruct b as [[u|?|]|n]; try done; cbn [open_finish].
  - assert (F1 : few s1 held) by (unfold few; by rewrite M1). pose proof (describe_at h s1 held i flags H1 F1 ltac:(by apply L1)) as Hd. unfold mtry. destruct (describe h i flags s1) as [[d|e|] s2]; [|by subst|done].
    destruct Hd as (H2 & Ed & Ef & Q2 & N2 & L2 & x & Hx & Tx & Eo). unfold mok. split_and!.
    + split_and!; [done|done|done|]. exists x. split_and!; [done|by rewrite Tx, Ty1|done].
    + apply (quiet_trans s s1 s2 Q1 Q2). intros j Hj _. by apply L1.
    + apply (same_names_trans s s1); [by apply same_names_tree|done].
    + intros j. by rewrite L2, L1.
  - destruct (proj1 (L1 i) Hi) as [x1 Hx1]. unfold mok. split_and!; [split_and!; [done|done|exists x1; split; [done|by rewrite <- Ty1, Hx1]]|done|by apply same_names_tree|intros j; by rewrite L1].
Qed.

(** The inode an open has arrived at, and what it did to its bytes. *)
Definition open_at_inode s s' path flags base i : Prop :=
  open_names s s' path base i /\ exists x, inodes s' !! i = Some x /\ bytes s s' i (if truncates flags && bool_decide (m_type x = Regular) then fun _ => [] else id).

Lemma open_at h pending s held path flags mode base : vfs_inv s held -> few s held -> base_ok s base -> (flag_set flags O_CREAT = true -> base_linked s base) -> heap_ok h s ->
  match open h pending path flags mode base s with
  | (Ok (Done (Ok d)), s') => vfs_inv s' (m_inode d :: held) /\ m_flags d = flags /\ open_at_inode s s' path flags base (m_inode d)
      /\ exists x, inodes s' !! m_inode d = Some x /\ m_offset d = (if flag_set flags O_APPEND then m_size x else 0)
  | (Ok (WaitOn (i, _)), s') => vfs_inv s' held /\ open_at_inode s s' path flags base i
  | (Ok (Done _), _) => False
  | (Err e, s') => vfs_inv s' held
  | (Panic, _) => False
  end.
Proof.
  intros H Hf Hb Hb2 Hh. unfold open. pose proof (open_inode_at h s held path flags mode base H Hb Hb2 Hh) as Ho. unfold mtry at 1.
  destruct (open_inode h path flags mode base s) as [[i|e|] s1]; [|done|done]. destruct Ho as (H1 & Q1 & [x Hx] & N1 & K1). rewrite (try_deref i x) by done.
  rewrite (mtry_ok _ _ _ _ _ (read_only_at s1 held H1 i x Hx)). destruct (_ && bool_decide (class x = UstarInode)); [done|]. destruct (_ && _); [done|].
  destruct (is_directory x && negb (Z.land flags O_ACCMODE =? O_RDONLY)) eqn:Edir; [done|].
  assert (Hd : is_directory x = false \/ truncates flags = false) by (apply andb_false_iff in Edir as [?|E]; [by left|right; unfold truncates; by rewrite E, andb_false_r]).
  pose proof (cut_at h s1 held i x flags H1 Hx Hd) as Hc. unfold mtry at 1. change (flag_set flags O_TRUNC && negb (Z.land flags O_ACCMODE =? O_RDONLY)) with (truncates flags).
  destruct ((if truncates flags && bool_decide (m_type x = Regular) then Inode_truncate h i 0 else mok tt) s1) as [[u|e|] s2]; [|done|done]. destruct Hc as (H2 & T2 & M2 & (x2 & Hx2 & Ty2) & B2).
  assert (L2 : forall j, inode_live s1 j <-> inode_live s2 j) by (intros j; by apply live_tree).
  assert (F2 : few s2 held) by (unfold few; by rewrite M2, (q_mounts _ _ Q1)).
  set (m := if bool_decide (m_type x = Fifo) && negb (flag_set flags O_NONBLOCK) then _ else _).
  assert (Hm : fifo_call i s2 (m s2)) by (unfold m; destruct (bool_decide (m_type x = Fifo) && negb _); [by apply (await_at pending i flags s2 x2)|by left]).
  pose proof (finish_at h s2 held i flags _ m H2 F2 ltac:(by exists x2) eq_refl Hm) as Hfin. destruct ((let! b := m in open_finish h i flags b) s2) as [[b|e|] s3]; [|done|done]. destruct Hfin as (Ho & Q3 & N3 & L3).
  assert (Hi3 : exists x3, inodes s3 !! i = Some x3 /\ m_type x3 = m_type x).
  { destruct b as [[d|?|]|[j n]]; try done.
    - destruct Ho as (_ & _ & _ & x3 & Hx3 & Ty3 & _). exists x3. split; [done|]. rewrite Hx2 in Ty3. injection Ty3. congruence.
    - destruct Ho as (_ & _ & x3 & Hx3 & Ty3). exists x3. split; [done|]. rewrite Hx2 in Ty3. injection Ty3. congruence. }
  assert (Hat : open_at_inode s s3 path flags base i).
  { destruct Hi3 as (x3 & Hx3 & Ty3). split; [|exists x3; split; [done|]; rewrite Ty3].
    - assert (N13 : same_names s1 s3) by (apply (same_names_trans s1 s2); [by apply same_names_tree|done]).
      destruct N1 as [[E N1]|(E & p & name & Ep & A1)]; [left|right]; (split; [done|]); [by apply (same_names_trans s s1)|]. exists p, name. split; [done|]. by apply (same_names_added s s1).
    - apply (bytes_trans s s1); [intros; by apply K1|by apply quiet_bytes|]. apply (bytes_after s1 s2); [intros j ? _; by apply L2|done|by apply quiet_bytes]. }
  destruct b as [[d|?|]|[j n]]; try done; cbn in Ho.
  - destruct Ho as (H3 & -> & Ef & x3 & Hx3 & _ & Eo). split_and!; try done. by exists x3.
  - by destruct Ho as (H3 & -> & _).
Qed.

(** An open that slept, as long as the inode it sleeps on is there. *)
Lemma open_resume_at h pending s held i x flags arrivals : vfs_inv s held -> few s held -> inodes s !! i = Some x -> m_fifo x <> None ->
  match open_resume h pending i flags arrivals s with
  | (Ok b, s') => opened_at s s' held i flags b /\ quiet s s' /\ same_names s s'
  | (Err e, s') => vfs_inv s' held
  | (Panic, _) => False
  end.
Proof.
  intros H Hf Hx Hp. unfold open_resume. pose proof (finish_at h s held i flags _ _ H Hf ltac:(by exists x) eq_refl (await_resume_at pending i flags arrivals s x Hx Hp)) as Hfin.
  destruct (mtry _ _ s) as [[b|e|] s']; [|done|done]. by destruct Hfin as (? & ? & ? & _).
Qed.

Lemma close_at s held i flags : vfs_inv s (i :: held) ->
  exists s', close i flags s = (Ok tt, s') /\ vfs_inv s' held /\ quiet s s' /\ same_names s s'.
Proof.
  intros H. assert (Hi : inode_live s i) by (apply tree_live, (t_held _ _ (v_tree _ _ H)); by left). unfold close, on_description_closed. rewrite try_alter by done.
  set (f := fun y : Inode => if bool_decide (class y = DevfsInode) then _ else _).
  destruct (alter_inv s (i :: held) i f H) as (H1 & Q1 & T1); [intros y; unfold f; repeat case_match; done..|]. set (s1 := set_inodes (alter f i) s) in *.
  assert (L1 : forall j, inode_live s j <-> inode_live s1 j) by (intros j; by apply live_tree). destruct (proj1 (L1 i) Hi) as [x Hx].
  destruct (unref_at s1 held i x H1 Hx) as (s2 & E2 & H2 & Q2 & D2). exists s2. split_and!; [done|done| |].
  - apply (quiet_trans s s1 s2 Q1 Q2). intros j Hj _. by apply L1.
  - intros p nm k. rewrite (entry_dropped s1 s2 _ i x p nm k H1 Hx D2). by rewrite T1.
Qed.

Lemma chmod_at s held path mode base : vfs_inv s held -> base_ok s base ->
  match sys_chmod path mode base s with
  | (Ok _, s') => vfs_inv s' held /\ quiet s s' /\ same_names s s' /\ exists i x, resolve path base s = (Ok i, s) /\ inodes s' !! i = Some x /\ m_mode x = Z.land (u32 mode) 0xFFF
  | (Err e, s') => s' = s
  | (Panic, _) => False
  end.
Proof.
  intros H Hb. unfold sys_chmod. pose proof (resolve_at s held H path base Hb) as Hr. unfold mtry at 1.
  destruct (resolve path base s) as [[i|e|] s1]; [destruct Hr as (-> & [x Hx] & _)|by subst|done]. rewrite (try_deref i x) by done.
  rewrite (mtry_ok _ _ _ _ _ (read_only_at s held H i x Hx)). case_bool_decide; [done|]. rewrite try_alter by (by exists x).
  set (f := with_mode _). destruct (alter_inv s held i f H) as (H1 & Q1 & T1); [done..|]. set (s1 := set_inodes (alter f i) s) in *.
  assert (Hx1 : inodes s1 !! i = Some (f x)) by (unfold s1; cbn; by rewrite lookup_alter_at, Hx, decide_True).
  rewrite (touch_ok i (f x)) by done. assert (Hs2 : set_inode i (touched (now s1) (f x)) s1 = set_inodes (alter (touched (now s1)) i) s1).
  { unfold set_inode, set_inodes. by rewrite (alter_some _ i (f x)). }
  rewrite Hs2. destruct (alter_inv s1 held i (touched (now s1)) H1) as (H2 & Q2 & T2); [done..|]. split_and!; [done| | |].
  - apply (quiet_trans s s1 _ Q1 Q2). intros j Hj _. by apply (live_tree s s1 j T1).
  - apply same_names_tree. congruence.
  - exists i. eexists. split; [done|]. rewrite <- Hs2, set_inode_eq. split; [done|]. cbn. by rewrite <- Z.land_assoc.
Qed.

Lemma inv_perm s held held' : held ≡ₚ held' -> vfs_inv s held -> vfs_inv s held'.
Proof. intros E H. split; [apply H| |apply H]. apply (tree_perm _ (held ++ mount_refs s)); [by rewrite E|apply H]. Qed.

Lemma chdir_at s held path cwd : vfs_inv s (cwd :: held) -> few s (cwd :: held) ->
  match vfs_chdir path cwd s with
  | (Ok i, s') => resolve path cwd s = (Ok i, s) /\ vfs_inv s' (i :: held) /\ quiet s s' /\ same_names s s'
  | (Err e, s') => s' = s
  | (Panic, _) => False
  end.
Proof.
  intros H Hf. assert (Hc : inode_live s cwd) by (apply tree_live, (t_held _ _ (v_tree _ _ H)); by left). assert (Hc0 : cwd <> 0) by (by apply (inv_nonzero s _ H)).
  unfold vfs_chdir. pose proof (resolve_at s _ H path cwd (or_intror Hc)) as Hr. unfold mtry at 1.
  destruct (resolve path cwd s) as [[i|e|] s1]; [destruct Hr as (-> & [x Hx] & _)|by subst|done]. rewrite (try_deref i x) by done. destruct (is_directory x); [|done]. cbn [negb].
  destruct (hold_at s _ i H Hf ltac:(by exists x)) as (s1 & E1 & H1 & Q1 & N1 & _ & L1 & _). rewrite (mtry_ok _ _ _ _ _ E1). destruct (Z.eqb_spec cwd 0); [done|]. cbn [negb].
  apply (inv_perm _ _ (cwd :: i :: held)) in H1; [|by constructor]. destruct (proj2 (L1 cwd) Hc) as [y Hy].
  destruct (unref_at s1 (i :: held) cwd y H1 Hy) as (s2 & E2 & H2 & Q2 & D2). rewrite (mtry_ok _ _ _ _ _ E2). unfold mok. split_and!; [done|done| |].
  - apply (quiet_trans s s1 s2 Q1 Q2). intros j Hj _. by apply L1.
  - apply (same_names_trans s s1); [done|]. intros p nm k. apply (entry_dropped s1 s2 _ cwd y p nm k H1 Hy D2).
Qed.

End VfsCalls.
