(* ===== verification/VfsPaths.v ===== *)
(** * Path names and the inodes they name

    getcwd writes a path by climbing from an inode to the root, resolve walks it
    down again; here they are shown to be inverse to each other, across mounts. *)

From S2P Require Import Prelude Kstd Physical Pipe Files Paths Vfs Trees Tmpfs VfsTree.

Section VfsPaths.
Context {F : Type} {FA : FrameAllocator F}.
Implicit Types (s : @Vfs F) (x y : Inode) (held : list Z) (names : list (list Z)).

(** [names] lead from the root to [i], through the mounts on the way. *)
Inductive route s : Z -> list (list Z) -> Prop :=
| route_root : route s (root_inode s) []
| route_child p names c y : route s p names -> inodes s !! c = Some y -> m_parent y = p -> route s (follow_mount c s) (names ++ [m_name y]).

(** The inodes a path can lead to. *)
Definition visible s i : Prop := exists names, route s i names.

Definition path_of names : list Z := if bool_decide (names = []) then [SLASH] else join names.

Lemma join_snoc names nm : join (names ++ [nm]) = join names ++ SLASH :: nm.
Proof. induction names as [|n names IH]; cbn; [by rewrite app_nil_r|]. by rewrite IH, <- app_assoc. Qed.

Lemma path_join_length names : (length names <= length (join names))%nat.
Proof. induction names as [|n names IH]; cbn; [lia|]. rewrite length_app. lia. Qed.

Section Routes.
Variables (s : @Vfs F) (held : list Z).
Hypothesis (H : vfs_inv s held).

Lemma root_facts : exists x, inodes s !! root_inode s = Some x /\ m_parent x = 0 /\ m_filesystem x = s_root_filesystem s /\ is_directory x = true.
Proof.
  destruct (mo_rootfs _ _ _ _ (v_fs s held H)) as [Hr [f Hf]]. destruct (b_root _ _ (mo_base _ _ _ _ (v_fs s held H)) _ f Hf) as (n & Hn & Hp & _ & Hd & Hs).
  apply tree_lookup_inv in Hn as (x & Hx & ->). exists x. unfold root_inode, root_of. rewrite Hf. by destruct (Z.eqb_spec (s_root_filesystem s) 0).
Qed.

(** A mount entry other than the first covers a directory of the initial ramdisk. *)
Lemma cover_facts e : e ∈ s_mounts s -> covered e <> 0 -> exists c r, inodes s !! covered e = Some c /\ m_parent c <> 0 /\ m_filesystem c = s_root_filesystem s
  /\ inodes s !! root_of s (filesystem e) = Some r /\ m_parent r = 0 /\ m_filesystem r = filesystem e /\ filesystem e <> s_root_filesystem s /\ (2 <= length (s_mounts s))%nat.
Proof.
  intros He Hc. destruct (mo_covers _ _ _ _ (v_fs s held H) e He Hc) as (n & Hn & _ & Hp & Hs). apply tree_lookup_inv in Hn as (c & Hcc & ->).
  destruct (mo_entries _ _ _ _ (v_fs s held H) e He) as [f Hf]. destruct (b_root _ _ (mo_base _ _ _ _ (v_fs s held H)) _ f Hf) as (r & Hr & Hpr & _ & _ & Hsr).
  apply tree_lookup_inv in Hr as (r' & Hr' & ->). exists c, r'. unfold root_of. rewrite Hf. split_and!; try done.
  - intros E. destruct (mo_mounts _ _ _ _ (v_fs s held H)) as (Nf & _ & path & rest & Em). rewrite Em in He, Nf. apply elem_of_cons in He as [->|He]; [done|].
    cbn in Nf. apply NoDup_cons in Nf as [Nf _]. apply Nf. rewrite <- E. by apply list_elem_of_fmap_2.
  - destruct (mo_mounts _ _ _ _ (v_fs s held H)) as (_ & _ & path & rest & Em). rewrite Em in He |- *. apply elem_of_cons in He as [->|He]; [done|]. destruct rest; [by apply not_elem_of_nil in He|cbn; lia].
Qed.

Lemma follow_scan_cases l i : (forall e, e ∈ l -> covered e <> i) /\ follow_scan s l i = i \/ exists e, e ∈ l /\ covered e = i /\ follow_scan s l i = root_of s (filesystem e).
Proof.
  induction l as [|e l IH]; cbn [follow_scan]; [left; split; [|done]; intros e He; by apply not_elem_of_nil in He|].
  destruct (Z.eqb_spec (covered e) i) as [E|E]; [right; exists e; split; [by left|done]|]. destruct IH as [[Hn ->]|(e' & He' & Hc & Hs)].
  - left. split; [|done]. intros e' [->|He']%elem_of_cons; [done|by apply Hn].
  - right. exists e'. split; [by right|done].
Qed.

Lemma mount_scan_at e l : e ∈ l -> (forall e', e' ∈ l -> e' ∈ s_mounts s) -> covered e <> 0 -> NoDup (filesystem <$> l) -> mount_point_scan s l (root_of s (filesystem e)) = covered e.
Proof.
  intros He Hin Hc. revert He Hin. induction l as [|e' l IH]; intros He Hin Nd; [by apply not_elem_of_nil in He|]. cbn [mount_point_scan]. cbn in Nd. apply NoDup_cons in Nd as [Nd1 Nd2].
  apply elem_of_cons in He as [->|He].
  - destruct (Z.eqb_spec (covered e') 0); [done|]. by rewrite Z.eqb_refl.
  - assert (IH' := IH He ltac:(intros; apply Hin; by right) Nd2). destruct (Z.eqb_spec (covered e') 0) as [|Hc']; [done|].
    destruct (Z.eqb_spec (root_of s (filesystem e')) (root_of s (filesystem e))) as [E|]; [|done]. exfalso. apply Nd1.
    destruct (cover_facts e' (Hin e' ltac:(by left)) Hc') as (_ & r' & _ & _ & _ & Hr' & _ & Hf' & _). destruct (cover_facts e (Hin e ltac:(by right)) Hc) as (_ & r & _ & _ & _ & Hr & _ & Hf & _).
    rewrite E, Hr in Hr'. injection Hr' as <-. rewrite <- Hf', Hf. by apply list_elem_of_fmap_2.
Qed.

(** The two cases of a step along a route. *)
Lemma follow_cases c y : inodes s !! c = Some y -> m_parent y <> 0 ->
  follow_mount c s = c \/ exists e r, e ∈ s_mounts s /\ covered e = c /\ follow_mount c s = root_of s (filesystem e) /\ inodes s !! follow_mount c s = Some r /\ m_parent r = 0
    /\ mount_point_of (follow_mount c s) s = c /\ follow_mount c s <> root_inode s /\ m_filesystem y = s_root_filesystem s /\ m_filesystem r <> s_root_filesystem s /\ (2 <= length (s_mounts s))%nat.
Proof.
  intros Hy Hp. assert (Hc0 : c <> 0) by (apply (inv_nonzero s held H); by exists y). unfold follow_mount. destruct (follow_scan_cases (s_mounts s) c) as [[_ E]|(e & He & Ec & E)]; [by left|right].
  destruct (cover_facts e He ltac:(congruence)) as (y' & r & Hy' & _ & Hfy & Hr & Hpr & Hfr & Hne & Hl). exists e, r. rewrite E. split_and!; try done.
  - unfold mount_point_of. rewrite mount_scan_at; try done; [congruence|]. apply (mo_mounts _ _ _ _ (v_fs s held H)).
  - intros E2. destruct root_facts as (x & Hx & _ & Hfx & _). rewrite E2, Hx in Hr. injection Hr as <-. congruence.
  - congruence.
  - congruence.
Qed.

Lemma follow_root : follow_mount (root_inode s) s = root_inode s.
Proof.
  destruct (root_facts) as (x & Hx & Hp & _). unfold follow_mount. destruct (follow_scan_cases (s_mounts s) (root_inode s)) as [[_ E]|(e & He & Ec & _)]; [done|].
  assert (Hr0 : root_inode s <> 0) by (apply (inv_nonzero s held H); by exists x). destruct (cover_facts e He ltac:(congruence)) as (c & _ & Hc & Hpc & _). congruence.
Qed.

Lemma route_live i names : route s i names -> inode_live s i.
Proof.
  intros R. destruct R as [|p names c y R Hy Hp]; [apply linked_live, (root_inode_linked s held H)|]. apply (follow_mount_live s held H). by exists y.
Qed.

Lemma route_parent p names : route s p names -> p <> 0.
Proof. intros R. apply (inv_nonzero s held H). by apply (route_live p names). Qed.

(** A route is never longer than the climb back may be. *)
Lemma route_length i names : route s i names -> exists x l, inodes s !! i = Some x /\ up_chain (tree s) i l
  /\ (m_filesystem x = s_root_filesystem s /\ S (length names) = length l
       \/ m_filesystem x <> s_root_filesystem s /\ (2 <= length (s_mounts s))%nat /\ (S (length names) <= length l + size (inodes s))%nat).
Proof.
  induction 1 as [|p names c y R IH Hy Hp].
  - destruct root_facts as (x & Hx & Hp & Hf & _). exists x, [root_inode s]. split_and!; [done| |by left]. apply (chain_top _ _ (node_of x)); [by apply tree_lookup|done].
  - pose proof (route_parent p names R) as Hp0. destruct IH as (x & l & Hx & Hl & Hlen). rewrite length_app. cbn [length].
    assert (Hcl : up_chain (tree s) c (c :: l)) by (apply (chain_under _ _ (node_of y)); [by apply tree_lookup|cbn; congruence|cbn; by rewrite Hp]).
    destruct (inv_parent s held H c y Hy ltac:(congruence)) as (px & Hpx & _ & _ & Efs & _). rewrite Hp, Hx in Hpx. injection Hpx as <-.
    destruct (follow_cases c y Hy ltac:(congruence)) as [-> |(e & r & _ & _ & _ & Hr & Hpr & _ & _ & Hfy & Hfr & Hm)].
    + exists y, (c :: l). split_and!; [done|done|]. rewrite Efs. cbn [length]. destruct Hlen as [[? ?]|(? & ? & ?)]; [left|right]; split_and!; try done; lia.
    + exists r, [follow_mount c s]. split_and!; [done|apply (chain_top _ _ (node_of r)); [by apply tree_lookup|done]|]. right. split_and!; [done|done|].
      destruct Hlen as [[_ Hlen]|(? & _)]; [|congruence]. pose proof (chain_length _ _ _ Hcl) as Hs. unfold tree in Hs. rewrite map_size_fmap in Hs. cbn [length] in *. lia.
Qed.

Lemma route_fuel i names : route s i names -> (length names < path_fuel s)%nat.
Proof.
  intros R. destruct (route_length i names R) as (x & l & _ & Hl & Hlen). pose proof (chain_length _ _ _ Hl) as Hs. unfold tree in Hs. rewrite map_size_fmap in Hs.
  unfold path_fuel. destruct Hlen as [[_ ?]|(_ & ? & ?)]; nia.
Qed.

(** *** Down *)

Lemma lookup_entry p x c y : inodes s !! p = Some x -> is_directory x = true -> inodes s !! c = Some y -> m_parent y = p -> lookup p (m_name y) s = (Ok c, s).
Proof.
  intros Hx Hd Hy Hp. assert (Hp0 : p <> 0) by (apply (inv_nonzero s held H); by exists x). pose proof (lookup_at s held H p x (m_name y) Hx) as Hl. destruct (lookup p (m_name y) s) as [[c'|e|] s']; [| |done].
  - destruct Hl as (-> & _ & y' & Hy' & Hp' & Hn'). assert (E : c' = c); [|by rewrite E]. apply (names_child_unique s held H p (m_name y)); [done|right; by exists y'|right; by exists y].
  - destruct Hl as (_ & [[_ ?]|(_ & _ & Hno)]); [congruence|]. by destruct (Hno c y Hy Hp).
Qed.

Lemma resolve_loop_route i names : route s i names -> Forall ordinary names -> forall fuel rest, match rest with [] => True | c :: _ => c = SLASH end ->
  resolve_loop (fuel + length names) (root_inode s) (join names ++ rest) s = resolve_loop fuel i rest s.
Proof.
  induction 1 as [|p names c y R IH Hy Hp]; intros Ho fuel rest Hrest; [by rewrite Nat.add_0_r|].
  apply Forall_app in Ho as [Ho1 Ho2]. destruct (Forall_inv Ho2) as (Hplain & Hd1 & Hd2). rewrite length_app, join_snoc, <- app_assoc. cbn [length app].
  replace (fuel + (length names + 1))%nat with (S fuel + length names)%nat by lia. rewrite (IH Ho1 (S fuel) (SLASH :: m_name y ++ rest) eq_refl). cbn [resolve_loop].
  destruct (next_component_plain (m_name y) rest Hplain Hrest) as [_ ->]. rewrite !bool_decide_eq_false_2 by done. pose proof (route_parent p names R) as Hp0.
  destruct (inv_parent s held H c y Hy ltac:(congruence)) as (x & Hx & Hd & _). rewrite Hp in Hx. rewrite (try_deref p x), Hd by done. cbn [negb].
  by rewrite (mtry_ok _ _ _ _ _ (lookup_entry p x c y Hx Hd Hy Hp)), mtry_get.
Qed.

Lemma resolve_route i names base : route s i names -> Forall ordinary names -> resolve (path_of names) base s = (Ok i, s).
Proof.
  intros R Ho. destruct (mo_rootfs _ _ _ _ (v_fs s held H)) as [Hr _]. unfold resolve. rewrite mtry_get. destruct (Z.eqb_spec (s_root_filesystem s) 0); [done|].
  assert (Hs : starts_with_slash (path_of names) = true) by (unfold path_of; case_bool_decide; [done|]; by destruct names). rewrite Hs. cbn [orb]. rewrite follow_root.
  pose proof (resolve_loop_route i names R Ho) as Hl. unfold path_of. case_bool_decide as En.
  - subst names. by specialize (Hl 3%nat [] I).
  - specialize (Hl (S (length (join names)) - length names)%nat [] I). rewrite app_nil_r in Hl. pose proof (path_join_length names) as Hj.
    replace (S (length (join names)) - length names + length names)%nat with (S (length (join names))) in Hl by lia. rewrite Hl.
    by destruct (S (length (join names)) - length names)%nat eqn:E; [lia|].
Qed.

(** *** Up *)

Lemma name_step p x c y nm : inodes s !! p = Some x -> inodes s !! c = Some y ->
  exists r, mcatch (lookup p nm) s = (Ok r, s) /\ (r = inl c -> m_name y = nm) /\ (m_parent y = p -> is_directory x = true -> m_name y = nm -> r = inl c).
Proof.
  intros Hx Hy. pose proof (lookup_at s held H p x nm Hx) as Hl. unfold mcatch. destruct (lookup p nm s) as [[c'|e|] s'] eqn:El; [| |done].
  - destruct Hl as (-> & _ & y' & Hy' & _ & Hn'). exists (inl c'). split_and!; [done|intros [= ->]; congruence|]. intros Hp Hd Hn. rewrite <- Hn, (lookup_entry p x c y Hx Hd Hy Hp) in El. by simplify_eq.
  - destruct Hl as [-> _]. exists (inr e). split_and!; [done|done|]. intros Hp Hd Hn. by rewrite <- Hn, (lookup_entry p x c y Hx Hd Hy Hp) in El.
Qed.

Lemma strncpy_short nm : zlen nm < FILENAME_MAX_LENGTH -> strncpy nm (FILENAME_MAX_LENGTH - 1) = nm.
Proof. intros Hl. unfold strncpy. apply take_ge. unfold zlen, FILENAME_MAX_LENGTH in *. lia. Qed.

(** A turn of the search for the name of [c]: it ends with that name or goes on. *)
Lemma name_turn fuel p x c y nm index : inodes s !! p = Some x -> inodes s !! c = Some y -> zlen (m_name y) < FILENAME_MAX_LENGTH ->
  (forall number type, mcatch (read_directory p index) s = (Ok (inl (Some (mkEntry nm number type))), s) -> name_loop (S fuel) p c index s = (Ok (m_name y), s) /\ m_name y = nm
     \/ name_loop (S fuel) p c index s = name_loop fuel p c (index + 1) s /\ (m_parent y = p -> is_directory x = true -> m_name y <> nm)).
Proof.
  intros Hx Hy Hl number type Er. cbn [name_loop]. rewrite (mtry_ok _ _ _ _ _ Er). cbn [entry_name]. destruct (name_step p x c y nm Hx Hy) as (r & E & R1 & R2). rewrite (mtry_ok _ _ _ _ _ E).
  destruct r as [c'|e]; [|right; split; [done|]; intros Hp Hd Hn; by specialize (R2 Hp Hd Hn)]. destruct (Z.eqb_spec c' c) as [->|Hne].
  - left. specialize (R1 eq_refl). subst nm. by rewrite strncpy_short.
  - right. split; [done|]. intros Hp Hd Hn. specialize (R2 Hp Hd Hn). congruence.
Qed.

Lemma name_children p x c y : inodes s !! p = Some x -> is_directory x = true -> inodes s !! c = Some y -> m_parent y = p -> zlen (m_name y) < FILENAME_MAX_LENGTH ->
  forall fuel k, (length (m_children x) - k < fuel)%nat -> c ∈ drop k (m_children x) -> name_loop fuel p c (Z.of_nat k + 2) s = (Ok (m_name y), s).
Proof.
  intros Hx Hd Hy Hp Hl. induction fuel as [|fuel IH]; intros k Hf Hin; [lia|]. destruct (m_children x !! k) as [c1|] eqn:Ek.
  2: { apply lookup_ge_None in Ek. rewrite drop_ge in Hin by done. by apply not_elem_of_nil in Hin. }
  assert (Hc1 : c1 ∈ m_children x) by (by apply list_elem_of_lookup_2 in Ek). apply (inv_child s held H p x c1 Hx) in Hc1 as (z & Hz & _).
  destruct (name_turn fuel p x c y (strncpy (m_name z) (FILENAME_MAX_LENGTH - 1)) (Z.of_nat k + 2) Hx Hy Hl (m_inode_number z) (m_type z)) as [[E _]|[E Hne]]; [|done|].
  - unfold mcatch, read_directory. rewrite (try_deref p x), Hd by done. cbn [negb]. destruct (Z.eqb_spec (Z.of_nat k + 2) 0); [lia|]. destruct (Z.eqb_spec (Z.of_nat k + 2) 1); [lia|].
    replace (Z.to_nat (Z.of_nat k + 2 - 2)) with k by lia. rewrite Ek, (try_deref c1 z) by done. done.
  - rewrite E. replace (Z.of_nat k + 2 + 1) with (Z.of_nat (S k) + 2) by lia. pose proof (lookup_lt_Some _ _ _ Ek) as Hlt. apply IH; [lia|].
    rewrite (drop_S _ _ _ Ek) in Hin. apply elem_of_cons in Hin as [<-|Hin]; [|done]. exfalso. apply (Hne Hp Hd). rewrite Hy in Hz. injection Hz as <-. by rewrite strncpy_short.
Qed.

Lemma name_in_at p x c y : inodes s !! p = Some x -> is_directory x = true -> inodes s !! c = Some y -> m_parent y = p -> zlen (m_name y) < FILENAME_MAX_LENGTH ->
  name_in p c s = (Ok (m_name y), s).
Proof.
  intros Hx Hd Hy Hp Hl. unfold name_in. rewrite (try_deref p x) by done. replace (length (m_children x) + 3)%nat with (S (S (S (length (m_children x))))) by lia.
  destruct (name_turn (S (S (length (m_children x)))) p x c y DOT 0 Hx Hy Hl (m_inode_number x) Directory) as [[-> _]|[-> _]]; [|done|].
  { unfold mcatch, read_directory. by rewrite (try_deref p x), Hd. }
  assert (Er : exists number, mcatch (read_directory p 1) s = (Ok (inl (Some (mkEntry DOTDOT number Directory))), s)).
  { unfold mcatch, read_directory. rewrite (try_deref p x), Hd by done. cbn [negb Z.eqb Pos.eqb]. destruct (Z.eqb_spec (m_parent x) 0) as [|Hpx]; [by eexists|].
    destruct (inv_parent s held H p x Hx Hpx) as (g & Hg & _). exists (m_inode_number g). by rewrite (try_deref _ g) by done. }
  destruct Er as [number Er]. destruct (name_turn (S (length (m_children x))) p x c y DOTDOT (0 + 1) Hx Hy Hl number Directory Er) as [[-> _]|[-> _]]; [done|].
  apply (name_children p x c y Hx Hd Hy Hp Hl _ 0%nat); [lia|]. apply (inv_child s held H p x c Hx). by exists y.
Qed.

Lemma step_up_at c y : inodes s !! c = Some y -> m_parent y <> 0 -> step_up (follow_mount c s) s = (Ok (inl (c, m_parent y)), s).
Proof.
  intros Hy Hp. assert (Hc0 : c <> 0) by (apply (inv_nonzero s held H); by exists y). unfold step_up. destruct root_facts as (rx & Hrx & Hrp & _).
  destruct (follow_cases c y Hy Hp) as [-> |(e & r & _ & _ & _ & Hr & Hpr & Hm & Hne & _)].
  - rewrite (try_deref c y) by done. by destruct (Z.eqb_spec (m_parent y) 0).
  - rewrite (try_deref _ r) by done. rewrite Hpr. cbn [Z.eqb negb]. rewrite mtry_get, Hm. destruct (Z.eqb_spec c 0); [done|].
    destruct (Z.eqb_spec c (root_inode s)) as [->|]; [congruence|]. rewrite (try_deref c y) by done. by destruct (Z.eqb_spec (m_parent y) 0).
Qed.

Lemma zlen_snoc names nm : zlen (join (names ++ [nm])) = zlen (join names) + 1 + zlen nm.
Proof. rewrite join_snoc. unfold zlen. rewrite length_app. cbn [length]. lia. Qed.

Lemma path_loop_route i names : route s i names -> Forall ordinary names -> forall fuel position scratch, (length names < fuel)%nat ->
  path_loop fuel i position scratch s = if zlen (join names) <=? Z.max 0 position then (Ok (root_inode s, join names ++ scratch), s) else (Err ENAMETOOLONG, s).
Proof.
  induction 1 as [|p names c y R IH Hy Hp]; intros Ho [|fuel] position scratch Hf; try (cbn in Hf; lia).
  - cbn [path_loop]. rewrite mtry_get, Z.eqb_refl, orb_true_r. destruct (Z.leb_spec (zlen (join [])) (Z.max 0 position)) as [_|E]; [done|]. unfold zlen in E. cbn in E. lia.
  - pose proof (route_parent p names R) as Hp0. assert (Hpy : m_parent y <> 0) by congruence. apply Forall_app in Ho as [Ho1 Ho2]. destruct (Forall_inv Ho2) as ((Hne & _ & Hl) & _).
    cbn [path_loop]. rewrite mtry_get. assert (Hc : (follow_mount c s =? 0) || (follow_mount c s =? root_inode s) = false).
    { apply orb_false_iff. split; apply Z.eqb_neq.
      - apply (route_parent _ (names ++ [m_name y])). by apply (route_child s p).
      - destruct (follow_cases c y Hy Hpy) as [-> |(e & r & _ & _ & _ & _ & _ & _ & ? & _)]; [|done]. intros E. destruct root_facts as (rx & Hrx & Hrp & _). congruence. }
    rewrite Hc, (mtry_ok _ _ _ _ _ (step_up_at c y Hy Hpy)). destruct (inv_parent s held H c y Hy Hpy) as (x & Hx & Hd & _). rewrite Hp in Hx |- *.
    rewrite (mtry_ok _ _ _ _ _ (name_in_at p x c y Hx Hd Hy Hp Hl)). rewrite bool_decide_eq_false_2 by done. rewrite zlen_snoc. pose proof (zlen_nonneg (join names)). pose proof (zlen_nonneg (m_name y)).
    destruct (Z.ltb_spec position (zlen (m_name y) + 1)) as [Hlt|Hge].
    + destruct (Z.leb_spec (zlen (join names) + 1 + zlen (m_name y)) (Z.max 0 position)); [lia|done].
    + rewrite length_app in Hf. cbn in Hf. rewrite IH by (done || lia). rewrite join_snoc, <- app_assoc. cbn [app].
      destruct (Z.leb_spec (zlen (join names)) (Z.max 0 (position - zlen (m_name y) - 1))), (Z.leb_spec (zlen (join names) + 1 + zlen (m_name y)) (Z.max 0 position)); (done || lia).
Qed.

(** What getcwd answers for an inode that [names] lead to. *)
Definition getcwd_spec names (capacity : Z) : Res (list Z) :=
  if PATH_MAX_LENGTH - 1 <? zlen (join names) then Err ENAMETOOLONG
  else if capacity <? zlen (path_of names) + 1 then Err ERANGE else Ok (path_of names).

Lemma getcwd_route i names capacity : route s i names -> Forall ordinary names -> sys_getcwd i capacity s = (getcwd_spec names capacity, s).
Proof.
  intros R Ho. unfold sys_getcwd. destruct (Z.eqb_spec i 0) as [->|]; [by destruct (route_parent 0 names R)|]. unfold absolute_path_of, mtry at 1. rewrite mtry_get.
  assert (Hnil : names = [] <-> i = root_inode s).
  { split; [intros ->; inversion R as [|? ns]; [done|by destruct ns]|]. intros ->. inversion R as [E|p ns c y R' Hy Hp E1 E2]; [done|].
    pose proof (route_parent p ns R') as Hp0. destruct root_facts as (rx & Hrx & Hrp & _).
    destruct (follow_cases c y Hy ltac:(congruence)) as [E3|(e & r & _ & _ & _ & _ & _ & _ & ? & _)]; congruence. }
  unfold getcwd_spec, path_of. destruct (Z.eqb_spec i (root_inode s)) as [E|E].
  - rewrite (proj2 Hnil E). cbn. unfold PATH_MAX_LENGTH. cbn. by destruct (capacity <? _).
  - rewrite bool_decide_eq_false_2 by tauto. unfold mtry at 1. rewrite (path_loop_route i names R Ho) by (by apply (route_fuel i)). rewrite Z.max_r by done. rewrite app_nil_r.
    destruct (Z.ltb_spec (PATH_MAX_LENGTH - 1) (zlen (join names))), (Z.leb_spec (zlen (join names)) (PATH_MAX_LENGTH - 1)); try lia; [done|].
    rewrite Z.eqb_refl. cbn [negb]. destruct (Z.ltb_spec PATH_MAX_LENGTH (zlen (join names) + 1)); [lia|]. unfold mok at 1. by destruct (capacity <? zlen (join names) + 1).
Qed.

(** *** What resolve finds is on a route *)

Lemma route_up i names x : route s i names -> inodes s !! i = Some x -> m_parent x <> 0 -> visible s (m_parent x).
Proof.
  intros R Hx Hp. inversion R as [E|p ns c y R' Hy Hpy E1 E2]; subst.
  - destruct root_facts as (rx & Hrx & Hrp & _). congruence.
  - pose proof (route_parent _ ns R') as Hp0. destruct (follow_cases c y Hy Hp0) as [E3|(e & r & _ & _ & _ & Hr & Hpr & _)]; [|congruence].
    rewrite E3, Hy in Hx. injection Hx as <-. by exists ns.
Qed.

Lemma resolve_loop_visible fuel : forall current path i s', visible s current -> resolve_loop fuel current path s = (Ok i, s') -> visible s i.
Proof.
  induction fuel as [|fuel IH]; intros current path i s' [names R] E; [done|]. destruct (route_live current names R) as [x Hx]. cbn [resolve_loop] in E.
  destruct (next_component path) as [[component cursor]|]; [|injection E as <- <-; by exists names]. case_bool_decide; [by apply (IH current cursor i s'); [exists names|]|].
  case_bool_decide; rewrite (try_deref current x) in E by done.
  - apply IH in E; [done|]. destruct (Z.eqb_spec (m_parent x) 0); [by exists names|by apply (route_up current names)].
  - destruct (is_directory x); [|done]. cbn [negb] in E. pose proof (lookup_at s held H current x component Hx) as Hl. unfold mtry at 1 in E.
    destruct (lookup current component s) as [[c|e|] s1]; [|done|done]. destruct Hl as (-> & _ & y & Hy & Hp & _). rewrite mtry_get in E. apply IH in E; [done|].
    exists (names ++ [m_name y]). by apply (route_child s current).
Qed.

Lemma visible_uncovered i : visible s i -> follow_mount i s = i.
Proof.
  intros [names R]. inversion R as [E|p ns c y R' Hy Hpy E1 E2]; subst; [apply follow_root|]. pose proof (route_parent _ ns R') as Hp0.
  destruct (follow_cases c y Hy Hp0) as [E3|(e & r & _ & _ & _ & Hr & Hpr & _ & _ & _ & Hfr & _)]; [by rewrite E3|].
  set (t := follow_mount c s) in *. unfold follow_mount. destruct (follow_scan_cases (s_mounts s) t) as [[_ E]|(e' & He' & Ec & _)]; [done|].
  assert (Ht0 : t <> 0) by (apply (inv_nonzero s held H); by exists r). destruct (cover_facts e' He' ltac:(congruence)) as (c' & _ & Hc' & Hpc & _). congruence.
Qed.

Lemma resolve_visible path base i s' : base = 0 \/ visible s base -> resolve path base s = (Ok i, s') -> visible s i.
Proof.
  intros Hb. unfold resolve. rewrite mtry_get. destruct (s_root_filesystem s =? 0); [done|]. apply resolve_loop_visible.
  assert (Hr : visible s (root_inode s)) by (exists []; constructor). destruct (starts_with_slash path || (base =? 0)) eqn:E; [by rewrite follow_root|].
  apply orb_false_iff in E as [_ E]. apply Z.eqb_neq in E. destruct Hb as [?|Hb]; [done|]. by rewrite visible_uncovered.
Qed.
End Routes.
End VfsPaths.
