(* ===== verification/Ustar.v ===== *)
(** * The file systems the kernel mounts at boot

    kernel/fs/ustar.cpp, the initial ramdisk; the directory of kernel/fs/devfs.cpp;
    the constructor of kernel/fs/tmpfs.cpp; and kernel/fs/boot_mounts.cpp, which
    puts them together.  The ramdisk stays where the boot loader put it: an inode
    of it points into physical memory. *)

From S2P Require Import Prelude Kstd Physical Pipe Files Paths Vfs.

Definition BLOCK_SIZE : Z := 512.

(** ** The header *)

(** Up to the terminator: [strnlen] and the copy that goes with it. *)
Fixpoint until_nul (field : list Z) : list Z :=
  match field with c :: rest => if c =? 0 then [] else c :: until_nul rest | [] => [] end.

Fixpoint octal_from (field : list Z) (value : Z) : Z :=
  match field with
  | [] => value
  | c :: rest =>
      if (c =? 0) || (c =? 32) then value
      else if (c <? 48) || (55 <? c) then octal_from rest value
      else octal_from rest (u64 (value * 8 + (c - 48)))
  end.
Definition parse_octal (field : list Z) : Z := octal_from field 0.

(** The fields of [TarHeader] the parser reads. *)
Definition h_name (block : list Z) := slice block 0 100.
Definition h_mode (block : list Z) := slice block 100 8.
Definition h_size (block : list Z) := slice block 124 12.
Definition h_mtime (block : list Z) := slice block 136 12.
Definition h_type_flag (block : list Z) := zget 0 block 156.
Definition h_magic (block : list Z) := slice block 257 6.
Definition h_prefix (block : list Z) := slice block 345 155.

Definition USTAR : list Z := [117; 115; 116; 97; 114].
Definition is_ustar (block : list Z) : bool := bool_decide (take 5 (h_magic block) = USTAR).
Definition is_zero_block (block : list Z) : bool := forallb (fun b => b =? 0) block.

(** The path, which may be split across prefix and name. *)
Definition header_path (block : list Z) : list Z :=
  (if negb (zget 0 (h_prefix block) 0 =? 0) then until_nul (h_prefix block) ++ [SLASH] else []) ++ until_nul (h_name block).

(** The array it is built in, with its terminator. *)
Definition PATH_ARRAY : Z := 256.

Definition clean_path (path : list Z) : list Z :=
  match path with c :: d :: rest => if (c =? 46) && (d =? SLASH) then rest else path | _ => path end.

Section Ustar.
Context {F : Type} {FA : FrameAllocator F}.

(** What the heap answers may depend on what has been allocated so far. *)
Variable heap : @Vfs F -> KernelHeap.

(** A new inode of file system [fs], appended to the directory [current]. *)
Definition link_new (cl : InodeClass) (fs current : Z) (name : list Z) (type : InodeType) (mode : Z) (decorate : Inode -> Inode) : M (@Vfs F) Z :=
  let! s := mget in
  match inode_memory (heap s) with
  | None => merr ENOMEM
  | Some child =>
      mmod (set_inodes <[child := inode_new cl fs type mode]>) ;!
      modify child (with_name (strncpy name (FILENAME_MAX_LENGTH - 1))) ;!
      modify child (with_inode_parent current) ;!
      let! number := allocate_inode_number fs in
      modify child (with_number number) ;!
      modify child decorate ;!
      if children_room (heap s) then
        modify current (fun x => with_children (m_children x ++ [child]) x) ;! mok child
      else Inode_unref child ;! merr ENOMEM
  end.

(** The root directory of a new file system. *)
Definition new_root (cl : InodeClass) (memory : option Z) (mode : Z) : M (@Vfs F) Z :=
  match memory with
  | None => merr ENOMEM
  | Some fs =>
      let! s := mget in
      match inode_memory (heap s) with
      | None => merr ENOMEM
      | Some root =>
          mmod (set_inodes <[root := with_name [SLASH] (with_number 1 (inode_new cl fs Directory mode))]>) ;!
          mmod (upd_filesystems <[fs := mkFileSystem cl root 2]>) ;!
          mok fs
      end
  end.

(** ** The initial ramdisk *)

Definition is_last (cursor : list Z) : bool := bool_decide (cursor = []) || bool_decide (cursor = [SLASH]).

Fixpoint ensure_path_loop (fuel : nat) (fs current : Z) (cursor : list Z) (type : InodeType) (mode : Z) : M (@Vfs F) Z :=
  match fuel with
  | O => mpanic
  | S fuel' =>
      match next_component cursor with
      | None => mok current
      | Some (component, cursor) =>
          let! x := deref current in
          let! candidate := find_child (m_children x) component in
          let! child :=
            if candidate =? 0 then
              link_new UstarInode fs current component (if is_last cursor then type else Directory) (if is_last cursor then mode else 0x1ED) id
            else mok candidate in
          if is_last cursor then mok child else ensure_path_loop fuel' fs child cursor type mode
      end
  end.

Definition ensure_path (fs : Z) (path : list Z) (type : InodeType) (mode : Z) : M (@Vfs F) Z :=
  let! s := mget in
  ensure_path_loop (S (length path)) fs (root_of s fs) path type mode.

(** What one header asks for; its contents begin at address [content]. *)
Definition add_entry (fs : Z) (block : list Z) (content : Z) : M (@Vfs F) unit :=
  let path := header_path block in
  if PATH_ARRAY <=? zlen path then mpanic
  else
    let mode := u32 (parse_octal (h_mode block)) in
    let modified := i64 (parse_octal (h_mtime block)) in
    let clean := clean_path path in
    if bool_decide (clean = []) then mok tt
    else if h_type_flag block =? 53 then
      let! directory := ensure_path fs clean Directory (if mode =? 0 then 0x1ED else mode) in
      modify directory (set_times modified)
    else if (h_type_flag block =? 48) || (h_type_flag block =? 0) then
      let! inode := ensure_path fs clean Regular (if mode =? 0 then 0x1A4 else mode) in
      modify inode (with_data content) ;!
      modify inode (with_size (parse_octal (h_size block))) ;!
      modify inode (set_times modified)
    else mok tt.

Fixpoint parse_loop (fuel : nat) (fs : Z) (address : Z) (data : list Z) (offset : Z) : M (@Vfs F) unit :=
  match fuel with
  | O => mpanic
  | S fuel' =>
      if u64 (offset + BLOCK_SIZE) <=? zlen data then
        let block := slice data offset BLOCK_SIZE in
        if is_zero_block block then mok tt
        else if negb (is_ustar block) then mok tt
        else
          add_entry fs block (address + offset + BLOCK_SIZE) ;!
          parse_loop fuel' fs address data (u64 (u64 (offset + BLOCK_SIZE) + align_up (parse_octal (h_size block)) BLOCK_SIZE))
      else mok tt
  end.

Definition parse (fs address : Z) (data : list Z) : M (@Vfs F) unit :=
  parse_loop (Z.to_nat (zlen data / BLOCK_SIZE + 1)) fs address data 0.

(** The [length] bytes at physical address [address]. *)
Definition UstarFileSystem_create (memory : option Z) (address length : Z) : M (@Vfs F) Z :=
  let! fs := new_root UstarInode memory 0x1ED in
  let! s := mget in
  parse fs address (mem_load (mem s) address length) ;!
  mok fs.

Definition UstarInode_read (i offset length : Z) : M (@Vfs F) (list Z) :=
  let! x := deref i in
  if negb (bool_decide (m_type x = Regular)) then merr EISDIR
  else if m_size x <=? offset then mok []
  else
    let! s := mget in
    mok (mem_load (mem s) (m_data x + offset) (Z.min length (m_size x - offset))).

(** ** Devices *)

Definition register_memory_device (fs : Z) (name : list Z) (block_device : bool) (ops memory_base memory_length : Z) : M (@Vfs F) unit :=
  if ops =? 0 then merr EINVAL
  else if FILENAME_MAX_LENGTH <=? zlen name then merr ENAMETOOLONG
  else
    let! s := mget in
    let root := root_of s fs in
    let! x := deref root in
    let! existing := find_child (m_children x) name in
    if negb (existing =? 0) then merr EEXIST
    else
      link_new DevfsInode fs root name (if block_device then BlockDevice else CharacterDevice) 0x1B6 (with_device ops memory_base memory_length) ;!
      mok tt.
Definition register_device (fs : Z) (name : list Z) (block_device : bool) (ops : Z) : M (@Vfs F) unit :=
  register_memory_device fs name block_device ops 0 0.

Definition unregister_device (fs : Z) (name : list Z) : M (@Vfs F) unit :=
  let! s := mget in
  let root := root_of s fs in
  let! x := deref root in
  let! found := find_index (m_children x) name 0 in
  match found with
  | None => mok tt
  | Some (index, child) =>
      modify root (with_children (delete index (m_children x))) ;!
      modify child mark_unlinked ;!
      modify child (fun y => with_device 0 (m_memory_base y) (m_memory_length y) y) ;!
      Inode_unref child
  end.

(** The two devices devfs has of its own. *)
Definition NULL_NAME : list Z := [110; 117; 108; 108].
Definition ZERO_NAME : list Z := [122; 101; 114; 111].

Definition DevfsFileSystem_create (memory : option Z) (null_ops zero_ops : Z) : M (@Vfs F) Z :=
  let! fs := new_root DevfsInode memory 0x1ED in
  register_device fs NULL_NAME false null_ops ;!
  register_device fs ZERO_NAME false zero_ops ;!
  mok fs.

Definition DevfsInode_physical_page (i offset : Z) : M (@Vfs F) Z :=
  let! x := deref i in
  if m_unlinked x then merr ENODEV
  else if m_memory_length x =? 0 then merr ENODEV
  else if m_memory_length x <=? offset then merr ENXIO
  else mok (m_memory_base x + align_down offset PAGE_SIZE).

Definition TmpfsFileSystem_create (memory : option Z) : M (@Vfs F) Z := new_root TmpfsInode memory 0x1FF.

(** ** Mounting them *)

(** The boot loader's modules: a name, which may be missing, and where it is. *)
Record BootModule := mkModule { module_name : option (list Z); phys_start : Z; phys_end : Z }.

Fixpoint is_prefix (needle hay : list Z) : bool :=
  match needle, hay with
  | [], _ => true
  | n :: needle', h :: hay' => (n =? h) && is_prefix needle' hay'
  | _, [] => false
  end.
Fixpoint strstr (hay needle : list Z) : bool :=
  is_prefix needle hay || match hay with [] => false | _ :: rest => strstr rest needle end.

Definition INITRD : list Z := [105; 110; 105; 116; 114; 100].

Definition find_initrd (modules : list BootModule) : option BootModule :=
  match find (fun m => match module_name m with None => true | Some name => strstr name INITRD end) modules with
  | Some m => Some m
  | None => head modules
  end.

Definition TMP_PATH : list Z := [SLASH; 116; 109; 112].
Definition DEV_PATH : list Z := [SLASH; 100; 101; 118].

(** [initialize]. *)
Definition initialize (s : @Vfs F) : @Vfs F :=
  mkVfs (frames s) (mem s) (inodes s) (filesystems s) [] 0 (now s).

(** Where the heap puts the three [FileSystem] objects, and the drivers' tables. *)
Record BootMemory := mkBootMemory { initrd_memory : option Z; tmp_memory : option Z; dev_memory : option Z; null_table : Z; zero_table : Z }.

Definition mount_boot_filesystems (modules : list BootModule) (b : BootMemory) : M (@Vfs F) unit :=
  mmod initialize ;!
  match find_initrd modules with
  | None => merr ENODEV
  | Some initrd =>
      let! initrd_fs := UstarFileSystem_create (initrd_memory b) (phys_start initrd) (u64 (phys_end initrd - phys_start initrd)) in
      mount_root initrd_fs ;!
      let! tmp_fs := TmpfsFileSystem_create (tmp_memory b) in
      mount TMP_PATH tmp_fs ;!
      let! dev_fs := DevfsFileSystem_create (dev_memory b) (null_table b) (zero_table b) in
      mount DEV_PATH dev_fs
  end.
End Ustar.
