(* ===== verification/Archive.v ===== *)
(** * The archive format

    A ustar archive as a tar program writes it, and that the parser of Ustar.v
    gets back from it exactly what was put in. *)

From S2P Require Import Prelude Kstd Physical Pipe Files Paths Vfs Ustar.

(** ** Writing *)

(** A member: its path, split into prefix and name as the format wants it, and
    what else the parser reads of it. *)
Record Member := mkMember { prefix : list Z; name : list Z; directory : bool; member_mode : Z; mtime : Z; content : list Z }.

(** [digits] octal digits of [n]. *)
Fixpoint octal (digits : nat) (n : Z) : list Z :=
  match digits with O => [] | S k => octal k (n / 8) ++ [48 + n mod 8] end.

(** Byte [k] of the header of [m]; [other] is what the fields the parser does not
    look at hold (owner, checksum, link name, ...). *)
Definition header_byte (m : Member) (other : Z -> Z) (k : Z) : Z :=
  if k <? 100 then zget 0 (name m) k
  else if k <? 108 then zget 0 (octal 7 (member_mode m)) (k - 100)
  else if k <? 124 then other k
  else if k <? 136 then zget 0 (octal 11 (zlen (content m))) (k - 124)
  else if k <? 148 then zget 0 (octal 11 (mtime m)) (k - 136)
  else if k <? 156 then other k
  else if k =? 156 then (if directory m then 53 else 48)
  else if k <? 257 then other k
  else if k <? 263 then zget 0 USTAR (k - 257)
  else if k <? 345 then other k
  else if k <? 500 then zget 0 (prefix m) (k - 345)
  else other k.
Definition header (m : Member) (other : Z -> Z) : list Z := header_byte m other <$> seqZ 0 BLOCK_SIZE.

(** The contents are padded with zeros to whole blocks. *)
Definition blocks (n : Z) : Z := (n + BLOCK_SIZE - 1) / BLOCK_SIZE.
Definition padded (l : list Z) : list Z := l ++ replicate (Z.to_nat (blocks (zlen l) * BLOCK_SIZE - zlen l)) 0.

(** The archive ends with a zero block; the parser does not read what follows. *)
Fixpoint archive (members : list (Member * (Z -> Z))) (rest : list Z) : list Z :=
  match members with
  | [] => replicate (Z.to_nat BLOCK_SIZE) 0 ++ rest
  | (m, other) :: members' => header m other ++ padded (content m) ++ archive members' rest
  end.

(** The path as one string. *)
Definition member_path (m : Member) : list Z := (if bool_decide (prefix m = []) then [] else prefix m ++ [SLASH]) ++ name m.

Record member_ok (m : Member) : Prop := {
  mb_prefix : 0 ∉ prefix m /\ zlen (prefix m) <= 155;
  mb_name : 0 ∉ name m /\ zlen (name m) <= 100;
  mb_fits : zlen (member_path m) < PATH_ARRAY;
  mb_mode : 0 <= member_mode m < 8 ^ 7;
  mb_time : 0 <= mtime m < 8 ^ 11;
  mb_size : zlen (content m) < 8 ^ 11;
  mb_empty : directory m = true -> content m = [];
}.

(** ** Reading numbers back *)

Lemma octal_range digits : forall n, Forall (fun c => 48 <= c <= 55) (octal digits n).
Proof.
  induction digits as [|k IH]; intros n; cbn; [constructor|]. apply Forall_app. split; [apply IH|]. constructor; [|constructor]. pose proof (Z.mod_pos_bound n 8 ltac:(lia)). lia.
Qed.

Lemma octal_length digits : forall n, length (octal digits n) = digits.
Proof. induction digits as [|k IH]; intros n; cbn; [done|]. rewrite length_app, IH. cbn. lia. Qed.

Lemma octal_from_app l1 : forall l2 v, Forall (fun c => 48 <= c <= 55) l1 -> octal_from (l1 ++ l2) v = octal_from l2 (octal_from l1 v).
Proof.
  induction l1 as [|c l1 IH]; intros l2 v Hl; [done|]. inversion Hl as [|? ? Hc Hl']; subst. cbn [app octal_from].
  destruct (Z.eqb_spec c 0), (Z.eqb_spec c 32), (Z.ltb_spec c 48), (Z.ltb_spec 55 c); try lia. cbn [orb]. by apply IH.
Qed.

Lemma octal_parse digits : forall n, 0 <= n < 8 ^ Z.of_nat digits -> (digits <= 21)%nat -> octal_from (octal digits n) 0 = n.
Proof.
  induction digits as [|k IH]; intros n Hn Hk; [cbn in *; lia|]. cbn [octal]. rewrite octal_from_app by apply octal_range.
  replace (Z.of_nat (S k)) with (Z.of_nat k + 1) in Hn by lia. rewrite Z.pow_add_r in Hn by lia.
  rewrite IH by (split; [apply Z.div_pos; lia|apply Z.div_lt_upper_bound; lia] || lia). pose proof (Z.mod_pos_bound n 8 ltac:(lia)). cbn [octal_from].
  destruct (Z.eqb_spec (48 + n mod 8) 0), (Z.eqb_spec (48 + n mod 8) 32), (Z.ltb_spec (48 + n mod 8) 48), (Z.ltb_spec 55 (48 + n mod 8)); try lia. cbn [orb].
  replace (n / 8 * 8 + (48 + n mod 8 - 48)) with n by (pose proof (Z.div_mod n 8); lia). apply u64_small. unfold is_u64.
  assert (8 ^ Z.of_nat k * 8 ^ 1 <= 2 ^ 63); [|lia]. rewrite <- Z.pow_add_r by lia. change (2 ^ 63) with (8 ^ 21). apply Z.pow_le_mono_r; lia.
Qed.

(** A field read from a longer array of zeros. *)
Lemma field_zeros l n : zlen l <= n -> zget 0 l <$> seqZ 0 n = l ++ replicate (Z.to_nat (n - zlen l)) 0.
Proof.
  intros Hl. unfold zlen in Hl. apply list_eq. intros k. rewrite list_lookup_fmap. destruct (decide (k < Z.to_nat n)%nat) as [Hk|Hk].
  - rewrite lookup_seqZ_lt by lia. cbn. replace (0 + Z.of_nat k) with (Z.of_nat k) by lia. unfold zget. rewrite Nat2Z.id. destruct (l !! k) as [c|] eqn:E.
    + by rewrite (lookup_app_l_Some _ _ _ _ E).
    + apply lookup_ge_None in E. rewrite lookup_app_r, lookup_replicate_2 by (unfold zlen; lia). done.
  - rewrite lookup_seqZ_ge by lia. symmetry. apply lookup_ge_None. rewrite length_app, length_replicate. unfold zlen. lia.
Qed.

Lemma until_nul_zeros l n : 0 ∉ l -> until_nul (l ++ replicate n 0) = l.
Proof.
  induction l as [|c l IH]; intros Hl; cbn [until_nul app]; [by destruct n|]. apply not_elem_of_cons in Hl as [Hc Hl]. destruct (Z.eqb_spec c 0); [congruence|]. by rewrite IH.
Qed.

Lemma octal_field digits n : 0 <= n < 8 ^ Z.of_nat digits -> (digits <= 21)%nat -> parse_octal (octal digits n ++ [0]) = n.
Proof. intros Hn Hd. unfold parse_octal. rewrite octal_from_app by apply octal_range. by rewrite octal_parse. Qed.

(** ** Reading the header back *)

Ltac byte_field := intros k Hk; unfold header_byte;
  repeat match goal with |- context [?x <? ?y] => destruct (Z.ltb_spec x y); try lia end;
  repeat match goal with |- context [?x =? ?y] => destruct (Z.eqb_spec x y); try lia end; f_equal; lia.

Section Header.
Variables (m : Member) (other : Z -> Z).
Hypothesis (Hm : member_ok m).

Lemma header_slice a n fld : 0 <= a -> 0 <= n -> a + n <= BLOCK_SIZE -> zlen fld <= n -> (forall k, 0 <= k < n -> header_byte m other (a + k) = zget 0 fld k) ->
  slice (header m other) a n = fld ++ replicate (Z.to_nat (n - zlen fld)) 0.
Proof.
  intros Ha Hn Hs Hl Hb. rewrite <- field_zeros by done. unfold slice, header. apply list_eq. intros k. rewrite lookup_take. case_decide as Hk.
  - rewrite lookup_drop, !list_lookup_fmap, !lookup_seqZ_lt by lia. cbn. f_equal. rewrite <- Hb by lia. f_equal. lia.
  - symmetry. apply lookup_ge_None. rewrite length_fmap, length_seqZ. lia.
Qed.

Lemma header_length : zlen (header m other) = BLOCK_SIZE.
Proof. unfold zlen, header. by rewrite length_fmap, length_seqZ. Qed.

Lemma zget_header k : 0 <= k < BLOCK_SIZE -> zget 0 (header m other) k = header_byte m other k.
Proof. intros Hk. unfold zget, header. rewrite list_lookup_fmap, lookup_seqZ_lt by lia. cbn. f_equal. lia. Qed.

Lemma octal_slice a digits n : 0 <= a -> a + Z.of_nat digits + 1 <= BLOCK_SIZE -> 0 <= n < 8 ^ Z.of_nat digits -> (digits <= 21)%nat ->
  (forall k, 0 <= k < Z.of_nat digits + 1 -> header_byte m other (a + k) = zget 0 (octal digits n) k) -> parse_octal (slice (header m other) a (Z.of_nat digits + 1)) = n.
Proof.
  intros Ha Hs Hn Hd Hb. assert (Hl : zlen (octal digits n) = Z.of_nat digits) by (unfold zlen; by rewrite octal_length).
  rewrite (header_slice a (Z.of_nat digits + 1) (octal digits n)) by (done || lia). rewrite Hl. replace (Z.to_nat _) with 1%nat by lia. by apply octal_field.
Qed.

Lemma header_mode : parse_octal (h_mode (header m other)) = member_mode m.
Proof. apply (octal_slice 100 7); [done|done|apply Hm|lia|byte_field]. Qed.

Lemma header_size_field : parse_octal (h_size (header m other)) = zlen (content m).
Proof. apply (octal_slice 124 11); [done|done|split; [apply zlen_nonneg|apply Hm]|lia|byte_field]. Qed.

Lemma header_mtime : parse_octal (h_mtime (header m other)) = mtime m.
Proof. apply (octal_slice 136 11); [done|done|apply Hm|lia|byte_field]. Qed.

Lemma header_type : h_type_flag (header m other) = if directory m then 53 else 48.
Proof. unfold h_type_flag. by rewrite zget_header. Qed.

Lemma header_is_ustar : is_ustar (header m other) = true.
Proof. unfold is_ustar, h_magic. rewrite (header_slice 257 6 USTAR); [done|done|done|done|done|byte_field]. Qed.

Lemma header_nonzero : is_zero_block (header m other) = false.
Proof.
  destruct (is_zero_block (header m other)) eqn:E; [|done]. exfalso. unfold is_zero_block in E. rewrite forallb_forall in E.
  assert (Hin : In (zget 0 (header m other) 156) (header m other)).
  { apply list_elem_of_In, (list_elem_of_lookup_2 _ 156). rewrite <- (zget_lookup 0 (header m other) 156); [done|]. rewrite header_length. unfold BLOCK_SIZE. lia. }
  apply E, Z.eqb_eq in Hin. rewrite zget_header in Hin by done. cbn in Hin. by destruct (directory m).
Qed.

Lemma header_path_back : header_path (header m other) = member_path m.
Proof.
  destruct (mb_prefix _ Hm) as [Hp1 Hp2], (mb_name _ Hm) as [Hn1 Hn2]. unfold header_path, member_path, h_prefix, h_name.
  rewrite (header_slice 345 155 (prefix m)) by (done || byte_field). rewrite (header_slice 0 100 (name m)) by (done || byte_field). rewrite !until_nul_zeros by done. f_equal.
  destruct (prefix m) as [|c l] eqn:E; [done|]. rewrite bool_decide_eq_false_2 by done. apply not_elem_of_cons in Hp1 as [Hc _]. change (zget 0 ((c :: l) ++ replicate (Z.to_nat (155 - zlen (c :: l))) 0) 0) with c. destruct (Z.eqb_spec c 0); [congruence|done].
Qed.
End Header.

(** ** The members in order *)

Section Parse.
Context {F : Type} {FA : FrameAllocator F}.
Variable heap : @Vfs F -> KernelHeap.

(** What the parser does for a member whose contents are at [address]. *)
Definition add_member (fs : Z) (m : Member) (address : Z) : M (@Vfs F) unit :=
  let clean := clean_path (member_path m) in
  if bool_decide (clean = []) then mok tt
  else if directory m then
    let! i := ensure_path heap fs clean Directory (if member_mode m =? 0 then 0x1ED else member_mode m) in
    modify i (set_times (mtime m))
  else
    let! i := ensure_path heap fs clean Regular (if member_mode m =? 0 then 0x1A4 else member_mode m) in
    modify i (with_data address) ;!
    modify i (with_size (zlen (content m))) ;!
    modify i (set_times (mtime m)).

(** The members with the addresses of their contents, in an archive at [address]. *)
Fixpoint placed (address : Z) (members : list (Member * (Z -> Z))) : list (Member * Z) :=
  match members with
  | [] => []
  | (m, _) :: members' => (m, address + BLOCK_SIZE) :: placed (address + BLOCK_SIZE + blocks (zlen (content m)) * BLOCK_SIZE) members'
  end.

Fixpoint add_members (fs : Z) (l : list (Member * Z)) : M (@Vfs F) unit :=
  match l with [] => mok tt | (m, address) :: l' => add_member fs m address ;! add_members fs l' end.

Lemma add_entry_header fs m other address s : member_ok m -> add_entry heap fs (header m other) address s = add_member fs m address s.
Proof.
  intros Hm. unfold add_entry, add_member. rewrite header_path_back, header_mode, header_mtime, header_type, header_size_field by done.
  destruct (Z.leb_spec PATH_ARRAY (zlen (member_path m))) as [Hp|_]; [pose proof (mb_fits _ Hm); lia|]. pose proof (mb_mode _ Hm). pose proof (mb_time _ Hm).
  replace (u32 (member_mode m)) with (member_mode m) by (unfold u32; rewrite Z.mod_small; lia).
  replace (i64 (mtime m)) with (mtime m) by (unfold i64; rewrite Z.mod_small; lia). case_bool_decide; [done|]. by destruct (directory m).
Qed.

Lemma blocks_spec n : 0 <= n -> 0 <= blocks n /\ n <= blocks n * BLOCK_SIZE < n + BLOCK_SIZE.
Proof. intros Hn. unfold blocks, BLOCK_SIZE. zlia. Qed.

Lemma align_block n : 0 <= n < 2 ^ 63 -> align_up n BLOCK_SIZE = blocks n * BLOCK_SIZE.
Proof.
  intros Hn. unfold align_up, blocks, BLOCK_SIZE. rewrite (u64_small (n + 512 - 1)) by (unfold is_u64; lia). apply (land_lnot_low _ 9); [unfold is_u64; lia|lia].
Qed.

Lemma padded_length l : zlen (padded l) = blocks (zlen l) * BLOCK_SIZE.
Proof. pose proof (blocks_spec (zlen l) (zlen_nonneg l)). unfold padded, zlen in *. rewrite length_app, length_replicate. lia. Qed.

Lemma slice_app (pre l rest : list Z) n : zlen l = n -> slice (pre ++ l ++ rest) (zlen pre) n = l.
Proof.
  intros <-. unfold slice, zlen. rewrite !Nat2Z.id, drop_app_length. apply take_app_length.
Qed.

Lemma parse_loop_archive fs address rest members : Forall (fun m => member_ok (fst m)) members -> forall pre fuel s,
  zlen (pre ++ archive members rest) < 2 ^ 63 -> (length members < fuel)%nat ->
  parse_loop heap fuel fs address (pre ++ archive members rest) (zlen pre) s = add_members fs (placed (address + zlen pre) members) s.
Proof.
  induction 1 as [|[m other] members Hm _ IH]; intros pre [|fuel] s Hl Hf; try (cbn in Hf; lia); cbn [parse_loop].
  - cbn [archive] in *. pose proof (zlen_nonneg pre). pose proof (zlen_nonneg rest). rewrite !zlen_app in Hl |- *. change (zlen (replicate (Z.to_nat BLOCK_SIZE) 0)) with 512 in *. unfold BLOCK_SIZE at 1.
    rewrite u64_small by (unfold is_u64; lia). destruct (Z.leb_spec (zlen pre + 512) (zlen pre + (512 + zlen rest))); [|lia]. by rewrite slice_app.
  - cbn [archive fst] in *. pose proof (zlen_nonneg pre). pose proof (zlen_nonneg (archive members rest)). destruct (blocks_spec (zlen (content m)) (zlen_nonneg _)) as [Hb1 Hb2].
    assert (Hlen : zlen (pre ++ header m other ++ padded (content m) ++ archive members rest) = zlen pre + BLOCK_SIZE + blocks (zlen (content m)) * BLOCK_SIZE + zlen (archive members rest))
      by (rewrite !zlen_app, header_length, padded_length; lia).
    rewrite Hlen in Hl. pose proof (zlen_nonneg (content m)). assert (Hbs : BLOCK_SIZE = 512) by done. rewrite (u64_small (zlen pre + BLOCK_SIZE)) by (unfold is_u64; lia).
    destruct (Z.leb_spec (zlen pre + BLOCK_SIZE) (zlen (pre ++ header m other ++ padded (content m) ++ archive members rest))); [|lia].
    rewrite slice_app by apply header_length. rewrite header_nonzero, header_is_ustar by done. cbn [negb]. rewrite header_size_field by done. rewrite align_block by lia.
    rewrite u64_small by (unfold is_u64; lia). cbn [add_members placed]. unfold mtry at 1 2. rewrite add_entry_header by done.
    replace (address + zlen pre + BLOCK_SIZE) with (address + zlen pre + BLOCK_SIZE) by lia. destruct (add_member fs m (address + zlen pre + BLOCK_SIZE) s) as [[u|e|] s1]; [|done|done].
    rewrite !app_assoc. set (pre' := ((pre ++ header m other) ++ padded (content m))).
    assert (Hp' : zlen pre' = zlen pre + BLOCK_SIZE + blocks (zlen (content m)) * BLOCK_SIZE) by (unfold pre'; rewrite !zlen_app, header_length, padded_length; lia).
    rewrite <- Hp', IH; [f_equal; f_equal; lia| |cbn in Hf; lia]. rewrite zlen_app. lia.
Qed.

Lemma archive_length members rest : Z.of_nat (length members) * BLOCK_SIZE + BLOCK_SIZE <= zlen (archive members rest).
Proof.
  induction members as [|[m other] members IH]; cbn [archive length].
  - rewrite zlen_app. change (zlen (replicate (Z.to_nat BLOCK_SIZE) 0)) with 512. pose proof (zlen_nonneg rest). unfold BLOCK_SIZE. lia.
  - rewrite !zlen_app, header_length. pose proof (zlen_nonneg (padded (content m))). unfold BLOCK_SIZE in *. lia.
Qed.

Lemma parse_archive fs address members rest s : Forall (fun m => member_ok (fst m)) members -> zlen (archive members rest) < 2 ^ 63 ->
  parse heap fs address (archive members rest) s = add_members fs (placed address members) s.
Proof.
  intros Hm Hl. unfold parse. pose proof (parse_loop_archive fs address rest members Hm [] (Z.to_nat (zlen (archive members rest) / BLOCK_SIZE + 1)) s Hl) as E. cbn [app] in E.
  change (zlen []) with 0 in E. rewrite Z.add_0_r in E. apply E. pose proof (archive_length members rest). unfold BLOCK_SIZE in *. zlia.
Qed.

(** The contents of a placed member are where [placed] says they are. *)
Lemma placed_content members rest : forall pre base, Forall (fun ma => slice (pre ++ archive members rest) (snd ma - base) (zlen (content (fst ma))) = content (fst ma)) (placed (base + zlen pre) members).
Proof.
  induction members as [|[m other] members IH]; intros pre base; cbn [placed archive]; constructor.
  - cbn [fst snd]. replace (base + zlen pre + BLOCK_SIZE - base) with (zlen (pre ++ header m other)) by (rewrite zlen_app, header_length; lia).
    rewrite (app_assoc pre (header m other)). unfold padded. rewrite <- (app_assoc (content m)). by apply slice_app.
  - rewrite !app_assoc. specialize (IH ((pre ++ header m other) ++ padded (content m)) base).
    replace (base + zlen ((pre ++ header m other) ++ padded (content m))) with (base + zlen pre + BLOCK_SIZE + blocks (zlen (content m)) * BLOCK_SIZE) in IH
      by (rewrite !zlen_app, header_length, padded_length; lia). done.
Qed.
End Parse.
