(* ===== verification/BootTree.v ===== *)
(** * The tree after boot

    The initial ramdisk as a tree of inodes, and the three file systems mounted:
    what mount_boot_filesystems builds satisfies the invariant of VfsTree.v, and
    every file of the archive is found under its path with its contents. *)

From S2P Require Import Prelude Kstd Physical Pipe Files Paths Vfs Trees Tmpfs VfsTree VfsCalls VfsPaths Ustar Archive.

Section BootTree.
Context {F : Type} {FA : FrameAllocator F}.
Implicit Types (s : @Vfs F) (x y : Inode) (held R : list Z).

(** What holds of a state before anything is mounted, and after. *)
Record base_inv s R : Prop := {
  g_files : files_ok s;
  g_tree : tree_ok (tree s) R;
  g_base : fs_base (tree s) (filesystems s);
}.

(** The calls below change the inodes and the file systems only. *)
Definition same_rest s s' : Prop := frames s' = frames s /\ mem s' = mem s /\ s_mounts s' = s_mounts s /\ s_root_filesystem s' = s_root_filesystem s /\ now s' = now s.

Lemma vfs_base s held : vfs_inv s held -> base_inv s (held ++ mount_refs s).
Proof. intros H. split; [apply H|apply H|apply (mo_base _ _ _ _ (v_fs _ _ H))]. Qed.

(** A change that keeps the first keeps the second. *)
Lemma base_vfs s s' held : vfs_inv s held -> base_inv s' (held ++ mount_refs s) -> evolves (tree s) (tree s') -> same_fss (filesystems s) (filesystems s') -> same_rest s s' -> vfs_inv s' held.
Proof.
  intros H H' He Hk (_ & _ & E1 & E2 & _). split; [apply H'|unfold mount_refs; rewrite E1; apply H'|]. rewrite E1, E2. by apply (evolves_fs (tree s) _ (filesystems s)); [..|apply H].
Qed.

Section Link.
Variable heap : @Vfs F -> KernelHeap.

(** An address the heap hands out is never one in use. *)
Hypothesis (Hheap : forall s, heap_ok (heap s) s).

(** The inode [link_new] makes. *)
Definition linked_inode (cl : InodeClass) fs d (name : list Z) (type : InodeType) mode number (decorate : Inode -> Inode) : Inode :=
  decorate (with_number number (with_inode_parent d (with_name name (inode_new cl fs type mode)))).

Lemma drop_other s c y : inodes s !! c = Some y -> class y <> TmpfsInode -> m_reference_count y = 1 -> Inode_unref c s = (Ok tt, set_inodes (delete c) s).
Proof.
  intros Hy Hc Hn. unfold Inode_unref. rewrite mtry_get. cbn [unref_nested]. rewrite (try_deref c y) by done. rewrite Hn. change (u32 (1 - 1)) with 0.
  rewrite (try_modify c y) by done. rewrite bool_decide_eq_false_2 by done. cbn [Z.eqb]. unfold mtry, mok, mmod, set_inode, set_inodes. cbn. by rewrite delete_insert_eq.
Qed.

Lemma link_run cl fs d x f name type mode decorate s : inodes s !! d = Some x -> cl <> TmpfsInode -> zlen name < FILENAME_MAX_LENGTH -> filesystems s !! fs = Some f ->
  (forall y, node_of (decorate y) = node_of y) ->
  let s1 := with_fss (<[fs := numbered f]> (filesystems s)) s in
  link_new heap cl fs d name type mode decorate s =
  match inode_memory (heap s) with
  | None => (Err ENOMEM, s)
  | Some c =>
      if children_room (heap s)
      then (Ok c, set_inode d (with_children (m_children x ++ [c]) x) (set_inode c (linked_inode cl fs d name type mode (m_next_inode_number f) decorate) s1))
      else (Err ENOMEM, s1)
  end.
Proof.
  intros Hx Hcl Hl Hf Hdec s1. unfold link_new. rewrite mtry_get. destruct (inode_memory (heap s)) as [c|] eqn:Hm; [|done]. destruct (Hheap s c Hm) as [Hc0 Hc].
  assert (Hdc : d <> c) by congruence. rewrite mtry_mod. set (y0 := inode_new cl fs type mode). change (set_inodes <[c := y0]> s) with (set_inode c y0 s).
  rewrite strncpy_short by done. rewrite (try_modify c y0) by apply set_inode_eq. rewrite set_inode_twice. rewrite (try_modify c (with_name name y0)) by apply set_inode_eq. rewrite set_inode_twice.
  set (y2 := with_inode_parent d (with_name name y0)). unfold mtry at 1, allocate_inode_number. change (filesystems (set_inode c y2 s)) with (filesystems s). rewrite Hf.
  change (upd_filesystems <[fs := mkFileSystem (fs_class f) (m_root f) (u64 (m_next_inode_number f + 1))]> (set_inode c y2 s)) with (set_inode c y2 s1).
  rewrite (try_modify c y2) by apply set_inode_eq. rewrite set_inode_twice. rewrite (try_modify c (with_number (m_next_inode_number f) y2)) by apply set_inode_eq. rewrite set_inode_twice.
  change (decorate (with_number (m_next_inode_number f) y2)) with (linked_inode cl fs d name type mode (m_next_inode_number f) decorate). set (y := linked_inode _ _ _ _ _ _ _ _).
  destruct (children_room (heap s)).
  - rewrite (try_modify d x) by (by rewrite set_inode_ne). done.
  - assert (Hny : node_of y = node_of y2) by (unfold y, linked_inode; by rewrite Hdec). rewrite (mtry_ok _ _ _ tt s1); [done|]. rewrite (drop_other _ c y); [by rewrite set_inode_delete|apply set_inode_eq|..].
    + assert (class y = cl) by (change (n_class (node_of y) = cl); by rewrite Hny). congruence.
    + change (n_count (node_of y) = 1). by rewrite Hny.
Qed.

Lemma link_at cl fs d x name type mode decorate R s : base_inv s R -> inodes s !! d = Some x -> class x = cl -> cl <> TmpfsInode -> m_filesystem x = fs -> is_directory x = true -> m_unlinked x = false ->
  zlen name < FILENAME_MAX_LENGTH -> (forall k y, inodes s !! k = Some y -> m_parent y = d -> m_name y <> name) ->
  (forall y, node_of (decorate y) = node_of y) -> (forall y, file_of (decorate y) = file_of y) ->
  match link_new heap cl fs d name type mode decorate s with
  | (Ok c, s') => base_inv s' R /\ evolves (tree s) (tree s') /\ same_fss (filesystems s) (filesystems s') /\ same_rest s s' /\ inodes s !! c = None /\ c <> 0
      /\ exists number, inodes s' = <[d := with_children (m_children x ++ [c]) x]> (<[c := linked_inode cl fs d name type mode number decorate]> (inodes s))
  | (Err e, s') => base_inv s' R /\ inodes s' = inodes s /\ same_fss (filesystems s) (filesystems s') /\ same_rest s s'
      /\ (inode_memory (heap s) = None \/ children_room (heap s) = false)
  | (Panic, _) => False
  end.
Proof.
  intros H Hx Hc Hcl Hfs Hd Hu Hl Hfree Hdn Hdf. destruct (b_fs _ _ (g_base _ _ H) d (node_of x) (tree_lookup s d x Hx)) as (f & Hf & _). cbn in Hf. rewrite Hfs in Hf.
  pose proof (link_run cl fs d x f name type mode decorate s Hx Hcl Hl Hf Hdn) as E. cbv zeta in E. rewrite E. clear E.
  assert (Hk : same_fss (filesystems s) (<[fs := numbered f]> (filesystems s))) by (by apply numbered_same).
  destruct (inode_memory (heap s)) as [c|] eqn:Hm; [|split_and!; [done|done|done|done|by left]]. destruct (Hheap s c Hm) as [Hc0 Hcn].
  destruct (children_room (heap s)).
  2: { split_and!; [|done|done|done|by right]. split; [apply H|apply H|]. apply (evolves_base (tree s) _ (filesystems s)); [apply evolves_refl|done|apply H]. }
  set (s1 := with_fss _ s). set (y := linked_inode cl fs d name type mode (m_next_inode_number f) decorate). assert (Hdc : d <> c) by congruence.
  assert (Hny : node_of y = mkNode d [] name (bool_decide (type = Directory)) false 1 fs cl) by (unfold y, linked_inode; by rewrite Hdn).
  assert (Etr : tree (set_inode d (with_children (m_children x ++ [c]) x) (set_inode c y s1)) = alter (n_append c) d (<[c := mkNode d [] name (bool_decide (type = Directory)) false 1 (n_fs (node_of x)) (n_class (node_of x))]> (tree s))).
  { rewrite !tree_set, (alter_some _ d (node_of x)) by (rewrite lookup_insert_ne by congruence; by apply tree_lookup). f_equal. f_equal. cbn. by rewrite Hny, Hfs, Hc. }
  assert (Hfy : file_of y = mkFile cl [] 0) by (unfold y, linked_inode; by rewrite Hdf). unfold file_of in Hfy.
  assert (He : evolves (tree s) (tree (set_inode d (with_children (m_children x ++ [c]) x) (set_inode c y s1)))).
  { rewrite Etr. apply evolves_add; [by apply tree_lookup|unfold tree; by rewrite lookup_fmap, Hcn]. }
  split_and!; try done; [|by exists (m_next_inode_number f)]. split.
  - apply (files_ok_set _ d x); [|by rewrite set_inode_ne|done]. apply files_ok_new; [apply H|done|congruence..].
  - rewrite Etr. apply (tree_add (tree s) _ d (node_of x) c name _ (g_tree _ _ H)); [by apply tree_lookup|done|done|done|unfold tree; by rewrite lookup_fmap, Hcn|].
    intros k q Hq Hp. apply tree_lookup_inv in Hq as (z & Hz & ->). by apply (Hfree k z).
  - by apply (evolves_base (tree s) _ (filesystems s)); [..|apply H].
Qed.
End Link.

(** ** Where an inode is in a file system *)

(** [names] lead from the root [r] of a file system down to an inode. *)
Inductive place s (r : Z) : Z -> list (list Z) -> Prop :=
| place_root : place s r r []
| place_child p names c y : place s r p names -> inodes s !! c = Some y -> m_parent y = p -> place s r c (names ++ [m_name y]).

Section Places.
Variables (s : @Vfs F) (R : list Z) (r : Z) (rx : Inode).
Hypothesis (H : base_inv s R).
Hypothesis (Hr : inodes s !! r = Some rx).
Hypothesis (Hr0 : m_parent rx = 0).
Hypothesis (Hru : m_unlinked rx = false).

Lemma base_nonzero i : inode_live s i -> i <> 0.
Proof. intros [x Hx] ->. pose proof (t_null _ _ (g_tree _ _ H)) as E. by rewrite (tree_lookup s 0 x Hx) in E. Qed.

Lemma base_child d x c : inodes s !! d = Some x -> c ∈ m_children x <-> exists y, inodes s !! c = Some y /\ m_parent y = d.
Proof.
  intros Hx. rewrite (t_link _ _ (g_tree _ _ H) d c (node_of x) (tree_lookup s d x Hx)). split.
  - intros (m & Hm & Hp). apply tree_lookup_inv in Hm as (y & Hy & ->). by exists y.
  - intros (y & Hy & Hp). exists (node_of y). split; [by apply tree_lookup|done].
Qed.

Lemma base_find d x name : inodes s !! d = Some x -> exists c, find_child (m_children x) name s = (Ok c, s)
  /\ (c = 0 /\ (forall k y, inodes s !! k = Some y -> m_parent y = d -> m_name y <> name) \/ c <> 0 /\ exists y, inodes s !! c = Some y /\ m_parent y = d /\ m_name y = name).
Proof.
  intros Hx. destruct (find_child_in s (m_children x) name) as (c & E & Hc); [intros c Hc; apply (base_child d x c Hx) in Hc as (y & Hy & _); by exists y|].
  exists c. split; [done|]. destruct Hc as [[-> Hn]|[Hc (y & Hy & Hn)]]; [left|right]; (split; [try done|]).
  - intros k y Hy Hp. apply (Hn k); [|done]. apply (base_child d x k Hx). by exists y.
  - apply base_nonzero. by exists y.
  - exists y. split_and!; [done| |done]. apply (base_child d x c Hx) in Hc as (z & Hz & Hp). congruence.
Qed.

Lemma place_facts i names : place s r i names -> exists x, inodes s !! i = Some x /\ class x = class rx /\ m_filesystem x = m_filesystem rx /\ m_unlinked x = false.
Proof.
  induction 1 as [|p names c y Hp (x & Hx & E1 & E2 & E3) Hy Hpy]; [by exists rx|]. exists y. pose proof (tree_lookup s c y Hy) as Hn.
  destruct (t_same _ _ (g_tree _ _ H) c (node_of y) (node_of x) Hn) as [S1 S2]; [cbn; rewrite Hpy; by apply tree_lookup|]. cbn in S1, S2. split_and!; [done|congruence|congruence|].
  apply (t_linked _ _ (g_tree _ _ H) c _ Hn). cbn. rewrite Hpy. apply base_nonzero. by exists x.
Qed.

Lemma place_nonzero i names : place s r i names -> i <> 0.
Proof. intros P. destruct (place_facts i names P) as (x & Hx & _). apply base_nonzero. by exists x. Qed.

Lemma place_inv i names : place s r i names -> i = r /\ names = [] \/ i <> r /\ exists p names' y, names = names' ++ [m_name y] /\ place s r p names' /\ inodes s !! i = Some y /\ m_parent y = p.
Proof.
  intros P. assert (NZ : forall p n, place s r p n -> p <> 0) by apply place_nonzero. destruct P as [|p names c y P Hy Hp]; [by left|right]. split; [|by exists p, names, y].
  intros E. rewrite E, Hr in Hy. injection Hy as <-. apply (NZ p names P). congruence.
Qed.

Lemma place_names i n1 n2 : place s r i n1 -> place s r i n2 -> n1 = n2.
Proof.
  intros P1. revert n2. induction P1 as [|p names c y P1 IH Hy Hp]; intros n2 P2; apply place_inv in P2 as [[E ->]|(Hne & p2 & m2 & y2 & -> & P2 & Hy2 & Hp2)]; try done.
  - rewrite E in *. destruct (place_inv r (names ++ [m_name y])) as [[_ ?]|[? _]]; [|done|done]. by apply (place_child s r p).
  - rewrite Hy in Hy2. injection Hy2 as <-. f_equal. apply IH. congruence.
Qed.

Lemma place_inode i1 i2 names : place s r i1 names -> place s r i2 names -> i1 = i2.
Proof.
  intros P1. revert i2. induction P1 as [|p names c y P1 IH Hy Hp]; intros i2 P2; apply place_inv in P2 as [[E1 E]|(Hne & p2 & m2 & y2 & E & P2 & Hy2 & Hp2)].
  - done.
  - by destruct m2.
  - by destruct names.
  - apply app_inj_tail in E as [-> E]. rewrite <- (IH _ P2) in *. pose proof (place_nonzero _ _ P1) as Hnz.
    by apply (t_names _ _ (g_tree _ _ H) c i2 (node_of y) (node_of y2) (tree_lookup s c y Hy) (tree_lookup s i2 y2 Hy2)); cbn; congruence.
Qed.
End Places.

(** From one state to the next, inodes are added, and to directories children. *)
Definition tree_grows s s' : Prop := forall i y, inodes s !! i = Some y -> exists l, inodes s' !! i = Some (with_children l y).

Lemma tree_grows_refl s : tree_grows s s.
Proof. intros i y Hy. exists (m_children y). rewrite Hy. by destruct y. Qed.

Lemma tree_grows_trans s s1 s2 : tree_grows s s1 -> tree_grows s1 s2 -> tree_grows s s2.
Proof. intros G1 G2 i y Hy. destruct (G1 i y Hy) as [l1 H1]. destruct (G2 i _ H1) as [l2 H2]. by exists l2. Qed.

Lemma grows_place s s' r i names : tree_grows s s' -> place s r i names -> place s' r i names.
Proof. intros G. induction 1 as [|p names c y P IH Hy Hp]; [constructor|]. destruct (G c y Hy) as [l Hc]. change (m_name y) with (m_name (with_children l y)). by apply (place_child s' r p). Qed.

Lemma grows_place_back s s' R r i names : base_inv s R -> base_inv s' R -> (exists rx, inodes s' !! r = Some rx /\ m_parent rx = 0 /\ m_unlinked rx = false) ->
  tree_grows s s' -> inode_live s i -> place s' r i names -> place s r i names.
Proof.
  intros H H' (rx & Hr & Hr0 & Hru) G Hi P. induction P as [|p names c y P IH Hy Hp]; [constructor|]. destruct Hi as [y0 Hy0]. destruct (G c y0 Hy0) as [l E]. rewrite Hy in E. injection E as ->.
  change (m_name (with_children l y0)) with (m_name y0). apply (place_child s r p); [|done|done]. apply IH. cbn in Hp.
  pose proof (place_nonzero s' R r rx H' Hr Hru p names P) as Hnz. unfold inode_live. rewrite <- tree_live, <- Hp. apply (t_parent _ _ (g_tree _ _ H) c (node_of y0) (tree_lookup s c y0 Hy0)). cbn. congruence.
Qed.

(** ** Making the tree of the initial ramdisk *)

Section Ramdisk.
Variable heap : @Vfs F -> KernelHeap.
Hypothesis (Hheap : forall s, heap_ok (heap s) s).

(** The kernel has just booted: there is memory for every inode. *)
Hypothesis (Hroom : forall s, is_Some (inode_memory (heap s)) /\ children_room (heap s) = true).

Variables (R : list Z) (fs r : Z).

(** The initial ramdisk is file system [fs], and [r] its root. *)
Definition ramdisk s : Prop := base_inv s R /\ exists f, filesystems s !! fs = Some f /\ fs_class f = UstarInode /\ m_root f = r.

Lemma ramdisk_root s : ramdisk s -> exists rx, inodes s !! r = Some rx /\ m_parent rx = 0 /\ m_unlinked rx = false /\ is_directory rx = true /\ m_filesystem rx = fs /\ class rx = UstarInode.
Proof.
  intros (H & f & Hf & Hc & <-). destruct (b_root _ _ (g_base _ _ H) fs f Hf) as (n & Hn & Hp & Hu & Hd & Hs). destruct (b_fs _ _ (g_base _ _ H) _ n Hn) as (f' & Hf' & Hc').
  apply tree_lookup_inv in Hn as (rx & Hrx & ->). exists rx. cbn in *. split_and!; try done. rewrite Hs, Hf in Hf'. congruence.
Qed.

Lemma ramdisk_step s s' : ramdisk s -> base_inv s' R -> same_fss (filesystems s) (filesystems s') -> ramdisk s'.
Proof. intros (_ & f & Hf & Hc & Hr) H' Hk. split; [done|]. destruct (same_fss_to _ _ _ f Hk Hf) as (f' & ? & ? & ?). exists f'. split_and!; congruence. Qed.

(** From [s] to [s'] inodes were added, each as [new] says. *)
Record added_only s s' (new : Z -> Inode -> Prop) : Prop := {
  ad_disk : ramdisk s';
  ad_evolves : evolves (tree s) (tree s');
  ad_fss : same_fss (filesystems s) (filesystems s');
  ad_rest : same_rest s s';
  ad_grows : tree_grows s s';
  ad_new : forall j y, inodes s' !! j = Some y -> inode_live s j \/ new j y;
}.

Lemma added_none s new : ramdisk s -> added_only s s new.
Proof. intros H. split; [done|apply evolves_refl|done|done|apply tree_grows_refl|]. intros j y Hy. left. by exists y. Qed.

Lemma added_trans s s1 s2 new1 new2 new : added_only s s1 new1 -> added_only s1 s2 new2 ->
  (forall j y l, inodes s1 !! j = Some y -> inodes s2 !! j = Some (with_children l y) -> new1 j y -> new j (with_children l y)) -> (forall j y, inodes s2 !! j = Some y -> new2 j y -> new j y) -> added_only s s2 new.
Proof.
  intros A1 A2 N1 N2. split.
  - apply A2.
  - apply (evolves_trans _ (tree s1)); [apply A1|apply A2].
  - intros k. by rewrite (ad_fss _ _ _ A2 k), (ad_fss _ _ _ A1 k).
  - destruct (ad_rest _ _ _ A1) as (? & ? & ? & ? & ?), (ad_rest _ _ _ A2) as (? & ? & ? & ? & ?). unfold same_rest. split_and!; congruence.
  - apply (tree_grows_trans s s1); [apply A1|apply A2].
  - intros j y Hy. destruct (ad_new _ _ _ A2 j y Hy) as [[y1 Hy1]|Hn]; [|right; by apply N2]. destruct (ad_grows _ _ _ A2 j y1 Hy1) as [l E]. rewrite Hy in E. injection E as ->.
    destruct (ad_new _ _ _ A1 j y1 Hy1) as [?|Hn]; [by left|right; by apply N1].
Qed.

(** One component: the child of that name, made if there is none. *)
Lemma ensure_step s current pre x component type mode : ramdisk s -> place s r current pre -> inodes s !! current = Some x -> is_directory x = true -> zlen component < FILENAME_MAX_LENGTH ->
  exists child s1, (forall A (k : Z -> M Vfs A), (let! x := deref current in
      let! candidate := find_child (m_children x) component in
      let! child := if candidate =? 0 then link_new heap UstarInode fs current component type mode id else mok candidate in k child) s = k child s1)
    /\ added_only s s1 (fun j y => j = child /\ m_type y = type) /\ place s1 r child (pre ++ [component])
    /\ (inode_live s child -> s1 = s).
Proof.
  intros Hd P Hx Hdir Hl. pose proof Hd as [H _]. destruct (ramdisk_root s Hd) as (rx & Hr & Hr0 & Hru & _ & Hrf & Hrc).
  destruct (place_facts s R r rx H Hr Hru current pre P) as (x' & Hx' & Ec & Ef & Eu). rewrite Hx in Hx'. injection Hx' as <-. rewrite Hrc in Ec. rewrite Hrf in Ef.
  destruct (base_find s R H current x component Hx) as (c & Efc & Hc). destruct Hc as [[-> Hfree]|(Hc0 & y & Hy & Hp & Hn)].
  - pose proof (link_at heap Hheap UstarInode fs current x component type mode id R s H Hx Ec ltac:(done) Ef Hdir Eu Hl Hfree ltac:(done) ltac:(done)) as Hk.
    destruct (link_new heap UstarInode fs current component type mode id s) as [[c|e|] s1] eqn:El; [| |done].
    2: { destruct (Hroom s) as [[a Ha] Hb]. destruct Hk as (_ & _ & _ & _ & [?|?]); congruence. }
    destruct Hk as (H1 & He & Hf & Hrest & Hcn & Hc0 & number & E). exists c, s1. assert (Hcc : c <> current) by congruence.
    assert (Hd1 : ramdisk s1) by (by apply (ramdisk_step s)).
    assert (Hcs : inodes s1 !! c = Some (linked_inode UstarInode fs current component type mode number id)) by (by rewrite E, lookup_insert_ne, lookup_insert_eq).
    assert (G : tree_grows s s1).
    { intros i y Hy. rewrite E. destruct (decide (i = current)) as [->|Hi]; [rewrite lookup_insert_eq; rewrite Hx in Hy; injection Hy as <-; by eexists|].
      rewrite !lookup_insert_ne by congruence. exists (m_children y). rewrite Hy. by destruct y. }
    split_and!; [| | |intros [? ?]; congruence].
    + intros A k. rewrite (try_deref current x), (mtry_ok _ _ _ _ _ Efc) by done. cbn [Z.eqb]. by rewrite (mtry_ok _ _ _ _ _ El).
    + split; try done. intros j y Hy. destruct (decide (j = c)) as [->|Hj]; [right; rewrite Hcs in Hy; by injection Hy as <-|left]. rewrite E in Hy.
      destruct (decide (j = current)) as [->|Hi]; [by exists x|]. rewrite !lookup_insert_ne in Hy by congruence. by exists y.
    + apply (place_child s1 r current pre c _ (grows_place s s1 r current pre G P) Hcs). done.
  - exists c, s. split_and!; [|by apply added_none| |done].
    + intros A k. rewrite (try_deref current x), (mtry_ok _ _ _ _ _ Efc) by done. destruct (Z.eqb_spec c 0); [done|]. by rewrite mtry_mok.
    + rewrite <- Hn. by apply (place_child s r current).
Qed.

(** What lies above the last of [names], below [pre], is directories. *)
Definition dirs s (pre names : list (list Z)) : Prop := forall l1 l2 j y, names = l1 ++ l2 -> l2 <> [] -> place s r j (pre ++ l1) -> inodes s !! j = Some y -> is_directory y = true.

(** An inode made for [names]: a directory, or the last one. *)
Definition newly_at s' (pre names : list (list Z)) (type : InodeType) (j : Z) (y : Inode) : Prop :=
  exists l1 l2, names = l1 ++ l2 /\ l1 <> [] /\ place s' r j (pre ++ l1) /\ m_type y = (if bool_decide (l2 = []) then type else Directory).

Lemma is_last_join tr rest : tr = [] \/ tr = [SLASH] -> Forall plain rest -> is_last (join rest ++ tr) = bool_decide (rest = []).
Proof.
  intros Htr Hp. unfold is_last. destruct rest as [|n rest]; [by destruct Htr as [->| ->]|]. apply Forall_inv in Hp as (Hn & _). cbn [join app]. rewrite !bool_decide_eq_false_2; [done|done|destruct n; done|done].
Qed.

Lemma ensure_components_at tr : tr = [] \/ tr = [SLASH] -> forall rest n1 fuel current cursor pre s type mode, ramdisk s -> place s r current pre -> Forall plain (n1 :: rest) ->
  next_component cursor = Some (n1, join rest ++ tr) -> (length rest < fuel)%nat -> dirs s pre (n1 :: rest) ->
  exists i s', ensure_path_loop heap fuel fs current cursor type mode s = (Ok i, s') /\ added_only s s' (newly_at s' pre (n1 :: rest) type) /\ place s' r i (pre ++ n1 :: rest).
Proof.
  intros Htr. induction rest as [|n2 rest IH]; intros n1 [|fuel] current cursor pre s type mode Hd P Hp Hn Hf Hdirs; try (cbn in Hf; lia); cbn [ensure_path_loop]; rewrite Hn.
  all: pose proof (Forall_inv Hp) as (Hn0 & Hns & Hnl); pose proof (Forall_inv_tail Hp) as Hp2; pose proof Hd as [H _]; destruct (ramdisk_root s Hd) as (rx & Hr & Hr0 & Hru & _ & Hrf & Hrc).
  all: destruct (place_facts s R r rx H Hr Hru current pre P) as (x & Hx & _).
  all: assert (Hdx : is_directory x = true) by (eapply (Hdirs [] _ current x eq_refl); [done|by rewrite app_nil_r|done]).
  all: rewrite is_last_join by done; match goal with |- context [bool_decide ?Q] => set (b := bool_decide Q) end.
  all: destruct (ensure_step s current pre x n1 (if b then type else Directory) (if b then mode else 0x1ED) Hd P Hx Hdx Hnl) as (child & s1 & E1 & A1 & P1 & L1).
  all: rewrite E1; unfold b; clear E1.
  - exists child, s1. split_and!; [done| |done]. apply (added_trans s s1 s1 _ (fun _ _ => False) _ A1); [apply added_none, A1| |done].
    intros j y l Hj _ [-> Ht]. exists [n1], []. by split_and!.
  - rewrite bool_decide_eq_false_2 by done. change (if b then type else Directory) with Directory in A1.
    assert (Hd1 : ramdisk s1) by apply A1. destruct (ramdisk_root s1 Hd1) as (rx1 & Hr1 & Hr10 & Hru1 & _).
    assert (Hdirs1 : dirs s1 (pre ++ [n1]) (n2 :: rest)).
    { intros l1 l2 j y El Hl2 Pj Hj. rewrite <- app_assoc in Pj. cbn [app] in Pj. destruct (ad_new _ _ _ A1 j y Hj) as [[y0 Hy0]|[-> Ht]]; [|unfold is_directory; by rewrite Ht].
      destruct (ad_grows _ _ _ A1 j y0 Hy0) as [l E]. rewrite Hj in E. injection E as ->. change (is_directory y0 = true). apply (Hdirs (n1 :: l1) l2 j y0); [by rewrite El|done| |done].
      apply (grows_place_back s s1 R r j); [done|apply Hd1|by exists rx1|apply A1|by exists y0|done]. }
    destruct (next_component_plain n2 (join rest ++ tr) (Forall_inv Hp2)) as [_ En]; [destruct rest; [by destruct Htr as [->| ->]|done]|].
    destruct (IH n2 fuel child (join (n2 :: rest) ++ tr) (pre ++ [n1]) s1 type mode Hd1 P1 Hp2) as (i & s2 & E2 & A2 & P2); [cbn [join app]; by rewrite <- app_assoc|cbn in Hf; lia|done|].
    exists i, s2. rewrite <- app_assoc in P2. split_and!; [done| |done]. apply (added_trans s s1 s2 _ _ _ A1 A2).
    + intros j y l Hj Hj2 [-> Ht]. exists [n1], (n2 :: rest). split_and!; [done|done|by apply (grows_place s1 s2); [apply A2|]|done].
    + intros j y Hj (l1 & l2 & El & Hl1 & Pj & Ht). exists (n1 :: l1), l2. rewrite <- app_assoc in Pj. split_and!; [by rewrite El|done|done|done].
Qed.

Lemma ensure_path_at tr names s type mode : tr = [] \/ tr = [SLASH] -> names <> [] -> Forall plain names -> ramdisk s -> dirs s [] names ->
  exists i s', ensure_path heap fs (drop 1 (join names) ++ tr) type mode s = (Ok i, s') /\ added_only s s' (newly_at s' [] names type) /\ place s' r i names.
Proof.
  intros Htr Hne Hp Hd Hdirs. destruct names as [|n1 rest]; [done|]. unfold ensure_path. rewrite mtry_get. pose proof Hd as (_ & f & Hf & _ & Hr). unfold root_of. rewrite Hf, Hr.
  assert (E : drop 1 (join (n1 :: rest)) ++ tr = n1 ++ (join rest ++ tr)) by (change (drop 1 (join (n1 :: rest))) with (n1 ++ join rest); by rewrite <- app_assoc). rewrite E.
  destruct (next_component_plain n1 (join rest ++ tr) (Forall_inv Hp)) as [En _]; [destruct rest; [by destruct Htr as [->| ->]|done]|].
  apply (ensure_components_at tr Htr rest n1); [done|constructor|done|done| |done]. rewrite !length_app. pose proof (path_join_length rest). lia.
Qed.

(** ** One member after another *)

Definition member_names (m : Member) : list (list Z) := components (clean_path (member_path m)).

(** The path is names separated by single slashes, as tar writes it. *)
Definition tidy (m : Member) : Prop := Forall ordinary (member_names m) /\ member_names m <> []
  /\ exists tr, (tr = [] \/ tr = [SLASH]) /\ clean_path (member_path m) = drop 1 (join (member_names m)) ++ tr.

(** What the tree holds once the members [done] have been added. *)
Record tree_holds s (done : list (Member * Z)) : Prop := {
  h_disk : ramdisk s;
  h_places : forall names j y, place s r j names -> inodes s !! j = Some y ->
    m_type y = Directory /\ (names = [] \/ exists ma, ma ∈ done /\ names `prefix_of` member_names ma.1)
    \/ m_type y = Regular /\ exists ma, ma ∈ done /\ directory ma.1 = false /\ member_names ma.1 = names;
  h_found : forall ma, ma ∈ done -> exists j y, place s r j (member_names ma.1) /\ inodes s !! j = Some y
    /\ (if directory ma.1 then m_type y = Directory else m_type y = Regular /\ m_data y = ma.2 /\ m_size y = zlen (content ma.1));
}.

(** No file's path is, or goes through, that of another member. *)
Definition apart (m1 m2 : Member) : Prop :=
  (directory m1 = false -> ~ member_names m1 `prefix_of` member_names m2) /\ (directory m2 = false -> ~ member_names m2 `prefix_of` member_names m1).

Lemma place_tree s s' i names : tree s' = tree s -> place s' r i names -> place s r i names.
Proof.
  intros E. induction 1 as [|p names c y P IH Hy Hp]; [constructor|]. pose proof (tree_lookup s' c y Hy) as Hn. rewrite E in Hn. apply tree_lookup_inv in Hn as (y0 & Hy0 & En).
  unfold node_of in En. replace (m_name y) with (m_name y0) by congruence. apply (place_child s r p); [done|done|congruence].
Qed.

Lemma files_ok_other s i x y : files_ok s -> inodes s !! i = Some x -> class x <> TmpfsInode -> class y = class x -> m_pages y = m_pages x -> files_ok (set_inode i y s).
Proof.
  intros [H Hz] Hx Hc Hcy Hp. pose proof (files_lookup s i x Hx) as Hf. pose proof (p_other _ _ H i _ Hf Hc) as Hn. cbn in Hn. unfold files_ok. rewrite files_set. cbn [frames mem set_inode set_inodes].
  assert (Hfy : f_pages (file_of y) = []) by (cbn; congruence). assert (Hfc : f_class (file_of y) <> TmpfsInode) by (cbn; congruence). split; [split|].
  - apply H.
  - intros j g p Hg Hin. apply lookup_insert_Some in Hg as [[<- <-]|[_ Hg]]; [rewrite Hfy in Hin; by apply not_elem_of_nil in Hin|by apply (p_owned _ _ H j g)].
  - intros j g Hg. apply lookup_insert_Some in Hg as [[<- <-]|[_ Hg]]; [rewrite Hfy; constructor|by apply (p_nodup _ _ H j g)].
  - intros j1 j2 g1 g2 p H1 H2 I1 I2. apply lookup_insert_Some in H1 as [[<- <-]|[_ H1]]; [rewrite Hfy in I1; by apply not_elem_of_nil in I1|].
    apply lookup_insert_Some in H2 as [[<- <-]|[_ H2]]; [rewrite Hfy in I2; by apply not_elem_of_nil in I2|]. by apply (p_apart _ _ H j1 j2 g1 g2 p).
  - intros j g Hg. apply lookup_insert_Some in Hg as [[<- <-]|[_ Hg]]; [done|by apply (p_other _ _ H j g)].
  - intros j g Hg Hcg. apply lookup_insert_Some in Hg as [[<- <-]|[_ Hg]]; [done|by apply (p_size _ _ H j g)].
  - intros j g k Hg Hcg. apply lookup_insert_Some in Hg as [[<- <-]|[_ Hg]]; [done|by apply (Hz j g)].
Qed.

Definition type_of (m : Member) : InodeType := if directory m then Directory else Regular.

(** What [tree_holds] says of one inode and of one member. *)
Definition expected (done : list (Member * Z)) names y : Prop :=
  m_type y = Directory /\ (names = [] \/ exists ma, ma ∈ done /\ names `prefix_of` member_names ma.1)
  \/ m_type y = Regular /\ exists ma, ma ∈ done /\ directory ma.1 = false /\ member_names ma.1 = names.
Definition recorded (ma : Member * Z) y : Prop :=
  if directory ma.1 then m_type y = Directory else m_type y = Regular /\ m_data y = ma.2 /\ m_size y = zlen (content ma.1).

Lemma expected_more ma done names y : expected done names y -> expected (ma :: done) names y.
Proof. intros [(Ht & [?|(mb & Hb & Hp)])|(Ht & mb & Hb & Hp)]; [left|left|right]; (split; [done|]); [by left|right; exists mb; split; [by right|done]|exists mb; split; [by right|done]]. Qed.

(** An inode already at the path of [m] fits what [m] is. *)
Lemma expected_type done m y : Forall (fun ma => apart ma.1 m) done -> member_names m <> [] -> expected done (member_names m) y -> directory m = true /\ m_type y = Directory.
Proof.
  intros Ha Hne. rewrite Forall_forall in Ha. intros [(Ht & [?|(mb & Hb & Hp)])|(Ht & mb & Hb & Hd & Hn)]; [done| |]; destruct (Ha mb Hb) as [A1 A2].
  - destruct (directory m); [done|]. by destruct (A2 eq_refl).
  - destruct (A1 Hd). rewrite Hn. done.
Qed.

Lemma member_made m a done mode s : tree_holds s done -> tidy m -> Forall (fun ma => apart ma.1 m) done ->
  exists i s1 y1, ensure_path heap fs (clean_path (member_path m)) (type_of m) mode s = (Ok i, s1) /\ same_rest s s1 /\ same_fss (filesystems s) (filesystems s1) /\ ramdisk s1 /\ place s1 r i (member_names m)
    /\ inodes s1 !! i = Some y1 /\ m_type y1 = type_of m /\ (forall names j y, place s1 r j names -> inodes s1 !! j = Some y -> expected ((m, a) :: done) names y)
    /\ (forall ma, ma ∈ done -> exists j y, place s1 r j (member_names ma.1) /\ inodes s1 !! j = Some y /\ recorded ma y /\ (directory m = false -> j <> i)).
Proof.
  intros Hh (Hord & Hne & tr & Htr & Epath) Hap. pose proof (h_disk _ _ Hh) as Hd. pose proof Hd as [H _].
  assert (Hplain : Forall plain (member_names m)) by (eapply Forall_impl; [exact Hord|]; by intros n [? _]).
  assert (Hdirs : dirs s [] (member_names m)).
  { intros l1 l2 j y El Hl2 Pj Hj. destruct (h_places _ _ Hh l1 j y Pj Hj) as [[Ht _]|(_ & ma & Hin & Hf & Hn)]; [unfold is_directory; by rewrite Ht|].
    rewrite Forall_forall in Hap. destruct (Hap ma Hin) as [A1 _]. destruct (A1 Hf). rewrite Hn, El. by exists l2. }
  rewrite Epath. destruct (ensure_path_at tr (member_names m) s (type_of m) mode Htr Hne Hplain Hd Hdirs) as (i & s1 & E & A & P). exists i, s1.
  pose proof (ad_disk _ _ _ A) as Hd1. pose proof Hd1 as [H1 _]. destruct (ramdisk_root s1 Hd1) as (rx & Hr & Hr0 & Hru & _). destruct (place_facts s1 R r rx H1 Hr Hru i _ P) as (y1 & Hy1 & _). exists y1.
  assert (Hback : forall names j y0 y, place s1 r j names -> inodes s !! j = Some y0 -> inodes s1 !! j = Some y -> place s r j names /\ m_type y = m_type y0).
  { intros names j y0 y Pj Hy0 Hy. destruct (ad_grows _ _ _ A j y0 Hy0) as [l El]. rewrite Hy in El. injection El as ->. split; [|done].
    apply (grows_place_back s s1 R r j); [done|done|by exists rx|apply A|by exists y0|done]. }
  assert (Hlive : inode_live s i -> directory m = true /\ m_type y1 = Directory).
  { intros [y0 Hy0]. destruct (Hback _ i y0 y1 P Hy0 Hy1) as [P0 ->]. apply (expected_type done m y0 Hap Hne). by apply (h_places _ _ Hh _ i). }
  assert (Htype : m_type y1 = type_of m).
  { destruct (ad_new _ _ _ A i y1 Hy1) as [Hi|(l1 & l2 & El & Hl1 & Pi & Ht)]; [unfold type_of; by destruct (Hlive Hi) as [-> ->]|].
    rewrite (place_names s1 R r rx H1 Hr Hr0 Hru i _ _ P Pi) in El. cbn [app] in El. rewrite <- (app_nil_r l1) in El at 1. apply app_inv_head in El. subst l2. done. }
  split_and!; try done; [apply A|apply A| |].
  - intros names j y Pj Hj. destruct (ad_new _ _ _ A j y Hj) as [[y0 Hy0]|(l1 & l2 & El & Hl1 & Pj2 & Ht)].
    + destruct (Hback names j y0 y Pj Hy0 Hj) as [P0 Et]. apply expected_more. pose proof (h_places _ _ Hh names j y0 P0 Hy0) as He. unfold expected. by rewrite Et.
    + cbn [app] in Pj2. rewrite (place_names s1 R r rx H1 Hr Hr0 Hru j _ _ Pj Pj2). unfold type_of in Ht. case_bool_decide as E2; [subst l2; rewrite app_nil_r in El; destruct (directory m) eqn:Edir|].
      * left. split; [done|]. right. exists (m, a). split; [by left|]. cbn [fst]. by rewrite El.
      * right. split; [done|]. exists (m, a). split; [by left|done].
      * left. split; [done|]. right. exists (m, a). split; [by left|]. cbn [fst]. rewrite El. by exists l2.
  - intros ma Hin. destruct (h_found _ _ Hh ma Hin) as (j & y0 & Pj & Hj & Hrec). destruct (ad_grows _ _ _ A j y0 Hj) as [l El]. exists j. eexists. split_and!; [by apply (grows_place s s1); [apply A|]|done|done|].
    intros Hdm ->. destruct (Hlive ltac:(by exists y0)). congruence.
Qed.

Lemma ramdisk_set s i x y : ramdisk s -> inodes s !! i = Some x -> class x <> TmpfsInode -> node_of y = node_of x -> m_pages y = m_pages x ->
  ramdisk (set_inode i y s) /\ tree (set_inode i y s) = tree s.
Proof.
  intros (H & f & Hf) Hx Hc Hn Hp. assert (Et : tree (set_inode i y s) = tree s) by (by apply (tree_set_same i y x)). split; [|done].
  split; [|by exists f]. split; [|by rewrite Et; apply H|by rewrite Et; apply H]. apply (files_ok_other s i x); [apply H|done|done| |done]. unfold node_of in Hn. congruence.
Qed.

(** The tree once the inode at the path of [m] has been given what [m] says. *)
Lemma holds_member m a done s1 i y1 y2 : ramdisk s1 -> place s1 r i (member_names m) -> inodes s1 !! i = Some y1 -> m_type y1 = type_of m ->
  (forall names j y, place s1 r j names -> inodes s1 !! j = Some y -> expected ((m, a) :: done) names y) ->
  (forall ma, ma ∈ done -> exists j y, place s1 r j (member_names ma.1) /\ inodes s1 !! j = Some y /\ recorded ma y /\ (directory m = false -> j <> i)) ->
  node_of y2 = node_of y1 -> m_pages y2 = m_pages y1 -> m_type y2 = m_type y1 -> recorded (m, a) y2 -> (directory m = true -> m_data y2 = m_data y1 /\ m_size y2 = m_size y1) ->
  tree_holds (set_inode i y2 s1) ((m, a) :: done).
Proof.
  intros Hd P Hy Ht Hexp Hrec Hn Hp Ht2 Hr2 Hdir. destruct (ramdisk_root s1 Hd) as (rx & Hr & Hr0 & Hru & _ & _ & Hrc). destruct (place_facts s1 R r rx (proj1 Hd) Hr Hru i _ P) as (y1' & Hy' & Hc & _).
  rewrite Hy in Hy'. injection Hy' as <-. destruct (ramdisk_set s1 i y1 y2 Hd Hy ltac:(congruence) Hn Hp) as [Hd2 Et].
  assert (Hto : forall j names, place s1 r j names -> place (set_inode i y2 s1) r j names) by (intros j names; by apply place_tree).
  split; [done| |].
  - intros names j y Pj Hj. apply (place_tree s1) in Pj; [|done]. destruct (decide (j = i)) as [->|Hne].
    + rewrite set_inode_eq in Hj. injection Hj as <-. pose proof (Hexp names i y1 Pj Hy) as He. unfold expected in He. by rewrite Ht2.
    + rewrite set_inode_ne in Hj by done. by apply (Hexp names j).
  - intros ma [->|Hin]%elem_of_cons; [exists i, y2; split_and!; [by apply Hto|apply set_inode_eq|done]|]. destruct (Hrec ma Hin) as (j & y & Pj & Hj & Hrj & Hji).
    destruct (decide (j = i)) as [->|Hne]; [|exists j, y; split_and!; [by apply Hto|by rewrite set_inode_ne|done]]. exists i, y2. split_and!; [by apply Hto|apply set_inode_eq|].
    rewrite Hy in Hj. injection Hj as <-. destruct (directory m); [|by destruct (Hji eq_refl)]. destruct (Hdir eq_refl) as [E1 E2]. unfold recorded in Hrj. by rewrite Ht2, E1, E2.
Qed.

Lemma add_member_at m a done s : tree_holds s done -> tidy m -> Forall (fun ma => apart ma.1 m) done ->
  exists s', add_member heap fs m a s = (Ok tt, s') /\ same_rest s s' /\ same_fss (filesystems s) (filesystems s') /\ tree_holds s' ((m, a) :: done).
Proof.
  intros Hh Htidy Hap. pose proof Htidy as (_ & Hne & _). unfold add_member. rewrite bool_decide_eq_false_2 by (intros E; apply Hne; unfold member_names; by rewrite E).
  destruct (directory m) eqn:Edir.
  - destruct (member_made m a done (if member_mode m =? 0 then 0x1ED else member_mode m) s Hh Htidy Hap) as (i & s1 & y1 & E & Hrest & Hfss & Hd & P & Hy & Ht & Hexp & Hrec).
    assert (Et : type_of m = Directory) by (unfold type_of; by rewrite Edir). rewrite Et in E. rewrite (mtry_ok _ _ _ _ _ E), (modify_ok i y1) by done.
    eexists. split; [done|]. split; [done|]. split; [done|]. apply (holds_member m a done s1 i y1); try done. unfold recorded. cbn. rewrite Edir. congruence.
  - destruct (member_made m a done (if member_mode m =? 0 then 0x1A4 else member_mode m) s Hh Htidy Hap) as (i & s1 & y1 & E & Hrest & Hfss & Hd & P & Hy & Ht & Hexp & Hrec).
    assert (Et : type_of m = Regular) by (unfold type_of; by rewrite Edir). rewrite Et in E. rewrite (mtry_ok _ _ _ _ _ E).
    rewrite (try_modify i y1) by done. rewrite (try_modify i (with_data a y1)) by apply set_inode_eq. rewrite (modify_ok i (with_size (zlen (content m)) (with_data a y1))) by apply set_inode_eq.
    rewrite !set_inode_twice. eexists. split; [done|]. split; [done|]. split; [done|]. apply (holds_member m a done s1 i y1); try done; [|congruence]. unfold recorded. cbn. rewrite Edir. split_and!; [congruence|done|done].
Qed.

(** The members fit together. *)
Fixpoint members_fit (l : list (Member * Z)) : Prop :=
  match l with [] => True | (m, _) :: rest => tidy m /\ Forall (fun ma => apart m ma.1) rest /\ members_fit rest end.

Lemma add_members_at l : forall done s, tree_holds s done -> members_fit l -> Forall (fun ma => Forall (fun mb => apart mb.1 ma.1) done) l ->
  exists s', add_members heap fs l s = (Ok tt, s') /\ same_rest s s' /\ same_fss (filesystems s) (filesystems s') /\ tree_holds s' (rev_append l done).
Proof.
  induction l as [|[m a] l IH]; intros done s Hh Hfit Hap; cbn [add_members rev_append]; [by exists s|]. destruct Hfit as (Htidy & Hm & Hfit). apply Forall_cons in Hap as [Ha Hap].
  destruct (add_member_at m a done s Hh Htidy Ha) as (s1 & E1 & R1 & F1 & H1). rewrite (mtry_ok _ _ _ _ _ E1). destruct (IH ((m, a) :: done) s1 H1 Hfit) as (s2 & E2 & R2 & F2 & H2).
  - rewrite Forall_forall in Hm, Hap |- *. intros ma Hin. constructor; [by apply Hm|by apply Hap].
  - exists s2. split_and!; [done| |intros k; by rewrite (F2 k), (F1 k)|done]. destruct R1 as (? & ? & ? & ? & ?), R2 as (? & ? & ? & ? & ?). unfold same_rest. split_and!; congruence.
Qed.
End Ramdisk.

(** ** Mounting *)

(** What mounting leaves of every inode. *)
Definition profile x := (m_parent x, m_name x, m_type x, m_data x, m_size x, class x, m_filesystem x).
Definition keeps_inodes s s' : Prop := mem s' = mem s /\ forall i y, inodes s !! i = Some y -> exists y', inodes s' !! i = Some y' /\ profile y' = profile y.

Lemma keeps_inodes_refl s : keeps_inodes s s.
Proof. split; [done|]. intros i y Hy. by exists y. Qed.

Lemma keeps_inodes_trans s s1 s2 : keeps_inodes s s1 -> keeps_inodes s1 s2 -> keeps_inodes s s2.
Proof.
  intros [M1 K1] [M2 K2]. split; [congruence|]. intros i y Hy. destruct (K1 i y Hy) as (y1 & Hy1 & E1). destruct (K2 i y1 Hy1) as (y2 & Hy2 & E2). exists y2. split; [done|congruence].
Qed.

Lemma keeps_place s s' r i names : keeps_inodes s s' -> place s r i names -> place s' r i names.
Proof.
  intros [_ K]. induction 1 as [|p names c y P IH Hy Hp]; [constructor|]. destruct (K c y Hy) as (y' & Hy' & E). injection E as E1 E2 _. rewrite <- E2. apply (place_child s' r p); [done|done|congruence].
Qed.

Section Mounting.
Variable heap : @Vfs F -> KernelHeap.
Hypothesis (Hheap : forall s, heap_ok (heap s) s).
Hypothesis (Hroom : forall s, is_Some (inode_memory (heap s)) /\ children_room (heap s) = true).

Definition root_dir (cl : InodeClass) fs mode : Inode := with_name [SLASH] (with_number 1 (inode_new cl fs Directory mode)).

Lemma new_root_run cl fs mode s : exists root, inode_memory (heap s) = Some root /\ root <> 0 /\ inodes s !! root = None
  /\ new_root heap cl (Some fs) mode s = (Ok fs, with_fss (<[fs := mkFileSystem cl root 2]> (filesystems s)) (set_inode root (root_dir cl fs mode) s)).
Proof. destruct (Hroom s) as [[root Hm] _]. destruct (Hheap s root Hm) as [H0 Hn]. exists root. split_and!; try done. unfold new_root. by rewrite mtry_get, Hm. Qed.

Lemma new_root_base cl fs mode s root R : base_inv s R -> filesystems s !! fs = None -> root <> 0 -> inodes s !! root = None ->
  base_inv (with_fss (<[fs := mkFileSystem cl root 2]> (filesystems s)) (set_inode root (root_dir cl fs mode) s)) R.
Proof.
  intros H Hfs Hr0 Hr. set (s' := with_fss _ _). assert (Etr : tree s' = <[root := mkNode 0 [] [SLASH] true false 1 fs cl]> (tree s)) by (unfold s'; by apply (tree_set root (root_dir cl fs mode) s)).
  assert (Hrn : tree s !! root = None) by (unfold tree; by rewrite lookup_fmap, Hr). split.
  - apply (files_ok_new s root); [apply H|done|done|done].
  - rewrite Etr. by apply tree_root; [apply H|..].
  - rewrite Etr. split.
    + intros i n Hn. apply lookup_insert_Some in Hn as [[<- <-]|[_ Hn]]; [eexists; cbn; by rewrite lookup_insert_eq|]. destruct (b_fs _ _ (g_base _ _ H) i n Hn) as (f & Hf & Hc). exists f.
      cbn. rewrite lookup_insert_ne; [done|]. congruence.
    + intros k f Hf. cbn in Hf. apply lookup_insert_Some in Hf as [[<- <-]|[_ Hf]]; [eexists; cbn; by rewrite lookup_insert_eq|].
      destruct (b_root _ _ (g_base _ _ H) k f Hf) as (n & Hn & ?). exists n. rewrite lookup_insert_ne; [done|]. congruence.
Qed.

Lemma new_root_vfs cl fs mode s root held : vfs_inv s held -> filesystems s !! fs = None -> root <> 0 -> inodes s !! root = None ->
  vfs_inv (with_fss (<[fs := mkFileSystem cl root 2]> (filesystems s)) (set_inode root (root_dir cl fs mode) s)) held.
Proof.
  intros H Hfs Hr0 Hr. pose proof (new_root_base cl fs mode s root _ (vfs_base s held H) Hfs Hr0 Hr) as H'. set (s' := with_fss _ _) in *.
  assert (Hin : forall k, is_Some (filesystems s !! k) -> is_Some (filesystems s' !! k)).
  { intros k [f Hf]. unfold s'. cbn. exists f. rewrite lookup_insert_ne; [done|congruence]. }
  assert (Etr : tree s' = <[root := mkNode 0 [] [SLASH] true false 1 fs cl]> (tree s)) by (unfold s'; by apply (tree_set root (root_dir cl fs mode) s)).
  split; [apply H'|apply H'|]. split; [apply H'| | | |apply (mo_mounts _ _ _ _ (v_fs _ _ H))].
  - destruct (mo_rootfs _ _ _ _ (v_fs _ _ H)) as [? Hf]. split; [done|by apply Hin].
  - intros e He. apply Hin. by apply (mo_entries _ _ _ _ (v_fs _ _ H)).
  - intros e He Hc. destruct (mo_covers _ _ _ _ (v_fs _ _ H) e He Hc) as (n & Hn & ?). exists n. split; [|done]. rewrite Etr, lookup_insert_ne; [done|].
    intros ->. apply tree_lookup_inv in Hn as (? & ? & _). congruence.
Qed.

Lemma new_root_keeps fss root x s : inodes s !! root = None -> keeps_inodes s (with_fss fss (set_inode root x s)).
Proof. intros Hr. split; [done|]. intros i y Hy. exists y. split; [|done]. cbn. rewrite lookup_insert_ne; [done|]. congruence. Qed.

(** The first mount. *)
Lemma mount_root_at fs s : base_inv s [] -> s_root_filesystem s = 0 -> s_mounts s = [] -> fs <> 0 -> is_Some (filesystems s !! fs) ->
  exists s', mount_root fs s = (Ok tt, s') /\ vfs_inv s' [] /\ inodes s' = inodes s /\ filesystems s' = filesystems s /\ mem s' = mem s /\ s_root_filesystem s' = fs /\ s_mounts s' = [mkMount 0 fs [SLASH]].
Proof.
  intros H Hr Hm Hfs Hf. unfold mount_root. rewrite mtry_get, Hr. cbn [Z.eqb negb]. eexists. split; [done|]. split_and!; try done; [|cbn; by rewrite Hm].
  split; [apply H| |]; unfold mount_refs, tree; cbn; rewrite Hm; cbn; [apply H|]. split; [apply H|done| | |].
  - intros e ->%list_elem_of_singleton. done.
  - intros e ->%list_elem_of_singleton. done.
  - split_and!; [apply NoDup_singleton|apply NoDup_singleton|by exists [SLASH], []].
Qed.

Lemma mount_at path fs s held i x : vfs_inv s held -> few s held -> resolve path 0 s = (Ok i, s) -> inodes s !! i = Some x -> is_directory x = true -> class x = UstarInode -> m_parent x <> 0 ->
  m_filesystem x = s_root_filesystem s -> zlen (s_mounts s) < MAX_MOUNTS -> (forall e, e ∈ s_mounts s -> covered e <> i /\ filesystem e <> fs) -> is_Some (filesystems s !! fs) ->
  exists s', mount path fs s = (Ok tt, s') /\ vfs_inv s' held /\ keeps_inodes s s' /\ filesystems s' = filesystems s /\ s_root_filesystem s' = s_root_filesystem s
    /\ s_mounts s' = s_mounts s ++ [mkMount i fs (strncpy path (FILENAME_MAX_LENGTH - 1))] /\ (forall j, inode_live s' j <-> inode_live s j).
Proof.
  intros H Hfew Er Hx Hd Hc Hp Hfs Hlen Hfree Hf. unfold mount. rewrite mtry_get. destruct (mo_rootfs _ _ _ _ (v_fs _ _ H)) as [Hr0 _]. destruct (Z.eqb_spec (s_root_filesystem s) 0); [done|].
  rewrite (mtry_ok _ _ _ _ _ Er), (try_deref i x) by done. rewrite Hd. cbn [negb]. destruct (Z.leb_spec MAX_MOUNTS (zlen (s_mounts s))); [lia|].
  assert (Hex : existsb (fun e => covered e =? i) (s_mounts s) = false).
  { apply not_true_is_false. intros (e & He & Ee)%existsb_exists. apply Z.eqb_eq in Ee. apply list_elem_of_In in He. by destruct (Hfree e He). }
  rewrite Hex. destruct (ref_at s held i x H Hx Hfew) as (Eref & H1 & _). rewrite (mtry_ok _ _ _ _ _ Eref). set (s1 := set_inode i _ s) in *. set (me := mkMount i fs _).
  assert (Hi0 : i <> 0) by (apply (inv_nonzero s held H); by exists x).
  assert (Hrefs : mount_refs (with_mounts (s_mounts s1 ++ [me]) s1) = mount_refs s1 ++ [i]).
  { unfold mount_refs. cbn. rewrite fmap_app, filter_app. cbn. unfold filter at 2. cbn. by rewrite decide_True by done. }
  eexists. split; [done|]. split_and!; try done.
  - split; [apply H1| |].
    + rewrite Hrefs. apply (tree_perm _ ((i :: held) ++ mount_refs s1)); [|apply H1]. rewrite app_assoc. cbn [app]. by rewrite Permutation_cons_append.
    + pose proof (v_fs _ _ H1) as Hv. split; [apply Hv|apply Hv| | |].
      * intros e [He| ->%list_elem_of_singleton]%elem_of_app; [by apply (mo_entries _ _ _ _ Hv)|done].
      * intros e [He| ->%list_elem_of_singleton]%elem_of_app Hce; [by apply (mo_covers _ _ _ _ Hv e)|]. eexists. split; [apply (tree_lookup s1 i); apply set_inode_eq|]. by split_and!.
      * destruct (mo_mounts _ _ _ _ Hv) as (N1 & N2 & path0 & rest & Em). change (s_mounts s1) with (s_mounts s) in *. unfold mounts_ok. cbn [s_mounts with_mounts]. change (s_mounts s1) with (s_mounts s). rewrite !fmap_app. split_and!.
        -- apply NoDup_app. split_and!; [done| |apply NoDup_singleton]. intros k Hk. cbn. rewrite list_elem_of_singleton. apply list_elem_of_fmap in Hk as (e & -> & He). by apply Hfree.
        -- apply NoDup_app. split_and!; [done| |apply NoDup_singleton]. intros k Hk. cbn. rewrite list_elem_of_singleton. apply list_elem_of_fmap in Hk as (e & -> & He). by apply Hfree.
        -- exists path0, (rest ++ [me]). cbn. by rewrite Em.
  - split; [done|]. intros j y Hy. destruct (decide (j = i)) as [->|Hj]; [eexists; split; [apply set_inode_eq|]; by simplify_eq|exists y]. split; [|done]. unfold s1. cbn. by rewrite lookup_insert_ne.
  - intros j. unfold inode_live, s1. cbn. destruct (decide (j = i)) as [->|]; [rewrite lookup_insert_eq, Hx; split; by eexists|by rewrite lookup_insert_ne].
Qed.
End Mounting.

(** ** Devices come and go *)

Section Devices.
Variable heap : @Vfs F -> KernelHeap.
Hypothesis (Hheap : forall s, heap_ok (heap s) s).

Lemma insert_added s s' d x x' c y name : d <> 0 -> inodes s !! d = Some x -> inodes s !! c = None -> m_parent x' = m_parent x -> m_name x' = m_name x -> m_parent y = d -> m_name y = name ->
  (forall k z, inodes s !! k = Some z -> m_parent z = d -> m_name z <> name) -> inodes s' = <[d := x']> (<[c := y]> (inodes s)) -> added s s' d name c.
Proof.
  intros Hd Hx Hc Ep En Py Ny Hfree E. split; [intros k (_ & z & Hz & P & N)%entry_inode; by apply (Hfree k z)|]. intros q nm k.
  rewrite !entry_inode, E. destruct (decide (k = c)) as [->|Hk].
  - rewrite lookup_insert_ne, lookup_insert_eq, Hc by congruence. split; [|intros [(-> & -> & _)|(_ & z & ? & _)]; [|done]].
    + intros (Hq & z & [= <-] & P & N). left. split_and!; congruence.
    + split; [done|]. by exists y.
  - destruct (decide (k = d)) as [->|Hkd].
    + rewrite lookup_insert_eq, Hx. split; [intros (Hq & z & [= <-] & P & N); right; split; [done|]; exists x; split_and!; congruence|].
      intros [(_ & _ & ?)|(Hq & z & [= <-] & P & N)]; [done|]. split; [done|]. exists x'. split_and!; congruence.
    + rewrite !lookup_insert_ne by done. split; [by right|]. intros [(_ & _ & ?)|?]; done.
Qed.

(** The directory a devfs file system has. *)
Lemma dev_root s held fs f : vfs_inv s held -> filesystems s !! fs = Some f -> fs_class f = DevfsInode ->
  exists x, root_of s fs = m_root f /\ inodes s !! m_root f = Some x /\ class x = DevfsInode /\ m_filesystem x = fs /\ is_directory x = true /\ m_unlinked x = false /\ m_parent x = 0 /\ m_root f <> 0.
Proof.
  intros H Hf Hc. pose proof (mo_base _ _ _ _ (v_fs _ _ H)) as Hb. destruct (b_root _ _ Hb fs f Hf) as (n & Hn & Hp & Hu & Hd & Hs). destruct (b_fs _ _ Hb _ n Hn) as (f' & Hf' & Hc').
  apply tree_lookup_inv in Hn as (x & Hx & ->). exists x. cbn in *. unfold root_of. rewrite Hf. rewrite Hs, Hf in Hf'. injection Hf' as <-.
  split_and!; try done; [congruence|]. apply (inv_nonzero s held H). by exists x.
Qed.

Lemma register_at s held fs f name blk ops base len : vfs_inv s held -> filesystems s !! fs = Some f -> fs_class f = DevfsInode ->
  match register_memory_device heap fs name blk ops base len s with
  | (Ok _, s') => vfs_inv s' held /\ keeps_inodes s s' /\ same_fss (filesystems s) (filesystems s') /\ same_rest s s'
      /\ exists c y, added s s' (m_root f) name c /\ inodes s' !! c = Some y /\ m_ops y = ops /\ m_memory_base y = base /\ m_memory_length y = len
  | (Err e, s') => vfs_inv s' held /\ inodes s' = inodes s /\ (ops = 0 \/ FILENAME_MAX_LENGTH <= zlen name \/ (exists c, dir_entry (tree s) (m_root f) name c)
      \/ inode_memory (heap s) = None \/ children_room (heap s) = false)
  | (Panic, _) => False
  end.
Proof.
  intros H Hf Hc. destruct (dev_root s held fs f H Hf Hc) as (x & Er & Hx & Hcx & Hfx & Hdx & Hux & _ & Hr0). unfold register_memory_device.
  destruct (Z.eqb_spec ops 0); [split_and!; [done|done|by left]|]. destruct (Z.leb_spec FILENAME_MAX_LENGTH (zlen name)) as [|Hl]; [split_and!; [done|done|by right; left]|].
  rewrite mtry_get, Er, (try_deref _ x) by done. destruct (find_child_at s held H (m_root f) x name Hx) as (c & Ec & Hcc). rewrite (mtry_ok _ _ _ _ _ Ec).
  destruct (Z.eqb_spec c 0) as [->|Hc0]; cbn [negb].
  2: { split_and!; [done|done|]. right; right; left. exists c. destruct Hcc as [[? _]|(y & Hy & Hp & Hn)]; [done|]. apply entry_inode. split; [done|by exists y]. }
  pose proof (proj1 (names_child_zero s held H (m_root f) name 0 Hr0 Hcc) eq_refl) as Hfree.
  pose proof (link_at heap Hheap DevfsInode fs (m_root f) x name (if blk then BlockDevice else CharacterDevice) 0x1B6 (with_device ops base len) (held ++ mount_refs s) s
    (vfs_base s held H) Hx Hcx ltac:(done) Hfx Hdx Hux Hl Hfree ltac:(done) ltac:(done)) as Hk.
  unfold mtry at 1. destruct (link_new _ _ _ _ _ _ _ _ s) as [[c|e|] s1]; [| |done].
  - destruct Hk as (H1 & He & Hfs & Hrest & Hcn & Hc0 & number & E). split_and!; [by apply (base_vfs s)| |done|done|].
    + split; [apply Hrest|]. intros i y Hy. rewrite E. destruct (decide (i = m_root f)) as [->|Hi]; [rewrite lookup_insert_eq; eexists; split; [done|]; by simplify_eq|].
      rewrite !lookup_insert_ne by congruence. by exists y.
    + exists c. eexists. split_and!; [by eapply (insert_added s s1 (m_root f) x); [..|exact E]|rewrite E, lookup_insert_ne, lookup_insert_eq by congruence; done|done|done|done].
  - destruct Hk as (H1 & Ei & Hfs & Hrest & Hno). split_and!; [|done|tauto]. apply (base_vfs s); try done. unfold tree. rewrite Ei. apply evolves_refl.
Qed.

Lemma detach_erased s held d x c y : vfs_inv s held -> inodes s !! d = Some x -> inodes s !! c = Some y -> m_parent y = d -> c <> d ->
  erased s (set_inode c (mark_unlinked y) (set_inode d (with_children (remove_child (m_children x) c) x) s)) d (m_name y) c.
Proof.
  intros H Hx Hy Hp Hcd. assert (Hd0 : d <> 0) by (apply (inv_nonzero s held H); by exists x). set (s1 := set_inode c _ _).
  assert (Hc : dir_entry (tree s) d (m_name y) c) by (apply entry_inode; split; [done|by exists y]). split; [done|]. intros q n k.
  assert (Etr : tree s1 = alter n_unlink c (alter (n_remove c) d (tree s))).
  { unfold s1. rewrite !tree_set, (alter_some (tree s) d (node_of x)) by (by apply tree_lookup). rewrite (alter_some _ c (node_of y)); [done|]. rewrite lookup_insert_ne by done. by apply tree_lookup. }
  pose proof (detach_relinked (tree s) (held ++ mount_refs s) c d (node_of y) (v_tree _ _ H) (tree_lookup s c y Hy) Hp Hd0) as Hrl. rewrite <- Etr in Hrl.
  rewrite (entry_relinked _ _ c d 0 _ q n k Hrl (ex_intro _ _ (tree_lookup s c y Hy))). split.
  - intros [(_ & _ & _ & ?)|[Hk He]]; [done|]. split; [|done]. intros [-> ->]. by apply Hk, (entry_unique s held d (m_name y)).
  - intros [Hn He]. right. split; [|done]. intros ->. apply Hn. apply entry_inode in He as (_ & z & Hz & P & N). rewrite Hy in Hz. injection Hz as <-. split; congruence.
Qed.

(** A driver that goes takes its name with it; the inode stays while it is open,
    without the driver's table. *)
Lemma unregister_at s held fs f name : vfs_inv s held -> few s held -> filesystems s !! fs = Some f -> fs_class f = DevfsInode ->
  (forall c y, inodes s !! c = Some y -> m_parent y = m_root f -> is_directory y = false) ->
  exists s', unregister_device fs name s = (Ok tt, s') /\ vfs_inv s' held
    /\ ((forall c, ~ dir_entry (tree s) (m_root f) name c) /\ s' = s \/ exists c, erased s s' (m_root f) name c /\ forall y, inodes s' !! c = Some y -> m_ops y = 0 /\ m_unlinked y = true).
Proof.
  intros H Hfew Hf Hc Hflat. destruct (dev_root s held fs f H Hf Hc) as (x & Er & Hx & Hcx & Hfx & Hdx & Hux & _ & Hr0). unfold unregister_device. rewrite mtry_get, Er, (try_deref _ x) by done.
  destruct (find_index_at s held H (m_root f) x name Hx) as (res & E & Hr). rewrite (mtry_ok _ _ _ _ _ E). destruct res as [[index c]|].
  2: { exists s. split_and!; [done|done|]. left. split; [|done]. intros c (_ & y & Hy & P & N)%entry_inode. by apply (Hr c y). }
  destruct Hr as (Hi & y & Hy & Hp & <-). pose proof (leaf_children s held c y H Hy ltac:(by rewrite (Hflat c y Hy Hp))) as Hk. rewrite (try_modify _ x) by done.
  rewrite <- (remove_child_delete (m_children x) c index) by (done || apply (t_nodup _ _ (v_tree _ _ H) _ _ (tree_lookup s _ x Hx))).
  assert (Hcy : class y <> UstarInode) by (destruct (inv_parent s held H c y Hy ltac:(congruence)) as (px & Hpx & _ & _ & _ & Ecl & _); rewrite Hp in Hpx; congruence).
  destruct (detach_child_inv s held (m_root f) x c y H Hfew Hx Hy Hp Hk Hcy) as (Hcd & H2 & _ & Hy2). pose proof (detach_erased s held (m_root f) x c y H Hx Hy Hp Hcd) as Her.
  rewrite (try_modify c y) by (by rewrite set_inode_ne). set (s2 := set_inode c (mark_unlinked y) _) in *. rewrite try_alter by (by eexists).
  set (g := fun y => with_device _ _ _ y). destruct (alter_inv s2 (c :: held) c g H2) as (H3 & _ & T3); [done..|]. set (s3 := set_inodes (alter g c) s2) in *.
  assert (Hy3 : inodes s3 !! c = Some (g (mark_unlinked y))) by (change (alter g c (inodes s2) !! c = Some (g (mark_unlinked y))); rewrite lookup_alter_at, Hy2; by rewrite decide_True).
  destruct (unref_at s3 held c _ H3 Hy3) as (s' & E' & H' & _ & D'). exists s'. split_and!; [done|done|]. right. exists c. split.
  - destruct Her as [He1 He2]. split; [done|]. intros q n k. rewrite (entry_dropped s3 s' _ c _ q n k H3 Hy3 D'), T3. apply He2.
  - intros z Hz. destruct (dr_self _ _ _ _ D') as [[E2 _]|[E2 _]]; rewrite E2 in Hz; [|done]. by injection Hz as <-.
Qed.
End Devices.

(** ** Booting *)

Lemma place_route s held i names : vfs_inv s held -> place s (root_inode s) i names ->
  (forall c nms e, place s (root_inode s) c nms -> nms <> [] -> nms `prefix_of` names -> e ∈ s_mounts s -> covered e <> c) -> route s i names.
Proof.
  intros H. induction 1 as [|p names c y P IH Hy Hp]; intros Hun; [constructor|].
  assert (Ec : follow_mount c s = c).
  { unfold follow_mount. destruct (follow_scan_cases s (s_mounts s) c) as [[_ E]|(e & He & Ec & _)]; [done|]. exfalso. apply (Hun c (names ++ [m_name y]) e); [by apply (place_child s _ p)|by destruct names|done|done|done]. }
  rewrite <- Ec at 1. apply (route_child s p); [|done|done]. apply IH. intros c' nms e Pc Hne Hpre. apply (Hun c' nms e Pc Hne). by apply prefix_app_r.
Qed.

Lemma load_slice (m : Z -> Z) base L k n : 0 <= k -> 0 <= n -> k + n <= L -> mem_load m (base + k) n = slice (mem_load m base L) k n.
Proof.
  intros Hk Hn HL. unfold mem_load, slice. apply list_eq. intros j. rewrite lookup_take. case_decide as Hj.
  - rewrite lookup_drop, !list_lookup_fmap, !lookup_seqZ_lt by lia. cbn. f_equal. f_equal. lia.
  - apply lookup_ge_None. rewrite length_fmap, length_seqZ. lia.
Qed.

Lemma slice_slice (l : list Z) a n k j : 0 <= a -> 0 <= k -> 0 <= j -> k + j <= n -> slice (slice l a n) k j = slice l (a + k) j.
Proof.
  intros Ha Hk Hj Hn. unfold slice. apply list_eq. intros i. rewrite !lookup_take. case_decide; [|done]. rewrite !lookup_drop, lookup_take, decide_True by lia.
  rewrite lookup_drop. f_equal. lia.
Qed.

(** A file's inode reads back the file. *)
Lemma ramdisk_read s i x base L a data : inodes s !! i = Some x -> m_type x = Regular -> m_data x = a -> m_size x = zlen data -> base <= a -> a - base + zlen data <= L ->
  slice (mem_load (mem s) base L) (a - base) (zlen data) = data ->
  forall offset length, 0 <= offset -> 0 <= length -> UstarInode_read i offset length s = (Ok (take (Z.to_nat length) (drop (Z.to_nat offset) data)), s).
Proof.
  intros Hx Ht Hd Hs Ha HL Hsl offset length Ho Hl. unfold UstarInode_read. rewrite (try_deref i x), Ht by done. cbn [negb]. rewrite bool_decide_eq_true_2 by done. cbn [negb]. rewrite Hs, Hd.
  destruct (Z.leb_spec (zlen data) offset) as [Hle|Hlt]; [rewrite drop_ge, take_nil by (unfold zlen in *; lia); done|]. rewrite mtry_get. unfold mok. f_equal. f_equal.
  replace (a + offset) with (base + (a - base + offset)) by lia. rewrite (load_slice (mem s) base L) by lia. rewrite <- (slice_slice _ _ (zlen data)) by lia. rewrite Hsl. unfold slice, zlen in *.
  destruct (decide (length <= Z.of_nat (List.length data) - offset)); [by rewrite Z.min_l by lia|]. rewrite Z.min_r by lia. rewrite !take_ge; [done|rewrite length_drop; lia|rewrite length_drop; lia].
Qed.

Lemma placed_in m other members : forall base, (m, other) ∈ members -> exists a, (m, a) ∈ placed base members.
Proof.
  induction members as [|[m1 o1] members IH]; intros base Hin; [by apply not_elem_of_nil in Hin|]. cbn [placed]. apply elem_of_cons in Hin as [[= <- <-]|Hin]; [eexists; by left|].
  destruct (IH (base + BLOCK_SIZE + blocks (zlen (content m1)) * BLOCK_SIZE) Hin) as [a Ha]. exists a. by right.
Qed.

(** Where [placed] puts a member is inside the archive. *)
Lemma placed_range rest members : forall base, Forall (fun ma => base <= snd ma /\ snd ma - base + zlen (content (fst ma)) <= zlen (archive members rest)) (placed base members).
Proof.
  induction members as [|[m o] members IH]; intros base; cbn [placed archive]; constructor; rewrite !zlen_app, header_length, padded_length; pose proof (zlen_nonneg (archive members rest));
    destruct (blocks_spec (zlen (content m)) (zlen_nonneg _)).
  - cbn [fst snd]. unfold BLOCK_SIZE in *. lia.
  - eapply Forall_impl; [apply IH|]. intros [m' a] [Hb1 Hb2]. cbn [fst snd] in *. unfold BLOCK_SIZE in *. lia.
Qed.

Section Boot.
Variable heap : @Vfs F -> KernelHeap.
Hypothesis (Hheap : forall s, heap_ok (heap s) s).
Hypothesis (Hroom : forall s, is_Some (inode_memory (heap s)) /\ children_room (heap s) = true).

Definition TMP_NAME : list Z := [116; 109; 112].
Definition DEV_NAME : list Z := [100; 101; 118].

Lemma empty_base s : inodes s = ∅ -> filesystems s = ∅ -> fa_ok (frames s) -> base_inv s [].
Proof.
  intros Hi Hf Hfr. assert (Ht : tree s = ∅) by (unfold tree; by rewrite Hi, fmap_empty). assert (Hs : files s = ∅) by (unfold files; by rewrite Hi, fmap_empty). split.
  - unfold files_ok. rewrite Hs. split; [split|]; try done; intros ? ? *; rewrite lookup_empty; done.
  - rewrite Ht. split; try done; try (intros ? ? ? *; rewrite lookup_empty; done); try (intros ? ? *; rewrite lookup_empty; done).
    + intros i [n Hn]. by rewrite lookup_empty in Hn.
    + intros i Hi2. by apply not_elem_of_nil in Hi2.
  - rewrite Ht, Hf. split; intros ? ? *; rewrite lookup_empty; done.
Qed.

(** A new ramdisk is an empty directory. *)
Lemma ramdisk_start s fs : inodes s = ∅ -> filesystems s = ∅ -> fa_ok (frames s) -> exists r s', new_root heap UstarInode (Some fs) 0x1ED s = (Ok fs, s') /\ tree_holds [] fs r s' [] /\ same_rest s s' /\ (forall k, k <> fs -> filesystems s' !! k = None).
Proof.
  intros Hi Hf Hfr. destruct (new_root_run heap Hheap Hroom UstarInode fs 0x1ED s) as (r & _ & Hr0 & Hr & E). exists r. eexists. split; [done|]. split; [|split; [done|intros k Hk; cbn; rewrite lookup_insert_ne by done; by rewrite Hf]].
  pose proof (empty_base s Hi Hf Hfr) as H. pose proof (new_root_base UstarInode fs 0x1ED s r [] H ltac:(by rewrite Hf) Hr0 Hr) as H'. set (s' := with_fss _ _) in *.
  assert (Hd : ramdisk [] fs r s') by (split; [done|]; eexists; unfold s'; cbn; by rewrite lookup_insert_eq). split; [done| |].
  - intros names j y P Hj. assert (Hall : forall k z, inodes s' !! k = Some z -> k = r /\ z = root_dir UstarInode fs 0x1ED).
    { intros k z Hz. unfold s' in Hz. cbn in Hz. apply lookup_insert_Some in Hz as [[<- <-]|[_ Hz]]; [done|]. by rewrite Hi, lookup_empty in Hz. }
    destruct (Hall j y Hj) as [-> ->]. left. split; [done|]. left. destruct (ramdisk_root [] fs r s' Hd) as (rx & Hrx & Hp & Hu & _).
    apply (place_names s' [] r rx H' Hrx Hp Hu r); [done|constructor].
  - intros ma Hma. by apply not_elem_of_nil in Hma.
Qed.

Lemma create_ramdisk fs address members rest s : inodes s = ∅ -> filesystems s = ∅ -> fa_ok (frames s) ->
  Forall (fun m => member_ok (fst m)) members -> members_fit (placed address members) -> zlen (archive members rest) < 2 ^ 63 -> mem_load (mem s) address (zlen (archive members rest)) = archive members rest ->
  exists r s', UstarFileSystem_create heap (Some fs) address (zlen (archive members rest)) s = (Ok fs, s') /\ tree_holds [] fs r s' (rev_append (placed address members) []) /\ same_rest s s' /\ (forall k, k <> fs -> filesystems s' !! k = None).
Proof.
  intros Hi Hf Hfr Hok Hfit Hlen Hmem. destruct (ramdisk_start s fs Hi Hf Hfr) as (r & s1 & E1 & H1 & R1 & N1). exists r. unfold UstarFileSystem_create. rewrite (mtry_ok _ _ _ _ _ E1), mtry_get.
  destruct R1 as (Ra & Rb & Rc & Rd & Re). rewrite Rb, Hmem. unfold mtry at 1. rewrite parse_archive by done.
  destruct (add_members_at heap Hheap Hroom [] fs r (placed address members) [] s1 H1 Hfit) as (s2 & E2 & R2 & F2 & H2).
  { rewrite Forall_forall. intros ma _. constructor. }
  rewrite E2. exists s2. split_and!; [done|done| |].
  - destruct R2 as (? & ? & ? & ? & ?). unfold same_rest. split_and!; congruence.
  - intros k Hk. specialize (F2 k). rewrite (N1 k Hk) in F2. by destruct (filesystems s2 !! k).
Qed.

(** An inode of the ramdisk keeps its place while file systems are mounted over
    directories of it. *)
Lemma ramdisk_place fs r s s' l ma : tree_holds [] fs r s l -> keeps_inodes s s' -> ma ∈ l ->
  exists i y, place s' r i (member_names ma.1) /\ inodes s' !! i = Some y /\ recorded ma y /\ class y = UstarInode /\ m_filesystem y = fs /\ (member_names ma.1 <> [] -> m_parent y <> 0).
Proof.
  intros Hh Hk Hin. destruct (h_found _ _ _ _ _ Hh ma Hin) as (i & y0 & P & Hy0 & Hrec). pose proof (h_disk _ _ _ _ _ Hh) as Hd. destruct (ramdisk_root [] fs r s Hd) as (rx & Hr & Hp & Hu & _ & Hf & Hc).
  destruct (place_facts s [] r rx (proj1 Hd) Hr Hu i _ P) as (y1 & Hy1 & E1 & E2 & _). rewrite Hy0 in Hy1. injection Hy1 as <-. destruct (proj2 Hk i y0 Hy0) as (y & Hy & E). injection E as Q1 Q2 Q3 Q4 Q5 Q6 Q7.
  exists i, y. split_and!; [by apply (keeps_place s)|done|unfold recorded in *; by rewrite Q3, Q4, Q5|congruence|congruence|].
  intros Hne. rewrite Q1. destruct (place_inv s [] r rx (proj1 Hd) Hr Hp Hu i _ P) as [[_ ?]|(_ & p & nms & y1 & _ & Pp & Hy1 & <-)]; [done|]. rewrite Hy0 in Hy1. injection Hy1 as <-.
  by apply (place_nonzero s [] r rx (proj1 Hd) Hr Hu _ nms).
Qed.

(** A state of the mounting: the ramdisk as in [s1], with [mounts] over it. *)
Record stage (fs r : Z) s1 s (mounts : list (Z * Z)) : Prop := {
  st_inv : vfs_inv s [];
  st_keeps : keeps_inodes s1 s;
  st_root : s_root_filesystem s = fs;
  st_fs : exists f, filesystems s !! fs = Some f /\ m_root f = r;
  st_mounts : (fun e => (covered e, filesystem e)) <$> s_mounts s = (0, fs) :: mounts;
}.

Lemma stage_root fs r s1 s mounts : stage fs r s1 s mounts -> root_inode s = r.
Proof.
  intros S. destruct (st_fs _ _ _ _ _ S) as (f & Hf & Hr). destruct (mo_rootfs _ _ _ _ (v_fs _ _ (st_inv _ _ _ _ _ S))) as [H0 _]. unfold root_inode, root_of.
  rewrite (st_root _ _ _ _ _ S) in *. destruct (Z.eqb_spec fs 0); [done|]. by rewrite Hf.
Qed.

Lemma stage_entry fs r s1 s mounts e : stage fs r s1 s mounts -> e ∈ s_mounts s -> (covered e, filesystem e) ∈ (0, fs) :: mounts.
Proof. intros S He. rewrite <- (st_mounts _ _ _ _ _ S). by apply (list_elem_of_fmap_2 (fun e => (covered e, filesystem e))). Qed.

Lemma stage_start fs r s1 l : tree_holds [] fs r s1 l -> fs <> 0 -> s_root_filesystem s1 = 0 -> s_mounts s1 = [] -> exists s, mount_root fs s1 = (Ok tt, s) /\ stage fs r s1 s [] /\ filesystems s = filesystems s1.
Proof.
  intros Hh H0 Hr Hm. destruct (h_disk _ _ _ _ _ Hh) as (H & f & Hf & _ & Hfr). destruct (mount_root_at fs s1 H Hr Hm H0 ltac:(by exists f)) as (s & E & Hv & Ei & Ef & Em & Er & Ems). exists s. split_and!; [done| |done].
  split; [done|split; [done|]; intros i y Hy; exists y; by rewrite Ei|done|exists f; by rewrite Ef|by rewrite Ems].
Qed.

Lemma stage_new fs r s1 s mounts cl fs2 mode : stage fs r s1 s mounts -> filesystems s !! fs2 = None -> exists s', new_root heap cl (Some fs2) mode s = (Ok fs2, s') /\ stage fs r s1 s' mounts
  /\ (exists f, filesystems s' !! fs2 = Some f /\ fs_class f = cl /\ forall nm c, ~ dir_entry (tree s') (m_root f) nm c) /\ (forall k, k <> fs2 -> filesystems s' !! k = filesystems s !! k) /\ keeps_inodes s s'.
Proof.
  intros S Hn. destruct (new_root_run heap Hheap Hroom cl fs2 mode s) as (root & _ & Hr0 & Hr & E). eexists. split; [exact E|]. split_and!.
  - destruct (st_fs _ _ _ _ _ S) as (f & Hf & Hfr). split; [by apply new_root_vfs; [apply S|..]|by apply (keeps_inodes_trans s1 s); [apply S|apply new_root_keeps]|apply S| |apply S].
    exists f. split; [|done]. cbn. rewrite lookup_insert_ne; [done|congruence].
  - eexists. split; [apply lookup_insert_eq|]. split; [done|]. intros nm c (Hp0 & y & Hy & Hp & _)%entry_inode. cbn in Hy, Hp0, Hp.
    apply lookup_insert_Some in Hy as [[_ <-]|[_ Hy]]; [cbn in Hp; congruence|]. destruct (inv_parent s [] (st_inv _ _ _ _ _ S) c y Hy ltac:(congruence)) as (px & Hpx & _). congruence.
  - intros k Hk. cbn. by rewrite lookup_insert_ne.
  - by apply new_root_keeps.
Qed.

(** The inode at a path of the ramdisk whose first name is not mounted over. *)
Lemma stage_resolve fs r s1 l s mounts i names base : tree_holds [] fs r s1 l -> stage fs r s1 s mounts -> Forall ordinary names -> place s r i names ->
  (forall c nm, (c, nm) ∈ mounts -> forall nms, place s r c nms -> nms <> [] -> ~ nms `prefix_of` names) -> resolve (path_of names) base s = (Ok i, s).
Proof.
  intros Hh S Hord P Hun. pose proof (stage_root _ _ _ _ _ S) as Er. apply (resolve_route s [] (st_inv _ _ _ _ _ S)); [|done]. apply (place_route s []); [apply S|by rewrite Er|]. rewrite Er.
  intros c nms e Pc Hne Hpre He Ec. apply (stage_entry _ _ _ _ _ _ S) in He. rewrite Ec in He. apply elem_of_cons in He as [[= -> _]|He]; [|by apply (Hun c _ He nms)].
  destruct (h_disk _ _ _ _ _ Hh) as [Hb _]. destruct (ramdisk_root [] fs r s1 (h_disk _ _ _ _ _ Hh)) as (rx & Hr & Hp & Hu & _). destruct (proj2 (st_keeps _ _ _ _ _ S) r rx Hr) as (rx' & Hr' & E).
  injection E as E1 _. pose proof (root_inode_linked s [] (st_inv _ _ _ _ _ S)) as (rr & Hrr & Hru). rewrite Er, Hr' in Hrr. injection Hrr as <-.
  by destruct (place_nonzero s _ r rx' (vfs_base s [] (st_inv _ _ _ _ _ S)) Hr' Hru 0 nms Pc).
Qed.

Lemma stage_mount fs r s1 l s mounts m a nm fs2 : tree_holds [] fs r s1 l -> stage fs r s1 s mounts -> (m, a) ∈ l -> directory m = true -> member_names m = [nm] -> ordinary nm ->
  (length mounts < 7)%nat -> (forall c k, (c, k) ∈ mounts -> k <> fs2 /\ ~ place s r c [nm]) -> fs2 <> fs -> is_Some (filesystems s !! fs2) -> 
  exists i s', mount (SLASH :: nm) fs2 s = (Ok tt, s') /\ place s r i [nm] /\ stage fs r s1 s' (mounts ++ [(i, fs2)]) /\ keeps_inodes s s' /\ filesystems s' = filesystems s.
Proof.
  intros Hh S Hin Hdir Hnames Hord Hlen Hfree Hne Hf2. destruct (ramdisk_place fs r s1 s l (m, a) Hh (st_keeps _ _ _ _ _ S) Hin) as (i & y & P & Hy & Hrec & Hc & Hfs & Hp). cbn [fst] in *. rewrite Hnames in *.
  unfold recorded in Hrec. cbn in Hrec. rewrite Hdir in Hrec. pose proof (st_inv _ _ _ _ _ S) as Hv. specialize (Hp ltac:(done)).
  assert (Er : resolve (SLASH :: nm) 0 s = (Ok i, s)).
  { replace (SLASH :: nm) with (path_of [nm]) by (cbn; by rewrite app_nil_r). apply (stage_resolve fs r s1 l s mounts); try done; [by constructor|]. intros c k Hck nms Pc Hnn Hpre.
    destruct (Hfree c k Hck) as [_ Hn]. apply Hn. destruct Hpre as [t Et]. destruct nms as [|n1 nms]; [done|]. injection Et as -> Et. destruct nms; [done|by destruct nms]. }
  assert (Hlm : length (s_mounts s) = (1 + length mounts)%nat) by (rewrite <- (length_fmap (fun e => (covered e, filesystem e))), (st_mounts _ _ _ _ _ S); done).
  destruct (mount_at (SLASH :: nm) fs2 s [] i y Hv) as (s' & E & Hv' & Hk & Ef & Er' & Em & _); try done.
  - unfold few, zlen, LIMIT. cbn [length]. lia.
  - unfold is_directory. by rewrite Hrec.
  - rewrite Hfs. symmetry. apply S.
  - unfold zlen, MAX_MOUNTS. lia.
  - intros e He. apply (stage_entry _ _ _ _ _ _ S) in He. apply elem_of_cons in He as [[= -> ->]|He].
    + split; [|done]. intros <-. assert (inode_live s 0) as [z Hz] by (by exists y). by rewrite (inv_null s [] Hv) in Hz.
    + destruct (Hfree _ _ He) as [? Hn]. split; [|done]. intros Ec. apply Hn. by rewrite Ec.
  - exists i, s'. split_and!; try done. split; [done|by apply (keeps_inodes_trans s1 s); [apply S|]|rewrite Er'; apply S|rewrite Ef; apply S|]. rewrite Em, fmap_app, (st_mounts _ _ _ _ _ S). done.
Qed.

Lemma stage_register fs r s1 s mounts fs3 f name ops : stage fs r s1 s mounts -> filesystems s !! fs3 = Some f -> fs_class f = DevfsInode -> ops <> 0 -> zlen name < FILENAME_MAX_LENGTH ->
  (forall c, ~ dir_entry (tree s) (m_root f) name c) ->
  exists s' c, register_device heap fs3 name false ops s = (Ok tt, s') /\ stage fs r s1 s' mounts /\ same_fss (filesystems s) (filesystems s') /\ keeps_inodes s s' /\ added s s' (m_root f) name c.
Proof.
  intros S Hf Hc Hops Hl Hfree. pose proof (register_at heap Hheap s [] fs3 f name false ops 0 0 (st_inv _ _ _ _ _ S) Hf Hc) as Hr. unfold register_device.
  destruct (register_memory_device heap fs3 name false ops 0 0 s) as [[[]|e|] s']; [| |done].
  - destruct Hr as (Hv & Hk & Hfs & (_ & _ & Em & Er & _) & c & y & Ha & _). exists s', c. split_and!; try done. split; [done|by apply (keeps_inodes_trans s1 s); [apply S|]|rewrite Er; apply S| |rewrite Em; apply S].
    destruct (st_fs _ _ _ _ _ S) as (g & Hg & Hgr). destruct (same_fss_to _ _ _ g Hfs Hg) as (g' & ? & _ & ?). exists g'. split; [done|congruence].
  - destruct Hr as (_ & _ & Hr). destruct (Hroom s) as [[a Ha] Hb]. destruct Hr as [?|[?|[[c Hc2]|[?|?]]]]; [done|lia|by destruct (Hfree c)|congruence|congruence].
Qed.

Lemma stage_devfs fs r s1 s mounts fs3 nops zops : stage fs r s1 s mounts -> filesystems s !! fs3 = None -> nops <> 0 -> zops <> 0 ->
  exists s', DevfsFileSystem_create heap (Some fs3) nops zops s = (Ok fs3, s') /\ stage fs r s1 s' mounts /\ keeps_inodes s s'
    /\ (exists f, filesystems s' !! fs3 = Some f /\ fs_class f = DevfsInode) /\ (forall k g, filesystems s !! k = Some g -> exists g', filesystems s' !! k = Some g' /\ fs_class g' = fs_class g).
Proof.
  intros S Hn Hn0 Hz0. destruct (stage_new fs r s1 s mounts DevfsInode fs3 0x1ED S Hn) as (s2 & E2 & S2 & (f & Hf & Hc & Hfree) & Hoth & K2). unfold DevfsFileSystem_create. rewrite (mtry_ok _ _ _ _ _ E2).
  destruct (stage_register fs r s1 s2 mounts fs3 f NULL_NAME nops S2 Hf Hc Hn0 ltac:(done) (Hfree NULL_NAME)) as (s3 & c3 & E3 & S3 & F3 & K3 & A3). rewrite (mtry_ok _ _ _ _ _ E3).
  destruct (same_fss_to _ _ _ f F3 Hf) as (f3 & Hf3 & Hc3 & Hr3).
  destruct (stage_register fs r s1 s3 mounts fs3 f3 ZERO_NAME zops S3 Hf3 ltac:(congruence) Hz0 ltac:(done)) as (s4 & c4 & E4 & S4 & F4 & K4 & A4).
  { intros c Hc4. rewrite Hr3 in Hc4. apply A3 in Hc4 as [(_ & ? & _)|Hc4]; [done|]. by apply (Hfree ZERO_NAME c). }
  rewrite (mtry_ok _ _ _ _ _ E4). exists s4. split_and!; try done.
  - by apply (keeps_inodes_trans s s2); [|apply (keeps_inodes_trans s2 s3)].
  - destruct (same_fss_to _ _ _ f3 F4 Hf3) as (f4 & Hf4 & Hc4 & _). exists f4. split; [done|congruence].
  - intros k g Hg. assert (Hk : filesystems s2 !! k = Some g) by (rewrite Hoth; [done|congruence]). destruct (same_fss_to _ _ _ g F3 Hk) as (g3 & Hg3 & Hcg & _).
    destruct (same_fss_to _ _ _ g3 F4 Hg3) as (g4 & Hg4 & Hcg4 & _). exists g4. split; [done|congruence].
Qed.

Lemma fmap_nodup_inj {A B} (f : A -> B) (l : list A) (x y : A) : NoDup (f <$> l) -> x ∈ l -> y ∈ l -> f x = f y -> x = y.
Proof.
  induction l as [|a l IH]; intros Hn Hx Hy E; [by apply not_elem_of_nil in Hx|]. cbn in Hn. apply NoDup_cons in Hn as [Hn1 Hn2].
  apply elem_of_cons in Hx as [->|Hx], Hy as [->|Hy]; [done| | |by apply IH].
  - destruct Hn1. rewrite E. by apply list_elem_of_fmap_2.
  - destruct Hn1. rewrite <- E. by apply list_elem_of_fmap_2.
Qed.

Lemma stage_follow fs r s1 s mounts c k : stage fs r s1 s mounts -> (c, k) ∈ mounts -> follow_mount c s = root_of s k.
Proof.
  intros S Hin. assert (Hin2 : (c, k) ∈ (fun e => (covered e, filesystem e)) <$> s_mounts s) by (rewrite (st_mounts _ _ _ _ _ S); by right).
  apply list_elem_of_fmap in Hin2 as (e & [= -> ->] & He). unfold follow_mount. destruct (follow_scan_cases s (s_mounts s) (covered e)) as [[Hno _]|(e' & He' & Ec & ->)]; [by destruct (Hno e He)|].
  destruct (mo_mounts _ _ _ _ (v_fs _ _ (st_inv _ _ _ _ _ S))) as (_ & N & _). by rewrite (fmap_nodup_inj covered (s_mounts s) e' e N He' He Ec).
Qed.

(** What the boot loader and the build put together: an archive of well-formed
    members at the place the module says, with the directories to mount on. *)
Record boot_image_ok s modules (b : BootMemory) initrd members rest (fs1 fs2 fs3 : Z) : Prop := {
  bo_empty : inodes s = ∅ /\ filesystems s = ∅ /\ fa_ok (frames s);
  bo_initrd : find_initrd modules = Some initrd /\ u64 (phys_end initrd - phys_start initrd) = zlen (archive members rest);
  bo_memory : zlen (archive members rest) < 2 ^ 63 /\ mem_load (mem s) (phys_start initrd) (zlen (archive members rest)) = archive members rest;
  bo_members : Forall (fun m => member_ok (fst m)) members /\ members_fit (placed (phys_start initrd) members);
  bo_tmp : exists m other, (m, other) ∈ members /\ directory m = true /\ member_names m = [TMP_NAME];
  bo_dev : exists m other, (m, other) ∈ members /\ directory m = true /\ member_names m = [DEV_NAME];
  bo_heap : initrd_memory b = Some fs1 /\ tmp_memory b = Some fs2 /\ dev_memory b = Some fs3 /\ null_table b <> 0 /\ zero_table b <> 0;
  bo_distinct : fs1 <> 0 /\ fs1 <> fs2 /\ fs1 <> fs3 /\ fs2 <> fs3;
}.

Lemma ordinary_tmp : ordinary TMP_NAME.
Proof. unfold ordinary, plain, TMP_NAME. split_and!; [done| |done|done|done]; intros Hin; repeat (apply elem_of_cons in Hin as [?|Hin]; [done|]); by apply not_elem_of_nil in Hin. Qed.
Lemma ordinary_dev : ordinary DEV_NAME.
Proof. unfold ordinary, plain, DEV_NAME. split_and!; [done| |done|done|done]; intros Hin; repeat (apply elem_of_cons in Hin as [?|Hin]; [done|]); by apply not_elem_of_nil in Hin. Qed.

Lemma rev_in ma (l : list (Member * Z)) : ma ∈ l -> ma ∈ rev_append l [].
Proof. rewrite rev_append_rev, app_nil_r. intros Hin. apply list_elem_of_In. rewrite <- in_rev. by apply list_elem_of_In. Qed.

(** The stages one after the other. *)
Lemma boot_stages s modules b initrd members rest fs1 fs2 fs3 : boot_image_ok s modules b initrd members rest fs1 fs2 fs3 ->
  exists r s1 s' i j, mount_boot_filesystems heap modules b s = (Ok tt, s') /\ mem s1 = mem s /\ tree_holds [] fs1 r s1 (rev_append (placed (phys_start initrd) members) [])
    /\ stage fs1 r s1 s' [(i, fs2); (j, fs3)] /\ place s' r i [TMP_NAME] /\ place s' r j [DEV_NAME]
    /\ (exists f, filesystems s' !! fs2 = Some f /\ fs_class f = TmpfsInode) /\ (exists f, filesystems s' !! fs3 = Some f /\ fs_class f = DevfsInode).
Proof.
  intros B. destruct (bo_empty _ _ _ _ _ _ _ _ _ B) as (Hi & Hf & Hfr), (bo_initrd _ _ _ _ _ _ _ _ _ B) as (Ein & Elen), (bo_memory _ _ _ _ _ _ _ _ _ B) as (Hl & Hm).
  destruct (bo_members _ _ _ _ _ _ _ _ _ B) as (Hok & Hfit), (bo_tmp _ _ _ _ _ _ _ _ _ B) as (mt & ot & Hmt & Hdt & Hnt), (bo_dev _ _ _ _ _ _ _ _ _ B) as (md & od & Hmd & Hdd & Hnd).
  destruct (bo_heap _ _ _ _ _ _ _ _ _ B) as (E1 & E2 & E3 & N0 & Z0), (bo_distinct _ _ _ _ _ _ _ _ _ B) as (D0 & D12 & D13 & D23).
  unfold mount_boot_filesystems. rewrite mtry_mod, Ein, Elen, E1, E2, E3. set (base := phys_start initrd) in *.
  destruct (create_ramdisk fs1 base members rest (initialize s) Hi Hf Hfr Hok Hfit Hl Hm) as (r & s1 & Ec & Hh & (_ & Rm & Rs & Rr & _) & Hno). rewrite (mtry_ok _ _ _ _ _ Ec).
  destruct (stage_start fs1 r s1 _ Hh D0 ltac:(by rewrite Rr) ltac:(by rewrite Rs)) as (s2 & Em & S2 & F2). rewrite (mtry_ok _ _ _ _ _ Em).
  destruct (placed_in mt ot members base Hmt) as [at_ Hat]. destruct (placed_in md od members base Hmd) as [ad Had]. apply rev_in in Hat, Had.
  destruct (stage_new fs1 r s1 s2 [] TmpfsInode fs2 0x1FF S2 ltac:(rewrite F2; by apply Hno)) as (s3 & E4 & S3 & (f2 & Hf2 & Hc2 & _) & Hoth & _). unfold TmpfsFileSystem_create. rewrite (mtry_ok _ _ _ _ _ E4).
  destruct (stage_mount fs1 r s1 _ s3 [] mt at_ TMP_NAME fs2 Hh S3 Hat Hdt Hnt ordinary_tmp ltac:(cbn; lia)) as (i & s4 & E5 & P5 & S5 & K5 & F5); [intros ? ? ?%not_elem_of_nil; done|done|by exists f2|].
  change (SLASH :: TMP_NAME) with TMP_PATH in E5. rewrite (mtry_ok _ _ _ _ _ E5). cbn [app] in S5.
  destruct (stage_devfs fs1 r s1 s4 _ fs3 (null_table b) (zero_table b) S5) as (s5 & E6 & S6 & K6 & (f3 & Hf3 & Hc3) & Hkeep); [rewrite F5, Hoth, F2 by done; by apply Hno|done|done|]. rewrite (mtry_ok _ _ _ _ _ E6).
  pose proof (keeps_place _ _ r i _ K6 (keeps_place _ _ r i _ K5 P5)) as P6.
  destruct (stage_mount fs1 r s1 _ s5 [(i, fs2)] md ad DEV_NAME fs3 Hh S6 Had Hdd Hnd ordinary_dev ltac:(cbn; lia)) as (j & s6 & E7 & P7 & S7 & K7 & F7); [|done|by exists f3|].
  - intros c k [[= -> ->]|?%not_elem_of_nil]%elem_of_cons; [|done]. split; [done|]. intros Pd. pose proof (st_inv _ _ _ _ _ S6) as Hv.
    destruct (root_facts s5 [] Hv) as (rx & Hrx & Hp & _). destruct (root_inode_linked s5 [] Hv) as (rx' & Hrx' & Hu). rewrite Hrx in Hrx'. injection Hrx' as <-. rewrite (stage_root _ _ _ _ _ S6) in Hrx.
    by pose proof (place_names s5 _ r rx (vfs_base s5 [] Hv) Hrx Hp Hu i _ _ P6 Pd).
  - change (SLASH :: DEV_NAME) with DEV_PATH in E7. exists r, s1, s6, i, j. rewrite F7. split_and!; [done|done|done|done|by apply (keeps_place s5)|by apply (keeps_place s5)| |by exists f3].
    destruct (Hkeep fs2 f2 ltac:(by rewrite F5)) as (g & Hg & Eg). exists g. split; [done|congruence].
Qed.
End Boot.

End BootTree.
