(* ===== verification/FileSystem.v ===== *)
(** * The file system as a whole

    The theorems about the files of this component: from boot through any sequence
    of calls no freed inode is used and the reference counts are exact; directories
    behave as maps from names, files as strings of bytes, getcwd and resolve are
    inverse, and the archive is what the tree shows. *)

From S2P Require Import Prelude Kstd Physical Pipe Files Paths Vfs Trees Tmpfs VfsTree VfsCalls VfsPaths Ustar Archive BootTree.

Section FileSystem.
Context {F : Type} {FA : FrameAllocator F}.
Implicit Types (s : @Vfs F) (x y : Inode) (held : list Z).

(** ** Sequences of calls

    [held] lists the references that descriptions and working directories hold. *)

Inductive FsOp :=
| OpMake (h : KernelHeap) (type : InodeType) (path : list Z) (mode umask base : Z)
| OpOpen (h : KernelHeap) (pending : bool) (path : list Z) (flags mode base : Z)
| OpOpenResume (h : KernelHeap) (pending : bool) (inode flags arrivals : Z)
| OpClose (inode flags : Z)
| OpUnlink (path : list Z) (base : Z) (directory : bool)
| OpUnlinkat (path : list Z) (base : Z) (directory : bool)
| OpRename (h : KernelHeap) (from to : list Z) (base : Z)
| OpChmod (path : list Z) (mode base : Z)
| OpChdir (path : list Z) (cwd : Z)
| OpRead (pending : bool) (inode offset length : Z)
| OpWrite (h : KernelHeap) (pending : bool) (inode offset : Z) (input : list Z) (written : Z)
| OpTruncate (h : KernelHeap) (inode size : Z).

(** The state and the references after a call; nothing after a panic. *)
Definition after {A} (r : Res A * @Vfs F) (held : list Z) (taken : A -> list Z) : option (Vfs * list Z) :=
  match r with (Ok a, s') => Some (s', taken a) | (Err _, s') => Some (s', held) | (Panic, _) => None end.

Definition opened held (b : Blocking (Z * Z) FileDescription) : list Z :=
  match b with Done (Ok d) => m_inode d :: held | _ => held end.

Definition run_call (op : FsOp) s held : option (Vfs * list Z) :=
  match op with
  | OpMake h type path mode umask base => after (make_node h type path mode umask base s) held (fun _ => held)
  | OpOpen h pending path flags mode base => after (open h pending path flags mode base s) held (opened held)
  | OpOpenResume h pending inode flags arrivals => after (open_resume h pending inode flags arrivals s) held (opened held)
  | OpClose inode flags => after (close inode flags s) held (fun _ => remove_child held inode)
  | OpUnlink path base dir => after (sys_unlink_common path base dir s) held (fun _ => held)
  | OpUnlinkat path base dir => after (sys_unlinkat path base dir s) held (fun _ => held)
  | OpRename h from to base => after (rename h from to base s) held (fun _ => held)
  | OpChmod path mode base => after (sys_chmod path mode base s) held (fun _ => held)
  | OpChdir path cwd => after (vfs_chdir path cwd s) held (fun i => i :: remove_child held cwd)
  | OpRead pending inode offset length => after (TmpfsInode_read pending inode offset length s) held (fun _ => held)
  | OpWrite h pending inode offset input written => after (TmpfsInode_write h pending inode offset input written s) held (fun _ => held)
  | OpTruncate h inode size => after (tmpfs_truncate h inode size s) held (fun _ => held)
  end.

(** The directory a relative path starts from is one the caller holds; for calls
    that put a name somewhere it has not been removed.  The FIFO an open sleeps on
    is still there when it wakes. *)
Definition held_base held base : Prop := base = 0 \/ base ∈ held.
Definition usable_base s held base : Prop := base = 0 \/ base ∈ held /\ linked s base.

(** An open file or FIFO of the tmpfs. *)
Definition open_file s held i : Prop := i ∈ held /\ exists x, inodes s !! i = Some x /\ class x = TmpfsInode /\ is_directory x = false.

Definition call_ok (op : FsOp) s held : Prop :=
  few s held /\
  match op with
  | OpMake h _ _ _ _ base => usable_base s held base /\ heap_ok h s
  | OpOpen h _ _ flags _ base => held_base held base /\ (flag_set flags O_CREAT = true -> usable_base s held base) /\ heap_ok h s
  | OpOpenResume _ _ inode _ _ => exists x, inodes s !! inode = Some x /\ m_fifo x <> None
  | OpClose inode _ => inode ∈ held
  | OpUnlink _ base _ | OpUnlinkat _ base _ | OpChmod _ _ base => held_base held base
  | OpRename _ _ _ base => usable_base s held base
  | OpChdir _ cwd => cwd ∈ held
  | OpRead _ inode offset length => open_file s held inode /\ 0 <= offset /\ 0 <= length
  | OpWrite _ _ inode offset input _ => open_file s held inode /\ 0 <= offset /\ offset + zlen input < 2 ^ 63
  | OpTruncate _ inode size => open_file s held inode /\ 0 <= size < 2 ^ 63
  end.

(** A state mount_boot_filesystems leaves. *)
Definition booted s : Prop := exists heap modules b s0 initrd members rest fs1 fs2 fs3,
  (forall s, heap_ok (heap s) s) /\ (forall s, is_Some (inode_memory (heap s)) /\ children_room (heap s) = true)
  /\ boot_image_ok s0 modules b initrd members rest fs1 fs2 fs3 /\ mount_boot_filesystems heap modules b s0 = (Ok tt, s).

Inductive fs_reachable : @Vfs F -> list Z -> Prop :=
| fs_boot s : booted s -> fs_reachable s []
| fs_step s held op s' held' : fs_reachable s held -> call_ok op s held -> run_call op s held = Some (s', held') -> fs_reachable s' held'.

(** ** Every call keeps the invariant *)

Lemma held_base_live s held base : vfs_inv s held -> held_base held base -> base_ok s base.
Proof. intros H [->|Hin]; [by left|right]. apply tree_live, (t_held _ _ (v_tree _ _ H)). apply elem_of_app. by left. Qed.

Lemma usable_linked s held base : usable_base s held base -> base_linked s base.
Proof. intros [?|[_ ?]]; [by left|by right]. Qed.

Lemma take_one held i : i ∈ held -> held ≡ₚ i :: remove_child held i.
Proof.
  induction held as [|j held IH]; intros Hin; [by apply not_elem_of_nil in Hin|]. cbn. destruct (Z.eqb_spec j i) as [->|Hne]; [done|].
  apply elem_of_cons in Hin as [?|Hin]; [congruence|]. rewrite (IH Hin) at 1. apply perm_swap.
Qed.

Lemma after_ok {A} (r : Res A * @Vfs F) held taken : (match r with (Ok a, s') => vfs_inv s' (taken a) | (Err _, s') => vfs_inv s' held | (Panic, _) => False end) ->
  exists s' held', after r held taken = Some (s', held') /\ vfs_inv s' held'.
Proof. destruct r as [[a|e|] s']; cbn; [by exists s', (taken a)|by exists s', held|done]. Qed.

Lemma fifo_keeps {L A} i s held (r : Res (Blocking L A) * @Vfs F) : vfs_inv s held -> fifo_call i s r ->
  match r with (Ok _, s') => vfs_inv s' held | (Err _, s') => vfs_inv s' held | (Panic, _) => False end.
Proof. intros H Hr. destruct r as [[[[a|e|]|l]|e|] s']; try done; by apply (through_inv s s' held i H). Qed.

Lemma fs_call_keeps op s held : vfs_inv s held -> call_ok op s held -> exists s' held', run_call op s held = Some (s', held') /\ vfs_inv s' held'.
Proof.
  intros H [Hfew Hop]. destruct op as [h type path mode umask base|h pending path flags mode base|h pending i flags arrivals|i flags|path base dir|path base dir|h from to base|path mode base|path cwd|pending i off len|h pending i off input written|h i size]; cbn [run_call]; apply after_ok.
  - destruct Hop as [Hb Hh]. pose proof (make_node_at h s held type path mode umask base H (usable_linked _ _ _ Hb) Hh) as Hm.
    destruct (make_node h type path mode umask base s) as [[u|e|] s']; [|by destruct Hm|done]. by destruct Hm as (p & name & c & _ & (? & _)).
  - destruct Hop as (Hb & Hc & Hh). pose proof (open_at h pending s held path flags mode base H Hfew (held_base_live _ _ _ H Hb) (fun E => usable_linked _ _ _ (Hc E)) Hh) as Ho.
    destruct (open h pending path flags mode base s) as [[[[d|e|]|[i n]]|e|] s']; try done; by destruct Ho.
  - destruct Hop as (x & Hx & Hp). pose proof (open_resume_at h pending s held i x flags arrivals H Hfew Hx Hp) as Ho.
    destruct (open_resume h pending i flags arrivals s) as [[[[d|e|]|[j n]]|e|] s']; try done; destruct Ho as [Ho _]; try done; [|by destruct Ho]. cbn. by destruct Ho as (? & -> & _).
  - apply (inv_perm _ _ _ (take_one held i Hop)) in H. destruct (close_at s _ i flags H) as (s' & -> & H' & _). done.
  - pose proof (unlink_common_at s held path base dir H Hfew (held_base_live _ _ _ H Hop)) as Hu. destruct (sys_unlink_common path base dir s) as [[u|e|] s']; [by destruct Hu|by subst|done].
  - pose proof (unlinkat_at s held path base dir H Hfew (held_base_live _ _ _ H Hop)) as Hu. destruct (sys_unlinkat path base dir s) as [[u|e|] s']; [by destruct Hu|by subst|done].
  - pose proof (rename_call_at h s held from to base H Hfew (usable_linked _ _ _ Hop)) as Hr. destruct (rename h from to base s) as [[u|e|] s']; [by destruct Hr|by subst|done].
  - pose proof (chmod_at s held path mode base H (held_base_live _ _ _ H Hop)) as Hc. destruct (sys_chmod path mode base s) as [[u|e|] s']; [by destruct Hc|by subst|done].
  - pose proof (take_one held cwd Hop) as Hperm. pose proof (inv_perm _ _ _ Hperm H) as H1. assert (Hfew1 : few s (cwd :: remove_child held cwd)).
    { unfold few, zlen in *. by rewrite <- (Permutation_length Hperm). }
    pose proof (chdir_at s _ path cwd H1 Hfew1) as Hc. destruct (vfs_chdir path cwd s) as [[i|e|] s']; [by destruct Hc as (_ & ? & _)|by subst|done].
  - destruct Hop as ((_ & x & Hx & Hc & Hd) & Ho & Hl). destruct (m_fifo x) eqn:Ef; [apply (fifo_keeps i s held _ H), (fifo_read_at pending i off len s x Hx); congruence|].
    by rewrite (file_read_at pending i off len s x Hx Ef), (read_at s i x off len (v_files _ _ H) Hx Hc Hd Ho Hl).
  - destruct Hop as ((_ & x & Hx & Hc & Hd) & Ho & Hl). destruct (m_fifo x) eqn:Ef; [apply (fifo_keeps i s held _ H), (fifo_write_at h pending i off input written s x Hx); congruence|].
    rewrite (file_write_at h pending i off input written s x Hx Ef). destruct (decide (input = [])) as [->|Hne].
    + unfold tmpfs_write. by rewrite (try_deref i x), Hd.
    + pose proof (write_at h s i x off input (v_files _ _ H) Hx Hc Hd Ho Hne Hl) as Hw. destruct (tmpfs_write h i off input s) as [[n|e|] s']; [| |done]; destruct Hw as (_ & x' & S & _); by apply (step_inv s s' held i x x' H Hx S).
  - destruct Hop as ((_ & x & Hx & Hc & Hd) & Hs). pose proof (truncate_at h s i x size (v_files _ _ H) Hx Hc Hd Hs) as Ht. destruct (tmpfs_truncate h i size s) as [[u|e|] s']; [| |done].
    + destruct Ht as (x' & S & _). by apply (step_inv s s' held i x x' H Hx S).
    + destruct Ht as (_ & _ & x' & S & _). by apply (step_inv s s' held i x x' H Hx S).
Qed.

Lemma booted_inv s : booted s -> vfs_inv s [].
Proof.
  intros (heap & modules & b & s0 & initrd & members & rest & fs1 & fs2 & fs3 & Hh & Hr & B & E). destruct (boot_stages heap Hh Hr s0 modules b initrd members rest fs1 fs2 fs3 B) as (r & s1 & s' & i & j & E' & _ & _ & S & _).
  rewrite E in E'. injection E' as <-. apply S.
Qed.

Lemma reachable_vfs s held : fs_reachable s held -> vfs_inv s held.
Proof. induction 1 as [s Hb|s held op s' held' _ IH Hok E]; [by apply booted_inv|]. destruct (fs_call_keeps op s held IH Hok) as (s2 & held2 & E2 & H2). congruence. Qed.

(** ** What a call does to the names and to the bytes *)

(** The names after a call: what of the entries (directory, name, inode) is new,
    gone or moved. *)
Definition call_names (op : FsOp) s s' : Prop :=
  match op with
  | OpMake h type path mode umask base =>
      match fst (make_node h type path mode umask base s) with
      | Ok _ => exists p name c, resolve_parent path base s = (Ok (p, name), s) /\ added s s' p name c
      | _ => same_names s s'
      end
  | OpOpen h pending path flags mode base =>
      match fst (open h pending path flags mode base s) with
      | Ok (Done (Ok d)) => open_names s s' path base (m_inode d)
      | Ok (WaitOn (i, _)) => open_names s s' path base i
      | _ => True
      end
  | OpOpenResume h pending i flags arrivals =>
      match fst (open_resume h pending i flags arrivals s) with Ok _ => same_names s s' | _ => True end
  | OpUnlink path base dir =>
      match fst (sys_unlink_common path base dir s) with
      | Ok _ => exists p name c, resolve_parent path base s = (Ok (p, name), s) /\ erased s s' p name c
      | _ => s' = s
      end
  | OpUnlinkat path base dir =>
      match fst (sys_unlinkat path base dir s) with
      | Ok _ => exists p name c, resolve_parent path base s = (Ok (p, name), s) /\ erased s s' p name c
      | _ => s' = s
      end
  | OpRename h from to base =>
      match fst (rename h from to base s) with
      | Ok _ => exists p name q new_name c, resolve_parent from base s = (Ok (p, name), s) /\ resolve_parent to base s = (Ok (q, new_name), s)
          /\ renamed (tree s) (tree s') p name q new_name c
      | _ => s' = s
      end
  | _ => same_names s s'
  end.

(** The bytes after a call: of one file at most they change, and how. *)
Definition call_bytes (op : FsOp) s s' : Prop :=
  match op with
  | OpOpen h pending path flags mode base =>
      match fst (open h pending path flags mode base s) with
      | Ok (Done (Ok d)) => exists x, inodes s' !! m_inode d = Some x /\ bytes s s' (m_inode d) (if truncates flags && bool_decide (m_type x = Regular) then fun _ => [] else id)
          /\ m_offset d = (if flag_set flags O_APPEND then m_size x else 0)
      | Ok (WaitOn (i, _)) => exists x, inodes s' !! i = Some x /\ bytes s s' i (if truncates flags && bool_decide (m_type x = Regular) then fun _ => [] else id)
      | _ => True
      end
  | OpOpenResume h pending i flags arrivals =>
      match fst (open_resume h pending i flags arrivals s) with Ok _ => bytes s s' i id | _ => True end
  | OpRead pending i offset length => bytes s s' i id /\ exists x, inodes s !! i = Some x
      /\ (m_fifo x = None -> fst (TmpfsInode_read pending i offset length s) = Ok (Done (Ok (take (Z.to_nat length) (drop (Z.to_nat offset) (contents (mem s) (file_of x)))))))
  | OpWrite h pending i offset input written => exists x, inodes s !! i = Some x
      /\ match m_fifo x with
         | Some _ => bytes s s' i id
         | None => match fst (TmpfsInode_write h pending i offset input written s) with
                   | Ok (Done (Ok n)) => n = zlen input /\ bytes s s' i (if bool_decide (input = []) then id else overlay offset input)
                   | Ok _ => False
                   | _ => bytes s s' i id
                   end
         end
  | OpTruncate h i size =>
      match fst (tmpfs_truncate h i size s) with Ok _ => bytes s s' i (resized_bytes size) | _ => bytes s s' i id end
  | _ => bytes s s' 0 id
  end.

Lemma after_inv {A} (r : Res A * @Vfs F) held taken s' held' : after r held taken = Some (s', held') -> snd r = s'.
Proof. by destruct r as [[a|e|] t]; intros [= <- _]. Qed.

Lemma bytes_same s i : bytes s s i id.
Proof. intros j y y' Hy Hy' Hc. rewrite Hy in Hy'. injection Hy' as <-. split; [done|]. by case_decide. Qed.

(** The calls that work on the tree. *)
Lemma tree_call_does op s held s' held' : vfs_inv s held -> call_ok op s held -> run_call op s held = Some (s', held') ->
  match op with OpRead _ _ _ _ | OpWrite _ _ _ _ _ _ | OpTruncate _ _ _ => True | _ => call_names op s s' /\ call_bytes op s s' end.
Proof.
  intros H [Hfew Hop] E. destruct op as [h type path mode umask base|h pending path flags mode base|h pending i flags arrivals|i flags|path base dir|path base dir|h from to base|path mode base|path cwd| | |]; try done;
    cbn [run_call] in E; apply after_inv in E; cbn [call_names call_bytes].
  - destruct Hop as [Hb Hh]. pose proof (make_node_at h s held type path mode umask base H (usable_linked _ _ _ Hb) Hh) as Hm.
    destruct (make_node h type path mode umask base s) as [[u|e|] t]; [| |done]; cbn in E |- *; subst t.
    + destruct Hm as (p & name & c & Ep & (_ & Q & A & _)). split; [by exists p, name, c|by apply quiet_bytes].
    + destruct Hm as (_ & Q & N). split; [done|by apply quiet_bytes].
  - destruct Hop as (Hb & Hc & Hh). pose proof (open_at h pending s held path flags mode base H Hfew (held_base_live _ _ _ H Hb) (fun E => usable_linked _ _ _ (Hc E)) Hh) as Ho.
    destruct (open h pending path flags mode base s) as [[[[d|e|]|[i n]]|e|] t]; try done; cbn in E |- *; subst t.
    + destruct Ho as (_ & _ & (N & x & Hx & B) & x' & Hx' & Eo). rewrite Hx in Hx'. injection Hx' as <-. split; [done|by exists x].
    + by destruct Ho as (_ & N & B).
  - destruct Hop as (x & Hx & Hp). pose proof (open_resume_at h pending s held i x flags arrivals H Hfew Hx Hp) as Ho.
    destruct (open_resume h pending i flags arrivals s) as [[b|e|] t]; try done; cbn in E |- *; subst t. destruct Ho as (_ & Q & N). split; [done|by apply quiet_bytes].
  - apply (inv_perm _ _ _ (take_one held i Hop)) in H. destruct (close_at s _ i flags H) as (t & Ec & _ & Q & N). rewrite Ec in E. cbn in E. subst t. split; [done|by apply quiet_bytes].
  - pose proof (unlink_common_at s held path base dir H Hfew (held_base_live _ _ _ H Hop)) as Hu. destruct (sys_unlink_common path base dir s) as [[u|e|] t]; [| |done]; cbn in E |- *; subst t.
    + destruct Hu as (_ & Q & N). split; [done|by apply quiet_bytes].
    + subst s'. split; [done|apply bytes_same].
  - pose proof (unlinkat_at s held path base dir H Hfew (held_base_live _ _ _ H Hop)) as Hu. destruct (sys_unlinkat path base dir s) as [[u|e|] t]; [| |done]; cbn in E |- *; subst t.
    + destruct Hu as (_ & Q & N). split; [done|by apply quiet_bytes].
    + subst s'. split; [done|apply bytes_same].
  - pose proof (rename_call_at h s held from to base H Hfew (usable_linked _ _ _ Hop)) as Hr. destruct (rename h from to base s) as [[u|e|] t]; [| |done]; cbn in E |- *; subst t.
    + destruct Hr as (_ & Q & N). split; [done|by apply quiet_bytes].
    + subst s'. split; [done|apply bytes_same].
  - pose proof (chmod_at s held path mode base H (held_base_live _ _ _ H Hop)) as Hc. destruct (sys_chmod path mode base s) as [[u|e|] t]; [| |done]; cbn in E; subst t.
    + destruct Hc as (_ & Q & N & _). split; [done|by apply quiet_bytes].
    + subst s'. split; [done|apply bytes_same].
  - pose proof (take_one held cwd Hop) as Hperm. pose proof (inv_perm _ _ _ Hperm H) as H1. assert (Hfew1 : few s (cwd :: remove_child held cwd)).
    { unfold few, zlen in *. by rewrite <- (Permutation_length Hperm). }
    pose proof (chdir_at s _ path cwd H1 Hfew1) as Hc. destruct (vfs_chdir path cwd s) as [[i|e|] t]; [| |done]; cbn in E; subst t.
    + destruct Hc as (_ & _ & Q & N). split; [done|by apply quiet_bytes].
    + subst s'. split; [done|apply bytes_same].
Qed.

(** The calls that work on an open file. *)
Lemma step_does s s' held i x x' new : vfs_inv s held -> inodes s !! i = Some x -> file_step s s' i x x' ->
  contents (mem s') (file_of x') = new (contents (mem s) (file_of x)) -> same_names s s' /\ bytes s s' i new.
Proof. intros H Hx S E. split; [apply same_names_tree; by apply (step_inv s s' held i x x' H Hx S)|by apply (step_bytes s s' i x x')]. Qed.

Lemma fifo_does {L A} i s held s' (r : Res (Blocking L A) * @Vfs F) : vfs_inv s held -> fifo_call i s r -> snd r = s' -> same_names s s' /\ bytes s s' i id.
Proof.
  intros H Hr E. assert (Ht : through_fifo s s' i) by (destruct r as [[[[a|e|]|l]|e|] t]; try done; cbn in E; by subst t).
  destruct (through_inv s s' held i H Ht) as (_ & Q & T & _). split; [by apply same_names_tree|by apply quiet_bytes].
Qed.

Lemma file_call_does op s held s' held' : vfs_inv s held -> call_ok op s held -> run_call op s held = Some (s', held') ->
  match op with OpRead _ _ _ _ | OpWrite _ _ _ _ _ _ | OpTruncate _ _ _ => call_names op s s' /\ call_bytes op s s' | _ => True end.
Proof.
  intros H [Hfew Hop] E. destruct op as [| | | | | | | | |pending i off len|h pending i off input written|h i size]; try done; cbn [run_call] in E; apply after_inv in E; cbn [call_names call_bytes].
  - destruct Hop as ((_ & x & Hx & Hc & Hd) & Ho & Hl). destruct (m_fifo x) eqn:Ef.
    + destruct (fifo_does i s held s' _ H (fifo_read_at pending i off len s x Hx ltac:(congruence)) E) as [N B]. split; [done|]. split; [done|]. exists x. split; [done|congruence].
    + rewrite (file_read_at pending i off len s x Hx Ef), (read_at s i x off len (v_files _ _ H) Hx Hc Hd Ho Hl) in E |- *. cbn in E |- *. subst s'. split; [done|]. split; [apply bytes_same|by exists x].
  - destruct Hop as ((_ & x & Hx & Hc & Hd) & Ho & Hl). destruct (m_fifo x) eqn:Ef.
    + destruct (fifo_does i s held s' _ H (fifo_write_at h pending i off input written s x Hx ltac:(congruence)) E) as [N B]. split; [done|]. exists x. by rewrite Ef.
    + rewrite (file_write_at h pending i off input written s x Hx Ef) in E |- *. destruct (decide (input = [])) as [->|Hne].
      * unfold tmpfs_write in E |- *. rewrite (try_deref i x), Hd in E |- * by done. cbn in E |- *. subst s'. split; [done|]. exists x. rewrite Ef. split; [done|]. split; [reflexivity|apply bytes_same].
      * rewrite bool_decide_eq_false_2 by done. pose proof (write_at h s i x off input (v_files _ _ H) Hx Hc Hd Ho Hne Hl) as Hw.
        destruct (tmpfs_write h i off input s) as [[n|e|] t]; [| |done]; cbn in E |- *; subst t; destruct Hw as (Hn & x' & S & Eb).
        -- destruct (step_does s s' held i x x' _ H Hx S Eb) as [N B]. split; [done|]. exists x. by rewrite Ef.
        -- destruct (step_does s s' held i x x' id H Hx S Eb) as [N B]. split; [done|]. exists x. by rewrite Ef.
  - destruct Hop as ((_ & x & Hx & Hc & Hd) & Hs). pose proof (truncate_at h s i x size (v_files _ _ H) Hx Hc Hd Hs) as Ht. destruct (tmpfs_truncate h i size s) as [[u|e|] t]; [| |done]; cbn in E |- *; subst t.
    + destruct Ht as (x' & S & Eb & _). by apply (step_does s s' held i x x' _ H Hx S).
    + destruct Ht as (_ & _ & x' & S & Eb). by apply (step_does s s' held i x x' id H Hx S).
Qed.

Lemma call_does op s held s' held' : vfs_inv s held -> call_ok op s held -> run_call op s held = Some (s', held') -> call_names op s s' /\ call_bytes op s s'.
Proof. intros H Hok E. pose proof (tree_call_does op s held s' held' H Hok E) as Ht. pose proof (file_call_does op s held s' held' H Hok E) as Hf. by destruct op. Qed.
End FileSystem.

(** ** A small machine

    The archive has the two directories to mount on, a directory and a file. *)

Definition ETC_NAME : list Z := [101; 116; 99].
Definition MOTD_NAME : list Z := [109; 111; 116; 100].

Definition demo_dir (name : list Z) : Member := mkMember [] ([46; 47] ++ name ++ [SLASH]) true 0x1ED 0 [].
Definition demo_file : Member := mkMember [] ([46; 47] ++ ETC_NAME ++ [SLASH] ++ MOTD_NAME) false 0x1A4 0 [72; 105; 10].
Definition demo_members : list (Member * (Z -> Z)) :=
  (fun m => (m, fun _ => 0)) <$> [demo_dir DEV_NAME; demo_dir ETC_NAME; demo_file; demo_dir TMP_NAME].
Definition demo_archive : list Z := Eval vm_compute in archive demo_members [].

(** An allocator that never hands out an address twice. *)
Definition next_address (m : gmap Z Inode) : Z := 1 + map_fold (fun k _ top => Z.max k top) 0 m.
Definition demo_kernel_heap (s : @Vfs Pmm) : KernelHeap := mkKernelHeap (Some (next_address (inodes s))) true true true (fun _ => true).

Definition demo_start : @Vfs Pmm := mkVfs demo_pmm (zget 0 demo_archive) ∅ ∅ [] 0 7.
Definition demo_modules : list BootModule := [mkModule (Some INITRD) 0 (zlen demo_archive)].
Definition demo_memory : BootMemory := mkBootMemory (Some 1) (Some 2) (Some 3) 10 11.

Lemma next_address_fresh m : 0 < next_address m /\ m !! next_address m = None.
Proof.
  assert (Hle : 0 <= map_fold (fun k _ top => Z.max k top) 0 m /\ forall k, is_Some (m !! k) -> k <= map_fold (fun k _ top => Z.max k top) 0 m).
  { apply (map_fold_weak_ind (fun top m => 0 <= top /\ forall k, is_Some (m !! k) -> k <= top)); [split; [done|]; intros k [? E]; by rewrite lookup_empty in E|].
    intros i x m' top _ [H1 H2]. split; [lia|]. intros k Hk. destruct (decide (i = k)) as [->|Hne]; [lia|]. rewrite lookup_insert_ne in Hk by done. specialize (H2 k Hk). lia. }
  destruct Hle as [H1 H2]. unfold next_address. split; [lia|]. apply eq_None_not_Some. intros Hs. specialize (H2 _ Hs). lia.
Qed.

Lemma demo_heap_ok s : heap_ok (demo_kernel_heap s) s.
Proof. intros c [= <-]. destruct (next_address_fresh (inodes s)). split; [lia|done]. Qed.

Lemma demo_room s : is_Some (inode_memory (demo_kernel_heap s)) /\ children_room (demo_kernel_heap s) = true.
Proof. by split; [eexists|]. Qed.

Lemma load_array (l : list Z) : mem_load (zget 0 l) 0 (zlen l) = l.
Proof.
  unfold mem_load. apply list_eq. intros k. rewrite list_lookup_fmap. destruct (decide (k < length l)%nat) as [Hk|Hk].
  - rewrite lookup_seqZ_lt by (unfold zlen; lia). cbn. replace (0 + (0 + Z.of_nat k)) with (Z.of_nat k) by lia. unfold zget. rewrite Nat2Z.id. by destruct (lookup_lt_is_Some_2 l k Hk) as [c ->].
  - rewrite lookup_seqZ_ge by (unfold zlen; lia). symmetry. apply lookup_ge_None. lia.
Qed.

Lemma not_in_list (c : Z) l : forallb (fun d => negb (d =? c)) l = true -> c ∉ l.
Proof. intros E Hin. rewrite forallb_forall in E. apply list_elem_of_In, E in Hin. by rewrite Z.eqb_refl in Hin. Qed.

Lemma ordinary_name name : name <> [] -> forallb (fun d => negb (d =? SLASH)) name = true -> zlen name < FILENAME_MAX_LENGTH -> name <> DOT -> name <> DOTDOT -> ordinary name.
Proof. intros. split; [split_and!; [done|by apply not_in_list|done]|done]. Qed.

Lemma demo_dir_names name : ordinary name -> tidy (demo_dir name) /\ member_names (demo_dir name) = [name].
Proof.
  intros Ho. assert (En : member_names (demo_dir name) = [name]).
  { change (components (name ++ [SLASH]) = [name]). rewrite components_eq. destruct (next_component_plain name [SLASH] (proj1 Ho) eq_refl) as [-> _]. done. }
  split; [|done]. unfold tidy. rewrite En. split_and!; [by constructor|done|]. exists [SLASH]. split; [by right|]. change (name ++ [SLASH] = (name ++ []) ++ [SLASH]). by rewrite app_nil_r.
Qed.

Lemma ordinary_etc : ordinary ETC_NAME.
Proof. by apply ordinary_name. Qed.
Lemma ordinary_motd : ordinary MOTD_NAME.
Proof. by apply ordinary_name. Qed.

Lemma demo_file_names : tidy demo_file /\ member_names demo_file = [ETC_NAME; MOTD_NAME].
Proof.
  split; [|reflexivity]. split_and!; [|done|exists []; split; [by left|reflexivity]]. change (Forall ordinary [ETC_NAME; MOTD_NAME]). constructor; [apply ordinary_etc|]. constructor; [apply ordinary_motd|constructor].
Qed.

Lemma demo_member_ok : Forall (fun m => member_ok (fst m)) demo_members.
Proof. repeat constructor; try (apply not_in_list; reflexivity); vm_compute; congruence. Qed.

Lemma names_apart m1 m2 n1 n2 : member_names m1 = n1 -> member_names m2 = n2 -> (directory m1 = false -> ~ n1 `prefix_of` n2) -> (directory m2 = false -> ~ n2 `prefix_of` n1) -> apart m1 m2.
Proof. by intros <- <-. Qed.

Lemma demo_fit base : members_fit (placed base demo_members).
Proof.
  destruct (demo_dir_names DEV_NAME ordinary_dev) as [T1 N1], (demo_dir_names ETC_NAME ordinary_etc) as [T2 N2], (demo_dir_names TMP_NAME ordinary_tmp) as [T3 N3], demo_file_names as [T4 N4].
  unfold demo_members. cbn [fmap list_fmap placed members_fit]. rewrite !Forall_cons, !Forall_nil. cbn [fst]. unfold apart. rewrite N1, N2, N3, N4. split_and!; try done; intros Hf [k Ek]; done.
Qed.

Lemma demo_boot_ok : boot_image_ok demo_start demo_modules demo_memory (mkModule (Some INITRD) 0 (zlen demo_archive)) demo_members [] 1 2 3.
Proof.
  assert (Ea : archive demo_members [] = demo_archive) by (vm_compute; reflexivity).
  split.
  - split; [done|]. split; [done|]. split; [|vm_compute; congruence]. apply (physical_initialize_spec demo_map demo_pmm demo_sane demo_init).
  - rewrite Ea. split; vm_compute; reflexivity.
  - rewrite Ea. split; [vm_compute; reflexivity|apply load_array].
  - split; [apply demo_member_ok|apply demo_fit].
  - exists (demo_dir TMP_NAME), (fun _ => 0). split_and!; [|done|apply (demo_dir_names TMP_NAME ordinary_tmp)]. do 3 right. by left.
  - exists (demo_dir DEV_NAME), (fun _ => 0). split_and!; [|done|apply (demo_dir_names DEV_NAME ordinary_dev)]. by left.
  - by split_and!.
  - by split_and!.
Qed.

Lemma demo_booted : exists s, mount_boot_filesystems demo_kernel_heap demo_modules demo_memory demo_start = (Ok tt, s) /\ fs_reachable s [].
Proof.
  destruct (boot_stages demo_kernel_heap demo_heap_ok demo_room demo_start demo_modules demo_memory _ demo_members [] 1 2 3 demo_boot_ok) as (r & s1 & s & i & j & E & _). exists s. split; [done|].
  apply fs_boot. exists demo_kernel_heap, demo_modules, demo_memory, demo_start, (mkModule (Some INITRD) 0 (zlen demo_archive)), demo_members, [], 1, 2, 3.
  split_and!; [apply demo_heap_ok|apply demo_room|apply demo_boot_ok|done].
Qed.

(** The machine after boot, after creating /tmp/f and after writing its second page. *)
Definition TMP_F : list Z := TMP_PATH ++ [SLASH; 102].
Definition demo_state : @Vfs Pmm := snd (mount_boot_filesystems demo_kernel_heap demo_modules demo_memory demo_start).
Definition demo_open : FsOp := OpOpen (demo_kernel_heap demo_state) false TMP_F (Z.lor O_CREAT O_RDWR) 0x1A4 0.
Definition demo_opened : @Vfs Pmm := snd (open (demo_kernel_heap demo_state) false TMP_F (Z.lor O_CREAT O_RDWR) 0x1A4 0 demo_state).
Definition demo_write : FsOp := OpWrite (demo_kernel_heap demo_opened) false 10 PAGE_SIZE [72; 105] 0.
Definition demo_written : @Vfs Pmm := snd (TmpfsInode_write (demo_kernel_heap demo_opened) false 10 PAGE_SIZE [72; 105] 0 demo_opened).

Lemma demo_state_eq : mount_boot_filesystems demo_kernel_heap demo_modules demo_memory demo_start = (Ok tt, demo_state).
Proof. unfold demo_state. by destruct demo_booted as (s & -> & _). Qed.

Lemma demo_state_reachable : fs_reachable demo_state [].
Proof. unfold demo_state. by destruct demo_booted as (s & -> & Hs). Qed.

Lemma result_of {A B} (r : A * B) a : fst r = a -> r = (a, snd r).
Proof. destruct r. by intros <-. Qed.

Lemma after_value {F A} (r : Res A * @Vfs F) held taken a : fst r = Ok a -> after r held taken = Some (snd r, taken a).
Proof. destruct r as [r s]. cbn. by intros ->. Qed.

Lemma demo_open_ok : call_ok demo_open demo_state [] /\ run_call demo_open demo_state [] = Some (demo_opened, [10]).
Proof.
  split.
  - split; [vm_compute; reflexivity|]. split_and!; [by left|by left|apply demo_heap_ok].
  - unfold demo_open, demo_opened. cbn [run_call]. rewrite (after_value _ _ _ (Done (Ok (mkDescription 10 66 0 1 0)))); [reflexivity|vm_compute; reflexivity].
Qed.

Lemma demo_opened_reachable : fs_reachable demo_opened [10].
Proof. destruct demo_open_ok. by apply (fs_step demo_state [] demo_open); [apply demo_state_reachable|..]. Qed.

Lemma demo_open_file (s : @Vfs Pmm) : (fun x => (class x, is_directory x)) <$> inodes s !! 10 = Some (TmpfsInode, false) -> open_file s [10] 10.
Proof. intros E. split; [by left|]. destruct (inodes s !! 10) as [x|] eqn:Hx; [|done]. injection E as Hc Hd. by exists x. Qed.

Lemma demo_write_ok : call_ok demo_write demo_opened [10] /\ run_call demo_write demo_opened [10] = Some (demo_written, [10]).
Proof.
  split.
  - split; [vm_compute; reflexivity|]. split_and!; [apply demo_open_file; vm_compute; reflexivity|done|vm_compute; reflexivity].
  - unfold demo_write, demo_written. cbn [run_call]. rewrite (after_value _ _ _ (Done (Ok 2))); [reflexivity|vm_compute; reflexivity].
Qed.

Lemma demo_written_reachable : fs_reachable demo_written [10].
Proof. destruct demo_write_ok. by apply (fs_step demo_opened [10] demo_write); [apply demo_opened_reachable|..]. Qed.

(** ** What the file system promises *)





(** C9: In every reachable state the files of the tmpfs behave as strings of bytes.
    read returns the bytes asked for as far as the file goes, write lays its input
    over them and fills a gap with zeros, truncate cuts or extends with zeros, an
    open with O_TRUNC empties; a failing write or truncate leaves the bytes as they
    were, and no call changes a byte of any other file. *)
Theorem files_are_bytes {F} {FA : FrameAllocator F} (s : @Vfs F) held op s' held' :
  fs_reachable s held -> call_ok op s held -> run_call op s held = Some (s', held') -> call_bytes op s s'.
Proof. intros R Hok E. by apply (call_does op s held s' held' (reachable_vfs s held R)). Qed.

Lemma files_are_bytes_witness : call_ok demo_write demo_opened [10] /\ call_bytes demo_write demo_opened demo_written /\ fst (tmpfs_read 10 (PAGE_SIZE - 1) 9 demo_written) = Ok [0; 72; 105].
Proof.
  destruct demo_write_ok as [Hok E]. split_and!; [done|apply (files_are_bytes demo_opened [10] demo_write demo_written [10] demo_opened_reachable Hok E)|vm_compute; reflexivity].
Defined.


(** /etc/..//tmp *)
Definition BACK_TO_TMP : list Z := [SLASH] ++ ETC_NAME ++ [SLASH; 46; 46; SLASH; SLASH] ++ TMP_NAME.


(** The root of a mounted file system, by the path of the directory it covers. *)
Lemma mounted_resolves {F} {FA : FrameAllocator F} fs r (s1 s : @Vfs F) mounts c k nm f : stage fs r s1 s mounts -> (c, k) ∈ mounts -> place s r c [nm] -> ordinary nm ->
  filesystems s !! k = Some f -> forall base, resolve (SLASH :: nm) base s = (Ok (m_root f), s) /\ exists x, inodes s !! m_root f = Some x /\ class x = fs_class f /\ m_parent x = 0.
Proof.
  intros S Hin P Ho Hf base. pose proof (st_inv _ _ _ _ _ S) as Hv. pose proof (stage_root _ _ _ _ _ S) as Er. split.
  - assert (Hk : root_of s k = m_root f) by (unfold root_of; by rewrite Hf). assert (Rt : route s (m_root f) [nm]).
    { destruct (root_facts s [] Hv) as (rx & Hrx & Hp & _). destruct (root_inode_linked s [] Hv) as (rx' & Hrx' & Hu). rewrite Hrx in Hrx'. injection Hrx' as <-. rewrite Er in Hrx.
      destruct (place_inv s _ r rx (vfs_base s [] Hv) Hrx Hp Hu c _ P) as [[_ ?]|(_ & p & names & y & En & Pp & Hy & Hyp)]; [done|].
      destruct names as [|n1 [|]]; [|done|done]. injection En as ->. destruct (place_inv s _ r rx (vfs_base s [] Hv) Hrx Hp Hu p _ Pp) as [[E1 _]|(_ & ? & ns & ? & E2 & _)]; [|by destruct ns]. rewrite <- Hk, <- (stage_follow _ _ _ _ _ _ _ S Hin).
      apply (route_child s p []); [|done|done]. rewrite E1, <- Er. constructor. }
    pose proof (resolve_route s [] Hv (m_root f) [nm] base Rt ltac:(by constructor)) as E. unfold path_of in E. rewrite bool_decide_eq_false_2 in E by done. cbn in E. by rewrite app_nil_r in E.
  - pose proof (mo_base _ _ _ _ (v_fs _ _ Hv)) as B. destruct (b_root _ _ B k f Hf) as (n & Hn & Hp & _ & _ & Hs). destruct (b_fs _ _ B _ n Hn) as (g & Hg & Hc).
    apply tree_lookup_inv in Hn as (x & Hx & ->). exists x. split_and!; [done| |done]. cbn in Hs, Hc, Hg. congruence.
Qed.

(** What an archive member's path leads to while no mount is in the way. *)
Lemma member_resolves {F} {FA : FrameAllocator F} fs r (s1 s : @Vfs F) l i j fs2 fs3 m a : tree_holds [] fs r s1 l -> stage fs r s1 s [(i, fs2); (j, fs3)] -> place s r i [TMP_NAME] -> place s r j [DEV_NAME] ->
  (m, a) ∈ l -> Forall ordinary (member_names m) -> head (member_names m) <> Some TMP_NAME -> head (member_names m) <> Some DEV_NAME ->
  exists k x, (forall base, resolve (path_of (member_names m)) base s = (Ok k, s)) /\ inodes s !! k = Some x /\ class x = UstarInode /\ recorded (m, a) x.
Proof.
  intros Hh S Pi Pj Hin Ho N1 N2. destruct (ramdisk_place fs r s1 s l (m, a) Hh (st_keeps _ _ _ _ _ S) Hin) as (k & x & Pk & Hx & Hrec & Hc & _). exists k, x. split_and!; try done. intros base.
  apply (stage_resolve fs r s1 l s [(i, fs2); (j, fs3)] k _ base Hh S Ho Pk). intros c q Hc2 nms Pc Hne [rest Epre].
  pose proof (st_inv _ _ _ _ _ S) as Hv. destruct (root_facts s [] Hv) as (rx & Hrx & Hp & _). destruct (root_inode_linked s [] Hv) as (rx' & Hrx' & Hu). rewrite Hrx in Hrx'. injection Hrx' as <-.
  rewrite (stage_root _ _ _ _ _ S) in Hrx. pose proof (place_names s _ r rx (vfs_base s [] Hv) Hrx Hp Hu) as Hpn. cbn [fst] in Epre.
  apply elem_of_cons in Hc2 as [[= -> ->]|[[= -> ->]|?%not_elem_of_nil]%elem_of_cons]; [|  |done].
  - rewrite (Hpn i _ _ Pc Pi) in Epre. by rewrite Epre in N1.
  - rewrite (Hpn j _ _ Pc Pj) in Epre. by rewrite Epre in N2.
Qed.

Lemma fit_tidy l m a : members_fit l -> (m, a) ∈ l -> tidy m.
Proof. induction l as [|[m1 a1] l IH]; intros Hfit Hin; [by apply not_elem_of_nil in Hin|]. destruct Hfit as (Ht & _ & Hfit). apply elem_of_cons in Hin as [[= -> ->]|Hin]; [done|by apply IH]. Qed.

(** A file of the archive, read through its inode. *)
Lemma member_reads {F} {FA : FrameAllocator F} (s : @Vfs F) i x base members rest m a : inodes s !! i = Some x -> recorded (m, a) x -> directory m = false ->
  (m, a) ∈ placed base members -> mem_load (mem s) base (zlen (archive members rest)) = archive members rest ->
  forall offset length, 0 <= offset -> 0 <= length -> UstarInode_read i offset length s = (Ok (take (Z.to_nat length) (drop (Z.to_nat offset) (content m))), s).
Proof.
  intros Hx Hrec Hd Hin Hm. unfold recorded in Hrec. cbn in Hrec. rewrite Hd in Hrec. destruct Hrec as (Ht & Ha & Hs).
  pose proof (placed_range rest members base) as Hr. rewrite Forall_forall in Hr. destruct (Hr _ Hin) as [H1 H2].
  pose proof (placed_content members rest [] base) as Hc. change (zlen []) with 0 in Hc. rewrite Z.add_0_r in Hc. rewrite Forall_forall in Hc. specialize (Hc _ Hin). cbn [fst snd app] in H1, H2, Hc.
  apply (ramdisk_read s i x base (zlen (archive members rest)) a); try done. by rewrite Hm.
Qed.

(** C11: Given an archive of well-formed members where the boot loader says the initial
    ramdisk is, mount_boot_filesystems succeeds, and afterwards the tree is the
    archive: the path of every member that no mount covers resolves to an inode of
    the member's type, and reading the inode of a file returns the file's bytes.
    /tmp resolves to the root of the tmpfs and /dev to that of the devfs. *)
Theorem initrd_is_mounted {F} {FA : FrameAllocator F} (heap : @Vfs F -> KernelHeap) (s : @Vfs F) modules b initrd members rest fs1 fs2 fs3 :
  (forall s, heap_ok (heap s) s) -> (forall s, is_Some (inode_memory (heap s)) /\ children_room (heap s) = true) ->
  boot_image_ok s modules b initrd members rest fs1 fs2 fs3 ->
  exists s', mount_boot_filesystems heap modules b s = (Ok tt, s') /\ fs_reachable s' []
  /\ (forall m other, (m, other) ∈ members -> head (member_names m) <> Some TMP_NAME -> head (member_names m) <> Some DEV_NAME ->
       exists i x, (forall base, resolve (path_of (member_names m)) base s' = (Ok i, s')) /\ inodes s' !! i = Some x /\ class x = UstarInode /\ m_type x = type_of m
       /\ (directory m = false -> forall offset length, 0 <= offset -> 0 <= length ->
             UstarInode_read i offset length s' = (Ok (take (Z.to_nat length) (drop (Z.to_nat offset) (content m))), s')))
  /\ (forall base, exists t d x y, resolve TMP_PATH base s' = (Ok t, s') /\ inodes s' !! t = Some x /\ class x = TmpfsInode /\ m_parent x = 0
       /\ resolve DEV_PATH base s' = (Ok d, s') /\ inodes s' !! d = Some y /\ class y = DevfsInode /\ m_parent y = 0).
Proof.
  intros Hh Hr B. destruct (boot_stages heap Hh Hr s modules b initrd members rest fs1 fs2 fs3 B) as (r & s1 & s' & i & j & E & Em & Ht & S & Pi & Pj & (f2 & Hf2 & Hc2) & (f3 & Hf3 & Hc3)).
  exists s'. split_and!; [done|apply fs_boot; by exists heap, modules, b, s, initrd, members, rest, fs1, fs2, fs3| |].
  - intros m other Hin N1 N2. destruct (placed_in m other members (phys_start initrd) Hin) as [a Ha].
    pose proof (fit_tidy _ m a (proj2 (bo_members _ _ _ _ _ _ _ _ _ B)) Ha) as (Ho & _).
    destruct (member_resolves fs1 r s1 s' _ i j fs2 fs3 m a Ht S Pi Pj (rev_in _ _ Ha) Ho N1 N2) as (k & x & Hk & Hx & Hc & Hrec). exists k, x. split_and!; [done|done|done| |].
    + unfold recorded, type_of in *. cbn in Hrec. destruct (directory m); [done|by destruct Hrec].
    + intros Hd. apply (member_reads s' k x (phys_start initrd) members rest m a); try done. destruct (st_keeps _ _ _ _ _ S) as [-> _]. rewrite Em. apply (bo_memory _ _ _ _ _ _ _ _ _ B).
  - intros base. destruct (mounted_resolves fs1 r s1 s' _ i fs2 TMP_NAME f2 S ltac:(by left) Pi ordinary_tmp Hf2 base) as (E1 & x & Hx & Hcx & Hpx).
    destruct (mounted_resolves fs1 r s1 s' _ j fs3 DEV_NAME f3 S ltac:(right; by left) Pj ordinary_dev Hf3 base) as (E2 & y & Hy & Hcy & Hpy).
    exists (m_root f2), (m_root f3), x, y. split_and!; try done; congruence.
Qed.

Lemma initrd_is_mounted_witness : exists s', mount_boot_filesystems demo_kernel_heap demo_modules demo_memory demo_start = (Ok tt, s')
  /\ exists i, resolve (path_of [ETC_NAME; MOTD_NAME]) 0 s' = (Ok i, s') /\ UstarInode_read i 1 100 s' = (Ok [105; 10], s').
Proof.
  destruct (initrd_is_mounted demo_kernel_heap demo_start demo_modules demo_memory _ demo_members [] 1 2 3 demo_heap_ok demo_room demo_boot_ok) as (s' & E & _ & Hm & _).
  exists s'. split; [done|]. destruct (Hm demo_file (fun _ => 0)) as (i & x & Hi & _ & _ & _ & Hread); [right; right; by left|done|done|].
  exists i. split; [apply (Hi 0)|]. by rewrite (Hread eq_refl 1 100).
Defined.

(** ** Where the promises end *)

Lemma physical_page_inv {F} {FA : FrameAllocator F} h i x offset (s : @Vfs F) page s1 : inodes s !! i = Some x -> tmpfs_physical_page h i offset false s = (Ok page, s1) ->
  s1 = s /\ m_pages x !! Z.to_nat (offset / PAGE_SIZE) = Some page.
Proof.
  intros Hx. unfold tmpfs_physical_page. rewrite (try_deref i x) by done. destruct (is_directory x); [done|]. rewrite mtry_mok, (try_deref i x) by done. destruct (_ <=? _); [done|].
  unfold page_at. destruct (m_pages x !! _); [|done]. by intros [= <- <-].
Qed.

(** truncate gives back the frame behind a page that physical_page has handed out
    for mmap, although the interface promises the frame for as long as the inode
    lives: after a cut below the page the frame is free to be allocated again. *)
Theorem truncate_frees_mapped_page {F} {FA : FrameAllocator F} (s : @Vfs F) held h1 h2 i x offset size page s1 s2 :
  fs_reachable s held -> open_file s held i -> inodes s !! i = Some x -> 0 <= offset -> tmpfs_physical_page h1 i offset false s = (Ok page, s1) ->
  0 <= size < m_size x -> pages_for size <= offset / PAGE_SIZE -> tmpfs_truncate h2 i size s1 = (Ok tt, s2) ->
  fa_owned (frames s) page /\ ~ fa_owned (frames s2) page.
Proof.
  intros R (_ & x0 & Hx0 & Hc & Hd) Hx Ho Ep Hs Hp Et. rewrite Hx in Hx0. injection Hx0 as <-. pose proof (reachable_vfs s held R) as H. destruct (v_files _ _ H) as [P Z0].
  pose proof (files_lookup s i x Hx) as Hf. destruct (physical_page_inv h1 i x offset s page s1 Hx Ep) as [-> Epg]. split; [apply (p_owned _ _ P i _ page Hf); by apply (list_elem_of_lookup_2 _ (Z.to_nat (offset / PAGE_SIZE)))|].
  destruct (p_size _ _ P i _ Hf Hc) as [_ Hsz]. cbn in Hsz. pose proof (truncate_at h2 s i x size (conj P Z0) Hx Hc Hd ltac:(lia)) as Ht. rewrite Et in Ht. destruct Ht as (x' & _ & _ & Hfree).
  apply Hfree; [|lia]. apply (list_elem_of_lookup_2 _ (Z.to_nat (offset / PAGE_SIZE) - Z.to_nat (pages_for size))). rewrite lookup_drop. rewrite <- Epg. f_equal. lia.
Qed.

Lemma truncate_frees_mapped_page_witness : exists page s2, fst (tmpfs_physical_page (demo_kernel_heap demo_written) 10 PAGE_SIZE false demo_written) = Ok page
  /\ tmpfs_truncate (demo_kernel_heap demo_written) 10 1 demo_written = (Ok tt, s2) /\ fa_owned (frames demo_written) page /\ ~ fa_owned (frames s2) page.
Proof.
  assert (Ex : m_size <$> inodes demo_written !! 10 = Some (PAGE_SIZE + 2)) by (vm_compute; reflexivity). destruct (inodes demo_written !! 10) as [x|] eqn:Hx; [|done]. injection Ex as Ex.
  destruct (tmpfs_physical_page (demo_kernel_heap demo_written) 10 PAGE_SIZE false demo_written) as [r s1] eqn:Ep.
  assert (Er : match r with Ok _ => true | _ => false end = true) by (change r with (fst (r, s1)); rewrite <- Ep; vm_compute; reflexivity). destruct r as [page|e|]; [|done|done].
  destruct (physical_page_inv _ 10 x PAGE_SIZE demo_written page s1 Hx Ep) as [-> _]. exists page, (snd (tmpfs_truncate (demo_kernel_heap demo_written) 10 1 demo_written)).
  assert (Et : tmpfs_truncate (demo_kernel_heap demo_written) 10 1 demo_written = (Ok tt, snd (tmpfs_truncate (demo_kernel_heap demo_written) 10 1 demo_written))) by (apply result_of; vm_compute; reflexivity).
  split; [reflexivity|]. split; [exact Et|].
  apply (truncate_frees_mapped_page demo_written [10] (demo_kernel_heap demo_written) (demo_kernel_heap demo_written) 10 x PAGE_SIZE 1 page demo_written _ demo_written_reachable).
  - apply demo_open_file. vm_compute. reflexivity.
  - exact Hx.
  - unfold PAGE_SIZE. lia.
  - exact Ep.
  - rewrite Ex. unfold PAGE_SIZE. lia.
  - vm_compute. congruence.
  - exact Et.
Defined.

(** A process whose working directory has been removed: mkdir /tmp/a; cd /tmp/a;
    rmdir /tmp/a; mkdir b; cd b. *)
Definition TMP_A : list Z := TMP_PATH ++ [SLASH; 97].
Definition B_NAME : list Z := [98].

Definition with_demo_heap {A} (f : KernelHeap -> M (@Vfs Pmm) A) : M (@Vfs Pmm) A := fun s => f (demo_kernel_heap s) s.

Definition removed_directory_calls : M (@Vfs Pmm) Z :=
  with_demo_heap (fun h => sys_mkdir h TMP_A 0x1FF 0 0) ;!
  let! a := vfs_chdir TMP_A 0 in
  sys_unlink_common TMP_A a true ;!
  with_demo_heap (fun h => sys_mkdir h B_NAME 0x1FF 0 a) ;!
  vfs_chdir B_NAME a.

(** A directory can be created in one that has been removed but is still somebody's
    working directory.  Leaving the removed directory then frees it while its child
    goes on pointing at it, and the next call that climbs from the child, getcwd
    here, dereferences the freed inode: the condition on the starting directory in
    [call_ok] is one the code does not check. *)
Theorem mkdir_in_removed_directory : fs_reachable demo_state [] /\ exists b s, removed_directory_calls demo_state = (Ok b, s) /\ fst (sys_getcwd b PATH_MAX_LENGTH s) = Panic.
Proof.
  split; [apply demo_state_reachable|]. exists 11, (snd (removed_directory_calls demo_state)). split; [apply result_of|]; vm_compute; reflexivity.
Qed.

(** A process asleep in open on a FIFO while another removes the name. *)
Definition removed_fifo_calls : M (@Vfs Pmm) (Z * Z) :=
  with_demo_heap (fun h => sys_mkfifo h TMP_F 0x1A4 0 0) ;!
  let! b := with_demo_heap (fun h => open h false TMP_F O_RDONLY 0 0) in
  match b with
  | WaitOn sleeping => sys_unlink_common TMP_F 0 false ;! mok sleeping
  | Done _ => merr 0
  end.

(** The sleeping open holds no reference, so the inode is gone when it wakes: the
    condition on a resumed open in [call_ok] is one the code does not see to. *)
Lemma open_sleeps_on_removed_fifo : exists i arrivals s, removed_fifo_calls demo_state = (Ok (i, arrivals), s) /\ fst (open_resume (demo_kernel_heap s) false i O_RDONLY arrivals s) = Panic.
Proof.
  exists 10, 0, (snd (removed_fifo_calls demo_state)). split; [apply result_of|]; vm_compute; reflexivity.
Qed.
