(* ===== verification/Descriptions.v ===== *)
(** * Open files: position, directory listing, devices

    The FileDescription operations of kernel/fs/vfs.cpp (read, write, seek,
    get_directory_entries), what they reach through the virtual functions of an
    inode (the tmpfs, the initial ramdisk, the devices of kernel/fs/devfs.cpp),
    stat, and opendir's buffer with readdir of user/libc/src/dirent.c. *)

From S2P Require Import Prelude Kstd Physical Pipe Files Paths Vfs Trees Tmpfs VfsTree VfsCalls VfsPaths Ustar Archive BootTree FileSystem.

(** ** File types *)

Definition S_IFIFO : Z := 0x1000.
Definition S_IFCHR : Z := 0x2000.
Definition S_IFDIR : Z := 0x4000.
Definition S_IFBLK : Z := 0x6000.
Definition S_IFREG : Z := 0x8000.
Definition S_IFLNK : Z := 0xA000.

Definition mode_bits_for (type : InodeType) : Z :=
  match type with
  | Regular => S_IFREG
  | Directory => S_IFDIR
  | CharacterDevice => S_IFCHR
  | BlockDevice => S_IFBLK
  | Fifo => S_IFIFO
  | SymbolicLink => S_IFLNK
  end.

Definition dirent_type_for (type : InodeType) : Z :=
  match type with
  | Regular => 8
  | Directory => 4
  | CharacterDevice => 2
  | BlockDevice => 6
  | Fifo => 1
  | SymbolicLink => 10
  end.

(** ** Devices

    A driver's table: read answers a count and what it put in the buffer, write a
    count; a negative count is an error number.  The driver's instance pointer is
    part of the table. *)
Record DeviceOps := mkOps {
  ops_read : option (Z -> Z -> Z * list Z);
  ops_write : option (list Z -> Z -> Z);
  ops_ioctl : option (Z -> Z -> Z);
  ops_poll_readable : option bool;
}.

Definition null_read (length offset : Z) : Z * list Z := (0, []).
Definition null_write (input : list Z) (offset : Z) : Z := zlen input.
Definition zero_read (length offset : Z) : Z * list Z := (length, replicate (Z.to_nat length) 0).

Definition NULL_OPS : DeviceOps := mkOps (Some null_read) (Some null_write) None None.
Definition ZERO_OPS : DeviceOps := mkOps (Some zero_read) (Some null_write) None None.

(** struct stat, the fields the kernel sets to other than zero. *)
Record Stat := mkStat {
  st_ino : Z;
  st_mode : Z;
  st_nlink : Z;
  st_size : Z;
  st_blksize : Z;
  st_blocks : Z;
  st_atime : Z;
  st_mtime : Z;
  st_ctime : Z;
}.

Section Descriptions.
Context {F : Type} {FA : FrameAllocator F}.

(** The tables the drivers have registered, by address. *)
Variable devices : Z -> DeviceOps.

Definition DevfsInode_read (i offset length : Z) : M (@Vfs F) (list Z) :=
  let! x := deref i in
  if is_directory x then merr EISDIR
  else if m_unlinked x then merr ENODEV
  else if m_ops x =? 0 then merr ENOTSUP
  else
    match ops_read (devices (m_ops x)) with
    | None => merr ENOTSUP
    | Some read =>
        let '(result, buffer) := read length offset in
        if result <? 0 then merr (i32 (- result)) else mok (take (Z.to_nat result) buffer)
    end.

Definition DevfsInode_write (i offset : Z) (input : list Z) : M (@Vfs F) Z :=
  let! x := deref i in
  if is_directory x then merr EISDIR
  else if m_unlinked x then merr ENODEV
  else if m_ops x =? 0 then merr ENOTSUP
  else
    match ops_write (devices (m_ops x)) with
    | None => merr ENOTSUP
    | Some write =>
        let result := write input offset in
        if result <? 0 then merr (i32 (- result)) else mok result
    end.

Definition DevfsInode_ioctl (i request argument : Z) : M (@Vfs F) Z :=
  let! x := deref i in
  if m_unlinked x then merr ENODEV
  else if m_ops x =? 0 then merr ENOTTY
  else
    match ops_ioctl (devices (m_ops x)) with
    | None => merr ENOTTY
    | Some ioctl =>
        let result := ioctl request argument in
        if result <? 0 then merr (- result) else mok result
    end.

Definition DevfsInode_can_read_without_blocking (x : Inode) : bool :=
  if m_ops x =? 0 then true
  else match ops_poll_readable (devices (m_ops x)) with None => true | Some ready => ready end.

(** ** The virtual functions *)

Definition Inode_read (pending : bool) (i offset length : Z) : M (@Vfs F) (Blocking unit (list Z)) :=
  let! x := deref i in
  match class x with
  | TmpfsInode => TmpfsInode_read pending i offset length
  | UstarInode => let! bytes := UstarInode_read i offset length in mok (Done (Ok bytes))
  | DevfsInode => let! bytes := DevfsInode_read i offset length in mok (Done (Ok bytes))
  end.

(** The initial ramdisk keeps the default, which refuses. *)
Definition Inode_write (h : KernelHeap) (pending : bool) (i offset : Z) (rest : list Z) (written : Z) :
    M (@Vfs F) (Blocking (list Z * Z) Z) :=
  let! x := deref i in
  match class x with
  | TmpfsInode => TmpfsInode_write h pending i offset rest written
  | UstarInode => merr EROFS
  | DevfsInode => let! n := DevfsInode_write i offset rest in mok (Done (Ok n))
  end.

Definition Inode_stat (i : Z) : M (@Vfs F) Stat :=
  let! x := deref i in
  mok (mkStat (m_inode_number x) (Z.lor (mode_bits_for (m_type x)) (Z.land (m_mode x) 0xFFF)) 1 (i64 (m_size x)) PAGE_SIZE
    (i64 (div_round_up (m_size x) 512)) (m_access_time x) (m_modify_time x) (m_change_time x)).

(** ** FileDescription

    One description beside the file system; its position and directory index are
    its own. *)
Definition Open : Type := @Vfs F * FileDescription.

Definition on_vfs {A} (m : M (@Vfs F) A) : M Open A := fun '(s, d) => let '(r, s') := m s in (r, (s', d)).
Definition upd_description (f : FileDescription -> FileDescription) : M Open unit := mmod (fun '(s, d) => (s, f d)).

Definition with_offset (offset : Z) (d : FileDescription) : FileDescription :=
  mkDescription (m_inode d) (m_flags d) offset (Files.m_reference_count d) (m_directory_index d).
Definition with_directory_index (index : Z) (d : FileDescription) : FileDescription :=
  mkDescription (m_inode d) (m_flags d) (m_offset d) (Files.m_reference_count d) index.
Definition advance (n : Z) (d : FileDescription) : FileDescription := with_offset (u64 (m_offset d + n)) d.

Definition is_readable (d : FileDescription) : bool := negb (Z.land (m_flags d) O_ACCMODE =? O_WRONLY).
Definition is_writable (d : FileDescription) : bool := negb (Z.land (m_flags d) O_ACCMODE =? O_RDONLY).

Definition FileDescription_read (pending : bool) (length : Z) : M Open (Blocking unit (list Z)) :=
  let! sd := mget in
  let d := snd sd in
  if negb (is_readable d) then merr EBADF
  else
    let! x := on_vfs (deref (m_inode d)) in
    if is_directory x then merr EISDIR
    else
      let! b := on_vfs (Inode_read pending (m_inode d) (m_offset d) length) in
      (match b with Done (Ok bytes) => upd_description (advance (zlen bytes)) | _ => mok tt end) ;!
      mok b.

(** [O_APPEND] moves the position before the write, and leaves it moved if the
    write fails. *)
Definition FileDescription_write (h : KernelHeap) (pending : bool) (rest : list Z) (written : Z) :
    M Open (Blocking (list Z * Z) Z) :=
  let! sd := mget in
  let d := snd sd in
  if negb (is_writable d) then merr EBADF
  else
    let! x := on_vfs (deref (m_inode d)) in
    if is_directory x then merr EISDIR
    else
      (if flag_set (m_flags d) O_APPEND then upd_description (with_offset (m_size x)) else mok tt) ;!
      let! sd := mget in
      let! b := on_vfs (Inode_write h pending (m_inode d) (m_offset (snd sd)) rest written) in
      (match b with Done (Ok n) => upd_description (advance n) | _ => mok tt end) ;!
      mok b.

Definition SEEK_SET : Z := 0.
Definition SEEK_CUR : Z := 1.
Definition SEEK_END : Z := 2.

Definition FileDescription_seek (offset whence : Z) : M Open Z :=
  let! sd := mget in
  let d := snd sd in
  let! x := on_vfs (deref (m_inode d)) in
  let! base := (if whence =? SEEK_SET then mok 0
                else if whence =? SEEK_CUR then mok (i64 (m_offset d))
                else if whence =? SEEK_END then mok (i64 (m_size x))
                else merr EINVAL) in
  let target := i64 (base + offset) in
  if target <? 0 then merr EINVAL
  else
    upd_description (with_offset target) ;!
    (if is_directory x && (target =? 0) then upd_description (with_directory_index 0) else mok tt) ;!
    mok target.

(** *** Directory entries

    struct dirent: an inode number, the length of the record, a type and the name
    with its terminator.  The name starts at byte 11, and sizeof is 16. *)
Definition SIZEOF_DIRENT : Z := 16.
Definition NAME_OFFSET : Z := 11.

Definition record_length (e : DirectoryEntry) : Z := align_up (SIZEOF_DIRENT + zlen (entry_name e) + 1) 8.

(** The bytes of a record that are written; the rest of it is not. *)
Definition record_bytes (e : DirectoryEntry) : list Z :=
  Z_to_little_endian 8 8 (entry_number e) ++ Z_to_little_endian 2 8 (record_length e) ++ [dirent_type_for (entry_type e)] ++ entry_name e ++ [0].

Fixpoint entries_loop (fuel : nat) (capacity written : Z) (out : list Z) : M Open (Z * list Z) :=
  match fuel with
  | O => mpanic
  | S fuel' =>
      let! sd := mget in
      let d := snd sd in
      let! entry := on_vfs (read_directory (m_inode d) (m_directory_index d)) in
      match entry with
      | None => mok (written, out)
      | Some e =>
          if capacity <? written + record_length e then
            (if written =? 0 then merr EINVAL else mok (written, out))
          else
            upd_description (with_directory_index (m_directory_index d + 1)) ;!
            entries_loop fuel' capacity (written + record_length e) (splice out written (record_bytes e))
      end
  end.

(** A record takes at least one byte of the buffer. *)
Definition get_directory_entries (buffer : list Z) (capacity : Z) : M Open (Z * list Z) :=
  let! sd := mget in
  let! x := on_vfs (deref (m_inode (snd sd))) in
  if negb (is_directory x) then merr ENOTDIR
  else entries_loop (Z.to_nat capacity + 2) capacity 0 buffer.

(** [scratch] is the memory kmalloc answers with, whatever is in it; the bytes
    returned are those copied to the caller. *)
Definition sys_getdents (scratch : option (list Z)) (length : Z) : M Open (list Z) :=
  match scratch with
  | None => merr ENOMEM
  | Some scratch =>
      let! written := get_directory_entries scratch (Z.min length (16 * 1024)) in
      mok (take (Z.to_nat (fst written)) (snd written))
  end.

(** ** readdir

    The library's buffer beside the open file. *)
Definition DIRENT_BUFFER : Z := 2048.

Record DIR := mkDir { dir_buffer : list Z; available : Z; position : Z }.

(** What opendir makes. *)
Definition opendir_buffer (memory : list Z) : DIR := mkDir memory 0 0.

(** The fields of the record at [p]. *)
Definition d_ino (buffer : list Z) (p : Z) : Z := little_endian_to_Z 8 (slice buffer p 8).
Definition d_reclen (buffer : list Z) (p : Z) : Z := little_endian_to_Z 8 (slice buffer (p + 8) 2).
Definition d_type (buffer : list Z) (p : Z) : Z := zget 0 buffer (p + 10).
Definition d_name (buffer : list Z) (p : Z) : list Z := until_nul (drop (Z.to_nat (p + NAME_OFFSET)) buffer).

(** The result is where in the buffer the entry is.  [memory] is what kmalloc
    answers the system call with. *)
Definition readdir (memory : option (list Z)) : M (Open * DIR) (option Z) := fun '(o, dir) =>
  let found (o : Open) (dir : DIR) :=
    (Ok (Some (position dir)), (o, mkDir (dir_buffer dir) (available dir) (position dir + d_reclen (dir_buffer dir) (position dir)))) in
  if available dir <=? position dir then
    match sys_getdents memory DIRENT_BUFFER o with
    | (Ok bytes, o') => if zlen bytes =? 0 then (Ok None, (o', dir)) else found o' (mkDir (splice (dir_buffer dir) 0 bytes) (zlen bytes) 0)
    | (Err e, o') => (Err e, (o', dir))
    | (Panic, o') => (Panic, (o', dir))
    end
  else found o dir.

Definition rewinddir : M (Open * DIR) unit := fun '(o, dir) =>
  let '(_, o') := FileDescription_seek 0 SEEK_SET o in (Ok tt, (o', mkDir (dir_buffer dir) 0 0)).

(** What a loop around readdir sees, until it answers nothing. *)
Fixpoint list_directory (fuel : nat) (memory : nat -> option (list Z)) : M (Open * DIR) (list (Z * Z * list Z)) :=
  match fuel with
  | O => mpanic
  | S fuel' =>
      let! entry := readdir (memory fuel') in
      match entry with
      | None => mok []
      | Some p =>
          let! od := mget in
          let buffer := dir_buffer (snd od) in
          let seen := (d_ino buffer p, d_type buffer p, d_name buffer p) in
          let! rest := list_directory fuel' memory in
          mok (seen :: rest)
      end
  end.
End Descriptions.

(** ** What a directory lists *)

Section Listing.
Context {F : Type} {FA : FrameAllocator F}.
Implicit Types (s : @Vfs F) (x y : Inode) (e : DirectoryEntry) (es : list DirectoryEntry).

Definition child_entry s c : DirectoryEntry :=
  match inodes s !! c with Some y => mkEntry (strncpy (m_name y) (FILENAME_MAX_LENGTH - 1)) (m_inode_number y) (m_type y) | None => mkEntry [] 0 Regular end.
Definition parent_number s x : Z := match inodes s !! m_parent x with Some p => m_inode_number p | None => m_inode_number x end.
Definition listing s x : list DirectoryEntry :=
  mkEntry DOT (m_inode_number x) Directory :: mkEntry DOTDOT (parent_number s x) Directory :: (child_entry s <$> m_children x).

Lemma read_directory_at s held i x index : vfs_inv s held -> inodes s !! i = Some x -> is_directory x = true -> 0 <= index ->
  read_directory i index s = (Ok (listing s x !! Z.to_nat index), s).
Proof.
  intros H Hx Hd Hi. unfold read_directory. rewrite (try_deref i x), Hd by done. cbn [negb]. pose proof (v_tree _ _ H) as T. pose proof (tree_lookup s i x Hx) as Hn.
  destruct (Z.eqb_spec index 0) as [->|H0]; [done|]. destruct (Z.eqb_spec index 1) as [->|H1].
  - change (listing s x !! Z.to_nat 1) with (Some (mkEntry DOTDOT (parent_number s x) Directory)). unfold parent_number. destruct (Z.eqb_spec (m_parent x) 0) as [E|E].
    + rewrite E. destruct (inodes s !! 0) as [p|] eqn:Hp; [|done]. pose proof (t_null _ _ T) as Hz. by rewrite (tree_lookup s 0 p Hp) in Hz.
    + destruct (t_parent _ _ T i _ Hn E) as [n Hpn]. cbn in Hpn. apply tree_lookup_inv in Hpn as (p & Hp & _). by rewrite (try_deref _ p), Hp.
  - replace (Z.to_nat index) with (S (S (Z.to_nat (index - 2)))) by lia. change (listing s x !! S (S ?k)) with ((child_entry s <$> m_children x) !! k). rewrite list_lookup_fmap.
    destruct (m_children x !! Z.to_nat (index - 2)) as [c|] eqn:Ec; [|done]. cbn [fmap option_fmap option_map].
    destruct (proj1 (t_link _ _ T i c _ Hn) ltac:(by apply (list_elem_of_lookup_2 _ (Z.to_nat (index - 2))))) as (m & Hm & _). apply tree_lookup_inv in Hm as (y & Hy & _).
    unfold child_entry. by rewrite (try_deref c y), Hy.
Qed.

(** Names are short, so that every record fits the library's buffer. *)
Definition entry_ok e : Prop := zlen (entry_name e) < FILENAME_MAX_LENGTH /\ 0 ∉ entry_name e.

Lemma record_length_spec e : zlen (entry_name e) < FILENAME_MAX_LENGTH ->
  record_length e mod 8 = 0 /\ SIZEOF_DIRENT + zlen (entry_name e) + 1 <= record_length e < SIZEOF_DIRENT + zlen (entry_name e) + 9.
Proof.
  intros Hl. unfold record_length, align_up, SIZEOF_DIRENT, FILENAME_MAX_LENGTH in *. pose proof (zlen_nonneg (entry_name e)). change (u64 (Z.lnot (8 - 1))) with (u64 (Z.lnot (2 ^ 3 - 1))).
  assert (Hu : is_u64 (16 + zlen (entry_name e) + 1 + 8 - 1)) by (unfold is_u64; lia). rewrite u64_small by done. rewrite land_lnot_low by (done || lia). change (2 ^ 3) with 8. split; [apply Z.mod_mul; lia|].
  pose proof (Z.div_mod (16 + zlen (entry_name e) + 1 + 8 - 1) 8 ltac:(lia)). pose proof (Z.mod_pos_bound (16 + zlen (entry_name e) + 1 + 8 - 1) 8 ltac:(lia)). lia.
Qed.

Lemma record_bytes_length e : zlen (record_bytes e) = NAME_OFFSET + zlen (entry_name e) + 1.
Proof. unfold record_bytes, NAME_OFFSET. rewrite !zlen_app. unfold zlen. rewrite !length_Z_to_little_endian by lia. cbn [length]. lia. Qed.

(** The records that fit, one after the other. *)
Fixpoint fitting (capacity written : Z) es : list DirectoryEntry :=
  match es with
  | [] => []
  | e :: es => if capacity <? written + record_length e then [] else e :: fitting capacity (written + record_length e) es
  end.

Fixpoint total es : Z := match es with [] => 0 | e :: es => record_length e + total es end.

Fixpoint pack (out : list Z) (written : Z) es : list Z :=
  match es with [] => out | e :: es => pack (splice out written (record_bytes e)) (written + record_length e) es end.

Lemma fitting_total capacity : forall es written, written <= capacity -> Forall (fun e => 0 <= record_length e) es -> written + total (fitting capacity written es) <= capacity.
Proof.
  induction es as [|e es IH]; intros written Hw Hes; cbn [fitting total]; [lia|]. apply Forall_cons in Hes as [He Hes]. destruct (Z.ltb_spec capacity (written + record_length e)); cbn [total]; [lia|].
  specialize (IH (written + record_length e) ltac:(lia) Hes). lia.
Qed.

Lemma fitting_prefix capacity : forall es written, exists later, es = fitting capacity written es ++ later.
Proof.
  induction es as [|e es IH]; intros written; cbn [fitting]; [by exists []|]. destruct (_ <? _); [by exists (e :: es)|]. destruct (IH (written + record_length e)) as [later E]. exists later. cbn. by rewrite <- E.
Qed.

Lemma entries_loop_spec fuel capacity : forall s held x d written out, vfs_inv s held -> inodes s !! m_inode d = Some x -> is_directory x = true -> 0 <= m_directory_index d ->
  Forall entry_ok (listing s x) -> 0 <= written <= capacity -> capacity - written + 2 <= Z.of_nat fuel ->
  entries_loop fuel capacity written out (s, d) =
    let left := drop (Z.to_nat (m_directory_index d)) (listing s x) in
    let es := fitting capacity written left in
    if (written =? 0) && bool_decide (es = []) && negb (bool_decide (left = [])) then (Err EINVAL, (s, d))
    else (Ok (written + total es, pack out written es), (s, with_directory_index (m_directory_index d + zlen es) d)).
Proof.
  induction fuel as [|fuel IH]; intros s held x d written out H Hx Hd Hi Hok Hw Hf; [lia|]. cbn [entries_loop]. rewrite mtry_get. cbn [snd]. unfold mtry at 1, on_vfs at 1.
  rewrite (read_directory_at s held (m_inode d) x) by done. cbn zeta. destruct (listing s x !! Z.to_nat (m_directory_index d)) as [e|] eqn:Ee.
  - rewrite (drop_S _ _ _ Ee). cbn [fitting]. destruct (Z.ltb_spec capacity (written + record_length e)) as [Hc|Hc]; cbn [bool_decide].
    + destruct (Z.eqb_spec written 0) as [->|Hw0]; [by rewrite bool_decide_eq_true_2, bool_decide_eq_false_2 by done|]. cbn [andb total pack]. unfold mok. rewrite Z.add_0_r.
      change (zlen []) with 0. rewrite Z.add_0_r. by destruct d.
    + unfold upd_description. rewrite mtry_mod. pose proof (proj1 (Forall_lookup_1 _ _ _ _ Hok Ee)) as He. destruct (record_length_spec e He) as [_ Hr]. unfold SIZEOF_DIRENT in Hr. pose proof (zlen_nonneg (entry_name e)).
      rewrite (IH s held x) by (try done; cbn; lia). cbn zeta. cbn [m_directory_index with_directory_index]. replace (Z.to_nat (m_directory_index d + 1)) with (S (Z.to_nat (m_directory_index d))) by lia.
      destruct (Z.eqb_spec (written + record_length e) 0); [lia|]. rewrite (bool_decide_eq_false_2 (e :: _ = [])) by done. rewrite andb_false_r. cbn [andb total pack]. unfold zlen. cbn [length].
      f_equal; [f_equal; f_equal; lia|]. unfold with_directory_index. cbn. f_equal. f_equal. lia.
  - rewrite drop_ge by (by apply lookup_ge_None). cbn [fitting total pack]. rewrite !bool_decide_eq_true_2 by done. rewrite andb_false_r. unfold mok. change (zlen []) with 0. rewrite !Z.add_0_r. by destruct d.
Qed.

(** What the buffer holds afterwards: each record, filled up to its length with
    what was there before. *)
Fixpoint packed (out : list Z) (at_ : Z) es : list Z :=
  match es with
  | [] => []
  | e :: es => record_bytes e ++ slice out (at_ + zlen (record_bytes e)) (record_length e - zlen (record_bytes e)) ++ packed out (at_ + record_length e) es
  end.

Lemma splice_take out w l n : 0 <= w -> w + zlen l <= n -> n <= zlen out -> take (Z.to_nat n) (splice out w l) = take (Z.to_nat w) out ++ l ++ slice out (w + zlen l) (n - w - zlen l).
Proof.
  intros Hw Hn Ho. unfold splice, slice, zlen in *. rewrite !take_app, length_take, take_take, Nat.min_r, Nat.min_l by lia. f_equal. rewrite take_ge by lia. f_equal.
  f_equal; [lia|]. f_equal. lia.
Qed.

Lemma splice_drop out w l n : 0 <= w -> w + zlen l <= n -> n <= zlen out -> drop (Z.to_nat n) (splice out w l) = drop (Z.to_nat n) out.
Proof.
  intros Hw Hn Ho. unfold splice, zlen in *. rewrite !drop_app, length_take, Nat.min_l by lia. rewrite (drop_ge (take _ _)) by (rewrite length_take; lia). rewrite (drop_ge l) by lia. cbn [app].
  rewrite drop_drop. f_equal. lia.
Qed.

Lemma slice_drop (out : list Z) n a k : 0 <= n <= a -> slice out a k = slice (drop (Z.to_nat n) out) (a - n) k.
Proof. intros H. unfold slice. rewrite drop_drop. f_equal. f_equal. lia. Qed.

Lemma packed_ext n out out' : 0 <= n -> drop (Z.to_nat n) out = drop (Z.to_nat n) out' -> forall es a, n <= a -> Forall entry_ok es -> packed out a es = packed out' a es.
Proof.
  intros Hn E. induction es as [|e es IH]; intros a Ha Hes; cbn [packed]; [done|]. apply Forall_cons in Hes as [[He _] Hes]. destruct (record_length_spec e He) as [_ Hr]. pose proof (zlen_nonneg (entry_name e)). pose proof (zlen_nonneg (record_bytes e)).
  unfold SIZEOF_DIRENT in Hr. rewrite (IH (a + record_length e)) by (done || lia). rewrite (slice_drop out n), (slice_drop out' n), E by lia. done.
Qed.

Lemma record_room e : entry_ok e -> zlen (record_bytes e) <= record_length e /\ 0 < record_length e <= 144.
Proof.
  intros [He _]. destruct (record_length_spec e He) as [Hm Hr]. rewrite record_bytes_length. unfold SIZEOF_DIRENT, NAME_OFFSET, FILENAME_MAX_LENGTH in *. pose proof (zlen_nonneg (entry_name e)).
  split; [lia|]. split; [lia|]. pose proof (Z.div_mod (record_length e) 8 ltac:(lia)). lia.
Qed.

Lemma total_nonneg es : Forall entry_ok es -> 0 <= total es.
Proof. induction 1 as [|e es He _ IH]; cbn [total]; [lia|]. destruct (record_room e He). lia. Qed.

Lemma pack_spec es : forall out w, Forall entry_ok es -> 0 <= w -> w + total es <= zlen out ->
  pack out w es = take (Z.to_nat w) out ++ packed out w es ++ drop (Z.to_nat (w + total es)) out.
Proof.
  induction es as [|e es IH]; intros out w Hes Hw Ho; cbn [pack packed total]; [rewrite Z.add_0_r; cbn [app]; by rewrite take_drop|]. apply Forall_cons in Hes as [He Hes]. cbn [total] in Ho.
  destruct (record_room e He) as [Hr1 Hr2]. pose proof (zlen_nonneg (record_bytes e)). pose proof (total_nonneg es Hes).
  assert (Hlen : zlen (splice out w (record_bytes e)) = zlen out) by (unfold splice, zlen in *; rewrite !length_app, length_take, length_drop; lia).
  rewrite IH by (done || lia). rewrite (splice_take out w (record_bytes e) (w + record_length e)) by lia. rewrite (splice_drop out w (record_bytes e) (w + record_length e + total es)) by lia.
  rewrite (packed_ext (w + record_length e) (splice out w (record_bytes e)) out) by (done || lia || (apply splice_drop; lia)). rewrite <- !app_assoc.
  replace (w + record_length e - w - zlen (record_bytes e)) with (record_length e - zlen (record_bytes e)) by lia. by replace (w + (record_length e + total es)) with (w + record_length e + total es) by lia.
Qed.

Lemma packed_length es : forall out w, Forall entry_ok es -> 0 <= w -> w + total es <= zlen out -> zlen (packed out w es) = total es.
Proof.
  induction es as [|e es IH]; intros out w Hes Hw Ho; cbn [packed total]; [done|]. apply Forall_cons in Hes as [He Hes]. cbn [total] in Ho. destruct (record_room e He) as [Hr1 Hr2].
  pose proof (zlen_nonneg (record_bytes e)). pose proof (total_nonneg es Hes). rewrite !zlen_app, IH by (done || lia). unfold slice, zlen in *. rewrite length_take, length_drop. lia.
Qed.

(** *** Reading a record back *)

Definition seen e : Z * Z * list Z := (u64 (entry_number e), dirent_type_for (entry_type e), entry_name e).

Lemma until_nul_app l rest : 0 ∉ l -> until_nul (l ++ 0 :: rest) = l.
Proof. induction l as [|c l IH]; intros Hn; cbn; [done|]. apply not_elem_of_cons in Hn as [Hc Hn]. destruct (Z.eqb_spec c 0); [congruence|]. by rewrite IH. Qed.

Lemma record_back pre e rest p : entry_ok e -> zlen pre = p -> let buffer := pre ++ record_bytes e ++ rest in
  (d_ino buffer p, d_type buffer p, d_name buffer p) = seen e /\ d_reclen buffer p = record_length e.
Proof.
  intros He Hp buffer. destruct (record_room e He) as [_ Hr]. destruct He as [_ Hn]. set (a := Z_to_little_endian 8 8 (entry_number e)). set (b := Z_to_little_endian 2 8 (record_length e)).
  pose proof (length_Z_to_little_endian 8 8 (entry_number e) ltac:(lia)) as La. pose proof (length_Z_to_little_endian 2 8 (record_length e) ltac:(lia)) as Lb. fold a in La. fold b in Lb.
  assert (Eb : buffer = pre ++ a ++ b ++ dirent_type_for (entry_type e) :: entry_name e ++ 0 :: rest) by (unfold buffer, record_bytes; fold a b; rewrite <- !app_assoc; by cbn [app]).
  unfold seen, d_ino, d_type, d_name, d_reclen, NAME_OFFSET. rewrite Eb. split; [f_equal; [f_equal|]|].
  - rewrite <- (Z.add_0_r p), slice_at by (done || lia). unfold slice. change (Z.to_nat 0) with 0%nat. rewrite drop_0. rewrite take_app_length' by lia. unfold a. rewrite little_endian_to_Z_to_little_endian by lia. done.
  - unfold zget. rewrite lookup_app_r by (unfold zlen in *; lia). replace (Z.to_nat (p + 10) - length pre)%nat with (length a + (length b + 0))%nat by (unfold zlen in *; lia). rewrite lookup_app_r, Nat.add_comm, Nat.add_sub by lia. rewrite lookup_app_r by lia. by rewrite Nat.add_0_r, Nat.sub_diag.
  - rewrite drop_app, drop_ge by (unfold zlen in *; lia). replace (Z.to_nat (p + 11) - length pre)%nat with (length a + (length b + 1))%nat by (unfold zlen in *; lia). cbn [app]. rewrite drop_app_add', drop_app_add' by done. cbn [drop]. by apply until_nul_app.
  - rewrite slice_at by (done || lia). unfold slice. rewrite drop_app_length' by lia. rewrite take_app_length' by lia. unfold b. rewrite little_endian_to_Z_to_little_endian by lia. apply Z.mod_small. lia.
Qed.

Lemma listing_left s x d : Forall entry_ok (listing s x) -> Forall entry_ok (drop (Z.to_nat (m_directory_index d)) (listing s x)).
Proof. apply Forall_drop. Qed.

Lemma fitting_ok capacity w es : Forall entry_ok es -> Forall entry_ok (fitting capacity w es).
Proof. intros H. destruct (fitting_prefix capacity es w) as [later E]. rewrite E in H. by apply Forall_app in H as [? _]. Qed.

Lemma fitting_room capacity es : Forall entry_ok es -> 0 <= capacity -> 0 <= total (fitting capacity 0 es) <= capacity.
Proof.
  intros H Hc. split; [by apply total_nonneg, fitting_ok|]. change (0 + total (fitting capacity 0 es) <= capacity). apply fitting_total; [done|]. apply (Forall_impl _ _ _ H). intros e He. destruct (record_room e He). lia.
Qed.

(** One system call: the records that fit, from where the last one stopped. *)
Lemma getdents_at s held x d scratch n : vfs_inv s held -> inodes s !! m_inode d = Some x -> is_directory x = true -> 0 <= m_directory_index d -> Forall entry_ok (listing s x) ->
  0 <= n -> zlen scratch = Z.min n (16 * 1024) ->
  sys_getdents (Some scratch) n (s, d) =
    let left := drop (Z.to_nat (m_directory_index d)) (listing s x) in
    let es := fitting (Z.min n (16 * 1024)) 0 left in
    if bool_decide (es = []) && negb (bool_decide (left = [])) then (Err EINVAL, (s, d))
    else (Ok (packed scratch 0 es), (s, with_directory_index (m_directory_index d + zlen es) d)).
Proof.
  intros H Hx Hd Hi Hok Hn Hs. unfold sys_getdents, get_directory_entries. cbn zeta. set (cap := Z.min n (16 * 1024)) in *.
  assert (Ed : on_vfs (deref (m_inode d)) (s, d) = (Ok x, (s, d))) by (unfold on_vfs, deref; by rewrite Hx). unfold mtry at 1. rewrite mtry_get. cbn [snd]. rewrite (mtry_ok _ _ _ _ _ Ed), Hd. cbn [negb].
  rewrite (entries_loop_spec _ cap s held x) by (done || lia). cbn zeta. rewrite Z.eqb_refl. cbn [andb]. set (left := drop _ _). assert (Hl : Forall entry_ok left) by (by apply listing_left).
  destruct (_ && _); [done|]. unfold mok. cbn [fst snd]. pose proof (fitting_room cap left Hl ltac:(lia)) as Hr. f_equal. f_equal. rewrite Z.add_0_l.
  rewrite pack_spec by (try apply fitting_ok; done || lia). cbn [Z.to_nat take app]. change (Z.to_nat 0) with 0%nat. rewrite take_0. cbn [app].
  apply take_app_length'. rewrite <- (packed_length (fitting cap 0 left) scratch 0) by (try apply fitting_ok; done || lia). unfold zlen. lia.
Qed.

(** Between the end of a name and the end of its record the caller is given what was
    in the kernel's scratch memory. *)
Lemma getdents_copies_scratch scratch e es : slice (packed scratch 0 (e :: es)) (zlen (record_bytes e)) (zlen (slice scratch (zlen (record_bytes e)) (record_length e - zlen (record_bytes e))))
  = slice scratch (zlen (record_bytes e)) (record_length e - zlen (record_bytes e)).
Proof. cbn [packed]. rewrite Z.add_0_l. by apply slice_app. Qed.

(** *** A loop around readdir *)

(** The library's buffer still holds the records [es]. *)
Definition buffered (dir : DIR) es : Prop := zlen (dir_buffer dir) = DIRENT_BUFFER /\ Forall entry_ok es /\ available dir = position dir + total es
  /\ exists pre junk a rest, dir_buffer dir = pre ++ packed junk a es ++ rest /\ zlen pre = position dir /\ 0 <= a /\ a + total es <= zlen junk.

Lemma buffered_next dir e es : buffered dir (e :: es) ->
  let dir' := mkDir (dir_buffer dir) (available dir) (position dir + d_reclen (dir_buffer dir) (position dir)) in
  buffered dir' es /\ (d_ino (dir_buffer dir) (position dir), d_type (dir_buffer dir) (position dir), d_name (dir_buffer dir) (position dir)) = seen e /\ position dir < available dir.
Proof.
  intros (Hl & Hes & Ha & pre & junk & a & rest & Eb & Hp & Ha0 & Hj). apply Forall_cons in Hes as [He Hes]. cbn [total packed] in *. destruct (record_room e He) as [Hr1 Hr2]. pose proof (total_nonneg es Hes).
  pose proof (zlen_nonneg (record_bytes e)). set (pad := slice junk (a + zlen (record_bytes e)) (record_length e - zlen (record_bytes e))) in *.
  assert (Eb' : dir_buffer dir = pre ++ record_bytes e ++ pad ++ packed junk (a + record_length e) es ++ rest) by (by rewrite Eb, <- !app_assoc).
  assert (Hpad : zlen pad = record_length e - zlen (record_bytes e)) by (unfold pad, slice, zlen in *; rewrite length_take, length_drop; lia).
  destruct (record_back pre e (pad ++ packed junk (a + record_length e) es ++ rest) (position dir) He Hp) as [Es Er]. rewrite <- Eb' in Es, Er. split_and!; [|done|lia].
  split_and!; [done|done|cbn; lia|]. exists (pre ++ record_bytes e ++ pad), junk, (a + record_length e), rest. cbn [dir_buffer position]. split_and!; [by rewrite Eb', <- !app_assoc| |lia|lia].
  rewrite !zlen_app. lia.
Qed.

Lemma buffered_fill dir scratch es : zlen (dir_buffer dir) = DIRENT_BUFFER -> zlen scratch = DIRENT_BUFFER -> Forall entry_ok es -> total es <= DIRENT_BUFFER ->
  buffered (mkDir (splice (dir_buffer dir) 0 (packed scratch 0 es)) (zlen (packed scratch 0 es)) 0) es.
Proof.
  intros Hb Hs Hes Ht. pose proof (total_nonneg es Hes). pose proof (packed_length es scratch 0 Hes ltac:(lia) ltac:(lia)) as Hp. split_and!; [|done|cbn; lia|].
  - cbn [dir_buffer]. unfold splice, zlen in *. rewrite !length_app, length_take, length_drop. lia.
  - exists [], scratch, 0, (drop (length (packed scratch 0 es)) (dir_buffer dir)). cbn [dir_buffer position]. split_and!; [by unfold splice|done|lia|lia].
Qed.

Lemma readdir_at s held x d dir es memory : vfs_inv s held -> inodes s !! m_inode d = Some x -> is_directory x = true -> 0 <= m_directory_index d -> Forall entry_ok (listing s x) ->
  buffered dir es -> (exists scratch, memory = Some scratch /\ zlen scratch = DIRENT_BUFFER) ->
  match es ++ drop (Z.to_nat (m_directory_index d)) (listing s x) with
  | [] => exists n, readdir memory ((s, d), dir) = (Ok None, ((s, with_directory_index n d), dir))
  | e :: later => exists p d' dir' es', readdir memory ((s, d), dir) = (Ok (Some p), ((s, d'), dir')) /\ buffered dir' es' /\ m_inode d' = m_inode d /\ 0 <= m_directory_index d'
      /\ es' ++ drop (Z.to_nat (m_directory_index d')) (listing s x) = later /\ (d_ino (dir_buffer dir') p, d_type (dir_buffer dir') p, d_name (dir_buffer dir') p) = seen e
  end.
Proof.
  intros H Hx Hd Hi Hok Hbuf (scratch & -> & Hs). unfold readdir. destruct es as [|e es].
  - pose proof Hbuf as (Hl & _ & Ha & _). cbn [total] in Ha. destruct (Z.leb_spec (available dir) (position dir)); [|lia]. rewrite (getdents_at s held x) by (done || (unfold DIRENT_BUFFER in *; lia)). cbn zeta.
    change (Z.min DIRENT_BUFFER (16 * 1024)) with DIRENT_BUFFER. set (left := drop _ _). assert (Hleft : Forall entry_ok left) by (by apply listing_left). cbn [app].
    destruct left as [|e later] eqn:El; [by eexists|]. apply Forall_cons in Hleft as [He Hlater]. pose proof (record_room e He) as [_ Hr].
    assert (Ef : fitting DIRENT_BUFFER 0 (e :: later) = e :: fitting DIRENT_BUFFER (0 + record_length e) later) by (cbn [fitting]; destruct (Z.ltb_spec DIRENT_BUFFER (0 + record_length e)); [unfold DIRENT_BUFFER in *; lia|done]).
    destruct (fitting_prefix DIRENT_BUFFER (e :: later) 0) as [later' El']. pose proof (fitting_ok DIRENT_BUFFER 0 (e :: later) ltac:(by constructor)) as Hfo. pose proof (fitting_room DIRENT_BUFFER (e :: later) ltac:(by constructor) ltac:(done)) as Hroom.
    rewrite Ef in *. set (es := fitting DIRENT_BUFFER (0 + record_length e) later) in *. rewrite bool_decide_eq_false_2 by done. cbn [andb].
    pose proof (buffered_fill dir scratch (e :: es) Hl Hs Hfo ltac:(lia)) as Hb. destruct (Z.eqb_spec (zlen (packed scratch 0 (e :: es))) 0) as [E0|_]; [rewrite packed_length in E0 by (done || lia); cbn [total] in E0, Hroom; apply Forall_cons in Hfo as [_ Hfo]; pose proof (total_nonneg es Hfo); lia|].
    destruct (buffered_next _ e es Hb) as (Hb' & Es & _). do 4 eexists. split; [done|]. split; [exact Hb'|]. split_and!; [done|cbn; pose proof (zlen_nonneg (e :: es)); lia| |exact Es].
    cbn [m_directory_index with_directory_index]. injection El' as El'. rewrite El' at 1. f_equal.
    replace (Z.to_nat (m_directory_index d + zlen (e :: es))) with (Z.to_nat (m_directory_index d) + length (e :: es))%nat by (unfold zlen; lia). rewrite <- drop_drop. fold left. rewrite El. cbn [length drop]. rewrite El' at 1. apply drop_app_length.
  - destruct (buffered_next dir e es Hbuf) as (Hb' & Es & Hp). destruct (Z.leb_spec (available dir) (position dir)); [lia|]. cbn [app]. do 4 eexists. split; [done|]. by split_and!.
Qed.

Lemma list_directory_at memory fuel : forall s held x d dir es, vfs_inv s held -> inodes s !! m_inode d = Some x -> is_directory x = true -> 0 <= m_directory_index d -> Forall entry_ok (listing s x) ->
  buffered dir es -> (forall k, exists scratch, memory k = Some scratch /\ zlen scratch = DIRENT_BUFFER) ->
  (length (es ++ drop (Z.to_nat (m_directory_index d)) (listing s x)) < fuel)%nat ->
  exists d' dir', list_directory fuel memory ((s, d), dir) = (Ok (seen <$> es ++ drop (Z.to_nat (m_directory_index d)) (listing s x)), ((s, d'), dir')).
Proof.
  induction fuel as [|fuel IH]; intros s held x d dir es H Hx Hd Hi Hok Hb Hm Hf; [lia|]. cbn [list_directory]. pose proof (readdir_at s held x d dir es (memory fuel) H Hx Hd Hi Hok Hb (Hm fuel)) as Hr.
  destruct (es ++ drop _ _) as [|e later].
  - destruct Hr as [n Er]. rewrite (mtry_ok _ _ _ _ _ Er). by do 2 eexists.
  - destruct Hr as (p & d' & dir' & es' & Er & Hb' & Ei & Hi' & El & Es). rewrite (mtry_ok _ _ _ _ _ Er), mtry_get. cbn [snd].
    destruct (IH s held x d' dir' es' H ltac:(by rewrite Ei) Hd Hi' Hok Hb' Hm ltac:(rewrite El; cbn in Hf; lia)) as (d2 & dir2 & E2). rewrite (mtry_ok _ _ _ _ _ E2), Es, El. by exists d2, dir2.
Qed.
End Listing.

(** ** Streams *)

Section Streams.
Context {F : Type} {FA : FrameAllocator F}.
Variable devices : Z -> DeviceOps.
Implicit Types (s : @Vfs F) (x : Inode) (d : FileDescription) (held : list Z).

(** A description open on a regular file of the tmpfs. *)
Definition open_regular s held d x : Prop :=
  m_inode d ∈ held /\ inodes s !! m_inode d = Some x /\ class x = TmpfsInode /\ is_directory x = false /\ m_fifo x = None.

Lemma on_deref s d x : inodes s !! m_inode d = Some x -> on_vfs (deref (m_inode d)) (s, d) = (Ok x, (s, d)).
Proof. intros Hx. unfold on_vfs, deref. by rewrite Hx. Qed.

Lemma size_contents s held d x : vfs_inv s held -> open_regular s held d x -> zlen (contents (mem s) (file_of x)) = m_size x /\ 0 <= m_size x < 2 ^ 63.
Proof.
  intros H (_ & Hx & Hc & _). destruct (v_files _ _ H) as [P _]. destruct (p_size _ _ P _ _ (files_lookup s _ x Hx) Hc) as [[H1 _] H2]. cbn in H1, H2.
  split; [|done]. unfold zlen. rewrite length_contents. cbn. lia.
Qed.

(** Where the next write goes. *)
Definition write_position d (c : list Z) : Z := if flag_set (m_flags d) O_APPEND then zlen c else m_offset d.

(** What a position is counted from. *)
Definition seek_base (whence : Z) d (c : list Z) : option Z :=
  if whence =? SEEK_SET then Some 0 else if whence =? SEEK_CUR then Some (m_offset d) else if whence =? SEEK_END then Some (zlen c) else None.

Lemma stream_read s held d x pending n : vfs_inv s held -> open_regular s held d x -> 0 <= m_offset d -> 0 <= n ->
  FileDescription_read devices pending n (s, d) =
    if is_readable d then let l := take (Z.to_nat n) (drop (Z.to_nat (m_offset d)) (contents (mem s) (file_of x))) in (Ok (Done (Ok l)), (s, advance (zlen l) d))
    else (Err EBADF, (s, d)).
Proof.
  intros H (_ & Hx & Hc & Hd & Hf) Ho Hn. unfold FileDescription_read. rewrite mtry_get. cbn [snd]. destruct (is_readable d); [|done]. cbn [negb]. rewrite (mtry_ok _ _ _ _ _ (on_deref s d x Hx)), Hd.
  unfold mtry at 1. unfold on_vfs at 1. unfold Inode_read. rewrite (try_deref _ x), Hc by done. rewrite (file_read_at pending (m_inode d) (m_offset d) n s x Hx Hf), (read_at s (m_inode d) x) by (done || apply H). done.
Qed.

Lemma stream_write h s held d x pending input : vfs_inv s held -> open_regular s held d x -> 0 <= m_offset d -> 
  let p := write_position d (contents (mem s) (file_of x)) in p + zlen input < 2 ^ 63 ->
  match FileDescription_write devices h pending input 0 (s, d) with
  | (Ok (Done (Ok n)), (s', d')) => is_writable d = true /\ n = zlen input /\ d' = with_offset (p + n) d /\ same_names s s' /\ bytes s s' (m_inode d) (if bool_decide (input = []) then id else overlay p input)
  | (Err e, (s', d')) => if is_writable d then e = ENOMEM /\ d' = with_offset p d /\ same_names s s' /\ bytes s s' (m_inode d) id else e = EBADF /\ s' = s /\ d' = d
  | _ => False
  end.
Proof.
  intros H Hop Ho p Hp. destruct (size_contents s held d x H Hop) as [Hz Hsz]. destruct Hop as (_ & Hx & Hc & Hd & Hf). unfold FileDescription_write. rewrite mtry_get. cbn [snd].
  destruct (is_writable d) eqn:Ew; [|done]. cbn [negb]. rewrite (mtry_ok _ _ _ _ _ (on_deref s d x Hx)), Hd.
  assert (Hp0 : 0 <= p) by (unfold p, write_position; destruct (flag_set _ _); lia).
  assert (Ep : (if flag_set (m_flags d) O_APPEND then upd_description (with_offset (m_size x)) else mok tt) (s, d) = (Ok tt, (s, with_offset p d))).
  { unfold p, write_position. destruct (flag_set _ _); [by rewrite Hz|by destruct d]. }
  clearbody p. pose proof (zlen_nonneg input). rewrite (mtry_ok _ _ _ _ _ Ep), mtry_get. cbn [snd with_offset m_offset]. unfold mtry at 1. unfold on_vfs at 1. unfold Inode_write. rewrite (try_deref _ x), Hc by done.
  rewrite (file_write_at h pending (m_inode d) p input 0 s x Hx Hf). destruct (decide (input = [])) as [->|Hne].
  - unfold tmpfs_write. rewrite (try_deref _ x), Hd by done. cbn. split_and!; [done|done| |done|apply bytes_same]. unfold advance, with_offset. cbn. rewrite Z.add_0_r, u64_small by (unfold is_u64; lia). done.
  - rewrite bool_decide_eq_false_2 by done. pose proof (write_at h s (m_inode d) x p input (v_files _ _ H) Hx Hc Hd Hp0 Hne Hp) as Hw.
    destruct (tmpfs_write h (m_inode d) p input s) as [[n|e|] s']; [| |done]; destruct Hw as (Hn & x' & S & Eb).
    + destruct (step_does s s' held (m_inode d) x x' _ H Hx S Eb) as [N B]. cbn. split_and!; [done|done| |done|done]. subst n. unfold advance, with_offset. cbn. by rewrite u64_small by (unfold is_u64; lia).
    + by destruct (step_does s s' held (m_inode d) x x' id H Hx S Eb) as [N B].
Qed.

Lemma stream_seek s held d x offset whence : vfs_inv s held -> open_regular s held d x -> 0 <= m_offset d < 2 ^ 63 -> - 2 ^ 63 <= offset < 2 ^ 63 ->
  FileDescription_seek offset whence (s, d) =
    match seek_base whence d (contents (mem s) (file_of x)) with
    | Some base => if (base + offset <? 0) || (2 ^ 63 <=? base + offset) then (Err EINVAL, (s, d)) else (Ok (base + offset), (s, with_offset (base + offset) d))
    | None => (Err EINVAL, (s, d))
    end.
Proof.
  intros H Hop Ho Hr. destruct (size_contents s held d x H Hop) as [Hz Hsz]. destruct Hop as (_ & Hx & Hc & Hd & Hf). unfold FileDescription_seek. rewrite mtry_get. cbn [snd]. rewrite (mtry_ok _ _ _ _ _ (on_deref s d x Hx)), Hd.
  assert (Hi : forall base, 0 <= base < 2 ^ 63 -> i64 base = base) by (intros base Hb; unfold i64; rewrite Z.mod_small; lia).
  assert (Ht : forall base, 0 <= base < 2 ^ 63 -> i64 (base + offset) = (if 2 ^ 63 <=? base + offset then base + offset - 2 ^ 64 else base + offset)).
  { intros base Hb. unfold i64. destruct (Z.leb_spec (2 ^ 63) (base + offset)) as [Hl|Hl]; [|rewrite Z.mod_small; lia]. rewrite <- (Z.mod_add _ (-1)), Z.mod_small by lia. lia. }
  assert (Hgo : forall base, 0 <= base < 2 ^ 63 -> (let! base0 := mok base in let target := i64 (base0 + offset) in if target <? 0 then merr EINVAL
     else upd_description (with_offset target) ;! (if false && (target =? 0) then upd_description (with_directory_index 0) else mok tt) ;! mok target) (s, d)
     = if (base + offset <? 0) || (2 ^ 63 <=? base + offset) then (Err EINVAL, (s, d)) else (Ok (base + offset), (s, with_offset (base + offset) d))).
  { intros base Hb. rewrite mtry_mok. cbn zeta. rewrite (Ht base Hb). destruct (Z.leb_spec (2 ^ 63) (base + offset)); [destruct (Z.ltb_spec (base + offset - 2 ^ 64) 0); [by rewrite orb_true_r|lia]|].
    rewrite orb_false_r. by destruct (base + offset <? 0). }
  unfold seek_base. destruct (whence =? SEEK_SET); [by apply Hgo|]. destruct (whence =? SEEK_CUR); [rewrite Hi by done; by apply Hgo|]. destruct (whence =? SEEK_END); [|done]. rewrite Hi, Hz by done. by apply Hgo.
Qed.
End Streams.

(** ** What an open file promises *)

(** C10: An open regular file is a string of bytes and a position.  In every reachable
    state read returns the bytes from the position on, as many as asked for and
    there are, and moves the position past them; write puts its bytes at the
    position, or at the end under O_APPEND, whatever the position was, moves the
    position past them and changes no other file and no name, and when memory runs
    out changes no byte; seek moves the position relative to the start, itself or
    the end and refuses to go before the start.  What the description was not opened
    for is refused with EBADF. *)
Theorem open_file_is_stream {F} {FA : FrameAllocator F} devices h (s : @Vfs F) held d x :
  fs_reachable s held -> open_regular s held d x -> 0 <= m_offset d < 2 ^ 63 -> let c := contents (mem s) (file_of x) in
  (forall pending n, 0 <= n -> FileDescription_read devices pending n (s, d) =
     if is_readable d then let l := take (Z.to_nat n) (drop (Z.to_nat (m_offset d)) c) in (Ok (Done (Ok l)), (s, advance (zlen l) d)) else (Err EBADF, (s, d)))
  /\ (forall pending input, write_position d c + zlen input < 2 ^ 63 ->
     match FileDescription_write devices h pending input 0 (s, d) with
     | (Ok (Done (Ok n)), (s', d')) => is_writable d = true /\ n = zlen input /\ d' = with_offset (write_position d c + n) d /\ same_names s s'
         /\ bytes s s' (m_inode d) (if bool_decide (input = []) then id else overlay (write_position d c) input)
     | (Err e, (s', d')) => if is_writable d then e = ENOMEM /\ d' = with_offset (write_position d c) d /\ same_names s s' /\ bytes s s' (m_inode d) id else e = EBADF /\ s' = s /\ d' = d
     | _ => False
     end)
  /\ (forall offset whence, - 2 ^ 63 <= offset < 2 ^ 63 -> match seek_base whence d c with
     | Some base => base + offset < 2 ^ 63 -> FileDescription_seek offset whence (s, d) = if base + offset <? 0 then (Err EINVAL, (s, d)) else (Ok (base + offset), (s, with_offset (base + offset) d))
     | None => FileDescription_seek offset whence (s, d) = (Err EINVAL, (s, d))
     end).
Proof.
  intros R Hop Ho. pose proof (reachable_vfs s held R) as H. cbn zeta. split_and!.
  - intros pending n Hn. by apply (stream_read devices s held d x pending n H Hop); [lia|].
  - intros pending input Hp. by apply (stream_write devices h s held d x pending input H Hop); [lia|].
  - intros offset whence Hr. rewrite (stream_seek s held d x offset whence H Hop Ho Hr). destruct (seek_base whence d _) as [base|]; [|done]. intros Hb.
    destruct (Z.leb_spec (2 ^ 63) (base + offset)); [lia|]. by rewrite orb_false_r.
Qed.

(** The machine of FileSystem.v with /tmp/f open and written. *)
Definition demo_description : FileDescription := mkDescription 10 (Z.lor O_CREAT O_RDWR) (PAGE_SIZE + 1) 1 0.

Lemma demo_open_regular : exists x, open_regular demo_written [10] demo_description x.
Proof.
  assert (E : (fun x => (class x, is_directory x, m_fifo x)) <$> inodes demo_written !! 10 = Some (TmpfsInode, false, None)) by (vm_compute; reflexivity).
  destruct (inodes demo_written !! 10) as [x|] eqn:Hx; [|done]. injection E as E1 E2 E3. exists x. split_and!; [by left|exact Hx|done|done|done].
Qed.

Definition no_devices (_ : Z) : DeviceOps := mkOps None None None None.

Lemma open_file_is_stream_witness : exists o, FileDescription_read no_devices false 5 (demo_written, demo_description) = (Ok (Done (Ok [105])), o)
  /\ FileDescription_seek (-3) SEEK_CUR (demo_written, demo_description) = (Ok (PAGE_SIZE - 2), (demo_written, with_offset (PAGE_SIZE - 2) demo_description)).
Proof.
  destruct demo_open_regular as [x Hop].
  destruct (open_file_is_stream no_devices (demo_kernel_heap demo_written) demo_written [10] demo_description x demo_written_reachable Hop ltac:(cbn; unfold PAGE_SIZE; lia)) as (Hread & _ & Hseek).
  eexists. split.
  - assert (Ec : fst (FileDescription_read no_devices false 5 (demo_written, demo_description)) = Ok (Done (Ok [105]))) by (vm_compute; reflexivity). rewrite (Hread false 5 ltac:(lia)) in Ec |- *. cbn [is_readable fst] in Ec |- *. rewrite <- Ec. reflexivity.
  - rewrite (Hseek (-3) SEEK_CUR ltac:(lia)); [reflexivity|cbn; unfold PAGE_SIZE; lia].
Defined.

(** C13: A loop around readdir sees the directory.  In every reachable state, with no
    call in between that changes it, readdir on a freshly opened directory returns
    an entry for the directory itself, one for its parent and one for each child,
    in order and each once, with inode number, type and name, over as many getdents
    calls as the library's buffer makes necessary, and then nothing. *)
Theorem readdir_lists_directory {F} {FA : FrameAllocator F} (s : @Vfs F) held d x buffer memory :
  fs_reachable s held -> inodes s !! m_inode d = Some x -> is_directory x = true -> m_directory_index d = 0 ->
  (forall c y, inodes s !! c = Some y -> m_parent y = m_inode d -> 0 ∉ m_name y) ->
  zlen buffer = DIRENT_BUFFER -> (forall k, exists scratch, memory k = Some scratch /\ zlen scratch = DIRENT_BUFFER) ->
  exists d' dir', list_directory (length (m_children x) + 3) memory ((s, d), opendir_buffer buffer) = (Ok (seen <$> listing s x), ((s, d'), dir')).
Proof.
  intros R Hx Hd Hi Hnul Hb Hm. pose proof (reachable_vfs s held R) as H.
  assert (Hok : Forall entry_ok (listing s x)).
  { constructor; [split; [done|by apply not_in_list]|]. constructor; [split; [done|by apply not_in_list]|]. rewrite Forall_fmap, Forall_forall. intros c Hc.
    destruct (proj1 (t_link _ _ (v_tree _ _ H) _ c _ (tree_lookup s _ x Hx)) Hc) as (n & Hn & Hp). apply tree_lookup_inv in Hn as (y & Hy & ->). unfold compose, entry_ok, child_entry. rewrite Hy. cbn. split.
    - unfold strncpy, zlen, FILENAME_MAX_LENGTH. rewrite length_take. lia.
    - intros Hin. apply (Hnul c y Hy Hp). unfold strncpy in Hin. by apply (subseteq_take (Z.to_nat (FILENAME_MAX_LENGTH - 1))). }
  assert (Hbuf : buffered (opendir_buffer buffer) []).
  { split_and!; [done|constructor|done|]. exists [], [], 0, buffer. by split_and!. }
  destruct (list_directory_at memory (length (m_children x) + 3) s held x d (opendir_buffer buffer) [] H Hx Hd ltac:(lia) Hok Hbuf Hm) as (d' & dir' & E).
  - rewrite Hi. unfold listing. change (Z.to_nat 0) with 0%nat. rewrite drop_0. cbn [app length]. rewrite length_fmap. lia.
  - exists d', dir'. rewrite E, Hi. done.
Qed.

(** A property of every name, decided. *)
Lemma names_all (m : gmap Z Inode) (P : list Z -> bool) : map_fold (fun _ z ok => ok && P (m_name z)) true m = true -> forall c y, m !! c = Some y -> P (m_name y) = true.
Proof.
  apply (map_fold_weak_ind (fun ok m => ok = true -> forall c y, m !! c = Some y -> P (m_name y) = true)); [intros _ c y E; by rewrite lookup_empty in E|].
  intros i x m' ok _ IH [H1 H2]%andb_true_iff c y Hy. apply lookup_insert_Some in Hy as [[_ <-]|[_ Hy]]; [done|by apply (IH H1 c)].
Qed.

(** The root of the machine of FileSystem.v; every buffer is full of ones. *)
Definition demo_root_description : FileDescription := mkDescription 1 O_RDONLY 0 1 0.
Definition ones : list Z := replicate (Z.to_nat DIRENT_BUFFER) 1.

Lemma readdir_lists_directory_witness : exists o, list_directory 6 (fun _ => Some ones) ((demo_state, demo_root_description), opendir_buffer ones)
  = (Ok [(1, 4, DOT); (1, 4, DOTDOT); (2, 4, DEV_NAME); (3, 4, ETC_NAME); (5, 4, TMP_NAME)], o).
Proof.
  assert (E : (fun x => (is_directory x, m_children x, seen <$> listing demo_state x)) <$> inodes demo_state !! 1 =
    Some (true, [2; 3; 5], [(1, 4, DOT); (1, 4, DOTDOT); (2, 4, DEV_NAME); (3, 4, ETC_NAME); (5, 4, TMP_NAME)])) by (vm_compute; reflexivity).
  apply fmap_Some in E as (x & Hx & E). pose proof (eq_sym (f_equal (fun t => fst (fst t)) E)) as Ed. pose proof (eq_sym (f_equal (fun t => snd (fst t)) E)) as Ec. pose proof (eq_sym (f_equal snd E)) as El.
  cbn [fst snd] in Ed, Ec, El. clear E.
  destruct (readdir_lists_directory demo_state [] demo_root_description x ones (fun _ => Some ones) demo_state_reachable Hx Ed) as (d' & dir' & E).
  - reflexivity.
  - intros c y Hy Hp. assert (Hall : map_fold (fun _ z ok => ok && forallb (fun b => negb (b =? 0)) (m_name z)) true (inodes demo_state) = true) by (vm_compute; reflexivity).
    apply not_in_list, (names_all _ (forallb (fun b => negb (b =? 0))) Hall c y Hy).
  - vm_compute. reflexivity.
  - intros k. exists ones. split; [reflexivity|vm_compute; reflexivity].
  - rewrite Ec, El in E. cbn [length Nat.add] in E. eexists. exact E.
Defined.
