(* ===== verification/SpaceView.v ===== *)
(** * A user address space as a map from addresses to bytes

    What a process sees of its own half of the address space: each address has a
    byte and the flags of its page, or nothing.  [view] is that map, and the lemmas
    say what [map_anonymous], a store through the direct map and [protect] of
    kernel/mm/address_space.cpp do to it, and that they do nothing to anybody else. *)

From S2P Require Import Prelude Kstd Physical AddressSpace PageTables Boot Spaces Clone AddressSpaces UserMemory Mmap.

Section View.
Context {F : Type} {FA : FrameAllocator F}.
Implicit Types (s : Vm F) (T : gmap Z Place).

Definition view s (r a : Z) : option (Z * Z) :=
  match translate s r a, query s r a with
  | Ok p, Ok flags => Some (byte_at s p, flags)
  | _, _ => None
  end.

(** A space whose lower half is all its own. *)
Record private_space s T (r : Z) : Prop := {
  ps_inv : vm_inv s T;
  ps_live : live s r;
  ps_user : r <> s_kernel_space s;
  ps_own : forall a l e, index_of a 4 < 256 -> leaf s r a = Some (l, e) -> has_flag e PageFlags_Foreign = false;
}.

(** What one space's calls leave alone: the other spaces, the kernel's half, and
    every frame that is neither a page table nor a page of that space. *)
Record kept s T s' T' (r : Z) : Prop := {
  kp_space : private_space s' T' r;
  kp_live : forall x, live s' x <-> live s x;
  kp_kernel : s_kernel_space s' = s_kernel_space s;
  kp_owned : forall b, fa_owned (frames s) b -> fa_owned (frames s') b;
  kp_old : forall b p, T' !! b = Some p -> fa_owned (frames s) b -> T !! b = Some p;
  kp_leaf : forall r' a, live s r' -> r' <> r \/ 256 <= index_of a 4 -> leaf s' r' a = leaf s r' a;
  kp_data : forall f i, fa_owned (frames s) f -> ~ is_table T f -> (forall n, T !! f <> Some (mkPlace r 0 n)) ->
    frame_ok f -> 0 <= i < 512 -> entry_of s' f i = entry_of s f i;
}.

Lemma kept_refl s T r : private_space s T r -> kept s T s T r.
Proof. intros H. by split. Qed.

Lemma kept_space_trans s1 T1 s2 T2 s3 T3 r : kept s1 T1 s2 T2 r -> kept s2 T2 s3 T3 r -> kept s1 T1 s3 T3 r.
Proof.
  intros H K. split; [apply K| | | | | |].
  - intros x. by rewrite (kp_live _ _ _ _ _ K), (kp_live _ _ _ _ _ H).
  - by rewrite (kp_kernel _ _ _ _ _ K), (kp_kernel _ _ _ _ _ H).
  - intros b Hb. by apply (kp_owned _ _ _ _ _ K), (kp_owned _ _ _ _ _ H).
  - intros b p Hb Ho. apply (kp_old _ _ _ _ _ H); [|done]. apply (kp_old _ _ _ _ _ K); [done|]. by apply (kp_owned _ _ _ _ _ H).
  - intros r' a Hr' Ho. rewrite (kp_leaf _ _ _ _ _ K); [by apply (kp_leaf _ _ _ _ _ H)| |done]. by apply (kp_live _ _ _ _ _ H).
  - intros f i Ho Hn Hp Hf Hi. rewrite (kp_data _ _ _ _ _ K f i); [by apply (kp_data _ _ _ _ _ H)|by apply (kp_owned _ _ _ _ _ H)| | |done|done].
    + intros (p & Hq & Hl). apply Hn. exists p. split; [|done]. by apply (kp_old _ _ _ _ _ H).
    + intros n Hq. apply (Hp n). by apply (kp_old _ _ _ _ _ H).
Qed.

(** ** Pages *)

Lemma user_leaf s T r a : private_space s T r -> index_of a 4 < 256 ->
  leaf s r a = None \/ exists e, leaf s r a = Some (1, e) /\ T !! table_at e = Some (mkPlace r 0 (vpn a)).
Proof.
  intros H Ha. destruct H as [Hi Hr Hk Ho]. pose proof (user_leaf_cleared s T r a Hi Hr Hk Ha) as Hc.
  destruct (leaf s r a) as [[l e]|] eqn:El; [right|by left]. exists e.
  assert (l = 1) as -> by (destruct l as [|[?|?|]|?]; done). split; [done|].
  apply (private_placed s T r Hi Hr Hk a e Ha El). by apply (Ho a 1 e).
Qed.

Lemma view_none s r a : leaf s r a = None -> view s r a = None.
Proof. intros H. unfold view. by rewrite translate_leaf, H. Qed.

Lemma view_some s r a e : leaf s r a = Some (1, e) ->
  view s r a = Some (byte_at s (table_at e + a mod PAGE_SIZE), Z.land e (u64 (Z.lnot ADDRESS_MASK))).
Proof. intros H. unfold view. by rewrite (translate_at _ _ _ _ _ H), query_leaf, H by lia. Qed.

Lemma view_mapped s T r a : private_space s T r -> index_of a 4 < 256 -> view s r a = None <-> leaf s r a = None.
Proof.
  intros H Ha. split; [|apply view_none]. destruct (user_leaf s T r a H Ha) as [?|(e & He & _)]; [done|].
  by rewrite (view_some s r a e He).
Qed.

(** The flags of an entry made for a page. *)
Lemma entry_flags f flags : Z.land flags ADDRESS_MASK = 0 -> is_u64 flags ->
  Z.land (leaf_entry f flags) (u64 (Z.lnot ADDRESS_MASK)) = Z.lor flags PageFlags_Present.
Proof.
  intros Hf Hu. unfold leaf_entry. rewrite Z.land_lor_distr_l, <- Z.land_assoc.
  change (Z.land ADDRESS_MASK (u64 (Z.lnot ADDRESS_MASK))) with 0. rewrite Z.land_0_r, Z.lor_0_l.
  rewrite Z.land_lor_distr_l. change (Z.land PageFlags_Present (u64 (Z.lnot ADDRESS_MASK))) with PageFlags_Present. f_equal.
  apply Z.bits_inj'. intros i Hi. rewrite Z.land_spec. destruct (Z.testbit flags i) eqn:E; [|done]. cbn [andb].
  assert (Hi64 : i < 64).
  { destruct (Z.lt_ge_cases i 64); [done|]. rewrite Z.bits_above_log2 in E; [done|apply Hu|].
    destruct (decide (flags = 0)) as [->|]; [cbn; lia|]. apply Z.log2_lt_pow2; [unfold is_u64 in Hu; lia|]. unfold is_u64 in Hu.
    apply Z.lt_le_trans with (2 ^ 64); [lia|]. apply Z.pow_le_mono_r; lia. }
  rewrite u64_testbit by lia. rewrite Z.lnot_spec by done. assert (Hm : Z.testbit (Z.land flags ADDRESS_MASK) i = false) by (rewrite Hf; apply Z.bits_0).
  rewrite Z.land_spec, E in Hm. cbn [andb] in Hm. by rewrite Hm.
Qed.

(** The bytes of a frame are its words. *)
Lemma byte_data s s' f o : frame_ok f -> 0 <= o < PAGE_SIZE -> (forall i, 0 <= i < 512 -> entry_of s' f i = entry_of s f i) ->
  byte_at s' (f + o) = byte_at s (f + o).
Proof.
  intros [_ Hf] Ho H. unfold byte_at. f_equal. replace (f + o - (f + o) mod 8) with (f + 8 * (o / 8)) by (unfold PAGE_SIZE in *; zlia).
  apply (H (o / 8)). unfold PAGE_SIZE in *. zlia.
Qed.

Lemma byte_zero s f o : frame_ok f -> 0 <= o < PAGE_SIZE -> (forall i, 0 <= i < 512 -> entry_of s f i = 0) -> byte_at s (f + o) = 0.
Proof.
  intros [_ Hf] Ho H. unfold byte_at. replace (f + o - (f + o) mod 8) with (f + 8 * (o / 8)) by (unfold PAGE_SIZE in *; zlia).
  change (mem s (f + 8 * (o / 8))) with (entry_of s f (o / 8)). rewrite H by (unfold PAGE_SIZE in *; zlia). done.
Qed.

Lemma offset_bound a : 0 <= a mod PAGE_SIZE < PAGE_SIZE.
Proof. by apply Z.mod_pos_bound. Qed.

(** Of a page that stays, the bytes stay. *)
Lemma view_kept s T s' r a e : private_space s T r -> index_of a 4 < 256 -> leaf s r a = Some (1, e) -> leaf s' r a = Some (1, e) ->
  (forall f i, fa_owned (frames s) f -> ~ is_table T f -> frame_ok f -> 0 <= i < 512 -> entry_of s' f i = entry_of s f i) ->
  view s' r a = view s r a.
Proof.
  intros H Ha He He' Hd. rewrite (view_some _ _ _ _ He), (view_some _ _ _ _ He'). do 2 f_equal.
  destruct (user_leaf s T r a H Ha) as [?|(e' & Hl & Hp)]; [congruence|]. rewrite He in Hl. injection Hl as <-.
  apply byte_data; [apply table_at_ok|apply offset_bound|]. intros i Hi. apply Hd; [by apply (vi_owned s T (ps_inv _ _ _ H) _ _ Hp)| |apply table_at_ok|done].
  intros (p & Hq & Hlv). rewrite Hp in Hq. injection Hq as <-. cbn in Hlv. lia.
Qed.

(** ** Fresh pages *)

(** A page-aligned user range as the loops see it; it is empty when [last] is
    below [first], whatever its length comes to. *)
Lemma range_any first last : 0 <= first <= USER_SPACE_END -> first mod PAGE_SIZE = 0 -> 0 <= last <= USER_SPACE_END -> last mod PAGE_SIZE = 0 ->
  let n := Z.to_nat ((last - first) / PAGE_SIZE) in
  range_start first = first /\ page_count first (range_end first (u64 (last - first))) = n
  /\ first + Z.of_nat n * PAGE_SIZE = Z.max first last.
Proof.
  intros Hf Hfm Hl Hlm n. assert (He : USER_SPACE_END < 2 ^ 64 - PAGE_SIZE) by (vm_compute; done).
  unfold range_start, range_end, page_count. unfold u64 at 2. unfold u64. rewrite Zplus_mod_idemp_r.
  replace (first + (last - first)) with last by lia. rewrite Z.mod_small by (unfold PAGE_SIZE in *; lia).
  rewrite align_down_page, align_up_aligned by (done || unfold is_u64, PAGE_SIZE in *; lia).
  split_and!; [unfold PAGE_SIZE in *; zlia|done|unfold n, PAGE_SIZE in *; zlia].
Qed.

Lemma user_index a : 0 <= a < USER_SPACE_END -> index_of a 4 < 256.
Proof. intros Ha. by apply user_vpn. Qed.

Definition fresh_view (flags first last a : Z) (old : option (Z * Z)) : option (Z * Z) :=
  match old with
  | Some v => Some v
  | None => if (first <=? a) && (a <? last) then Some (0, Z.lor flags PageFlags_Present) else None
  end.

Section Anonymous.
Context (s : Vm F) (T : gmap Z Place) (r first last flags : Z).
Context (H : private_space s T r) (Hmask : Z.land flags ADDRESS_MASK = 0) (Hflags : is_u64 flags).
Context (Hforeign : has_flag flags PageFlags_Foreign = false).
Let n := Z.to_nat ((last - first) / PAGE_SIZE).
Context (Hf : 0 <= first <= USER_SPACE_END) (Hfm : first mod PAGE_SIZE = 0) (Hn : first + Z.of_nat n * PAGE_SIZE = Z.max first last).
Context (Hl : 0 <= last <= USER_SPACE_END).

Lemma covered_range a : 0 <= a < USER_SPACE_END -> covered s r first n r a <-> first <= a < last.
Proof. intros Ha. rewrite (covered_user s r first n a) by (done || lia). rewrite Hn. lia. Qed.

Lemma filled_kept s' T' : filled s T s' T' r first n flags -> kept s T s' T' r.
Proof.
  intros G. split; try apply G.
  - split; [apply G|apply (fl_live _ _ _ _ _ _ _ _ G), H|rewrite (fl_kernel _ _ _ _ _ _ _ _ G); apply H|].
    intros a l e Ha He. destruct (leaf s r a) as [x|] eqn:El.
    + rewrite (fl_keep _ _ _ _ _ _ _ _ G r a (ps_live _ _ _ H)) in He by (left; by rewrite El). by apply (ps_own _ _ _ H a l e).
    + destruct (decide (covered s r first n r a)) as [Hc|Hc].
      * destruct (fl_fill _ _ _ _ _ _ _ _ G r a (ps_live _ _ _ H) El Hc) as (f & Hx & _). rewrite He in Hx. injection Hx as -> ->.
        by rewrite (proj2 (proj2 (leaf_entry_facts f flags Hmask))).
      * rewrite (fl_keep _ _ _ _ _ _ _ _ G r a (ps_live _ _ _ H)) in He by by right. congruence.
  - intros r' a Hr' Ho. apply (fl_keep _ _ _ _ _ _ _ _ G); [done|right]. apply covered_other; [apply H|lia|lia|done].
  - intros f i Ho Hnt _. by apply (fl_data _ _ _ _ _ _ _ _ G).
Qed.

Lemma filled_view s' T' a : filled s T s' T' r first n flags -> 0 <= a < USER_SPACE_END ->
  view s' r a = fresh_view flags first last a (view s r a).
Proof.
  intros G Ha. pose proof (user_index a Ha) as Hx. destruct (user_leaf s T r a H Hx) as [He|(e & He & _)].
  - rewrite (view_none s r a He). cbn [fresh_view]. destruct (decide (covered s r first n r a)) as [Hc|Hc].
    + destruct (fl_fill _ _ _ _ _ _ _ _ G r a (ps_live _ _ _ H) He Hc) as (f & Hlf & Hok & _ & _ & _ & Hz).
      rewrite (view_some _ _ _ _ Hlf), entry_flags by done. rewrite (proj1 (proj2 (leaf_entry_facts f flags Hmask))), frame_masked by done.
      rewrite byte_zero by (done || apply offset_bound). apply covered_range in Hc; [|done].
      by rewrite (proj2 (Z.leb_le _ _)), (proj2 (Z.ltb_lt _ _)) by lia.
    + rewrite view_none by (rewrite (fl_keep _ _ _ _ _ _ _ _ G); [done|apply H|by right]). rewrite covered_range in Hc by done.
      destruct (Z.leb_spec first a), (Z.ltb_spec a last); cbn [andb]; done || lia.
  - rewrite (view_some s r a e He) at 1. cbn [fresh_view]. rewrite <- (view_some s r a e He).
    apply (view_kept s T s' r a e H Hx He); [|exact (fl_data _ _ _ _ _ _ _ _ G)].
    rewrite (fl_keep _ _ _ _ _ _ _ _ G); [done|apply H|left; by rewrite He].
Qed.

Lemma rolled_kept s' T' k : (k < n)%nat -> rolled_back s T s' T' r first k -> kept s T s' T' r.
Proof.
  intros Hk G. assert (Hc : forall r' a, r' <> r \/ 256 <= index_of a 4 -> ~ covered s r first k r' a).
  { intros r' a Ho. apply covered_other; [apply H|lia|unfold PAGE_SIZE in *; lia|done]. }
  split; try apply G.
  - split; [apply G|apply (rb_live _ _ _ _ _ _ _ G), H|rewrite (rb_kernel _ _ _ _ _ _ _ G); apply H|].
    intros a l e Ha He. rewrite (rb_leaf _ _ _ _ _ _ _ G) in He by apply H. apply (ps_own _ _ _ H a l e Ha).
    case_decide; [|done]. destruct (leaf s r a) as [[l' e']|]; [|done]. by destruct l' as [|[?|?|]|?].
  - intros r' a Hr' Ho. rewrite (rb_leaf _ _ _ _ _ _ _ G) by done. rewrite decide_False; [done|by apply Hc].
  - intros f i Ho Hnt _. by apply (rb_data _ _ _ _ _ _ _ G).
Qed.
End Anonymous.

Lemma map_anonymous_view s T r first last flags : private_space s T r -> Z.land flags ADDRESS_MASK = 0 -> is_u64 flags ->
  has_flag flags PageFlags_Foreign = false -> 0 <= first <= USER_SPACE_END -> first mod PAGE_SIZE = 0 ->
  0 <= last <= USER_SPACE_END -> last mod PAGE_SIZE = 0 ->
  match map_anonymous r first (u64 (last - first)) flags s with
  | (Ok _, s') => exists T', kept s T s' T' r
      /\ forall a, 0 <= a < USER_SPACE_END -> view s' r a = fresh_view flags first last a (view s r a)
  | (Err e, s') => e = ENOMEM /\ exists T', kept s T s' T' r
  | (Panic, _) => False
  end.
Proof.
  intros H Hm Hu Hfo Hf Hfm Hl Hlm. destruct (range_any first last Hf Hfm Hl Hlm) as (E1 & E2 & E3). cbv zeta in E2, E3.
  assert (He : USER_SPACE_END < 2 ^ 64) by (vm_compute; done).
  pose proof (map_anonymous_at s T r first (u64 (last - first)) flags (ps_inv _ _ _ H) (ps_live _ _ _ H) ltac:(unfold is_u64; lia) Hm) as G.
  cbv zeta in G. rewrite E1, E2 in G. set (n := Z.to_nat ((last - first) / PAGE_SIZE)) in *.
  specialize (G ltac:(intros _ k Hk; rewrite own_user; [apply H|]; apply user_index; unfold PAGE_SIZE in *; lia)).
  destruct (map_anonymous r first (u64 (last - first)) flags s) as [[u|e|] s']; [| |done].
  - destruct G as [T' G]. exists T'. split; [by apply (filled_kept s T r first last flags)|].
    intros a Ha. by apply (filled_view s T r first last flags H Hm Hu Hf Hfm E3 Hl s' T').
  - destruct G as (-> & k & T' & Hk & _ & G). split; [done|]. exists T'. by apply (rolled_kept s T r first last H Hf E3 Hl s' T' k).
Qed.

(** ** Stores through the direct map *)

(** [memcpy] to consecutive physical addresses. *)
Fixpoint put_bytes (p : Z) (bytes : list Z) s : Vm F :=
  match bytes with
  | [] => s
  | b :: rest => put_bytes (p + 1) rest (set_byte p b s)
  end.

Definition over_view (address : Z) (bytes : list Z) (a : Z) (old : option (Z * Z)) : option (Z * Z) :=
  if (address <=? a) && (a <? address + zlen bytes) then (fun v => (zget 0 bytes (a - address), v.2)) <$> old else old.

Lemma page_address f g a b : frame_ok f -> frame_ok g -> f + a mod PAGE_SIZE = g + b mod PAGE_SIZE -> f = g /\ a mod PAGE_SIZE = b mod PAGE_SIZE.
Proof. intros [_ Hf] [_ Hg]. unfold PAGE_SIZE in *. intros E. zlia. Qed.

Lemma set_byte_kept s T r a0 e b : private_space s T r -> 0 <= a0 < USER_SPACE_END -> leaf s r a0 = Some (1, e) ->
  kept s T (set_byte (table_at e + a0 mod PAGE_SIZE) b s) T r
  /\ forall r' a, live s r' -> leaf (set_byte (table_at e + a0 mod PAGE_SIZE) b s) r' a = leaf s r' a.
Proof.
  intros H Ha He. destruct (user_leaf s T r a0 H (user_index a0 Ha)) as [?|(e' & Hl & Hp)]; [congruence|]. rewrite He in Hl. injection Hl as <-.
  destruct (set_byte_inv s T (table_at e) (a0 mod PAGE_SIZE) b (ps_inv _ _ _ H) (table_at_ok e)) as [I L]; [|apply offset_bound|].
  { intros (p & Hq & Hlv). rewrite Hp in Hq. injection Hq as <-. cbn in Hlv. lia. }
  split; [|done]. split; try done.
  - split; [done|apply H|apply H|]. intros a l x Hx Hlx. rewrite L in Hlx by apply H. by apply (ps_own _ _ _ H a l x).
  - intros r' a Hr' _. by apply L.
  - intros f i _ _ Hno Hf Hi. unfold entry_of, set_byte. cbn. rewrite (proj2 (Z.eqb_neq _ _)); [done|]. intros E. apply (Hno (vpn a0)).
    rewrite <- Hp. f_equal. pose proof (table_at_ok e) as [_ Ht]. destruct Hf as [_ Hf]. pose proof (offset_bound a0). unfold PAGE_SIZE in *. zlia.
Qed.

Lemma set_byte_view s T r a0 e b a : private_space s T r -> 0 <= a0 < USER_SPACE_END -> leaf s r a0 = Some (1, e) -> 0 <= b < 256 ->
  0 <= a < USER_SPACE_END -> view (set_byte (table_at e + a0 mod PAGE_SIZE) b s) r a = over_view a0 [b] a (view s r a).
Proof.
  intros H Ha0 He Hb Ha. destruct (set_byte_kept s T r a0 e b H Ha0 He) as [_ L]. specialize (L r a (ps_live _ _ _ H)).
  unfold over_view. change (zlen [b]) with 1. destruct (decide (a = a0)) as [->|Hne].
  - rewrite (view_some _ _ _ e) by by rewrite L. rewrite (view_some s r a0 e He), byte_set_eq by done.
    rewrite (proj2 (Z.leb_le _ _)), (proj2 (Z.ltb_lt _ _)), Z.sub_diag by lia. done.
  - assert (E : (a0 <=? a) && (a <? a0 + 1) = false) by (destruct (Z.leb_spec a0 a), (Z.ltb_spec a (a0 + 1)); cbn; done || lia). rewrite E.
    destruct (user_leaf s T r a H (user_index a Ha)) as [Hn|(e1 & He1 & Hp1)]; [by rewrite !view_none by (done || by rewrite L)|].
    rewrite (view_some s r a e1 He1), (view_some _ _ _ e1) by by rewrite L. rewrite byte_set_ne; [done|done|]. intros Ep.
    destruct (page_address _ _ _ _ (table_at_ok e) (table_at_ok e1) Ep) as [Et Eo].
    destruct (user_leaf s T r a0 H (user_index a0 Ha0)) as [?|(e' & Hl & Hp)]; [congruence|]. rewrite He in Hl. injection Hl as <-.
    rewrite Et, Hp1 in Hp. injection Hp as Hv. rewrite (proj1 (user_vpn a Ha)), (proj1 (user_vpn a0 Ha0)) in Hv. unfold PAGE_SIZE in *. zlia.
Qed.

Lemma over_view_cons address b bytes a old : over_view (address + 1) bytes a (over_view address [b] a old) = over_view address (b :: bytes) a old.
Proof.
  unfold over_view. change (zlen [b]) with 1. unfold zlen. cbn [length]. destruct (decide (a = address)) as [->|Hne].
  - rewrite (proj2 (Z.leb_gt (address + 1) address)), Z.leb_refl, !(proj2 (Z.ltb_lt _ _)), Z.sub_diag by lia. done.
  - assert (E : (address <=? a) && (a <? address + 1) = false) by (destruct (Z.leb_spec address a), (Z.ltb_spec a (address + 1)); cbn; done || lia).
    rewrite E. replace (address + Z.of_nat (S (length bytes))) with (address + 1 + Z.of_nat (length bytes)) by lia.
    clear E. destruct (Z.leb_spec address a), (Z.leb_spec (address + 1) a); try lia; [|done]. cbn [andb]. destruct (a <? _); [|done].
    destruct old as [v|]; [|done]. cbn. f_equal. f_equal. unfold zget. by replace (Z.to_nat (a - address)) with (S (Z.to_nat (a - (address + 1)))) by lia.
Qed.

Lemma over_view_app address l k a old : over_view (address + zlen l) k a (over_view address l a old) = over_view address (l ++ k) a old.
Proof.
  revert address old. induction l as [|b l IH]; intros address old.
  - change (zlen []) with 0. rewrite Z.add_0_r. f_equal. unfold over_view. change (zlen []) with 0.
    destruct (Z.leb_spec address a), (Z.ltb_spec a (address + 0)); cbn [andb]; done || lia.
  - cbn [app]. rewrite <- (over_view_cons address b l), <- (over_view_cons address b (l ++ k)), <- IH. f_equal. unfold zlen. cbn [length]. lia.
Qed.

Lemma over_view_none address bytes a old : over_view address bytes a old = None <-> old = None.
Proof. unfold over_view. destruct (_ && _); [|done]. by destruct old. Qed.

(** A write that stays within one page. *)
Lemma put_bytes_view T r bytes : Forall (fun b => 0 <= b < 256) bytes -> forall s address e, private_space s T r ->
  0 <= address -> address + zlen bytes <= USER_SPACE_END -> address mod PAGE_SIZE + zlen bytes <= PAGE_SIZE -> leaf s r address = Some (1, e) ->
  let s' := put_bytes (table_at e + address mod PAGE_SIZE) bytes s in
  kept s T s' T r /\ (forall r' a, live s r' -> leaf s' r' a = leaf s r' a)
  /\ forall a, 0 <= a < USER_SPACE_END -> view s' r a = over_view address bytes a (view s r a).
Proof.
  intros Hby. induction Hby as [|b bytes Hb Hby IH]; intros s address e H H0 Hend Hpage He s'.
  { split_and!; [by apply kept_refl|done|]. intros a Ha. unfold over_view. change (zlen []) with 0.
    destruct (Z.leb_spec address a), (Z.ltb_spec a (address + 0)); cbn [andb]; done || lia. }
  unfold zlen in Hend, Hpage. cbn [length] in Hend, Hpage. assert (Ha0 : 0 <= address < USER_SPACE_END) by lia.
  destruct (set_byte_kept s T r address e b H Ha0 He) as [K L]. pose proof (fun a => set_byte_view s T r address e b a H Ha0 He Hb) as V.
  unfold s'. cbn [put_bytes]. set (s1 := set_byte _ b s) in *. destruct bytes as [|b2 bytes].
  { split_and!; [done|done|]. intros a Ha. by apply V. }
  cbn [length] in Hend, Hpage. assert (Hm : (address + 1) mod PAGE_SIZE = address mod PAGE_SIZE + 1) by (unfold PAGE_SIZE in *; zlia).
  assert (He1 : leaf s1 r (address + 1) = Some (1, e)).
  { rewrite L by apply H. rewrite <- He. apply leaf_same_vpn. rewrite (proj1 (user_vpn address Ha0)), (proj1 (user_vpn (address + 1) ltac:(lia))). unfold PAGE_SIZE in *. zlia. }
  destruct (IH s1 (address + 1) e (kp_space _ _ _ _ _ K)) as (K2 & L2 & V2); [lia|unfold zlen; cbn [length]; lia|unfold zlen; cbn [length]; lia|done|].
  replace (table_at e + address mod PAGE_SIZE + 1) with (table_at e + (address + 1) mod PAGE_SIZE) by lia.
  split_and!; [exact (kept_space_trans _ _ _ _ _ _ _ K K2)| |].
  - intros r' a Hr'. rewrite L2; [by apply L|by apply (kp_live _ _ _ _ _ K)].
  - intros a Ha. rewrite V2, V by done. apply over_view_cons.
Qed.

(** ** Changing the flags of pages *)

Lemma retag_inv s T pt sp pre i v : vm_inv s T -> T !! pt = Some (mkPlace sp 1 pre) -> 0 <= i < 512 ->
  let old := entry_of s pt i in present old = true -> present v = true -> table_at v = table_at old ->
  tracked s sp v = tracked s sp old -> vm_inv (set_entry pt i v s) T.
Proof.
  intros Hi Hpt Hx old Ho Hv Ht Htr. apply (leaf_inv s T pt sp pre i v Hi Hpt Hx); [done| | |].
  - intros f p Hf. split; [exact (vi_owned s T Hi f p Hf)|]. apply (vi_level s T Hi f p Hf).
  - intros u sp0 pre0 j Hu Hj. destruct (decide (u = pt /\ j = i)) as [[-> ->]|Hne].
    + rewrite slot_set_eq, Ht. rewrite Hpt in Hu. injection Hu as <- <-. intros _ Hc. rewrite Htr in Hc.
      exact (vi_child s T Hi pt sp 1 pre i Hpt ltac:(lia) Hx Ho Hc).
    + rewrite (leaf_old s T pt sp pre i v Hi Hpt Hx u j) by (done || by (rewrite Hu; eexists) || by apply slot_ne). intros Hp Hc.
      exact (vi_child s T Hi u sp0 1 pre0 j Hu ltac:(lia) Hj Hp Hc).
  - intros f sp0 pre0 Hf. destruct (vi_parent s T Hi f sp0 0 pre0 Hf ltac:(lia)) as (u & Hu & Hp & Ha & Hc). cbn in Hu, Hc.
    exists u. split; [done|]. cbv zeta.
    destruct (leaf_slot s T pt sp pre i v Hi Hpt Hx f _ u Hf eq_refl Hu) as [E|[-> E]]; [cbn [p_prefix] in E; by rewrite E|].
    injection E as -> ->. replace ((pre * 512 + i) mod 512) with i in * by zlia. fold old in Hp, Ha, Hc.
    rewrite slot_set_eq. split_and!; [done|congruence|congruence].
Qed.

Definition relabel_view (flags first last a : Z) (old : option (Z * Z)) : option (Z * Z) :=
  if (first <=? a) && (a <? last) then (fun v => (v.1, Z.lor flags PageFlags_Present)) <$> old else old.

Definition protect_page (m_root flags page_address : Z) : M (Vm F) unit :=
  let! s := mget in
  match walk_to_leaf_table s m_root page_address with
  | None => merr EFAULT
  | Some pt =>
      let entry := entry_of s pt (index_of page_address 1) in
      if negb (has_flag entry PageFlags_Present) then merr EFAULT
      else mmod (set_entry pt (index_of page_address 1) (Z.lor (Z.land entry ADDRESS_MASK) (Z.lor flags PageFlags_Present)))
  end.

Lemma user_same_page s r p r' a : r <> s_kernel_space s -> 0 <= p -> p mod PAGE_SIZE = 0 -> p + PAGE_SIZE <= USER_SPACE_END ->
  same_page s r p r' a = true -> r' = r /\ index_of a 4 < 256 /\ (0 <= a < USER_SPACE_END -> p <= a < p + PAGE_SIZE).
Proof.
  intros Hk H0 Hm He Hs. apply bool_decide_eq_true in Hs as [Ho Hv]. destruct (user_vpn p) as [Vp Ip]; [unfold PAGE_SIZE in *; lia|].
  rewrite own_user in Ho by done. unfold own in Ho. destruct (Z.leb_spec 256 (index_of a 4)); [congruence|]. split_and!; [done|lia|].
  intros Ha. rewrite Vp, (proj1 (user_vpn a Ha)) in Hv. unfold PAGE_SIZE in *. zlia.
Qed.

Lemma protect_page_view s T r p e flags : private_space s T r -> 0 <= p -> p mod PAGE_SIZE = 0 -> p + PAGE_SIZE <= USER_SPACE_END ->
  leaf s r p = Some (1, e) -> Z.land flags ADDRESS_MASK = 0 -> is_u64 flags -> has_flag flags PageFlags_Foreign = false ->
  exists s', protect_page r flags p s = (Ok tt, s') /\ kept s T s' T r
    /\ forall a, 0 <= a < USER_SPACE_END -> view s' r a = relabel_view flags p (p + PAGE_SIZE) a (view s r a).
Proof.
  intros H H0 Hpm Hend He Hm Hu Hfo. destruct H as [Hi Hr Hk Hown] eqn:EH. clear EH. assert (Hx : index_of p 4 < 256) by (apply user_index; unfold PAGE_SIZE in *; lia).
  pose proof (leaf_walk s T r p Hi Hr) as Hw. rewrite He in Hw. destruct (Hw eq_refl) as (pt & Ew & Hpt & Ee & Hp). clear Hw.
  destruct (leaf_entry_facts e flags Hm) as (L1 & L2 & L3). pose proof (index_of_range p 1 ltac:(lia)) as Hix.
  unfold protect_page, mtry, mget. rewrite Ew, <- Ee. unfold present in Hp. rewrite Hp. cbn [negb]. eexists. split; [reflexivity|].
  change (Z.lor (Z.land e ADDRESS_MASK) (Z.lor flags PageFlags_Present)) with (leaf_entry e flags). set (s' := set_entry pt _ _ s).
  assert (Hpt' : T !! pt = Some (mkPlace r 1 (prefix p 1))) by (rewrite Hpt; unfold path_place; cbn; by rewrite own_user).
  assert (I' : vm_inv s' T).
  { apply (retag_inv s T pt r (prefix p 1) (index_of p 1)); try done; rewrite <- Ee; [done|done|]. unfold tracked. by rewrite L3, Hfo, (Hown p 1 e Hx He). }
  pose proof (fun r' a Hr' => leaf_set s T r p pt (leaf_entry e flags) r' a Hi Hr Hr' Hpt) as L. fold s' in L. rewrite L1 in L.
  assert (Hd : forall f i, ~ is_table T f -> frame_ok f -> 0 <= i < 512 -> entry_of s' f i = entry_of s f i).
  { intros f i Hn Hf Hi2. apply slot_set_ne; [exact (place_frame s T pt _ Hi Hpt)|done|done|done|]. left. intros ->. apply Hn. eexists. split; [exact Hpt|cbn; lia]. }
  assert (K : private_space s' T r).
  { split; [done|done|done|]. intros a l x Hxa Hl. rewrite L in Hl by done. destruct (same_page s r p r a); [injection Hl as <- <-; by rewrite L3|by apply (Hown a l x)]. }
  split.
  - split; try done.
    + intros r' a Hr' Ho. rewrite L by done. destruct (same_page s r p r' a) eqn:Es; [|done].
      destruct (user_same_page s r p r' a Hk H0 Hpm Hend Es) as (-> & ? & _). destruct Ho; [done|lia].
    + intros f i _ Hn _ Hf Hi2. by apply Hd.
  - intros a Ha. pose proof (user_index a Ha) as Hxa. pose proof (L r a Hr) as La. unfold relabel_view.
    destruct (same_page s r p r a) eqn:Es.
    + destruct (user_same_page s r p r a Hk H0 Hpm Hend Es) as (_ & _ & Hin). specialize (Hin Ha).
      rewrite (proj2 (Z.leb_le _ _)), (proj2 (Z.ltb_lt _ _)) by lia. cbn [andb].
      assert (Ela : leaf s r a = Some (1, e)) by (rewrite (leaf_same_page s T r p r a Hi Hr Hr Es); done).
      rewrite (view_some _ _ _ _ La), (view_some _ _ _ _ Ela), entry_flags, L2 by done. cbn. do 2 f_equal. fold (table_at e).
      destruct (user_leaf s T r a H Hxa) as [?|(e' & Hl & Hpl)]; [congruence|]. rewrite Ela in Hl. injection Hl as <-.
      apply byte_data; [apply table_at_ok|apply offset_bound|]. intros i Hi2. apply Hd; [|apply table_at_ok|done].
      intros (q & Hq & Hlv). rewrite Hpl in Hq. injection Hq as <-. cbn in Hlv. lia.
    + assert (Hout : (p <=? a) && (a <? p + PAGE_SIZE) = false).
      { destruct (Z.leb_spec p a), (Z.ltb_spec a (p + PAGE_SIZE)); cbn; try done. exfalso. apply bool_decide_eq_false in Es. apply Es.
        rewrite !own_user by done. split; [done|]. rewrite (proj1 (user_vpn a Ha)), (proj1 (user_vpn p ltac:(unfold PAGE_SIZE in *; lia))). unfold PAGE_SIZE in *. zlia. }
      rewrite Hout. destruct (user_leaf s T r a H Hxa) as [Hn|(e1 & He1 & _)]; [by rewrite !view_none by (done || by rewrite La)|].
      apply (view_kept s T s' r a e1 H Hxa He1); [by rewrite La|]. intros f i _ Hn2 Hf Hi2. by apply Hd.
Qed.

Lemma relabel_empty flags first a old : relabel_view flags first first a old = old.
Proof. unfold relabel_view. destruct (Z.leb_spec first a), (Z.ltb_spec a first); cbn [andb]; done || lia. Qed.

Lemma relabel_next flags first p a old : first <= p -> relabel_view flags p (p + PAGE_SIZE) a (relabel_view flags first p a old) = relabel_view flags first (p + PAGE_SIZE) a old.
Proof.
  intros Hp. unfold relabel_view, PAGE_SIZE.
  destruct (Z.leb_spec p a), (Z.ltb_spec a (p + 4096)), (Z.leb_spec first a), (Z.ltb_spec a p); cbn [andb]; try lia; done.
Qed.

Lemma relabel_none flags first last a old : relabel_view flags first last a old = None <-> old = None.
Proof. unfold relabel_view. destruct (_ && _); [|done]. by destruct old. Qed.

Lemma protect_view s T r first last flags : private_space s T r -> Z.land flags ADDRESS_MASK = 0 -> is_u64 flags ->
  has_flag flags PageFlags_Foreign = false -> 0 <= first <= USER_SPACE_END -> first mod PAGE_SIZE = 0 ->
  0 <= last <= USER_SPACE_END -> last mod PAGE_SIZE = 0 -> (forall a, first <= a < last -> view s r a <> None) ->
  exists s', protect r first (u64 (last - first)) flags s = (Ok tt, s') /\ kept s T s' T r
    /\ forall a, 0 <= a < USER_SPACE_END -> view s' r a = relabel_view flags first last a (view s r a).
Proof.
  intros H Hm Hu Hfo Hf Hfm Hl Hlm Hall. destruct (range_any first last Hf Hfm Hl Hlm) as (E1 & E2 & E3). cbv zeta in E2, E3.
  set (n := Z.to_nat ((last - first) / PAGE_SIZE)) in *.
  assert (Ep : protect r first (u64 (last - first)) flags s = mfor n first PAGE_SIZE (protect_page r flags) s) by (unfold protect; by rewrite E1, E2).
  rewrite Ep. set (P := fun k s' => kept s T s' T r
    /\ forall a, 0 <= a < USER_SPACE_END -> view s' r a = relabel_view flags first (first + Z.of_nat k * PAGE_SIZE) a (view s r a)).
  assert (Hstep : forall k s1, (k < n)%nat -> P k s1 -> exists s2, protect_page r flags (first + Z.of_nat k * PAGE_SIZE) s1 = (Ok tt, s2) /\ P (S k) s2).
  { intros k s1 Hk [K V]. set (p := first + Z.of_nat k * PAGE_SIZE) in *. assert (Hpr : first <= p /\ p + PAGE_SIZE <= last) by (unfold p, PAGE_SIZE in *; lia).
    assert (Hpu : 0 <= p < USER_SPACE_END) by (unfold PAGE_SIZE in *; lia).
    destruct (user_leaf s1 T r p (kp_space _ _ _ _ _ K) (user_index p Hpu)) as [Hn|(e & He & _)].
    { exfalso. apply (Hall p ltac:(unfold PAGE_SIZE in *; lia)). apply view_none in Hn. rewrite V in Hn by done. by apply relabel_none in Hn. }
    destruct (protect_page_view s1 T r p e flags (kp_space _ _ _ _ _ K)) as (s2 & E & K2 & V2); [lia|unfold p, PAGE_SIZE in *; zlia|lia|done..|].
    exists s2. split; [done|]. split; [exact (kept_space_trans _ _ _ _ _ _ _ K K2)|]. intros a Ha. rewrite V2, V by done.
    replace (first + Z.of_nat (S k) * PAGE_SIZE) with (p + PAGE_SIZE) by (unfold p; lia). apply relabel_next. lia. }
  pose proof (mfor_ind P (fun _ _ => False) n first PAGE_SIZE (protect_page r flags) s) as G.
  assert (HP : match mfor n first PAGE_SIZE (protect_page r flags) s with (Ok _, s') => P n s' | _ => False end).
  { apply G; [split; [by apply kept_refl|]; intros a _; cbn; by rewrite Z.add_0_r, relabel_empty|].
    intros k s1 Hk H1. destruct (Hstep k s1 Hk H1) as (s2 & -> & H2). done. }
  destruct (mfor n first PAGE_SIZE (protect_page r flags) s) as [[[]|e|] s']; [|done|done]. destruct HP as [K V].
  exists s'. split; [done|]. split; [done|]. intros a Ha. rewrite V, E3 by done. destruct (Z.max_spec first last) as [[_ ->]|[Hle ->]]; [done|].
  rewrite relabel_empty. unfold relabel_view. destruct (Z.leb_spec first a), (Z.ltb_spec a last); cbn [andb]; done || lia.
Qed.

(** What the process reads back. *)
Lemma view_reads s r address bytes : (forall k, 0 <= k < zlen bytes -> exists flags, view s r (address + k) = Some (zget 0 bytes k, flags)) ->
  user_bytes s r address (length bytes) = bytes.
Proof.
  intros H. apply list_eq. intros k. unfold user_bytes. rewrite list_lookup_fmap. destruct (bytes !! k) as [b|] eqn:Hb.
  - pose proof (lookup_lt_Some _ _ _ Hb) as Hk. rewrite lookup_seq_lt by done. cbn. f_equal.
    destruct (H (Z.of_nat k)) as [flags Hv]; [unfold zlen; lia|]. unfold zget in Hv. rewrite Nat2Z.id, Hb in Hv. unfold view in Hv.
    destruct (translate s r (address + Z.of_nat k)), (query s r (address + Z.of_nat k)); try done. by injection Hv.
  - apply lookup_ge_None in Hb. by rewrite lookup_seq_ge by lia.
Qed.
End View.
