(* ===== verification/Elf.v ===== *)
(** * ELF files

    The structures of kernel/lib/elf.h that the program loader reads.  They are
    packed, so a structure is its fields one after the other, each little-endian. *)

From S2P Require Import Prelude AddressSpace.

Fixpoint unpack_fields (sizes bytes : list Z) : list Z :=
  match sizes with
  | [] => []
  | n :: rest => little_endian_to_Z 8 (slice bytes 0 n) :: unpack_fields rest (drop (Z.to_nat n) bytes)
  end.

Fixpoint pack_fields (sizes values : list Z) : list Z :=
  match sizes, values with
  | n :: sizes, v :: values => Z_to_little_endian n 8 v ++ pack_fields sizes values
  | _, _ => []
  end.

Definition packed_size (sizes : list Z) : Z := foldr Z.add 0 sizes.

(** ** The headers *)

Definition EI_NIDENT : Z := 16.
Definition ET_EXEC : Z := 2.
Definition EM_X86_64 : Z := 62.
Definition PT_LOAD : Z := 1.
Definition PF_X : Z := 1.
Definition PF_W : Z := 2.

Record Elf64_Ehdr := mkEhdr {
  e_ident : list Z;
  e_type : Z;
  e_machine : Z;
  e_version : Z;
  e_entry : Z;
  e_phoff : Z;
  e_shoff : Z;
  e_flags : Z;
  e_ehsize : Z;
  e_phentsize : Z;
  e_phnum : Z;
  e_shentsize : Z;
  e_shnum : Z;
  e_shstrndx : Z;
}.

Record Elf64_Phdr := mkPhdr {
  p_type : Z;
  p_flags : Z;
  p_offset : Z;
  p_vaddr : Z;
  p_paddr : Z;
  p_filesz : Z;
  p_memsz : Z;
  p_align : Z;
}.

Definition EHDR_FIELDS : list Z := replicate (Z.to_nat EI_NIDENT) 1 ++ [2; 2; 4; 8; 8; 8; 4; 2; 2; 2; 2; 2; 2].
Definition PHDR_FIELDS : list Z := [4; 4; 8; 8; 8; 8; 8; 8].
Definition SIZEOF_EHDR : Z := 64.
Definition SIZEOF_PHDR : Z := 56.

Definition ehdr_of_fields (f : list Z) : Elf64_Ehdr :=
  mkEhdr (take (Z.to_nat EI_NIDENT) f) (zget 0 f 16) (zget 0 f 17) (zget 0 f 18) (zget 0 f 19) (zget 0 f 20) (zget 0 f 21)
    (zget 0 f 22) (zget 0 f 23) (zget 0 f 24) (zget 0 f 25) (zget 0 f 26) (zget 0 f 27) (zget 0 f 28).
Definition phdr_of_fields (f : list Z) : Elf64_Phdr :=
  mkPhdr (zget 0 f 0) (zget 0 f 1) (zget 0 f 2) (zget 0 f 3) (zget 0 f 4) (zget 0 f 5) (zget 0 f 6) (zget 0 f 7).

Definition ehdr_fields (h : Elf64_Ehdr) : list Z :=
  e_ident h ++ [e_type h; e_machine h; e_version h; e_entry h; e_phoff h; e_shoff h; e_flags h; e_ehsize h; e_phentsize h;
                e_phnum h; e_shentsize h; e_shnum h; e_shstrndx h].
Definition phdr_fields (p : Elf64_Phdr) : list Z :=
  [p_type p; p_flags p; p_offset p; p_vaddr p; p_paddr p; p_filesz p; p_memsz p; p_align p].

(** A structure in a file, read and written. *)
Definition read_ehdr (bytes : list Z) : Elf64_Ehdr := ehdr_of_fields (unpack_fields EHDR_FIELDS bytes).
Definition read_phdr (bytes : list Z) : Elf64_Phdr := phdr_of_fields (unpack_fields PHDR_FIELDS bytes).
Definition ehdr_bytes (h : Elf64_Ehdr) : list Z := pack_fields EHDR_FIELDS (ehdr_fields h).
Definition phdr_bytes (p : Elf64_Phdr) : list Z := pack_fields PHDR_FIELDS (phdr_fields p).

(** The [n] program headers of a table. *)
Fixpoint read_phdrs (n : nat) (table : list Z) : list Elf64_Phdr :=
  match n with
  | O => []
  | S n' => read_phdr table :: read_phdrs n' (drop (Z.to_nat SIZEOF_PHDR) table)
  end.

Definition is_valid_elf64 (header : Elf64_Ehdr) : bool :=
  (zget 0 (e_ident header) 0 =? 0x7F) && (zget 0 (e_ident header) 1 =? 69) && (zget 0 (e_ident header) 2 =? 76)
  && (zget 0 (e_ident header) 3 =? 70) && (zget 0 (e_ident header) 4 =? 2) && (zget 0 (e_ident header) 5 =? 1)
  && (e_machine header =? EM_X86_64).

Definition flags_for_segment (p_flags : Z) : Z :=
  let flags := Z.lor PageFlags_Present PageFlags_User in
  let flags := if negb (Z.land p_flags PF_W =? 0) then Z.lor flags PageFlags_Writable else flags in
  if Z.land p_flags PF_X =? 0 then Z.lor flags PageFlags_NoExecute else flags.

(** ** Reading what was written *)

Definition fits (n v : Z) : Prop := 0 <= n /\ 0 <= v < 2 ^ (8 * n).

Lemma unpack_pack sizes values rest : Forall2 fits sizes values -> unpack_fields sizes (pack_fields sizes values ++ rest) = values.
Proof.
  intros H. induction H as [|n v sizes values [Hn Hv] H IH]; [done|]. cbn [unpack_fields pack_fields].
  pose proof (length_Z_to_little_endian n 8 v Hn) as Hl. rewrite <- app_assoc. f_equal.
  - unfold slice. change (Z.to_nat 0) with 0%nat. rewrite drop_0, take_app_length' by lia.
    rewrite little_endian_to_Z_to_little_endian by lia. apply Z.mod_small. by rewrite Z.mul_comm.
  - rewrite drop_app_length' by lia. exact IH.
Qed.

Lemma length_pack sizes values : Forall2 fits sizes values -> zlen (pack_fields sizes values) = packed_size sizes.
Proof.
  intros H. induction H as [|n v sizes values [Hn _] H IH]; [done|]. cbn [pack_fields]. rewrite zlen_app, IH. unfold zlen.
  rewrite length_Z_to_little_endian by lia. unfold packed_size. cbn [foldr]. lia.
Qed.

Definition ehdr_ok (h : Elf64_Ehdr) : Prop := Forall2 fits EHDR_FIELDS (ehdr_fields h).
Definition phdr_ok (p : Elf64_Phdr) : Prop := Forall2 fits PHDR_FIELDS (phdr_fields p).

Lemma read_phdr_bytes p rest : phdr_ok p -> read_phdr (phdr_bytes p ++ rest) = p.
Proof. intros H. unfold read_phdr, phdr_bytes. rewrite unpack_pack by done. by destruct p. Qed.

Lemma read_ehdr_bytes h rest : ehdr_ok h -> read_ehdr (ehdr_bytes h ++ rest) = h.
Proof.
  intros H. unfold read_ehdr, ehdr_bytes. rewrite unpack_pack by done. pose proof (Forall2_length _ _ _ H) as Hl.
  destruct h as [ident]. unfold ehdr_fields in *. cbn [e_ident e_type] in *. rewrite length_app in Hl.
  change (29%nat = (length ident + 13)%nat) in Hl. do 16 (destruct ident as [|? ident]; [cbn in Hl; lia|]). destruct ident; [done|cbn in Hl; lia].
Qed.

Lemma read_phdrs_bytes ps rest : Forall phdr_ok ps -> read_phdrs (length ps) (concat (phdr_bytes <$> ps) ++ rest) = ps.
Proof.
  intros H. induction H as [|p ps Hp H IH]; [done|].
  cbn [length fmap list_fmap concat read_phdrs]. rewrite <- app_assoc, read_phdr_bytes by done. f_equal.
  pose proof (length_pack _ _ Hp) as Hl. change (packed_size PHDR_FIELDS) with 56 in Hl. fold (phdr_bytes p) in Hl. unfold zlen in Hl.
  rewrite drop_app_length' by (unfold SIZEOF_PHDR; lia). exact IH.
Qed.

(** What is read fits its fields. *)
Lemma unpack_fits sizes : Forall (fun n => 0 <= n) sizes -> forall bytes, Forall (fun b => 0 <= b < 256) bytes -> Forall2 fits sizes (unpack_fields sizes bytes).
Proof.
  intros H. induction H as [|n sizes Hn H IH]; intros bytes Hb; [constructor|]. cbn [unpack_fields]. constructor; [|by apply IH, Forall_drop].
  split; [done|]. pose proof (little_endian_to_Z_bound 8 (slice bytes 0 n) ltac:(lia)) as Hr. destruct Hr as [H0 Hr].
  { unfold slice. change (Z.to_nat 0) with 0%nat. rewrite drop_0. apply Forall_take. eapply Forall_impl; [exact Hb|]. by intros b. }
  split; [done|]. eapply Z.lt_le_trans; [exact Hr|]. apply Z.pow_le_mono_r; [lia|]. unfold slice. rewrite length_take. lia.
Qed.

Lemma fields_nonneg : Forall (fun n => 0 <= n) EHDR_FIELDS /\ Forall (fun n => 0 <= n) PHDR_FIELDS.
Proof. split; apply (bool_decide_unpack _); vm_compute; exact I. Qed.

(** The widths the loader's arithmetic relies on. *)
Lemma read_phdr_fits bytes : Forall (fun b => 0 <= b < 256) bytes -> let p := read_phdr bytes in
  is_u64 (p_offset p) /\ is_u64 (p_vaddr p) /\ is_u64 (p_filesz p) /\ is_u64 (p_memsz p).
Proof.
  intros Hb. pose proof (unpack_fits PHDR_FIELDS (proj2 fields_nonneg) bytes Hb) as H. unfold read_phdr. revert H.
  generalize (unpack_fields PHDR_FIELDS bytes) as f. intros f H. unfold PHDR_FIELDS in H.
  repeat match goal with H : Forall2 _ (_ :: _) _ |- _ => apply Forall2_cons_inv_l in H as (? & ? & ? & H & ->) end.
  unfold fits in *. cbn -[Z.pow]. unfold is_u64. change (8 * 8) with 64 in *. split_and!; naive_solver.
Qed.

Lemma read_ehdr_fits bytes : Forall (fun b => 0 <= b < 256) bytes -> let h := read_ehdr bytes in
  is_u64 (e_entry h) /\ is_u64 (e_phoff h) /\ 0 <= e_phentsize h < 2 ^ 16 /\ 0 <= e_phnum h < 2 ^ 16.
Proof.
  intros Hb. pose proof (unpack_fits EHDR_FIELDS (proj1 fields_nonneg) bytes Hb) as H. unfold read_ehdr. revert H.
  generalize (unpack_fields EHDR_FIELDS bytes) as f. intros f H. unfold EHDR_FIELDS in H. change (replicate (Z.to_nat EI_NIDENT) 1) with [1;1;1;1;1;1;1;1;1;1;1;1;1;1;1;1] in H. cbn [app] in H.
  repeat match goal with H : Forall2 _ (_ :: _) _ |- _ => apply Forall2_cons_inv_l in H as (? & ? & ? & H & ->) end.
  unfold fits in *. cbn -[Z.pow]. unfold is_u64. change (8 * 8) with 64 in *. change (8 * 2) with 16 in *. split_and!; naive_solver.
Qed.

Lemma flags_for_segment_ok p : Z.land (flags_for_segment p) ADDRESS_MASK = 0 /\ is_u64 (flags_for_segment p)
  /\ has_flag (flags_for_segment p) PageFlags_Foreign = false /\ has_flag (flags_for_segment p) PageFlags_User = true
  /\ has_flag (flags_for_segment p) PageFlags_Writable = negb (Z.land p PF_W =? 0)
  /\ has_flag (flags_for_segment p) PageFlags_NoExecute = (Z.land p PF_X =? 0)
  /\ Z.lor (flags_for_segment p) PageFlags_Present = flags_for_segment p.
Proof. unfold flags_for_segment. destruct (Z.land p PF_W =? 0), (Z.land p PF_X =? 0); cbn [negb]; split_and!; try reflexivity; vm_compute; split; congruence. Qed.
