(* ===== verification/ElfLoader.v ===== *)
(** * Loading a program

    [copy_into_space], [copy_out_of_space] and [load_executable] of
    kernel/sys/elf_loader.cpp.  The loader works on an address space that is not
    active, takes its buffers from the kernel heap and reads an inode; it is proved
    against an interface of each, [BufferHeap] for the heap and [FileInode] for the
    inode. *)

From S2P Require Import Prelude Kstd Words Physical AddressSpace PageTables Boot Spaces Clone AddressSpaces UserMemory Mmap SpaceView Heap Elf.

(** ** What the loader needs of the heap and of the inode *)

(** [bh_inv k L]: the heap is sound and [L] is its blocks in use with their sizes.
    [bh_room] is how many bytes from a block's address on belong to it. *)
Class BufferHeap (K : Type) : Type := {
  bh_inv : K -> gmap Z Z -> Prop;
  bh_kmalloc : Z -> M K Z;
  bh_kzalloc : Z -> M K Z;
  bh_kfree : Z -> M K unit;
  bh_room : K -> Z -> Z;
  bh_kmalloc_spec : forall k L n, bh_inv k L -> size_ok n -> exists p k', bh_kmalloc n k = (Ok p, k')
    /\ (p = 0 /\ bh_inv k' L \/ p <> 0 /\ L !! p = None /\ bh_inv k' (<[p := n]> L));
  bh_kzalloc_spec : forall k L n, bh_inv k L -> size_ok n -> exists p k', bh_kzalloc n k = (Ok p, k')
    /\ (p = 0 /\ bh_inv k' L \/ p <> 0 /\ L !! p = None /\ bh_inv k' (<[p := n]> L));
  bh_kfree_spec : forall k L p n, bh_inv k L -> L !! p = Some n -> p <> 0 ->
    exists k', bh_kfree p k = (Ok tt, k') /\ bh_inv k' (delete p L);
  bh_room_spec : forall k L p n, bh_inv k L -> L !! p = Some n -> n <= bh_room k p;
}.

(** A file's inode: a read returns bytes of the file from its offset on, as many as
    were asked for or fewer, or fails. *)
Class FileInode (I : Type) : Type := {
  fi_content : I -> list Z;
  fi_read : Z -> Z -> M I (list Z);
  fi_bytes : forall i, Forall (fun b => 0 <= b < 256) (fi_content i);
  fi_read_spec : forall i offset length, 0 <= offset -> 0 <= length ->
    match fi_read offset length i with
    | (Ok bytes, i') => fi_content i' = fi_content i /\ exists n, 0 <= n <= length /\ bytes = slice (fi_content i) offset n
    | (Err _, i') => fi_content i' = fi_content i
    | (Panic, _) => False
    end;
}.

Record LoadedExecutable := mkLoaded {
  entry : Z;
  phdr_address : Z;
  phdr_count : Z;
  phdr_entry_size : Z;
  brk_start : Z;
}.

Definition staging_flags : Z :=
  Z.lor (Z.lor (Z.lor PageFlags_Present PageFlags_Writable) PageFlags_User) PageFlags_NoExecute.

(** ** Copying to and from a space that is not active *)

Section Copy.
Context {F : Type} {FA : FrameAllocator F}.
Implicit Types (s : Vm F) (T : gmap Z Place).

(** The loop, with a pass to spare for every byte. *)
Fixpoint copy_in_chunks (fuel : nat) (space destination : Z) (source : list Z) (copied : Z) : M (Vm F) unit :=
  if negb (copied <? zlen source) then mok tt
  else
    match fuel with
    | O => mpanic
    | S fuel' =>
        let address := u64 (destination + copied) in
        let page_offset := Z.land address (PAGE_SIZE - 1) in
        let chunk := Z.min (PAGE_SIZE - page_offset) (zlen source - copied) in
        let! s := mget in
        match translate s space address with
        | Err code => merr code
        | Panic => mpanic
        | Ok frame =>
            mmod (put_bytes frame (slice source copied chunk)) ;!
            copy_in_chunks fuel' space destination source (copied + chunk)
        end
    end.

Definition copy_into_space (space destination : Z) (source : list Z) : M (Vm F) unit :=
  copy_in_chunks (length source) space destination source 0.

(** [memcpy] from consecutive physical addresses. *)
Definition get_bytes s (p n : Z) : list Z := (fun k => byte_at s (p + Z.of_nat k)) <$> seq 0 (Z.to_nat n).

Fixpoint copy_out_chunks (fuel : nat) (space source length : Z) (destination : list Z) : M (Vm F) (list Z) :=
  let copied := zlen destination in
  if negb (copied <? length) then mok destination
  else
    match fuel with
    | O => mpanic
    | S fuel' =>
        let address := u64 (source + copied) in
        let page_offset := Z.land address (PAGE_SIZE - 1) in
        let chunk := Z.min (PAGE_SIZE - page_offset) (length - copied) in
        let! s := mget in
        match translate s space address with
        | Err code => merr code
        | Panic => mpanic
        | Ok frame => copy_out_chunks fuel' space source length (destination ++ get_bytes s frame chunk)
        end
    end.

Definition copy_out_of_space (space source length : Z) : M (Vm F) (list Z) :=
  copy_out_chunks (Z.to_nat length) space source length [].

(** *** What the copies do *)

Lemma chunk_bounds destination source_length copied : 0 <= destination -> destination + source_length <= USER_SPACE_END -> 0 <= copied < source_length ->
  let address := u64 (destination + copied) in
  let chunk := Z.min (PAGE_SIZE - Z.land address (PAGE_SIZE - 1)) (source_length - copied) in
  address = destination + copied /\ 0 <= address < USER_SPACE_END /\ 0 < chunk <= source_length - copied /\ address mod PAGE_SIZE + chunk <= PAGE_SIZE.
Proof.
  intros Hd He Hc address chunk. assert (Hu : USER_SPACE_END < 2 ^ 64) by (vm_compute; done).
  assert (Ea : address = destination + copied) by (apply u64_small; unfold is_u64; lia). unfold chunk. rewrite land_offset by lia.
  pose proof (offset_bound address). split_and!; lia.
Qed.

Lemma slice_rest (l : list Z) p n : 0 <= p -> 0 <= n -> slice l p n ++ drop (Z.to_nat (p + n)) l = drop (Z.to_nat p) l.
Proof. intros Hp Hn. unfold slice. replace (Z.to_nat (p + n)) with (Z.to_nat p + Z.to_nat n)%nat by lia. rewrite <- drop_drop. apply take_drop. Qed.

(** The bytes arrive in order up to the first page that is not there. *)
Lemma copy_in_spec T r source : Forall (fun b => 0 <= b < 256) source -> forall fuel s destination copied, private_space s T r ->
  0 <= destination -> destination + zlen source <= USER_SPACE_END -> 0 <= copied <= zlen source -> (Z.to_nat (zlen source - copied) <= fuel)%nat ->
  match copy_in_chunks fuel r destination source copied s with
  | (Ok _, s') => kept s T s' T r
      /\ (forall a, 0 <= a < USER_SPACE_END -> view s' r a = over_view (destination + copied) (drop (Z.to_nat copied) source) a (view s r a))
      /\ forall a, destination + copied <= a < destination + zlen source -> view s r a <> None
  | (Err e, s') => e = EFAULT /\ kept s T s' T r /\ exists a, destination + copied <= a < destination + zlen source /\ view s r a = None
  | (Panic, _) => False
  end.
Proof.
  intros Hby. induction fuel as [|fuel IH]; intros s destination copied H Hd Hend Hc Hfuel; cbn [copy_in_chunks].
  all: destruct (Z.ltb_spec copied (zlen source)) as [Hlt|Hge]; cbn [negb].
  2,4: split_and!; [by apply kept_refl| |intros a Ha; lia]; intros a Ha; rewrite drop_ge by (unfold zlen in *; lia); unfold over_view; change (zlen []) with 0;
       destruct (Z.leb_spec (destination + copied) a), (Z.ltb_spec a (destination + copied + 0)); cbn [andb]; done || lia.
  { lia. }
  destruct (chunk_bounds destination (zlen source) copied Hd Hend ltac:(lia)) as (Ea & Hau & Hch & Hpg). cbv zeta in *.
  set (address := u64 (destination + copied)) in *. set (chunk := Z.min _ _) in *. unfold mtry at 1, mget.
  destruct (user_leaf s T r address H (user_index address Hau)) as [Hn|(e & He & _)].
  { rewrite translate_leaf, Hn. split_and!; [done|by apply kept_refl|]. exists address. split; [lia|by apply view_none]. }
  rewrite (translate_at _ _ _ _ _ He) by lia. change (2 ^ (12 + 9 * (1 - 1))) with PAGE_SIZE. unfold mtry, mmod.
  assert (Hlen : zlen (slice source copied chunk) = chunk) by (apply zlen_slice; lia).
  destruct (put_bytes_view T r (slice source copied chunk) ltac:(by apply Forall_take, Forall_drop) s address e H) as (K & L & V); [lia..|done|].
  set (s1 := put_bytes _ _ s) in *. specialize (IH s1 destination (copied + chunk) (kp_space _ _ _ _ _ K) Hd Hend ltac:(lia) ltac:(lia)).
  destruct (copy_in_chunks fuel r destination source (copied + chunk) s1) as [[u|code|] s']; [| |done].
  - destruct IH as (K2 & V2 & M2). split_and!; [exact (kept_space_trans _ _ _ _ _ _ _ K K2)| |].
    + intros a Ha. rewrite V2, V by done. replace (destination + (copied + chunk)) with (address + zlen (slice source copied chunk)) by lia.
      rewrite over_view_app, slice_rest, Ea by lia. done.
    + intros a Ha. destruct (decide (a < address + chunk)) as [Hlo|Hhi].
      * assert (El : leaf s r a = Some (1, e)); [|by rewrite (view_some _ _ _ _ El)]. rewrite <- He. apply leaf_same_vpn.
        rewrite (proj1 (user_vpn a ltac:(lia))), (proj1 (user_vpn address Hau)). unfold PAGE_SIZE in *. zlia.
      * specialize (M2 a ltac:(lia)). by rewrite V, over_view_none in M2 by lia.
  - destruct IH as (-> & K2 & a & Ha & Hv). split_and!; [done|exact (kept_space_trans _ _ _ _ _ _ _ K K2)|]. exists a. split; [lia|].
    by rewrite V, over_view_none in Hv by lia.
Qed.

Lemma zget_app_l (l k : list Z) i : 0 <= i < zlen l -> zget 0 (l ++ k) i = zget 0 l i.
Proof. intros Hi. unfold zget. rewrite lookup_app_l; [done|unfold zlen in *; lia]. Qed.

Lemma zget_app_r (l k : list Z) i : zlen l <= i -> zget 0 (l ++ k) i = zget 0 k (i - zlen l).
Proof. intros Hi. unfold zget, zlen in *. rewrite lookup_app_r by lia. do 2 f_equal. lia. Qed.

Lemma zlen_get_bytes s p n : 0 <= n -> zlen (get_bytes s p n) = n.
Proof. intros Hn. unfold zlen, get_bytes. rewrite length_fmap, length_seq. lia. Qed.

Lemma zget_get_bytes s p n i : 0 <= i < n -> zget 0 (get_bytes s p n) i = byte_at s (p + i).
Proof. intros Hi. unfold zget, get_bytes. rewrite list_lookup_fmap, lookup_seq_lt by lia. cbn. do 2 f_equal. lia. Qed.

Definition reads_as s (r address : Z) (bytes : list Z) : Prop :=
  forall k, 0 <= k < zlen bytes -> exists flags, view s r (address + k) = Some (zget 0 bytes k, flags).

Lemma copy_out_spec s T r source length : private_space s T r -> 0 <= source -> source + length <= USER_SPACE_END -> 0 <= length ->
  forall fuel destination, zlen destination <= length -> (Z.to_nat (length - zlen destination) <= fuel)%nat -> reads_as s r source destination ->
  match copy_out_chunks fuel r source length destination s with
  | (Ok bytes, s') => s' = s /\ zlen bytes = length /\ reads_as s r source bytes
  | (Err e, s') => s' = s /\ e = EFAULT /\ exists a, source <= a < source + length /\ view s r a = None
  | (Panic, _) => False
  end.
Proof.
  intros H Hs Hend Hlen. induction fuel as [|fuel IH]; intros destination Hd Hfuel Hr; cbn [copy_out_chunks].
  all: destruct (Z.ltb_spec (zlen destination) length) as [Hlt|Hge]; cbn [negb]; [|split_and!; [done|lia|done]].
  { lia. }
  pose proof (zlen_nonneg destination) as H0.
  destruct (chunk_bounds source length (zlen destination) Hs Hend ltac:(lia)) as (Ea & Hau & Hch & Hpg). cbv zeta in *.
  set (address := u64 (source + zlen destination)) in *. set (chunk := Z.min _ _) in *. unfold mtry at 1, mget.
  destruct (user_leaf s T r address H (user_index address Hau)) as [Hn|(e & He & _)].
  { rewrite translate_leaf, Hn. split_and!; [done|done|]. exists address. split; [lia|by apply view_none]. }
  rewrite (translate_at _ _ _ _ _ He) by lia. change (2 ^ (12 + 9 * (1 - 1))) with PAGE_SIZE.
  apply IH; rewrite ?zlen_app, ?zlen_get_bytes by lia; [lia|lia|]. intros k Hk. rewrite zlen_app, zlen_get_bytes in Hk by lia.
  destruct (decide (k < zlen destination)) as [Hlo|Hhi]; [rewrite zget_app_l by lia; apply Hr; lia|].
  rewrite zget_app_r, zget_get_bytes by lia. exists (Z.land e (u64 (Z.lnot ADDRESS_MASK))).
  assert (El : leaf s r (source + k) = Some (1, e)).
  { rewrite <- He. apply leaf_same_vpn. rewrite (proj1 (user_vpn (source + k) ltac:(lia))), (proj1 (user_vpn address Hau)). unfold PAGE_SIZE in *. zlia. }
  rewrite (view_some _ _ _ _ El). do 3 f_equal. unfold PAGE_SIZE in *. zlia.
Qed.

Lemma reads_over s r address bytes s' : zlen bytes <= USER_SPACE_END - address -> 0 <= address ->
  (forall a, 0 <= a < USER_SPACE_END -> view s' r a = over_view address bytes a (view s r a)) ->
  (forall a, address <= a < address + zlen bytes -> view s r a <> None) -> reads_as s' r address bytes.
Proof.
  intros Hl H0 V Hm k Hk. rewrite V by lia. specialize (Hm (address + k) ltac:(lia)). unfold over_view.
  rewrite (proj2 (Z.leb_le _ _)), (proj2 (Z.ltb_lt _ _)) by lia. cbn [andb]. destruct (view s r (address + k)) as [[b q]|]; [|done].
  exists q. cbn. do 3 f_equal. lia.
Qed.

Lemma reads_unique s r address l k : zlen l = zlen k -> reads_as s r address l -> reads_as s r address k -> l = k.
Proof.
  intros Hl H1 H2. apply list_eq_same_length with (length k); [done|unfold zlen in *; lia|]. intros i x y Hi Hx Hy.
  destruct (H1 (Z.of_nat i)) as [q1 E1]; [unfold zlen in *; lia|]. destruct (H2 (Z.of_nat i)) as [q2 E2]; [unfold zlen in *; lia|].
  rewrite E1 in E2. injection E2 as E2 _. unfold zget in E2. rewrite Nat2Z.id, Hx, Hy in E2. done.
Qed.
End Copy.

(** [copy_out_of_space] reads back what [copy_into_space] wrote.  Into a range of
    a user space that is not active the bytes either all arrive, and reading the
    range returns them, or the call fails with EFAULT because some page of the range
    is not mapped; in neither case does anything change for another space, for the
    kernel, or in a frame that is not one of the space's pages. *)
Theorem copies_round_trip {F} {FA : FrameAllocator F} (s : Vm F) T r destination source :
  private_space s T r -> 0 <= destination -> destination + zlen source <= USER_SPACE_END -> Forall (fun b => 0 <= b < 256) source ->
  match copy_into_space r destination source s with
  | (Ok _, s') => kept s T s' T r /\ copy_out_of_space r destination (zlen source) s' = (Ok source, s')
  | (Err e, s') => e = EFAULT /\ kept s T s' T r /\ exists a, destination <= a < destination + zlen source /\ view s r a = None
  | (Panic, _) => False
  end.
Proof.
  intros H Hd Hend Hby. pose proof (zlen_nonneg source) as H0.
  pose proof (copy_in_spec T r source Hby (length source) s destination 0 H Hd Hend ltac:(lia) ltac:(unfold zlen; lia)) as G.
  unfold copy_into_space. destruct (copy_in_chunks (length source) r destination source 0 s) as [[u|e|] s']; [| |done].
  - destruct G as (K & V & M). rewrite Z.add_0_r in V, M. change (Z.to_nat 0) with 0%nat in V. rewrite drop_0 in V. split; [done|].
    pose proof (reads_over s r destination source s' ltac:(lia) Hd V M) as Hr.
    pose proof (copy_out_spec s' T r destination (zlen source) (kp_space _ _ _ _ _ K) Hd Hend H0 (Z.to_nat (zlen source)) []) as G.
    specialize (G ltac:(change (zlen []) with 0; lia) ltac:(change (zlen []) with 0; lia) ltac:(intros k Hk; change (zlen []) with 0 in Hk; lia)).
    unfold copy_out_of_space. destruct (copy_out_chunks _ _ _ _ _ _) as [[bytes|e|] s2]; [| |done].
    + destruct G as (-> & Hl & Hb). by rewrite (reads_unique s' r destination bytes source Hl Hb Hr).
    + destruct G as (_ & _ & a & Ha & Hv). destruct (Hr (a - destination)) as [q Hq]; [lia|].
      replace (destination + (a - destination)) with a in Hq by lia. congruence.
  - destruct G as (-> & K & a & Ha & Hv). rewrite Z.add_0_r in Ha. split_and!; [done|done|by exists a].
Qed.

(** ** The loader *)

(** What it works on: memory, the heap and the file being read. *)
Record Loading (F K I : Type) := mkLoading {
  l_vm : Vm F;
  l_heap : K;
  l_file : I;
}.
Arguments mkLoading {F K I}.
Arguments l_vm {F K I}.
Arguments l_heap {F K I}.
Arguments l_file {F K I}.

Section Loader.
Context {F K I : Type} {FA : FrameAllocator F} {BH : BufferHeap K} {FI : FileInode I}.
Implicit Types (s : Loading F K I).

Definition on_vm {A} (m : M (Vm F) A) : M (Loading F K I) A := fun s =>
  let (r, v) := m (l_vm s) in (r, mkLoading v (l_heap s) (l_file s)).
Definition on_heap {A} (m : M K A) : M (Loading F K I) A := fun s =>
  let (r, k) := m (l_heap s) in (r, mkLoading (l_vm s) k (l_file s)).
Definition on_file {A} (m : M I A) : M (Loading F K I) A := fun s =>
  let (r, i) := m (l_file s) in (r, mkLoading (l_vm s) (l_heap s) i).

(** [inode.read] into a buffer of the heap.  Bytes past the end of the block would
    overwrite the block behind it: the machine stops there. *)
Definition read_into (buffer offset length : Z) : M (Loading F K I) (list Z) :=
  let! bytes := on_file (fi_read offset length) in
  let! s := mget in
  if zlen bytes <=? bh_room (l_heap s) buffer then mok bytes else mpanic.

(** The part of the loop under [if (segment.p_filesz > 0)]. *)
Definition load_contents (space program_headers : Z) (segment : Elf64_Phdr) : M (Loading F K I) unit :=
  let! staging := on_heap (bh_kmalloc (p_filesz segment)) in
  if staging =? 0 then on_heap (bh_kfree program_headers) ;! merr ENOMEM
  else
    let! file_bytes := mcatch (read_into staging (p_offset segment) (p_filesz segment)) in
    match file_bytes with
    | inr _ => on_heap (bh_kfree staging) ;! on_heap (bh_kfree program_headers) ;! merr ENOEXEC
    | inl bytes =>
        if negb (zlen bytes =? p_filesz segment) then
          on_heap (bh_kfree staging) ;! on_heap (bh_kfree program_headers) ;! merr ENOEXEC
        else
          let! copied := mcatch (on_vm (copy_into_space space (p_vaddr segment) bytes)) in
          on_heap (bh_kfree staging) ;!
          match copied with
          | inr code => on_heap (bh_kfree program_headers) ;! merr code
          | inl _ => mok tt
          end
    end.

Definition segment_start (segment : Elf64_Phdr) : Z := align_down (p_vaddr segment) PAGE_SIZE.
Definition segment_end (segment : Elf64_Phdr) : Z := align_up (u64 (p_vaddr segment + p_memsz segment)) PAGE_SIZE.

(** The loop's body after its checks; [result] is [result.phdr_address] and
    [highest_address]. *)
Definition populate_segment (space : Z) (header : Elf64_Ehdr) (program_headers_size program_headers : Z)
    (result : Z * Z) (segment : Elf64_Phdr) : M (Loading F K I) (Z * Z) :=
  let start := segment_start segment in
  let end_ := segment_end segment in
  let! mapped := mcatch (on_vm (map_anonymous space start (u64 (end_ - start)) staging_flags)) in
  match mapped with
  | inr code => on_heap (bh_kfree program_headers) ;! merr code
  | inl _ =>
      (if 0 <? p_filesz segment then load_contents space program_headers segment else mok tt) ;!
      let! protected_result := mcatch (on_vm (protect space start (u64 (end_ - start)) (flags_for_segment (p_flags segment)))) in
      match protected_result with
      | inr code => on_heap (bh_kfree program_headers) ;! merr code
      | inl _ =>
          let highest_address := Z.max (snd result) end_ in
          if (p_offset segment <=? e_phoff header)
             && (u64 (e_phoff header + program_headers_size) <=? u64 (p_offset segment + p_filesz segment))
          then mok (u64 (p_vaddr segment + u64 (e_phoff header - p_offset segment)), highest_address)
          else mok (fst result, highest_address)
      end
  end.

Definition load_segment (space : Z) (header : Elf64_Ehdr) (program_headers_size program_headers : Z)
    (result : Z * Z) (segment : Elf64_Phdr) : M (Loading F K I) (Z * Z) :=
  if negb (p_type segment =? PT_LOAD) || (p_memsz segment =? 0) then mok result
  else if (USER_SPACE_END <=? p_vaddr segment) || (USER_SPACE_END <? u64 (p_vaddr segment + p_memsz segment)) then
    on_heap (bh_kfree program_headers) ;! merr ENOEXEC
  else populate_segment space header program_headers_size program_headers result segment.

Fixpoint load_segments (space : Z) (header : Elf64_Ehdr) (program_headers_size program_headers : Z)
    (segments : list Elf64_Phdr) (result : Z * Z) : M (Loading F K I) (Z * Z) :=
  match segments with
  | [] => mok result
  | segment :: rest =>
      let! result := load_segment space header program_headers_size program_headers result segment in
      load_segments space header program_headers_size program_headers rest result
  end.

(** What follows the checks of the file's header. *)
Definition load_program (space : Z) (header : Elf64_Ehdr) : M (Loading F K I) LoadedExecutable :=
  let program_headers_size := e_phnum header * e_phentsize header in
  let! program_headers := on_heap (bh_kmalloc program_headers_size) in
  if program_headers =? 0 then merr ENOMEM
  else
    let! table := read_into program_headers (e_phoff header) program_headers_size in
    if negb (zlen table =? program_headers_size) then on_heap (bh_kfree program_headers) ;! merr ENOEXEC
    else
      let segments := read_phdrs (Z.to_nat (e_phnum header)) table in
      let! result := load_segments space header program_headers_size program_headers segments (0, 0) in
      on_heap (bh_kfree program_headers) ;!
      if snd result =? 0 then merr ENOEXEC
      else mok (mkLoaded (e_entry header) (fst result) (e_phnum header) (e_phentsize header) (snd result)).

Definition load_executable (space : Z) : M (Loading F K I) LoadedExecutable :=
  let! header_bytes := on_file (fi_read 0 SIZEOF_EHDR) in
  if negb (zlen header_bytes =? SIZEOF_EHDR) then merr ENOEXEC
  else
    let header := read_ehdr header_bytes in
    if negb (is_valid_elf64 header) then merr ENOEXEC
    else if negb (e_type header =? ET_EXEC) then merr ENOEXEC
    else if (e_phnum header =? 0) || negb (e_phentsize header =? SIZEOF_PHDR) then merr ENOEXEC
    else
      load_program space header.
End Loader.

(** ** What a program's segments ask for *)

Definition loads (segment : Elf64_Phdr) : bool := (p_type segment =? PT_LOAD) && negb (p_memsz segment =? 0).

Definition in_segment (segment : Elf64_Phdr) (a : Z) : bool := (segment_start segment <=? a) && (a <? segment_end segment).
Definition in_contents (segment : Elf64_Phdr) (a : Z) : bool := (p_vaddr segment <=? a) && (a <? p_vaddr segment + p_filesz segment).

(** One segment over what is there: its bytes of the file, zeroes in the rest of its
    new pages, its flags on all its pages. *)
Definition segment_view (content : list Z) (segment : Elf64_Phdr) (a : Z) (old : option (Z * Z)) : option (Z * Z) :=
  if negb (in_segment segment a) && bool_decide (old = None) then None
  else Some (if in_contents segment a then zget 0 content (p_offset segment + (a - p_vaddr segment)) else from_option fst 0 old,
             if in_segment segment a then flags_for_segment (p_flags segment) else from_option snd 0 old).

Definition program_view (content : list Z) (segments : list Elf64_Phdr) (a : Z) (old : option (Z * Z)) : option (Z * Z) :=
  foldl (fun old segment => if loads segment then segment_view content segment a old else old) old segments.

(** Where the program headers and the end of the program are found. *)
Definition next_result (header : Elf64_Ehdr) (program_headers_size : Z) (result : Z * Z) (segment : Elf64_Phdr) : Z * Z :=
  if loads segment then
    (if (p_offset segment <=? e_phoff header) && (u64 (e_phoff header + program_headers_size) <=? u64 (p_offset segment + p_filesz segment))
     then u64 (p_vaddr segment + u64 (e_phoff header - p_offset segment)) else fst result,
     Z.max (snd result) (segment_end segment))
  else result.

(** The bytes of the segment stay below the end of user space. *)
Definition contained (segment : Elf64_Phdr) : Prop := loads segment = true -> p_vaddr segment + p_filesz segment <= USER_SPACE_END.

(** A segment as a linker makes it, whose bytes are all in the file. *)
Definition well_formed (content : list Z) (segment : Elf64_Phdr) : Prop := loads segment = true ->
  p_filesz segment <= p_memsz segment /\ p_vaddr segment + p_memsz segment <= USER_SPACE_END
  /\ p_offset segment + p_filesz segment <= zlen content.

Lemma zlen_slice_le (l : list Z) p n : 0 <= n -> zlen (slice l p n) <= n.
Proof. intros Hn. unfold slice, zlen. rewrite length_take. lia. Qed.

Lemma zget_slice (l : list Z) p n i : 0 <= p -> 0 <= i < n -> zget 0 (slice l p n) i = zget 0 l (p + i).
Proof.
  intros Hp Hi. unfold zget, slice. rewrite lookup_take. replace (Z.to_nat (p + i)) with (Z.to_nat p + Z.to_nat i)%nat by lia.
  rewrite decide_True by lia. by rewrite lookup_drop.
Qed.

(** The three steps of the loop's body amount to that. *)
Lemma segment_steps content segment a old : is_u64 (p_offset segment) -> is_u64 (p_filesz segment) ->
  zlen (slice content (p_offset segment) (p_filesz segment)) = p_filesz segment ->
  (in_contents segment a = true -> fresh_view staging_flags (segment_start segment) (segment_end segment) a old <> None) ->
  relabel_view (flags_for_segment (p_flags segment)) (segment_start segment) (segment_end segment) a
    (over_view (p_vaddr segment) (slice content (p_offset segment) (p_filesz segment)) a
      (fresh_view staging_flags (segment_start segment) (segment_end segment) a old))
  = segment_view content segment a old.
Proof.
  intros Ho Hf Hl Hin. unfold is_u64 in *. destruct (flags_for_segment_ok (p_flags segment)) as (_ & _ & _ & _ & _ & _ & Hpr).
  unfold relabel_view, over_view. rewrite Hl, Hpr. unfold segment_view. fold (in_segment segment a). fold (in_contents segment a).
  unfold fresh_view in *. fold (in_segment segment a) in *. unfold in_contents in *.
  destruct (Z.leb_spec (p_vaddr segment) a), (Z.ltb_spec a (p_vaddr segment + p_filesz segment)); cbn [andb] in *;
    destruct old as [[b q]|], (in_segment segment a); cbn; rewrite ?zget_slice by lia; try done; by destruct (Hin eq_refl).
Qed.

(** ** The loader's steps *)

Section Steps.
Context {F K I : Type} {FA : FrameAllocator F} {BH : BufferHeap K} {FI : FileInode I}.
Implicit Types (s : Loading F K I) (T : gmap Z Place) (L : gmap Z Z).

(** Reads that neither fail nor stop short. *)
Definition reliable (i : I) : Prop :=
  forall offset length, 0 <= offset -> 0 <= length -> fi_read offset length i = (Ok (slice (fi_content i) offset length), i).

(** What every call of the loader leaves: memory changed only in the space being
    built, the blocks [L] in use, the file as it was. *)
Record advanced s T (r : Z) s' T' L : Prop := {
  ad_kept : kept (l_vm s) T (l_vm s') T' r;
  ad_heap : bh_inv (l_heap s') L;
  ad_file : fi_content (l_file s') = fi_content (l_file s);
  ad_reliable : reliable (l_file s) -> reliable (l_file s');
}.

Lemma advanced_trans s1 T1 r s2 T2 L2 s3 T3 L3 : advanced s1 T1 r s2 T2 L2 -> advanced s2 T2 r s3 T3 L3 -> advanced s1 T1 r s3 T3 L3.
Proof.
  intros A B. split; [exact (kept_space_trans _ _ _ _ _ _ _ (ad_kept _ _ _ _ _ _ A) (ad_kept _ _ _ _ _ _ B))|apply B| |].
  - by rewrite (ad_file _ _ _ _ _ _ B), (ad_file _ _ _ _ _ _ A).
  - intros Hr. by apply (ad_reliable _ _ _ _ _ _ B), (ad_reliable _ _ _ _ _ _ A).
Qed.

Lemma kmalloc_step s T L r n : private_space (l_vm s) T r -> bh_inv (l_heap s) L -> size_ok n ->
  exists p s', on_heap (bh_kmalloc n) s = (Ok p, s') /\ l_vm s' = l_vm s /\ l_file s' = l_file s
    /\ (p = 0 /\ advanced s T r s' T L \/ p <> 0 /\ L !! p = None /\ advanced s T r s' T (<[p := n]> L)).
Proof.
  intros Hs Hk Hn. destruct (bh_kmalloc_spec (l_heap s) L n Hk Hn) as (p & k' & E & Hor). unfold on_heap. rewrite E.
  exists p. eexists. split_and!; [done|done|done|]. destruct Hor as [[-> Hi]|(Hp & Hn' & Hi)]; [left|right]; split_and!; try done; (split; [by apply kept_refl|done..]).
Qed.

Lemma kfree_step s T L r p n : private_space (l_vm s) T r -> bh_inv (l_heap s) L -> L !! p = Some n -> p <> 0 ->
  exists s', on_heap (bh_kfree p) s = (Ok tt, s') /\ l_vm s' = l_vm s /\ advanced s T r s' T (delete p L).
Proof.
  intros Hs Hk Hp H0. destruct (bh_kfree_spec (l_heap s) L p n Hk Hp H0) as (k' & E & Hi). unfold on_heap. rewrite E.
  eexists. split_and!; [done|done|]. by split; [apply kept_refl|..].
Qed.

(** Reading a block's worth of the file stays inside the block. *)
Lemma read_into_step s T L r p offset n : private_space (l_vm s) T r -> bh_inv (l_heap s) L -> L !! p = Some n -> 0 <= offset -> 0 <= n ->
  match read_into p offset n s with
  | (Ok bytes, s') => l_vm s' = l_vm s /\ advanced s T r s' T L
      /\ (zlen bytes = n -> bytes = slice (fi_content (l_file s)) offset n)
      /\ (reliable (l_file s) -> bytes = slice (fi_content (l_file s)) offset n)
  | (Err _, s') => l_vm s' = l_vm s /\ advanced s T r s' T L /\ ~ reliable (l_file s)
  | (Panic, _) => False
  end.
Proof.
  intros Hs Hk Hp Ho Hn. unfold read_into, mtry at 1, on_file. pose proof (fi_read_spec (l_file s) offset n Ho Hn) as Hr.
  assert (Hrel : forall x, fi_read offset n (l_file s) = x -> reliable (l_file s) -> x = (Ok (slice (fi_content (l_file s)) offset n), l_file s)) by (intros x <- Hr'; by apply Hr').
  destruct (fi_read offset n (l_file s)) as [[bytes|e|] i']; [| |done].
  - destruct Hr as (Hc & m & Hm & Hb). unfold mtry, mget. cbn [l_heap].
    assert (Hl : zlen bytes <= m) by (rewrite Hb; apply zlen_slice_le; lia). pose proof (bh_room_spec _ _ _ _ Hk Hp) as Hroom.
    rewrite (proj2 (Z.leb_le _ _)) by lia. specialize (Hrel _ eq_refl). split_and!; [done| | |].
    + split; [by apply kept_refl|done|done|]. intros Hr'. by injection (Hrel Hr') as _ ->.
    + intros Hz. rewrite Hb. f_equal. lia.
    + intros Hr'. by injection (Hrel Hr') as -> _.
  - split_and!; [done| |intros Hr'; by specialize (Hrel _ eq_refl Hr')]. split; [by apply kept_refl|done|done|]. intros Hr'. by specialize (Hrel _ eq_refl Hr').
Qed.

Lemma fail_step {A} s T L r p n e : private_space (l_vm s) T r -> bh_inv (l_heap s) L -> L !! p = Some n -> p <> 0 ->
  exists s', (on_heap (bh_kfree p) ;! merr (A := A) e) s = (Err e, s') /\ l_vm s' = l_vm s /\ advanced s T r s' T (delete p L).
Proof.
  intros Hs Hk Hp H0. destruct (kfree_step s T L r p n Hs Hk Hp H0) as (s' & E & Hv & A1). exists s'. by rewrite (mtry_ok _ _ _ _ _ E).
Qed.

Lemma ad_space s T r s' T' L : advanced s T r s' T' L -> private_space (l_vm s') T' r.
Proof. intros A. apply (ad_kept _ _ _ _ _ _ A). Qed.

(** Freeing both buffers on the way out. *)
Lemma fail_both {A} s T L r q m p n e : private_space (l_vm s) T r -> bh_inv (l_heap s) (<[q := m]> L) -> L !! q = None -> q <> 0 -> L !! p = Some n -> p <> 0 ->
  exists s', (on_heap (bh_kfree q) ;! on_heap (bh_kfree p) ;! merr (A := A) e) s = (Err e, s') /\ l_vm s' = l_vm s /\ advanced s T r s' T (delete p L).
Proof.
  intros Hs Hk Hq Hq0 Hp Hp0. destruct (kfree_step s T _ r q m Hs Hk ltac:(apply lookup_insert_eq) Hq0) as (s1 & E1 & V1 & A1).
  rewrite delete_insert_id in A1 by done. rewrite (mtry_ok _ _ _ _ _ E1).
  destruct (fail_step (A := A) s1 T L r p n e (ad_space _ _ _ _ _ _ A1) (ad_heap _ _ _ _ _ _ A1) Hp Hp0) as (s2 & E2 & V2 & A2).
  exists s2. split_and!; [done|congruence|exact (advanced_trans _ _ _ _ _ _ _ _ _ A1 A2)].
Qed.

Lemma copy_step s T L r destination source : private_space (l_vm s) T r -> bh_inv (l_heap s) L -> Forall (fun b => 0 <= b < 256) source ->
  0 <= destination -> destination + zlen source <= USER_SPACE_END ->
  match on_vm (copy_into_space r destination source) s with
  | (Ok _, s') => advanced s T r s' T L
      /\ (forall a, 0 <= a < USER_SPACE_END -> view (l_vm s') r a = over_view destination source a (view (l_vm s) r a))
      /\ forall a, destination <= a < destination + zlen source -> view (l_vm s) r a <> None
  | (Err e, s') => advanced s T r s' T L /\ exists a, destination <= a < destination + zlen source /\ view (l_vm s) r a = None
  | (Panic, _) => False
  end.
Proof.
  intros Hs Hk Hby Hd Hend. pose proof (zlen_nonneg source) as H0. unfold on_vm, copy_into_space.
  pose proof (copy_in_spec T r source Hby (length source) (l_vm s) destination 0 Hs Hd Hend ltac:(lia) ltac:(unfold zlen; lia)) as G.
  destruct (copy_in_chunks (length source) r destination source 0 (l_vm s)) as [[u|e|] v']; [| |done]; rewrite Z.add_0_r in G.
  - change (Z.to_nat 0) with 0%nat in G. rewrite drop_0 in G. destruct G as (K1 & V & M). split_and!; [by split|done|done].
  - destruct G as (_ & K1 & M). split; [by split|done].
Qed.

Definition contents_range (segment : Elf64_Phdr) (a : Z) : Prop := p_vaddr segment <= a < p_vaddr segment + p_filesz segment.

Lemma load_contents_spec s T L r p n segment : private_space (l_vm s) T r -> bh_inv (l_heap s) L -> L !! p = Some n -> p <> 0 ->
  is_u64 (p_offset segment) -> is_u64 (p_vaddr segment) -> 0 < p_filesz segment -> p_vaddr segment + p_filesz segment <= USER_SPACE_END ->
  let content := fi_content (l_file s) in let bytes := slice content (p_offset segment) (p_filesz segment) in
  match load_contents r p segment s with
  | (Ok _, s') => advanced s T r s' T L /\ zlen bytes = p_filesz segment
      /\ (forall a, 0 <= a < USER_SPACE_END -> view (l_vm s') r a = over_view (p_vaddr segment) bytes a (view (l_vm s) r a))
      /\ forall a, contents_range segment a -> view (l_vm s) r a <> None
  | (Err e, s') => advanced s T r s' T (delete p L)
      /\ (reliable (l_file s) -> p_offset segment + p_filesz segment <= zlen content -> (forall a, contents_range segment a -> view (l_vm s) r a <> None) -> e = ENOMEM)
  | (Panic, _) => False
  end.
Proof.
  intros Hs Hk Hp Hp0 Ho Hv Hf Hend content bytes. unfold is_u64 in *.
  assert (Hsz : size_ok (p_filesz segment)) by (unfold size_ok, PAGE_SIZE, HEADER_SIZE; unfold USER_SPACE_END in Hend; lia).
  destruct (kmalloc_step s T L r (p_filesz segment) Hs Hk Hsz) as (q & s1 & E1 & V1 & F1 & Hq). unfold load_contents. rewrite (mtry_ok _ _ _ _ _ E1).
  destruct Hq as [[-> A1]|(Hq0 & Hqn & A1)].
  { rewrite Z.eqb_refl. destruct (fail_step (A := unit) s1 T L r p n ENOMEM (ad_space _ _ _ _ _ _ A1) (ad_heap _ _ _ _ _ _ A1) Hp Hp0) as (s2 & E2 & V2 & A2).
    rewrite E2. split; [exact (advanced_trans _ _ _ _ _ _ _ _ _ A1 A2)|done]. }
  rewrite (proj2 (Z.eqb_neq q 0) Hq0). unfold mtry at 1, mcatch at 1.
  pose proof (read_into_step s1 T _ r q (p_offset segment) (p_filesz segment) (ad_space _ _ _ _ _ _ A1) (ad_heap _ _ _ _ _ _ A1) ltac:(apply lookup_insert_eq) ltac:(lia) ltac:(lia)) as Hr.
  destruct (read_into q (p_offset segment) (p_filesz segment) s1) as [[got|e|] s2]; [| |done].
  2:{ destruct Hr as (V2 & A2 & Hnr).
      destruct (fail_both (A := unit) s2 T L r q _ p n ENOEXEC (ad_space _ _ _ _ _ _ A2) (ad_heap _ _ _ _ _ _ A2) Hqn Hq0 Hp Hp0) as (s3 & E3 & V3 & A3).
      rewrite E3. split; [exact (advanced_trans _ _ _ _ _ _ _ _ _ A1 (advanced_trans _ _ _ _ _ _ _ _ _ A2 A3))|].
      intros Hrel. by destruct (Hnr (ad_reliable _ _ _ _ _ _ A1 Hrel)). }
  destruct Hr as (V2 & A2 & Hlen & Hrel). rewrite F1 in Hlen, Hrel. fold content in Hlen, Hrel. fold bytes in Hlen, Hrel.
  pose proof (advanced_trans _ _ _ _ _ _ _ _ _ A1 A2) as A12.
  destruct (Z.eqb_spec (zlen got) (p_filesz segment)) as [Hz|Hz]; cbn [negb].
  2:{ destruct (fail_both (A := unit) s2 T L r q _ p n ENOEXEC (ad_space _ _ _ _ _ _ A2) (ad_heap _ _ _ _ _ _ A2) Hqn Hq0 Hp Hp0) as (s3 & E3 & V3 & A3).
      rewrite E3. split; [exact (advanced_trans _ _ _ _ _ _ _ _ _ A12 A3)|]. intros Hr1 Hin _. destruct Hz. rewrite (Hrel Hr1).
      apply zlen_slice; lia. }
  assert (got = bytes) as -> by by apply Hlen. unfold mtry at 1, mcatch at 1.
  pose proof (copy_step s2 T _ r (p_vaddr segment) bytes (ad_space _ _ _ _ _ _ A2) (ad_heap _ _ _ _ _ _ A2)) as Hc.
  specialize (Hc ltac:(apply Forall_take, Forall_drop, fi_bytes) ltac:(lia) ltac:(lia)). rewrite V2, V1, Hz in Hc.
  destruct (on_vm (copy_into_space r (p_vaddr segment) bytes) s2) as [[u|e|] s3]; [| |done].
  - destruct Hc as (A3 & V3 & M3). unfold mtry. destruct (kfree_step s3 T _ r q _ (ad_space _ _ _ _ _ _ A3) (ad_heap _ _ _ _ _ _ A3) ltac:(apply lookup_insert_eq) Hq0) as (s4 & E4 & V4 & A4).
    rewrite E4. rewrite delete_insert_id in A4 by done. split_and!; [exact (advanced_trans _ _ _ _ _ _ _ _ _ A12 (advanced_trans _ _ _ _ _ _ _ _ _ A3 A4))|done| |done].
    intros a Ha. by rewrite V4, V3.
  - destruct Hc as (A3 & a & Ha & Hn).
    destruct (fail_both (A := unit) s3 T L r q _ p n e (ad_space _ _ _ _ _ _ A3) (ad_heap _ _ _ _ _ _ A3) Hqn Hq0 Hp Hp0) as (s4 & E4 & V4 & A4).
    unfold mtry in E4 |- *. rewrite E4. split; [exact (advanced_trans _ _ _ _ _ _ _ _ _ A12 (advanced_trans _ _ _ _ _ _ _ _ _ A3 A4))|].
    intros _ _ Hall. by destruct (Hall a Ha).
Qed.

Lemma align_up_bounds v : 0 <= v <= USER_SPACE_END -> v <= align_up v PAGE_SIZE <= USER_SPACE_END /\ align_up v PAGE_SIZE mod PAGE_SIZE = 0.
Proof.
  intros Hv. rewrite align_up_page by (unfold USER_SPACE_END, PAGE_SIZE in *; lia). unfold USER_SPACE_END, PAGE_SIZE in *. split; zlia.
Qed.

Lemma segment_range segment : is_u64 (p_vaddr segment) -> p_vaddr segment < USER_SPACE_END -> u64 (p_vaddr segment + p_memsz segment) <= USER_SPACE_END ->
  0 <= segment_start segment <= USER_SPACE_END /\ segment_start segment <= p_vaddr segment /\ segment_start segment mod PAGE_SIZE = 0
  /\ 0 <= segment_end segment <= USER_SPACE_END /\ segment_end segment mod PAGE_SIZE = 0 /\ u64 (p_vaddr segment + p_memsz segment) <= segment_end segment.
Proof.
  intros Hv Hlt Hend. unfold segment_start, segment_end. rewrite align_down_page by done.
  assert (Hm : 0 <= u64 (p_vaddr segment + p_memsz segment)) by (unfold u64; apply Z.mod_pos_bound; lia).
  destruct (align_up_bounds (u64 (p_vaddr segment + p_memsz segment)) ltac:(lia)) as [? ?]. unfold is_u64, PAGE_SIZE in *. split_and!; try lia; zlia.
Qed.

Lemma staging_flags_ok : Z.land staging_flags ADDRESS_MASK = 0 /\ is_u64 staging_flags /\ has_flag staging_flags PageFlags_Foreign = false.
Proof. split_and!; [reflexivity|split; vm_compute; congruence|reflexivity]. Qed.

(** The contents, when there are any. *)
Lemma contents_step s T L r p n segment : private_space (l_vm s) T r -> bh_inv (l_heap s) L -> L !! p = Some n -> p <> 0 ->
  is_u64 (p_offset segment) -> is_u64 (p_vaddr segment) -> is_u64 (p_filesz segment) -> p_vaddr segment + p_filesz segment <= USER_SPACE_END ->
  let content := fi_content (l_file s) in let bytes := slice content (p_offset segment) (p_filesz segment) in
  match (if 0 <? p_filesz segment then load_contents r p segment else mok tt) s with
  | (Ok _, s') => advanced s T r s' T L /\ zlen bytes = p_filesz segment
      /\ (forall a, 0 <= a < USER_SPACE_END -> view (l_vm s') r a = over_view (p_vaddr segment) bytes a (view (l_vm s) r a))
      /\ forall a, contents_range segment a -> view (l_vm s) r a <> None
  | (Err e, s') => advanced s T r s' T (delete p L)
      /\ (reliable (l_file s) -> p_offset segment + p_filesz segment <= zlen content -> (forall a, contents_range segment a -> view (l_vm s) r a <> None) -> e = ENOMEM)
  | (Panic, _) => False
  end.
Proof.
  intros Hs Hk Hp Hp0 Ho Hv Hf Hend content bytes. destruct (Z.ltb_spec 0 (p_filesz segment)) as [Hpos|Hz]; [by apply (load_contents_spec s T L r p n segment)|].
  assert (E : p_filesz segment = 0) by (unfold is_u64 in Hf; lia). unfold bytes. rewrite E. change (slice content (p_offset segment) 0) with (@nil Z). cbn.
  split_and!; [split; [by apply kept_refl|done..]|done| |intros a Ha; unfold contents_range in Ha; lia].
  intros a Ha. unfold over_view. change (zlen []) with 0. destruct (Z.leb_spec (p_vaddr segment) a), (Z.ltb_spec a (p_vaddr segment + 0)); cbn [andb]; done || lia.
Qed.

(** A segment as read from the file. *)
Definition phdr_fits (segment : Elf64_Phdr) : Prop :=
  is_u64 (p_offset segment) /\ is_u64 (p_vaddr segment) /\ is_u64 (p_filesz segment) /\ is_u64 (p_memsz segment).

Definition load_view (content : list Z) (segment : Elf64_Phdr) (a : Z) (old : option (Z * Z)) : option (Z * Z) :=
  if loads segment then segment_view content segment a old else old.

Lemma fresh_inside segment a old : in_segment segment a = true -> fresh_view staging_flags (segment_start segment) (segment_end segment) a old <> None.
Proof. intros H. unfold fresh_view. fold (in_segment segment a). rewrite H. by destruct old. Qed.

Lemma well_formed_inside content segment a : phdr_fits segment -> well_formed content segment -> loads segment = true ->
  contents_range segment a -> in_segment segment a = true.
Proof.
  intros (Ho & Hv & Hf & Hm) Hw Hl Ha. destruct (Hw Hl) as (H1 & H2 & _). unfold contents_range in Ha. unfold is_u64 in *.
  assert (Eu : u64 (p_vaddr segment + p_memsz segment) = p_vaddr segment + p_memsz segment) by (apply u64_small; unfold is_u64, USER_SPACE_END in *; lia).
  destruct (segment_range segment) as (_ & S1 & _ & _ & _ & S2); [done|lia|lia|]. rewrite Eu in S2. unfold in_segment.
  by rewrite (proj2 (Z.leb_le _ _)), (proj2 (Z.ltb_lt _ _)) by lia.
Qed.

Lemma populate_segment_spec s T L r header size p n result segment : private_space (l_vm s) T r -> bh_inv (l_heap s) L -> L !! p = Some n -> p <> 0 ->
  phdr_fits segment -> p_vaddr segment + p_filesz segment <= USER_SPACE_END -> loads segment = true -> p_vaddr segment < USER_SPACE_END ->
  u64 (p_vaddr segment + p_memsz segment) <= USER_SPACE_END -> let content := fi_content (l_file s) in
  match populate_segment r header size p result segment s with
  | (Ok result', s') => result' = next_result header size result segment /\ exists T', advanced s T r s' T' L
      /\ forall a, 0 <= a < USER_SPACE_END -> view (l_vm s') r a = load_view content segment a (view (l_vm s) r a)
  | (Err e, s') => (exists T', advanced s T r s' T' (delete p L)) /\ (reliable (l_file s) -> well_formed content segment -> e = ENOMEM)
  | (Panic, _) => False
  end.
Proof.
  intros Hs Hk Hp Hp0 Hfit Hcont Hld C1 C2 content. pose proof Hfit as (Ho & Hv & Hf & Hm). unfold populate_segment, next_result, load_view. rewrite Hld.
  destruct (segment_range segment Hv C1 C2) as (S1 & S2 & S3 & S4 & S5 & S6). destruct staging_flags_ok as (G1 & G2 & G3).
  cbv zeta. unfold mtry at 1, mcatch at 1, on_vm at 1.
  pose proof (map_anonymous_view (l_vm s) T r (segment_start segment) (segment_end segment) staging_flags Hs G1 G2 G3 S1 S3 S4 S5) as Ha.
  destruct (map_anonymous r (segment_start segment) _ staging_flags (l_vm s)) as [[u|e|] v1]; [| |done].
  2:{ destruct Ha as (-> & T1 & K1). set (s1 := mkLoading v1 (l_heap s) (l_file s)). assert (A1 : advanced s T r s1 T1 L) by by split.
      destruct (fail_step (A := Z * Z) s1 T1 L r p n ENOMEM (ad_space _ _ _ _ _ _ A1) Hk Hp Hp0) as (s2 & E2 & _ & A2). rewrite E2.
      split; [|done]. exists T1. exact (advanced_trans _ _ _ _ _ _ _ _ _ A1 A2). }
  destruct Ha as (T1 & K1 & V1). set (s1 := mkLoading v1 (l_heap s) (l_file s)). assert (A1 : advanced s T r s1 T1 L) by by split.
  unfold mtry at 1. pose proof (contents_step s1 T1 L r p n segment (ad_space _ _ _ _ _ _ A1) Hk Hp Hp0 Ho Hv Hf Hcont) as Hc. cbv zeta in Hc.
  change (fi_content (l_file s1)) with content in Hc. set (m := (if 0 <? p_filesz segment then _ else mok tt) s1) in *. destruct m as [[u1|e|] s2]; [| |done].
  2:{ destruct Hc as (A2 & Hc). split; [exists T1; exact (advanced_trans _ _ _ _ _ _ _ _ _ A1 A2)|]. intros Hrel Hw.
      apply Hc; [exact Hrel|by destruct (Hw Hld) as (_ & _ & ?)|]. intros a Hra. rewrite V1 by (unfold contents_range, is_u64 in *; lia).
      by apply fresh_inside, (well_formed_inside content). }
  destruct Hc as (A2 & Hzl & V2 & M2). destruct (flags_for_segment_ok (p_flags segment)) as (P1 & P2 & P3 & _).
  destruct (protect_view (l_vm s2) T1 r (segment_start segment) (segment_end segment) (flags_for_segment (p_flags segment)) (ad_space _ _ _ _ _ _ A2) P1 P2 P3 S1 S3 S4 S5) as (v3 & E3 & K3 & V3).
  { intros a Ha. rewrite V2, V1 by lia. rewrite over_view_none. apply fresh_inside. unfold in_segment. by rewrite (proj2 (Z.leb_le _ _)), (proj2 (Z.ltb_lt _ _)) by lia. }
  unfold mtry, mcatch, on_vm. rewrite E3. set (s3 := mkLoading v3 (l_heap s2) (l_file s2)).
  assert (A3 : advanced s2 T1 r s3 T1 L) by (split; [done|apply A2|done..]). pose proof (advanced_trans _ _ _ _ _ _ _ _ _ A1 (advanced_trans _ _ _ _ _ _ _ _ _ A2 A3)) as A.
  assert (V : forall a, 0 <= a < USER_SPACE_END -> view (l_vm s3) r a = segment_view content segment a (view (l_vm s) r a)).
  { intros a Ha. cbn [s3 l_vm]. rewrite V3, V2, V1 by done. apply segment_steps; [done|done|done|]. intros Hic. rewrite <- V1 by done. apply M2.
    unfold in_contents in Hic. unfold contents_range. apply andb_true_iff in Hic as [? ?]. lia. }
  destruct (_ && _); (split; [done|]); exists T1; split; done.
Qed.

Lemma load_segment_spec s T L r header size p n result segment : private_space (l_vm s) T r -> bh_inv (l_heap s) L -> L !! p = Some n -> p <> 0 ->
  phdr_fits segment -> contained segment -> let content := fi_content (l_file s) in
  match load_segment r header size p result segment s with
  | (Ok result', s') => result' = next_result header size result segment /\ exists T', advanced s T r s' T' L
      /\ forall a, 0 <= a < USER_SPACE_END -> view (l_vm s') r a = load_view content segment a (view (l_vm s) r a)
  | (Err e, s') => (exists T', advanced s T r s' T' (delete p L)) /\ (reliable (l_file s) -> well_formed content segment -> e = ENOMEM)
  | (Panic, _) => False
  end.
Proof.
  intros Hs Hk Hp Hp0 Hfit Hcont content. pose proof Hfit as (Ho & Hv & Hf & Hm). unfold load_segment.
  assert (Hld : loads segment = negb (negb (p_type segment =? PT_LOAD) || (p_memsz segment =? 0))) by (unfold loads; by destruct (p_type segment =? PT_LOAD)).
  destruct (negb (p_type segment =? PT_LOAD) || (p_memsz segment =? 0)); cbn [negb] in Hld.
  { unfold next_result, load_view. rewrite Hld. split; [done|]. exists T. split; [|done]. split; [by apply kept_refl|done..]. }
  specialize (Hcont Hld). destruct ((USER_SPACE_END <=? p_vaddr segment) || _) eqn:Echk.
  { destruct (fail_step (A := Z * Z) s T L r p n ENOEXEC Hs Hk Hp Hp0) as (s1 & E1 & _ & A1). rewrite E1. split; [by exists T|]. intros _ Hw. exfalso.
    destruct (Hw Hld) as (H1 & H2 & _). assert (Hnz : p_memsz segment <> 0) by (intros E; unfold loads in Hld; by rewrite E, andb_false_r in Hld). unfold is_u64 in *.
    rewrite u64_small in Echk by (unfold is_u64, USER_SPACE_END in *; lia). apply orb_true_iff in Echk as [E|E]; lia. }
  apply orb_false_iff in Echk as [C1 C2]. apply Z.leb_gt in C1. apply Z.ltb_ge in C2.
  by apply (populate_segment_spec s T L r header size p n result segment).
Qed.

Lemma load_segments_spec r header size p n segments : p <> 0 -> Forall phdr_fits segments -> Forall contained segments -> forall s T L result,
  private_space (l_vm s) T r -> bh_inv (l_heap s) L -> L !! p = Some n -> let content := fi_content (l_file s) in
  match load_segments r header size p segments result s with
  | (Ok result', s') => result' = foldl (next_result header size) result segments /\ exists T', advanced s T r s' T' L
      /\ forall a, 0 <= a < USER_SPACE_END -> view (l_vm s') r a = program_view content segments a (view (l_vm s) r a)
  | (Err e, s') => (exists T', advanced s T r s' T' (delete p L)) /\ (reliable (l_file s) -> Forall (well_formed content) segments -> e = ENOMEM)
  | (Panic, _) => False
  end.
Proof.
  intros Hp0 Hfit. induction Hfit as [|segment segments Hf Hfit IH]; intros Hc s T L result Hs Hk Hp content.
  { cbn. split; [done|]. exists T. split; [|done]. split; [by apply kept_refl|done..]. }
  apply Forall_cons in Hc as [Hc1 Hc]. cbn [load_segments]. unfold mtry.
  pose proof (load_segment_spec s T L r header size p n result segment Hs Hk Hp Hp0 Hf Hc1) as H1. cbv zeta in H1. fold content in H1.
  destruct (load_segment r header size p result segment s) as [[result1|e|] s1]; [| |done].
  2:{ destruct H1 as [H1 H2]. split; [done|]. intros Hr Hw. apply Forall_cons in Hw as [Hw _]. by apply H2. }
  destruct H1 as (-> & T1 & A1 & V1). specialize (IH Hc s1 T1 L (next_result header size result segment) (ad_space _ _ _ _ _ _ A1) (ad_heap _ _ _ _ _ _ A1) Hp).
  cbv zeta in IH. rewrite (ad_file _ _ _ _ _ _ A1) in IH. fold content in IH.
  destruct (load_segments r header size p segments _ s1) as [[result2|e|] s2]; [| |done].
  - destruct IH as (-> & T2 & A2 & V2). split; [done|]. exists T2. split; [exact (advanced_trans _ _ _ _ _ _ _ _ _ A1 A2)|].
    intros a Ha. by rewrite V2, V1.
  - destruct IH as [(T2 & A2) H2]. split; [exists T2; exact (advanced_trans _ _ _ _ _ _ _ _ _ A1 A2)|].
    intros Hr Hw. apply Forall_cons in Hw as [_ Hw]. apply H2; [by apply (ad_reliable _ _ _ _ _ _ A1)|done].
Qed.

(** ** The program in a file *)

Definition header_of_file (content : list Z) : Elf64_Ehdr := read_ehdr (slice content 0 SIZEOF_EHDR).
Definition table_size (content : list Z) : Z := e_phnum (header_of_file content) * e_phentsize (header_of_file content).
Definition table_of_file (content : list Z) : list Z := slice content (e_phoff (header_of_file content)) (table_size content).
Definition segments_of_file (content : list Z) : list Elf64_Phdr :=
  read_phdrs (Z.to_nat (e_phnum (header_of_file content))) (table_of_file content).

Definition header_ok (content : list Z) : bool :=
  (zlen (slice content 0 SIZEOF_EHDR) =? SIZEOF_EHDR) && is_valid_elf64 (header_of_file content)
  && (e_type (header_of_file content) =? ET_EXEC) && negb (e_phnum (header_of_file content) =? 0)
  && (e_phentsize (header_of_file content) =? SIZEOF_PHDR).
Definition is_program (content : list Z) : bool := header_ok content && (zlen (table_of_file content) =? table_size content).

Definition program_result (content : list Z) : Z * Z :=
  foldl (next_result (header_of_file content) (table_size content)) (0, 0) (segments_of_file content).
Definition executable_of (content : list Z) : LoadedExecutable :=
  let header := header_of_file content in
  mkLoaded (e_entry header) (fst (program_result content)) (e_phnum header) (e_phentsize header) (snd (program_result content)).

Lemma read_phdrs_fit n table : Forall (fun b => 0 <= b < 256) table -> Forall phdr_fits (read_phdrs n table).
Proof.
  revert table. induction n as [|n IH]; intros table H; [constructor|]. cbn [read_phdrs].
  constructor; [by apply read_phdr_fits|by apply IH, Forall_drop].
Qed.

(** What the heap holds after a failure: what it held before, and the buffer of the
    program headers when reading into it failed. *)
Definition blocks_after L L' : Prop := L' = L \/ exists p n, L !! p = None /\ L' = <[p := n]> L.

Definition load_outcome s T L (r : Z) (out : Res LoadedExecutable * Loading F K I) : Prop :=
  let content := fi_content (l_file s) in
  match out with
  | (Ok x, s') => x = executable_of content /\ is_program content = true /\ exists T', advanced s T r s' T' L
      /\ forall a, 0 <= a < USER_SPACE_END -> view (l_vm s') r a = program_view content (segments_of_file content) a (view (l_vm s) r a)
  | (Err e, s') => (exists T' L', advanced s T r s' T' L' /\ blocks_after L L' /\ (reliable (l_file s) -> L' = L))
      /\ (reliable (l_file s) -> is_program content = true -> Forall (well_formed content) (segments_of_file content) -> e = ENOMEM \/ snd (program_result content) = 0)
  | (Panic, _) => False
  end.

Lemma load_outcome_after s T L r s1 out : advanced s T r s1 T L -> l_vm s1 = l_vm s -> load_outcome s1 T L r out -> load_outcome s T L r out.
Proof.
  intros A1 E G. unfold load_outcome in *. rewrite (ad_file _ _ _ _ _ _ A1), E in G. pose proof (ad_reliable _ _ _ _ _ _ A1) as R1.
  destruct out as [[x|e|] s']; [| |done].
  - destruct G as (-> & G1 & T' & A2 & V). split_and!; [done|done|]. exists T'. split; [exact (advanced_trans _ _ _ _ _ _ _ _ _ A1 A2)|done].
  - destruct G as [(T' & L' & A2 & B & G1) G2]. split; [|tauto]. exists T', L'. split_and!; [exact (advanced_trans _ _ _ _ _ _ _ _ _ A1 A2)|done|tauto].
Qed.

Lemma load_program_spec s T L r : private_space (l_vm s) T r -> bh_inv (l_heap s) L -> let content := fi_content (l_file s) in
  header_ok content = true -> Forall contained (segments_of_file content) ->
  load_outcome s T L r (load_program r (header_of_file content) s).
Proof.
  intros Hs Hk content Hh Hc. unfold load_outcome. fold content. cbv zeta. unfold load_program. fold (table_size content). pose proof Hh as Hh'. unfold header_ok in Hh'.
  apply andb_true_iff in Hh' as [Hh' He]. apply andb_true_iff in Hh' as [Hh' Hn]. apply Z.eqb_eq in He. apply negb_true_iff, Z.eqb_neq in Hn.
  destruct (read_ehdr_fits (slice content 0 SIZEOF_EHDR)) as (_ & Hoff & _ & Hnum); [apply Forall_take, Forall_drop, fi_bytes|].
  fold (header_of_file content) in Hoff, Hnum.
  assert (Hsz : 0 < table_size content < 2 ^ 32) by (unfold table_size; rewrite He; unfold SIZEOF_PHDR; lia).
  destruct (kmalloc_step s T L r (table_size content) Hs Hk) as (p & s1 & E1 & V1 & F1 & Hp); [unfold size_ok, PAGE_SIZE, HEADER_SIZE; lia|].
  rewrite (mtry_ok _ _ _ _ _ E1). destruct Hp as [[-> A1]|(Hp0 & Hpn & A1)].
  { rewrite Z.eqb_refl. cbn. split; [exists T, L; split_and!; [done|by left|done]|by left]. }
  rewrite (proj2 (Z.eqb_neq p 0) Hp0). unfold mtry at 1.
  pose proof (read_into_step s1 T _ r p (e_phoff (header_of_file content)) (table_size content) (ad_space _ _ _ _ _ _ A1) (ad_heap _ _ _ _ _ _ A1) ltac:(apply lookup_insert_eq) ltac:(unfold is_u64 in *; lia) ltac:(lia)) as Hr.
  rewrite F1 in Hr. fold content in Hr. fold (table_of_file content) in Hr. destruct (read_into p _ _ s1) as [[table|e|] s2]; [| |done].
  2:{ destruct Hr as (V2 & A2 & Hnr). split; [|by intros Hrel; destruct (Hnr Hrel)]. exists T, (<[p := table_size content]> L).
      split_and!; [exact (advanced_trans _ _ _ _ _ _ _ _ _ A1 A2)|right; by exists p, (table_size content)|intros Hrel; by destruct (Hnr Hrel)]. }
  destruct Hr as (V2 & A2 & Hlen & Hrel). pose proof (advanced_trans _ _ _ _ _ _ _ _ _ A1 A2) as A12. unfold is_program. rewrite Hh. cbn [andb].
  destruct (Z.eqb_spec (zlen table) (table_size content)) as [Hz|Hz]; cbn [negb].
  2:{ destruct (fail_step (A := LoadedExecutable) s2 T _ r p _ ENOEXEC (ad_space _ _ _ _ _ _ A2) (ad_heap _ _ _ _ _ _ A2) ltac:(apply lookup_insert_eq) Hp0) as (s3 & E3 & _ & A3).
      rewrite E3, delete_insert_id in * by done. split; [exists T, L; split_and!; [exact (advanced_trans _ _ _ _ _ _ _ _ _ A12 A3)|by left|done]|].
      intros Hr Hzl _. destruct Hz. rewrite (Hrel Hr). by apply Z.eqb_eq in Hzl. }
  assert (table = table_of_file content) as -> by by apply Hlen. rewrite (proj2 (Z.eqb_eq _ _) Hz). fold (segments_of_file content). unfold mtry at 1.
  pose proof (load_segments_spec r (header_of_file content) (table_size content) p (table_size content) (segments_of_file content) Hp0) as Hl.
  specialize (Hl ltac:(apply read_phdrs_fit, Forall_take, Forall_drop, fi_bytes) Hc s2 T _ (0, 0) (ad_space _ _ _ _ _ _ A2) (ad_heap _ _ _ _ _ _ A2) ltac:(apply lookup_insert_eq)).
  cbv zeta in Hl. rewrite (ad_file _ _ _ _ _ _ A12) in Hl. fold content in Hl. rewrite V2, V1 in Hl.
  destruct (load_segments r _ _ p (segments_of_file content) (0, 0) s2) as [[result|e|] s3]; [| |done].
  - destruct Hl as (-> & T3 & A3 & V3). fold (program_result content). unfold mtry at 1.
    destruct (kfree_step s3 T3 _ r p _ (ad_space _ _ _ _ _ _ A3) (ad_heap _ _ _ _ _ _ A3) ltac:(apply lookup_insert_eq) Hp0) as (s4 & E4 & V4 & A4).
    rewrite E4, delete_insert_id in * by done. pose proof (advanced_trans _ _ _ _ _ _ _ _ _ A12 (advanced_trans _ _ _ _ _ _ _ _ _ A3 A4)) as A.
    destruct (Z.eqb_spec (snd (program_result content)) 0) as [E0|E0]; cbn.
    + split; [exists T3, L; split_and!; [done|by left|done]|by right].
    + split_and!; [done|done|]. exists T3. split; [done|]. intros a Ha. by rewrite V4, V3.
  - destruct Hl as [(T3 & A3) Hw]. rewrite delete_insert_id in A3 by done. split.
    + exists T3, L. split_and!; [exact (advanced_trans _ _ _ _ _ _ _ _ _ A12 A3)|by left|done].
    + intros Hr _ Hall. left. apply Hw; [by apply (ad_reliable _ _ _ _ _ _ A12)|done].
Qed.

Lemma highest_mono header size segments : forall result, snd result <= snd (foldl (next_result header size) result segments).
Proof.
  induction segments as [|segment segments IH]; intros result; [done|]. cbn [foldl]. etransitivity; [|apply IH].
  unfold next_result. destruct (loads segment); cbn [snd]; lia.
Qed.

Lemma highest_positive content header size segments segment : Forall phdr_fits segments -> Forall (well_formed content) segments ->
  segment ∈ segments -> loads segment = true -> forall result, 0 < snd (foldl (next_result header size) result segments).
Proof.
  intros Hfit Hw Hin Hl. induction segments as [|x segments IH]; intros result; [by apply elem_of_nil in Hin|].
  apply Forall_cons in Hfit as [Hf Hfit]. apply Forall_cons in Hw as [Hwx Hw]. cbn [foldl]. apply elem_of_cons in Hin as [->|Hin]; [|by apply IH].
  eapply Z.lt_le_trans; [|apply highest_mono]. unfold next_result. rewrite Hl. cbn [snd]. destruct (Hwx Hl) as (W1 & W2 & _). destruct Hf as (_ & Fv & Ff & Fm).
  assert (p_memsz x <> 0) by (intros E; unfold loads in Hl; by rewrite E, andb_false_r in Hl). unfold is_u64 in *.
  assert (Eu : u64 (p_vaddr x + p_memsz x) = p_vaddr x + p_memsz x) by (apply u64_small; unfold is_u64, USER_SPACE_END in *; lia).
  destruct (segment_range x) as (_ & _ & _ & _ & _ & S); [done|lia|lia|]. lia.
Qed.

(** A program with something to load ends above zero. *)
Lemma loads_something content : Forall (fun b => 0 <= b < 256) content -> Forall (well_formed content) (segments_of_file content) ->
  (exists segment, segment ∈ segments_of_file content /\ loads segment = true) -> snd (program_result content) <> 0.
Proof.
  intros Hb Hw (segment & Hin & Hl). unfold program_result.
  pose proof (highest_positive content (header_of_file content) (table_size content) (segments_of_file content) segment) as Hh.
  specialize (Hh ltac:(by apply read_phdrs_fit, Forall_take, Forall_drop) Hw Hin Hl (0, 0)). lia.
Qed.

Lemma load_executable_spec s T L r : private_space (l_vm s) T r -> bh_inv (l_heap s) L -> let content := fi_content (l_file s) in
  Forall contained (segments_of_file content) ->
  load_outcome s T L r (load_executable r s).
Proof.
  intros Hs Hk content Hc. unfold load_executable, mtry at 1, on_file. pose proof (fi_read_spec (l_file s) 0 SIZEOF_EHDR ltac:(lia) ltac:(unfold SIZEOF_EHDR; lia)) as Hr.
  assert (Hrel : forall x, fi_read 0 SIZEOF_EHDR (l_file s) = x -> reliable (l_file s) -> x = (Ok (slice content 0 SIZEOF_EHDR), l_file s)).
  { intros x <- Hr'. apply Hr'; unfold SIZEOF_EHDR; lia. }
  destruct (fi_read 0 SIZEOF_EHDR (l_file s)) as [[bytes|e|] i']; [| |done]; specialize (Hrel _ eq_refl).
  2:{ unfold load_outcome. split; [|intros H'; by specialize (Hrel H')]. exists T, L. split_and!; [|by left|done]. split; [by apply kept_refl|done|done|]. intros H'. by specialize (Hrel H'). }
  destruct Hr as (Hci & n & Hn & Hb). fold content in Hci, Hb. set (s1 := mkLoading (l_vm s) (l_heap s) i').
  assert (A1 : advanced s T r s1 T L) by (split; [by apply kept_refl|done|done|]; intros H'; by injection (Hrel H') as _ ->).
  assert (Hrej : zlen bytes <> SIZEOF_EHDR \/ bytes = slice content 0 SIZEOF_EHDR).
  { destruct (decide (zlen bytes = SIZEOF_EHDR)) as [Hz|Hz]; [right|by left]. rewrite Hb. f_equal. pose proof (zlen_slice_le content 0 n ltac:(lia)). rewrite <- Hb in *. lia. }
  assert (Hfail : is_program content = false \/ ~ reliable (l_file s) -> forall e, load_outcome s T L r (Err e, s1)).
  { intros Hor e. unfold load_outcome. fold content. split; [exists T, L; split_and!; [done|by left|done]|]. intros H1 H2. destruct Hor; [congruence|done]. }
  destruct Hrej as [Hz|Hz].
  { rewrite (proj2 (Z.eqb_neq _ _) Hz). cbn [negb]. apply Hfail. destruct (is_program content) eqn:Ep; [right|by left]. intros H'. injection (Hrel H') as -> _.
    unfold is_program, header_ok in Ep. apply andb_true_iff in Ep as [Ep _]. repeat (apply andb_true_iff in Ep as [Ep _]). by apply Z.eqb_eq in Ep. }
  rewrite Hz. fold (header_of_file content).
  assert (Hno : header_ok content = false -> is_program content = false \/ ~ reliable (l_file s)) by (unfold is_program; intros ->; by left).
  assert (Hyes : header_ok content = true -> load_outcome s T L r (load_program r (header_of_file content) s1)).
  { intros Hh. apply (load_outcome_after s T L r s1); [done|done|]. pose proof (load_program_spec s1 T L r Hs Hk) as G.
    change (fi_content (l_file s1)) with (fi_content i') in G. rewrite Hci in G. by apply G. }
  unfold header_ok in Hno, Hyes. revert Hno Hyes. destruct (zlen (slice content 0 SIZEOF_EHDR) =? SIZEOF_EHDR), (is_valid_elf64 (header_of_file content)), (e_type (header_of_file content) =? ET_EXEC),
    (e_phnum (header_of_file content) =? 0), (e_phentsize (header_of_file content) =? SIZEOF_PHDR); cbn; intros Hno Hyes; try (apply Hfail, Hno; reflexivity). by apply Hyes.
Qed.
End Steps.

(** ** The kernel heap gives the buffers *)

Section KernelHeap.
Context {F : Type} {RA : RunAllocator F}.

Definition block_room (h : Heap F) (p : Z) : Z :=
  let size_class := header_class (h_mem h (header_of p)) in
  (if size_class =? CLASS_LARGE then div_round_up (u64 (h_mem h (header_of p + 8) + HEADER_SIZE)) PAGE_SIZE * PAGE_SIZE
   else csize size_class) - HEADER_SIZE.

Lemma block_room_spec h L O FL p n : heap_inv h L O FL -> L !! p = Some n -> n <= block_room h p.
Proof.
  intros H Hp. destruct (live_header h L O FL p n H Hp) as (_ & Hc & Hs & _). destruct (hi_live _ _ _ _ H p n Hp) as (Hn & _).
  unfold block_room. rewrite Hc, Hs. destruct (class_for_cases n Hn) as [[Hcl Hsz]|[-> _]].
  - rewrite (proj2 (Z.eqb_neq _ _) (class_not_large _ Hcl)). lia.
  - rewrite Z.eqb_refl. destruct (pages_eq n Hn) as (-> & _ & Hsz). lia.
Qed.

#[export] Instance heap_buffers : BufferHeap (Heap F).
Proof.
  refine {| bh_inv := fun h L => L !! 0 = None /\ exists O FL, heap_inv h L O FL; bh_kmalloc := kmalloc; bh_kzalloc := kzalloc; bh_kfree := kfree; bh_room := block_room |}.
  - intros h L n [H0 (O & FL & H)] Hn. destruct (kmalloc_at h L O FL n H Hn) as (p & h' & E & Hor). exists p, h'. split; [done|].
    destruct Hor as [(-> & I & _)|(O' & A)]; [left; split_and!; [done|done|by exists O, FL]|right].
    destruct (al_pointer _ _ _ _ _ _ _ A) as [Hp0 _]. destruct (al_inv _ _ _ _ _ _ _ A) as [FL' I].
    split_and!; [done|apply (al_new _ _ _ _ _ _ _ A)|by rewrite lookup_insert_ne|by exists O', FL'].
  - intros h L n [H0 (O & FL & H)] Hn. destruct (zalloc_safe h L O FL n H Hn) as (h' & L' & O' & FL' & E & I & Hq & _). cbn [heap_exec] in E.
    pose proof (kmalloc_at h L O FL n H Hn) as (p & h1 & Ek & Hor). assert (Ez : exists h2, kzalloc n h = (Ok p, h2)).
    { unfold kzalloc, mtry. rewrite Ek. destruct (p =? 0); cbn [negb]; by eexists. }
    destruct Ez as [h2 Ez]. rewrite Ez in E. injection E as <- <-. exists p, h2. split; [done|].
    destruct Hor as [(-> & _)|(O1 & A)]; [left; split_and!; [done|done|by exists O', FL']|right].
    destruct (al_pointer _ _ _ _ _ _ _ A) as [Hp0 _]. rewrite (proj2 (Z.eqb_neq _ _) Hp0) in I.
    split_and!; [done|apply (al_new _ _ _ _ _ _ _ A)|by rewrite lookup_insert_ne|by exists O', FL'].
  - intros h L p n [H0 (O & FL & H)] Hp Hp0. destruct (kfree_at h L O FL p n H Hp Hp0) as (h' & E & R). exists h'. split; [done|].
    destruct (re_inv _ _ _ _ _ R) as (O' & FL' & I & _). split; [by rewrite lookup_delete_None; right|by exists O', FL'].
  - intros h L p n [_ (O & FL & H)] Hp. by apply (block_room_spec h L O FL).
Defined.
End KernelHeap.

(** A file whose bytes are in memory. *)
Definition list_content (l : list Z) : list Z := (fun b => b mod 256) <$> l.
Definition list_read (offset length : Z) : M (list Z) (list Z) := fun l =>
  (Ok (if zlen l <=? offset then [] else slice (list_content l) offset (Z.min length (zlen l - offset))), l).

Lemma list_read_slice l offset length : 0 <= offset -> 0 <= length -> list_read offset length l = (Ok (slice (list_content l) offset length), l).
Proof.
  intros Ho Hl. unfold list_read. do 2 f_equal. assert (E : zlen (list_content l) = zlen l) by (unfold zlen, list_content; by rewrite length_fmap).
  unfold slice, zlen in *. destruct (Z.leb_spec (Z.of_nat (Datatypes.length l)) offset) as [Hge|Hlt].
  - rewrite drop_ge by lia. by rewrite take_nil.
  - destruct (Z.min_spec length (Z.of_nat (Datatypes.length l) - offset)) as [[_ ->]|[Hle ->]]; [done|].
    rewrite !take_ge by (rewrite length_drop; lia). done.
Qed.

#[export] Instance list_inode : FileInode (list Z).
Proof.
  refine {| fi_content := list_content; fi_read := list_read |}.
  - intros l. apply Forall_fmap, Forall_true. intros b. cbn. by apply Z.mod_pos_bound.
  - intros l offset length Ho Hl. rewrite list_read_slice by done. split; [done|]. exists length. split; [lia|done].
Defined.

Lemma list_reliable l : reliable (I := list Z) l.
Proof. intros offset length Ho Hl. by apply list_read_slice. Qed.

(** ** Programs on a small machine *)

Definition demo_ehdr (count : Z) : Elf64_Ehdr :=
  mkEhdr [0x7F; 69; 76; 70; 2; 1; 1; 0; 0; 0; 0; 0; 0; 0; 0; 0] ET_EXEC EM_X86_64 1 0x4000B0 64 0 0 64 56 count 0 0 0.
Definition program_file (segments : list Elf64_Phdr) (data : list Z) : list Z :=
  ehdr_bytes (demo_ehdr (zlen segments)) ++ concat (phdr_bytes <$> segments) ++ data.

(** A text segment with the headers in it, and data with a tail of zeroes that
    reaches into the next page. *)
Definition demo_text : Elf64_Phdr := mkPhdr PT_LOAD 5 0 0x400000 0x400000 182 182 0x1000.
Definition demo_data : Elf64_Phdr := mkPhdr PT_LOAD 6 178 0x401FFE 0x401FFE 6 0x20 0x1000.
Definition demo_program : list Z := Eval vm_compute in program_file [demo_text; demo_data] [144; 195; 1; 2; 3; 4; 5; 6].

Definition demo_loading (program : list Z) : Loading Pmm (Heap Pmm) (list Z) := mkLoading vm2 demo_heap program.

Lemma vm2_private : exists T, private_space vm2 T user_root.
Proof.
  destruct vm2_user as (T & (I & L & K & Hf) & _). exists T. split; [done|done|done|]. intros a l e _. apply Hf.
Qed.

Lemma demo_heap_inv : bh_inv demo_heap ∅.
Proof. split; [done|]. do 2 eexists. apply heap_initialize_inv. split; [exact demo_inv|]. vm_compute. congruence. Qed.

Lemma demo_loads : fst (load_executable user_root (demo_loading demo_program)) = Ok (mkLoaded 0x4000B0 0x400040 2 56 0x403000).
Proof. vm_compute. reflexivity. Qed.

Lemma demo_contained : Forall contained (segments_of_file (list_content demo_program)).
Proof.
  assert (E : segments_of_file (list_content demo_program) = [demo_text; demo_data]) by (vm_compute; reflexivity). rewrite E.
  repeat constructor; intros _; vm_compute; congruence.
Qed.

(** ** The theorems *)



Lemma vm3_private : exists T, private_space vm3 T user_root.
Proof. destruct vm3_user as (T & I & L & K & Hf). exists T. split; [done|done|done|]. intros a l e _. apply Hf. Qed.

Lemma demo_copy_ok : fst (copy_into_space user_root 0x400FFE [1; 2; 3; 4] vm3) = Ok tt.
Proof. vm_compute. reflexivity. Qed.

Lemma copies_round_trip_witness : exists s', copy_into_space user_root 0x400FFE [1; 2; 3; 4] vm3 = (Ok tt, s')
  /\ copy_out_of_space user_root 0x400FFE 4 s' = (Ok [1; 2; 3; 4], s').
Proof.
  destruct vm3_private as [T P]. pose proof demo_copy_ok as Hok. revert Hok.
  pose proof (copies_round_trip vm3 T user_root 0x400FFE [1; 2; 3; 4] P ltac:(lia) ltac:(vm_compute; congruence) ltac:(repeat constructor; lia)) as G. revert G.
  destruct (copy_into_space user_root 0x400FFE [1; 2; 3; 4] vm3) as [[[]|e|] s']; [|intros _ [=]|intros _ [=]]. intros [_ G] _. by exists s'.
Defined.

(** *** What the missing check lets through *)

(** The machine with the first page of physical memory in the direct map. *)
Definition direct_flags : Z := Z.lor (Z.lor PageFlags_Present PageFlags_Writable) PageFlags_NoExecute.
Definition vm_direct : Vm Pmm := snd (map (s_kernel_space vm2) HHDM_BASE 0 direct_flags vm2).

Lemma vm_direct_ok : fst (map (s_kernel_space vm2) HHDM_BASE 0 direct_flags vm2) = Ok tt.
Proof. vm_compute. reflexivity. Qed.

Lemma direct_private {F} {FA : FrameAllocator F} (s : Vm F) T r s' : private_space s T r ->
  map (s_kernel_space s) HHDM_BASE 0 direct_flags s = (Ok tt, s') -> exists T', private_space s' T' r.
Proof.
  intros [I L K Ho] E. assert (Hown : own s (s_kernel_space s) HHDM_BASE = s_kernel_space s) by reflexivity.
  pose proof (map_spec_at s T (s_kernel_space s) HHDM_BASE 0 direct_flags I (vi_kernel _ _ I) ltac:(split; vm_compute; congruence) eq_refl ltac:(intros [=])) as H.
  unfold tracked in H. rewrite Hown, Z.eqb_refl in H. specialize (H ltac:(intros [=])). rewrite E in H. destruct H as [T' M]. exists T'.
  assert (Hl : forall x, live s' x <-> live s x) by (intros x; rewrite (mp_rest _ _ _ _ _ _ _ M); apply (resident_live (with_mem (mem s') (with_frames (frames s') s)))).
  assert (Hk : s_kernel_space s' = s_kernel_space s) by (by rewrite (mp_rest _ _ _ _ _ _ _ M)).
  split; [apply M|by apply Hl|by rewrite Hk|]. intros a l e Ha He. rewrite (mp_leaf _ _ _ _ _ _ _ M) in He by done.
  destruct (same_page s (s_kernel_space s) HHDM_BASE r a) eqn:Es; [|by apply (Ho a l e)].
  apply bool_decide_eq_true in Es as [Es _]. rewrite Hown, (own_user s r a Ha) in Es. congruence.
Qed.

Lemma vm_direct_private : exists T, private_space vm_direct T user_root.
Proof.
  destruct vm2_private as [T P]. apply (direct_private vm2 T user_root vm_direct P). unfold vm_direct. pose proof vm_direct_ok as Hok. revert Hok.
  destruct (map (s_kernel_space vm2) HHDM_BASE 0 direct_flags vm2) as [[[]|e|] s']; [reflexivity|intros [=]|intros [=]].
Qed.

(** A segment of one byte below the end of user space, whose eight bytes in the file
    the loader copies all the same. *)
Definition escaping_segment : Elf64_Phdr := mkPhdr PT_LOAD 6 120 (USER_SPACE_END - 4) 0 8 1 0x1000.
Definition escaping_program : list Z := Eval vm_compute in program_file [escaping_segment] [1; 2; 3; 4; 5; 6; 7; 8].
Definition escaping_loading : Loading Pmm (Heap Pmm) (list Z) := mkLoading vm_direct demo_heap escaping_program.

(** The loader compares [p_memsz] with the end of user space and copies
    [p_filesz] bytes.  A program whose segment ends just below the end of user space
    in memory and holds more bytes in the file is loaded without an error, and the
    bytes that do not fit are stored through the kernel's half of the tables: the
    machine is in order before, physical address 0 is the kernel's and not a page of
    the program, and loading the program overwrites it. *)
Theorem loader_writes_kernel_memory :
  (exists T, private_space (l_vm escaping_loading) T user_root) /\ bh_inv (l_heap escaping_loading) ∅
  /\ is_program (fi_content (l_file escaping_loading)) = true
  /\ translate (l_vm escaping_loading) (s_kernel_space (l_vm escaping_loading)) HHDM_BASE = Ok 0
  /\ match load_executable user_root escaping_loading with
     | (Ok _, s') => (byte_at (l_vm escaping_loading) <$> [0; 1; 2; 3]) = [0; 0; 0; 0] /\ (byte_at (l_vm s') <$> [0; 1; 2; 3]) = [5; 6; 7; 8]
     | _ => False
     end.
Proof. split; [exact vm_direct_private|]. split; [exact demo_heap_inv|]. split_and!; [vm_compute; reflexivity..|]. vm_compute. split; reflexivity. Qed.

(** The size [p_filesz] reaches [kmalloc] unchecked, which adds the size of its
    header modulo two to the 64: for sizes just below that the block is the smallest
    there is, and the read into it runs over its end. *)
Definition wrapping_segment : Elf64_Phdr := mkPhdr PT_LOAD 6 0 0x400000 0 (2 ^ 64 - 8) 1 0x1000.
Definition wrapping_program : list Z := Eval vm_compute in program_file [wrapping_segment] [].

Lemma loader_overruns_block : is_program (list_content wrapping_program) = true
  /\ (let '(r, h) := kmalloc (2 ^ 64 - 8) demo_heap in block_room h <$> match r with Ok p => Some p | _ => None end) = Some 16
  /\ fst (load_executable user_root (demo_loading wrapping_program)) = Panic.
Proof. split_and!; vm_compute; reflexivity. Qed.
