(* ===== verification/UserStack.v ===== *)
(** * The stack a program starts on

    [setup_user_stack] of kernel/sys/elf_loader.cpp: the argument strings, the
    pointers to them and the auxiliary vector are laid out in a buffer of the kernel
    heap and copied to the top of the new space in one piece.  A string is its bytes
    without the terminator, and a null array is an empty one. *)

From S2P Require Import Prelude Kstd Words Physical AddressSpace PageTables Boot Spaces Clone AddressSpaces UserMemory Mmap SpaceView Heap Elf ElfLoader.

Definition MAX_ARGUMENT_BYTES : Z := 32 * 1024.
Definition MAX_ARGUMENTS : Z := 256.

Definition AT_NULL : Z := 0.
Definition AT_PHDR : Z := 3.
Definition AT_PHENT : Z := 4.
Definition AT_PHNUM : Z := 5.
Definition AT_PAGESZ : Z := 6.
Definition AT_BASE : Z := 7.
Definition AT_FLAGS : Z := 8.
Definition AT_ENTRY : Z := 9.
Definition AT_UID : Z := 11.
Definition AT_EUID : Z := 12.
Definition AT_GID : Z := 13.
Definition AT_EGID : Z := 14.
Definition AT_SECURE : Z := 23.

(** A 64-bit word in memory. *)
Definition le64 (v : Z) : list Z := Z_to_little_endian 8 8 v.

(** ** Counting

    A string is its bytes without the terminator.  [None] is the return of E2BIG. *)
Fixpoint count_strings (strings : list (list Z)) (count string_bytes : Z) : option (Z * Z) :=
  match strings with
  | [] => Some (count, string_bytes)
  | text :: rest =>
      if MAX_ARGUMENTS <=? count then None
      else count_strings rest (count + 1) (u64 (string_bytes + (zlen text + 1)))
  end.

Definition auxiliary (executable : LoadedExecutable) : list (Z * Z) :=
  [(AT_PHDR, phdr_address executable); (AT_PHENT, phdr_entry_size executable); (AT_PHNUM, phdr_count executable);
   (AT_PAGESZ, PAGE_SIZE); (AT_ENTRY, entry executable); (AT_BASE, 0); (AT_FLAGS, 0); (AT_UID, 0); (AT_EUID, 0);
   (AT_GID, 0); (AT_EGID, 0); (AT_SECURE, 0); (AT_NULL, 0)].

(** ** Laying out the image *)

(** [write_string]: the image and the cursor afterwards, and the address returned. *)
Definition write_string (rsp : Z) (image : list Z) (string_cursor : Z) (text : list Z) : list Z * Z * Z :=
  (splice image string_cursor (text ++ [0]), string_cursor + (zlen text + 1), rsp + string_cursor).

(** The loop over [argv] or [envp] and the null pointer after it. *)
Fixpoint write_strings (rsp slot : Z) (strings : list (list Z)) (image : list Z) (string_cursor : Z) : list Z * Z :=
  match strings with
  | [] => (splice image slot (le64 0), string_cursor)
  | text :: rest =>
      let '(image, string_cursor, address) := write_string rsp image string_cursor text in
      write_strings rsp (slot + 8) rest (splice image slot (le64 address)) string_cursor
  end.

Fixpoint write_auxiliary (slot : Z) (entries : list (Z * Z)) (image : list Z) : list Z :=
  match entries with
  | [] => image
  | (type, value) :: rest => write_auxiliary (slot + 16) rest (splice image slot (le64 type ++ le64 value))
  end.

Definition stack_image (executable : LoadedExecutable) (argv envp : list (list Z)) (rsp total string_area : Z) : list Z :=
  let image := replicate (Z.to_nat total) 0 in
  let image := splice image 0 (le64 (zlen argv)) in
  let '(image, string_cursor) := write_strings rsp 8 argv image (total - string_area) in
  let envp_slots := 8 + 8 * (zlen argv + 1) in
  let '(image, string_cursor) := write_strings rsp envp_slots envp image string_cursor in
  write_auxiliary (envp_slots + 8 * (zlen envp + 1)) (auxiliary executable) image.

Section Stack.
Context {F K I : Type} {FA : FrameAllocator F} {BH : BufferHeap K} {FI : FileInode I}.

Definition setup_user_stack (space : Z) (executable : LoadedExecutable) (argv envp : list (list Z)) : M (Loading F K I) Z :=
  let stack_bottom := USER_STACK_TOP - USER_STACK_SIZE in
  on_vm (map_anonymous space stack_bottom USER_STACK_SIZE staging_flags) ;!
  match count_strings argv 0 0 with
  | None => merr E2BIG
  | Some (argument_count, string_bytes) =>
      match count_strings envp 0 string_bytes with
      | None => merr E2BIG
      | Some (environment_count, string_bytes) =>
          if MAX_ARGUMENT_BYTES <? string_bytes then merr E2BIG
          else
            let pointer_bytes := (argument_count + 1 + environment_count + 1) * 8 in
            let auxiliary_bytes := zlen (auxiliary executable) * 16 in
            let string_area := align_up string_bytes 16 in
            let total := align_up (8 + pointer_bytes + auxiliary_bytes + string_area) 16 in
            if USER_STACK_SIZE / 2 <? total then merr E2BIG
            else
              let! image := on_heap (bh_kzalloc total) in
              if image =? 0 then merr ENOMEM
              else
                let rsp := USER_STACK_TOP - total in
                let! copied := mcatch (on_vm (copy_into_space space rsp (stack_image executable argv envp rsp total string_area))) in
                on_heap (bh_kfree image) ;!
                match copied with
                | inr code => merr code
                | inl _ => mok rsp
                end
      end
  end.
End Stack.

(** ** The image in one piece *)

Definition zeros (n : Z) : list Z := replicate (Z.to_nat n) 0.

Lemma zlen_zeros n : 0 <= n -> zlen (zeros n) = n.
Proof. intros Hn. unfold zlen, zeros. rewrite length_replicate. lia. Qed.

Lemma zlen_le64 v : zlen (le64 v) = 8.
Proof. unfold zlen, le64. by rewrite length_Z_to_little_endian. Qed.

(** Storing over the first of some zeroes. *)
Lemma splice_zeros head n v rest : zlen v <= n -> splice (head ++ zeros n ++ rest) (zlen head) v = (head ++ v) ++ zeros (n - zlen v) ++ rest.
Proof.
  intros Hn. pose proof (zlen_nonneg v). replace (zeros n) with (replicate (length v) 0 ++ zeros (n - zlen v)).
  - rewrite <- app_assoc, splice_middle by apply length_replicate. by rewrite <- app_assoc.
  - unfold zeros, zlen in *. rewrite <- replicate_add. f_equal. lia.
Qed.

(** The strings one after the other with their terminators, and where each starts. *)
Definition pool (strings : list (list Z)) : list Z := concat ((fun text => text ++ [0]) <$> strings).
Fixpoint addresses (base : Z) (strings : list (list Z)) : list Z :=
  match strings with
  | [] => []
  | text :: rest => base :: addresses (base + (zlen text + 1)) rest
  end.
Definition words (values : list Z) : list Z := concat (le64 <$> values).
Definition auxiliary_bytes (entries : list (Z * Z)) : list Z := concat ((fun e => le64 e.1 ++ le64 e.2) <$> entries).

Lemma pool_cons text rest : pool (text :: rest) = (text ++ [0]) ++ pool rest.
Proof. done. Qed.

Lemma zlen_pool_cons text rest : zlen (pool (text :: rest)) = zlen text + 1 + zlen (pool rest).
Proof. rewrite pool_cons, !zlen_app. done. Qed.

Lemma zlen_cons {A} (x : A) l : zlen (x :: l) = 1 + zlen l.
Proof. unfold zlen. cbn [length]. lia. Qed.

Lemma zlen_words values : zlen (words values) = 8 * zlen values.
Proof. induction values as [|v values IH]; [done|]. unfold words in *. cbn [fmap list_fmap concat]. rewrite zlen_app, IH, zlen_le64, zlen_cons. lia. Qed.

Lemma zlen_addresses base strings : zlen (addresses base strings) = zlen strings.
Proof. revert base. induction strings as [|t l IH]; intros base; [done|]. cbn [addresses]. by rewrite !zlen_cons, IH. Qed.

Lemma zlen_auxiliary_bytes entries : zlen (auxiliary_bytes entries) = 16 * zlen entries.
Proof. induction entries as [|e l IH]; [done|]. unfold auxiliary_bytes in *. cbn [fmap list_fmap concat]. rewrite !zlen_app, IH, !zlen_le64, zlen_cons. lia. Qed.

(** Equal pieces in the same order. *)
Ltac same_pieces :=
  repeat match goal with
  | |- _ ++ _ = _ ++ _ => f_equal
  | |- zeros _ = zeros _ => f_equal; lia
  | |- concat _ = concat _ => f_equal
  | |- words _ = words _ => f_equal
  | |- _ <$> _ = _ <$> _ => f_equal
  | |- addresses _ ?l = addresses _ ?l => f_equal; lia
  end; try done.

Lemma write_strings_spec rsp strings : forall head m strs k slot cursor, slot = zlen head -> cursor = zlen head + m + zlen strs ->
  8 * (zlen strings + 1) <= m -> zlen (pool strings) <= k ->
  write_strings rsp slot strings (head ++ zeros m ++ strs ++ zeros k) cursor
  = ((head ++ words (addresses (rsp + cursor) strings) ++ le64 0) ++ zeros (m - 8 * (zlen strings + 1)) ++ (strs ++ pool strings) ++ zeros (k - zlen (pool strings)),
     cursor + zlen (pool strings)).
Proof.
  induction strings as [|text rest IH]; intros head m strs k slot cursor Es Ec Hm Hk.
  - cbn [write_strings]. change (zlen []) with 0 in *. subst slot. rewrite splice_zeros by (rewrite zlen_le64; lia). rewrite zlen_le64. cbn. change (zlen []) with 0.
    rewrite app_nil_r, Z.add_0_r, Z.sub_0_r. done.
  - rewrite zlen_pool_cons in Hk. rewrite zlen_cons in Hm. pose proof (zlen_nonneg (pool rest)). pose proof (zlen_nonneg rest). pose proof (zlen_nonneg text).
    cbn [write_strings write_string addresses]. assert (Et : zlen (text ++ [0]) = zlen text + 1) by by rewrite zlen_app.
    replace (splice (head ++ zeros m ++ strs ++ zeros k) cursor (text ++ [0])) with (head ++ zeros m ++ (strs ++ text ++ [0]) ++ zeros (k - (zlen text + 1))).
    + subst slot. rewrite splice_zeros by (rewrite zlen_le64; lia). rewrite zlen_le64, IH.
      * f_equal; [|rewrite zlen_pool_cons; lia]. rewrite zlen_cons, zlen_pool_cons, pool_cons. unfold words. cbn [fmap list_fmap concat]. rewrite <- !app_assoc. same_pieces.
      * rewrite zlen_app, zlen_le64. lia.
      * rewrite !zlen_app, zlen_le64. change (zlen [0]) with 1. lia.
      * lia.
      * lia.
    + assert (Hc : zlen (head ++ zeros m ++ strs) = cursor) by (rewrite !zlen_app, zlen_zeros by lia; lia).
      pose proof (splice_zeros (head ++ zeros m ++ strs) k (text ++ [0]) [] ltac:(lia)) as E. rewrite Hc, !app_nil_r, Et in E. rewrite <- !app_assoc in E. by rewrite <- !app_assoc, E.
Qed.

Lemma write_auxiliary_spec entries : forall head m rest slot, slot = zlen head -> 16 * zlen entries <= m ->
  write_auxiliary slot entries (head ++ zeros m ++ rest) = (head ++ auxiliary_bytes entries) ++ zeros (m - 16 * zlen entries) ++ rest.
Proof.
  induction entries as [|[t v] entries IH]; intros head m rest slot Es Hm; cbn [write_auxiliary].
  - change (zlen []) with 0. cbn. by rewrite app_nil_r, Z.sub_0_r.
  - rewrite zlen_cons in *. pose proof (zlen_nonneg entries). subst slot. assert (El : zlen (le64 t ++ le64 v) = 16) by by rewrite zlen_app, !zlen_le64.
    rewrite splice_zeros by lia. rewrite El, IH by (rewrite ?zlen_app, ?zlen_le64; lia). unfold auxiliary_bytes. cbn [fmap list_fmap concat fst snd]. rewrite <- !app_assoc. same_pieces.
Qed.

Lemma stack_image_eq executable argv envp rsp total string_area :
  let head := 8 + 8 * (zlen argv + 1) + 8 * (zlen envp + 1) + 16 * zlen (auxiliary executable) in
  head + string_area <= total -> zlen (pool argv) + zlen (pool envp) <= string_area ->
  stack_image executable argv envp rsp total string_area
  = le64 (zlen argv) ++ (words (addresses (rsp + (total - string_area)) argv) ++ le64 0)
    ++ (words (addresses (rsp + (total - string_area) + zlen (pool argv)) envp) ++ le64 0) ++ auxiliary_bytes (auxiliary executable)
    ++ zeros (total - string_area - head) ++ pool argv ++ pool envp ++ zeros (string_area - zlen (pool argv) - zlen (pool envp)).
Proof.
  intros head Hh Ha. pose proof (zlen_nonneg argv). pose proof (zlen_nonneg envp). pose proof (zlen_nonneg (pool argv)). pose proof (zlen_nonneg (pool envp)).
  pose proof (zlen_nonneg (auxiliary executable)). unfold stack_image. fold (zeros total).
  assert (E0 : splice (zeros total) 0 (le64 (zlen argv)) = le64 (zlen argv) ++ zeros (total - string_area - 8) ++ [] ++ zeros string_area).
  { pose proof (splice_zeros [] total (le64 (zlen argv)) [] ltac:(rewrite zlen_le64; lia)) as E. cbn [app] in E. rewrite !app_nil_r, zlen_le64 in E. change (zlen []) with 0 in E.
    rewrite E. cbn [app]. f_equal. unfold zeros. rewrite <- replicate_add. f_equal. lia. }
  rewrite E0, write_strings_spec by (rewrite ?zlen_le64; change (zlen []) with 0; lia). cbn [app].
  set (h1 := le64 (zlen argv) ++ _). assert (L1 : zlen h1 = 8 + 8 * (zlen argv + 1)) by (unfold h1; rewrite !zlen_app, zlen_words, zlen_addresses, !zlen_le64; lia).
  rewrite write_strings_spec by (rewrite ?L1; lia). set (h2 := h1 ++ _). assert (L2 : zlen h2 = 8 + 8 * (zlen argv + 1) + 8 * (zlen envp + 1)).
  { unfold h2. rewrite !zlen_app, L1, zlen_words, zlen_addresses, !zlen_le64. lia. }
  rewrite write_auxiliary_spec by (rewrite ?L2; lia). unfold h2, h1. rewrite <- !app_assoc. same_pieces.
Qed.

(** ** What the program finds *)

Section Finds.
Context {F : Type} {FA : FrameAllocator F}.

Lemma reads_part (s : Vm F) r a l1 l2 l3 : reads_as s r a (l1 ++ l2 ++ l3) -> reads_as s r (a + zlen l1) l2.
Proof.
  intros H k Hk. pose proof (zlen_nonneg l1). pose proof (zlen_nonneg l3). destruct (H (zlen l1 + k)) as [q Hq]; [rewrite !zlen_app; lia|].
  exists q. replace (a + zlen l1 + k) with (a + (zlen l1 + k)) by lia. rewrite Hq. do 2 f_equal.
  rewrite zget_app_r by lia. replace (zlen l1 + k - zlen l1) with k by lia. by apply zget_app_l.
Qed.

Lemma reads_first (s : Vm F) r a l1 l2 : reads_as s r a (l1 ++ l2) -> reads_as s r a l1.
Proof. intros H. pose proof (reads_part s r a [] l1 l2 H) as G. change (zlen []) with 0 in G. by rewrite Z.add_0_r in G. Qed.

Lemma reads_last (s : Vm F) r a l1 l2 : reads_as s r a (l1 ++ l2) -> reads_as s r (a + zlen l1) l2.
Proof. intros H. apply (reads_part s r a l1 l2 []). by rewrite app_nil_r. Qed.

(** An array of pointers to strings that ends with a null pointer. *)
Fixpoint string_array (s : Vm F) (r slot : Z) (strings : list (list Z)) : Prop :=
  match strings with
  | [] => reads_as s r slot (le64 0)
  | text :: rest => (exists p, reads_as s r slot (le64 p) /\ reads_as s r p (text ++ [0])) /\ string_array s r (slot + 8) rest
  end.

Lemma string_array_laid s r strings : forall slot base, reads_as s r slot (words (addresses base strings) ++ le64 0) -> reads_as s r base (pool strings) ->
  string_array s r slot strings.
Proof.
  induction strings as [|text rest IH]; intros slot base Hw Hp; [exact Hw|]. cbn [string_array addresses] in *. unfold words in Hw. cbn [fmap list_fmap concat] in Hw.
  rewrite <- app_assoc in Hw. rewrite pool_cons in Hp. split.
  - exists base. split; [exact (reads_first _ _ _ _ _ Hw)|exact (reads_first _ _ _ _ _ Hp)].
  - apply reads_last in Hw, Hp. rewrite zlen_le64 in Hw. rewrite zlen_app in Hp. exact (IH _ _ Hw Hp).
Qed.
End Finds.

(** ** Sizes *)

Lemma align_up_16 v : 0 <= v < 2 ^ 63 -> v <= align_up v 16 < v + 16 /\ align_up v 16 mod 16 = 0.
Proof.
  intros Hv. unfold align_up. change (u64 (Z.lnot (16 - 1))) with (u64 (Z.lnot (2 ^ 4 - 1))). rewrite u64_small by (unfold is_u64; lia).
  rewrite land_lnot_low by (unfold is_u64; lia). change (2 ^ 4) with 16. split; [zlia|apply Z.mod_mul; lia].
Qed.

Definition stack_strings (argv envp : list (list Z)) : Z := zlen (pool argv) + zlen (pool envp).
Definition stack_total (argv envp : list (list Z)) : Z :=
  align_up (8 + (zlen argv + 1 + zlen envp + 1) * 8 + 13 * 16 + align_up (stack_strings argv envp) 16) 16.
Definition arguments_fit (argv envp : list (list Z)) : bool :=
  (zlen argv <=? MAX_ARGUMENTS) && (zlen envp <=? MAX_ARGUMENTS) && (stack_strings argv envp <=? MAX_ARGUMENT_BYTES)
  && (stack_total argv envp <=? USER_STACK_SIZE / 2).

Lemma count_strings_spec strings : forall count bytes, 0 <= count <= MAX_ARGUMENTS -> 0 <= bytes -> bytes + zlen (pool strings) < 2 ^ 64 ->
  count_strings strings count bytes = if count + zlen strings <=? MAX_ARGUMENTS then Some (count + zlen strings, bytes + zlen (pool strings)) else None.
Proof.
  induction strings as [|text rest IH]; intros count bytes Hc Hb Hs; cbn [count_strings].
  - change (zlen (pool [])) with 0. change (zlen []) with 0. rewrite !Z.add_0_r. by rewrite (proj2 (Z.leb_le _ _)) by lia.
  - rewrite zlen_pool_cons, zlen_cons in *. pose proof (zlen_nonneg rest). pose proof (zlen_nonneg text). pose proof (zlen_nonneg (pool rest)).
    destruct (Z.leb_spec MAX_ARGUMENTS count) as [Hge|Hlt]; [by rewrite (proj2 (Z.leb_gt _ _)) by lia|].
    rewrite u64_small by (unfold is_u64; lia). rewrite IH by lia. replace (count + 1 + zlen rest) with (count + (1 + zlen rest)) by lia.
    destruct (_ <=? _); [|done]. do 2 f_equal. lia.
Qed.

Lemma pool_bytes strings : Forall (Forall (fun b => 0 <= b < 256)) strings -> Forall (fun b => 0 <= b < 256) (pool strings).
Proof.
  intros H. induction H as [|text rest Ht H IH]; [constructor|]. rewrite pool_cons. apply Forall_app. split; [|done].
  apply Forall_app. split; [done|]. constructor; [lia|constructor].
Qed.

Lemma le64_bytes v : Forall (fun b => 0 <= b < 256) (le64 v).
Proof. apply (Z_to_little_endian_bound 8 8 v); lia. Qed.

Lemma words_bytes values : Forall (fun b => 0 <= b < 256) (words values).
Proof. unfold words. apply Forall_concat, Forall_fmap, Forall_true. intros v. apply le64_bytes. Qed.

Lemma auxiliary_bytes_ok entries : Forall (fun b => 0 <= b < 256) (auxiliary_bytes entries).
Proof. unfold auxiliary_bytes. apply Forall_concat, Forall_fmap, Forall_true. intros e. apply Forall_app. split; apply le64_bytes. Qed.

Lemma zeros_bytes n : Forall (fun b => 0 <= b < 256) (zeros n).
Proof. apply Forall_replicate. lia. Qed.

Create HintDb bytes.
#[export] Hint Resolve le64_bytes words_bytes auxiliary_bytes_ok zeros_bytes pool_bytes Forall_app_2 : bytes.

(** ** The steps *)

Section Setup.
Context {F K I : Type} {FA : FrameAllocator F} {BH : BufferHeap K} {FI : FileInode I}.
Implicit Types (s : Loading F K I) (T : gmap Z Place) (L : gmap Z Z).

Lemma kzalloc_step s T L r n : private_space (l_vm s) T r -> bh_inv (l_heap s) L -> size_ok n ->
  exists p s', on_heap (bh_kzalloc n) s = (Ok p, s') /\ l_vm s' = l_vm s
    /\ (p = 0 /\ advanced s T r s' T L \/ p <> 0 /\ L !! p = None /\ advanced s T r s' T (<[p := n]> L)).
Proof.
  intros Hs Hk Hn. destruct (bh_kzalloc_spec (l_heap s) L n Hk Hn) as (p & k' & E & Hor). unfold on_heap. rewrite E.
  exists p. eexists. split_and!; [done|done|]. destruct Hor as [[-> Hi]|(Hp & Hn' & Hi)]; [left|right]; split_and!; try done; (split; [by apply kept_refl|done..]).
Qed.

Definition in_stack (a : Z) : Prop := USER_STACK_TOP - USER_STACK_SIZE <= a < USER_STACK_TOP.

Lemma stack_constants : 0 <= USER_STACK_TOP - USER_STACK_SIZE <= USER_SPACE_END /\ (USER_STACK_TOP - USER_STACK_SIZE) mod PAGE_SIZE = 0
  /\ 0 <= USER_STACK_TOP <= USER_SPACE_END /\ USER_STACK_TOP mod PAGE_SIZE = 0 /\ u64 (USER_STACK_TOP - (USER_STACK_TOP - USER_STACK_SIZE)) = USER_STACK_SIZE.
Proof. vm_compute. split_and!; congruence. Qed.

Lemma stack_mapped s T L r : private_space (l_vm s) T r -> bh_inv (l_heap s) L ->
  match on_vm (map_anonymous r (USER_STACK_TOP - USER_STACK_SIZE) USER_STACK_SIZE staging_flags) s with
  | (Ok _, s') => exists T', advanced s T r s' T' L /\ (forall a, in_stack a -> view (l_vm s') r a <> None)
      /\ forall a, 0 <= a < USER_SPACE_END -> ~ in_stack a -> view (l_vm s') r a = view (l_vm s) r a
  | (Err e, s') => e = ENOMEM /\ exists T', advanced s T r s' T' L
  | (Panic, _) => False
  end.
Proof.
  intros Hs Hk. destruct stack_constants as (C1 & C2 & C3 & C4 & C5). destruct staging_flags_ok as (G1 & G2 & G3).
  pose proof (map_anonymous_view (l_vm s) T r (USER_STACK_TOP - USER_STACK_SIZE) USER_STACK_TOP staging_flags Hs G1 G2 G3 C1 C2 C3 C4) as H.
  rewrite C5 in H. unfold on_vm. destruct (map_anonymous r _ USER_STACK_SIZE staging_flags (l_vm s)) as [[u|e|] v']; [| |done].
  - destruct H as (T' & K1 & V). exists T'. split_and!; [by split| |]; cbn [l_vm].
    + intros a Ha. unfold in_stack in Ha. rewrite V by lia. unfold fresh_view. rewrite (proj2 (Z.leb_le _ _)), (proj2 (Z.ltb_lt _ _)) by lia. by destruct (view (l_vm s) r a).
    + intros a Ha Hn. rewrite V by done. unfold fresh_view, in_stack in *. destruct (view (l_vm s) r a); [done|].
      destruct (Z.leb_spec (USER_STACK_TOP - USER_STACK_SIZE) a), (Z.ltb_spec a USER_STACK_TOP); cbn [andb]; done || lia.
  - destruct H as (-> & T' & K1). split; [done|]. exists T'. by split.
Qed.

(** What the program finds at [rsp]. *)
Definition stack_laid (v : Vm F) (r rsp : Z) (executable : LoadedExecutable) (argv envp : list (list Z)) : Prop :=
  rsp mod 16 = 0 /\ reads_as v r rsp (le64 (zlen argv)) /\ string_array v r (rsp + 8) argv
  /\ string_array v r (rsp + 8 + 8 * (zlen argv + 1)) envp
  /\ reads_as v r (rsp + 8 + 8 * (zlen argv + 1) + 8 * (zlen envp + 1)) (auxiliary_bytes (auxiliary executable)).

Lemma image_laid v r executable argv envp : let total := stack_total argv envp in let rsp := USER_STACK_TOP - total in
  stack_strings argv envp <= MAX_ARGUMENT_BYTES -> zlen argv <= MAX_ARGUMENTS -> zlen envp <= MAX_ARGUMENTS ->
  let image := stack_image executable argv envp rsp total (align_up (stack_strings argv envp) 16) in
  zlen image = total /\ 0 < total /\ (reads_as v r rsp image -> stack_laid v r rsp executable argv envp)
  /\ (Forall (Forall (fun b => 0 <= b < 256)) argv -> Forall (Forall (fun b => 0 <= b < 256)) envp -> Forall (fun b => 0 <= b < 256) image).
Proof.
  intros total rsp Hsb Ha He image. unfold MAX_ARGUMENT_BYTES, MAX_ARGUMENTS in *. pose proof (zlen_nonneg argv). pose proof (zlen_nonneg envp).
  pose proof (zlen_nonneg (pool argv)). pose proof (zlen_nonneg (pool envp)). assert (Hss : 0 <= stack_strings argv envp) by (unfold stack_strings; lia).
  destruct (align_up_16 (stack_strings argv envp) ltac:(lia)) as [A1 A2].
  destruct (align_up_16 (8 + (zlen argv + 1 + zlen envp + 1) * 8 + 13 * 16 + align_up (stack_strings argv envp) 16) ltac:(lia)) as [B1 B2].
  fold (stack_total argv envp) in B1, B2. fold total in B1, B2. set (area := align_up (stack_strings argv envp) 16) in *.
  pose proof (stack_image_eq executable argv envp rsp total area) as E. cbv zeta in E. change (zlen (auxiliary executable)) with 13 in E.
  specialize (E ltac:(lia) ltac:(unfold stack_strings in A1; lia)). change (stack_image executable argv envp rsp total area) with image in E. split_and!.
  - rewrite E, !zlen_app, !zlen_words, !zlen_addresses, !zlen_le64, zlen_auxiliary_bytes, !zlen_zeros by (unfold stack_strings in *; lia).
    change (zlen (auxiliary executable)) with 13. lia.
  - lia.
  - intros Hr. rewrite E in Hr. assert (Hb : rsp mod 16 = 0) by (unfold rsp, USER_STACK_TOP; zlia).
    pose proof (reads_first _ _ _ _ _ Hr) as R0. apply reads_last in Hr. rewrite zlen_le64 in Hr.
    pose proof (reads_first _ _ _ _ _ Hr) as R1. apply reads_last in Hr. rewrite zlen_app, zlen_words, zlen_addresses, zlen_le64 in Hr.
    pose proof (reads_first _ _ _ _ _ Hr) as R2. apply reads_last in Hr. rewrite zlen_app, zlen_words, zlen_addresses, zlen_le64 in Hr.
    pose proof (reads_first _ _ _ _ _ Hr) as R3. apply reads_last in Hr. rewrite zlen_auxiliary_bytes in Hr. change (zlen (auxiliary executable)) with 13 in Hr.
    apply reads_last in Hr. rewrite zlen_zeros in Hr by lia.
    pose proof (reads_first _ _ _ _ _ Hr) as R4. apply reads_last in Hr. pose proof (reads_first _ _ _ _ _ Hr) as R5.
    split_and!; [done|done| | |].
    + apply (string_array_laid v r argv _ _ R1). replace (rsp + (total - area)) with (rsp + 8 + (8 * zlen argv + 8) + (8 * zlen envp + 8) + 16 * 13 + (total - area - (8 + 8 * (zlen argv + 1) + 8 * (zlen envp + 1) + 16 * 13))) by lia. exact R4.
    + replace (rsp + 8 + 8 * (zlen argv + 1)) with (rsp + 8 + (8 * zlen argv + 8)) by lia. apply (string_array_laid v r envp _ _ R2).
      replace (rsp + (total - area) + zlen (pool argv)) with (rsp + 8 + (8 * zlen argv + 8) + (8 * zlen envp + 8) + 16 * 13 + (total - area - (8 + 8 * (zlen argv + 1) + 8 * (zlen envp + 1) + 16 * 13)) + zlen (pool argv)) by lia. exact R5.
    + replace (rsp + 8 + 8 * (zlen argv + 1) + 8 * (zlen envp + 1)) with (rsp + 8 + (8 * zlen argv + 8) + (8 * zlen envp + 8)) by lia. exact R3.
  - intros Fa Fe. rewrite E. auto 20 with bytes.
Qed.
End Setup.

Section Outcome.
Context {F K I : Type} {FA : FrameAllocator F} {BH : BufferHeap K} {FI : FileInode I}.
Implicit Types (s : Loading F K I) (T : gmap Z Place) (L : gmap Z Z).

(** From the buffer on. *)
Definition place_image (space total : Z) (image_of : list Z) : M (Loading F K I) Z :=
  let! image := on_heap (bh_kzalloc total) in
  if image =? 0 then merr ENOMEM
  else
    let! copied := mcatch (on_vm (copy_into_space space (USER_STACK_TOP - total) image_of)) in
    on_heap (bh_kfree image) ;!
    match copied with
    | inr code => merr code
    | inl _ => mok (USER_STACK_TOP - total)
    end.

Lemma place_image_spec s T L r bytes : private_space (l_vm s) T r -> bh_inv (l_heap s) L -> Forall (fun b => 0 <= b < 256) bytes ->
  0 < zlen bytes <= USER_STACK_SIZE -> (forall a, in_stack a -> view (l_vm s) r a <> None) ->
  match place_image r (zlen bytes) bytes s with
  | (Ok rsp, s') => rsp = USER_STACK_TOP - zlen bytes /\ advanced s T r s' T L /\ reads_as (l_vm s') r rsp bytes
      /\ forall a, 0 <= a < USER_SPACE_END -> view (l_vm s') r a = over_view rsp bytes a (view (l_vm s) r a)
  | (Err e, s') => e = ENOMEM /\ advanced s T r s' T L
  | (Panic, _) => False
  end.
Proof.
  intros Hs Hk Hby Hz Hst. destruct stack_constants as (C1 & _ & C3 & _). unfold place_image.
  destruct (kzalloc_step s T L r (zlen bytes) Hs Hk) as (p & s1 & E1 & V1 & Hp); [unfold size_ok, PAGE_SIZE, HEADER_SIZE, USER_STACK_SIZE in *; lia|].
  rewrite (mtry_ok _ _ _ _ _ E1). destruct Hp as [[-> A1]|(Hp0 & Hpn & A1)]; [by rewrite Z.eqb_refl|]. rewrite (proj2 (Z.eqb_neq p 0) Hp0).
  unfold mtry at 1, mcatch at 1.
  pose proof (copy_step s1 T _ r (USER_STACK_TOP - zlen bytes) bytes (ad_space _ _ _ _ _ _ A1) (ad_heap _ _ _ _ _ _ A1) Hby ltac:(lia) ltac:(lia)) as Hc.
  rewrite V1 in Hc. destruct (on_vm (copy_into_space r (USER_STACK_TOP - zlen bytes) bytes) s1) as [[u|e|] s2]; [| |done].
  - destruct Hc as (A2 & V2 & M2). unfold mtry.
    destruct (kfree_step s2 T _ r p _ (ad_space _ _ _ _ _ _ A2) (ad_heap _ _ _ _ _ _ A2) ltac:(apply lookup_insert_eq) Hp0) as (s3 & E3 & V3 & A3).
    rewrite E3. rewrite delete_insert_id in A3 by done. cbv beta iota delta [mok]. rewrite V3. split_and!; [done| | |done].
    + exact (advanced_trans _ _ _ _ _ _ _ _ _ A1 (advanced_trans _ _ _ _ _ _ _ _ _ A2 A3)).
    + apply (reads_over (l_vm s)); [lia|lia|done|done].
  - destruct Hc as (_ & a & Ha & Hn). destruct (Hst a); [unfold in_stack; lia|done].
Qed.

Lemma over_outside rsp bytes a old : rsp + zlen bytes = USER_STACK_TOP -> zlen bytes <= USER_STACK_SIZE -> ~ in_stack a -> over_view rsp bytes a old = old.
Proof.
  intros He Hl Hn. unfold over_view, in_stack in *. destruct (Z.leb_spec rsp a), (Z.ltb_spec a (rsp + zlen bytes)); cbn [andb]; done || lia.
Qed.

(** The checks, in the order the code makes them. *)
Lemma setup_user_stack_run s r executable argv envp : stack_strings argv envp < 2 ^ 64 ->
  setup_user_stack r executable argv envp s
  = (on_vm (map_anonymous r (USER_STACK_TOP - USER_STACK_SIZE) USER_STACK_SIZE staging_flags) ;!
     if arguments_fit argv envp
     then place_image r (stack_total argv envp) (stack_image executable argv envp (USER_STACK_TOP - stack_total argv envp) (stack_total argv envp) (align_up (stack_strings argv envp) 16))
     else merr E2BIG) s.
Proof.
  intros Hs. unfold setup_user_stack, mtry. destruct (on_vm (map_anonymous _ _ _ _) s) as [[u|e|] s1]; [|done|done].
  pose proof (zlen_nonneg (pool argv)). pose proof (zlen_nonneg (pool envp)). unfold stack_strings in Hs.
  rewrite (count_strings_spec argv 0 0) by (unfold MAX_ARGUMENTS; lia). unfold arguments_fit. rewrite !Z.add_0_l.
  destruct (Z.leb_spec (zlen argv) MAX_ARGUMENTS) as [Ha|Ha]; cbn [andb]; [|done].
  rewrite (count_strings_spec envp 0) by (unfold MAX_ARGUMENTS; lia). rewrite Z.add_0_l. destruct (Z.leb_spec (zlen envp) MAX_ARGUMENTS) as [He|He]; cbn [andb]; [|done].
  fold (stack_strings argv envp). change (zlen (auxiliary executable) * 16) with (13 * 16). fold (stack_total argv envp).
  destruct (Z.ltb_spec MAX_ARGUMENT_BYTES (stack_strings argv envp)), (Z.leb_spec (stack_strings argv envp) MAX_ARGUMENT_BYTES); try lia; [done|]. cbn [andb].
  destruct (Z.ltb_spec (USER_STACK_SIZE / 2) (stack_total argv envp)), (Z.leb_spec (stack_total argv envp) (USER_STACK_SIZE / 2)); try lia; done.
Qed.

Lemma setup_stack_spec s T L r executable argv envp : private_space (l_vm s) T r -> bh_inv (l_heap s) L -> stack_strings argv envp < 2 ^ 64 ->
  Forall (Forall (fun b => 0 <= b < 256)) argv -> Forall (Forall (fun b => 0 <= b < 256)) envp ->
  let '(res, s') := setup_user_stack r executable argv envp s in
  (exists T', advanced s T r s' T' L)
  /\ match res with
     | Ok rsp => arguments_fit argv envp = true /\ rsp = USER_STACK_TOP - stack_total argv envp
         /\ stack_laid (l_vm s') r rsp executable argv envp
         /\ forall a, 0 <= a < USER_SPACE_END -> ~ in_stack a -> view (l_vm s') r a = view (l_vm s) r a
     | Err e => e = E2BIG /\ arguments_fit argv envp = false \/ e = ENOMEM
     | Panic => False
     end.
Proof.
  intros Hs Hk Hlen Fa Fe. rewrite setup_user_stack_run by done. unfold mtry. pose proof (stack_mapped s T L r Hs Hk) as Hm.
  destruct (on_vm (map_anonymous r _ _ _) s) as [[u|e|] s1]; [| |done].
  2:{ destruct Hm as (-> & T1 & A1). split; [by exists T1|by right]. }
  destruct Hm as (T1 & A1 & M1 & V1). destruct (arguments_fit argv envp) eqn:Ef; [|split; [by exists T1|by left]].
  pose proof Ef as Ef'. unfold arguments_fit in Ef'. repeat (apply andb_true_iff in Ef' as [Ef' ?]). repeat match goal with H : (_ <=? _) = true |- _ => apply Z.leb_le in H end.
  set (image := stack_image executable argv envp _ _ _). assert (Hb : zlen image = stack_total argv envp /\ 0 < stack_total argv envp /\ Forall (fun b => 0 <= b < 256) image).
  { destruct (image_laid (l_vm s) r executable argv envp) as (I1 & I2 & _ & I4); [done..|]. split_and!; [done|done|by apply I4]. }
  destruct Hb as (Iz & Ip & Ib). rewrite <- Iz. pose proof (place_image_spec s1 T1 L r image (ad_space _ _ _ _ _ _ A1) (ad_heap _ _ _ _ _ _ A1) Ib) as Hp.
  specialize (Hp ltac:(rewrite Iz; unfold USER_STACK_SIZE in *; split; [done|zlia]) M1). destruct (place_image r (zlen image) image s1) as [[rsp|e|] s2]; [| |done].
  - destruct Hp as (Er & A2 & R2 & V2). pose proof (advanced_trans _ _ _ _ _ _ _ _ _ A1 A2) as A. split_and!; [by exists T1|done|by rewrite Er, Iz| |].
    + rewrite Iz in Er. rewrite Er in R2 |- *. by apply (image_laid (l_vm s2) r executable argv envp).
    + intros a Ha Hn. rewrite V2, (over_outside rsp) by (done || rewrite ?Er, ?Iz; unfold USER_STACK_SIZE in *; zlia). by apply V1.
  - destruct Hp as (-> & A2). pose proof (advanced_trans _ _ _ _ _ _ _ _ _ A1 A2) as A. split; [by exists T1|by right].
Qed.
End Outcome.

(** C16: [setup_user_stack] gives the program the stack its entry point expects, or
    says why not.  When it succeeds the stack pointer is 16-byte aligned, at it is
    the number of arguments, then a null-terminated array of pointers to the argument
    strings, one to the environment strings, and the auxiliary vector; each pointer
    leads to its string with its terminator, all inside the stack.  It fails with
    E2BIG exactly when the strings do not fit and otherwise only with ENOMEM.  The
    rest of the space, every other space and the kernel's memory stay as they were,
    and the buffer is free again. *)
Theorem setup_user_stack_correct {F K I} {FA : FrameAllocator F} {BH : BufferHeap K} {FI : FileInode I} (s : Loading F K I) T L r executable argv envp :
  private_space (l_vm s) T r -> bh_inv (l_heap s) L -> stack_strings argv envp < 2 ^ 64 ->
  Forall (Forall (fun b => 0 <= b < 256)) argv -> Forall (Forall (fun b => 0 <= b < 256)) envp ->
  let '(res, s') := setup_user_stack r executable argv envp s in
  (exists T', kept (l_vm s) T (l_vm s') T' r) /\ bh_inv (l_heap s') L
  /\ match res with
     | Ok rsp => arguments_fit argv envp = true /\ rsp = USER_STACK_TOP - stack_total argv envp
         /\ stack_laid (l_vm s') r rsp executable argv envp
         /\ forall a, 0 <= a < USER_SPACE_END -> ~ in_stack a -> view (l_vm s') r a = view (l_vm s) r a
     | Err e => e = E2BIG /\ arguments_fit argv envp = false \/ e = ENOMEM
     | Panic => False
     end.
Proof.
  intros Hs Hk Hlen Fa Fe. pose proof (setup_stack_spec s T L r executable argv envp Hs Hk Hlen Fa Fe) as G.
  destruct (setup_user_stack r executable argv envp s) as [res s']. destruct G as [(T' & A) G]. split_and!; [exists T'; apply A|apply A|done].
Qed.

Lemma demo_stack_ok : fst (setup_user_stack user_root (executable_of demo_program) [[47; 98]] [[65; 61; 49]] (demo_loading demo_program)) = Ok (USER_STACK_TOP - 272).
Proof. vm_compute. reflexivity. Qed.

Lemma setup_user_stack_correct_witness : exists s',
  setup_user_stack user_root (executable_of demo_program) [[47; 98]] [[65; 61; 49]] (demo_loading demo_program) = (Ok (USER_STACK_TOP - 272), s')
  /\ stack_laid (l_vm s') user_root (USER_STACK_TOP - 272) (executable_of demo_program) [[47; 98]] [[65; 61; 49]] /\ bh_inv (l_heap s') ∅.
Proof.
  destruct vm2_private as [T P]. pose proof demo_stack_ok as Hok. revert Hok.
  pose proof (setup_user_stack_correct (demo_loading demo_program) T ∅ user_root (executable_of demo_program) [[47; 98]] [[65; 61; 49]] P demo_heap_inv
    ltac:(vm_compute; reflexivity) ltac:(repeat constructor; lia) ltac:(repeat constructor; lia)) as G. revert G.
  destruct (setup_user_stack user_root (executable_of demo_program) [[47; 98]] [[65; 61; 49]] (demo_loading demo_program)) as [[rsp|e|] s'];
    [|intros _ [=]|intros _ [=]]. intros (_ & Hh & _ & _ & S & _) [= ->]. exists s'. by split_and!.
Defined.
