(* ===== verification/Exec.v ===== *)
(** * Building a program's space

    The part of [sys_execve] (kernel/sys/syscall.cpp) between copying the arguments
    in and the point of no return, which [start_init] (kernel/sys/userland.cpp) has
    too: a new space is made, the program loaded into it and its stack laid out, and
    on any error the space is taken down again.  The arguments are the strings
    already copied in; giving their kernel copies back is not part of the model. *)

From S2P Require Import Prelude Kstd Words Physical AddressSpace PageTables Boot Spaces Clone AddressSpaces UserMemory Mmap SpaceView Heap Elf ElfLoader UserStack.

Section Exec.
Context {F K I : Type} {FA : FrameAllocator F} {BH : BufferHeap K} {FI : FileInode I}.

(** [object] says whether there was memory for the [AddressSpace] object. *)
Definition exec_image (object : bool) (argv envp : list (list Z)) : M (Loading F K I) (Z * LoadedExecutable * Z) :=
  let! space := on_vm (create_user_space object) in
  let! executable := mcatch (load_executable space) in
  match executable with
  | inr code => on_vm (drop_copy space) ;! merr code
  | inl executable =>
      let! stack := mcatch (setup_user_stack space executable argv envp) in
      match stack with
      | inr code => on_vm (drop_copy space) ;! merr code
      | inl rsp => mok (space, executable, rsp)
      end
  end.
End Exec.

(** ** Everybody else *)

Section Undisturbed.
Context {F : Type} {FA : FrameAllocator F}.
Implicit Types (s : Vm F) (T : gmap Z Place).

(** Every space there was shows what it did, and no byte of a page changed. *)
Record undisturbed s T s' : Prop := {
  un_inv : exists T', vm_inv s' T';
  un_kernel : s_kernel_space s' = s_kernel_space s;
  un_owned : forall b, fa_owned (frames s) b -> fa_owned (frames s') b;
  un_leaf : forall r a, live s r -> leaf s' r a = leaf s r a;
  un_data : forall f i, fa_owned (frames s) f -> ~ is_table T f -> frame_ok f -> 0 <= i < 512 -> entry_of s' f i = entry_of s f i;
}.

Lemma create_failed s T object e s' : vm_inv s T -> create_user_space object s = (Err e, s') -> e = ENOMEM /\ undisturbed s T s' /\ spaces s' = spaces s.
Proof.
  intros Hi E. pose proof (create_user_space_at s T object Hi) as H. rewrite E in H. destruct H as (-> & I' & Ho & Hsp & Hk & Hl).
  split; [done|]. split; [|done]. split; [by exists T|done|intros b; by apply Ho|done|]. intros f i Hf _ Hok Hx.
  rewrite create_user_space_eq in E. pose proof (allocate_zeroed_spec s T Hi) as Ha.
  destruct (allocate_zeroed_page s) as [[root|e'|] s1]; [|destruct Ha as [-> ->]; by simplify_eq|done]. destruct Ha as [Htf _].
  assert (Hne : f <> root) by (intros ->; exact (tf_new _ _ _ _ Htf Hf)). assert (Hk1 : s_kernel_space s1 = s_kernel_space s) by by rewrite (tf_rest _ _ _ _ Htf).
  pose proof (vi_spaces s T Hi _ (vi_kernel s T Hi)) as Hkp.
  destruct (share_upper s1 root) as (_ & _ & Hold); [apply Htf|rewrite Hk1; exact (place_frame s T _ _ Hi Hkp)| |].
  { rewrite Hk1. intros E'. rewrite <- E', (tf_unplaced s T s1 root Hi Htf) in Hkp. done. }
  cbv zeta in E, Hold. revert E Hold. generalize (share_kernel_half root s1). intros s2 E Hold. destruct object; [done|].
  assert (E2 : entry_of s2 f i = entry_of s f i) by (rewrite Hold by (done || by left); by apply (tf_data _ _ _ _ Htf)). rewrite <- E2.
  unfold free_frame, on_frames in E. by destruct (fa_free root (frames s2)) as [[u|?|] g]; simplify_eq.
Qed.

Section Built.
Context (s : Vm F) (T : gmap Z Place) (s1 : Vm F) (root : Z) (Hi : vm_inv s T) (Hn : new_space s T s1 root).
Let T1 := <[root := mkPlace root 4 0]> T.

Lemma live_not_new r : live s r -> r <> root.
Proof. intros [x Hx] ->. by rewrite (ns_fresh _ _ _ _ Hn) in Hx. Qed.

Lemma new_private : private_space s1 T1 root.
Proof.
  split; [apply Hn|unfold live; rewrite (ns_spaces _ _ _ _ Hn), lookup_insert_eq; by eexists| |].
  - rewrite (ns_kernel _ _ _ _ Hn). intros E. by apply (live_not_new _ (vi_kernel s T Hi)).
  - intros a l e Ha He. by rewrite (ns_user _ _ _ _ Hn a Ha) in He.
Qed.

Lemma new_view a : 0 <= a < USER_SPACE_END -> view s1 root a = None.
Proof. intros Ha. apply view_none, (ns_user _ _ _ _ Hn). by apply user_index. Qed.

Context (s2 : Vm F) (T2 : gmap Z Place) (Hk : kept s1 T1 s2 T2 root).

Lemma old_place b p : T2 !! b = Some p -> fa_owned (frames s) b -> T !! b = Some p.
Proof.
  intros Hb Ho. pose proof (kp_old _ _ _ _ _ Hk b p Hb ltac:(apply (ns_owned _ _ _ _ Hn); by right)) as H1. unfold T1 in H1.
  rewrite lookup_insert_ne in H1; [done|]. intros ->. exact (ns_new _ _ _ _ Hn Ho).
Qed.

Lemma old_space b p : T !! b = Some p -> p_space p <> root.
Proof. intros Hb. apply live_not_new. exact (place_live s T b p Hi Hb). Qed.

Lemma live_built r : live s2 r <-> r = root \/ live s r.
Proof.
  rewrite (kp_live _ _ _ _ _ Hk). unfold live. rewrite (ns_spaces _ _ _ _ Hn). destruct (decide (r = root)) as [->|Hne].
  - rewrite lookup_insert_eq. naive_solver.
  - rewrite lookup_insert_ne by done. naive_solver.
Qed.

Lemma built_undisturbed : undisturbed s T s2.
Proof.
  split.
  - exists T2. apply Hk.
  - by rewrite (kp_kernel _ _ _ _ _ Hk), (ns_kernel _ _ _ _ Hn).
  - intros b Hb. apply (kp_owned _ _ _ _ _ Hk), (ns_owned _ _ _ _ Hn). by right.
  - intros r a Hr. rewrite (kp_leaf _ _ _ _ _ Hk); [by apply (ns_leaf _ _ _ _ Hn)| |left; by apply live_not_new].
    unfold live. rewrite (ns_spaces _ _ _ _ Hn), lookup_insert_ne; [done|]. intros E. by apply (live_not_new r Hr).
  - intros f i Ho Hnt Hf Hx. assert (Hne : f <> root) by (intros ->; exact (ns_new _ _ _ _ Hn Ho)).
    rewrite (kp_data _ _ _ _ _ Hk f i); [by apply (ns_data _ _ _ _ Hn)|apply (ns_owned _ _ _ _ Hn); by right| | |done|done].
    + intros (p & Hp & Hl). unfold T1 in Hp. rewrite lookup_insert_ne in Hp by done. apply Hnt. by exists p.
    + intros n Hp. unfold T1 in Hp. rewrite lookup_insert_ne in Hp by done. by apply (old_space f _ Hp).
Qed.

(** Taking the space down again leaves the others as they were. *)
Lemma built_dropped : exists s3, drop_copy root s2 = (Ok tt, s3) /\ undisturbed s T s3 /\ forall r, live s3 r <-> live s r.
Proof.
  pose proof (kp_space _ _ _ _ _ Hk) as [I2 L2 K2 _]. destruct (destroy_user_mappings_at s2 T2 root I2 L2 K2) as (s3 & E & D).
  exists (with_spaces (delete root (spaces s3)) s3). split; [unfold drop_copy, mtry; by rewrite E|].
  assert (Hlive : forall x, live s3 x <-> live s2 x).
  { intros x. unfold live. rewrite (de_spaces _ _ _ _ D). destruct (decide (x = root)) as [->|].
    - rewrite lookup_alter_eq. destruct (spaces s2 !! root) eqn:?; naive_solver.
    - by rewrite lookup_alter_ne. }
  assert (Hl : forall r, live (with_spaces (delete root (spaces s3)) s3) r <-> live s r).
  { intros r. unfold live at 1. cbn [spaces with_spaces]. destruct (decide (r = root)) as [->|Hne].
    - rewrite lookup_delete_eq. split; [by intros []|]. intros Hr. by destruct (live_not_new root Hr).
    - rewrite lookup_delete_ne by done. fold (live s3 r). rewrite Hlive, live_built. naive_solver. }
  split; [|done]. pose proof built_undisturbed as U. split.
  - eexists. apply forget_space; [apply D|by apply Hlive|by rewrite (de_kernel _ _ _ _ D)|]. intros f p Hf. by apply without_Some in Hf as [_ ?].
  - cbn. by rewrite (de_kernel _ _ _ _ D), (un_kernel _ _ _ U).
  - intros b Hb. cbn. apply (de_owned _ _ _ _ D). split; [by apply (un_owned _ _ _ U)|]. intros p Hp. unfold private.
    pose proof (old_space b p (old_place b p Hp Hb)). by rewrite (proj2 (Z.eqb_neq _ _)).
  - intros r a Hr. change (leaf s3 r a = leaf s r a). rewrite (de_leaf _ _ _ _ D) by (apply live_built; by right). rewrite (un_leaf _ _ _ U) by done.
    rewrite (proj2 (Z.eqb_neq _ _)); [done|]. unfold own. destruct (_ <=? _); [done|by apply live_not_new].
  - intros f i Ho Hnt Hf Hx. change (entry_of s3 f i = entry_of s f i). rewrite (de_data _ _ _ _ D); [by apply (un_data _ _ _ U)| |done|done].
    intros ->. exact (ns_new _ _ _ _ Hn Ho).
Qed.
End Built.
End Undisturbed.

(** ** The theorem *)


Definition demo_argv : list (list Z) := [[47; 98]].
Definition demo_envp : list (list Z) := [[65; 61; 49]].
Definition demo_exec : Loading Pmm (Heap Pmm) (list Z) := mkLoading vm1 demo_heap demo_program.

Lemma demo_exec_ok : fst (exec_image true demo_argv demo_envp demo_exec) = Ok (user_root, mkLoaded 0x4000B0 0x400040 2 56 0x403000, USER_STACK_TOP - 272).
Proof. vm_compute. reflexivity. Qed.

